(* ===== verification/_CoqProject ===== *)
-Q . S2P
Prelude.v
CString.v
Posix.v
Chain.v
Threads.v
Db.v
DbRep.v
DbInv.v
DbOps.v
DbLocks.v
DbSpec.v
DbStore.v
DbSeq.v
DbThms.v
Mq.v
MqInv.v
MqThms.v
MqProps.v
SemIface.v
SemMmap.v
SemSv.v
SemFifo.v
SemProps.v
Rwlock.v
RwSys.v
RwProps.v
IoFd.v
IoReadn.v
IoGather.v
IoLine.v
IoLineThms.v
IoProps.v
Xfer.v
XferThms.v
FooHash.v
FooThms.v
Foo2.v
JobQ.v
Barrier.v
CondQ.v
ThrProps.v
PrUtil.v
PrReq.v
PrJobs.v
PrSpool.v
PrSpoolThms.v
PrIpp.v
PrStat.v
PrPrint.v
PrPrintThms.v
PrSubmit.v
PrProps.v
Dtree.v
DtreeCache.v
DtreeWalk.v
DtreeEvents.v
DtreeRun.v
DtreeFs.v
DtreeProps.v
Sh.v
ShThms.v
ShPipe.v
ShProps.v
Bufio.v
BufioThms.v
StrCli.v
StrCliThms.v
Semaph.v
SemaphThms.v
OpenServ.v
OpenServThms.v
Inet.v
InetThms.v
Gai.v
GaiThms.v
GaiProps.v
Smi.v
SmiThms.v
UspList.v
UspBuf.v
