(* ===== verification/Prelude.v ===== *)
(** * Verified components of a collection of Unix programs

    The repository collects the C code of several books on Unix programming:
    apue.3e (Advanced Programming in the UNIX Environment), unpv13e and
    unpv22e (UNIX Network Programming), tlpi-dist (The Linux Programming
    Interface), UNIX_Systems_Programming, Advanced_Unix_Programming, and
    smaller collections.  Most of
    it is short programs around one system call.  This development models
    the parts that are libraries with logic and state of their own, each
    translated function by function, and proves what makes them correct.

    ** Foundations
    - Prelude: machine integers, byte strings, the monad [Prog] of state and
      process exit, lemmas and hints on lengths and slices.
    - CString: the string and number conversions of libc.
    - Posix: regular files, open flags, error numbers, record locks.
    - Chain: linked lists in an array or heap, and doubly linked lists with
      a head and a tail, with what insertion at either end and removal do to
      them.  Threads: counting threads.
    - IoFd: descriptors that read and write in pieces, are interrupted and
      fail, and the stream of bytes behind such a descriptor.

    ** The database library (src/apue.3e/db/db.c, db.h, t4.c)
    Db models every function on the bytes of the index and data files: the
    free list, the hash chains, the record format, the lock requests and the
    write order.  DbRep and DbInv give the representation and its invariant;
    DbOps, DbLocks, DbSpec, DbStore and DbSeq what each function does to it; DbThms the properties: the operations implement
    a dictionary from keys to data (refinement), the behaviour of store,
    delete and fetch on every branch, the lock protocol (every write to a
    chain or free list pointer at the front of the index file is under a lock
    on its first byte, and all locks are released), completeness of a scan
    with db_nextrec, creation and reopening, the example program, and the
    argument checks, with the inputs they let through by mistake.

    ** POSIX message queues in a mapped file (src/unpv22e/my_pxmsg_mmap)
    Mq models every function; MqInv the invariant of the two linked lists of
    slots; MqThms the step relation of threads that block in mymq_send and
    mymq_receive, the order of messages and the races of
    mymq_open; MqProps the properties, among them that a queue with blocked
    receivers and messages can lose a wakeup.

    ** Semaphores (src/unpv22e/my_pxsem_mmap, my_pxsem_svsem, my_pxsem_fifo)
    SemIface is the interface a client relies on, a type class, and the
    producer-consumer program, proved safe and terminating against the
    interface; SemMmap, SemSv and SemFifo model the three libraries and are
    its instances; SemProps has the properties.

    ** Read-write locks (src/unpv22e/my_rwlock, my_rwlock_cancel)
    Rwlock models the two versions, RwSys the threads that use
    them; RwProps: mutual exclusion, preference of writers, no lost wakeups
    in the first version and a lost one in the second.

    ** Input and output (src/apue.3e/lib, src/unpv13e/lib, threads, server,
       src/unpv22e/lib, src/tlpi-dist/sockets,
       src/UNIX_Systems_Programming/chapter04/restart.c)
    IoReadn models the readn and writen families, IoLine the line readers,
    one Module per book; IoGather reduces the loops to two,
    IoLineThms relates the line readers to streams; IoProps:
    all of them read and write the same stream however it is cut into
    pieces, with the differences of their results.

    ** Transfer through shared memory (src/tlpi-dist/svshm/svshm_xfr_*.c,
       src/tlpi-dist/svsem/binary_sems.c)
    Xfer models the two processes statement by statement; XferThms: the
    invariant of their turns, and that the output is the input, without
    deadlock and with a bound on the steps.

    ** Objects with reference counts (src/apue.3e/threads/mutex3.c)
    FooHash models the hash table; FooThms: what the operations do to the
    chains; it implements a list of live objects and follows no invalid
    pointer.

    ** Programs with threads (src/apue.3e/threads: rwlock.c, mutex2.c,
       barrier.c, condvar.c)
    JobQ is the queue of jobs under a read-write lock; Foo2 the
    reference counts with finer locking, in the pieces between two
    acquisitions of a mutex; Barrier the parallel sort and the merge after
    the barrier; CondQ the message queue with a condition variable.
    ThrProps: the queue implements a list; the sort is a sorted permutation
    for every interleaving; no message is lost and no consumer is left
    behind; no object is freed while it is used.

    ** The printer spooler (src/apue.3e/printer, src/apue.3e/sockets/clconn2.c)
    PrUtil: configuration and addresses; PrReq: the request and response
    records; PrJobs: the lists of jobs and of worker threads;
    PrSpool and PrSpoolThms: a client thread of printd, with its files;
    PrIpp: building IPP headers; PrStat: reading the printer's HTTP and IPP answer; PrPrint and PrPrintThms: the printer
    thread; PrSubmit: the command print, and the queue after a
    restart.  PrProps: a client is accepted with both files and a place on
    the list or leaves nothing; what print sends is what is spooled; the
    lists stay well formed; a restart finds the jobs; a round removes a job
    only when its whole request was sent and the answer accepted, and
    otherwise says why it keeps or cancels it; and the faults: reused job
    numbers, lost worker threads, an answer that is read forever.

    ** The directory watcher (src/tlpi-dist/inotify/inotify_dtree.c)
    Dtree models the program on a kernel state with directories, inotify
    watches and the event queue.  DtreeCache: the slots of the cache are a
    map from watch descriptors to paths, and when it agrees with the
    kernel.  DtreeWalk: adding and removing subtrees, building anew.
    DtreeEvents and DtreeRun: what each event does to a cache that is behind,
    the reading loop and the rounds of main.  DtreeFs: the changes
    of the file system and the events they queue.  DtreeProps: with an empty
    queue the cache is the set of monitored directories; the queue becomes empty; lost events lead to a
    new cache; a root that is moved into another tree is lost.  [nftw] is a
    parameter with a law, the class [NftwOk].

    ** The shell (src/Advanced_Unix_Programming/c6/sh3.c, c5/builtin.c)
    Sh models the token automaton, the parser of command lines with
    redirections and pipes, variable assignment, and the execution with
    fork, pipe, dup and close on explicit descriptor tables; ShThms the
    tokens, ShPipe the recursion that builds a pipeline.  ShProps: in a
    pipeline every process has the ends it should have and no others;
    words, quoted or bare, and operators are read back as written; a
    session ends for every input.

    ** Buffered input and output (src/Advanced_Unix_Programming/c2/bufio.c,
       copy2 and copy3 of c2/x2.c)
    Bufio models a stream with one buffer over a descriptor that reads and
    writes in pieces, BufioThms what it holds and what it owes:
    the copy with buffers writes the bytes that the plain copy writes, and
    a line is what is in front of the next newline.

    ** A client without blocking (src/unpv13e/nonblock/strclinonb.c)
    StrCli models the two buffers and their pointers over descriptors that
    are not ready; StrCliThms: the pointers stay in order, and the socket
    and the output get every byte once and in order.

    ** Semaphores that know their users (src/apue.3e/lib/semaph.c)
    Semaph models every function system call by system call on a System V
    set with undo values and their ranges; SemaphThms: the count of users is
    right under every interleaving and every exit, and exactly which calls
    fail, with the two races that are left.

    ** The open server (src/apue.3e/ipc2/opend, ipc2/open, lib/bufargs.c,
       sendfd.c, senderr.c, recvfd.c)
    OpenServ models requests, answers, the table of clients and the loops
    with poll and with select; OpenServThms: the answer to a request reaches
    the client, and in any number of rounds both loops hold the clients
    there are and handle what they send; the user IDs are those of the
    clients with select only.

    ** Addresses (src/unpv13e/libfree: inet_pton.c, inet_ntop.c, inet_aton.c,
       inet_pton_ipv4.c, inet_ntop_ipv4.c, in_cksum.c)
    Inet models the parsers and printers on their arrays, with a store
    outside of one as an outcome; InetThms: no string leads to such a store,
    every address is read back from its text, and a packet with its checksum
    has the checksum 0; with the texts that are accepted by mistake.

    ** Names and addresses (src/unpv13e/libgai)
    Gai models getaddrinfo, freeaddrinfo and getnameinfo with the list of
    structures in a heap whose allocations can fail; GaiThms what each
    function does to the heap, next to a definition without memory.
    GaiProps: getaddrinfo returns what that definition gives, frees what it
    has allocated when it fails, and is inverted by getnameinfo on every
    address and port, with the conversions of Inet.  The resolver and the
    service database are parameters; the record [lib_ok] says that their
    addresses have the length of their family.

    ** Messages through shared memory (src/Advanced_Unix_Programming/c7:
       smi_shm.c and the programs smsg_server_smi_a.c, smsg_client_smi_a.c)
    Smi models the two semaphores of each queue, the attached segments of
    the server and the two programs, step by step; SmiThms: the invariant of
    who may use which message, and that every client gets its words back in
    capitals, in an exact number of steps.

    ** A list with traversals, and bounded buffers
       (src/UNIX_Systems_Programming/chapter02/listlib.c, keeploglib.c,
       chapter16/buffer.c, buffercond.c, bufferconddone.c and its programs)
    UspList models the list library and the log of commands on it: it
    implements a list with a position for every key, whatever is in the new
    memory of realloc, up to a call with a key that was never handed out, and
    the history is complete.  UspBuf models the three buffers and the producers and
    consumers with their end: items stay in order, no wakeup is lost, and
    everything that was put in is used before the threads return.

    ** Conventions
    State is passed explicitly.  [Ok v s] is a return with the new state,
    [Abort why s] the end of the process or an undefined access.  Integers
    are [Z], with [wrapu] and [wraps] where a C type can wrap.  A thread that
    blocks leaves with [Wait] and is resumed by a step of the system; wakeups
    can be spurious.  What other processes do between two system calls, which
    system calls fail, and what malloc and ftok return are parameters of the
    definitions.

    Loops that are not structural carry fuel: the length of the index file
    for hash chains of the database (a chain has no more records than the
    file bytes), the number of slots or objects for linked lists in memory,
    the weight of the script of a descriptor (its events and bytes) for read
    and write loops, MAX_TRIES for the loops that wait for a creator, two
    rounds for each event in the loop over an inotify buffer, the length of
    the input for the shell, the bytes and events to come for the client
    without blocking, the number of descriptors for a round of the open
    server, the size of the heap for the lists of getaddrinfo, the number of
    nodes for the history.  The fuel of
    the printer's status loop is free, since that loop need not end.  The
    theorems show that the fuel suffices: they state what is returned, not
    only what holds if something is.

    ** Not modelled
    The demonstration programs, the network programs, the wrappers of single
    system calls, error output, third-party code (i2c-tools, the getaddrinfo of libfree), kernel modules and generated files; time-outs
    and floating point.  Mutex and condition variable calls succeed; the
    bytes of a mutex in shared memory are not represented.

    Of the printer spooler the main programs, the accept loop, the signal
    thread and logging are left out; of the directory watcher the options
    and logging.  Changes of the file system that come before the events of
    the last change are handled are not covered by the theorems on the
    watcher, except that it recovers when it meets an unknown watch.  Of the
    open server failures of sendmsg and writen are left out, and the variant
    with one server for each client.

    Of libgai the Unix domain branch is modelled and not
    covered by the theorems but for what it leaks.  Of the message interface
    the other implementations (FIFOs, queues, sockets) are left out, and of
    the buffers the version with semaphores, whose structure is that of the
    producer-consumer program above.

    ** What is left
    The semaphore version of the bounded buffers, makeargv, the message
    interface on FIFOs with its table of descriptors, the remote logging of
    UNIX_Systems_Programming (chapter17) and the round-trip timers of
    unpv13e are the parts with some logic that are not modelled. *)
From stdpp Require Export base tactics numbers list gmap strings.
From Stdlib Require Export ZArith Lia.

#[global] Open Scope Z_scope.

(** ** Machine integers

    A C integer of width [w] is a [Z]; [wrapu] is the conversion to the
    unsigned type of that width and [wraps] the two's complement conversion
    to the signed one. *)
Definition wrapu (w z : Z) : Z := z mod 2 ^ w.

Definition wraps (w z : Z) : Z :=
  (z + 2 ^ (w - 1)) mod 2 ^ w - 2 ^ (w - 1).

(** ** Byte strings

    A byte is a [Z]; a C string is the list of the bytes before its
    terminating null. *)
Abbreviation bytes := (list Z).

Definition zlen {A} (l : list A) : Z := Z.of_nat (length l).

(** The [n] elements of [l] from position [o] on (fewer at the end). *)
Definition slice {A} (l : list A) (o n : Z) : list A :=
  take (Z.to_nat n) (drop (Z.to_nat o) l).

(** The bytes [l] with [new] stored from position [o] on: the array grows
    when the store runs past its end, and a gap before [o] reads as zeros
    (what [write] does to a regular file). *)
Definition splice (l : bytes) (o : Z) (new : bytes) : bytes :=
  let n := Z.to_nat o in
  take n l ++ replicate (n - length l) 0 ++ new ++ drop (n + length new) l.

(** ** Outcomes

    An operation of the code either returns with the new state, or ends the
    process ([err_dump], [err_quit], [err_sys], or an undefined behaviour
    such as a store past the end of a buffer); the state it leaves behind
    (the files survive the process) is kept in both cases. *)
Inductive outcome (S A : Type) : Type :=
| Ok (a : A) (s : S)
| Abort (why : string) (s : S).
Arguments Ok {S A} a s.
Arguments Abort {S A} why s.

(** The result and the final state of an outcome. *)
Definition out_val {S A} (o : outcome S A) : A + string :=
  match o with Ok a _ => inl a | Abort why _ => inr why end.

Definition out_state {S A} (o : outcome S A) : S :=
  match o with Ok _ s => s | Abort _ s => s end.

Lemma out_ok {S A} (o : outcome S A) a : out_val o = inl a -> o = Ok a (out_state o).
Proof. destruct o; simpl; congruence. Qed.

Lemma out_abort {S A} (o : outcome S A) why : out_val o = inr why -> o = Abort why (out_state o).
Proof. destruct o; simpl; congruence. Qed.

Definition Prog (S A : Type) : Type := S -> outcome S A.

Definition pret {S A} (a : A) : Prog S A := fun s => Ok a s.

Definition pbind {S A B} (m : Prog S A) (k : A -> Prog S B) : Prog S B :=
  fun s => match m s with
           | Ok a s' => k a s'
           | Abort why s' => Abort why s'
           end.

Definition die {S A} (why : string) : Prog S A := fun s => Abort why s.

Definition get {S A} (f : S -> A) : Prog S A := fun s => Ok (f s) s.

Definition put {S} (f : S -> S) : Prog S unit := fun s => Ok tt (f s).

(** [if (cond) err_dump(msg);] *)
Definition guard_die {S} (bad : bool) (why : string) : Prog S unit :=
  if bad then die why else pret tt.

Declare Scope prog_scope.
Delimit Scope prog_scope with prog.
Notation "'do' x <- m ; k" := (pbind m (fun x => k))
  (at level 10, x name, m at level 100, k at level 200) : prog_scope.
Notation "'do' ' p <- m ; k" := (pbind m (fun x => match x with p => k end))
  (at level 10, p strict pattern, m at level 100, k at level 200) : prog_scope.
Notation "'run' m ; k" := (pbind m (fun _ => k))
  (at level 10, m at level 100, k at level 200) : prog_scope.

(** ** Lemmas on programs *)
Lemma pbind_ok {S A B} (m : Prog S A) (k : A -> Prog S B) s a s' :
  m s = Ok a s' -> pbind m k s = k a s'.
Proof. intros H. unfold pbind. by rewrite H. Qed.

Lemma pbind_abort {S A B} (m : Prog S A) (k : A -> Prog S B) s why s' :
  m s = Abort why s' -> pbind m k s = Abort why s'.
Proof. intros H. unfold pbind. by rewrite H. Qed.

Lemma pbind_put {S B} f (k : unit -> Prog S B) s : pbind (put f) k s = k tt (f s).
Proof. done. Qed.

Lemma pbind_get {S A B} (f : S -> A) (k : A -> Prog S B) s : pbind (get f) k s = k (f s) s.
Proof. done. Qed.

Lemma pbind_ret {S A B} (a : A) (k : A -> Prog S B) s : pbind (pret a) k s = k a s.
Proof. done. Qed.

Lemma pbind_guard {S B} bad why (k : unit -> Prog S B) s :
  bad = false -> pbind (guard_die bad why) k s = k tt s.
Proof. by intros ->. Qed.

Lemma pbind_assoc {S A B C} (m : Prog S A) (f : A -> Prog S B) (g : B -> Prog S C) s :
  pbind (pbind m f) g s = pbind m (fun a => pbind (f a) g) s.
Proof. unfold pbind. by destruct (m s). Qed.

Lemma pbind_cong {S A B} (m m' : Prog S A) (k k' : A -> Prog S B) s :
  m s = m' s -> (forall a s', k a s' = k' a s') -> pbind m k s = pbind m' k' s.
Proof. intros Hm Hk. unfold pbind. rewrite Hm. by destruct (m' s). Qed.

Create Rewrite HintDb prog.
#[export] Hint Rewrite @pbind_put @pbind_get @pbind_ret @pbind_assoc : prog.

(** [pstep] runs the state accesses at the head of a program. *)
Ltac pstep := autorewrite with prog.

(** ** Lemmas on lengths, slices and splices *)
Lemma zlen_nonneg {A} (l : list A) : 0 <= zlen l.
Proof. unfold zlen. lia. Qed.

Lemma zlen_app {A} (l k : list A) : zlen (l ++ k) = zlen l + zlen k.
Proof. unfold zlen. rewrite length_app. lia. Qed.

Lemma zlen_cons {A} (x : A) l : zlen (x :: l) = 1 + zlen l.
Proof. unfold zlen. simpl. lia. Qed.

Lemma zlen_nil {A} : zlen (@nil A) = 0.
Proof. done. Qed.

Lemma zlen_replicate {A} n (x : A) : zlen (replicate n x) = Z.of_nat n.
Proof. unfold zlen. by rewrite length_replicate. Qed.

Lemma zlen_drop {A} n (l : list A) : zlen (drop n l) = Z.max 0 (zlen l - Z.of_nat n).
Proof. unfold zlen. rewrite length_drop. lia. Qed.

Lemma of_nat_length {A} (l : list A) : Z.of_nat (length l) = zlen l.
Proof. done. Qed.

Create Rewrite HintDb zlen.
#[export] Hint Rewrite @zlen_app @zlen_cons @zlen_nil @zlen_replicate @zlen_drop
  @of_nat_length Nat2Z.inj_add Nat2Z.inj_succ : zlen.

(** [zl] normalises lengths and calls [lia]. *)
Ltac zl :=
  autorewrite with zlen in *;
  repeat match goal with
         | |- context [zlen ?l] =>
             lazymatch goal with
             | _ : 0 <= zlen l |- _ => fail
             | _ => pose proof (zlen_nonneg l)
             end
         | _ : context [zlen ?l] |- _ =>
             lazymatch goal with
             | _ : 0 <= zlen l |- _ => fail
             | _ => pose proof (zlen_nonneg l)
             end
         end;
  lia.

Lemma to_nat_zlen {A} (l : list A) : Z.to_nat (zlen l) = length l.
Proof. unfold zlen. lia. Qed.

Lemma slice_app {A} (pre mid post : list A) o n :
  o = zlen pre -> n = zlen mid -> slice (pre ++ mid ++ post) o n = mid.
Proof.
  intros -> ->. unfold slice. rewrite !to_nat_zlen, drop_app_length.
  by rewrite take_app_length.
Qed.

Lemma slice_all {A} (l : list A) n : zlen l <= n -> slice l 0 n = l.
Proof. intros H. unfold slice. simpl. apply take_ge. unfold zlen in H. lia. Qed.

Lemma slice_past {A} (l : list A) o n : zlen l <= o -> slice l o n = [].
Proof.
  intros H. unfold slice. rewrite drop_ge; [by rewrite take_nil|].
  unfold zlen in H. lia.
Qed.

Lemma slice_length {A} (l : list A) o n :
  0 <= o -> 0 <= n -> o + n <= zlen l -> zlen (slice l o n) = n.
Proof. unfold slice, zlen. intros. rewrite length_take, length_drop. lia. Qed.

Lemma splice_mid pre mid post new o :
  o = zlen pre -> zlen new = zlen mid ->
  splice (pre ++ mid ++ post) o new = pre ++ new ++ post.
Proof.
  intros -> H. unfold splice. rewrite to_nat_zlen.
  rewrite take_app_length. unfold zlen in H.
  replace (length pre - length (pre ++ mid ++ post))%nat with 0%nat
    by (rewrite length_app; lia).
  simpl. rewrite app_assoc, (drop_app_ge pre), <- app_assoc by lia.
  replace (length pre + length new - length pre)%nat with (length mid) by lia.
  by rewrite drop_app_length.
Qed.

Lemma splice_end l new o : o = zlen l -> splice l o new = l ++ new.
Proof.
  intros ->. unfold splice. rewrite to_nat_zlen, firstn_all, Nat.sub_diag.
  simpl. rewrite drop_ge by lia. by rewrite app_nil_r.
Qed.

(** Storing [new] at the front of a buffer that is at least as long. *)
Lemma splice_front l new :
  zlen new <= zlen l -> splice l 0 new = new ++ drop (length new) l.
Proof. intros H. unfold splice. simpl. by destruct l. Qed.

Lemma splice_length l o new :
  0 <= o -> o + zlen new <= zlen l -> zlen (splice l o new) = zlen l.
Proof.
  intros Ho H. unfold splice, zlen in *.
  rewrite !length_app, length_take, length_replicate, length_drop. lia.
Qed.

Lemma filter_none {A} (P : A -> Prop) `{forall x, Decision (P x)} l :
  Forall (fun x => ~ P x) l -> filter P l = [].
Proof. induction 1 as [|x l Hx _ IH]; [done|]. by rewrite filter_cons_False. Qed.

(** [lassoc] closes an equation of lists up to associativity of [++]. *)
Ltac lassoc := repeat (progress (simpl; rewrite <- ?app_assoc)); reflexivity.

Lemma drop_at {A} (l a b : list A) i : l = a ++ b -> i = zlen a -> drop (Z.to_nat i) l = b.
Proof. intros -> ->. by rewrite to_nat_zlen, drop_app_length. Qed.

Lemma slice_at {A} (l pre mid post : list A) o n :
  l = pre ++ mid ++ post -> o = zlen pre -> n = zlen mid -> slice l o n = mid.
Proof. intros ->. apply slice_app. Qed.

Lemma splice_at l pre mid post new o :
  l = pre ++ mid ++ post -> o = zlen pre -> zlen new = zlen mid ->
  splice l o new = pre ++ new ++ post.
Proof. intros ->. apply splice_mid. Qed.

(** ** Case analysis on boolean tests of integers *)
Ltac zbool :=
  repeat match goal with
         | H : (_ =? _) = true |- _ => apply Z.eqb_eq in H
         | H : (_ =? _) = false |- _ => apply Z.eqb_neq in H
         | H : (_ <? _) = true |- _ => apply Z.ltb_lt in H
         | H : (_ <? _) = false |- _ => apply Z.ltb_ge in H
         | H : (_ <=? _) = true |- _ => apply Z.leb_le in H
         | H : (_ <=? _) = false |- _ => apply Z.leb_gt in H
         | H : (_ && _)%bool = true |- _ => apply andb_true_iff in H as [? ?]
         | H : (_ || _)%bool = false |- _ => apply orb_false_iff in H as [? ?]
         | H : negb _ = true |- _ => apply negb_true_iff in H
         | H : negb _ = false |- _ => apply negb_false_iff in H
         end.

Lemma ltb_false a b : b <= a -> (a <? b) = false.
Proof. intros. by apply Z.ltb_ge. Qed.

Lemma ltb_true a b : a < b -> (a <? b) = true.
Proof. intros. by apply Z.ltb_lt. Qed.

Lemma eqb_false a b : a <> b -> (a =? b) = false.
Proof. intros. by apply Z.eqb_neq. Qed.

Lemma leb_true a b : a <= b -> (a <=? b) = true.
Proof. intros. by apply Z.leb_le. Qed.

Lemma leb_false a b : b < a -> (a <=? b) = false.
Proof. intros. by apply Z.leb_gt. Qed.

(** ** Programs on a part of the state *)
Definition zoom {S T A} (g : S -> T) (p : T -> S -> S) (m : Prog T A) : Prog S A :=
  fun s => match m (g s) with Ok a t => Ok a (p t s) | Abort why t => Abort why (p t s) end.

Lemma zoom_ok {S T A} (g : S -> T) (p : T -> S -> S) (m : Prog T A) s a t :
  m (g s) = Ok a t -> zoom g p m s = Ok a (p t s).
Proof. intros H. unfold zoom. by rewrite H. Qed.
