(* ===== verification/CString.v ===== *)
(** * C strings: the conversions and searches of libc the sources use

    [printf]'s [%d] family, [atol], [atoi], [strlen], [strchr] and [strcmp]
    on byte arrays that hold null-terminated strings, with the round trip
    between printing and parsing a decimal number. *)
From S2P Require Import Prelude.

Definition NUL : Z := 0.
Definition CH_NEWLINE : Z := 10.
Definition CH_SPACE : Z := 32.
Definition CH_COLON : Z := 58.
Definition CH_MINUS : Z := 45.
Definition CH_PLUS : Z := 43.
Definition CH_0 : Z := 48.

(** ** Strings in buffers *)

(** The string that starts at the head of [l]. *)
Fixpoint cstr (l : bytes) : bytes :=
  match l with
  | [] => []
  | c :: l => if c =? NUL then [] else c :: cstr l
  end.

(** The string at position [p] of a buffer. *)
Definition cstr_at (buf : bytes) (p : Z) : bytes := cstr (drop (Z.to_nat p) buf).

Definition strlen (s : bytes) : Z := zlen (cstr s).

(** [strchr(s, c)] for [c] not the null byte, as the distance from [s]. *)
Fixpoint strchr (s : bytes) (c : Z) : option Z :=
  match s with
  | [] => None
  | x :: s => if x =? NUL then None
              else if x =? c then Some 0
              else (fun n => n + 1) <$> strchr s c
  end.

(** [strcmp(a, b) == 0]. *)
Definition streq (a b : bytes) : bool := bool_decide (cstr a = cstr b).

(** A list of bytes that is a C string: no null in it. *)
Definition nonul (s : bytes) : Prop := Forall (fun c => c <> NUL) s.

(** A string constant of the sources. *)
Definition lit (s : string) : bytes :=
  (fun c => Z.of_nat (Ascii.nat_of_ascii c)) <$> String.list_ascii_of_string s.

(** ** Decimal output *)
Fixpoint dec_go (fuel : nat) (n : Z) (acc : bytes) : bytes :=
  match fuel with
  | O => acc
  | S f => if n <? 10 then (CH_0 + n) :: acc
           else dec_go f (n / 10) ((CH_0 + n mod 10) :: acc)
  end.

Definition dec (n : Z) : bytes := dec_go (S (Z.to_nat (Z.log2 n))) n [].

(** [%d], [%ld], [%lld]. *)
Definition fmt_d (n : Z) : bytes := if n <? 0 then CH_MINUS :: dec (- n) else dec n.

(** [%*d] with width [w]. *)
Definition fmt_wd (w n : Z) : bytes :=
  replicate (Z.to_nat (w - zlen (fmt_d n))) CH_SPACE ++ fmt_d n.

#[global] Arguments dec : simpl never.
#[global] Arguments fmt_d : simpl never.
#[global] Arguments fmt_wd : simpl never.

(** ** Decimal input *)
Definition isdigit (c : Z) : bool := (CH_0 <=? c) && (c <=? 57).

Definition isspace (c : Z) : bool := (c =? 32) || ((9 <=? c) && (c <=? 13)).

Fixpoint num_go (acc : Z) (s : bytes) : Z :=
  match s with
  | c :: s => if isdigit c then num_go (acc * 10 + (c - CH_0)) s else acc
  | [] => acc
  end.

Fixpoint skip_space (s : bytes) : bytes :=
  match s with
  | c :: s' => if isspace c then skip_space s' else s
  | [] => []
  end.

(** [strtol] in base 10: a value out of the range of [long] is clamped. *)
Definition clampl (z : Z) : Z := Z.max (- 2 ^ 63) (Z.min (2 ^ 63 - 1) z).

Definition atol (s : bytes) : Z :=
  match skip_space (cstr s) with
  | c :: s' => if c =? CH_MINUS then clampl (- num_go 0 s')
               else if c =? CH_PLUS then clampl (num_go 0 s')
               else clampl (num_go 0 (c :: s'))
  | [] => 0
  end.

Definition atoi (s : bytes) : Z := wraps 32 (atol s).

(** ** Lemmas on strings *)
Lemma cstr_app_nul s l : nonul s -> cstr (s ++ NUL :: l) = s.
Proof.
  induction 1 as [|c s Hc Hs IH]; simpl; [done|].
  rewrite eqb_false by done. by rewrite IH.
Qed.

Lemma cstr_id s : nonul s -> cstr s = s.
Proof.
  induction 1 as [|c s Hc Hs IH]; simpl; [done|].
  rewrite eqb_false by done. by rewrite IH.
Qed.

Lemma cstr_nonul s : nonul (cstr s).
Proof.
  induction s as [|c s IH]; simpl; [constructor|].
  destruct (c =? NUL) eqn:E; zbool; [constructor|]. by constructor.
Qed.

Lemma strchr_app a c l :
  nonul a -> c <> NUL -> c ∉ a -> strchr (a ++ c :: l) c = Some (zlen a).
Proof.
  intros Ha Hc. induction Ha as [|x a Hx Ha IH]; simpl; intros Hin.
  - rewrite eqb_false by done. by rewrite Z.eqb_refl.
  - apply not_elem_of_cons in Hin as [H1 H2].
    rewrite !eqb_false by done. rewrite IH by done. simpl. f_equal. zl.
Qed.

Lemma strchr_none a c l : nonul a -> c ∉ a -> strchr (a ++ NUL :: l) c = None.
Proof.
  induction 1 as [|x a Hx Ha IH]; simpl; intros Hin; [done|].
  apply not_elem_of_cons in Hin as [H1 H2].
  rewrite !eqb_false by done. by rewrite IH.
Qed.

Lemma nonul_app a b : nonul a -> nonul b -> nonul (a ++ b).
Proof. intros. by apply Forall_app. Qed.

Lemma nonul_replicate n c : c <> NUL -> nonul (replicate n c).
Proof. intros. by apply Forall_replicate. Qed.

(** ** Lemmas on decimal numbers *)
Lemma isdigit_digit d : 0 <= d < 10 -> isdigit (CH_0 + d) = true.
Proof. unfold isdigit, CH_0. intros. rewrite !leb_true by lia. done. Qed.

Lemma pow10_pos k : 0 <= k -> 0 < 10 ^ k.
Proof. intros. by apply Z.pow_pos_nonneg. Qed.

Lemma dec_go_num f n acc a :
  0 <= n < 2 ^ Z.of_nat f -> num_go 0 (dec_go f n acc ++ a) = num_go n (acc ++ a).
Proof.
  revert n acc. induction f as [|f IH]; intros n acc Hn.
  { simpl in *. by replace n with 0 by lia. }
  simpl dec_go. destruct (n <? 10) eqn:E; zbool.
  - simpl. rewrite isdigit_digit by lia. f_equal; unfold CH_0; lia.
  - rewrite IH.
    + simpl. rewrite isdigit_digit by (pose proof (Z.mod_pos_bound n 10); lia).
      f_equal. unfold CH_0. pose proof (Z.div_mod n 10). lia.
    + rewrite Nat2Z.inj_succ, Z.pow_succ_r in Hn by lia.
      split; [apply Z.div_pos; lia|]. apply Z.div_lt_upper_bound; lia.
Qed.

Lemma dec_fuel n : 0 <= n -> n < 2 ^ Z.of_nat (S (Z.to_nat (Z.log2 n))).
Proof.
  intros H. destruct (decide (n = 0)) as [->|]; [done|].
  pose proof (Z.log2_spec n). pose proof (Z.log2_nonneg n).
  rewrite Nat2Z.inj_succ, Z2Nat.id by lia. lia.
Qed.

Lemma dec_num n a : 0 <= n -> num_go 0 (dec n ++ a) = num_go n a.
Proof. intros. unfold dec. rewrite dec_go_num; [done|]. by pose proof (dec_fuel n); lia. Qed.

Lemma dec_go_digits f n acc :
  0 <= n -> Forall (fun c => CH_0 <= c <= 57) acc ->
  Forall (fun c => CH_0 <= c <= 57) (dec_go f n acc).
Proof.
  revert n acc. induction f as [|f IH]; intros n acc Hn Ha; [done|].
  simpl. destruct (n <? 10) eqn:E; zbool.
  - constructor; [unfold CH_0; lia|done].
  - apply IH; [apply Z.div_pos; lia|]. constructor; [|done].
    pose proof (Z.mod_pos_bound n 10). unfold CH_0. lia.
Qed.

Lemma dec_digits n : 0 <= n -> Forall (fun c => CH_0 <= c <= 57) (dec n).
Proof. intros. apply dec_go_digits; [done|constructor]. Qed.

Lemma dec_not_in n c : 0 <= n -> c < CH_0 \/ 57 < c -> c ∉ dec n.
Proof.
  intros Hn Hc Hin. pose proof (dec_digits n Hn) as H.
  rewrite Forall_forall in H. specialize (H c Hin). lia.
Qed.

Lemma dec_nonul n : 0 <= n -> nonul (dec n).
Proof.
  intros H. eapply Forall_impl; [by apply dec_digits|].
  unfold CH_0, NUL. simpl. lia.
Qed.

Lemma dec_go_acc f n acc : dec_go f n acc = dec_go f n [] ++ acc.
Proof.
  revert n acc. induction f as [|f IH]; intros n acc; [done|].
  simpl. destruct (n <? 10); [done|].
  rewrite IH, (IH _ [_]). by rewrite <- app_assoc.
Qed.

Lemma dec_go_length f n k :
  (1 <= k)%nat -> 0 <= n < 10 ^ Z.of_nat k -> (length (dec_go f n []) <= k)%nat.
Proof.
  revert n k. induction f as [|f IH]; intros n k Hk Hn; simpl; [lia|].
  destruct (n <? 10) eqn:E; zbool; simpl; [lia|].
  rewrite dec_go_acc, length_app. simpl.
  destruct k as [|[|k]]; [lia|simpl in Hn; lia|].
  assert (length (dec_go f (n / 10) []) <= S k)%nat; [|lia].
  apply IH; [lia|]. split; [apply Z.div_pos; lia|].
  apply Z.div_lt_upper_bound; [lia|].
  rewrite Nat2Z.inj_succ, Z.pow_succ_r in Hn by lia. lia.
Qed.

Lemma dec_length n k : 1 <= k -> 0 <= n < 10 ^ k -> zlen (dec n) <= k.
Proof.
  intros Hk Hn. unfold zlen, dec.
  pose proof (dec_go_length (S (Z.to_nat (Z.log2 n))) n (Z.to_nat k)) as H.
  rewrite Z2Nat.id in H by lia. lia.
Qed.

Lemma dec_nonempty n : dec n <> [].
Proof.
  unfold dec. simpl. destruct (n <? 10); [done|].
  rewrite dec_go_acc. intros H. by destruct (dec_go _ _ _).
Qed.

Lemma dec_length_pos n : 1 <= zlen (dec n).
Proof. pose proof (dec_nonempty n). destruct (dec n); [done|]. zl. Qed.

Lemma fmt_d_dec n : 0 <= n -> fmt_d n = dec n.
Proof. intros. unfold fmt_d. by rewrite ltb_false. Qed.

Lemma fmt_wd_length w n : 1 <= w -> 0 <= n < 10 ^ w -> zlen (fmt_wd w n) = w.
Proof.
  intros Hw Hn. unfold fmt_wd. rewrite fmt_d_dec by lia.
  pose proof (dec_length n w Hw Hn). zl.
Qed.

Lemma fmt_wd_nonul w n : 0 <= n -> nonul (fmt_wd w n).
Proof.
  intros. unfold fmt_wd. rewrite fmt_d_dec by done.
  apply nonul_app; [by apply nonul_replicate|by apply dec_nonul].
Qed.

Lemma skip_space_replicate k s :
  skip_space (replicate k CH_SPACE ++ s) = skip_space s.
Proof. induction k; simpl; [done|]. done. Qed.

Lemma clampl_small z : 0 <= z < 2 ^ 63 -> clampl z = z.
Proof. unfold clampl. lia. Qed.

(** Parsing what was printed, in the two places the sources do it: a blank
    padded field, and a number inside a longer string. *)
Lemma atol_digits c s :
  CH_0 <= c <= 57 -> nonul (c :: s) -> atol (c :: s) = clampl (num_go 0 (c :: s)).
Proof.
  intros Hc Hn. unfold atol. rewrite cstr_id by done.
  unfold skip_space, isspace. unfold CH_0 in *.
  rewrite eqb_false, (leb_false c 13), andb_false_r by lia.
  unfold orb, CH_MINUS, CH_PLUS. by rewrite !eqb_false by lia.
Qed.

Lemma atol_dec n : 0 <= n < 2 ^ 63 -> atol (dec n) = n.
Proof.
  intros Hn. pose proof (dec_digits n) as Hd. pose proof (dec_nonul n) as Hz.
  pose proof (dec_num n []) as Hv. rewrite app_nil_r in Hv.
  destruct (dec n) as [|c s] eqn:E; [by destruct (dec_nonempty n)|].
  specialize (Hd ltac:(lia)). apply Forall_cons in Hd as [Hc _].
  rewrite atol_digits by (try apply Hz; lia).
  rewrite Hv by lia. by apply clampl_small.
Qed.

Lemma atol_spaces k s : nonul s -> atol (replicate k CH_SPACE ++ s) = atol s.
Proof.
  intros H. unfold atol. rewrite (cstr_id s) by done.
  rewrite cstr_id by (apply nonul_app; [by apply nonul_replicate|done]).
  by rewrite skip_space_replicate.
Qed.

Lemma atol_fmt_wd w n : 0 <= n < 2 ^ 63 -> atol (fmt_wd w n) = n.
Proof.
  intros. unfold fmt_wd. rewrite fmt_d_dec by lia.
  rewrite atol_spaces by (apply dec_nonul; lia). by apply atol_dec.
Qed.

Lemma atol_cstr l : atol (cstr l) = atol l.
Proof. unfold atol. by rewrite (cstr_id (cstr l)) by apply cstr_nonul. Qed.

Lemma wraps32_small z : 0 <= z < 2 ^ 31 -> wraps 32 z = z.
Proof.
  intros H. unfold wraps. change (32 - 1) with 31. rewrite Z.mod_small; lia.
Qed.

Lemma atoi_fmt_wd w n : 0 <= n < 2 ^ 31 -> atoi (fmt_wd w n) = n.
Proof.
  intros. unfold atoi. rewrite atol_fmt_wd by lia. by apply wraps32_small.
Qed.
