(* ===== verification/Posix.v ===== *)
(** * POSIX files as the sources use them

    Regular files with an offset ([lseek], [read], [write]), [open] on a
    name space of files, and the advisory record locks of [fcntl].  A read
    past the end is short, a write past the end extends the file; the disk
    never fills and the device never fails.  Files are open for reading and
    writing. *)
From S2P Require Import Prelude.

(** ** Open flags (Linux values) *)
Definition O_WRONLY : Z := 1.
Definition O_RDWR : Z := 2.
Definition O_CREAT : Z := 64.
Definition O_EXCL : Z := 128.
Definition O_TRUNC : Z := 512.
Definition O_NONBLOCK : Z := 2048.

(** ** Error numbers (Linux values) *)
Definition ENOENT : Z := 2.
Definition EINTR : Z := 4.
Definition EBADF : Z := 9.
Definition EAGAIN : Z := 11.
Definition EBUSY : Z := 16.
Definition EEXIST : Z := 17.
Definition EINVAL : Z := 22.
Definition ENOSPC : Z := 28.
Definition EMSGSIZE : Z := 90.
Definition ETIMEDOUT : Z := 110.

(** [flags & f] as a condition. *)
Definition has_flag (flags f : Z) : bool := negb (Z.land flags f =? 0).

(** ** An open file *)
Record file := mkFile { f_bytes : bytes; f_pos : Z }.

Inductive whence := SEEK_SET | SEEK_CUR | SEEK_END.

(** [lseek]: [None] is the error return (a negative offset). *)
Definition lseek (f : file) (off : Z) (w : whence) : option file :=
  let p := match w with
           | SEEK_SET => off
           | SEEK_CUR => f_pos f + off
           | SEEK_END => zlen (f_bytes f) + off
           end in
  if p <? 0 then None else Some (mkFile (f_bytes f) p).

(** [read] (or [readv] into consecutive buffers). *)
Definition fread (f : file) (n : Z) : bytes * file :=
  let b := slice (f_bytes f) (f_pos f) n in
  (b, mkFile (f_bytes f) (f_pos f + zlen b)).

(** [write] (or [writev]): the number of bytes written and the new file. *)
Definition fwrite (f : file) (b : bytes) : Z * file :=
  (zlen b, mkFile (splice (f_bytes f) (f_pos f) b) (f_pos f + zlen b)).

(** ** Names

    A file system maps path names to contents; [open_file] returns the
    contents the new descriptor starts with, or [None] with the file system
    unchanged. *)
Abbreviation fsys := (gmap bytes bytes).

Definition open_file (fs : fsys) (path : bytes) (oflag : Z) : fsys * option bytes :=
  match fs !! path with
  | Some b =>
      if has_flag oflag O_CREAT && has_flag oflag O_EXCL then (fs, None)
      else if has_flag oflag O_TRUNC then (<[path := []]> fs, Some [])
      else (fs, Some b)
  | None =>
      if has_flag oflag O_CREAT then (<[path := []]> fs, Some []) else (fs, None)
  end.

(** ** Record locks

    The lock requests and the writes of one process, most recent first.  A
    request replaces the lock of this process on the bytes it covers (length
    0 is to the end of the file, whatever it grows to), so the lock held on
    a byte is the one of the most recent request that covers it. *)
Inductive ltype := F_RDLCK | F_WRLCK | F_UNLCK.

#[export] Instance ltype_eq_dec : EqDecision ltype.
Proof. solve_decision. Defined.

Inductive dbfile := IDX | DAT.

#[export] Instance dbfile_eq_dec : EqDecision dbfile.
Proof. solve_decision. Defined.

Inductive event :=
| EvLock (fd : dbfile) (t : ltype) (start len : Z)
| EvWrite (fd : dbfile) (off len : Z).

Definition covers (start len b : Z) : bool :=
  (start <=? b) && ((len =? 0) || (b <? start + len)).

Fixpoint lock_at (tr : list event) (fd : dbfile) (b : Z) : ltype :=
  match tr with
  | [] => F_UNLCK
  | EvLock fd' t start len :: tr =>
      if bool_decide (fd = fd') && covers start len b then t else lock_at tr fd b
  | EvWrite _ _ _ :: tr => lock_at tr fd b
  end.

(** No lock is held. *)
Definition unlocked (tr : list event) : Prop := forall fd b, lock_at tr fd b = F_UNLCK.

(** ** Operations that may block

    An operation returns, or the thread waits for another one. *)
Inductive call (A : Type) : Type :=
| Ret (a : A)
| Wait.
Arguments Ret {A} a.
Arguments Wait {A}.
