(* ===== verification/Chain.v ===== *)
(** * Linked lists in an array

    Records linked by their index, as the next-pointer map [N] of an array:
    [chain N p l q] follows the pointers from [p] through the records [l] to
    the pointer [q].  Index 0 ends a list. *)
From S2P Require Import Prelude.

Fixpoint chain (N : gmap Z Z) (p : Z) (l : list Z) (q : Z) : Prop :=
  match l with
  | [] => p = q
  | o :: l => p = o /\ o <> 0 /\ exists n, N !! o = Some n /\ chain N n l q
  end.

Lemma chain_app N p l1 l2 q : chain N p (l1 ++ l2) q <-> exists r, chain N p l1 r /\ chain N r l2 q.
Proof.
  revert p. induction l1 as [|o l1 IH]; intros p; simpl.
  - split; [by exists p|]. by intros (r & -> & H).
  - setoid_rewrite IH. naive_solver.
Qed.

Lemma chain_ext N N' p l q :
  (forall o, o ∈ l -> N' !! o = N !! o) -> chain N p l q -> chain N' p l q.
Proof.
  revert p. induction l as [|o l IH]; intros p H; simpl; [done|].
  intros (-> & Ho & n & Hn & Hs). split_and!; [done..|]. exists n. split.
  - rewrite H; [done|left].
  - apply IH; [|done]. intros o' Ho'. apply H. by right.
Qed.

Lemma chain_insert_ne N p l q o v : o ∉ l -> chain N p l q -> chain (<[o := v]> N) p l q.
Proof. intros Ho. apply chain_ext. intros o' Ho'. apply lookup_insert_ne. by intros ->. Qed.

Lemma chain_in N p l q o : chain N p l q -> o ∈ l -> is_Some (N !! o) /\ o <> 0.
Proof.
  revert p. induction l as [|o' l IH]; intros p; simpl; [by intros _ ?%not_elem_of_nil|].
  intros (-> & Ho & n & Hn & Hs) [->|Hin]%elem_of_cons; [eauto|by eapply IH].
Qed.

(** Redirecting the last pointer of a list. *)
Lemma chain_snoc N p l o q v :
  chain N p (l ++ [o]) q -> o ∉ l -> chain (<[o := v]> N) p (l ++ [o]) v.
Proof.
  intros (r & H1 & H2)%chain_app Ho. apply chain_app. exists r. split; [by apply chain_insert_ne|].
  simpl in *. destruct H2 as (-> & H0 & n & _ & _). split_and!; [done..|].
  exists v. by rewrite lookup_insert_eq.
Qed.

Lemma chain_nil_head N p l : chain N p l 0 -> p = 0 <-> l = [].
Proof. destruct l as [|o l]; simpl; [done|]. intros (-> & Ho & _). done. Qed.

(** A list without repetition is not longer than the array. *)
Lemma chain_length {A} (m : gmap Z A) l :
  NoDup l -> (forall o, o ∈ l -> is_Some (m !! o)) -> (length l <= size m)%nat.
Proof.
  intros Hn Hin. rewrite <- (size_dom (D := gset Z)).
  rewrite <- (size_list_to_set (C := gset Z) l) by done.
  apply subseteq_size. intros o Ho. apply elem_of_list_to_set in Ho. apply elem_of_dom. auto.
Qed.

(** ** Doubly linked lists in a heap

    A list whose nodes carry the pointers [next] and [prev], with pointers
    to the first and the last node: the next-pointers [N] lead through the
    nodes to null, the prev-pointers [P] lead back through the same nodes.
    The definition is symmetric, so what holds at the head holds at the
    tail. *)
Lemma nodup_rev {A} (l : list A) : NoDup l -> NoDup (reverse l).
Proof. by rewrite reverse_Permutation. Qed.

Record dlist (N P : gmap Z Z) (hd tl : Z) (l : list Z) : Prop := {
  dl_next : chain N hd l 0;
  dl_prev : chain P tl (reverse l) 0;
  dl_nodup : NoDup l
}.

Lemma dlist_nil N P : dlist N P 0 0 [].
Proof. split; [done|done|constructor]. Qed.

Lemma dlist_sym N P hd tl l : dlist N P hd tl l -> dlist P N tl hd (reverse l).
Proof. intros [Hn Hp Hd]. split; [done|by rewrite reverse_involutive|by apply nodup_rev]. Qed.

Lemma dlist_head N P hd tl l : dlist N P hd tl l -> hd = 0 <-> l = [].
Proof. intros [Hn _ _]. by eapply chain_nil_head. Qed.

Lemma dlist_in N P hd tl l x : dlist N P hd tl l -> x ∈ l -> is_Some (N !! x) /\ is_Some (P !! x) /\ x <> 0.
Proof.
  intros [Hn Hp _] Hx. destruct (chain_in _ _ _ _ x Hn Hx) as [? ?].
  destruct (chain_in _ _ _ _ x Hp) as [? _]; [by apply elem_of_reverse|]. done.
Qed.

(** Pointers outside the list do not matter. *)
Lemma dlist_ext N P N' P' hd tl l :
  (forall x, x ∈ l -> N' !! x = N !! x /\ P' !! x = P !! x) -> dlist N P hd tl l -> dlist N' P' hd tl l.
Proof.
  intros He [Hn Hp Hd]. split; [| |done].
  - eapply chain_ext; [|done]. intros x Hx. apply He, Hx.
  - eapply chain_ext; [|done]. intros x Hx. rewrite elem_of_reverse in Hx. apply He, Hx.
Qed.

(** ** Adding a node at the head *)
Lemma dlist_push N P hd tl l p :
  dlist N P hd tl l -> p ∉ l -> p <> 0 ->
  dlist (<[p := hd]> N) (let P' := <[p := 0]> P in if hd =? 0 then P' else <[hd := p]> P') p
    (if hd =? 0 then p else tl) (p :: l).
Proof.
  intros Hdl Hp Hp0. pose proof (dlist_head _ _ _ _ _ Hdl) as Hhd. destruct Hdl as [Hn Hpr Hd].
  split; [| |by constructor].
  { simpl. split_and!; [done..|]. exists hd. rewrite lookup_insert_eq. split; [done|]. by apply chain_insert_ne. }
  rewrite reverse_cons. apply chain_app. destruct (Z.eqb_spec hd 0) as [->|Hne].
  - assert (l = []) as -> by (by apply Hhd). exists p. split; [done|]. simpl. split_and!; [done..|].
    exists 0. by rewrite lookup_insert_eq.
  - destruct l as [|h l]; [by destruct Hhd as [_ ->]|]. simpl in Hn. destruct Hn as [-> _].
    apply NoDup_cons in Hd as [Hh _]. apply not_elem_of_cons in Hp as [Hph Hpl].
    exists p. split.
    + rewrite reverse_cons in *. eapply chain_snoc; [|by rewrite elem_of_reverse].
      apply chain_insert_ne; [|done]. rewrite elem_of_app, elem_of_reverse, list_elem_of_singleton. tauto.
    + simpl. split_and!; [done..|]. exists 0. by rewrite lookup_insert_ne, lookup_insert_eq by done.
Qed.

(** ** Adding a node at the tail *)
Lemma dlist_append N P hd tl l p :
  dlist N P hd tl l -> p ∉ l -> p <> 0 ->
  dlist (let N' := <[p := 0]> N in if tl =? 0 then N' else <[tl := p]> N') (<[p := tl]> P)
    (if tl =? 0 then p else hd) p (l ++ [p]).
Proof.
  intros Hdl%dlist_sym Hp Hp0. apply (dlist_push _ _ _ _ _ p) in Hdl; [|by rewrite elem_of_reverse|done].
  apply dlist_sym in Hdl. by rewrite reverse_cons, reverse_involutive in Hdl.
Qed.

(** ** Removing a node *)

(** The pointers of one direction around a node. *)
Lemma chain_unlink N hd a x b :
  chain N hd (a ++ x :: b) 0 -> NoDup (a ++ x :: b) ->
  exists n, N !! x = Some n /\ x <> 0 /\ n <> x /\ (n = 0 <-> b = []) /\ (hd = x <-> a = []) /\
    chain (match last a with Some y => <[y := n]> N | None => N end) (if decide (a = []) then n else hd) (a ++ b) 0.
Proof.
  intros (r & Ha & Hb)%chain_app Hd. simpl in Hb. destruct Hb as (-> & Hx & n & Hn & Hb). exists n.
  pose proof (chain_nil_head _ _ _ Hb) as Hn0. apply NoDup_app in Hd as (Hda & Hab & [Hxb Hdb]%NoDup_cons).
  split_and!; [done|done| | | |].
  - intros ->. destruct b as [|y b]; simpl in Hb; [done|]. destruct Hb as [-> _]. apply Hxb. left.
  - done.
  - split; [|by intros ->]. destruct a as [|y a]; [done|]. simpl in Ha. destruct Ha as [-> _]. intros ->.
    exfalso. apply (Hab x); left.
  - destruct (decide (a = [])) as [->|Hne]; [done|]. destruct (exists_last Hne) as (a' & y & ->).
    rewrite last_snoc. apply chain_app. exists n. split.
    + eapply chain_snoc; [done|]. apply NoDup_app in Hda as (_ & H & _). intros Hin. apply (H y Hin). left.
    + apply chain_insert_ne; [|done]. intros Hin. apply (Hab y); [apply elem_of_app; right; left|by right].
Qed.

(** What the neighbours of a node are. *)
Lemma chain_before N hd a x b y : chain N hd (a ++ x :: b) 0 -> last a = Some y -> N !! y = Some x.
Proof.
  intros (r & Ha & Hb)%chain_app Hl. simpl in Hb. destruct Hb as [-> _].
  apply last_Some in Hl as [a' ->]. apply chain_app in Ha as (r & _ & Ha). simpl in Ha.
  destruct Ha as (-> & _ & n & Hn & ->). done.
Qed.

Lemma dlist_unlink N P hd tl a x b :
  dlist N P hd tl (a ++ x :: b) ->
  exists n p, N !! x = Some n /\ P !! x = Some p /\ x <> 0 /\ n <> x /\ p <> x /\
    (hd = x <-> a = []) /\ (tl = x <-> b = []) /\ (n = 0 <-> b = []) /\ (p = 0 <-> a = []) /\
    (n <> 0 -> n ∈ b) /\ (p <> 0 -> p ∈ a) /\
    dlist (if p =? 0 then N else <[p := n]> N) (if n =? 0 then P else <[n := p]> P)
      (if p =? 0 then n else hd) (if n =? 0 then p else tl) (a ++ b).
Proof.
  intros [Hn Hp Hd]. pose proof (nodup_rev _ Hd) as Hd'.
  rewrite reverse_app, reverse_cons, <- app_assoc in Hp, Hd'. simpl in Hp, Hd'.
  destruct (chain_unlink _ _ _ _ _ Hn Hd) as (n & Hnx & Hx0 & Hnx' & Hn0 & Hhd & Hc).
  destruct (chain_unlink _ _ _ _ _ Hp Hd') as (p & Hpx & _ & Hpx' & Hp0 & Htl & Hc').
  assert (n = default 0 (head b)) as En.
  { apply chain_app in Hn as (r & _ & Hn). simpl in Hn. destruct Hn as (-> & _ & n' & Hn' & Hb).
    assert (n' = n) as -> by congruence. destruct b; simpl in *; [done|by destruct Hb]. }
  assert (p = default 0 (last a)) as Ep.
  { apply chain_app in Hp as (r & _ & Hp). simpl in Hp. destruct Hp as (-> & _ & p' & Hp' & Hb).
    assert (p' = p) as -> by congruence. rewrite <- head_reverse. destruct (reverse a); simpl in *; [done|by destruct Hb]. }
  exists n, p. split; [done|]. split; [done|]. split; [done|]. split; [done|]. split; [done|]. split; [done|]. split.
  { rewrite Htl. split; [|by intros ->]. intros H%(f_equal reverse). by rewrite reverse_involutive in H. }
  assert (forall l : list Z, reverse l = [] <-> l = []) as Hrn.
  { intros l. split; [|by intros ->]. intros H%(f_equal reverse). by rewrite reverse_involutive in H. }
  rewrite Hrn in Hp0. split_and!; [done|done| | |].
  { destruct b; simpl in *; subst; [done|left]. }
  { destruct (last a) as [y|] eqn:El; simpl in Ep; [|done]. subst y. apply last_Some in El as [a' ->].
    intros _. apply elem_of_app. right. left. }
  split.
  - destruct (Z.eqb_spec p 0) as [Hz|Hz].
    + assert (a = []) as -> by tauto. done.
    + rewrite decide_False in Hc by tauto. destruct (last a); simpl in *; subst; done.
  - rewrite reverse_app, last_reverse in *. destruct (Z.eqb_spec n 0) as [Hz|Hz].
    + assert (b = []) as -> by tauto. done.
    + rewrite decide_False in Hc' by (rewrite Hrn; tauto). destruct b as [|y b]; simpl in *; subst; done.
  - apply NoDup_app in Hd as (Ha & Hab & [_ Hb]%NoDup_cons). apply NoDup_app. split_and!; [done| |done].
    intros y Hy Hyb. apply (Hab y Hy). by right.
Qed.

(** ** Operations on doubly linked lists

    Memory with nodes that are linked both ways, and the loads and stores of
    the sources on it: a load or store through an invalid pointer aborts.
    The programs that keep such lists (JobQ, PrJobs) are written
    with these operations and their proofs with the lemmas below. *)
Open Scope prog_scope.

Record node (A : Type) := mkNode { n_next : Z; n_prev : Z; n_data : A }.
Arguments mkNode {A} n_next n_prev n_data.
Arguments n_next {A} n.
Arguments n_prev {A} n.
Arguments n_data {A} n.

(** The pointers to the first and the last node, and the nodes in memory,
    on the list or not; null is 0. *)
Record dl (A : Type) := mkDl { d_head : Z; d_tail : Z; d_mem : gmap Z (node A) }.
Arguments mkDl {A} d_head d_tail d_mem.
Arguments d_head {A} d.
Arguments d_tail {A} d.
Arguments d_mem {A} d.

Definition set_head {A} (p : Z) (d : dl A) : dl A := mkDl p (d_tail d) (d_mem d).
Definition set_tail {A} (p : Z) (d : dl A) : dl A := mkDl (d_head d) p (d_mem d).
Definition set_node {A} (p : Z) (n : node A) (d : dl A) : dl A := mkDl (d_head d) (d_tail d) (<[p := n]> (d_mem d)).
Definition free_node {A} (p : Z) (d : dl A) : dl A := mkDl (d_head d) (d_tail d) (delete p (d_mem d)).

Definition deref {A} (p : Z) : Prog (dl A) (node A) :=
  do n <- get (fun d => d_mem d !! p);
  match n with Some n => pret n | None => die "invalid pointer" end.

(** [p->next = v] and [p->prev = v] *)
Definition set_next {A} (p v : Z) : Prog (dl A) unit :=
  do n <- deref p; put (set_node p (mkNode v (n_prev n) (n_data n))).
Definition set_prev {A} (p v : Z) : Prog (dl A) unit :=
  do n <- deref p; put (set_node p (mkNode (n_next n) v (n_data n))).

(** ** What the memory says *)
Definition nexts {A} (d : dl A) : gmap Z Z := n_next <$> d_mem d.
Definition prevs {A} (d : dl A) : gmap Z Z := n_prev <$> d_mem d.
Definition datas {A} (d : dl A) : gmap Z A := n_data <$> d_mem d.

(** The nodes [l] are linked, and the memory holds the data [D]. *)
Definition dl_rep {A} (D : gmap Z A) (d : dl A) (l : list Z) : Prop :=
  datas d = D /\ dlist (nexts d) (prevs d) (d_head d) (d_tail d) l.

Definition view {A} (D : gmap Z A) (N P : gmap Z Z) (hd tl : Z) (d : dl A) : Prop :=
  datas d = D /\ nexts d = N /\ prevs d = P /\ d_head d = hd /\ d_tail d = tl.

Section stores.
Context {A : Type} (D : gmap Z A) (N P : gmap Z Z) (hd tl p v : Z).

Lemma deref_run d :
  view D N P hd tl d -> is_Some (D !! p) ->
  exists n, deref p d = Ok n d /\ N !! p = Some (n_next n) /\ P !! p = Some (n_prev n) /\ D !! p = Some (n_data n).
Proof.
  intros (<- & <- & <- & _ & _) Hp. unfold nexts, prevs, datas, deref in *. pstep. rewrite !lookup_fmap in *.
  destruct (d_mem d !! p) as [n|]; [by exists n|by destruct Hp].
Qed.

Lemma set_next_run d :
  view D N P hd tl d -> is_Some (D !! p) ->
  exists d', set_next p v d = Ok tt d' /\ view D (<[p := v]> N) P hd tl d'.
Proof.
  intros Hv Hp. destruct (deref_run d Hv Hp) as (n & E & Hn & Hpr & Hd).
  unfold set_next. rewrite (pbind_ok _ _ _ _ _ E). eexists. split; [done|].
  destruct Hv as (<- & <- & <- & <- & <-). unfold view, nexts, prevs, datas in *. simpl. rewrite !fmap_insert. simpl.
  split_and!; try done; by apply insert_id.
Qed.

Lemma set_prev_run d :
  view D N P hd tl d -> is_Some (D !! p) ->
  exists d', set_prev p v d = Ok tt d' /\ view D N (<[p := v]> P) hd tl d'.
Proof.
  intros Hv Hp. destruct (deref_run d Hv Hp) as (n & E & Hn & Hpr & Hd).
  unfold set_prev. rewrite (pbind_ok _ _ _ _ _ E). eexists. split; [done|].
  destruct Hv as (<- & <- & <- & <- & <-). unfold view, nexts, prevs, datas in *. simpl. rewrite !fmap_insert. simpl.
  split_and!; try done; by apply insert_id.
Qed.

Lemma set_head_view d : view D N P hd tl d -> view D N P p tl (set_head p d).
Proof. by intros (? & ? & ? & ? & ?). Qed.

Lemma set_tail_view d : view D N P hd tl d -> view D N P hd p (set_tail p d).
Proof. by intros (? & ? & ? & ? & ?). Qed.

End stores.

Create HintDb dlops.
#[export] Hint Resolve set_head_view set_tail_view : dlops.

Section reps.
Context {A : Type} (D : gmap Z A).

Lemma rep_view d l : dl_rep D d l -> view D (nexts d) (prevs d) (d_head d) (d_tail d) d.
Proof. by intros [? ?]. Qed.

Lemma view_rep N P hd tl d l : view D N P hd tl d -> dlist N P hd tl l -> dl_rep D d l.
Proof. by intros (<- & <- & <- & <- & <-). Qed.

Lemma rep_datas d l x : dl_rep D d l -> x ∈ l -> is_Some (D !! x).
Proof.
  intros [<- Hd] Hx. destruct (dlist_in _ _ _ _ _ _ Hd Hx) as (H & _). revert H.
  unfold nexts, datas. by rewrite !lookup_fmap, !fmap_is_Some.
Qed.

Lemma rep_nonnull d l x : dl_rep D d l -> x ∈ l -> x <> 0.
Proof. intros [_ Hd] Hx. by apply (dlist_in _ _ _ _ _ _ Hd Hx). Qed.

Lemma rep_empty : datas (mkDl 0 0 (∅ : gmap Z (node A))) = ∅.
Proof. unfold datas. simpl. apply fmap_empty. Qed.

(** No list is longer than the memory. *)
Lemma rep_length d l : dl_rep D d l -> (length l <= size (d_mem d))%nat.
Proof.
  intros [_ Hd]. apply chain_length; [apply Hd|]. intros o Ho. destruct (dlist_in _ _ _ _ _ _ Hd Ho) as (H & _).
  revert H. unfold nexts. by rewrite lookup_fmap, fmap_is_Some.
Qed.

End reps.

Lemma dlist_first N P hd tl l : dlist N P hd tl l -> hd <> 0 -> hd ∈ l.
Proof. intros Hd Hne. destruct l as [|h l]; [by apply dlist_head in Hd; tauto|]. destruct (dl_next _ _ _ _ _ Hd) as [-> _]. left. Qed.

Lemma dlist_last N P hd tl l : dlist N P hd tl l -> tl <> 0 -> tl ∈ l.
Proof. intros Hd%dlist_sym Hne. apply dlist_first in Hd; [|done]. by rewrite elem_of_reverse in Hd. Qed.

Lemma filter_mid {A} `{EqDecision A} (a b : list A) x : NoDup (a ++ x :: b) -> filter (fun y => y <> x) (a ++ x :: b) = a ++ b.
Proof.
  intros (_ & Hab & [Hxb _]%NoDup_cons)%NoDup_app. rewrite filter_app, filter_cons_False by tauto.
  assert (forall l : list A, x ∉ l -> filter (fun y => y <> x) l = l) as Hf.
  { induction l as [|y l IH]; [done|]. intros [? ?]%not_elem_of_cons. rewrite filter_cons_True by done. by rewrite IH. }
  rewrite !Hf; [done|done|]. intros Hx. apply (Hab x Hx). left.
Qed.

(** What a program that takes [p] out of the list starts from: the fields
    of [p], and the list without it. *)
Lemma rep_unlink {A} (D : gmap Z A) d l p :
  dl_rep D d l -> p ∈ l ->
  exists x, deref p d = Ok x d /\ n_next x <> p /\ n_prev x <> p /\ (d_head d = p <-> n_prev x = 0) /\ (d_tail d = p <-> n_next x = 0) /\
    (n_next x <> 0 -> is_Some (D !! n_next x)) /\ (n_prev x <> 0 -> is_Some (D !! n_prev x)) /\
    dlist (if n_prev x =? 0 then nexts d else <[n_prev x := n_next x]> (nexts d))
      (if n_next x =? 0 then prevs d else <[n_next x := n_prev x]> (prevs d))
      (if n_prev x =? 0 then n_next x else d_head d) (if n_next x =? 0 then n_prev x else d_tail d) (filter (fun y => y <> p) l).
Proof.
  intros Hr Hp. pose proof (rep_datas _ _ _ _ Hr Hp) as Hid. pose proof (fun y => rep_datas D d l y Hr) as Hin.
  apply list_elem_of_split in Hp as (a & b & ->). rewrite filter_mid by apply Hr.
  destruct (dlist_unlink _ _ _ _ _ _ _ (proj2 Hr)) as (n & pr & Hn & Hpr & Hp0 & Hnp & Hprp & Hh & Ht & Hn0 & Hpr0 & Hnb & Hpa & Hdl).
  destruct (deref_run D _ _ _ _ p _ (rep_view _ _ _ Hr) Hid) as (x & E & Hxn & Hxp & _). exists x.
  assert (n_next x = n /\ n_prev x = pr) as [-> ->] by (split; congruence).
  split_and!; try done.
  - by rewrite Hh, Hpr0.
  - by rewrite Ht, Hn0.
  - intros Hz. apply Hin, elem_of_app. right. right. auto.
  - intros Hz. apply Hin, elem_of_app. auto.
Qed.

(** A node that is not on the list can be freed. *)
Lemma rep_free {A} (D : gmap Z A) d l p : dl_rep D d l -> (p ∉ l) -> dl_rep (delete p D) (free_node p d) l.
Proof.
  intros [<- Hdl] Hp. unfold dl_rep, datas, nexts, prevs in *. simpl. rewrite !fmap_delete. split; [done|].
  eapply dlist_ext; [|exact Hdl]. intros x Hx. assert (p <> x) by (by intros ->). by rewrite !lookup_delete_ne.
Qed.

(** The first node of a list. *)
Lemma rep_head {A} (D : gmap Z A) d p l : dl_rep D d (p :: l) -> d_head d = p /\ p <> 0 /\ (p ∉ l) /\ is_Some (D !! p).
Proof.
  intros Hr. split_and!.
  - by destruct Hr as [_ [[-> _] _ _]].
  - eapply rep_nonnull; [done|left].
  - destruct Hr as [_ [_ _ Hd]]. by apply NoDup_cons in Hd as [? _].
  - eapply rep_datas; [done|left].
Qed.

(** [store] runs the next store of a program. *)
Ltac store_with H p0 v0 d0 :=
  let d' := fresh "d'" in let E := fresh "E" in let Hv := fresh "Hv" in
  edestruct H with (p := p0) (v := v0) (d := d0) as (d' & E & Hv); [eauto with dlops| |rewrite ?(pbind_ok _ _ _ _ _ E), ?E; pstep].

Ltac store :=
  lazymatch goal with
  | |- context [pbind (set_next ?p ?v) _ ?q] => store_with @set_next_run p v q
  | |- context [pbind (set_prev ?p ?v) _ ?q] => store_with @set_prev_run p v q
  | |- context [set_next ?p ?v ?q] => store_with @set_next_run p v q
  | |- context [set_prev ?p ?v ?q] => store_with @set_prev_run p v q
  end.
