(* ===== verification/Threads.v ===== *)
(** * Counting threads

    The states of the threads of a system, by thread number, and the number
    of threads in a state of some kind. *)
From S2P Require Import Prelude.

Definition count_if {X} (f : X -> bool) (m : gmap nat X) : Z :=
  Z.of_nat (size (filter (fun x => f x.2 = true) m)).

Lemma count_insert {X} (f : X -> bool) m t old x :
  m !! t = Some old ->
  count_if f (<[t := x]> m) = count_if f m - Z.b2z (f old) + Z.b2z (f x).
Proof.
  intros Ht. unfold count_if.
  assert (forall y, size (filter (fun x => f x.2 = true) (<[t := y]> (delete t m)))
    = (Z.to_nat (Z.b2z (f y)) + size (filter (fun x => f x.2 = true) (delete t m)))%nat) as H.
  { intros y. rewrite map_filter_insert. simpl. destruct (f y) eqn:E; simpl.
    - rewrite map_size_insert_None; [done|]. rewrite map_lookup_filter, lookup_delete_eq. done.
    - by rewrite delete_delete_eq. }
  pose proof (H old) as H1. rewrite insert_delete_id in H1 by done.
  pose proof (H x) as H2. rewrite insert_delete_eq in H2. rewrite H1, H2.
  destruct (f old), (f x); simpl; lia.
Qed.

Lemma count_nonneg {X} (f : X -> bool) m : 0 <= count_if f m.
Proof. unfold count_if. lia. Qed.

Lemma count_pos {X} (f : X -> bool) m t x : m !! t = Some x -> f x = true -> 0 < count_if f m.
Proof.
  intros Ht Hf. unfold count_if. enough (size (filter (fun x => f x.2 = true) m) <> 0%nat) by lia.
  intros H. apply map_size_empty_inv in H. apply (f_equal (fun m => m !! t)) in H.
  rewrite map_lookup_filter, Ht, lookup_empty in H. simpl in H. by rewrite option_guard_True in H.
Qed.

Lemma count_zero {X} (f : X -> bool) m t x : count_if f m = 0 -> m !! t = Some x -> f x = false.
Proof.
  intros H0 Ht. destruct (f x) eqn:E; [|done]. pose proof (count_pos f m t x Ht E). lia.
Qed.

Lemma count_exists {X} (f : X -> bool) m : 0 < count_if f m -> exists t x, m !! t = Some x /\ f x = true.
Proof.
  intros H. unfold count_if in H. destruct (map_choose (filter (fun x => f x.2 = true) m)) as (t & x & Hx).
  { intros E. rewrite E, map_size_empty in H. lia. }
  apply map_lookup_filter_Some in Hx as [Hx Hf]. by exists t, x.
Qed.

Lemma count_empty {X} (f : X -> bool) : count_if f ∅ = 0.
Proof. done. Qed.

Lemma count_fmap {X} (f f' : X -> bool) (g : X -> X) m :
  (forall x, f (g x) = f' x) -> count_if f (g <$> m) = count_if f' m.
Proof.
  intros H. unfold count_if. f_equal.
  assert (filter (fun x => f x.2 = true) (g <$> m) = g <$> filter (fun x => f' x.2 = true) m) as ->.
  { rewrite map_filter_fmap. f_equal. apply map_filter_ext. intros i x _. simpl. by rewrite H. }
  apply map_size_fmap.
Qed.

Lemma count_false {X} (m : gmap nat X) : count_if (fun _ => false) m = 0.
Proof.
  pose proof (count_nonneg (fun _ => false) m). destruct (Z.eq_dec (count_if (fun _ => false) m) 0) as [|Hn]; [done|].
  destruct (count_exists (fun _ => false) m) as (? & ? & _ & ?); [lia|done].
Qed.

(** ** What the threads hold

    The things that the threads of a system have, all together. *)
Definition gather {X B} (f : X -> list B) (m : gmap nat X) : list B := map_to_list m ≫= (fun x => f x.2).

Lemma gather_delete {X B} (f : X -> list B) m t x :
  m !! t = Some x -> gather f m ≡ₚ f x ++ gather f (delete t m).
Proof. intros H. unfold gather. rewrite <- (map_to_list_delete m t x H). by rewrite bind_cons. Qed.

Lemma gather_insert {X B} (f : X -> list B) m t old x :
  m !! t = Some old -> gather f (<[t := x]> m) ≡ₚ f x ++ gather f (delete t m).
Proof. intros H. rewrite (gather_delete f _ t x) by apply lookup_insert_eq. by rewrite delete_insert_eq. Qed.

Lemma gather_elem {X B} (f : X -> list B) m b : b ∈ gather f m <-> exists t x, m !! t = Some x /\ b ∈ f x.
Proof.
  unfold gather. rewrite list_elem_of_bind. split.
  - intros ([t x] & Hb & Hx). apply elem_of_map_to_list in Hx. eauto.
  - intros (t & x & Hx & Hb). exists (t, x). split; [done|]. by apply elem_of_map_to_list.
Qed.
