(* ===== verification/Db.v ===== *)
(** * The database library of apue.3e/db: the operations of db.c

    Two files: the index file holds the free list pointer, [NHASH_DEF] hash
    chain pointers, a newline, and the index records; the data file holds the
    data records.  Every definition keeps the name of the function of db.c it
    translates; [DB] is the library's private structure, with the two open
    files in place of the two descriptors and the history of the lock
    requests and writes of the process. *)
From S2P Require Import Prelude CString Posix.

Open Scope prog_scope.

(** ** Constants (db.c and apue_db.h) *)
Definition IDXLEN_SZ : Z := 4.
Definition SEP : Z := CH_COLON.
Definition SPACE : Z := CH_SPACE.
Definition NEWLINE : Z := CH_NEWLINE.
Definition PTR_SZ : Z := 7.
Definition PTR_MAX : Z := 9999999.
Definition NHASH_DEF : Z := 137.
Definition FREE_OFF : Z := 0.
Definition HASH_OFF : Z := PTR_SZ.

Definition DB_INSERT : Z := 1.
Definition DB_REPLACE : Z := 2.
Definition DB_STORE : Z := 3.

Definition IDXLEN_MIN : Z := 6.
Definition IDXLEN_MAX : Z := 1024.
Definition DATLEN_MIN : Z := 2.
Definition DATLEN_MAX : Z := 1024.

(** ** The private structure *)

(** The statistics fields; [counts] of [DB] gives their values. *)
Inductive counter :=
| cnt_delok | cnt_delerr | cnt_fetchok | cnt_fetcherr | cnt_nextrec
| cnt_stor1 | cnt_stor2 | cnt_stor3 | cnt_stor4 | cnt_storerr.

#[export] Instance counter_eq_dec : EqDecision counter.
Proof. solve_decision. Defined.

(** [db->cnt_x++] on an [unsigned long]. *)
Definition inc (c : counter) (v : counter -> Z) : counter -> Z :=
  fun x => if decide (x = c) then wrapu 64 (v x + 1) else v x.

Record DB := mkDB {
  idxfd : file;
  datfd : file;
  idxbuf : bytes;
  datbuf : bytes;
  name : bytes;
  idxoff : Z;
  idxlen : Z;
  datoff : Z;
  datlen : Z;
  ptrval : Z;
  ptroff : Z;
  chainoff : Z;
  hashoff : Z;
  nhash : Z;
  counts : counter -> Z;
  trace : list event
}.

Definition set_idxfd (v : file) (d : DB) : DB :=
  mkDB v (datfd d) (idxbuf d) (datbuf d) (name d) (idxoff d) (idxlen d)
    (datoff d) (datlen d) (ptrval d) (ptroff d) (chainoff d) (hashoff d)
    (nhash d) (counts d) (trace d).
Definition set_datfd (v : file) (d : DB) : DB :=
  mkDB (idxfd d) v (idxbuf d) (datbuf d) (name d) (idxoff d) (idxlen d)
    (datoff d) (datlen d) (ptrval d) (ptroff d) (chainoff d) (hashoff d)
    (nhash d) (counts d) (trace d).
Definition set_idxbuf (v : bytes) (d : DB) : DB :=
  mkDB (idxfd d) (datfd d) v (datbuf d) (name d) (idxoff d) (idxlen d)
    (datoff d) (datlen d) (ptrval d) (ptroff d) (chainoff d) (hashoff d)
    (nhash d) (counts d) (trace d).
Definition set_datbuf (v : bytes) (d : DB) : DB :=
  mkDB (idxfd d) (datfd d) (idxbuf d) v (name d) (idxoff d) (idxlen d)
    (datoff d) (datlen d) (ptrval d) (ptroff d) (chainoff d) (hashoff d)
    (nhash d) (counts d) (trace d).
Definition set_name (v : bytes) (d : DB) : DB :=
  mkDB (idxfd d) (datfd d) (idxbuf d) (datbuf d) v (idxoff d) (idxlen d)
    (datoff d) (datlen d) (ptrval d) (ptroff d) (chainoff d) (hashoff d)
    (nhash d) (counts d) (trace d).
Definition set_idxoff (v : Z) (d : DB) : DB :=
  mkDB (idxfd d) (datfd d) (idxbuf d) (datbuf d) (name d) v (idxlen d)
    (datoff d) (datlen d) (ptrval d) (ptroff d) (chainoff d) (hashoff d)
    (nhash d) (counts d) (trace d).
Definition set_idxlen (v : Z) (d : DB) : DB :=
  mkDB (idxfd d) (datfd d) (idxbuf d) (datbuf d) (name d) (idxoff d) v
    (datoff d) (datlen d) (ptrval d) (ptroff d) (chainoff d) (hashoff d)
    (nhash d) (counts d) (trace d).
Definition set_datoff (v : Z) (d : DB) : DB :=
  mkDB (idxfd d) (datfd d) (idxbuf d) (datbuf d) (name d) (idxoff d) (idxlen
    d) v (datlen d) (ptrval d) (ptroff d) (chainoff d) (hashoff d) (nhash d)
    (counts d) (trace d).
Definition set_datlen (v : Z) (d : DB) : DB :=
  mkDB (idxfd d) (datfd d) (idxbuf d) (datbuf d) (name d) (idxoff d) (idxlen
    d) (datoff d) v (ptrval d) (ptroff d) (chainoff d) (hashoff d) (nhash d)
    (counts d) (trace d).
Definition set_ptrval (v : Z) (d : DB) : DB :=
  mkDB (idxfd d) (datfd d) (idxbuf d) (datbuf d) (name d) (idxoff d) (idxlen
    d) (datoff d) (datlen d) v (ptroff d) (chainoff d) (hashoff d) (nhash d)
    (counts d) (trace d).
Definition set_ptroff (v : Z) (d : DB) : DB :=
  mkDB (idxfd d) (datfd d) (idxbuf d) (datbuf d) (name d) (idxoff d) (idxlen
    d) (datoff d) (datlen d) (ptrval d) v (chainoff d) (hashoff d) (nhash d)
    (counts d) (trace d).
Definition set_chainoff (v : Z) (d : DB) : DB :=
  mkDB (idxfd d) (datfd d) (idxbuf d) (datbuf d) (name d) (idxoff d) (idxlen
    d) (datoff d) (datlen d) (ptrval d) (ptroff d) v (hashoff d) (nhash d)
    (counts d) (trace d).
Definition set_hashoff (v : Z) (d : DB) : DB :=
  mkDB (idxfd d) (datfd d) (idxbuf d) (datbuf d) (name d) (idxoff d) (idxlen
    d) (datoff d) (datlen d) (ptrval d) (ptroff d) (chainoff d) v (nhash d)
    (counts d) (trace d).
Definition set_nhash (v : Z) (d : DB) : DB :=
  mkDB (idxfd d) (datfd d) (idxbuf d) (datbuf d) (name d) (idxoff d) (idxlen
    d) (datoff d) (datlen d) (ptrval d) (ptroff d) (chainoff d) (hashoff d)
    v (counts d) (trace d).
Definition set_counts (v : counter -> Z) (d : DB) : DB :=
  mkDB (idxfd d) (datfd d) (idxbuf d) (datbuf d) (name d) (idxoff d) (idxlen
    d) (datoff d) (datlen d) (ptrval d) (ptroff d) (chainoff d) (hashoff d)
    (nhash d) v (trace d).
Definition set_trace (v : list event) (d : DB) : DB :=
  mkDB (idxfd d) (datfd d) (idxbuf d) (datbuf d) (name d) (idxoff d) (idxlen
    d) (datoff d) (datlen d) (ptrval d) (ptroff d) (chainoff d) (hashoff d)
    (nhash d) (counts d) v.

Definition count (c : counter) : Prog DB unit :=
  put (fun d => set_counts (inc c (counts d)) d).

(** ** System calls on the two files *)
Definition fileof (fd : dbfile) (d : DB) : file :=
  match fd with IDX => idxfd d | DAT => datfd d end.

Definition set_fileof (fd : dbfile) (f : file) (d : DB) : DB :=
  match fd with IDX => set_idxfd f d | DAT => set_datfd f d end.

Definition note (e : event) : Prog DB unit := put (fun d => set_trace (e :: trace d) d).

(** [lock_reg] with [F_SETLKW] or with [F_UNLCK]: this process gets the lock
    (it waits for the others), so the call succeeds. *)
Definition lock_reg (fd : dbfile) (t : ltype) (offset len : Z) : Prog DB unit :=
  note (EvLock fd t offset len).

Definition writew_lock (fd : dbfile) (offset len : Z) := lock_reg fd F_WRLCK offset len.
Definition readw_lock (fd : dbfile) (offset len : Z) := lock_reg fd F_RDLCK offset len.
Definition un_lock (fd : dbfile) (offset len : Z) := lock_reg fd F_UNLCK offset len.

Definition sys_lseek (fd : dbfile) (off : Z) (w : whence) (msg : string) : Prog DB Z :=
  fun d => match lseek (fileof fd d) off w with
           | Some f => Ok (f_pos f) (set_fileof fd f d)
           | None => Abort msg d
           end.

Definition sys_read (fd : dbfile) (n : Z) : Prog DB bytes :=
  fun d => let '(b, f) := fread (fileof fd d) n in Ok b (set_fileof fd f d).

Definition sys_write (fd : dbfile) (b : bytes) : Prog DB Z :=
  fun d => let '(n, f) := fwrite (fileof fd d) b in
           Ok n (set_trace (EvWrite fd (f_pos (fileof fd d)) (zlen b) :: trace d)
                   (set_fileof fd f d)).

(** Store one byte into a buffer. *)
Definition upd (buf : bytes) (i c : Z) : bytes := <[Z.to_nat i := c]> buf.

(** ** [_db_hash] *)

(** A [char] of this platform is signed. *)
Fixpoint hash_go (key : bytes) (i hval : Z) : Z :=
  match key with
  | [] => hval
  | c :: key => hash_go key (i + 1) (wrapu 64 (hval + wraps 32 (wraps 8 c * i)))
  end.

Definition _db_hash (nhash : Z) (key : bytes) : Z := hash_go (cstr key) 1 0 mod nhash.

(** ** Reading the index file *)
Definition _db_readptr (offset : Z) : Prog DB Z :=
  run sys_lseek IDX offset SEEK_SET "_db_readptr: lseek error to ptr field";
  do asciiptr <- sys_read IDX PTR_SZ;
  run guard_die (negb (zlen asciiptr =? PTR_SZ)) "_db_readptr: read error of ptr field";
  pret (atol (asciiptr ++ [NUL])).

(** The separators of the record in [idxbuf] become null bytes; the data
    offset and length after them are converted. *)
Definition parse_idxbuf : Prog DB unit :=
  do buf <- get idxbuf;
  match strchr buf SEP with
  | None => die "_db_readidx: missing first separator"
  | Some p1 =>
      let ptr1 := p1 + 1 in
      let buf1 := upd buf p1 NUL in
      run put (set_idxbuf buf1);
      match strchr (drop (Z.to_nat ptr1) buf1) SEP with
      | None => die "_db_readidx: missing second separator"
      | Some p2 =>
          let ptr2 := ptr1 + p2 + 1 in
          let buf2 := upd buf1 (ptr1 + p2) NUL in
          run put (set_idxbuf buf2);
          match strchr (drop (Z.to_nat ptr2) buf2) SEP with
          | Some _ => die "_db_readidx: too many separators"
          | None =>
              let off := atol (drop (Z.to_nat ptr1) buf2) in
              run put (set_datoff off);
              run guard_die (off <? 0) "_db_readidx: starting offset < 0";
              let len := wrapu 64 (atol (drop (Z.to_nat ptr2) buf2)) in
              run put (set_datlen len);
              guard_die ((len <=? 0) || (DATLEN_MAX <? len)) "_db_readidx: invalid length"
          end
      end
  end.

Definition _db_readidx (offset : Z) : Prog DB Z :=
  do o <- sys_lseek IDX offset (if offset =? 0 then SEEK_CUR else SEEK_SET)
            "_db_readidx: lseek error";
  run put (set_idxoff o);
  do b <- sys_read IDX (PTR_SZ + IDXLEN_SZ);
  if negb (zlen b =? PTR_SZ + IDXLEN_SZ) then
    if (zlen b =? 0) && (offset =? 0) then pret (-1)
    else die "_db_readidx: readv error of index record"
  else
  let asciiptr := slice b 0 PTR_SZ in
  let asciilen := slice b PTR_SZ IDXLEN_SZ in
  run put (set_ptrval (atol (asciiptr ++ [NUL])));
  let len := wrapu 64 (atoi (asciilen ++ [NUL])) in
  run put (set_idxlen len);
  run guard_die ((len <? IDXLEN_MIN) || (IDXLEN_MAX <? len)) "_db_readidx: invalid length";
  do rec <- sys_read IDX len;
  run put (fun d => set_idxbuf (splice (idxbuf d) 0 rec) d);
  run guard_die (negb (zlen rec =? len)) "_db_readidx: read error of index record";
  do buf <- get idxbuf;
  run guard_die (negb (bool_decide (buf !! Z.to_nat (len - 1) = Some NEWLINE)))
        "_db_readidx: missing newline";
  run put (set_idxbuf (upd buf (len - 1) NUL));
  run parse_idxbuf;
  get ptrval.

Definition _db_readdat : Prog DB bytes :=
  do off <- get datoff;
  do len <- get datlen;
  run sys_lseek DAT off SEEK_SET "_db_readdat: lseek error";
  do b <- sys_read DAT len;
  run put (fun d => set_datbuf (splice (datbuf d) 0 b) d);
  run guard_die (negb (zlen b =? len)) "_db_readdat: read error";
  do buf <- get datbuf;
  run guard_die (negb (bool_decide (buf !! Z.to_nat (len - 1) = Some NEWLINE)))
        "_db_readdat: missing newline";
  run put (set_datbuf (upd buf (len - 1) NUL));
  do buf' <- get datbuf;
  pret (cstr buf').

(** ** Writing *)
Definition _db_writedat (data : bytes) (offset : Z) (w : whence) : Prog DB unit :=
  run (match w with SEEK_END => writew_lock DAT 0 0 | _ => pret tt end);
  do o <- sys_lseek DAT offset w "_db_writedat: lseek error";
  run put (set_datoff o);
  let len := strlen data + 1 in
  run put (set_datlen len);
  do n <- sys_write DAT (cstr data ++ [NEWLINE]);
  run guard_die (negb (n =? len)) "_db_writedat: writev error of data record";
  match w with SEEK_END => un_lock DAT 0 0 | _ => pret tt end.

(** [idxbuf] has [IDXLEN_MAX + 2] bytes, and [sprintf] does not know it. *)
Definition sprintf_idxbuf (s : bytes) : Prog DB unit :=
  run guard_die (IDXLEN_MAX + 2 <? zlen s + 1) "_db_writeidx: sprintf past the end of idxbuf";
  put (fun d => set_idxbuf (splice (idxbuf d) 0 (s ++ [NUL])) d).

Definition _db_writeidx (key : bytes) (offset : Z) (w : whence) (ptr : Z) : Prog DB unit :=
  run put (set_ptrval ptr);
  run guard_die ((ptr <? 0) || (PTR_MAX <? ptr)) "_db_writeidx: invalid ptr";
  do off <- get datoff;
  do dlen <- get datlen;
  let s := cstr key ++ [SEP] ++ fmt_d off ++ [SEP] ++ fmt_d dlen ++ [NEWLINE] in
  run sprintf_idxbuf s;
  do buf <- get idxbuf;
  let len := strlen buf in
  run guard_die ((len <? IDXLEN_MIN) || (IDXLEN_MAX <? len)) "_db_writeidx: invalid length";
  let asciiptrlen := fmt_wd PTR_SZ ptr ++ fmt_wd IDXLEN_SZ len in
  do nh <- get nhash;
  run (match w with SEEK_END => writew_lock IDX ((nh + 1) * PTR_SZ + 1) 0 | _ => pret tt end);
  do o <- sys_lseek IDX offset w "_db_writeidx: lseek error";
  run put (set_idxoff o);
  do n <- sys_write IDX (slice asciiptrlen 0 (PTR_SZ + IDXLEN_SZ) ++ slice buf 0 len);
  run guard_die (negb (n =? PTR_SZ + IDXLEN_SZ + len)) "_db_writeidx: writev error of index record";
  match w with SEEK_END => un_lock IDX ((nh + 1) * PTR_SZ + 1) 0 | _ => pret tt end.

Definition _db_writeptr (offset ptr : Z) : Prog DB unit :=
  run guard_die ((ptr <? 0) || (PTR_MAX <? ptr)) "_db_writeptr: invalid ptr";
  let asciiptr := fmt_wd PTR_SZ ptr in
  run sys_lseek IDX offset SEEK_SET "_db_writeptr: lseek error to ptr field";
  do n <- sys_write IDX (slice asciiptr 0 PTR_SZ);
  guard_die (negb (n =? PTR_SZ)) "_db_writeptr: write error of ptr field".

(** ** Searching *)

(** The search loops leave the index file alone, so a loop that has made
    more steps than the file has bytes has met some offset twice and never
    ends: [chain_fuel] steps decide it. *)
Definition chain_fuel (d : DB) : nat := S (length (f_bytes (idxfd d))).

Fixpoint find_loop (fuel : nat) (key : bytes) (offset : Z) : Prog DB Z :=
  match fuel with
  | O => die "_db_find_and_lock: endless chain"
  | S fuel =>
      if offset =? 0 then pret offset
      else
        do nextoffset <- _db_readidx offset;
        do buf <- get idxbuf;
        if streq buf key then pret offset
        else
          run put (set_ptroff offset);
          find_loop fuel key nextoffset
  end.

Definition _db_find_and_lock (key : bytes) (writelock : bool) : Prog DB Z :=
  do nh <- get nhash;
  do ho <- get hashoff;
  let co := _db_hash nh key * PTR_SZ + ho in
  run put (set_chainoff co);
  run put (set_ptroff co);
  run (if writelock then writew_lock IDX co 1 else readw_lock IDX co 1);
  do offset <- _db_readptr co;
  do fuel <- get chain_fuel;
  do offset' <- find_loop fuel key offset;
  pret (if offset' =? 0 then -1 else 0).

Fixpoint findfree_loop (fuel : nat) (keylen dlen saveoffset offset : Z) : Prog DB (Z * Z) :=
  match fuel with
  | O => die "_db_findfree: endless chain"
  | S fuel =>
      if offset =? 0 then pret (saveoffset, offset)
      else
        do nextoffset <- _db_readidx offset;
        do buf <- get idxbuf;
        do rlen <- get datlen;
        if (strlen buf =? keylen) && (rlen =? dlen) then pret (saveoffset, offset)
        else findfree_loop fuel keylen dlen offset nextoffset
  end.

Definition _db_findfree (keylen dlen : Z) : Prog DB Z :=
  run writew_lock IDX FREE_OFF 1;
  do offset <- _db_readptr FREE_OFF;
  do fuel <- get chain_fuel;
  do ' (saveoffset, offset') <- findfree_loop fuel keylen dlen FREE_OFF offset;
  do rc <- (if offset' =? 0 then pret (-1)
            else
              do pv <- get ptrval;
              run _db_writeptr saveoffset pv;
              pret 0);
  run un_lock IDX FREE_OFF 1;
  pret rc.

(** ** The operations of the interface *)
Definition db_fetch (key : bytes) : Prog DB (option bytes) :=
  do rc <- _db_find_and_lock key false;
  do ptr <- (if rc <? 0 then
               run count cnt_fetcherr;
               pret None
             else
               do b <- _db_readdat;
               run count cnt_fetchok;
               pret (Some b));
  do co <- get chainoff;
  run un_lock IDX co 1;
  pret ptr.

Definition _db_dodelete : Prog DB unit :=
  run put (fun d => set_datbuf (splice (datbuf d) 0
             (replicate (Z.to_nat (datlen d - 1)) SPACE ++ [NUL])) d);
  run put (fun d => set_idxbuf (splice (idxbuf d) 0
             (replicate (length (cstr (idxbuf d))) SPACE)) d);
  run writew_lock IDX FREE_OFF 1;
  do dbuf <- get datbuf;
  do doff <- get datoff;
  run _db_writedat dbuf doff SEEK_SET;
  do freeptr <- _db_readptr FREE_OFF;
  do saveptr <- get ptrval;
  do ibuf <- get idxbuf;
  do ioff <- get idxoff;
  run _db_writeidx ibuf ioff SEEK_SET freeptr;
  do ioff' <- get idxoff;
  run _db_writeptr FREE_OFF ioff';
  do po <- get ptroff;
  run _db_writeptr po saveptr;
  un_lock IDX FREE_OFF 1.

Definition db_delete (key : bytes) : Prog DB Z :=
  do found <- _db_find_and_lock key true;
  do rc <- (if found =? 0 then
              run _db_dodelete;
              run count cnt_delok;
              pret 0
            else
              run count cnt_delerr;
              pret (-1));
  do co <- get chainoff;
  run un_lock IDX co 1;
  pret rc.

(** The record is not in the database: use a free record of the right
    sizes, or append to both files. *)
Definition store_new (key data : bytes) (keylen dlen : Z) : Prog DB Z :=
  do co <- get chainoff;
  do ptr <- _db_readptr co;
  do rc <- _db_findfree keylen dlen;
  if rc <? 0 then
    run _db_writedat data 0 SEEK_END;
    run _db_writeidx key 0 SEEK_END ptr;
    do io <- get idxoff;
    run _db_writeptr co io;
    run count cnt_stor1;
    pret 0
  else
    do doff <- get datoff;
    run _db_writedat data doff SEEK_SET;
    do io <- get idxoff;
    run _db_writeidx key io SEEK_SET ptr;
    do io' <- get idxoff;
    run _db_writeptr co io';
    run count cnt_stor2;
    pret 0.

(** The record is in the database and is replaced. *)
Definition store_replace (key data : bytes) (dlen : Z) : Prog DB Z :=
  do olen <- get datlen;
  if negb (dlen =? olen) then
    run _db_dodelete;
    do co <- get chainoff;
    do ptr <- _db_readptr co;
    run _db_writedat data 0 SEEK_END;
    run _db_writeidx key 0 SEEK_END ptr;
    do io <- get idxoff;
    run _db_writeptr co io;
    run count cnt_stor3;
    pret 0
  else
    do doff <- get datoff;
    run _db_writedat data doff SEEK_SET;
    run count cnt_stor4;
    pret 0.

(** The result, and the value [errno] is set to on the two error returns. *)
Definition db_store (key data : bytes) (flag : Z) : Prog DB (Z * option Z) :=
  if negb (flag =? DB_INSERT) && negb (flag =? DB_REPLACE) && negb (flag =? DB_STORE) then
    pret (-1, Some EINVAL)
  else
  let keylen := strlen key in
  let dlen := strlen data + 1 in
  run guard_die ((dlen <? DATLEN_MIN) || (DATLEN_MAX <? dlen)) "db_store: invalid data length";
  do found <- _db_find_and_lock key true;
  do ' (rc, err) <-
    (if found <? 0 then
       if flag =? DB_REPLACE then
         run count cnt_storerr;
         pret (-1, Some ENOENT)
       else
         do rc <- store_new key data keylen dlen;
         pret (rc, None)
     else if flag =? DB_INSERT then
       run count cnt_storerr;
       pret (1, None)
     else
       do rc <- store_replace key data dlen;
       pret (rc, None));
  do co <- get chainoff;
  run un_lock IDX co 1;
  pret (rc, err).

(** ** Sequential access *)
Definition db_rewind : Prog DB unit :=
  do nh <- get nhash;
  do o <- sys_lseek IDX ((nh + 1) * PTR_SZ + 1) SEEK_SET "db_rewind: lseek error";
  put (set_idxoff o).

(** A key that is all blanks marks a deleted record. *)
Definition all_blank (key : bytes) : bool := forallb (fun c => c =? SPACE) key.

(** [None] is the end of the index file. *)
Fixpoint nextrec_loop (fuel : nat) : Prog DB (option unit) :=
  match fuel with
  | O => die "db_nextrec: endless loop"
  | S fuel =>
      do r <- _db_readidx 0;
      if r <? 0 then pret None
      else
        do buf <- get idxbuf;
        if all_blank (cstr buf) then nextrec_loop fuel else pret (Some tt)
  end.

Definition db_nextrec : Prog DB (option (bytes * bytes)) :=
  run readw_lock IDX FREE_OFF 1;
  do fuel <- get chain_fuel;
  do more <- nextrec_loop fuel;
  do res <- (match more with
             | None => pret None
             | Some _ =>
                 do buf <- get idxbuf;
                 do data <- _db_readdat;
                 run count cnt_nextrec;
                 pret (Some (cstr buf, data))
             end);
  run un_lock IDX FREE_OFF 1;
  pret res.

(** ** Opening and closing *)

(** [calloc] clears the structure; what [malloc] puts into the two buffers
    is arbitrary and the code never reads it, here it is zeros. *)
Definition _db_alloc (idx dat : bytes) : DB :=
  mkDB (mkFile idx 0) (mkFile dat 0)
    (replicate (Z.to_nat (IDXLEN_MAX + 2)) 0) (replicate (Z.to_nat (DATLEN_MAX + 2)) 0) []
    0 0 0 0 0 0 0 0 0 (fun _ => 0) [].

Definition suffix_idx : bytes := [46; 105; 100; 120].
Definition suffix_dat : bytes := [46; 100; 97; 116].

(** The empty index file: the free list pointer and the hash table. *)
Definition empty_index : bytes :=
  concat (replicate (Z.to_nat (NHASH_DEF + 1)) (fmt_wd PTR_SZ 0)) ++ [NEWLINE].

Definition db_init (oflag : Z) : Prog DB unit :=
  if Z.land oflag (Z.lor O_CREAT O_TRUNC) =? Z.lor O_CREAT O_TRUNC then
    run writew_lock IDX 0 0;
    do size <- get (fun d => zlen (f_bytes (idxfd d)));
    run (if size =? 0 then
           do n <- sys_write IDX empty_index;
           guard_die (negb (n =? zlen empty_index)) "db_open: index file init write error"
         else pret tt);
    un_lock IDX 0 0
  else pret tt.

(** [db_open]: the file system after the two [open] calls, and the handle,
    or [None] when one of the files cannot be opened. *)
Definition db_open (fs : fsys) (pathname : bytes) (oflag : Z) : fsys * option (outcome DB unit) :=
  let '(fs1, i) := open_file fs (pathname ++ suffix_idx) oflag in
  let '(fs2, t) := open_file fs1 (pathname ++ suffix_dat) oflag in
  match i, t with
  | Some idx, Some dat =>
      let db := set_name (pathname ++ suffix_dat)
                  (set_hashoff HASH_OFF (set_nhash NHASH_DEF (_db_alloc idx dat))) in
      (fs2, Some ((run db_init oflag; db_rewind) db))
  | _, _ => (fs2, None)
  end.

(** [db_close]: the descriptors are closed and the memory freed; the file
    system holds what the operations have written. *)
Definition _db_free (fs : fsys) (pathname : bytes) (d : DB) : fsys :=
  <[pathname ++ suffix_dat := f_bytes (datfd d)]>
    (<[pathname ++ suffix_idx := f_bytes (idxfd d)]> fs).

Definition db_close (fs : fsys) (pathname : bytes) (d : DB) : fsys := _db_free fs pathname d.
