(* ===== verification/DbRep.v ===== *)
(** * The file format of the database library

    An abstract description of the two files (the pointers of the header,
    and the records in file order), the bytes it stands for, and what the
    primitives of db.c that read and write single fields and records do on
    files of this format. *)
From S2P Require Import Prelude CString Posix Db.

(** ** Records *)

(** One index record with its data record. *)
Record slot := mkSlot { s_next : Z; s_key : bytes; s_data : bytes }.

(** The length of a data record: the data and the newline. *)
Definition s_dlen (s : slot) : Z := zlen (s_data s) + 1.

(** The part of an index record after its two fixed fields, for a record
    whose data record is at offset [e]. *)
Definition body (e : Z) (s : slot) : bytes :=
  s_key s ++ [SEP] ++ dec e ++ [SEP] ++ dec (s_dlen s) ++ [NEWLINE].

Definition enc_slot (e : Z) (s : slot) : bytes :=
  fmt_wd PTR_SZ (s_next s) ++ fmt_wd IDXLEN_SZ (zlen (body e s)) ++ body e s.

Definition enc_datum (s : slot) : bytes := s_data s ++ [NEWLINE].

(** The records of both files, in file order. *)
Fixpoint enc_slots (e : Z) (l : list slot) : bytes :=
  match l with
  | [] => []
  | s :: l => enc_slot e s ++ enc_slots (e + s_dlen s) l
  end.

Definition enc_data (l : list slot) : bytes := concat (enc_datum <$> l).

(** The header: the free list pointer and the hash table. *)
Definition enc_tab (tab : list Z) : bytes := concat (fmt_wd PTR_SZ <$> tab) ++ [NEWLINE].

Definition is_ptr (z : Z) : Prop := 0 <= z <= PTR_MAX.

Record slot_ok (e : Z) (s : slot) : Prop := {
  ok_next : is_ptr (s_next s);
  ok_key : nonul (s_key s);
  ok_sep : SEP ∉ s_key s;
  ok_data : nonul (s_data s);
  ok_dlen : 1 <= s_dlen s <= DATLEN_MAX;
  ok_off : 0 <= e < 2 ^ 63;
  ok_body : IDXLEN_MIN <= zlen (body e s) <= IDXLEN_MAX
}.

(** [dbs] evaluates the field accesses of a database state. *)
Ltac dbs :=
  cbn [fileof set_fileof idxfd datfd idxbuf datbuf name idxoff idxlen datoff datlen ptrval ptroff
       chainoff hashoff nhash counts trace set_idxfd set_datfd set_idxbuf set_datbuf set_name
       set_idxoff set_idxlen set_datoff set_datlen set_ptrval set_ptroff set_chainoff set_hashoff
       set_nhash set_counts set_trace f_bytes f_pos negb orb andb].

(** ** Lengths *)
Lemma ptr_field_length v : is_ptr v -> zlen (fmt_wd PTR_SZ v) = PTR_SZ.
Proof. intros [? ?]. apply fmt_wd_length; [done|]. unfold PTR_SZ, PTR_MAX in *. lia. Qed.

Lemma len_field_length n : 0 <= n <= IDXLEN_MAX -> zlen (fmt_wd IDXLEN_SZ n) = IDXLEN_SZ.
Proof. intros [? ?]. apply fmt_wd_length; [done|]. unfold IDXLEN_SZ, IDXLEN_MAX in *. lia. Qed.

Lemma enc_slot_length e s :
  slot_ok e s -> zlen (enc_slot e s) = PTR_SZ + IDXLEN_SZ + zlen (body e s).
Proof.
  intros H. unfold enc_slot.
  pose proof (ptr_field_length _ (ok_next _ _ H)).
  pose proof (ok_body _ _ H). unfold IDXLEN_MIN in *.
  pose proof (len_field_length (zlen (body e s))). zl.
Qed.

Lemma ptr_field_parse v : is_ptr v -> atol (fmt_wd PTR_SZ v ++ [NUL]) = v.
Proof.
  intros [? ?]. rewrite <- atol_cstr, cstr_app_nul by (by apply fmt_wd_nonul).
  apply atol_fmt_wd. unfold PTR_MAX in *. lia.
Qed.

Lemma len_field_parse n :
  0 <= n <= IDXLEN_MAX -> wrapu 64 (atoi (fmt_wd IDXLEN_SZ n ++ [NUL])) = n.
Proof.
  intros [? ?]. unfold atoi. rewrite <- atol_cstr, cstr_app_nul by (by apply fmt_wd_nonul).
  unfold IDXLEN_MAX in *. rewrite atol_fmt_wd by lia.
  rewrite wraps32_small by lia. unfold wrapu. apply Z.mod_small. lia.
Qed.

(** ** Reading and writing a pointer field *)
Lemma seek_set fd off msg d :
  0 <= off ->
  sys_lseek fd off SEEK_SET msg d
  = Ok off (set_fileof fd (mkFile (f_bytes (fileof fd d)) off) d).
Proof. intros. unfold sys_lseek, lseek. by rewrite ltb_false. Qed.

Lemma readptr_at d off pre v post :
  f_bytes (idxfd d) = pre ++ fmt_wd PTR_SZ v ++ post -> off = zlen pre -> is_ptr v ->
  _db_readptr off d = Ok v (set_idxfd (mkFile (f_bytes (idxfd d)) (off + PTR_SZ)) d).
Proof.
  intros Hf -> Hv. unfold _db_readptr.
  erewrite pbind_ok by (apply seek_set, zlen_nonneg). simpl.
  unfold pbind, sys_read, fread. simpl. rewrite Hf.
  rewrite slice_app by (try rewrite ptr_field_length; done).
  rewrite ptr_field_length, Z.eqb_refl by done. simpl.
  unfold pret. rewrite ptr_field_parse by done. reflexivity.
Qed.

Lemma writeptr_at d off pre old v post :
  f_bytes (idxfd d) = pre ++ old ++ post -> zlen old = PTR_SZ -> off = zlen pre -> is_ptr v ->
  _db_writeptr off v d
  = Ok tt (set_trace (EvWrite IDX off PTR_SZ :: trace d)
             (set_idxfd (mkFile (pre ++ fmt_wd PTR_SZ v ++ post) (off + PTR_SZ)) d)).
Proof.
  intros Hf Ho -> Hv. unfold _db_writeptr. unfold is_ptr in Hv.
  rewrite ltb_false, (ltb_false PTR_MAX) by lia. simpl. unfold pbind at 1. simpl.
  erewrite pbind_ok by (apply seek_set, zlen_nonneg). simpl.
  rewrite slice_all by (rewrite ptr_field_length; done).
  unfold pbind, sys_write, fwrite. simpl. rewrite Hf.
  erewrite splice_mid by (try rewrite ptr_field_length; done).
  rewrite ptr_field_length, Z.eqb_refl by done. reflexivity.
Qed.

(** ** Reading an index record *)

(** The record in the buffer after its separators and its newline have
    become null bytes. *)
Definition nulled (e : Z) (s : slot) : bytes :=
  s_key s ++ [NUL] ++ dec e ++ [NUL] ++ dec (s_dlen s) ++ [NUL].

Definition after_readidx (o e : Z) (s : slot) (pos : Z) (d : DB) : DB :=
  set_datlen (s_dlen s) (set_datoff e
    (set_idxbuf (nulled e s ++ drop (length (body e s)) (idxbuf d))
      (set_idxlen (zlen (body e s)) (set_ptrval (s_next s) (set_idxoff o
        (set_idxfd (mkFile (f_bytes (idxfd d)) pos) d)))))).

Lemma upd_at l a x b i c : l = a ++ x :: b -> i = zlen a -> upd l i c = a ++ c :: b.
Proof.
  intros -> ->. unfold upd. rewrite to_nat_zlen.
  rewrite insert_app_r_alt by lia. by rewrite Nat.sub_diag.
Qed.

Lemma lookup_at {A} (l a : list A) x b i :
  l = a ++ x :: b -> i = zlen a -> l !! Z.to_nat i = Some x.
Proof. intros -> ->. rewrite to_nat_zlen. by apply list_lookup_middle. Qed.

Lemma atol_app_nul s l : nonul s -> atol (s ++ NUL :: l) = atol s.
Proof. intros. by rewrite <- atol_cstr, cstr_app_nul. Qed.

Lemma parse_idxbuf_at d e s rest :
  slot_ok e s ->
  idxbuf d = s_key s ++ [SEP] ++ dec e ++ [SEP] ++ dec (s_dlen s) ++ [NUL] ++ rest ->
  parse_idxbuf d
  = Ok tt (set_datlen (s_dlen s) (set_datoff e
             (set_idxbuf (nulled e s ++ rest) d))).
Proof.
  intros [] Hb. unfold parse_idxbuf, get, pbind at 1. rewrite Hb.
  assert (0 <= s_dlen s) by lia. pose proof (zlen_nonneg (s_key s)).
  assert (forall n, 0 <= n -> SEP ∉ dec n) as Hsep by (intros; apply dec_not_in; [done|by right]).
  cbn [app]. rewrite strchr_app by done. unfold pbind at 1, put at 1.
  rewrite (upd_at _ (s_key s) SEP (dec e ++ SEP :: dec (s_dlen s) ++ NUL :: rest)) by done.
  rewrite (drop_at _ (s_key s ++ [NUL]) (dec e ++ SEP :: dec (s_dlen s) ++ NUL :: rest)) by (lassoc || zl).
  rewrite strchr_app; [|apply dec_nonul; lia|done|apply Hsep; lia].
  unfold pbind at 1, put at 1.
  rewrite (upd_at _ (s_key s ++ NUL :: dec e) SEP (dec (s_dlen s) ++ NUL :: rest)) by (lassoc || zl).
  rewrite (drop_at _ (s_key s ++ NUL :: dec e ++ [NUL]) (dec (s_dlen s) ++ NUL :: rest)) by (lassoc || zl).
  rewrite (drop_at _ (s_key s ++ [NUL]) (dec e ++ NUL :: dec (s_dlen s) ++ NUL :: rest)) by (lassoc || zl).
  rewrite strchr_none; [|apply dec_nonul; lia|apply Hsep; lia].
  rewrite !atol_app_nul by (apply dec_nonul; lia).
  unfold DATLEN_MAX in *. rewrite !atol_dec by lia.
  unfold pbind, put. rewrite ltb_false by lia. simpl.
  unfold wrapu. rewrite Z.mod_small by lia.
  rewrite leb_false, ltb_false by (unfold DATLEN_MAX; lia). simpl. unfold pret.
  replace (nulled e s ++ rest)
    with ((s_key s ++ NUL :: dec e) ++ NUL :: dec (s_dlen s) ++ NUL :: rest)
    by (unfold nulled; lassoc).
  reflexivity.
Qed.

Lemma body_split e s : body e s = (s_key s ++ [SEP] ++ dec e ++ [SEP] ++ dec (s_dlen s)) ++ [NEWLINE].
Proof. unfold body. lassoc. Qed.

Lemma nulled_length e s : zlen (nulled e s) = zlen (body e s).
Proof. unfold nulled, body. zl. Qed.

(** [offset] is the offset of a record, or 0 for the current position. *)
Lemma seek_record d offset pos :
  0 < pos -> offset = pos \/ (offset = 0 /\ f_pos (idxfd d) = pos) ->
  sys_lseek IDX offset (if offset =? 0 then SEEK_CUR else SEEK_SET) "_db_readidx: lseek error" d
  = Ok pos (set_idxfd (mkFile (f_bytes (idxfd d)) pos) d).
Proof.
  intros Hp [->|[-> Hpos]].
  - rewrite eqb_false by lia. apply seek_set. lia.
  - unfold sys_lseek, lseek. simpl. rewrite Hpos, Z.add_0_r, ltb_false by lia. done.
Qed.

Lemma read_at fd d pre mid post n :
  f_bytes (fileof fd d) = pre ++ mid ++ post ->
  f_pos (fileof fd d) = zlen pre -> n = zlen mid ->
  sys_read fd n d = Ok mid (set_fileof fd (mkFile (f_bytes (fileof fd d)) (zlen pre + n)) d).
Proof.
  intros Hf Hp ->. unfold sys_read, fread. rewrite Hp.
  by rewrite (slice_at _ pre mid post).
Qed.

(** [offset] is the offset of a record, or 0 for the current position. *)
Lemma readidx_at d offset pre e s post :
  f_bytes (idxfd d) = pre ++ enc_slot e s ++ post -> slot_ok e s ->
  zlen (idxbuf d) = IDXLEN_MAX + 2 ->
  0 < zlen pre -> offset = zlen pre \/ (offset = 0 /\ f_pos (idxfd d) = zlen pre) ->
  _db_readidx offset d
  = Ok (s_next s) (after_readidx (zlen pre) e s (zlen pre + zlen (enc_slot e s)) d).
Proof.
  intros Hf Hok Hl Hp Ho. unfold _db_readidx.
  erewrite pbind_ok by (by apply seek_record).
  pose proof (ptr_field_length _ (ok_next _ _ Hok)) as Hl1.
  pose proof (ok_body _ _ Hok) as Hb.
  assert (0 <= zlen (body e s) <= IDXLEN_MAX) as Hb' by (unfold IDXLEN_MIN in *; lia).
  pose proof (len_field_length _ Hb') as Hl2.
  pose proof (ptr_field_parse _ (ok_next _ _ Hok)) as HpA.
  pose proof (len_field_parse _ Hb') as HpL.
  unfold enc_slot in *. set (A := fmt_wd PTR_SZ (s_next s)) in *.
  set (L := fmt_wd IDXLEN_SZ (zlen (body e s))) in *. pstep.
  erewrite pbind_ok by (apply (read_at _ _ pre (A ++ L) (body e s ++ post)); dbs; rewrite ?Hf; (lassoc || zl)).
  rewrite (proj2 (Z.eqb_eq _ _)) by zl. dbs.
  rewrite (slice_at (A ++ L) [] A L), (slice_at (A ++ L) A L []) by (rewrite ?app_nil_r; done || zl).
  rewrite HpA, HpL. pstep.
  rewrite pbind_guard by (by rewrite !ltb_false by lia).
  erewrite pbind_ok by (apply (read_at _ _ (pre ++ A ++ L) (body e s) post); dbs; rewrite ?Hf; (lassoc || zl)).
  pstep. rewrite pbind_guard by (by rewrite Z.eqb_refl). pstep. dbs.
  rewrite splice_front by (unfold IDXLEN_MAX in *; lia).
  set (rest := drop (length (body e s)) (idxbuf d)).
  set (P := s_key s ++ [SEP] ++ dec e ++ [SEP] ++ dec (s_dlen s)).
  rewrite pbind_guard.
  2:{ rewrite (lookup_at _ P NEWLINE rest) by (rewrite body_split; unfold P; (lassoc || zl)). done. }
  rewrite (upd_at _ P NEWLINE rest) by (rewrite body_split; unfold P; (lassoc || zl)).
  pstep. erewrite pbind_ok by (apply (parse_idxbuf_at _ e s rest Hok); dbs; unfold P; lassoc).
  unfold get, after_readidx.
  replace (zlen pre + zlen (A ++ L ++ body e s)) with (zlen (pre ++ A ++ L) + zlen (body e s)) by zl.
  reflexivity.
Qed.

(** ** Data records *)
Definition after_readdat (s : slot) (pos : Z) (d : DB) : DB :=
  set_datbuf (s_data s ++ NUL :: drop (length (enc_datum s)) (datbuf d))
    (set_datfd (mkFile (f_bytes (datfd d)) pos) d).

Lemma enc_datum_length s : zlen (enc_datum s) = s_dlen s.
Proof. unfold enc_datum, s_dlen. zl. Qed.

Lemma readdat_at d pre s post :
  f_bytes (datfd d) = pre ++ enc_datum s ++ post ->
  datoff d = zlen pre -> datlen d = s_dlen s -> s_dlen s <= DATLEN_MAX -> nonul (s_data s) ->
  zlen (datbuf d) = DATLEN_MAX + 2 ->
  _db_readdat d = Ok (s_data s) (after_readdat s (zlen pre + s_dlen s) d).
Proof.
  intros Hf Ho Hn Hm Hz Hl. unfold _db_readdat. pstep. rewrite Ho, Hn.
  erewrite pbind_ok by (apply seek_set, zlen_nonneg).
  erewrite pbind_ok by (apply (read_at _ _ pre (enc_datum s) post); dbs;
    rewrite ?Hf, ?enc_datum_length; done).
  pstep. rewrite pbind_guard by (by rewrite enc_datum_length, Z.eqb_refl). pstep. dbs.
  rewrite splice_front by (rewrite enc_datum_length; lia).
  set (rest := drop (length (enc_datum s)) (datbuf d)).
  rewrite pbind_guard.
  2:{ rewrite (lookup_at _ (s_data s) NEWLINE rest); [done|unfold enc_datum; lassoc|].
      unfold s_dlen. zl. }
  rewrite (upd_at _ (s_data s) NEWLINE rest) by (unfold enc_datum, s_dlen; (lassoc || zl)).
  pstep. dbs. rewrite cstr_app_nul by done. unfold pret, after_readdat.
  reflexivity.
Qed.

Definition after_writedat (b : bytes) (o n pos : Z) (tr : list event) (d : DB) : DB :=
  set_trace tr (set_datlen n (set_datoff o (set_datfd (mkFile b pos) d))).

Lemma write_at fd d pre old post new :
  f_bytes (fileof fd d) = pre ++ old ++ post -> f_pos (fileof fd d) = zlen pre ->
  zlen new = zlen old ->
  sys_write fd new d
  = Ok (zlen new) (set_trace (EvWrite fd (zlen pre) (zlen new) :: trace d)
      (set_fileof fd (mkFile (pre ++ new ++ post) (zlen pre + zlen new)) d)).
Proof.
  intros Hf Hp Hl. unfold sys_write, fwrite. rewrite Hp.
  by rewrite (splice_at _ pre old post).
Qed.

Lemma write_end fd d new :
  f_pos (fileof fd d) = zlen (f_bytes (fileof fd d)) ->
  sys_write fd new d
  = Ok (zlen new) (set_trace (EvWrite fd (zlen (f_bytes (fileof fd d))) (zlen new) :: trace d)
      (set_fileof fd (mkFile (f_bytes (fileof fd d) ++ new)
                        (zlen (f_bytes (fileof fd d)) + zlen new)) d)).
Proof. intros Hp. unfold sys_write, fwrite. rewrite Hp. by rewrite splice_end. Qed.

Lemma seek_end fd msg d :
  sys_lseek fd 0 SEEK_END msg d
  = Ok (zlen (f_bytes (fileof fd d)))
       (set_fileof fd (mkFile (f_bytes (fileof fd d)) (zlen (f_bytes (fileof fd d)))) d).
Proof. unfold sys_lseek, lseek. rewrite Z.add_0_r, ltb_false by apply zlen_nonneg. done. Qed.

Lemma writedat_at d buf data pre old post :
  cstr buf = data -> f_bytes (datfd d) = pre ++ old ++ post -> zlen old = zlen data + 1 ->
  _db_writedat buf (zlen pre) SEEK_SET d
  = Ok tt (after_writedat (pre ++ (data ++ [NEWLINE]) ++ post) (zlen pre) (zlen data + 1)
             (zlen pre + (zlen data + 1))
             (EvWrite DAT (zlen pre) (zlen data + 1) :: trace d) d).
Proof.
  intros Hb Hf Ho. unfold _db_writedat. pstep.
  erewrite pbind_ok by (apply seek_set, zlen_nonneg). pstep.
  unfold strlen. rewrite Hb.
  assert (zlen (data ++ [NEWLINE]) = zlen data + 1) as Hl by zl.
  erewrite pbind_ok by (apply (write_at _ _ pre old post); dbs; rewrite ?Hf; done || lia).
  rewrite Hl, pbind_guard by (by rewrite Z.eqb_refl). reflexivity.
Qed.

Lemma writedat_end d data :
  nonul data ->
  _db_writedat data 0 SEEK_END d
  = let n := zlen (f_bytes (datfd d)) in
    Ok tt (after_writedat (f_bytes (datfd d) ++ data ++ [NEWLINE]) n (zlen data + 1)
             (n + (zlen data + 1))
             (EvLock DAT F_UNLCK 0 0 :: EvWrite DAT n (zlen data + 1)
                :: EvLock DAT F_WRLCK 0 0 :: trace d) d).
Proof.
  intros Hd. unfold _db_writedat, writew_lock, un_lock, lock_reg, note. pstep.
  erewrite pbind_ok by (apply seek_end). pstep.
  unfold strlen. rewrite cstr_id by done.
  assert (zlen (data ++ [NEWLINE]) = zlen data + 1) as Hl by zl.
  erewrite pbind_ok by (by apply write_end). dbs.
  rewrite Hl, pbind_guard by (by rewrite Z.eqb_refl). reflexivity.
Qed.

(** ** Writing an index record *)
Definition after_writeidx (b : bytes) (o e : Z) (s : slot) (pos : Z) (tr : list event) (d : DB) : DB :=
  set_trace tr (set_idxoff o (set_ptrval (s_next s)
    (set_idxbuf (body e s ++ NUL :: drop (length (body e s) + 1) (idxbuf d))
      (set_idxfd (mkFile b pos) d)))).

Lemma body_nonul e s : slot_ok e s -> nonul (body e s).
Proof.
  intros []. unfold body. repeat apply nonul_app; try done.
  all: try (apply dec_nonul; lia). all: by repeat constructor.
Qed.

(** What [_db_writeidx] does before it positions the file: the buffer holds
    the record, and the bytes to write are those of the format. *)
Lemma sprintf_idxbuf_ok d e s :
  slot_ok e s -> zlen (idxbuf d) = IDXLEN_MAX + 2 ->
  sprintf_idxbuf (body e s) d
  = Ok tt (set_idxbuf (body e s ++ NUL :: drop (length (body e s) + 1) (idxbuf d)) d).
Proof.
  intros Hok Hl. pose proof (ok_body _ _ Hok). unfold sprintf_idxbuf.
  rewrite pbind_guard by (rewrite ltb_false; [done|lia]).
  unfold put. rewrite splice_front by zl. rewrite length_app, <- app_assoc. done.
Qed.

Lemma writeidx_bytes e s rest :
  slot_ok e s ->
  slice (fmt_wd PTR_SZ (s_next s) ++ fmt_wd IDXLEN_SZ (zlen (body e s))) 0 (PTR_SZ + IDXLEN_SZ)
    ++ slice (body e s ++ NUL :: rest) 0 (zlen (body e s)) = enc_slot e s.
Proof.
  intros Hok. pose proof (ptr_field_length _ (ok_next _ _ Hok)).
  pose proof (ok_body _ _ Hok). unfold IDXLEN_MIN in *.
  pose proof (len_field_length (zlen (body e s)) ltac:(lia)).
  rewrite slice_all by zl. rewrite (slice_at _ [] (body e s) (NUL :: rest)) by done.
  unfold enc_slot. lassoc.
Qed.

Section WriteIdx.
Context (d : DB) (key : bytes) (e : Z) (s : slot).
Context (Hk : cstr key = s_key s) (Hok : slot_ok e s).
Context (He : datoff d = e) (Hn : datlen d = s_dlen s) (Hl : zlen (idxbuf d) = IDXLEN_MAX + 2).

Lemma writeidx_prefix :
  cstr key ++ [SEP] ++ fmt_d (datoff d) ++ [SEP] ++ fmt_d (datlen d) ++ [NEWLINE] = body e s.
Proof.
  pose proof (ok_off _ _ Hok). pose proof (ok_dlen _ _ Hok).
  rewrite Hk, He, Hn, !fmt_d_dec by lia. done.
Qed.

Lemma writeidx_at pre old post :
  f_bytes (idxfd d) = pre ++ old ++ post -> zlen old = zlen (enc_slot e s) ->
  _db_writeidx key (zlen pre) SEEK_SET (s_next s) d
  = Ok tt (after_writeidx (pre ++ enc_slot e s ++ post) (zlen pre) e s
             (zlen pre + zlen (enc_slot e s))
             (EvWrite IDX (zlen pre) (zlen (enc_slot e s)) :: trace d) d).
Proof.
  intros Hf Ho. destruct (ok_next _ _ Hok) as [Hp1 Hp2].
  pose proof (ok_body _ _ Hok). unfold _db_writeidx. pstep.
  rewrite pbind_guard by (by rewrite !ltb_false by lia). pstep. dbs. rewrite writeidx_prefix.
  erewrite pbind_ok by (by apply sprintf_idxbuf_ok). pstep. dbs. unfold strlen.
  rewrite cstr_app_nul by (by apply body_nonul).
  rewrite pbind_guard by (by rewrite !ltb_false by lia). pstep.
  erewrite pbind_ok by (apply seek_set, zlen_nonneg). pstep.
  rewrite writeidx_bytes by done.
  erewrite pbind_ok by (apply (write_at _ _ pre old post); dbs; rewrite ?Hf; done || lia).
  rewrite pbind_guard by (by rewrite enc_slot_length, Z.eqb_refl). reflexivity.
Qed.

Lemma writeidx_end :
  _db_writeidx key 0 SEEK_END (s_next s) d
  = let n := zlen (f_bytes (idxfd d)) in
    let tail := (nhash d + 1) * PTR_SZ + 1 in
    Ok tt (after_writeidx (f_bytes (idxfd d) ++ enc_slot e s) n e s
             (n + zlen (enc_slot e s))
             (EvLock IDX F_UNLCK tail 0 :: EvWrite IDX n (zlen (enc_slot e s))
                :: EvLock IDX F_WRLCK tail 0 :: trace d) d).
Proof.
  destruct (ok_next _ _ Hok) as [Hp1 Hp2].
  pose proof (ok_body _ _ Hok). unfold _db_writeidx, writew_lock, un_lock, lock_reg, note. pstep.
  rewrite pbind_guard by (by rewrite !ltb_false by lia). pstep. dbs. rewrite writeidx_prefix.
  erewrite pbind_ok by (by apply sprintf_idxbuf_ok). pstep. dbs. unfold strlen.
  rewrite cstr_app_nul by (by apply body_nonul).
  rewrite pbind_guard by (by rewrite !ltb_false by lia). pstep.
  erewrite pbind_ok by (apply seek_end). pstep.
  rewrite writeidx_bytes by done.
  erewrite pbind_ok by (by apply write_end). dbs.
  rewrite pbind_guard by (by rewrite enc_slot_length, Z.eqb_refl). reflexivity.
Qed.
End WriteIdx.
