(* ===== verification/DbInv.v ===== *)
(** * The representation invariant of the database library

    [repr] ties an abstract description of the files to a database state and
    says what the primitives do to it; [chain] and [db_inv] are the linked
    structure on top: hash chains, free list, and the map from keys to data
    the database stands for. *)
From S2P Require Import Prelude CString Posix Db DbRep.

(** ** Where the records are *)

(** The records by offset, each with the offset of its data record. *)
Fixpoint layout (o e : Z) (l : list slot) : gmap Z (Z * slot) :=
  match l with
  | [] => ∅
  | s :: l => <[o := (e, s)]> (layout (o + zlen (enc_slot e s)) (e + s_dlen s) l)
  end.

Lemma enc_slot_pos e s : 0 < zlen (enc_slot e s).
Proof. unfold enc_slot, body. zl. Qed.

Lemma enc_data_cons s l : enc_data (s :: l) = enc_datum s ++ enc_data l.
Proof. done. Qed.

Lemma enc_data_cons_length s l : zlen (enc_data (s :: l)) = s_dlen s + zlen (enc_data l).
Proof. by rewrite enc_data_cons, zlen_app, enc_datum_length. Qed.

Lemma enc_data_app l1 l2 : enc_data (l1 ++ l2) = enc_data l1 ++ enc_data l2.
Proof. unfold enc_data. by rewrite fmap_app, concat_app. Qed.

Lemma enc_slots_app e l1 l2 :
  enc_slots e (l1 ++ l2) = enc_slots e l1 ++ enc_slots (e + zlen (enc_data l1)) l2.
Proof.
  revert e. induction l1 as [|s l1 IH]; intros e; simpl.
  - f_equal. zl.
  - rewrite IH, <- app_assoc. do 3 f_equal.
    rewrite enc_data_cons_length. lia.
Qed.

Lemma layout_range o e l p x :
  layout o e l !! p = Some x -> o <= p < o + zlen (enc_slots e l).
Proof.
  revert o e. induction l as [|s l IH]; intros o e; simpl; [by rewrite lookup_empty|].
  pose proof (enc_slot_pos e s). rewrite zlen_app.
  intros H'. destruct (decide (p = o)) as [->|].
  - pose proof (zlen_nonneg (enc_slots (e + s_dlen s) l)). lia.
  - rewrite lookup_insert_ne in H' by done. apply IH in H'. lia.
Qed.

Lemma layout_split o e l p e' s :
  layout o e l !! p = Some (e', s) ->
  exists l1 l2, l = l1 ++ s :: l2 /\ p = o + zlen (enc_slots e l1) /\ e' = e + zlen (enc_data l1).
Proof.
  revert o e. induction l as [|t l IH]; intros o e; simpl; [by rewrite lookup_empty|].
  destruct (decide (p = o)) as [->|].
  - rewrite lookup_insert_eq. intros [= -> ->]. exists [], l. split_and!; [done|..]; cbn; zl.
  - rewrite lookup_insert_ne by done. intros (l1 & l2 & -> & -> & ->)%IH.
    exists (t :: l1), l2. rewrite enc_data_cons_length. simpl. rewrite zlen_app.
    split_and!; [done|lia..].
Qed.

Lemma layout_update o e l1 s s' l2 :
  let e' := e + zlen (enc_data l1) in
  zlen (enc_slot e' s') = zlen (enc_slot e' s) -> s_dlen s' = s_dlen s ->
  layout o e (l1 ++ s' :: l2)
  = <[o + zlen (enc_slots e l1) := (e', s')]> (layout o e (l1 ++ s :: l2)).
Proof.
  revert o e. induction l1 as [|t l1 IH]; intros o e e' H1 H2; subst e'; simpl.
  - change (zlen (enc_data [])) with 0 in *. change (zlen []) with 0.
    rewrite !Z.add_0_r in *. rewrite insert_insert_eq. by rewrite H1, H2.
  - rewrite enc_data_cons_length, Z.add_assoc in H1 |- *.
    rewrite IH by done. rewrite zlen_app, Z.add_assoc. apply insert_insert_ne.
    pose proof (enc_slot_pos e t). pose proof (zlen_nonneg (enc_slots (e + s_dlen t) l1)). lia.
Qed.

Lemma layout_snoc o e l s :
  layout o e (l ++ [s])
  = <[o + zlen (enc_slots e l) := (e + zlen (enc_data l), s)]> (layout o e l).
Proof.
  revert o e. induction l as [|t l IH]; intros o e; simpl.
  - change (zlen (enc_data [])) with 0. change (zlen []) with 0. by rewrite !Z.add_0_r.
  - rewrite IH, enc_data_cons_length, !zlen_app, !Z.add_assoc.
    apply insert_insert_ne.
    pose proof (enc_slot_pos e t). pose proof (zlen_nonneg (enc_slots (e + s_dlen t) l)). lia.
Qed.

Lemma layout_size o e l : (size (layout o e l) <= length l)%nat.
Proof.
  revert o e. induction l as [|s l IH]; intros o e; simpl; [done|].
  rewrite map_size_insert_None.
  - specialize (IH (o + zlen (enc_slot e s)) (e + s_dlen s)). lia.
  - destruct (layout _ _ l !! o) eqn:E; [|done]. apply layout_range in E.
    pose proof (enc_slot_pos e s). lia.
Qed.

Lemma enc_slots_count e l : Z.of_nat (length l) <= zlen (enc_slots e l).
Proof.
  revert e. induction l as [|s l IH]; intros e; simpl; [done|].
  pose proof (enc_slot_pos e s). specialize (IH (e + s_dlen s)). zl.
Qed.

(** ** The header *)
Definition NTAB : nat := 138.
Definition IDX0 : Z := 967.

Lemma enc_ptrs_length tab :
  Forall is_ptr tab -> zlen (concat (fmt_wd PTR_SZ <$> tab)) = PTR_SZ * zlen tab.
Proof.
  induction 1 as [|v tab Hv _ IH]; [done|]. rewrite fmap_cons. cbn [concat].
  rewrite zlen_app, zlen_cons, IH, ptr_field_length by done. lia.
Qed.

Lemma enc_tab_length tab : Forall is_ptr tab -> length tab = NTAB -> zlen (enc_tab tab) = IDX0.
Proof.
  intros Hp Hl. unfold enc_tab. rewrite zlen_app, enc_ptrs_length by done.
  unfold zlen at 1. by rewrite Hl.
Qed.

Lemma enc_tab_split tab i v v' :
  Forall is_ptr tab -> tab !! i = Some v ->
  exists pre post, zlen pre = PTR_SZ * Z.of_nat i /\
    enc_tab tab = pre ++ fmt_wd PTR_SZ v ++ post /\
    enc_tab (<[i := v']> tab) = pre ++ fmt_wd PTR_SZ v' ++ post.
Proof.
  intros Hp Hi. pose proof (lookup_lt_Some _ _ _ Hi) as Hlt.
  exists (concat (fmt_wd PTR_SZ <$> take i tab)),
    (concat (fmt_wd PTR_SZ <$> drop (S i) tab) ++ [NEWLINE]).
  split_and!.
  - rewrite enc_ptrs_length by (by apply Forall_take). unfold zlen. rewrite length_take. lia.
  - unfold enc_tab. rewrite <- (take_drop_middle _ _ _ Hi) at 1.
    rewrite fmap_app, concat_app, fmap_cons. cbn [concat]. lassoc.
  - unfold enc_tab. rewrite insert_take_drop by done.
    rewrite fmap_app, concat_app, fmap_cons. cbn [concat]. lassoc.
Qed.

(** ** The representation *)
Record ghost := mkGhost { g_tab : list Z; g_slots : list slot }.

Definition g_map (g : ghost) : gmap Z (Z * slot) := layout IDX0 0 (g_slots g).

Record repr (g : ghost) (d : DB) : Prop := {
  r_idx : f_bytes (idxfd d) = enc_tab (g_tab g) ++ enc_slots 0 (g_slots g);
  r_dat : f_bytes (datfd d) = enc_data (g_slots g);
  r_ntab : length (g_tab g) = NTAB;
  r_ptrs : Forall is_ptr (g_tab g);
  r_ok : forall o e s, g_map g !! o = Some (e, s) -> slot_ok e s;
  r_ibuf : zlen (idxbuf d) = IDXLEN_MAX + 2;
  r_dbuf : zlen (datbuf d) = DATLEN_MAX + 2;
  r_hash : hashoff d = HASH_OFF;
  r_nhash : nhash d = NHASH_DEF
}.

(** The fields the representation does not depend on. *)
Record frame (d d' : DB) : Prop := {
  fr_idx : f_bytes (idxfd d') = f_bytes (idxfd d);
  fr_dat : f_bytes (datfd d') = f_bytes (datfd d);
  fr_ibuf : zlen (idxbuf d') = zlen (idxbuf d);
  fr_dbuf : zlen (datbuf d') = zlen (datbuf d);
  fr_hash : hashoff d' = hashoff d;
  fr_nhash : nhash d' = nhash d;
  fr_chain : chainoff d' = chainoff d;
  fr_name : name d' = name d
}.

Lemma repr_frame g d d' : repr g d -> frame d d' -> repr g d'.
Proof. intros [] []. split; first [done | congruence]. Qed.

#[export] Instance frame_refl : Reflexive frame.
Proof. intros d. by split. Qed.

#[export] Instance frame_trans : Transitive frame.
Proof. intros d1 d2 d3 [] []. split; congruence. Qed.

(** The pointer field [i] of the header is at offset [PTR_SZ * i]. *)
Lemma repr_readptr g d i v :
  repr g d -> g_tab g !! i = Some v ->
  _db_readptr (PTR_SZ * Z.of_nat i) d
  = Ok v (set_idxfd (mkFile (f_bytes (idxfd d)) (PTR_SZ * Z.of_nat i + PTR_SZ)) d).
Proof.
  intros Hr Hi. destruct (enc_tab_split _ i v v (r_ptrs _ _ Hr) Hi) as (pre & post & Hl & He & _).
  apply (readptr_at _ _ pre v (post ++ enc_slots 0 (g_slots g))); [|done|].
  - rewrite (r_idx _ _ Hr), He. lassoc.
  - pose proof (r_ptrs _ _ Hr) as Hp. rewrite Forall_lookup in Hp. by eapply Hp.
Qed.

(** The bytes around a record, and the files after an update of it that
    keeps its sizes. *)
Lemma repr_slot g d o e s :
  repr g d -> g_map g !! o = Some (e, s) ->
  exists ipre ipost dpre dpost, o = zlen ipre /\ e = zlen dpre /\ 0 < zlen ipre /\
    f_bytes (idxfd d) = ipre ++ enc_slot e s ++ ipost /\
    f_bytes (datfd d) = dpre ++ enc_datum s ++ dpost /\
    forall s', zlen (enc_slot e s') = zlen (enc_slot e s) -> s_dlen s' = s_dlen s ->
      exists g', g_tab g' = g_tab g /\ g_map g' = <[o := (e, s')]> (g_map g) /\
        enc_tab (g_tab g') ++ enc_slots 0 (g_slots g') = ipre ++ enc_slot e s' ++ ipost /\
        enc_data (g_slots g') = dpre ++ enc_datum s' ++ dpost.
Proof.
  intros Hr Hm. destruct (layout_split _ _ _ _ _ _ Hm) as (l1 & l2 & Hs & -> & ->).
  assert (zlen (enc_tab (g_tab g)) = IDX0) as Ht by (apply enc_tab_length; apply Hr).
  exists (enc_tab (g_tab g) ++ enc_slots 0 l1), (enc_slots (0 + zlen (enc_data l1) + s_dlen s) l2),
    (enc_data l1), (enc_data l2).
  rewrite zlen_app, Ht. split_and!; [done|lia| |..].
  - pose proof (zlen_nonneg (enc_slots 0 l1)). unfold IDX0. lia.
  - rewrite (r_idx _ _ Hr), Hs, enc_slots_app. simpl. lassoc.
  - rewrite (r_dat _ _ Hr), Hs, enc_data_app. done.
  - intros s' H1 H2. exists (mkGhost (g_tab g) (l1 ++ s' :: l2)). split_and!; [done|..]; simpl.
    + unfold g_map. simpl. rewrite Hs. by apply layout_update.
    + rewrite enc_slots_app. simpl. rewrite H2. lassoc.
    + by rewrite enc_data_app.
Qed.

(** ** The primitives on the representation *)

(** The registers of the structure the operations pass values in. *)
Definition regs (d : DB) := (idxoff d, datoff d, datlen d, ptrval d, ptroff d, chainoff d).

Lemma body_same_length e s s' :
  zlen (s_key s') = zlen (s_key s) -> s_dlen s' = s_dlen s ->
  zlen (body e s') = zlen (body e s).
Proof. intros H1 H2. unfold body. rewrite H2. zl. Qed.

Lemma enc_slot_same_length e s s' :
  slot_ok e s -> slot_ok e s' -> zlen (s_key s') = zlen (s_key s) -> s_dlen s' = s_dlen s ->
  zlen (enc_slot e s') = zlen (enc_slot e s).
Proof. intros. rewrite !enc_slot_length by done. by rewrite (body_same_length e s s'). Qed.

(** The longest index record, and the sizes of the two files. *)
Definition SLOT_MAX : Z := PTR_SZ + IDXLEN_SZ + IDXLEN_MAX.

Definition fsizes (d : DB) : Z * Z := (zlen (f_bytes (idxfd d)), zlen (f_bytes (datfd d))).

(** An update of the record at [o]. *)
Definition slot_upd (g g' : ghost) (o e : Z) (s : slot) : Prop :=
  g_tab g' = g_tab g /\ g_map g' = <[o := (e, s)]> (g_map g).

Lemma r_ok_upd g d g' o e s :
  repr g d -> slot_upd g g' o e s -> slot_ok e s ->
  forall o' e' s', g_map g' !! o' = Some (e', s') -> slot_ok e' s'.
Proof.
  intros Hr [_ Hm] Hok o' e' s'. rewrite Hm. destruct (decide (o' = o)) as [->|].
  - rewrite lookup_insert_eq. by intros [= <- <-].
  - rewrite lookup_insert_ne by done. apply (r_ok _ _ Hr).
Qed.

Lemma write_tab_spec g d i old v :
  repr g d -> g_tab g !! i = Some old -> is_ptr v ->
  exists d', _db_writeptr (PTR_SZ * Z.of_nat i) v d = Ok tt d' /\
    repr (mkGhost (<[i := v]> (g_tab g)) (g_slots g)) d' /\ regs d' = regs d /\
    counts d' = counts d /\ fsizes d' = fsizes d /\
    trace d' = EvWrite IDX (PTR_SZ * Z.of_nat i) PTR_SZ :: trace d.
Proof.
  intros Hr Hi Hv.
  destruct (enc_tab_split _ i old v (r_ptrs _ _ Hr) Hi) as (pre & post & Hl & He & He').
  assert (is_ptr old) as Hold by (pose proof (r_ptrs _ _ Hr) as Hp; rewrite Forall_lookup in Hp; by eapply Hp).
  eexists. split.
  { apply (writeptr_at _ _ pre (fmt_wd PTR_SZ old) _ (post ++ enc_slots 0 (g_slots g))).
    - rewrite (r_idx _ _ Hr), He. lassoc.
    - by apply ptr_field_length.
    - done.
    - done. }
  split_and!; try done.
  2:{ unfold fsizes. dbs. rewrite (r_idx _ _ Hr), He.
      pose proof (ptr_field_length _ Hv). pose proof (ptr_field_length _ Hold). f_equal. zl. }
  destruct Hr. split; dbs; try done.
  - simpl. rewrite He'. lassoc.
  - simpl. by rewrite length_insert.
  - simpl. by apply Forall_insert.
Qed.

Definition with_next (v : Z) (s : slot) : slot := mkSlot v (s_key s) (s_data s).
Definition with_data (b : bytes) (s : slot) : slot := mkSlot (s_next s) (s_key s) b.

Lemma slot_ok_next e s v : slot_ok e s -> is_ptr v -> slot_ok e (with_next v s).
Proof. intros [H1 H2 H3 H4 H5 H6 H7] ?. exact (Build_slot_ok e (with_next v s) H H2 H3 H4 H5 H6 H7). Qed.

Lemma slot_ok_data e s b :
  slot_ok e s -> nonul b -> zlen b = zlen (s_data s) -> slot_ok e (with_data b s).
Proof.
  intros [H1 H2 H3 H4 H5 H6 H7] Hb Hl.
  assert (s_dlen (with_data b s) = s_dlen s) as E by (unfold s_dlen; simpl; lia).
  constructor; rewrite ?E, ?(body_same_length e s (with_data b s) eq_refl E); assumption.
Qed.

Lemma write_next_spec g d o e s v :
  repr g d -> g_map g !! o = Some (e, s) -> is_ptr v ->
  exists g' d', _db_writeptr o v d = Ok tt d' /\ repr g' d' /\
    slot_upd g g' o e (with_next v s) /\ regs d' = regs d /\
    counts d' = counts d /\ fsizes d' = fsizes d /\ trace d' = EvWrite IDX o PTR_SZ :: trace d.
Proof.
  intros Hr Hm Hv. pose proof (r_ok _ _ Hr _ _ _ Hm) as Hok.
  pose proof (slot_ok_next _ _ _ Hok Hv) as Hok'.
  destruct (repr_slot _ _ _ _ _ Hr Hm) as (ip & iq & dp & dq & Ho & -> & _ & Hi & Hd & Hu).
  destruct (Hu (with_next v s)) as (g' & H1 & H2 & H3 & H4); [by apply enc_slot_same_length|done|].
  exists g'. eexists. split.
  { apply (writeptr_at _ _ ip (fmt_wd PTR_SZ (s_next s)) v
             (fmt_wd IDXLEN_SZ (zlen (body (zlen dp) s)) ++ body (zlen dp) s ++ iq)).
    - rewrite Hi. unfold enc_slot. lassoc.
    - apply ptr_field_length, Hok.
    - done.
    - done. }
  split_and!; try done.
  2:{ unfold fsizes. dbs. rewrite Hi. unfold enc_slot. f_equal.
      pose proof (ptr_field_length _ Hv). pose proof (ptr_field_length _ (ok_next _ _ Hok)). zl. }
  pose proof (r_ok_upd _ _ g' o _ _ Hr (conj H1 H2) Hok'). destruct Hr.
  split; dbs; try done; rewrite ?H1; try done.
  - rewrite H1 in H3. rewrite H3. unfold enc_slot. lassoc.
  - rewrite H4, Hd. done.
Qed.

Lemma write_dat_spec g d o e s buf b :
  repr g d -> g_map g !! o = Some (e, s) -> cstr buf = b -> zlen b = zlen (s_data s) ->
  exists g' d', _db_writedat buf e SEEK_SET d = Ok tt d' /\ repr g' d' /\
    slot_upd g g' o e (with_data b s) /\
    regs d' = (idxoff d, e, s_dlen s, ptrval d, ptroff d, chainoff d) /\
    idxbuf d' = idxbuf d /\ counts d' = counts d /\ fsizes d' = fsizes d /\
    trace d' = EvWrite DAT e (s_dlen s) :: trace d.
Proof.
  intros Hr Hm Hb Hl. pose proof (r_ok _ _ Hr _ _ _ Hm) as Hok.
  assert (nonul b) as Hn by (subst b; apply cstr_nonul).
  pose proof (slot_ok_data _ _ _ Hok Hn Hl) as Hok'.
  assert (s_dlen (with_data b s) = s_dlen s) as E by (unfold s_dlen; simpl; lia).
  destruct (repr_slot _ _ _ _ _ Hr Hm) as (ip & iq & dp & dq & Ho & -> & _ & Hi & Hd & Hu).
  destruct (Hu (with_data b s)) as (g' & H1 & H2 & H3 & H4); [by apply enc_slot_same_length|done|].
  assert (zlen b + 1 = s_dlen s) as El by (unfold s_dlen; lia).
  exists g'. eexists. split.
  { apply (writedat_at _ _ b dp (enc_datum s) dq); [done|done|]. rewrite enc_datum_length. lia. }
  rewrite El. split_and!; try done.
  2:{ unfold fsizes, after_writedat. dbs. rewrite Hd. pose proof (enc_datum_length s). f_equal. zl. }
  pose proof (r_ok_upd _ _ g' o _ _ Hr (conj H1 H2) Hok'). destruct Hr.
  split; unfold after_writedat; dbs; try done; rewrite ?H1; try done.
  - rewrite H1 in H3. rewrite H3, Hi. unfold enc_slot.
    assert (body (zlen dp) (with_data b s) = body (zlen dp) s) as ->; [|done].
    unfold body. by rewrite E.
Qed.

Lemma write_idx_spec g d o e s key v :
  repr g d -> g_map g !! o = Some (e, s) -> datoff d = e -> datlen d = s_dlen s ->
  zlen (cstr key) = zlen (s_key s) -> SEP ∉ cstr key -> is_ptr v ->
  let s' := mkSlot v (cstr key) (s_data s) in
  exists g' d', _db_writeidx key o SEEK_SET v d = Ok tt d' /\ repr g' d' /\
    slot_upd g g' o e s' /\
    regs d' = (o, e, s_dlen s, v, ptroff d, chainoff d) /\
    counts d' = counts d /\ fsizes d' = fsizes d /\
    trace d' = EvWrite IDX o (zlen (enc_slot e s)) :: trace d.
Proof.
  intros Hr Hm He Hn Hl Hs Hv s'. pose proof (r_ok _ _ Hr _ _ _ Hm) as Hok.
  assert (slot_ok e s') as Hok'.
  { destruct Hok as [H1 H2 H3 H4 H5 H6 H7].
    constructor; rewrite ?(body_same_length e s s' Hl eq_refl); try assumption.
    apply cstr_nonul. }
  pose proof (enc_slot_same_length e s s' Hok Hok' Hl eq_refl) as El.
  destruct (repr_slot _ _ _ _ _ Hr Hm) as (ip & iq & dp & dq & Ho & He' & _ & Hi & Hd & Hu).
  destruct (Hu s') as (g' & H1 & H2 & H3 & H4); [done|done|].
  exists g'. eexists. split.
  { rewrite Ho. change v with (s_next s') at 1.
    eapply (writeidx_at d key e s'); try done. apply Hr. }
  rewrite El. split_and!; try done.
  - pose proof (r_ok_upd _ _ g' o _ _ Hr (conj H1 H2) Hok').
    pose proof (ok_body _ _ Hok'). destruct Hr.
    split; unfold after_writeidx; dbs; try done; rewrite ?H1; try done.
    + by rewrite H4, Hd.
    + zl.
  - unfold after_writeidx, regs. dbs. by rewrite Ho, He, Hn.
  - unfold fsizes, after_writeidx. dbs. rewrite Hi. f_equal. zl.
  - unfold after_writeidx. dbs. by rewrite <- Ho.
Qed.

(** [_db_writedat] and [_db_writeidx] at the ends of the files add a record. *)
Lemma append_spec g d key data v :
  repr g d -> nonul key -> SEP ∉ key -> nonul data -> 1 <= zlen data + 1 <= DATLEN_MAX ->
  is_ptr v ->
  let o := zlen (f_bytes (idxfd d)) in
  let e := zlen (f_bytes (datfd d)) in
  let s := mkSlot v key data in
  IDXLEN_MIN <= zlen (body e s) <= IDXLEN_MAX -> e < 2 ^ 63 ->
  exists g' d1 d2, _db_writedat data 0 SEEK_END d = Ok tt d1 /\
    _db_writeidx key 0 SEEK_END v d1 = Ok tt d2 /\ repr g' d2 /\
    slot_upd g g' o e s /\ g_map g !! o = None /\ IDX0 <= o /\
    regs d2 = (o, e, s_dlen s, v, ptroff d, chainoff d) /\
    counts d2 = counts d /\ (fsizes d2).1 <= o + SLOT_MAX /\
    trace d2 = EvLock IDX F_UNLCK IDX0 0 :: EvWrite IDX o (zlen (enc_slot e s))
                 :: EvLock IDX F_WRLCK IDX0 0 :: EvLock DAT F_UNLCK 0 0
                 :: EvWrite DAT e (s_dlen s) :: EvLock DAT F_WRLCK 0 0 :: trace d.
Proof.
  intros Hr Hk Hs Hd Hl Hv o e s Hb He.
  assert (slot_ok e s) as Hok.
  { constructor; try assumption. split; [apply zlen_nonneg|done]. }
  assert (zlen (enc_tab (g_tab g)) = IDX0) as Ht by (apply enc_tab_length; apply Hr).
  assert (o = IDX0 + zlen (enc_slots 0 (g_slots g))) as Ho.
  { unfold o. rewrite (r_idx _ _ Hr), zlen_app. lia. }
  assert (e = zlen (enc_data (g_slots g))) as He' by (unfold e; by rewrite (r_dat _ _ Hr)).
  set (g' := mkGhost (g_tab g) (g_slots g ++ [s])).
  assert (slot_upd g g' o e s) as Hu.
  { split; [done|]. unfold g_map, g'. simpl. rewrite layout_snoc. by rewrite Ho, He'. }
  exists g'. do 2 eexists. split; [by apply writedat_end|]. split.
  { change v with (s_next s). apply (writeidx_end _ _ e s).
    - by rewrite cstr_id.
    - done.
    - done.
    - done.
    - unfold after_writedat. dbs. apply Hr. }
  unfold after_writeidx, after_writedat, regs, fsizes. dbs. rewrite (r_nhash _ _ Hr).
  assert (zlen (enc_slot e s) <= SLOT_MAX) as Hsm.
  { rewrite enc_slot_length by done. unfold SLOT_MAX. lia. }
  split_and!; try done; [| | |cbn [fst]; rewrite zlen_app; fold o; lia]; [| |pose proof (zlen_nonneg (enc_slots 0 (g_slots g))); lia].
  - pose proof (r_ok_upd _ _ g' o _ _ Hr Hu Hok). destruct Hr. split; dbs; try done.
    + rewrite r_idx0. simpl. rewrite enc_slots_app. simpl.
      rewrite app_nil_r, <- He', <- app_assoc. done.
    + rewrite r_dat0. simpl. rewrite enc_data_app. unfold enc_data at 3. simpl.
      by rewrite app_nil_r.
    + zl.
  - destruct (g_map g !! o) as [[e0 s0]|] eqn:E; [|done]. apply layout_range in E. lia.
Qed.

(** [_db_readidx] loads the registers with the record at an offset. *)
Record loaded (o e : Z) (s : slot) (d : DB) : Prop := {
  l_regs : regs d = (o, e, s_dlen s, s_next s, ptroff d, chainoff d);
  l_key : cstr (idxbuf d) = s_key s
}.

Lemma readidx_spec g d o e s offset :
  repr g d -> g_map g !! o = Some (e, s) ->
  offset = o \/ (offset = 0 /\ f_pos (idxfd d) = o) ->
  exists d', _db_readidx offset d = Ok (s_next s) d' /\ frame d d' /\ loaded o e s d' /\
    ptroff d' = ptroff d /\ counts d' = counts d /\ trace d' = trace d /\
    f_pos (idxfd d') = o + zlen (enc_slot e s).
Proof.
  intros Hr Hm Ho. pose proof (r_ok _ _ Hr _ _ _ Hm) as Hok.
  destruct (repr_slot _ _ _ _ _ Hr Hm) as (ip & iq & dp & dq & -> & -> & Hp & Hi & _).
  eexists. split; [apply (readidx_at _ _ ip (zlen dp) s iq); try done; apply Hr|].
  unfold after_readidx. split_and!; try done.
  - split; dbs; try done. rewrite zlen_app, nulled_length. pose proof (ok_body _ _ Hok).
    pose proof (r_ibuf _ _ Hr). zl.
  - split; [done|]. dbs. unfold nulled. rewrite <- app_assoc. apply cstr_app_nul, Hok.
Qed.

Lemma readdat_spec g d o e s :
  repr g d -> g_map g !! o = Some (e, s) -> loaded o e s d ->
  exists d', _db_readdat d = Ok (s_data s) d' /\ frame d d' /\ counts d' = counts d /\
    trace d' = trace d /\ f_pos (idxfd d') = f_pos (idxfd d).
Proof.
  intros Hr Hm [Hl _]. injection Hl as _ He Hn _. pose proof (r_ok _ _ Hr _ _ _ Hm) as Hok.
  destruct (repr_slot _ _ _ _ _ Hr Hm) as (ip & iq & dp & dq & -> & E & Hp & _ & Hd & _).
  eexists. split.
  { apply (readdat_at _ dp s dq); try done; [congruence|apply Hok..|apply Hr]. }
  unfold after_readdat. split_and!; try done. split; dbs; try done.
  pose proof (ok_dlen _ _ Hok). pose proof (r_dbuf _ _ Hr). pose proof (enc_datum_length s).
  unfold s_dlen in *. zl.
Qed.

(** ** Hash chains and free list

    The pointers of the header start linked lists through the index records:
    list 0 is the free list, list [h + 1] the chain of hash value [h].  [seg]
    follows pointers, [links] says that every header pointer starts its list,
    and [content] relates the records on the lists to the map from keys to
    data that the database stands for. *)
Abbreviation recmap := (gmap Z (Z * slot)).

Definition next_at (m : recmap) (o : Z) : option Z := (fun x => s_next x.2) <$> m !! o.

(** From pointer [p], the records [l], and then pointer [q]. *)
Fixpoint seg (m : recmap) (p : Z) (l : list Z) (q : Z) : Prop :=
  match l with
  | [] => p = q
  | o :: l => p = o /\ o <> 0 /\ exists n, next_at m o = Some n /\ seg m n l q
  end.

Lemma seg_app m p l1 l2 q : seg m p (l1 ++ l2) q <-> exists r, seg m p l1 r /\ seg m r l2 q.
Proof.
  revert p. induction l1 as [|o l1 IH]; intros p; simpl.
  - split; [by exists p|]. by intros (r & -> & H).
  - split.
    + intros (-> & Ho & n & Hn & (r & H1 & H2)%IH). exists r. eauto 8.
    + intros (r & (-> & Ho & n & Hn & H1) & H2). split_and!; [done..|].
      exists n. split; [done|]. apply IH. eauto.
Qed.

Lemma seg_ext m m' p l q :
  (forall o, o ∈ l -> next_at m' o = next_at m o) -> seg m p l q -> seg m' p l q.
Proof.
  revert p. induction l as [|o l IH]; intros p H; simpl; [done|].
  intros (-> & Ho & n & Hn & Hs). split_and!; [done..|]. exists n. split.
  - rewrite H; [done|left].
  - apply IH; [|done]. intros o' Ho'. apply H. by right.
Qed.

Lemma seg_det m p l l' : seg m p l 0 -> seg m p l' 0 -> l = l'.
Proof.
  revert p l'. induction l as [|o l IH]; intros p [|o' l']; simpl; [done|..].
  - intros -> (Hc & Ho & _). by destruct Ho.
  - intros (-> & Ho & _) Hc. by destruct Ho.
  - intros (-> & Ho & n & Hn & Hs) (-> & _ & n' & Hn' & Hs').
    rewrite Hn in Hn'. injection Hn' as <-. f_equal. by eapply IH.
Qed.

(** A list that ends has no repetition. *)
Lemma seg_nodup m p l : seg m p l 0 -> NoDup l.
Proof.
  revert p. induction l as [|o l IH]; intros p; simpl; [by constructor|].
  intros (-> & Ho & n & Hn & Hs). constructor; [|by eapply IH].
  intros (l1 & l2 & ->)%list_elem_of_split.
  pose proof Hs as (r & _ & Hr)%seg_app. simpl in Hr. destruct Hr as (-> & _ & n' & Hn' & Hs').
  rewrite Hn in Hn'. injection Hn' as <-.
  pose proof (seg_det _ _ _ _ Hs Hs') as E. apply (f_equal length) in E.
  rewrite length_app in E. simpl in E. lia.
Qed.

Lemma seg_in m p l q o : seg m p l q -> o ∈ l -> exists x, m !! o = Some x /\ o <> 0.
Proof.
  revert p. induction l as [|o' l IH]; intros p; simpl; [by intros _ ?%not_elem_of_nil|].
  intros (-> & Ho & n & Hn & Hs) [->|Hin]%elem_of_cons; [|by eapply IH].
  unfold next_at in Hn. apply fmap_Some in Hn as (x & Hx & _). eauto.
Qed.

(** ** All the lists *)
Definition lset (L : nat -> list Z) (i : nat) (l : list Z) : nat -> list Z :=
  fun j => if decide (j = i) then l else L j.

Lemma lset_eq L i l : lset L i l i = l.
Proof. unfold lset. by rewrite decide_True. Qed.

Lemma lset_ne L i l j : j <> i -> lset L i l j = L j.
Proof. intros. unfold lset. by rewrite decide_False. Qed.

Record links (tab : list Z) (m : recmap) (L : nat -> list Z) : Prop := {
  k_seg : forall i p, tab !! i = Some p -> seg m p (L i) 0;
  k_disj : forall i j o, (i < NTAB)%nat -> (j < NTAB)%nat -> o ∈ L i -> o ∈ L j -> i = j
}.

(** ** The contents *)

(** The records without their pointers. *)
Definition payload (m : recmap) : gmap Z (Z * bytes * bytes) :=
  (fun x => (x.1, s_key x.2, s_data x.2)) <$> m.

Lemma payload_lookup m o e s :
  m !! o = Some (e, s) -> payload m !! o = Some (e, s_key s, s_data s).
Proof. intros H. unfold payload. by rewrite lookup_fmap, H. Qed.

Lemma payload_inv m o e k v :
  payload m !! o = Some (e, k, v) -> exists s, m !! o = Some (e, s) /\ s_key s = k /\ s_data s = v.
Proof.
  unfold payload. rewrite lookup_fmap. intros ((e' & s) & H & Heq)%fmap_Some.
  simplify_eq/=. eauto.
Qed.

(** The list a key belongs to. *)
Definition hidx (k : bytes) : nat := S (Z.to_nat (_db_hash NHASH_DEF k)).

Lemma hidx_range k : (0 < hidx k < NTAB)%nat.
Proof.
  unfold hidx, _db_hash, NTAB. pose proof (Z.mod_pos_bound (hash_go (cstr k) 1 0) NHASH_DEF).
  unfold NHASH_DEF in *. lia.
Qed.

Lemma hidx_off k : _db_hash NHASH_DEF k * PTR_SZ + HASH_OFF = PTR_SZ * Z.of_nat (hidx k).
Proof.
  unfold hidx, _db_hash. pose proof (Z.mod_pos_bound (hash_go (cstr k) 1 0) NHASH_DEF).
  unfold NHASH_DEF, PTR_SZ, HASH_OFF, PTR_SZ in *. lia.
Qed.

Record content (pm : gmap Z (Z * bytes * bytes)) (L : nat -> list Z) (M : gmap bytes bytes) : Prop := {
  c_live : forall i o e k v, (0 < i < NTAB)%nat -> o ∈ L i -> pm !! o = Some (e, k, v) ->
    hidx k = i /\ M !! k = Some v;
  c_uniq : forall i o1 e1 v1 o2 e2 v2 k, (0 < i < NTAB)%nat -> o1 ∈ L i -> o2 ∈ L i ->
    pm !! o1 = Some (e1, k, v1) -> pm !! o2 = Some (e2, k, v2) -> o1 = o2;
  c_map : forall k v, M !! k = Some v -> exists o e, o ∈ L (hidx k) /\ pm !! o = Some (e, k, v);
  c_blank : forall o e k v, o ∈ L 0%nat -> pm !! o = Some (e, k, v) -> all_blank k = true;
  c_off : forall o, is_Some (pm !! o) -> IDX0 <= o <= PTR_MAX
}.

(** Every record is on a list, those of [x] excepted. *)
Definition covered (pm : gmap Z (Z * bytes * bytes)) (L : nat -> list Z) (x : list Z) : Prop :=
  forall o, is_Some (pm !! o) -> o ∈ x \/ exists i, (i < NTAB)%nat /\ o ∈ L i.

Record db_inv (g : ghost) (L : nat -> list Z) (M : gmap bytes bytes) : Prop := {
  i_links : links (g_tab g) (g_map g) L;
  i_content : content (payload (g_map g)) L M;
  i_covered : covered (payload (g_map g)) L []
}.

(** The database state [d] stands for the map [M]. *)
Definition db_rep (d : DB) (M : gmap bytes bytes) : Prop :=
  exists g L, repr g d /\ db_inv g L M.

(** ** Length of the lists *)
Lemma seg_length g d p l :
  repr g d -> seg (g_map g) p l 0 -> (length l < chain_fuel d)%nat.
Proof.
  intros Hr Hs. pose proof (seg_nodup _ _ _ Hs) as Hn.
  assert (length l <= size (g_map g))%nat as H1.
  { rewrite <- (size_dom (D := gset Z)).
    rewrite <- (size_list_to_set (C := gset Z) l) by done.
    apply subseteq_size. intros o Ho. apply elem_of_list_to_set in Ho.
    destruct (seg_in _ _ _ _ _ Hs Ho) as (x & Hx & _). apply elem_of_dom. eauto. }
  pose proof (layout_size IDX0 0 (g_slots g)) as H2.
  pose proof (enc_slots_count 0 (g_slots g)) as H3.
  unfold chain_fuel. rewrite (r_idx _ _ Hr), length_app. unfold g_map, zlen in *. lia.
Qed.

Lemma data_bound g d : repr g d -> zlen (f_bytes (datfd d)) <= DATLEN_MAX * zlen (f_bytes (idxfd d)).
Proof.
  intros Hr. rewrite (r_dat _ _ Hr), (r_idx _ _ Hr), zlen_app.
  pose proof (r_ok _ _ Hr) as Hok. unfold g_map in Hok.
  pose proof (zlen_nonneg (enc_tab (g_tab g))).
  assert (zlen (enc_data (g_slots g)) <= DATLEN_MAX * zlen (enc_slots 0 (g_slots g))); [|unfold DATLEN_MAX in *; lia].
  clear -Hok. revert Hok. generalize IDX0 at 1, 0. induction (g_slots g) as [|s l IH]; intros o e Hok; [done|].
  rewrite enc_data_cons_length. simpl. rewrite zlen_app.
  pose proof (enc_slot_pos e s).
  destruct (Hok o e s) as [_ _ _ _ Hd _ _]; [simpl; by rewrite lookup_insert_eq|].
  specialize (IH (o + zlen (enc_slot e s)) (e + s_dlen s)).
  unfold DATLEN_MAX in *. enough (zlen (enc_data l) <= 1024 * zlen (enc_slots (e + s_dlen s) l)) by lia.
  apply IH. intros o' e' s' Hm. apply (Hok o'). simpl. rewrite lookup_insert_ne; [done|].
  apply layout_range in Hm. lia.
Qed.
