(* ===== verification/DbOps.v ===== *)
(** * Searching and relinking

    What the searches of the hash chains and of the free list find, and what
    a write of one chain pointer does to the linked structure. *)
From S2P Require Import Prelude CString Posix Db DbRep DbInv.

(** The location of the pointer that leads to the record after [l1], in the
    list that starts at the header pointer at offset [head]. *)
Definition ptr_loc (head : Z) (l1 : list Z) : Z := default head (last l1).

Lemma ptr_loc_nil head : ptr_loc head [] = head.
Proof. done. Qed.

Lemma ptr_loc_cons head o l : ptr_loc head (o :: l) = ptr_loc o l.
Proof. unfold ptr_loc. rewrite last_cons. by destruct (last l). Qed.

Lemma streq_spec buf key k :
  cstr buf = k -> nonul key -> streq buf key = bool_decide (k = key).
Proof. intros H Hk. unfold streq. by rewrite H, (cstr_id key). Qed.

Section Search.
Context (g : ghost).

(** The record [o] of the list [l] is the first whose record satisfies
    the test. *)
Definition first_match (test : slot -> bool) (l l1 : list Z) (o e : Z) (s : slot) : Prop :=
  (exists l2, l = l1 ++ o :: l2) /\ g_map g !! o = Some (e, s) /\ test s = true /\
  forall o' e' s', o' ∈ l1 -> g_map g !! o' = Some (e', s') -> test s' = false.

Definition no_match (test : slot -> bool) (l : list Z) : Prop :=
  forall o e s, o ∈ l -> g_map g !! o = Some (e, s) -> test s = false.

Lemma first_match_cons test l l1 o e s o0 e0 s0 :
  g_map g !! o0 = Some (e0, s0) -> test s0 = false ->
  first_match test l l1 o e s -> first_match test (o0 :: l) (o0 :: l1) o e s.
Proof.
  intros Hm Ht ((l2 & ->) & Ho & Hs & Hf). split_and!; [by exists l2|done..|].
  intros o' e' s' [->|Hin]%elem_of_cons Hm'; [by simplify_eq|by eapply Hf].
Qed.

Lemma first_match_head test l o e s :
  g_map g !! o = Some (e, s) -> test s = true -> first_match test (o :: l) [] o e s.
Proof.
  intros. split_and!; [by exists l|done..|]. by intros o' e' s' ?%not_elem_of_nil.
Qed.

Lemma no_match_cons test l o0 e0 s0 :
  g_map g !! o0 = Some (e0, s0) -> test s0 = false ->
  no_match test l -> no_match test (o0 :: l).
Proof.
  intros Hm Ht Hn o e s [->|Hin]%elem_of_cons Hm'; [by simplify_eq|by eapply Hn].
Qed.

Definition key_test (key : bytes) (s : slot) : bool := bool_decide (s_key s = key).

(** A step of either search: the record at the head of the list is read. *)
Lemma seg_step d p o l :
  repr g d -> seg (g_map g) p (o :: l) 0 ->
  p = o /\ o <> 0 /\ exists e s d', g_map g !! o = Some (e, s) /\
    seg (g_map g) (s_next s) l 0 /\
    _db_readidx p d = Ok (s_next s) d' /\ frame d d' /\ loaded o e s d' /\
    ptroff d' = ptroff d /\ counts d' = counts d /\ trace d' = trace d.
Proof.
  intros Hr (-> & Ho & n & Hn & Hs). split_and!; [done..|].
  unfold next_at in Hn. apply fmap_Some in Hn as ((e & s) & Hm & ->).
  destruct (readidx_spec g d o e s o Hr Hm (or_introl eq_refl))
    as (d' & H1 & H2 & H3 & H4 & H5 & H6 & _).
  exists e, s, d'. done.
Qed.

Lemma find_loop_spec key l :
  nonul key -> forall fuel p d,
  repr g d -> seg (g_map g) p l 0 -> (length l < fuel)%nat ->
  exists d', frame d d' /\ counts d' = counts d /\ trace d' = trace d /\
    ((exists l1 o e s, first_match (key_test key) l l1 o e s /\
        find_loop fuel key p d = Ok o d' /\ o <> 0 /\ loaded o e s d' /\
        ptroff d' = ptr_loc (ptroff d) l1) \/
     (no_match (key_test key) l /\ find_loop fuel key p d = Ok 0 d')).
Proof.
  intros Hk. induction l as [|o l IH]; intros [|fuel] p d Hr Hs Hf; simpl in Hf; try lia.
  - simpl in Hs. subst p. exists d. split_and!; [done..|]. right. split; [|done].
    by intros o e s ?%not_elem_of_nil.
  - destruct (seg_step _ _ _ _ Hr Hs) as (-> & Ho & e & s & d1 & Hm & Hs' & H1 & H2 & H3 & H4 & H5 & H6).
    cbn [find_loop]. rewrite eqb_false by done.
    rewrite (pbind_ok _ _ _ _ _ H1). pstep.
    rewrite (streq_spec _ _ _ (l_key _ _ _ _ H3) Hk). fold (key_test key s).
    destruct (key_test key s) eqn:Et.
    + exists d1. split_and!; [done..|]. left. exists [], o, e, s. split_and!; try done.
      by apply first_match_head.
    + pstep. destruct (IH fuel (s_next s) (set_ptroff o d1)) as (d' & F1 & F2 & F3 & F4); [|done|lia|].
      { eapply repr_frame; [done|]. etrans; [exact H2|]. by split. }
      exists d'. rewrite F2, F3. split_and!; try done.
      { etrans; [exact H2|]. etrans; [|exact F1]. by split. }
      destruct F4 as [(l1 & o' & e' & s' & G1 & G2 & G3 & G4 & G5)|[G1 G2]].
      * left. exists (o :: l1), o', e', s'. rewrite ptr_loc_cons. split_and!; try done.
        by eapply first_match_cons.
      * right. split; [by eapply no_match_cons|done].
Qed.

Definition size_test (keylen dlen : Z) (s : slot) : bool :=
  (zlen (s_key s) =? keylen) && (s_dlen s =? dlen).

Lemma findfree_loop_spec keylen dlen l :
  forall fuel p save d,
  repr g d -> seg (g_map g) p l 0 -> (length l < fuel)%nat ->
  exists d', frame d d' /\ counts d' = counts d /\ trace d' = trace d /\ ptroff d' = ptroff d /\
    ((exists l1 o e s, first_match (size_test keylen dlen) l l1 o e s /\
        findfree_loop fuel keylen dlen save p d = Ok (ptr_loc save l1, o) d' /\ o <> 0 /\
        loaded o e s d') \/
     (no_match (size_test keylen dlen) l /\
        exists save', findfree_loop fuel keylen dlen save p d = Ok (save', 0) d')).
Proof.
  induction l as [|o l IH]; intros [|fuel] p save d Hr Hs Hf; simpl in Hf; try lia.
  - simpl in Hs. subst p. exists d. split_and!; [done..|]. right. split; [|by exists save].
    by intros o e s ?%not_elem_of_nil.
  - destruct (seg_step _ _ _ _ Hr Hs) as (-> & Ho & e & s & d1 & Hm & Hs' & H1 & H2 & H3 & H4 & H5 & H6).
    cbn [findfree_loop]. rewrite eqb_false by done.
    rewrite (pbind_ok _ _ _ _ _ H1). pstep.
    assert ((strlen (idxbuf d1) =? keylen) && (datlen d1 =? dlen) = size_test keylen dlen s) as ->.
    { unfold size_test, strlen. rewrite (l_key _ _ _ _ H3).
      pose proof (l_regs _ _ _ _ H3) as E. injection E as _ _ -> _. done. }
    destruct (size_test keylen dlen s) eqn:Et.
    + exists d1. split_and!; [done..|]. left. exists [], o, e, s. split_and!; try done.
      by apply first_match_head.
    + destruct (IH fuel (s_next s) o d1) as (d' & F1 & F2 & F3 & F4 & F5); [|done|lia|].
      { by eapply repr_frame. }
      exists d'. rewrite F2, F3, F4. split_and!; try done; [by etrans|].
      destruct F5 as [(l1 & o' & e' & s' & G1 & G2 & G3 & G4)|[G1 (save' & G2)]].
      * left. exists (o :: l1), o', e', s'. rewrite ptr_loc_cons. split_and!; try done.
        by eapply first_match_cons.
      * right. split; [by eapply no_match_cons|by exists save'].
Qed.
End Search.

(** ** Writing the pointer that leads to a record *)
Lemma payload_same m o e s s' :
  m !! o = Some (e, s) -> s_key s' = s_key s -> s_data s' = s_data s ->
  payload (<[o := (e, s')]> m) = payload m.
Proof.
  intros Hm Hk Hd. unfold payload. rewrite fmap_insert. simpl. rewrite Hk, Hd.
  apply insert_id. by rewrite lookup_fmap, Hm.
Qed.

Lemma payload_insert m o e s :
  payload (<[o := (e, s)]> m) = <[o := (e, s_key s, s_data s)]> (payload m).
Proof. unfold payload. by rewrite fmap_insert. Qed.

Lemma next_at_insert_ne m o x o' : o' <> o -> next_at (<[o := x]> m) o' = next_at m o'.
Proof. intros. unfold next_at. by rewrite lookup_insert_ne. Qed.

Lemma next_at_insert m o e s : next_at (<[o := (e, s)]> m) o = Some (s_next s).
Proof. unfold next_at. by rewrite lookup_insert_eq. Qed.

Lemma next_at_lookup m o e s : m !! o = Some (e, s) -> next_at m o = Some (s_next s).
Proof. intros H. unfold next_at. by rewrite H. Qed.

Lemma link_write_spec g d i p l1 q v :
  repr g d -> g_tab g !! i = Some p -> seg (g_map g) p l1 q -> NoDup l1 -> is_ptr v ->
  exists g' d' p', let loc := ptr_loc (PTR_SZ * Z.of_nat i) l1 in
    _db_writeptr loc v d = Ok tt d' /\ repr g' d' /\
    regs d' = regs d /\ counts d' = counts d /\ fsizes d' = fsizes d /\
    trace d' = EvWrite IDX loc PTR_SZ :: trace d /\
    g_tab g' = <[i := p']> (g_tab g) /\ payload (g_map g') = payload (g_map g) /\
    seg (g_map g') p' l1 v /\ (forall o, o ∉ l1 -> g_map g' !! o = g_map g !! o).
Proof.
  intros Hr Hi Hs Hn Hv. destruct l1 as [|o l _] using rev_ind.
  - destruct (write_tab_spec g d i p v Hr Hi Hv) as (d' & H1 & H2 & H3 & H4 & H5 & H6).
    by eexists _, d', v.
  - assert (ptr_loc (PTR_SZ * Z.of_nat i) (l ++ [o]) = o) as E by (unfold ptr_loc; by rewrite last_snoc).
    rewrite E. apply seg_app in Hs as (r & Hs & (-> & Ho & n & Hno & _)).
    pose proof Hno as Hmo. unfold next_at in Hmo. apply fmap_Some in Hmo as ((e & s) & Hm & _).
    destruct (write_next_spec g d o e s v Hr Hm Hv) as (g' & d' & H1 & H2 & [H3 H3'] & H4 & H5 & H6 & H7).
    exists g', d', p. split_and!; try done.
    + rewrite H3. by rewrite list_insert_id.
    + rewrite H3'. by apply (payload_same _ _ _ s).
    + apply seg_app. exists o. rewrite H3'. split.
      * eapply seg_ext; [|done]. intros o' Ho'. apply next_at_insert_ne. intros ->.
        apply NoDup_app in Hn as (_ & Hd & _). eapply Hd; [done|]. by left.
      * simpl. split_and!; [done..|]. exists v. by rewrite next_at_insert.
    + intros o' Ho'. rewrite H3'. apply lookup_insert_ne. intros ->. apply Ho'.
      apply elem_of_app. right. by left.
Qed.

(** ** Steps of the linked structure *)
Definition unlisted (L : nat -> list Z) (o : Z) : Prop := forall i, (i < NTAB)%nat -> o ∉ L i.

Lemma links_ext tab m m' L :
  links tab m L -> length tab = NTAB ->
  (forall i o, (i < NTAB)%nat -> o ∈ L i -> next_at m' o = next_at m o) -> links tab m' L.
Proof.
  intros [Hs Hd] Ht He. split; [|done]. intros i p Hi.
  pose proof (lookup_lt_Some _ _ _ Hi). eapply seg_ext; [|by apply Hs].
  intros o Ho. apply (He i); [lia|done].
Qed.

Lemma links_other tab m L o x :
  links tab m L -> length tab = NTAB -> unlisted L o -> links tab (<[o := x]> m) L.
Proof.
  intros Hk Ht Hu. apply (links_ext _ _ _ _ Hk Ht). intros i o' Hi Ho'.
  apply next_at_insert_ne. intros ->. by eapply Hu.
Qed.

Lemma links_push tab m L i p o :
  links tab m L -> length tab = NTAB -> (i < NTAB)%nat -> tab !! i = Some p ->
  next_at m o = Some p -> o <> 0 -> unlisted L o ->
  links (<[i := o]> tab) m (lset L i (o :: L i)).
Proof.
  intros [Hs Hd] Ht Hi Hp Hn Ho Hu. split.
  - intros j q. destruct (decide (j = i)) as [->|Hne].
    + rewrite list_lookup_insert_eq by lia. intros [= <-]. rewrite lset_eq. simpl.
      split_and!; [done..|]. exists p. eauto.
    + rewrite list_lookup_insert_ne by done. rewrite lset_ne by done. apply Hs.
  - intros j k o' Hj Hk'. unfold lset. repeat case_decide; subst; [done|..]; intros H1 H2.
    + apply elem_of_cons in H1 as [->|H1]; [by destruct (Hu k)|by eapply Hd].
    + apply elem_of_cons in H2 as [->|H2]; [by destruct (Hu j)|by eapply Hd].
    + by eapply Hd.
Qed.

Lemma elem_of_middle {A} (l1 : list A) o l2 x : x ∈ l1 ++ l2 -> x ∈ l1 ++ o :: l2.
Proof. rewrite !elem_of_app, elem_of_cons. tauto. Qed.

Lemma disj_remove (L : nat -> list Z) i l1 o l2 :
  (forall i j o, (i < NTAB)%nat -> (j < NTAB)%nat -> o ∈ L i -> o ∈ L j -> i = j) ->
  L i = l1 ++ o :: l2 ->
  forall j k o', (j < NTAB)%nat -> (k < NTAB)%nat ->
    o' ∈ lset L i (l1 ++ l2) j -> o' ∈ lset L i (l1 ++ l2) k -> j = k.
Proof.
  intros Hd Hl j k o' Hj Hk.
  assert (forall n, o' ∈ lset L i (l1 ++ l2) n -> o' ∈ L n) as Hin.
  { intros n. unfold lset. case_decide; subst; [|done]. rewrite Hl. apply elem_of_middle. }
  intros H1%Hin H2%Hin. by eapply Hd.
Qed.

Lemma unlisted_remove (L : nat -> list Z) i l1 o l2 :
  (forall i j o, (i < NTAB)%nat -> (j < NTAB)%nat -> o ∈ L i -> o ∈ L j -> i = j) ->
  (i < NTAB)%nat -> L i = l1 ++ o :: l2 -> NoDup (L i) -> unlisted (lset L i (l1 ++ l2)) o.
Proof.
  intros Hd Hi Hl Hn j Hj. unfold lset. case_decide as E; subst.
  - rewrite Hl in Hn. apply NoDup_app in Hn as (_ & H1 & H2).
    apply NoDup_cons in H2 as [H2 _]. rewrite elem_of_app. intros [H|H]; [|done].
    eapply H1; [done|]. by left.
  - intros Ho. apply E. eapply (Hd j i o); try done. rewrite Hl, elem_of_app, elem_of_cons. auto.
Qed.

(** Taking a record off its list: the pointer that leads to it takes over
    its own pointer. *)
Lemma links_remove tab m L i p l1 o l2 n tab' m' p' :
  links tab m L -> length tab = NTAB -> (i < NTAB)%nat -> tab !! i = Some p ->
  L i = l1 ++ o :: l2 -> next_at m o = Some n ->
  tab' = <[i := p']> tab -> seg m' p' l1 n -> (forall x, x ∉ l1 -> m' !! x = m !! x) ->
  links tab' m' (lset L i (l1 ++ l2)).
Proof.
  intros [Hs Hd] Ht Hi Hp Hl Hn -> Hs' Hm. split; [|by eapply disj_remove].
  intros j q. pose proof (Hs _ _ Hp) as Hsi. pose proof (seg_nodup _ _ _ Hsi) as Hnd.
  rewrite Hl in Hsi, Hnd. destruct (decide (j = i)) as [->|Hne].
  - rewrite list_lookup_insert_eq by lia. intros [= <-]. rewrite lset_eq.
    apply seg_app. exists n. split; [done|].
    apply seg_app in Hsi as (r & _ & (-> & _ & n' & Hn' & Hs2)).
    rewrite Hn in Hn'. injection Hn' as <-.
    eapply seg_ext; [|done]. intros x Hx. unfold next_at. rewrite Hm; [done|].
    intros Hx1. apply NoDup_app in Hnd as (_ & H1 & _). eapply H1; [done|]. by right.
  - rewrite list_lookup_insert_ne by done. rewrite lset_ne by done. intros Hj.
    pose proof (lookup_lt_Some _ _ _ Hj). eapply seg_ext; [|by apply Hs].
    intros x Hx. unfold next_at. rewrite Hm; [done|]. intros Hx1. apply Hne.
    eapply (Hd j i x); try lia; [done|]. rewrite Hl, elem_of_app. auto.
Qed.

(** ** Steps of the contents *)
Section Content.
Context (pm : gmap Z (Z * bytes * bytes)) (L : nat -> list Z) (M : gmap bytes bytes).
Context (Hc : content pm L M).

Lemma content_drop_free l1 o l2 :
  L 0%nat = l1 ++ o :: l2 -> content pm (lset L 0 (l1 ++ l2)) M.
Proof using Hc.
  intros Hl. destruct Hc as [H1 H2 H3 H4 H5]. split; [..|done].
  - intros i o' e k v Hi. rewrite lset_ne by lia. by apply H1.
  - intros i o1 e1 v1 o2 e2 v2 k Hi. rewrite lset_ne by lia. by apply H2.
  - intros k v Hk. rewrite lset_ne by (pose proof (hidx_range k); lia). by apply H3.
  - intros o' e k v. rewrite lset_eq. intros Ho'. apply H4. rewrite Hl. by apply elem_of_middle.
Qed.

Lemma content_drop_live i l1 o l2 e k v :
  (0 < i < NTAB)%nat -> L i = l1 ++ o :: l2 -> NoDup (L i) -> pm !! o = Some (e, k, v) ->
  content pm (lset L i (l1 ++ l2)) (delete k M).
Proof using Hc.
  intros Hi Hl Hn Ho. destruct Hc as [H1 H2 H3 H4 H5].
  assert (o ∈ L i) as Hoi by (rewrite Hl, elem_of_app, elem_of_cons; auto).
  destruct (H1 _ _ _ _ _ Hi Hoi Ho) as [Hhk HMk].
  assert (forall o', o' ∈ l1 ++ l2 -> o' ∈ L i /\ o' <> o) as Hrest.
  { intros o' H. split; [rewrite Hl; by apply elem_of_middle|]. intros ->.
    rewrite Hl in Hn. apply NoDup_app in Hn as (_ & Ha & Hb).
    apply NoDup_cons in Hb as [Hb _]. apply elem_of_app in H as [H|H]; [|done].
    eapply Ha; [done|]. by left. }
  split; [..|done].
  - intros j o' e' k' v' Hj. unfold lset. case_decide as E; intros Ho' Hp.
    + subst. destruct (Hrest _ Ho') as [Hin Hne]. destruct (H1 _ _ _ _ _ Hj Hin Hp) as [? ?].
      rewrite lookup_delete_ne; [done|]. intros ->. apply Hne. by eapply H2.
    + destruct (H1 _ _ _ _ _ Hj Ho' Hp) as [? ?].
      rewrite lookup_delete_ne; [done|]. intros ->. congruence.
  - intros j o1 e1 v1 o2 e2 v2 k' Hj. unfold lset. case_decide; [|by apply H2].
    subst. intros [? _]%Hrest [? _]%Hrest. by apply (H2 (hidx k)).
  - intros k' v' (Hne & Hk')%lookup_delete_Some.
    destruct (H3 _ _ Hk') as (o' & e' & Hin & Hp). exists o', e'. split; [|done].
    unfold lset. case_decide as E; [|done]. rewrite E, Hl in Hin.
    rewrite elem_of_app, elem_of_cons in Hin. rewrite elem_of_app.
    destruct Hin as [?|[->|?]]; [auto| |auto]. congruence.
  - intros o' e' k' v'. rewrite lset_ne by lia. apply H4.
Qed.

Lemma content_set_unlisted o x :
  unlisted L o -> IDX0 <= o <= PTR_MAX -> content (<[o := x]> pm) L M.
Proof using Hc.
  intros Hu Ho. destruct Hc as [H1 H2 H3 H4 H5].
  assert (forall i o', (i < NTAB)%nat -> o' ∈ L i -> <[o := x]> pm !! o' = pm !! o') as He.
  { intros i o' Hi Hin. apply lookup_insert_ne. intros ->. by eapply Hu. }
  split.
  - intros i o' e k v Hi Hin. rewrite (He i) by (lia || done). by apply H1.
  - intros i o1 e1 v1 o2 e2 v2 k Hi Hi1 Hi2. rewrite !(He i) by (lia || done). by apply (H2 i).
  - intros k v Hk. destruct (H3 _ _ Hk) as (o' & e & Hin & Hp). exists o', e. split; [done|].
    rewrite (He (hidx k)); [done| |done]. apply hidx_range.
  - intros o' e k v Hin. rewrite (He 0%nat) by (unfold NTAB; lia || done). by apply H4.
  - intros o'. destruct (decide (o' = o)) as [->|]; [done|].
    rewrite lookup_insert_ne by done. apply H5.
Qed.

Lemma content_push_free o e k v :
  pm !! o = Some (e, k, v) -> all_blank k = true -> content pm (lset L 0 (o :: L 0%nat)) M.
Proof using Hc.
  intros Ho Hb. destruct Hc as [H1 H2 H3 H4 H5]. split; [..|done].
  - intros i o' e' k' v' Hi. rewrite lset_ne by lia. by apply H1.
  - intros i o1 e1 v1 o2 e2 v2 k' Hi. rewrite lset_ne by lia. by apply H2.
  - intros k' v' Hk. rewrite lset_ne by (pose proof (hidx_range k'); lia). by apply H3.
  - intros o' e' k' v'. rewrite lset_eq. intros [->|Ho']%elem_of_cons Hp; [|by eapply H4].
    by simplify_eq.
Qed.

Lemma content_push_live o e k v :
  pm !! o = Some (e, k, v) -> unlisted L o -> M !! k = None ->
  content pm (lset L (hidx k) (o :: L (hidx k))) (<[k := v]> M).
Proof using Hc.
  intros Ho Hu Hk. destruct Hc as [H1 H2 H3 H4 H5].
  pose proof (hidx_range k) as Hr. split; [..|done].
  - intros i o' e' k' v' Hi. unfold lset. case_decide as E; intros Hin Hp; subst.
    + apply elem_of_cons in Hin as [->|Hin]; [simplify_eq; by rewrite lookup_insert_eq|].
      destruct (H1 _ _ _ _ _ Hi Hin Hp). rewrite lookup_insert_ne; [done|congruence].
    + destruct (H1 _ _ _ _ _ Hi Hin Hp). rewrite lookup_insert_ne; [done|congruence].
  - intros i o1 e1 v1 o2 e2 v2 k' Hi. unfold lset. case_decide as E; [|by apply H2]. subst.
    intros [->|Hi1]%elem_of_cons [->|Hi2]%elem_of_cons Hp1 Hp2; [done|..|by eapply H2].
    + simplify_eq. destruct (H1 _ _ _ _ _ Hi Hi2 Hp2). congruence.
    + simplify_eq. destruct (H1 _ _ _ _ _ Hi Hi1 Hp1). congruence.
  - intros k' v'. destruct (decide (k' = k)) as [->|].
    + rewrite lookup_insert_eq. intros [= <-]. exists o, e. rewrite lset_eq. split; [by left|done].
    + rewrite lookup_insert_ne by done. intros Hk'. destruct (H3 _ _ Hk') as (o' & e' & Hin & Hp).
      exists o', e'. split; [|done]. unfold lset. case_decide as E; [|done]. rewrite <- E. by right.
  - intros o' e' k' v'. rewrite lset_ne by lia. apply H4.
Qed.

Lemma content_overwrite i o e k v v' :
  (forall i j o, (i < NTAB)%nat -> (j < NTAB)%nat -> o ∈ L i -> o ∈ L j -> i = j) ->
  (0 < i < NTAB)%nat -> o ∈ L i -> pm !! o = Some (e, k, v) ->
  content (<[o := (e, k, v')]> pm) L (<[k := v']> M).
Proof using Hc.
  intros Hd Hi Hin Ho. destruct Hc as [H1 H2 H3 H4 H5].
  destruct (H1 _ _ _ _ _ Hi Hin Ho) as [<- HMk].
  assert (forall o' x, o' <> o -> <[o := x]> pm !! o' = pm !! o') as He
    by (intros; by apply lookup_insert_ne).
  assert (forall o' e' k' v'', <[o := (e, k, v')]> pm !! o' = Some (e', k', v'') ->
            exists w, pm !! o' = Some (e', k', w)) as Hw.
  { intros o' e' k' v''. destruct (decide (o' = o)) as [->|].
    - rewrite lookup_insert_eq. intros [= <- <- <-]. eauto.
    - rewrite He by done. eauto. }
  split.
  - intros i o' e' k' v'' Hi' Hin' Hp. destruct (Hw _ _ _ _ Hp) as [w Hp'].
    destruct (H1 _ _ _ _ _ Hi' Hin' Hp') as [<- HM]. split; [done|].
    destruct (decide (o' = o)) as [->|Hne].
    + rewrite lookup_insert_eq in Hp. simplify_eq. by rewrite lookup_insert_eq.
    + rewrite He in Hp by done. rewrite lookup_insert_ne; [congruence|].
      intros <-. apply Hne. by eapply (H2 (hidx k)).
  - intros j o1 e1 v1 o2 e2 v2 k' Hj Hi1 Hi2 [w1 Hp1]%Hw [w2 Hp2]%Hw. by eapply H2.
  - intros k' v''. destruct (decide (k' = k)) as [->|].
    + rewrite lookup_insert_eq. intros [= <-]. exists o, e. by rewrite lookup_insert_eq.
    + rewrite lookup_insert_ne by done. intros Hk'. destruct (H3 _ _ Hk') as (o' & e' & Hin' & Hp).
      exists o', e'. rewrite He; [done|]. intros ->. congruence.
  - intros o' e' k' v'' Hin' [w Hp]%Hw. by eapply H4.
  - intros o'. destruct (decide (o' = o)) as [->|]; [intros _; apply H5; eauto|].
    rewrite He by done. apply H5.
Qed.
End Content.

Lemma covered_remove pm L i l1 o l2 x :
  covered pm L x -> L i = l1 ++ o :: l2 -> covered pm (lset L i (l1 ++ l2)) (o :: x).
Proof.
  intros Hc Hl o' Ho'. destruct (Hc o' Ho') as [?|(j & Hj & Hin)]; [left; by right|].
  destruct (decide (j = i)) as [->|].
  - rewrite Hl, elem_of_app, elem_of_cons in Hin.
    destruct Hin as [Hin|[->|Hin]]; [|left; by left|];
      right; exists i; rewrite lset_eq, elem_of_app; auto.
  - right. exists j. by rewrite lset_ne.
Qed.

Lemma covered_push pm L i o x :
  covered pm L (o :: x) -> (i < NTAB)%nat -> covered pm (lset L i (o :: L i)) x.
Proof.
  intros Hc Hi o' Ho'. destruct (Hc o' Ho') as [[->|?]%elem_of_cons|(j & Hj & Hin)]; [|by left|].
  - right. exists i. rewrite lset_eq. split; [done|by left].
  - right. destruct (decide (j = i)) as [->|].
    + exists i. rewrite lset_eq. split; [done|by right].
    + exists j. by rewrite lset_ne.
Qed.

Lemma covered_insert pm L o x v : covered pm L x -> o ∈ x -> covered (<[o := v]> pm) L x.
Proof.
  intros Hc Hx o'. destruct (decide (o' = o)) as [->|]; [by left|].
  rewrite lookup_insert_ne by done. apply Hc.
Qed.

Lemma covered_more pm L x y : covered pm L x -> x ⊆ y -> covered pm L y.
Proof. intros Hc Hs o Ho. destruct (Hc o Ho) as [?|?]; [left; by apply Hs|by right]. Qed.

Lemma covered_overwrite pm L o x v :
  covered pm L x -> is_Some (pm !! o) -> covered (<[o := v]> pm) L x.
Proof.
  intros Hc Hs o'. destruct (decide (o' = o)) as [->|]; [intros _; by apply Hc|].
  rewrite lookup_insert_ne by done. apply Hc.
Qed.
