(* ===== verification/DbLocks.v ===== *)
(** * The lock protocol of the database library

    The locks a process holds after a sequence of lock requests, and the
    condition that every pointer of the header of the index file (the free
    list pointer and the hash chain pointers) is written only by a process
    that has its first byte write-locked. *)
From S2P Require Import Prelude CString Posix Db DbInv.

(** Most recent event first. *)
Fixpoint locked_writes (tr : list event) : Prop :=
  match tr with
  | [] => True
  | EvWrite IDX off _ :: tr => (off < IDX0 -> lock_at tr IDX off = F_WRLCK) /\ locked_writes tr
  | _ :: tr => locked_writes tr
  end.

(** The only lock held is a write lock on the byte [co] of the index file. *)
Definition holds (co : Z) (tr : list event) : Prop :=
  forall fd b, lock_at tr fd b = if decide (fd = IDX /\ b = co) then F_WRLCK else F_UNLCK.

(** Events that keep to the protocol while the byte [co] is locked. *)
Definition ev_ok (co : Z) (evs : list event) : Prop :=
  forall tr, holds co tr -> locked_writes tr -> holds co (evs ++ tr) /\ locked_writes (evs ++ tr).

Lemma ev_ok_app co a b : ev_ok co a -> ev_ok co b -> ev_ok co (a ++ b).
Proof. intros Ha Hb tr H1 H2. rewrite <- app_assoc. destruct (Hb tr H1 H2). by apply Ha. Qed.

Lemma ev_ok_nil co : ev_ok co [].
Proof. by intros tr. Qed.

(** [covers_case] splits on which bytes a lock request covers. *)
Ltac covers_case :=
  unfold covers;
  repeat match goal with
         | |- context [bool_decide ?P] => destruct (bool_decide_reflect P)
         | |- context [?a <=? ?b] => destruct (Z.leb_spec a b)
         | |- context [?a <? ?b] => destruct (Z.ltb_spec a b)
         end; cbn [andb orb]; subst.

(** Writes allowed while [co] and the free list pointer are locked. *)
Definition wr_ok (co : Z) (ev : event) : Prop :=
  match ev with
  | EvWrite IDX off _ => off = co \/ off = FREE_OFF \/ IDX0 <= off
  | EvWrite DAT _ _ => True
  | EvLock _ _ _ _ => False
  end.

Lemma wr_ok_lock_at co ws tr fd b : Forall (wr_ok co) ws -> lock_at (ws ++ tr) fd b = lock_at tr fd b.
Proof. induction 1 as [|[] ws Hw _ IH]; [done|done|]. simpl. exact IH. Qed.

Lemma wr_ok_locked co ws tr :
  Forall (wr_ok co) ws -> lock_at tr IDX co = F_WRLCK -> lock_at tr IDX FREE_OFF = F_WRLCK ->
  locked_writes tr -> locked_writes (ws ++ tr).
Proof.
  intros Hw H1 H2 H3. induction Hw as [|ev ws Hev Hw IH]; [done|].
  destruct ev as [|[] off n]; [done| |exact IH]. simpl. split; [|exact IH].
  intros Hoff. rewrite (wr_ok_lock_at co) by done. destruct Hev as [->|[->|?]]; [done..|lia].
Qed.

(** The free list is locked around some writes. *)
Lemma ev_ok_free co ws :
  PTR_SZ <= co < IDX0 -> Forall (wr_ok co) ws ->
  ev_ok co (EvLock IDX F_UNLCK FREE_OFF 1 :: ws ++ [EvLock IDX F_WRLCK FREE_OFF 1]).
Proof.
  intros Hco Hw tr Hh Hl. unfold PTR_SZ, FREE_OFF in *. rewrite <- app_comm_cons, <- app_assoc. split.
  - intros fd b. cbn [lock_at app]. rewrite (wr_ok_lock_at co) by done. cbn [lock_at].
    rewrite Hh. covers_case; repeat case_decide; try done; destruct_and?; subst; try lia.
    all: naive_solver lia.
  - simpl. apply (wr_ok_locked co); [done|..|done]; simpl.
    + rewrite Hh. rewrite decide_True by done. covers_case; done || lia.
    + done.
Qed.

(** A record is appended to the index file. *)
Lemma ev_ok_tail co o n :
  co < IDX0 <= o ->
  ev_ok co [EvLock IDX F_UNLCK IDX0 0; EvWrite IDX o n; EvLock IDX F_WRLCK IDX0 0].
Proof.
  intros Hco tr Hh Hl. split.
  - intros fd b. simpl. rewrite Hh. covers_case; repeat case_decide; naive_solver lia.
  - simpl. split; [lia|done].
Qed.

Lemma ev_ok_dat co o n :
  ev_ok co [EvLock DAT F_UNLCK 0 0; EvWrite DAT o n; EvLock DAT F_WRLCK 0 0].
Proof.
  intros tr Hh Hl. split; [|done].
  intros fd b. simpl. rewrite Hh. covers_case; repeat case_decide; try done; naive_solver lia.
Qed.

Lemma ev_ok_writes co ws :
  Forall (fun ev => match ev with EvWrite IDX off _ => off = co \/ IDX0 <= off
                             | EvWrite DAT _ _ => True | _ => False end) ws ->
  ev_ok co ws.
Proof.
  intros Hw tr Hh Hl.
  assert (forall fd b, lock_at (ws ++ tr) fd b = lock_at tr fd b) as E.
  { intros fd b. induction Hw as [|[] ws ? _ IH]; [done|done|]. exact IH. }
  split; [intros fd b; by rewrite E|]. clear E.
  induction Hw as [|ev ws Hev Hw IH]; [done|].
  destruct ev as [|[] off n]; [done| |exact IH]. simpl. split; [|exact IH]. intros Hoff.
  destruct Hev as [->|?]; [|lia].
  assert (lock_at (ws ++ tr) IDX co = lock_at tr IDX co) as ->.
  { clear IH. induction Hw as [|[] ws ? _ IH]; [done|done|]. exact IH. }
  rewrite Hh. by rewrite decide_True.
Qed.

(** Taking and releasing the lock of a chain. *)
Lemma holds_lock co tr : unlocked tr -> holds co (EvLock IDX F_WRLCK co 1 :: tr).
Proof.
  intros Hu fd b. simpl. rewrite (Hu fd b).
  covers_case; repeat case_decide; try done; naive_solver lia.
Qed.

Lemma holds_unlock co tr : holds co tr -> unlocked (EvLock IDX F_UNLCK co 1 :: tr).
Proof.
  intros Hh fd b. simpl. rewrite Hh.
  covers_case; repeat case_decide; try done; naive_solver lia.
Qed.

Lemma unlocked_bracket co t tr :
  unlocked tr -> unlocked (EvLock IDX F_UNLCK co 1 :: EvLock IDX t co 1 :: tr).
Proof. intros Hu fd b. simpl. rewrite (Hu fd b). covers_case; done. Qed.
