(* ===== verification/DbSpec.v ===== *)
(** * What the operations of the database library do

    The specification of every operation of db.c against the map the
    database stands for, and the properties of the library that follow. *)
From S2P Require Import Prelude CString Posix Db DbRep DbInv DbOps DbLocks.

(** The offset of the chain pointer of a key in the index file. *)
Definition chain_off (key : bytes) : Z := PTR_SZ * Z.of_nat (hidx key).

Lemma chain_off_range key : PTR_SZ <= chain_off key < IDX0 - PTR_SZ.
Proof. unfold chain_off. pose proof (hidx_range key). unfold PTR_SZ, IDX0, NTAB in *. lia. Qed.

Lemma tab_lookup g d i : repr g d -> (i < NTAB)%nat -> exists p, g_tab g !! i = Some p /\ is_ptr p.
Proof.
  intros Hr Hi. destruct (lookup_lt_is_Some_2 (g_tab g) i) as [p Hp].
  { rewrite (r_ntab _ _ Hr). done. }
  exists p. split; [done|]. pose proof (r_ptrs _ _ Hr) as H. rewrite Forall_lookup in H. by eapply H.
Qed.

Lemma inv_off g L M o x : db_inv g L M -> g_map g !! o = Some x -> is_ptr o /\ IDX0 <= o.
Proof.
  intros Hi Hm. destruct x as [e s]. pose proof (payload_lookup _ _ _ _ Hm) as Hp.
  pose proof (c_off _ _ _ (i_content _ _ _ Hi) o (mk_is_Some _ _ Hp)). unfold is_ptr, IDX0 in *. lia.
Qed.

Lemma repr_chainoff g d co : repr g d -> repr g (set_chainoff co d).
Proof. intros []. by split. Qed.

(** ** [_db_find_and_lock] *)
Lemma find_and_lock_spec g L M d key wl :
  repr g d -> db_inv g L M -> nonul key ->
  let co := chain_off key in
  exists rc d', _db_find_and_lock key wl d = Ok rc d' /\ repr g d' /\
    frame (set_chainoff co d) d' /\ counts d' = counts d /\
    trace d' = EvLock IDX (if wl then F_WRLCK else F_RDLCK) co 1 :: trace d /\
    ((rc = 0 /\ exists l1 l2 o e s, L (hidx key) = l1 ++ o :: l2 /\
        g_map g !! o = Some (e, s) /\ s_key s = key /\ M !! key = Some (s_data s) /\
        loaded o e s d' /\ ptroff d' = ptr_loc co l1) \/
     (rc = -1 /\ M !! key = None)).
Proof.
  intros Hr Hi Hk co. unfold _db_find_and_lock. pstep. rewrite (r_hash _ _ Hr), (r_nhash _ _ Hr).
  rewrite hidx_off. fold (chain_off key). fold co.
  set (d1 := set_trace (EvLock IDX (if wl then F_WRLCK else F_RDLCK) co 1 :: trace d)
               (set_ptroff co (set_chainoff co d))).
  rewrite (pbind_ok _ _ _ tt d1) by (by destruct wl).
  assert (repr g d1) as Hr1 by (apply (repr_frame g (set_chainoff co d)); [by apply repr_chainoff|by split]).
  pose proof (hidx_range key) as Hh.
  destruct (tab_lookup _ _ (hidx key) Hr ltac:(lia)) as (p & Hp & _).
  rewrite (pbind_ok _ _ _ _ _ (repr_readptr g d1 (hidx key) p Hr1 Hp)). pstep. dbs.
  set (d2 := set_idxfd _ d1). assert (frame d1 d2) as F2 by (by split).
  pose proof (repr_frame _ _ _ Hr1 F2) as Hr2.
  pose proof (k_seg _ _ _ (i_links _ _ _ Hi) _ _ Hp) as Hs.
  destruct (find_loop_spec g key (L (hidx key)) Hk (chain_fuel d2) p d2 Hr2 Hs)
    as (d' & F & Hc & Ht & Hres); [by eapply seg_length|].
  assert (frame (set_chainoff co d) d') as F'.
  { etrans; [|exact F]. by split. }
  destruct Hres as [(l1 & o & e & s & ((l2 & Hl) & Hm & Hts & _) & E & Ho & Hld & Hpt)|[Hn E]].
  - exists 0, d'. rewrite (pbind_ok _ _ _ _ _ E), eqb_false by done. split_and!; try done.
    { by eapply repr_frame. }
    left. split; [done|]. apply bool_decide_eq_true in Hts.
    exists l1, l2, o, e, s. split_and!; try done.
    pose proof (payload_lookup _ _ _ _ Hm) as Hpl. rewrite <- Hts.
    assert (o ∈ L (hidx key)) by (rewrite Hl, elem_of_app, elem_of_cons; auto).
    by eapply (c_live _ _ _ (i_content _ _ _ Hi)).
  - exists (-1), d'. rewrite (pbind_ok _ _ _ _ _ E). split_and!; try done. { by eapply repr_frame. }
    right. split; [done|]. destruct (M !! key) as [v|] eqn:EM; [|done].
    destruct (c_map _ _ _ (i_content _ _ _ Hi) _ _ EM) as (o & e & Hin & Hpl).
    destruct (payload_inv _ _ _ _ _ Hpl) as (s & Hm & Hks & _).
    specialize (Hn _ _ _ Hin Hm). by apply bool_decide_eq_false in Hn.
Qed.

(** ** [_db_dodelete] *)

(** Moving a record from its chain to the free list: the record is rewritten
    and pushed on the free list before the pointer that leads to it on the
    chain is. *)
Lemma links_move tab m L i p l1 o l2 e s s2 f tab4 m4 p' :
  links tab m L -> length tab = NTAB -> (0 < i < NTAB)%nat -> tab !! i = Some p ->
  tab !! 0%nat = Some f -> L i = l1 ++ o :: l2 -> m !! o = Some (e, s) -> s_next s2 = f -> o <> 0 ->
  tab4 = <[i := p']> (<[0%nat := o]> tab) -> seg m4 p' l1 (s_next s) ->
  (forall x, x ∉ l1 -> m4 !! x = <[o := (e, s2)]> m !! x) ->
  links tab4 m4 (lset (lset L i (l1 ++ l2)) 0 (o :: L 0%nat)).
Proof.
  intros Hk Ht Hi Hp Hf Hl Hm Hn Ho -> Hs Hm4.
  pose proof (seg_nodup _ _ _ (k_seg _ _ _ Hk _ _ Hp)) as Hnd.
  pose proof (unlisted_remove L i l1 o l2 (k_disj _ _ _ Hk) ltac:(lia) Hl Hnd) as Hu.
  assert (o ∉ l1) as Ho1.
  { rewrite Hl in Hnd. apply NoDup_app in Hnd as (_ & H & _). intros Hin. eapply H; [done|]. by left. }
  assert (links (<[i := p']> tab) (<[o := (e, s)]> m4) (lset L i (l1 ++ l2))) as H1.
  { eapply (links_remove tab m L i p l1 o l2 (s_next s)); try done; [lia|by eapply next_at_lookup|..].
    - eapply seg_ext; [|done]. intros x Hx. apply next_at_insert_ne. by intros ->.
    - intros x Hx. destruct (decide (x = o)) as [->|]; [by rewrite lookup_insert_eq|].
      rewrite lookup_insert_ne, Hm4, lookup_insert_ne by done. done. }
  assert (m4 = <[o := (e, s2)]> (<[o := (e, s)]> m4)) as ->.
  { rewrite insert_insert_eq, insert_id; [done|]. rewrite Hm4 by done. by rewrite lookup_insert_eq. }
  rewrite list_insert_insert_ne by lia.
  replace (o :: L 0%nat) with (o :: lset L i (l1 ++ l2) 0%nat) by (rewrite lset_ne by lia; done).
  apply links_push with f; try done; try lia.
  - apply links_other; try done. by rewrite length_insert.
  - by rewrite length_insert.
  - rewrite list_lookup_insert_ne by lia. done.
  - rewrite next_at_insert. by rewrite Hn.
Qed.

Lemma cstr_blanked b :
  cstr (splice b 0 (replicate (length (cstr b)) SPACE)) = replicate (length (cstr b)) SPACE.
Proof.
  assert (length (cstr b) <= length b)%nat as Hl.
  { induction b as [|c b IH]; simpl; [lia|]. destruct (c =? NUL); simpl; lia. }
  rewrite splice_front by (unfold zlen; rewrite length_replicate; lia).
  rewrite length_replicate. clear Hl. induction b as [|c b IH]; [done|].
  simpl. destruct (c =? NUL) eqn:E; [simpl; by rewrite E|]. simpl. by rewrite IH.
Qed.

Lemma blanks_all_blank n : all_blank (replicate n SPACE) = true.
Proof. unfold all_blank. induction n; [done|]. simpl. by rewrite IHn. Qed.

Lemma blanks_no_sep n : SEP ∉ replicate n SPACE.
Proof. intros [? _]%elem_of_replicate. done. Qed.

(** The writes and locks of a deletion, the most recent first. *)
Definition del_events (loc o e : Z) (s : slot) : list event :=
  [EvLock IDX F_UNLCK FREE_OFF 1; EvWrite IDX loc PTR_SZ; EvWrite IDX FREE_OFF PTR_SZ;
   EvWrite IDX o (zlen (enc_slot e s)); EvWrite DAT e (s_dlen s);
   EvLock IDX F_WRLCK FREE_OFF 1].

(** The state of [_db_dodelete] before its first write. *)
Definition blanked (d : DB) : DB :=
  set_trace (EvLock IDX F_WRLCK FREE_OFF 1 :: trace d)
    (set_idxbuf (splice (idxbuf d) 0 (replicate (length (cstr (idxbuf d))) SPACE))
      (set_datbuf (splice (datbuf d) 0 (replicate (Z.to_nat (datlen d - 1)) SPACE ++ [NUL])) d)).

Definition dodelete_rest : Prog DB unit :=
  (do dbuf <- get datbuf;
   do doff <- get datoff;
   run _db_writedat dbuf doff SEEK_SET;
   do freeptr <- _db_readptr FREE_OFF;
   do saveptr <- get ptrval;
   do ibuf <- get idxbuf;
   do ioff <- get idxoff;
   run _db_writeidx ibuf ioff SEEK_SET freeptr;
   do ioff' <- get idxoff;
   run _db_writeptr FREE_OFF ioff';
   do po <- get ptroff;
   run _db_writeptr po saveptr;
   un_lock IDX FREE_OFF 1)%prog.

Lemma dodelete_start d : _db_dodelete d = dodelete_rest (blanked d).
Proof. reflexivity. Qed.

Lemma blanked_frame g d o e s :
  repr g d -> g_map g !! o = Some (e, s) -> loaded o e s d ->
  frame d (blanked d) /\
  cstr (datbuf (blanked d)) = replicate (length (s_data s)) SPACE /\
  cstr (idxbuf (blanked d)) = replicate (length (s_key s)) SPACE.
Proof.
  intros Hr Hm [Hl Hk]. injection Hl as _ _ Hn _. pose proof (r_ok _ _ Hr _ _ _ Hm) as Hok.
  pose proof (ok_dlen _ _ Hok). pose proof (r_dbuf _ _ Hr). pose proof (r_ibuf _ _ Hr).
  unfold s_dlen in *. assert (length (cstr (idxbuf d)) <= length (idxbuf d))%nat as Hc.
  { clear. induction (idxbuf d) as [|c b IH]; simpl; [lia|]. destruct (c =? NUL); simpl; lia. }
  split_and!.
  - split; unfold blanked; dbs; try done.
    + apply splice_length; [done|]. unfold zlen in *. rewrite length_replicate. lia.
    + apply splice_length; [done|]. rewrite Hn. zl.
  - unfold blanked. dbs. rewrite Hn, splice_front by zl. rewrite <- app_assoc. simpl.
    rewrite cstr_app_nul by (by apply nonul_replicate). f_equal. unfold zlen. lia.
  - unfold blanked. dbs. by rewrite cstr_blanked, Hk.
Qed.

(** Up to the last pointer write: the record is blank and heads the free
    list. *)
Lemma dodelete_rewrite g d o e s :
  repr g d -> g_map g !! o = Some (e, s) -> loaded o e s d -> is_ptr o ->
  exists g3 d4 f s2, g_tab g !! 0%nat = Some f /\ s_next s2 = f /\ all_blank (s_key s2) = true /\
    _db_dodelete d = (run _db_writeptr (ptroff d) (s_next s); un_lock IDX FREE_OFF 1)%prog d4 /\
    repr g3 d4 /\ g_tab g3 = <[0%nat := o]> (g_tab g) /\ g_map g3 = <[o := (e, s2)]> (g_map g) /\
    chainoff d4 = chainoff d /\ counts d4 = counts d /\ fsizes d4 = fsizes d /\
    trace d4 = EvWrite IDX FREE_OFF PTR_SZ :: EvWrite IDX o (zlen (enc_slot e s))
                 :: EvWrite DAT e (s_dlen s) :: EvLock IDX F_WRLCK FREE_OFF 1 :: trace d.
Proof.
  intros Hr Hm Hld Hpo.
  destruct (blanked_frame _ _ _ _ _ Hr Hm Hld) as (F0 & Hb1 & Hb2).
  pose proof (l_regs _ _ _ _ Hld) as Hregs. injection Hregs as Hio Hdo Hdl Hpv.
  rewrite dodelete_start. set (d0 := blanked d) in *.
  pose proof (repr_frame _ _ _ Hr F0) as Hr0. unfold dodelete_rest. pstep.
  change (datoff d0) with (datoff d). rewrite Hdo.
  destruct (write_dat_spec g d0 o e s (datbuf d0) _ Hr0 Hm Hb1) as
    (g1 & d1 & W1 & Hr1 & [U1 U1'] & R1 & I1 & C1 & S1 & T1); [zl|].
  rewrite (pbind_ok _ _ _ _ _ W1).
  destruct (tab_lookup _ _ 0 Hr ltac:(unfold NTAB; lia)) as (f & Hf & Hfp).
  assert (g_tab g1 !! 0%nat = Some f) as Hf1 by (by rewrite U1).
  rewrite (pbind_ok _ _ _ _ _ (repr_readptr g1 d1 0 f Hr1 Hf1)). pstep. dbs.
  injection R1 as Ri1 Rd1 Rl1 Rp1 Rt1 Rc1. rewrite Rp1, Ri1, I1.
  change (ptrval d0) with (ptrval d). change (idxoff d0) with (idxoff d). rewrite Hio, Hpv.
  set (d2 := set_idxfd _ d1).
  assert (repr g1 d2) as Hr2 by (eapply repr_frame; [exact Hr1|by split]).
  set (s1 := with_data (replicate (length (s_data s)) SPACE) s) in *.
  assert (s_dlen s1 = s_dlen s) as El by (unfold s_dlen; simpl; zl).
  assert (g_map g1 !! o = Some (e, s1)) as Hm1 by (rewrite U1'; apply lookup_insert_eq).
  destruct (write_idx_spec g1 d2 o e s1 (idxbuf d0) f Hr2 Hm1 Rd1) as
    (g2 & d3 & W3 & Hr3 & [U3 U3'] & R3 & C3 & S3 & T3);
    [by rewrite El|rewrite Hb2; simpl; zl|rewrite Hb2; apply blanks_no_sep|done|].
  rewrite (pbind_ok _ _ _ _ _ W3). injection R3 as Ri3 Rd3 Rl3 Rp3 Rt3 Rc3. pstep. rewrite Ri3.
  assert (g_tab g2 !! 0%nat = Some f) as Hf2 by (by rewrite U3).
  destruct (write_tab_spec g2 d3 0 f o Hr3 Hf2 Hpo) as (d4 & W4 & Hr4 & R4 & C4 & S4 & T4).
  change (PTR_SZ * Z.of_nat 0) with FREE_OFF in *.
  rewrite (pbind_ok _ _ _ _ _ W4). pstep. injection R4 as Ri4 Rd4 Rl4 Rp4 Rt4 Rc4.
  assert (ptroff d4 = ptroff d) as -> by (rewrite Rt4, Rt3; exact Rt1).
  assert (body e s1 = body e s) as Eb by (unfold body; by rewrite El).
  eexists _, d4, f, _. split_and!; [done|..|exact Hr4| | | | | |].
  4:{ simpl. by rewrite U3, U1. }
  4:{ unfold g_map at 1. cbn [g_slots]. fold (g_map g2). rewrite U3', U1', insert_insert_eq. done. }
  all: try done; try congruence.
  - cbn [s_key]. rewrite Hb2. apply blanks_all_blank.
  - rewrite C4, C3. exact C1.
  - rewrite S4, S3. exact S1.
  - rewrite T4, T3. unfold d2. cbn [trace set_idxfd]. rewrite T1. unfold enc_slot. by rewrite Eb.
Qed.

Lemma dodelete_spec g L M d key l1 o l2 e s :
  repr g d -> db_inv g L M -> L (hidx key) = l1 ++ o :: l2 -> g_map g !! o = Some (e, s) ->
  s_key s = key -> loaded o e s d -> ptroff d = ptr_loc (chain_off key) l1 ->
  exists g' L' d', _db_dodelete d = Ok tt d' /\ repr g' d' /\ db_inv g' L' (delete key M) /\
    chainoff d' = chainoff d /\ counts d' = counts d /\ fsizes d' = fsizes d /\
    trace d' = del_events (ptr_loc (chain_off key) l1) o e s ++ trace d.
Proof.
  intros Hr Hi Hl Hm Hk Hld Hpt. pose proof (hidx_range key) as Hh.
  destruct (inv_off _ _ _ _ _ Hi Hm) as [Hpo Hio0].
  destruct (dodelete_rewrite g d o e s Hr Hm Hld Hpo) as
    (g3 & d4 & f & s2 & Hf & Hn2 & Hb2 & E & Hr4 & Ht3 & Hm3 & Hc4 & Hcn4 & Hs4 & Htr4).
  destruct (tab_lookup _ _ (hidx key) Hr ltac:(lia)) as (p & Hp & _).
  destruct Hi as [Hkl Hct Hcv]. pose proof (k_seg _ _ _ Hkl _ _ Hp) as Hsg.
  pose proof (seg_nodup _ _ _ Hsg) as Hnd. pose proof (payload_lookup _ _ _ _ Hm) as Hpl.
  rewrite Hk in Hpl. pose proof (unlisted_remove L (hidx key) l1 o l2 (k_disj _ _ _ Hkl) ltac:(lia) Hl Hnd) as Hu.
  assert (o ∉ l1) as Ho1.
  { rewrite Hl in Hnd. apply NoDup_app in Hnd as (_ & H & _). intros Hin. eapply H; [done|]. by left. }
  rewrite Hl in Hsg. apply seg_app in Hsg as (q & Hsg & _).
  assert (g_tab g3 !! hidx key = Some p) as Hp3.
  { rewrite Ht3, list_lookup_insert_ne by lia. done. }
  assert (seg (g_map g3) p l1 q) as Hsg3.
  { rewrite Hm3. eapply seg_ext; [|done]. intros x Hx. apply next_at_insert_ne. by intros ->. }
  assert (NoDup l1) as Hnd1 by (rewrite Hl in Hnd; by apply NoDup_app in Hnd as (? & _)).
  destruct (link_write_spec g3 d4 (hidx key) p l1 q (s_next s) Hr4 Hp3 Hsg3 Hnd1
              (ok_next _ _ (r_ok _ _ Hr _ _ _ Hm))) as
    (g4 & d5 & p' & W5 & Hr5 & R5 & C5 & S5 & T5 & Ht5 & Hpl5 & Hs5 & Hm5).
  fold (chain_off key) in W5, T5.
  exists g4, (lset (lset L (hidx key) (l1 ++ l2)) 0 (o :: L 0%nat)), (set_trace (EvLock IDX F_UNLCK FREE_OFF 1 :: trace d5) d5).
  injection R5 as _ _ _ _ _ Rc5. split_and!; try (dbs; congruence).
  - rewrite E, Hpt, (pbind_ok _ _ _ _ _ W5). reflexivity.
  - eapply repr_frame; [exact Hr5|by split].
  - assert (o :: L 0%nat = o :: lset L (hidx key) (l1 ++ l2) 0%nat) as E0 by (by rewrite lset_ne by lia).
    split.
    + eapply (links_move (g_tab g) (g_map g)); try done; [apply Hr|unfold IDX0 in *; lia|..].
      * by rewrite Ht5, Ht3.
      * intros x Hx. rewrite <- Hm3. by apply Hm5.
    + rewrite Hpl5, Hm3, payload_insert, E0. eapply content_push_free; [|apply lookup_insert_eq|done].
      apply content_set_unlisted; [by eapply content_drop_live|done|unfold is_ptr in *; lia].
    + rewrite Hpl5, Hm3, payload_insert, E0. apply covered_push; [|unfold NTAB; lia].
      apply covered_insert; [by apply covered_remove|by left].
  - change (fsizes d5 = fsizes d). congruence.
  - dbs. rewrite T5, Htr4. reflexivity.
Qed.

(** ** Adding a record at the ends of the files *)

(** The record fits: the new index record starts at an offset a pointer can
    hold, and its length is one the format allows.  [sz] are the sizes of
    the two files. *)
Definition fits (sz : Z * Z) (key data : bytes) : Prop :=
  sz.1 <= PTR_MAX /\
  IDXLEN_MIN <= zlen key + 3 + zlen (dec sz.2) + zlen (dec (zlen data + 1)) <= IDXLEN_MAX.

Definition app_events (co o e : Z) (s : slot) : list event :=
  [EvWrite IDX co PTR_SZ;
   EvLock IDX F_UNLCK IDX0 0; EvWrite IDX o (zlen (enc_slot e s)); EvLock IDX F_WRLCK IDX0 0;
   EvLock DAT F_UNLCK 0 0; EvWrite DAT e (s_dlen s); EvLock DAT F_WRLCK 0 0].

(** A key and data the format can hold. *)
Definition valid_key (key : bytes) : Prop := nonul key /\ SEP ∉ key.
Definition valid_data (data : bytes) : Prop := nonul data /\ DATLEN_MIN <= zlen data + 1 <= DATLEN_MAX.

(** A record in no list, its key not in the database, becomes the head of
    the chain of its key. *)
Lemma inv_add g g1 L M o e key data p :
  links (g_tab g) (g_map g) L -> content (payload (g_map g)) L M ->
  covered (payload (g_map g)) L [o] -> length (g_tab g) = NTAB ->
  g_tab g !! hidx key = Some p -> slot_upd g g1 o e (mkSlot p key data) ->
  unlisted L o -> IDX0 <= o <= PTR_MAX -> M !! key = None ->
  db_inv (mkGhost (<[hidx key := o]> (g_tab g1)) (g_slots g1))
    (lset L (hidx key) (o :: L (hidx key))) (<[key := data]> M).
Proof.
  intros Hkl Hct Hcv Ht Hp [U1 U2] Hu Ho HM. pose proof (hidx_range key) as Hh.
  assert (payload (g_map g1) = <[o := (e, key, data)]> (payload (g_map g))) as Hpl.
  { by rewrite U2, payload_insert. }
  split; cbn [g_tab]; unfold g_map; cbn [g_slots]; fold (g_map g1).
  - rewrite U1. eapply links_push; try done; try lia.
    + rewrite U2. by apply links_other.
    + rewrite U2. by rewrite next_at_insert.
    + unfold IDX0 in *. lia.
  - rewrite Hpl. eapply content_push_live; [|apply lookup_insert_eq|done|done].
    by apply content_set_unlisted.
  - rewrite Hpl. apply covered_push; [|lia]. apply covered_insert; [done|by left].
Qed.

Lemma append_link_spec g L M d key data p :
  repr g d -> db_inv g L M -> valid_key key -> valid_data data -> fits (fsizes d) key data ->
  M !! key = None -> g_tab g !! hidx key = Some p ->
  exists g' L' d1 d2 d3, _db_writedat data 0 SEEK_END d = Ok tt d1 /\
    _db_writeidx key 0 SEEK_END p d1 = Ok tt d2 /\
    _db_writeptr (chain_off key) (idxoff d2) d2 = Ok tt d3 /\
    repr g' d3 /\ db_inv g' L' (<[key := data]> M) /\ chainoff d3 = chainoff d /\
    counts d3 = counts d /\ IDX0 <= (fsizes d).1 /\ (fsizes d3).1 <= (fsizes d).1 + SLOT_MAX /\
    trace d3 = app_events (chain_off key) (fsizes d).1 (fsizes d).2 (mkSlot p key data) ++ trace d.
Proof.
  intros Hr Hi [Hk Hsep] [Hd Hdl] [Hf1 Hf2] HM Hp. unfold fsizes in *. cbn [fst snd] in *.
  set (o := zlen (f_bytes (idxfd d))) in *. set (e := zlen (f_bytes (datfd d))) in *.
  assert (is_ptr p) as Hpp.
  { pose proof (r_ptrs _ _ Hr) as H. rewrite Forall_lookup in H. by eapply H. }
  assert (IDXLEN_MIN <= zlen (body e (mkSlot p key data)) <= IDXLEN_MAX) as Hb.
  { unfold body, s_dlen. cbn [s_key s_data]. zl. }
  assert (e < 2 ^ 63) as He.
  { pose proof (data_bound _ _ Hr) as H. fold o e in H. unfold DATLEN_MAX, PTR_MAX in *. lia. }
  destruct (append_spec g d key data p Hr Hk Hsep Hd) as
    (g1 & d1 & d2 & W1 & W2 & Hr2 & [U1 U2] & Hno & Ho0 & R2 & C2 & S2 & T2);
    [unfold DATLEN_MIN in *; lia|done|done|done|].
  fold o e in U2, Hno, R2, T2, Ho0. injection R2 as Ri2 Rd2 Rl2 Rp2 Rt2 Rc2.
  assert (is_ptr o) as Hpo by (unfold is_ptr, IDX0 in *; lia).
  assert (g_tab g1 !! hidx key = Some p) as Hp1 by (by rewrite U1).
  destruct (write_tab_spec g1 d2 (hidx key) p o Hr2 Hp1 Hpo) as (d3 & W3 & Hr3 & R3 & C3 & S3 & T3).
  fold (chain_off key) in W3, T3. destruct Hi as [Hkl Hct Hcv].
  assert (unlisted L o) as Hu.
  { intros i Hin Hoi. destruct (tab_lookup _ _ i Hr Hin) as (q & Hq & _).
    destruct (seg_in _ _ _ _ _ (k_seg _ _ _ Hkl _ _ Hq) Hoi) as (x & Hx & _). congruence. }
  eexists _, (lset L (hidx key) (o :: L (hidx key))), d1, d2, d3. rewrite Ri2.
  split_and!; [done..|exact Hr3| | | |done|change ((fsizes d3).1 <= o + SLOT_MAX); rewrite S3; exact S2|].
  - apply (inv_add g g1 L M o e _ _ p); try done; [|apply Hr].
    eapply covered_more; [exact Hcv|]. set_solver.
  - injection R3 as _ _ _ _ _ ->. done.
  - congruence.
  - by rewrite T3, T2.
Qed.

(** ** [_db_findfree] *)
Lemma findfree_spec g L M d keylen dlen :
  repr g d -> db_inv g L M ->
  exists rc d', _db_findfree keylen dlen d = Ok rc d' /\
    chainoff d' = chainoff d /\ counts d' = counts d /\ fsizes d' = fsizes d /\
    ((rc = -1 /\ repr g d' /\
        trace d' = [EvLock IDX F_UNLCK FREE_OFF 1; EvLock IDX F_WRLCK FREE_OFF 1] ++ trace d) \/
     (rc = 0 /\ exists g' l1 o l2 e s, L 0%nat = l1 ++ o :: l2 /\ unlisted (lset L 0 (l1 ++ l2)) o /\
        g_map g' !! o = Some (e, s) /\ zlen (s_key s) = keylen /\ s_dlen s = dlen /\ repr g' d' /\
        links (g_tab g') (g_map g') (lset L 0 (l1 ++ l2)) /\
        payload (g_map g') = payload (g_map g) /\ (forall i, i <> 0%nat -> g_tab g' !! i = g_tab g !! i) /\
        idxoff d' = o /\ datoff d' = e /\
        trace d' = [EvLock IDX F_UNLCK FREE_OFF 1; EvWrite IDX (ptr_loc FREE_OFF l1) PTR_SZ;
                    EvLock IDX F_WRLCK FREE_OFF 1] ++ trace d)).
Proof.
  intros Hr Hi. unfold _db_findfree, writew_lock, lock_reg, note. pstep.
  set (d1 := set_trace (EvLock IDX F_WRLCK FREE_OFF 1 :: trace d) d).
  assert (repr g d1) as Hr1 by (eapply repr_frame; [exact Hr|by split]).
  destruct (tab_lookup _ _ 0 Hr ltac:(unfold NTAB; lia)) as (f & Hf & Hfp).
  rewrite (pbind_ok _ _ _ _ _ (repr_readptr g d1 0 f Hr1 Hf)). pstep. dbs.
  set (d2 := set_idxfd _ d1).
  assert (repr g d2) as Hr2 by (eapply repr_frame; [exact Hr1|by split]).
  destruct Hi as [Hkl Hct Hcv]. pose proof (k_seg _ _ _ Hkl _ _ Hf) as Hs.
  pose proof (seg_nodup _ _ _ Hs) as Hnd.
  destruct (findfree_loop_spec g keylen dlen (L 0%nat) (chain_fuel d2) f FREE_OFF d2 Hr2 Hs)
    as (d3 & F & Hc & Ht & Hpt & Hres); [by eapply seg_length|].
  assert (fsizes d3 = fsizes d) as Hsz by (unfold fsizes; by rewrite (fr_idx _ _ F), (fr_dat _ _ F)).
  assert (repr g d3) as Hr3 by (by eapply repr_frame).
  destruct Hres as [(l1 & o & e & s & ((l2 & Hl) & Hm & Hts & _) & E & Ho & [Hld _])|[_ (sv & E)]].
  - rewrite (pbind_ok _ _ _ _ _ E). cbn beta iota. rewrite eqb_false by done. pstep.
    injection Hld as Hio Hdo Hdl Hpv. rewrite Hpv.
    apply andb_true_iff in Hts as [Hk1 Hk2]. zbool.
    assert (NoDup l1) as Hnd1 by (rewrite Hl in Hnd; by apply NoDup_app in Hnd as (? & _)).
    pose proof Hs as Hs1. rewrite Hl in Hs1. apply seg_app in Hs1 as (q & Hs1 & _).
    destruct (link_write_spec g d3 0 f l1 q (s_next s) Hr3 Hf Hs1 Hnd1
                (ok_next _ _ (r_ok _ _ Hr _ _ _ Hm))) as
      (g4 & d4 & p' & W4 & Hr4 & R4 & C4 & S4 & T4 & Ht4 & Hpl4 & Hs4 & Hm4).
    rewrite (pbind_ok _ _ _ _ _ W4). pstep. injection R4 as Ri4 Rd4 _ _ _ Rc4.
    exists 0, (set_trace (EvLock IDX F_UNLCK FREE_OFF 1 :: trace d4) d4).
    split_and!; [reflexivity|dbs; rewrite Rc4; apply (fr_chain _ _ F)|dbs; by rewrite C4
                |change (fsizes d4 = fsizes d); congruence|].
    right. split; [done|]. pose proof (unlisted_remove L 0 l1 o l2 (k_disj _ _ _ Hkl) ltac:(unfold NTAB; lia) Hl Hnd) as Hu.
    assert (o ∉ l1) as Ho1.
    { rewrite Hl in Hnd. apply NoDup_app in Hnd as (_ & H & _). intros Hin. eapply H; [done|]. by left. }
    exists g4, l1, o, l2, e, s. split_and!; try done; try (dbs; congruence).
    + by rewrite Hm4.
    + eapply repr_frame; [exact Hr4|by split].
    + eapply (links_remove (g_tab g) (g_map g)); try done; [apply Hr|unfold NTAB; lia|by eapply next_at_lookup].
    + intros i Hi0. rewrite Ht4. by rewrite list_lookup_insert_ne.
    + dbs. by rewrite T4, Ht.
  - rewrite (pbind_ok _ _ _ _ _ E). pstep.
    exists (-1), (set_trace (EvLock IDX F_UNLCK FREE_OFF 1 :: trace d3) d3).
    split_and!; [reflexivity|apply (fr_chain _ _ F)|done|done|]. left. split_and!; [done|..].
    + eapply repr_frame; [exact Hr3|by split].
    + dbs. by rewrite Ht.
Qed.

