(* ===== verification/DbStore.v ===== *)
(** * Storing into the database

    What [store_new] and [store_replace], the two halves of [db_store], do to
    the files, and that their lock requests and writes keep to the lock
    protocol. *)
From S2P Require Import Prelude CString Posix Db DbRep DbInv DbOps DbLocks DbSpec.

(** ** Events that keep to the lock protocol *)
Lemma ptr_loc_ok g L M i l1 o l2 p head :
  db_inv g L M -> g_tab g !! i = Some p -> L i = l1 ++ o :: l2 ->
  ptr_loc head l1 = head \/ IDX0 <= ptr_loc head l1.
Proof.
  intros Hi Hp Hl. unfold ptr_loc. destruct (last l1) as [q|] eqn:E; [right|by left].
  apply last_Some in E as [l' ->]. simpl.
  assert (q ∈ L i) as Hq by (rewrite Hl, !elem_of_app, list_elem_of_singleton; auto).
  destruct (seg_in _ _ _ _ _ (k_seg _ _ _ (i_links _ _ _ Hi) _ _ Hp) Hq) as (x & Hx & _).
  by apply (inv_off _ _ _ _ _ Hi Hx).
Qed.

Lemma del_events_ok key loc o e s :
  loc = chain_off key \/ IDX0 <= loc -> IDX0 <= o -> ev_ok (chain_off key) (del_events loc o e s).
Proof.
  intros Hl Ho. pose proof (chain_off_range key). unfold del_events.
  apply (ev_ok_free _ [EvWrite IDX loc PTR_SZ; EvWrite IDX FREE_OFF PTR_SZ;
    EvWrite IDX o (zlen (enc_slot e s)); EvWrite DAT e (s_dlen s)]); [unfold PTR_SZ in *; lia|].
  repeat (apply Forall_cons; split); simpl; tauto || constructor.
Qed.

Lemma app_events_ok key o e s : IDX0 <= o -> ev_ok (chain_off key) (app_events (chain_off key) o e s).
Proof.
  intros Ho. pose proof (chain_off_range key). unfold PTR_SZ in *.
  apply (ev_ok_app _ [_]); [apply ev_ok_writes; repeat constructor|].
  apply (ev_ok_app _ [_; _; _]); [apply ev_ok_tail; lia|apply ev_ok_dat].
Qed.

(** ** Storing *)

(** Writing a record into the slot of a deleted one, and linking it. *)
Lemma reuse_link_spec g d o e s key data p :
  repr g d -> g_map g !! o = Some (e, s) -> valid_key key -> valid_data data ->
  zlen (s_key s) = zlen key -> s_dlen s = zlen data + 1 -> g_tab g !! hidx key = Some p ->
  idxoff d = o -> is_ptr o -> is_ptr p ->
  exists g' d3 d4 d5 n, _db_writedat data e SEEK_SET d = Ok tt d3 /\ idxoff d3 = o /\
    _db_writeidx key o SEEK_SET p d3 = Ok tt d4 /\ idxoff d4 = o /\ _db_writeptr (chain_off key) o d4 = Ok tt d5 /\
    repr (mkGhost (<[hidx key := o]> (g_tab g')) (g_slots g')) d5 /\ slot_upd g g' o e (mkSlot p key data) /\
    chainoff d5 = chainoff d /\ counts d5 = counts d /\ fsizes d5 = fsizes d /\
    trace d5 = [EvWrite IDX (chain_off key) PTR_SZ; EvWrite IDX o n; EvWrite DAT e (s_dlen s)] ++ trace d.
Proof.
  intros Hr Hm [Hk Hsep] [Hd Hdl'] Hkl Hdl Hp Hio Hoo Hpp. pose proof (hidx_range key) as Hh.
  destruct (write_dat_spec g d o e s data data Hr Hm) as
    (g3 & d3 & W3 & Hr3 & [U3 U3'] & R3 & I3 & C3 & S3 & T3); [by apply cstr_id|unfold s_dlen in *; lia|].
  injection R3 as Ri3 Rd3 Rl3 Rp3 Rt3 Rc3. set (s3 := with_data data s) in *.
  assert (s_dlen s3 = s_dlen s) as El by (unfold s_dlen in *; simpl; lia).
  assert (g_map g3 !! o = Some (e, s3)) as Hm3 by (rewrite U3'; apply lookup_insert_eq).
  destruct (write_idx_spec g3 d3 o e s3 key p Hr3 Hm3 Rd3) as
    (g4 & d4 & W4 & Hr4 & [U4 U4'] & R4 & C4 & S4 & T4);
    [by rewrite El|by rewrite cstr_id|by rewrite cstr_id|done|].
  injection R4 as Ri4 Rd4 Rl4 Rp4 Rt4 Rc4.
  assert (g_tab g4 !! hidx key = Some p) as Hp4 by (by rewrite U4, U3).
  destruct (write_tab_spec g4 d4 (hidx key) p o Hr4 Hp4 Hoo) as (d5 & W5 & Hr5 & R5 & C5 & S5 & T5).
  fold (chain_off key) in W5, T5. injection R5 as _ _ _ _ _ Rc5.
  exists g4, d3, d4, d5. eexists. split_and!; try done.
  - congruence.
  - split; [by rewrite U4, U3|]. by rewrite U4', U3', insert_insert_eq, cstr_id.
  - congruence.
  - congruence.
  - congruence.
  - rewrite T5, T4, T3. done.
Qed.

Lemma store_new_spec g L M d key data :
  repr g d -> db_inv g L M -> valid_key key -> valid_data data -> fits (fsizes d) key data ->
  M !! key = None -> chainoff d = chain_off key ->
  exists g' L' d' c evs, store_new key data (zlen key) (zlen data + 1) d = Ok 0 d' /\
    repr g' d' /\ db_inv g' L' (<[key := data]> M) /\ chainoff d' = chain_off key /\
    counts d' = inc c (counts d) /\ (c = cnt_stor1 \/ c = cnt_stor2) /\
    (fsizes d').1 <= (fsizes d).1 + SLOT_MAX /\ trace d' = evs ++ trace d /\ ev_ok (chain_off key) evs.
Proof.
  intros Hr Hi Hk Hd Hf HM Hco. pose proof (hidx_range key) as Hh.
  pose proof (chain_off_range key) as Hcr.
  destruct (tab_lookup _ _ (hidx key) Hr ltac:(lia)) as (p & Hp & Hpp).
  unfold store_new. pstep. rewrite Hco.
  rewrite (pbind_ok _ _ _ _ _ (repr_readptr g d (hidx key) p Hr Hp)).
  set (d1 := set_idxfd _ d). assert (repr g d1) as Hr1 by (eapply repr_frame; [exact Hr|by split]).
  destruct (findfree_spec g L M d1 (zlen key) (zlen data + 1) Hr1 Hi) as
    (rc & d2 & E & Hc2 & Hn2 & Hs2 & [(-> & Hr2 & T2)|(-> & g2 & l1 & o & l2 & e & s & Hl & Hu & Hm & Hkl & Hdl & Hr2 & Hlk & Hpl & Htb & Hio & Hdo & T2)]);
    rewrite (pbind_ok _ _ _ _ _ E); cbn -[fits zlen].
  - assert (fits (fsizes d2) key data) as Hf2 by (by rewrite Hs2).
    destruct (append_link_spec g L M d2 key data p Hr2 Hi Hk Hd Hf2 HM Hp) as
      (g' & L' & d3 & d4 & d5 & W3 & W4 & W5 & Hr5 & Hi5 & Hc5 & Hn5 & Ho5 & S5 & T5).
    rewrite (pbind_ok _ _ _ _ _ W3), (pbind_ok _ _ _ _ _ W4). pstep. rewrite (pbind_ok _ _ _ _ _ W5).
    exists g', L', (set_counts (inc cnt_stor1 (counts d5)) d5), cnt_stor1.
    eexists. split_and!; [reflexivity|eapply repr_frame; [exact Hr5|by split]|done|dbs; rewrite Hc5, Hc2; exact Hco
                         |dbs; rewrite Hn5, Hn2; done|by left|rewrite Hs2 in S5; exact S5|dbs; by rewrite T5, T2, app_assoc|].
    apply ev_ok_app; [by apply app_events_ok|]. apply (ev_ok_free _ []); [unfold PTR_SZ in *; lia|done].
  - pstep. rewrite Hdo.
    assert (payload (g_map g) !! o = Some (e, s_key s, s_data s)) as Hpo by (rewrite <- Hpl; by apply payload_lookup).
    pose proof (c_off _ _ _ (i_content _ _ _ Hi) o (mk_is_Some _ _ Hpo)) as Hoo.
    assert (g_tab g2 !! hidx key = Some p) as Hp2 by (rewrite Htb by lia; done).
    destruct (reuse_link_spec g2 d2 o e s key data p Hr2 Hm Hk Hd Hkl Hdl Hp2 Hio ltac:(unfold is_ptr, IDX0 in *; lia) Hpp) as
      (g4 & d3 & d4 & d5 & n & W3 & I3 & W4 & I4 & W5 & Hr5 & HU & Rc5 & C5 & S5 & T5).
    rewrite (pbind_ok _ _ _ _ _ W3). pstep. rewrite I3, (pbind_ok _ _ _ _ _ W4). pstep. rewrite I4, (pbind_ok _ _ _ _ _ W5).
    eexists _, _, (set_counts (inc cnt_stor2 (counts d5)) d5), cnt_stor2, ([_; _; _] ++ [_; _; _]).
    split_and!; [reflexivity|eapply repr_frame; [exact Hr5|by split]| |dbs; rewrite Rc5, Hc2; exact Hco
                |dbs; by rewrite C5, Hn2|by right
                |change ((fsizes d5).1 <= (fsizes d).1 + SLOT_MAX); rewrite S5, Hs2;
                 unfold SLOT_MAX, PTR_SZ, IDXLEN_SZ, IDXLEN_MAX; simpl; lia|dbs; rewrite T5, T2; reflexivity|].
    + apply (inv_add g2 g4 (lset L 0 (l1 ++ l2)) M o e key data p); try done.
      * rewrite Hpl. by apply (content_drop_free _ _ _ (i_content _ _ _ Hi) l1 o l2).
      * rewrite Hpl. apply covered_remove; [apply (i_covered _ _ _ Hi)|done].
      * apply Hr2.
    + apply ev_ok_app.
      * apply ev_ok_writes. repeat constructor; tauto.
      * apply (ev_ok_free _ [_]); [unfold PTR_SZ in *; lia|].
        apply Forall_cons; split; [|constructor].
        destruct (tab_lookup _ _ 0 Hr ltac:(unfold NTAB; lia)) as (f & Hf0 & _).
        destruct (ptr_loc_ok g L M 0 l1 o l2 f FREE_OFF Hi Hf0 Hl) as [->|?]; simpl; tauto.
Qed.

Lemma inv_overwrite g g1 L M o e s data key :
  db_inv g L M -> o ∈ L (hidx key) -> g_map g !! o = Some (e, s) -> s_key s = key ->
  slot_upd g g1 o e (with_data data s) -> db_inv g1 L (<[key := data]> M).
Proof.
  intros [Hk Hc Hv] Hin Hm Hks [U1 U2]. pose proof (hidx_range key) as Hh.
  pose proof (payload_lookup _ _ _ _ Hm) as Hpl. rewrite Hks in Hpl.
  assert (payload (g_map g1) = <[o := (e, key, data)]> (payload (g_map g))) as E.
  { by rewrite U2, payload_insert, <- Hks. }
  split; rewrite ?E.
  - destruct Hk as [Hs Hd]. split; [|done]. intros i p. rewrite U1, U2. intros Hp.
    eapply seg_ext; [|by apply Hs]. intros x _. destruct (decide (x = o)) as [->|].
    + rewrite next_at_insert. symmetry. rewrite (next_at_lookup _ _ _ _ Hm). done.
    + by apply next_at_insert_ne.
  - eapply (content_overwrite _ _ _ Hc (hidx key)); try done. apply Hk.
  - by eapply covered_overwrite.
Qed.

(** The data is replaced: in place when the length is the same, otherwise
    the record is deleted and a new one appended. *)
Lemma store_replace_spec g L M d key data l1 o l2 e s :
  repr g d -> db_inv g L M -> valid_key key -> valid_data data -> fits (fsizes d) key data ->
  chainoff d = chain_off key -> L (hidx key) = l1 ++ o :: l2 -> g_map g !! o = Some (e, s) ->
  s_key s = key -> loaded o e s d -> ptroff d = ptr_loc (chain_off key) l1 ->
  exists g' L' d' evs, store_replace key data (zlen data + 1) d = Ok 0 d' /\
    repr g' d' /\ db_inv g' L' (<[key := data]> M) /\ chainoff d' = chain_off key /\
    counts d' = inc (if zlen data =? zlen (s_data s) then cnt_stor4 else cnt_stor3) (counts d) /\
    (fsizes d').1 <= (fsizes d).1 + SLOT_MAX /\ trace d' = evs ++ trace d /\ ev_ok (chain_off key) evs.
Proof.
  intros Hr Hi Hk Hd Hf Hco Hl Hm Hks Hld Hpt. pose proof (hidx_range key) as Hh.
  pose proof (l_regs _ _ _ _ Hld) as Hregs. injection Hregs as _ Hdo Hdl _.
  unfold store_replace. pstep. rewrite Hdl. unfold s_dlen.
  replace (zlen data + 1 =? zlen (s_data s) + 1) with (zlen data =? zlen (s_data s)).
  2:{ apply Bool.eq_iff_eq_true. rewrite !Z.eqb_eq. lia. }
  destruct (Z.eqb_spec (zlen data) (zlen (s_data s))) as [E|E]; cbn [negb].
  - pstep. rewrite Hdo. destruct Hd as [Hd _].
    destruct (write_dat_spec g d o e s data data Hr Hm) as
      (g3 & d3 & W3 & Hr3 & U3 & R3 & I3 & C3 & S3 & T3); [by apply cstr_id|done|].
    rewrite (pbind_ok _ _ _ _ _ W3). injection R3 as _ _ _ _ _ Rc3.
    exists g3, L, (set_counts (inc cnt_stor4 (counts d3)) d3), [EvWrite DAT e (s_dlen s)].
    split_and!; [reflexivity|eapply repr_frame; [exact Hr3|by split]| |dbs; congruence|dbs; by rewrite C3
      |change ((fsizes d3).1 <= (fsizes d).1 + SLOT_MAX); rewrite S3; unfold SLOT_MAX, PTR_SZ, IDXLEN_SZ, IDXLEN_MAX; lia|exact T3|].
    + eapply inv_overwrite; try done. rewrite Hl, elem_of_app, elem_of_cons. auto.
    + apply ev_ok_writes. by repeat constructor.
  - destruct (dodelete_spec g L M d key l1 o l2 e s Hr Hi Hl Hm Hks Hld Hpt) as
      (g2 & L2 & d2 & W2 & Hr2 & Hi2 & Hc2 & Hn2 & Hs2 & T2).
    rewrite (pbind_ok _ _ _ _ _ W2). pstep. rewrite Hc2, Hco.
    destruct (tab_lookup _ _ (hidx key) Hr2 ltac:(lia)) as (p & Hp & _).
    rewrite (pbind_ok _ _ _ _ _ (repr_readptr g2 d2 (hidx key) p Hr2 Hp)).
    set (d2' := set_idxfd _ d2). assert (repr g2 d2') as Hr2' by (eapply repr_frame; [exact Hr2|by split]).
    assert (fsizes d2' = fsizes d) as Hf2 by (by rewrite <- Hs2). rewrite <- Hf2 in Hf.
    destruct (append_link_spec g2 L2 (delete key M) d2' key data p Hr2' Hi2 Hk Hd Hf) as
      (g' & L' & d3 & d4 & d5 & W3 & W4 & W5 & Hr5 & Hi5 & Hc5 & Hn5 & Ho5 & S5 & T5);
      [apply lookup_delete_eq|done|].
    rewrite (pbind_ok _ _ _ _ _ W3), (pbind_ok _ _ _ _ _ W4). pstep. rewrite (pbind_ok _ _ _ _ _ W5).
    exists g', L', (set_counts (inc cnt_stor3 (counts d5)) d5). eexists.
    split_and!; [reflexivity|eapply repr_frame; [exact Hr5|by split]| |dbs; rewrite Hc5; exact (eq_trans Hc2 Hco)
                |dbs; rewrite Hn5; by rewrite <- Hn2|by rewrite Hf2 in S5|dbs; rewrite T5; unfold d2'; dbs; by rewrite T2, app_assoc|].
    + by rewrite insert_delete_eq in Hi5.
    + apply ev_ok_app; [by apply app_events_ok|]. apply del_events_ok; [|by apply (inv_off _ _ _ _ _ Hi Hm)].
      destruct (tab_lookup _ _ (hidx key) Hr ltac:(lia)) as (q & Hq & _).
      by eapply (ptr_loc_ok g L M (hidx key)).
Qed.

(** ** The operations of the database library against a map

    An abstract dictionary (its operations [a_fetch], [a_delete], [a_store]),
    and for each operation of db.c what a call does to a database that stands
    for the map [M]: its result, the statistics, the map the database stands
    for afterwards, and the lock requests and writes it makes. *)
(** ** The abstract dictionary *)
Abbreviation dict := (gmap bytes bytes).

Definition a_delete (M : dict) (key : bytes) : Z * dict :=
  match M !! key with
  | Some _ => (0, delete key M)
  | None => (-1, M)
  end.

Definition a_store (M : dict) (key data : bytes) (flag : Z) : Z * option Z * dict :=
  if bool_decide (flag ∈ [DB_INSERT; DB_REPLACE; DB_STORE]) then
    match M !! key with
    | None => if flag =? DB_REPLACE then (-1, Some ENOENT, M) else (0, None, <[key := data]> M)
    | Some _ => if flag =? DB_INSERT then (1, None, M) else (0, None, <[key := data]> M)
    end
  else (-1, Some EINVAL, M).

(** ** Runs *)
Lemma frame_sizes d d' : frame d d' -> fsizes d' = fsizes d.
Proof. intros []. unfold fsizes. congruence. Qed.

(** A lock request leaves the representation alone. *)
Lemma repr_trace g d tr : repr g d -> repr g (set_trace tr d).
Proof. intros []. by split. Qed.

Lemma repr_counts g d c : repr g d -> repr g (set_counts c d).
Proof. intros []. by split. Qed.

Lemma fetch_run d M key :
  db_rep d M -> nonul key ->
  exists d', db_fetch key d = Ok (M !! key) d' /\ db_rep d' M /\
    f_bytes (idxfd d') = f_bytes (idxfd d) /\ f_bytes (datfd d') = f_bytes (datfd d) /\
    counts d' = inc (if M !! key is Some _ then cnt_fetchok else cnt_fetcherr) (counts d) /\
    trace d' = EvLock IDX F_UNLCK (chain_off key) 1 :: EvLock IDX F_RDLCK (chain_off key) 1 :: trace d.
Proof.
  intros (g & L & Hr & Hi) Hk.
  destruct (find_and_lock_spec g L M d key false Hr Hi Hk) as (rc & d1 & E & Hr1 & F & Hc & Ht & Hres).
  unfold db_fetch. rewrite (pbind_ok _ _ _ _ _ E). pose proof (fr_chain _ _ F) as Hco.
  destruct Hres as [(-> & l1 & l2 & o & e & s & Hl & Hm & Hks & HM & Hld & Hpt)|[-> HM]].
  - destruct (readdat_spec g d1 o e s Hr1 Hm Hld) as (d2 & E2 & F2 & C2 & T2 & _).
    cbn [Z.ltb Z.compare]. pstep. rewrite (pbind_ok _ _ _ _ _ E2).
    eexists. split; [unfold count; pstep; rewrite HM; reflexivity|].
    split; [exists g, L; split; [|done]; by apply repr_trace, repr_counts; eapply repr_frame|].
    dbs. rewrite HM, (fr_idx _ _ F2), (fr_dat _ _ F2), (fr_idx _ _ F), (fr_dat _ _ F), T2, C2, Ht, Hc.
    rewrite (fr_chain _ _ F2), Hco. done.
  - eexists. split; [cbn; rewrite HM; reflexivity|].
    split; [exists g, L; split; [|done]; by apply repr_trace, repr_counts|].
    dbs. rewrite HM, (fr_idx _ _ F), (fr_dat _ _ F), Ht, Hc, Hco. done.
Qed.

Lemma delete_run d M key :
  db_rep d M -> nonul key ->
  exists d' evs, db_delete key d = Ok (a_delete M key).1 d' /\ db_rep d' (a_delete M key).2 /\
    fsizes d' = fsizes d /\ counts d' = inc (if M !! key is Some _ then cnt_delok else cnt_delerr) (counts d) /\
    trace d' = EvLock IDX F_UNLCK (chain_off key) 1 :: evs ++ EvLock IDX F_WRLCK (chain_off key) 1 :: trace d /\
    ev_ok (chain_off key) evs.
Proof.
  intros (g & L & Hr & Hi) Hk. unfold a_delete.
  destruct (find_and_lock_spec g L M d key true Hr Hi Hk) as (rc & d1 & E & Hr1 & F & Hc & Ht & Hres).
  unfold db_delete. rewrite (pbind_ok _ _ _ _ _ E). pose proof (fr_chain _ _ F) as Hco.
  pose proof (frame_sizes _ _ F) as Hs. pose proof (hidx_range key) as Hh.
  destruct Hres as [(-> & l1 & l2 & o & e & s & Hl & Hm & Hks & HM & Hld & Hpt)|[-> HM]]; rewrite HM.
  - destruct (dodelete_spec g L M d1 key l1 o l2 e s Hr1 Hi Hl Hm Hks Hld Hpt) as
      (g2 & L2 & d2 & W2 & Hr2 & Hi2 & Hc2 & Hn2 & Hs2 & T2).
    cbn [Z.eqb]. pstep. rewrite (pbind_ok _ _ _ _ _ W2).
    eexists _, _. split; [unfold count; pstep; reflexivity|].
    split; [exists g2, L2; split; [|done]; by apply repr_trace, repr_counts|].
    split; [change (fsizes d2 = fsizes d); by rewrite Hs2, Hs|].
    dbs. rewrite T2, Hc2, Hn2, Ht, Hc, Hco. split_and!; [done|done|].
    apply del_events_ok; [|by apply (inv_off _ _ _ _ _ Hi Hm)].
    destruct (tab_lookup _ _ (hidx key) Hr ltac:(lia)) as (q & Hq & _).
    by eapply (ptr_loc_ok g L M (hidx key)).
  - eexists _, []. split; [cbn; reflexivity|].
    split; [exists g, L; split; [|done]; by apply repr_trace, repr_counts|].
    split; [done|]. dbs. rewrite Ht, Hc, Hco. split_and!; [done..|apply ev_ok_nil].
Qed.

Lemma store_flag_test flag :
  negb (flag =? DB_INSERT) && negb (flag =? DB_REPLACE) && negb (flag =? DB_STORE)
  = negb (bool_decide (flag ∈ [DB_INSERT; DB_REPLACE; DB_STORE])).
Proof.
  destruct (bool_decide_reflect (flag ∈ [DB_INSERT; DB_REPLACE; DB_STORE])) as [H|H].
  - rewrite !elem_of_cons, elem_of_nil in H. destruct H as [->|[->|[->|[]]]]; done.
  - rewrite !not_elem_of_cons in H. destruct H as (? & ? & ? & _). by rewrite !eqb_false.
Qed.

(** What [db_store] does between taking and releasing the chain lock. *)
Definition store_inner (key data : bytes) (flag found : Z) : Prog DB (Z * option Z) :=
  (if found <? 0 then
     if flag =? DB_REPLACE then
       run count cnt_storerr; pret (-1, Some ENOENT)
     else
       do rc <- store_new key data (zlen key) (zlen data + 1); pret (rc, None)
   else if flag =? DB_INSERT then
     run count cnt_storerr; pret (1, None)
   else
     do rc <- store_replace key data (zlen data + 1); pret (rc, None))%prog.

Lemma db_store_unfold key data flag d :
  nonul key -> valid_data data -> flag ∈ [DB_INSERT; DB_REPLACE; DB_STORE] ->
  db_store key data flag d
  = (do found <- _db_find_and_lock key true;
     do r <- store_inner key data flag found;
     do co <- get chainoff;
     run un_lock IDX co 1;
     pret r)%prog d.
Proof.
  intros Hk [Hd Hdl] Hfl. unfold db_store. rewrite store_flag_test, (bool_decide_true _ Hfl).
  cbn [negb]. unfold strlen. rewrite !cstr_id by done.
  rewrite pbind_guard by (rewrite !ltb_false by lia; done).
  apply pbind_cong; [done|]. intros found d1. apply pbind_cong; [done|]. by intros [] ?.
Qed.

Lemma counts_only_rep g L M d1 c :
  repr g d1 -> db_inv g L M -> db_rep (set_counts (inc c (counts d1)) d1) M.
Proof. intros Hr Hi. exists g, L. split; [by apply repr_counts|done]. Qed.

(** The four branches. *)
Lemma store_inner_run g L M d key data flag found :
  repr g d -> db_inv g L M -> valid_key key -> valid_data data -> fits (fsizes d) key data ->
  flag ∈ [DB_INSERT; DB_REPLACE; DB_STORE] -> chainoff d = chain_off key ->
  (found = 0 /\ exists l1 l2 o e s, L (hidx key) = l1 ++ o :: l2 /\
        g_map g !! o = Some (e, s) /\ s_key s = key /\ M !! key = Some (s_data s) /\
        loaded o e s d /\ ptroff d = ptr_loc (chain_off key) l1) \/ (found = -1 /\ M !! key = None) ->
  exists d' c evs, store_inner key data flag found d = Ok (a_store M key data flag).1 d' /\
    db_rep d' (a_store M key data flag).2 /\ (fsizes d').1 <= (fsizes d).1 + SLOT_MAX /\
    chainoff d' = chain_off key /\
    counts d' = inc c (counts d) /\ (c = cnt_storerr <-> (a_store M key data flag).1.1 <> 0) /\
    trace d' = evs ++ trace d /\ ev_ok (chain_off key) evs.
Proof.
  intros Hr Hi Hk Hd Hf Hfl Hco Hres. unfold store_inner, a_store. rewrite (bool_decide_true _ Hfl).
  assert (forall c, (fsizes (set_counts (inc c (counts d)) d)).1 <= (fsizes d).1 + SLOT_MAX) as Hle.
  { intros c. unfold fsizes, SLOT_MAX, PTR_SZ, IDXLEN_SZ, IDXLEN_MAX. simpl. lia. }
  destruct Hres as [(-> & l1 & l2 & o & e & s & Hl & Hm & Hks & HM & Hld & Hpt)|[-> HM]]; rewrite HM; simpl.
  - destruct (flag =? DB_INSERT).
    + exists (set_counts (inc cnt_storerr (counts d)) d), cnt_storerr, [].
      split_and!; first [done|by eapply counts_only_rep|apply Hle|apply ev_ok_nil].
    + destruct (store_replace_spec g L M d key data l1 o l2 e s) as
        (g' & L' & d' & evs & E & Hr' & Hi' & Hc' & Hn' & Hs' & Ht' & Hev); try done.
      exists d'. eexists _, evs. rewrite (pbind_ok _ _ _ _ _ E).
      split_and!; try done; [by exists g', L'|..]; by destruct (zlen data =? zlen (s_data s)).
  - destruct (flag =? DB_REPLACE).
    + exists (set_counts (inc cnt_storerr (counts d)) d), cnt_storerr, [].
      split_and!; first [done|by eapply counts_only_rep|apply Hle|apply ev_ok_nil].
    + destruct (store_new_spec g L M d key data) as
        (g' & L' & d' & c & evs & E & Hr' & Hi' & Hc' & Hn' & Hcc & Hs' & Ht' & Hev); try done.
      exists d', c, evs. rewrite (pbind_ok _ _ _ _ _ E).
      split_and!; try done; [by exists g', L'|..]; by destruct Hcc as [-> | ->].
Qed.

Lemma store_run d M key data flag :
  db_rep d M -> valid_key key -> valid_data data -> fits (fsizes d) key data ->
  flag ∈ [DB_INSERT; DB_REPLACE; DB_STORE] ->
  exists d' c evs, db_store key data flag d = Ok (a_store M key data flag).1 d' /\
    db_rep d' (a_store M key data flag).2 /\ (fsizes d').1 <= (fsizes d).1 + SLOT_MAX /\
    counts d' = inc c (counts d) /\ (c = cnt_storerr <-> (a_store M key data flag).1.1 <> 0) /\
    trace d' = EvLock IDX F_UNLCK (chain_off key) 1 :: evs ++ EvLock IDX F_WRLCK (chain_off key) 1 :: trace d /\
    ev_ok (chain_off key) evs.
Proof.
  intros (g & L & Hr & Hi) Hk Hd Hf Hfl. rewrite db_store_unfold by (done || apply Hk).
  destruct (find_and_lock_spec g L M d key true Hr Hi (proj1 Hk)) as (rc & d1 & E & Hr1 & F & Hc & Ht & Hres).
  rewrite (pbind_ok _ _ _ _ _ E). pose proof (fr_chain _ _ F) as Hco.
  assert (fsizes d1 = fsizes d) as Hs by apply (frame_sizes _ _ F). rewrite <- Hs in Hf.
  destruct (store_inner_run g L M d1 key data flag rc Hr1 Hi Hk Hd Hf Hfl Hco Hres) as
    (d2 & c & evs & E2 & (g2 & L2 & Hr2 & Hi2) & Hs2 & Hc2 & Hn2 & Hcc & Ht2 & Hev).
  rewrite (pbind_ok _ _ _ _ _ E2).
  exists (set_trace (EvLock IDX F_UNLCK (chainoff d2) 1 :: trace d2) d2), c, evs.
  split; [reflexivity|]. split; [exists g2, L2; split; [by apply repr_trace|done]|].
  split; [rewrite <- Hs; exact Hs2|]. dbs. rewrite Hc2, Ht2, Ht, Hn2, Hc. done.
Qed.
