(* ===== verification/DbSeq.v ===== *)
(** * Sequential access to the database

    [db_rewind] and [db_nextrec]: a scan of the index file returns every
    record of the database whose key is not all blanks, once. *)
From S2P Require Import Prelude CString Posix Db DbRep DbInv DbOps DbLocks DbSpec DbStore.

Open Scope prog_scope.

Lemma layout_at o e l1 s l2 :
  layout o e (l1 ++ s :: l2) !! (o + zlen (enc_slots e l1)) = Some (e + zlen (enc_data l1), s).
Proof.
  revert o e. induction l1 as [|t l1 IH]; intros o e; simpl.
  - change (zlen (enc_data [])) with 0. change (zlen []) with 0. by rewrite !Z.add_0_r, lookup_insert_eq.
  - pose proof (enc_slot_pos e t). pose proof (zlen_nonneg (enc_slots (e + s_dlen t) l1)).
    rewrite zlen_app, enc_data_cons_length, !Z.add_assoc, lookup_insert_ne by lia. apply IH.
Qed.

(** The records from [l2] on are still to be read. *)
Definition at_rest (g : ghost) (l2 : list slot) (d : DB) : Prop :=
  exists l1, g_slots g = l1 ++ l2 /\ f_pos (idxfd d) = IDX0 + zlen (enc_slots 0 l1).

Definition is_blank (s : slot) : bool := all_blank (s_key s).

Lemma readidx_next g s l2 d :
  repr g d -> at_rest g (s :: l2) d ->
  exists o e d', g_map g !! o = Some (e, s) /\ _db_readidx 0 d = Ok (s_next s) d' /\ frame d d' /\
    loaded o e s d' /\ at_rest g l2 d' /\ counts d' = counts d /\ trace d' = trace d.
Proof.
  intros Hr (l1 & Hs & Hp). set (o := IDX0 + zlen (enc_slots 0 l1)) in *.
  assert (g_map g !! o = Some (0 + zlen (enc_data l1), s)) as Hm.
  { unfold g_map. rewrite Hs. apply layout_at. }
  destruct (readidx_spec g d o _ s 0 Hr Hm) as (d' & E & F & Hl & _ & Hc & Ht & Hp'); [by right|].
  eexists o, _, d'. split_and!; try done. exists (l1 ++ [s]). split; [by rewrite <- app_assoc|].
  rewrite Hp', enc_slots_app. unfold o. simpl. rewrite app_nil_r. zl.
Qed.

Lemma readidx_eof g d :
  repr g d -> at_rest g [] d ->
  exists d', _db_readidx 0 d = Ok (-1) d' /\ frame d d' /\ at_rest g [] d' /\
    counts d' = counts d /\ trace d' = trace d.
Proof.
  intros Hr (l1 & Hs & Hp). rewrite app_nil_r in Hs. subst l1.
  assert (zlen (f_bytes (idxfd d)) = f_pos (idxfd d)) as Hlen.
  { rewrite (r_idx _ _ Hr), zlen_app, Hp, enc_tab_length by apply Hr. done. }
  pose proof (zlen_nonneg (f_bytes (idxfd d))) as H0.
  eexists. split.
  { unfold _db_readidx. rewrite Z.eqb_refl. unfold pbind at 1, sys_lseek, lseek. cbn [fileof].
    rewrite Z.add_0_r, ltb_false by lia. pstep. unfold pbind at 1, sys_read, fread. dbs.
    rewrite slice_past by lia. reflexivity. }
  split_and!; try (by split). exists (g_slots g). rewrite app_nil_r. dbs. split; [done|]. zl.
Qed.

Lemma nextrec_loop_spec g l2 fuel d :
  repr g d -> at_rest g l2 d -> (length l2 < fuel)%nat ->
  exists d', frame d d' /\ counts d' = counts d /\ trace d' = trace d /\
   match list_find (fun s => is_blank s = false) l2 with
   | Some (i, s) => nextrec_loop fuel d = Ok (Some tt) d' /\ at_rest g (drop (S i) l2) d' /\
       exists o e, g_map g !! o = Some (e, s) /\ loaded o e s d'
   | None => nextrec_loop fuel d = Ok None d' /\ at_rest g [] d'
   end.
Proof.
  revert fuel d. induction l2 as [|s l2 IH]; intros [|fuel] d Hr Ha Hf; simpl in *; try lia.
  - destruct (readidx_eof g d Hr Ha) as (d' & E & F & Ha' & Hc & Ht).
    exists d'. rewrite (pbind_ok _ _ _ _ _ E). done.
  - destruct (readidx_next g s l2 d Hr Ha) as (o & e & d1 & Hm & E & F & Hl & Ha1 & Hc & Ht).
    rewrite (pbind_ok _ _ _ _ _ E). pose proof (ok_next _ _ (r_ok _ _ Hr _ _ _ Hm)) as [Hn _].
    rewrite ltb_false by done. pstep. rewrite (l_key _ _ _ _ Hl). fold (is_blank s).
    destruct (is_blank s) eqn:Eb.
    + rewrite decide_False by done.
      destruct (IH fuel d1) as (d2 & F2 & Hc2 & Ht2 & Hres); [by eapply repr_frame|done|lia|].
      exists d2. split; [by etrans|]. split; [congruence|]. split; [congruence|].
      destruct (list_find _ l2) as [[i t]|]; simpl; exact Hres.
    + rewrite decide_True by done. exists d1. split_and!; try done. by exists o, e.
Qed.

(** The result of [db_nextrec] when [l2] is still to be read. *)
Lemma nextrec_run g l2 d :
  repr g d -> at_rest g l2 d ->
  exists d', frame d d' /\
    trace d' = EvLock IDX F_UNLCK FREE_OFF 1 :: EvLock IDX F_RDLCK FREE_OFF 1 :: trace d /\
    match list_find (fun s => is_blank s = false) l2 with
    | Some (i, s) => db_nextrec d = Ok (Some (s_key s, s_data s)) d' /\ at_rest g (drop (S i) l2) d' /\
                       counts d' = inc cnt_nextrec (counts d)
    | None => db_nextrec d = Ok None d' /\ at_rest g [] d' /\ counts d' = counts d
    end.
Proof.
  intros Hr Ha. unfold db_nextrec, readw_lock, lock_reg, note. pstep. dbs.
  set (d1 := set_trace _ d). assert (frame d d1) as F1 by (by split).
  pose proof (repr_frame _ _ _ Hr F1) as Hr1.
  destruct (nextrec_loop_spec g l2 (chain_fuel d1) d1 Hr1 Ha) as (d2 & F2 & Hc & Ht & Hres).
  { destruct Ha as (l1 & Hs & _). unfold chain_fuel. rewrite (r_idx _ _ Hr1), length_app.
    pose proof (enc_slots_count 0 (g_slots g)) as Hn. rewrite Hs in Hn at 1. rewrite length_app in Hn.
    unfold zlen in Hn. lia. }
  pose proof (repr_frame _ _ _ Hr1 F2) as Hr2.
  destruct (list_find _ l2) as [[i s]|].
  - destruct Hres as (E & Ha2 & o & e & Hm & Hl). rewrite (pbind_ok _ _ _ _ _ E). pstep.
    destruct (readdat_spec g d2 o e s Hr2 Hm Hl) as (d3 & E3 & F3 & Hc3 & Ht3 & Hp3).
    rewrite (pbind_ok _ _ _ _ _ E3). unfold count. pstep. rewrite (l_key _ _ _ _ Hl).
    eexists. split; [|split; [|split; [reflexivity|]]].
    + etrans; [exact F1|]. etrans; [exact F2|]. etrans; [exact F3|]. by split.
    + dbs. by rewrite Ht3, Ht.
    + split; [|dbs; by rewrite Hc3, Hc]. destruct Ha2 as (l1 & Hs & Hp). exists l1. dbs. by rewrite Hp3.
  - destruct Hres as (E & Ha2). rewrite (pbind_ok _ _ _ _ _ E). pstep.
    eexists. split; [|split; [|split; [reflexivity|]]].
    + etrans; [exact F1|]. etrans; [exact F2|]. by split.
    + dbs. by rewrite Ht.
    + split; [|dbs; by rewrite Hc]. destruct Ha2 as (l1 & Hs & Hp). by exists l1.
Qed.

(** ** A whole scan *)
Fixpoint scan (fuel : nat) : Prog DB (list (bytes * bytes)) :=
  match fuel with
  | O => die "scan: out of fuel"
  | S fuel =>
      do r <- db_nextrec;
      match r with
      | None => pret []
      | Some kv => do l <- scan fuel; pret (kv :: l)
      end
  end.

Definition kv (s : slot) : bytes * bytes := (s_key s, s_data s).

Lemma filter_find (l : list slot) :
  filter (fun s => is_blank s = false) l
  = match list_find (fun s => is_blank s = false) l with
    | Some (i, s) => s :: filter (fun s => is_blank s = false) (drop (S i) l)
    | None => []
    end.
Proof.
  induction l as [|s l IH]; [done|]. rewrite filter_cons. simpl.
  destruct (is_blank s); simpl; [|done].
  rewrite IH. by destruct (list_find _ l) as [[i t]|].
Qed.

Lemma scan_run g fuel l2 d :
  repr g d -> at_rest g l2 d -> (length l2 < fuel)%nat ->
  exists d', scan fuel d = Ok (kv <$> filter (fun s => is_blank s = false) l2) d' /\ frame d d'.
Proof.
  revert l2 d. induction fuel as [|fuel IH]; intros l2 d Hr Ha Hf; [lia|].
  destruct (nextrec_run g l2 d Hr Ha) as (d1 & F1 & _ & Hres). rewrite filter_find. simpl.
  destruct (list_find _ l2) as [[i s]|] eqn:E.
  - destruct Hres as (E1 & Ha1 & _). rewrite (pbind_ok _ _ _ _ _ E1).
    apply list_find_Some in E as (E & _). apply lookup_lt_Some in E.
    destruct (IH (drop (S i) l2) d1) as (d2 & E2 & F2); [by eapply repr_frame|done|rewrite length_drop; lia|].
    exists d2. rewrite (pbind_ok _ _ _ _ _ E2). split; [done|by etrans].
  - destruct Hres as (E1 & _). exists d1. by rewrite (pbind_ok _ _ _ _ _ E1).
Qed.

Lemma rewind_run g d :
  repr g d -> exists d', db_rewind d = Ok tt d' /\ frame d d' /\ at_rest g (g_slots g) d' /\
    counts d' = counts d /\ trace d' = trace d.
Proof.
  intros Hr. eexists. split.
  { unfold db_rewind. pstep. rewrite (r_nhash _ _ Hr). reflexivity. }
  split_and!; try done. exists []. done.
Qed.

(** A record whose key is not all blanks is in the map. *)
Lemma live_slot g L M o e s :
  db_inv g L M -> g_map g !! o = Some (e, s) -> is_blank s = false ->
  o ∈ L (hidx (s_key s)) /\ M !! s_key s = Some (s_data s).
Proof.
  intros Hi Hm Hb. pose proof (payload_lookup _ _ _ _ Hm) as Hp.
  destruct (i_covered _ _ _ Hi o (mk_is_Some _ _ Hp)) as [[]%elem_of_nil|(i & Hn & Hin)].
  destruct (decide (i = 0%nat)) as [->|H0].
  - pose proof (c_blank _ _ _ (i_content _ _ _ Hi) _ _ _ _ Hin Hp) as Hb'.
    unfold is_blank in Hb. congruence.
  - destruct (c_live _ _ _ (i_content _ _ _ Hi) i _ _ _ _ ltac:(lia) Hin Hp) as [<- ?]. done.
Qed.

Lemma slots_nodup g L M l1 l2 :
  db_inv g L M -> g_slots g = l1 ++ l2 -> NoDup (kv <$> filter (fun s => is_blank s = false) l2).
Proof.
  intros Hi. revert l1. induction l2 as [|s l2 IH]; intros l1 Hs; [constructor|].
  assert (NoDup (kv <$> filter (fun s => is_blank s = false) l2)) as Hn.
  { apply (IH (l1 ++ [s])). by rewrite <- app_assoc. }
  rewrite filter_cons. case_decide as Hb; [|done]. rewrite fmap_cons. constructor; [|done].
  intros (t & E & (Hbt & (a & b & ->)%list_elem_of_split)%list_elem_of_filter)%list_elem_of_fmap.
  injection E as Hk Hd.
  pose proof (layout_at IDX0 0 l1 s (a ++ t :: b)) as H1. rewrite <- Hs in H1.
  pose proof (layout_at IDX0 0 (l1 ++ s :: a) t b) as H2.
  rewrite <- app_assoc in H2. simpl in H2. rewrite <- Hs in H2. fold (g_map g) in H1, H2.
  destruct (live_slot _ _ _ _ _ _ Hi H1 Hb) as [L1 _].
  destruct (live_slot _ _ _ _ _ _ Hi H2 Hbt) as [L2 _]. rewrite <- Hk in L2.
  apply payload_lookup in H1, H2. rewrite <- Hk in H2.
  pose proof (c_uniq _ _ _ (i_content _ _ _ Hi) _ _ _ _ _ _ _ _ (hidx_range (s_key s)) L1 L2 H1 H2) as E.
  rewrite enc_slots_app in E. simpl in E. rewrite !zlen_app in E.
  pose proof (enc_slot_pos (0 + zlen (enc_data l1)) s).
  match type of E with context [zlen (enc_slots ?x a)] => pose proof (zlen_nonneg (enc_slots x a)) end.
  simpl in *. lia.
Qed.

Lemma slots_perm g L M :
  db_inv g L M ->
  kv <$> filter (fun s => is_blank s = false) (g_slots g)
  ≡ₚ map_to_list (filter (fun x => all_blank x.1 = false) M).
Proof.
  intros Hi. apply NoDup_Permutation; [by apply (slots_nodup g L M [])|apply NoDup_map_to_list|].
  intros [k v]. rewrite elem_of_map_to_list, map_lookup_filter_Some, list_elem_of_fmap. split.
  - intros (s & E & (Hb & (l1 & l2 & Hs)%list_elem_of_split)%list_elem_of_filter). injection E as -> ->.
    pose proof (layout_at IDX0 0 l1 s l2) as H1. rewrite <- Hs in H1. fold (g_map g) in H1.
    by destruct (live_slot _ _ _ _ _ _ Hi H1 Hb).
  - intros [HM Hb]. destruct (c_map _ _ _ (i_content _ _ _ Hi) _ _ HM) as (o & e & _ & Hp).
    destruct (payload_inv _ _ _ _ _ Hp) as (s & Hm & <- & <-).
    destruct (layout_split _ _ _ _ _ _ Hm) as (l1 & l2 & Hs & _).
    exists s. split; [done|]. apply list_elem_of_filter. split; [done|]. rewrite Hs, elem_of_app, elem_of_cons. auto.
Qed.

(** ** Opening and closing the database

    [db_open] with [O_CREAT] and [O_TRUNC] makes an empty database;
    [db_close] followed by [db_open] gives back the same map. *)
(** ** A new database *)
Definition empty_ghost : ghost := mkGhost (replicate NTAB 0) [].

Lemma empty_inv : db_inv empty_ghost (fun _ => []) ∅.
Proof.
  assert (g_map empty_ghost = ∅) as E by done.
  split.
  - split; [|by intros i j o _ _ []%elem_of_nil]. intros i p [-> _]%lookup_replicate. done.
  - split.
    + by intros i o e k v _ []%elem_of_nil.
    + by intros i o1 e1 v1 o2 e2 v2 k _ []%elem_of_nil.
    + intros k v. by rewrite lookup_empty.
    + by intros o e k v []%elem_of_nil.
    + intros o. rewrite E. unfold payload. rewrite fmap_empty, lookup_empty. by intros [].
  - intros o. rewrite E. unfold payload. rewrite fmap_empty, lookup_empty. by intros [].
Qed.

(** The handle [db_open] sets up before it looks at the index file. *)
Definition new_handle (pathname idx dat : bytes) : DB :=
  set_name (pathname ++ suffix_dat)
    (set_hashoff HASH_OFF (set_nhash NHASH_DEF (_db_alloc idx dat))).

Lemma new_handle_repr g pathname :
  length (g_tab g) = NTAB -> Forall is_ptr (g_tab g) ->
  (forall o e s, g_map g !! o = Some (e, s) -> slot_ok e s) ->
  repr g (new_handle pathname (enc_tab (g_tab g) ++ enc_slots 0 (g_slots g)) (enc_data (g_slots g))).
Proof. intros. by split. Qed.

Definition both : Z := Z.lor O_CREAT O_TRUNC.

Lemma both_flags oflag :
  Z.land oflag both = both -> has_flag oflag O_CREAT = true /\ has_flag oflag O_TRUNC = true.
Proof.
  intros H. unfold has_flag. split.
  - change O_CREAT with (Z.land both O_CREAT). by rewrite Z.land_assoc, H.
  - change O_TRUNC with (Z.land both O_TRUNC). by rewrite Z.land_assoc, H.
Qed.

Lemma suffixes_differ (path : bytes) : path ++ suffix_idx <> path ++ suffix_dat.
Proof. by intros ?%(inj (app path)). Qed.

(** Opening gives an empty file: it is truncated, or it is new. *)
Lemma open_file_empty fs path oflag :
  Z.land oflag both = both -> has_flag oflag O_EXCL = false \/ fs !! path = None ->
  open_file fs path oflag = (<[path := []]> fs, Some []).
Proof.
  intros [H1 H2]%both_flags Hx. unfold open_file. rewrite H1, H2.
  destruct (fs !! path); [|done]. destruct Hx as [-> | ?]; done.
Qed.

Lemma empty_index_length : zlen empty_index = IDX0.
Proof. by vm_compute. Qed.

Lemma empty_index_enc : empty_index = enc_tab (g_tab empty_ghost).
Proof. by vm_compute. Qed.

Lemma init_run pathname oflag :
  Z.land oflag both = both ->
  exists d, (run db_init oflag; db_rewind) (new_handle pathname [] []) = Ok tt d /\
    db_rep d ∅ /\ fsizes d = (IDX0, 0) /\ at_rest empty_ghost [] d /\ counts d = (fun _ => 0) /\
    trace d = [EvLock IDX F_UNLCK 0 0; EvWrite IDX 0 IDX0; EvLock IDX F_WRLCK 0 0].
Proof.
  intros H. unfold db_init. fold both. rewrite H, Z.eqb_refl.
  unfold writew_lock, un_lock, lock_reg, note. pstep. dbs.
  change (zlen (f_bytes (idxfd (new_handle pathname [] []))) =? 0) with true. cbn beta iota. pstep.
  unfold sys_write at 1. unfold pbind at 1. unfold fwrite. dbs.
  change (f_bytes (idxfd (new_handle pathname [] []))) with (@nil Z).
  change (f_pos (idxfd (new_handle pathname [] []))) with 0.
  rewrite splice_end by done. rewrite !empty_index_length, pbind_guard by done. pstep. dbs.
  match goal with |- context [db_rewind ?x] => set (d1 := x) end.
  assert (repr empty_ghost d1) as Hr.
  { split; [|done|done|by apply Forall_replicate|done|done|done|done|done]. unfold d1. dbs. rewrite app_nil_l, empty_index_enc.
    symmetry. apply app_nil_r. }
  destruct (rewind_run _ _ Hr) as (d & E & F & Ha & Hc & Ht). exists d. split_and!; [done| |rewrite (frame_sizes _ _ F); unfold fsizes, d1; dbs; by rewrite app_nil_l, empty_index_length|done|done|done].
  exists empty_ghost, (fun _ => []). split; [by eapply repr_frame|apply empty_inv].
Qed.

Lemma open_create_run fs pathname oflag :
  Z.land oflag both = both ->
  has_flag oflag O_EXCL = false \/
    (fs !! (pathname ++ suffix_idx) = None /\ fs !! (pathname ++ suffix_dat) = None) ->
  exists fs' d, db_open fs pathname oflag = (fs', Some (Ok tt d)) /\ db_rep d ∅ /\
    fs' = <[pathname ++ suffix_dat := []]> (<[pathname ++ suffix_idx := []]> fs) /\
    fsizes d = (IDX0, 0) /\ at_rest empty_ghost [] d /\ counts d = (fun _ => 0) /\
    trace d = [EvLock IDX F_UNLCK 0 0; EvWrite IDX 0 IDX0; EvLock IDX F_WRLCK 0 0].
Proof.
  intros H Hx. destruct (init_run pathname oflag H) as (d & E & Hrep & Hsz & Ha & Hc & Ht).
  unfold db_open. rewrite open_file_empty by (done || naive_solver).
  rewrite open_file_empty; [|done|].
  - fold (new_handle pathname [] []). rewrite E. eauto 10.
  - destruct Hx as [Hx|[_ Hx]]; [by left|right]. rewrite lookup_insert_ne by apply suffixes_differ. done.
Qed.

(** ** An existing one *)
Lemma open_file_keep fs path oflag b :
  fs !! path = Some b -> has_flag oflag O_TRUNC = false ->
  has_flag oflag O_CREAT && has_flag oflag O_EXCL = false -> open_file fs path oflag = (fs, Some b).
Proof. intros H1 H2 H3. unfold open_file. by rewrite H1, H3, H2. Qed.

Lemma no_trunc_no_init oflag :
  has_flag oflag O_TRUNC = false -> (Z.land oflag both =? both) = false.
Proof.
  intros H. apply Z.eqb_neq. intros [_ ?]%both_flags. congruence.
Qed.

Lemma reopen_run fs pathname oflag d M :
  db_rep d M -> has_flag oflag O_TRUNC = false -> has_flag oflag O_CREAT && has_flag oflag O_EXCL = false ->
  let fs' := db_close fs pathname d in
  exists d', db_open fs' pathname oflag = (fs', Some (Ok tt d')) /\ db_rep d' M /\ trace d' = [].
Proof.
  intros (g & L & Hr & Hi) H1 H2 fs'.
  set (d0 := new_handle pathname (f_bytes (idxfd d)) (f_bytes (datfd d))).
  assert (repr g d0) as Hr0.
  { unfold d0. rewrite (r_idx _ _ Hr), (r_dat _ _ Hr). apply new_handle_repr; apply Hr. }
  destruct (rewind_run g d0 Hr0) as (d' & E & F & _ & _ & Ht).
  exists d'. unfold db_open.
  rewrite (open_file_keep fs' _ oflag (f_bytes (idxfd d))); [|..|done|done].
  2:{ unfold fs', db_close, _db_free. rewrite lookup_insert_ne by (symmetry; apply suffixes_differ).
      apply lookup_insert_eq. }
  rewrite (open_file_keep fs' _ oflag (f_bytes (datfd d))); [|apply lookup_insert_eq|done|done].
  fold (new_handle pathname (f_bytes (idxfd d)) (f_bytes (datfd d))). fold d0.
  unfold db_init. fold both. rewrite (no_trunc_no_init _ H1). pstep. rewrite E.
  split_and!; [done| |done]. exists g, L. split; [by eapply repr_frame|done].
Qed.
