(* ===== verification/DbThms.v ===== *)
(** * The properties of the database library

    The theorems a client of apue.3e/db/db.c relies on, each with an
    instance on a concrete database. *)
From S2P Require Import Prelude CString Posix Db DbRep DbInv DbOps DbLocks DbSpec.
From S2P Require Import DbStore DbSeq.

Open Scope prog_scope.

(** ** Sequences of operations *)
Inductive op :=
| Fetch (key : bytes)
| Delete (key : bytes)
| Store (key data : bytes) (flag : Z).

Inductive res :=
| RFetch (r : option bytes)
| RDelete (rc : Z)
| RStore (rc : Z * option Z).

Definition run_op (o : op) : Prog DB res :=
  match o with
  | Fetch key => do r <- db_fetch key; pret (RFetch r)
  | Delete key => do r <- db_delete key; pret (RDelete r)
  | Store key data flag => do r <- db_store key data flag; pret (RStore r)
  end.

Fixpoint run_ops (l : list op) : Prog DB (list res) :=
  match l with
  | [] => pret []
  | o :: l => do r <- run_op o; do rs <- run_ops l; pret (r :: rs)
  end.

Definition a_op (o : op) (M : dict) : res * dict :=
  match o with
  | Fetch key => (RFetch (M !! key), M)
  | Delete key => let '(rc, M') := a_delete M key in (RDelete rc, M')
  | Store key data flag => let '(rc, M') := a_store M key data flag in (RStore rc, M')
  end.

Fixpoint a_ops (l : list op) (M : dict) : list res * dict :=
  match l with
  | [] => ([], M)
  | o :: l => let '(r, M1) := a_op o M in let '(rs, M2) := a_ops l M1 in (r :: rs, M2)
  end.

(** Arguments the format can hold whatever the sizes of the files: 18 bytes
    of an index record are enough for the separators, the newline, a data
    offset of 11 digits and a data length of 4. *)
Definition KEY_MAX : Z := IDXLEN_MAX - 18.

Definition op_ok (o : op) : Prop :=
  match o with
  | Fetch key | Delete key => nonul key
  | Store key data _ => valid_key key /\ 1 <= zlen key <= KEY_MAX /\ valid_data data
  end.

Lemma fits_bounded d M key data :
  db_rep d M -> (fsizes d).1 <= PTR_MAX -> 1 <= zlen key <= KEY_MAX -> valid_data data ->
  fits (fsizes d) key data.
Proof.
  intros (g & L & Hr & _) Hs Hk [_ Hd]. split; [done|].
  pose proof (data_bound _ _ Hr) as Hb. pose proof (zlen_nonneg (f_bytes (datfd d))) as H0.
  pose proof (dec_length_pos (fsizes d).2). pose proof (dec_length_pos (zlen data + 1)).
  unfold fsizes, KEY_MAX, PTR_MAX, DATLEN_MIN, DATLEN_MAX, IDXLEN_MIN, IDXLEN_MAX in *. cbn [fst snd] in *.
  pose proof (dec_length (zlen (f_bytes (datfd d))) 11 ltac:(lia) ltac:(lia)).
  pose proof (dec_length (zlen data + 1) 4 ltac:(lia) ltac:(lia)). lia.
Qed.

(** One operation: the result of the dictionary, the map of the dictionary,
    and the lock protocol. *)
Lemma op_run o d M :
  db_rep d M -> op_ok o -> (fsizes d).1 <= PTR_MAX ->
  exists d', run_op o d = Ok (a_op o M).1 d' /\ db_rep d' (a_op o M).2 /\
    (fsizes d').1 <= (fsizes d).1 + SLOT_MAX /\
    (unlocked (trace d) -> locked_writes (trace d) -> unlocked (trace d') /\ locked_writes (trace d')).
Proof.
  intros Hrep Ho Hs. assert (0 <= SLOT_MAX) as H0 by done.
  assert (forall co evs tr, ev_ok co evs -> unlocked tr -> locked_writes tr ->
    unlocked (EvLock IDX F_UNLCK co 1 :: evs ++ EvLock IDX F_WRLCK co 1 :: tr) /\
    locked_writes (EvLock IDX F_UNLCK co 1 :: evs ++ EvLock IDX F_WRLCK co 1 :: tr)) as Hbr.
  { intros co evs tr Hev Hu Hl. destruct (Hev _ (holds_lock co tr Hu) Hl) as [H1 H2].
    split; [by apply holds_unlock|exact H2]. }
  destruct o as [key|key|key data flag]; cbn [run_op a_op op_ok] in *.
  - destruct (fetch_run d M key Hrep Ho) as (d' & E & Hr' & Hi & Hd & _ & Ht).
    exists d'. rewrite (pbind_ok _ _ _ _ _ E). split_and!; [done|done|unfold fsizes in *; cbn [fst snd] in *; rewrite Hi; lia|].
    rewrite Ht. intros Hu Hl. split; [by apply unlocked_bracket|exact Hl].
  - destruct (delete_run d M key Hrep Ho) as (d' & evs & E & Hr' & Hz & _ & Ht & Hev).
    exists d'. rewrite (pbind_ok _ _ _ _ _ E). destruct (a_delete M key) as [rc M'].
    split_and!; [done|done|rewrite Hz; lia|]. rewrite Ht. by apply Hbr.
  - destruct Ho as (Hk & Hkl & Hd).
    destruct (bool_decide_reflect (flag ∈ [DB_INSERT; DB_REPLACE; DB_STORE])) as [Hf|Hf].
    + destruct (store_run d M key data flag Hrep Hk Hd) as
        (d' & c & evs & E & Hr' & Hz & _ & _ & Ht & Hev); [by eapply fits_bounded|done|].
      exists d'. rewrite (pbind_ok _ _ _ _ _ E). destruct (a_store M key data flag) as [rc M'].
      split_and!; [done..|]. rewrite Ht. by apply Hbr.
    + exists d. unfold db_store, a_store. rewrite store_flag_test, bool_decide_false by done.
      split_and!; [done|done|lia|done].
Qed.

Lemma ops_run l d M :
  db_rep d M -> Forall op_ok l -> (fsizes d).1 + SLOT_MAX * zlen l <= PTR_MAX ->
  exists d', run_ops l d = Ok (a_ops l M).1 d' /\ db_rep d' (a_ops l M).2 /\
    (unlocked (trace d) -> locked_writes (trace d) -> unlocked (trace d') /\ locked_writes (trace d')).
Proof.
  intros Hrep Hl. revert d M Hrep. induction Hl as [|o l Ho Hl IH]; intros d M Hrep Hs; [by exists d|].
  assert (0 <= SLOT_MAX * zlen l) as H0 by (pose proof (zlen_nonneg l); unfold SLOT_MAX, PTR_SZ, IDXLEN_SZ, IDXLEN_MAX; lia).
  rewrite zlen_cons in Hs.
  destruct (op_run o d M Hrep Ho) as (d1 & E1 & Hr1 & Hs1 & Hl1).
  { unfold SLOT_MAX, PTR_SZ, IDXLEN_SZ, IDXLEN_MAX in *. lia. }
  simpl. rewrite (pbind_ok _ _ _ _ _ E1). destruct (a_op o M) as [r M1]. cbn [fst snd] in *.
  destruct (IH d1 M1 Hr1) as (d2 & E2 & Hr2 & Hl2); [lia|].
  rewrite (pbind_ok _ _ _ _ _ E2). destruct (a_ops l M1) as [rs M2]. exists d2.
  split_and!; [done|done|]. intros Hu Hw. destruct (Hl1 Hu Hw). by apply Hl2.
Qed.

(** ** The program t4.c *)
Definition t4_store (key data err : string) : Prog DB unit :=
  do r <- db_store (lit key) (lit data) DB_INSERT;
  guard_die (negb (r.1 =? 0)) err.

Definition t4_stores : Prog DB unit :=
  run t4_store "Alpha" "data1" "db_store error for alpha";
  run t4_store "beta" "Data for beta" "db_store error for beta";
  t4_store "gamma" "record3" "db_store error for gamma".

(** The file system after the program, or the message it ends with. *)
Definition t4_main (fs : fsys) : string + fsys :=
  match db_open fs (lit "db4") (Z.lor O_RDWR (Z.lor O_CREAT O_TRUNC)) with
  | (fs1, Some (Ok _ db)) =>
      match t4_stores db with
      | Ok _ db' => inr (db_close fs1 (lit "db4") db')
      | Abort why _ => inl why
      end
  | (_, Some (Abort why _)) => inl why
  | (_, None) => inl "db_open error"%string
  end.

Lemma t4_store_run key data err d M :
  db_rep d M -> M !! lit key = None -> op_ok (Store (lit key) (lit data) DB_INSERT) ->
  (fsizes d).1 <= PTR_MAX ->
  exists d', t4_store key data err d = Ok tt d' /\ db_rep d' (<[lit key := lit data]> M) /\
    (fsizes d').1 <= (fsizes d).1 + SLOT_MAX.
Proof.
  intros Hrep HM Hok Hs. destruct (op_run _ d M Hrep Hok Hs) as (d' & E & Hr' & Hz & _).
  cbn [run_op a_op] in E, Hr'. unfold a_store in E, Hr'. rewrite HM in E, Hr'.
  exists d'. split_and!; [|exact Hr'|exact Hz]. unfold t4_store. unfold pbind in E |- *.
  destruct (db_store _ _ _ d) as [r d1|]; [|done]. by injection E as -> ->.
Qed.

Definition t4_map : dict :=
  <[lit "gamma" := lit "record3"]> (<[lit "beta" := lit "Data for beta"]> (<[lit "Alpha" := lit "data1"]> ∅)).

Lemma lit_ok key data :
  forallb (fun c => negb (c =? NUL) && negb (c =? SEP)) (lit key) &&
    forallb (fun c => negb (c =? NUL)) (lit data) &&
    (1 <=? zlen (lit key)) && (zlen (lit key) <=? KEY_MAX) &&
    (DATLEN_MIN <=? zlen (lit data) + 1) && (zlen (lit data) + 1 <=? DATLEN_MAX) = true ->
  op_ok (Store (lit key) (lit data) DB_INSERT).
Proof.
  intros H. rewrite !andb_true_iff, !Z.leb_le, !forallb_forall in H.
  destruct H as (((((Hk & Hd) & Hk1) & Hk2) & Hd1) & Hd2). simpl.
  setoid_rewrite andb_true_iff in Hk. setoid_rewrite negb_true_iff in Hk.
  setoid_rewrite negb_true_iff in Hd. setoid_rewrite Z.eqb_neq in Hk. setoid_rewrite Z.eqb_neq in Hd.
  split_and!; try done; [split|split].
  - apply Forall_forall. intros c Hc. apply Hk. by apply list_elem_of_In.
  - intros Hc%list_elem_of_In. apply Hk in Hc as [_ Hc]. by destruct Hc.
  - apply Forall_forall. intros c Hc. apply Hd. by apply list_elem_of_In.
  - done.
Qed.

Lemma t4_stores_run d :
  db_rep d ∅ -> (fsizes d).1 = IDX0 ->
  exists d', t4_stores d = Ok tt d' /\ db_rep d' t4_map.
Proof.
  intros Hr Hs. unfold SLOT_MAX, PTR_MAX, IDX0 in *.
  destruct (t4_store_run "Alpha" "data1" "db_store error for alpha" d ∅ Hr) as (d1 & E1 & Hr1 & Hs1);
    [done|apply lit_ok; vm_compute; reflexivity|unfold PTR_MAX in *; lia|].
  destruct (t4_store_run "beta" "Data for beta" "db_store error for beta" d1 _ Hr1) as (d2 & E2 & Hr2 & Hs2);
    [done|apply lit_ok; vm_compute; reflexivity|unfold SLOT_MAX, PTR_SZ, IDXLEN_SZ, IDXLEN_MAX, PTR_MAX in *; lia|].
  destruct (t4_store_run "gamma" "record3" "db_store error for gamma" d2 _ Hr2) as (d3 & E3 & Hr3 & Hs3);
    [done|apply lit_ok; vm_compute; reflexivity|unfold SLOT_MAX, PTR_SZ, IDXLEN_SZ, IDXLEN_MAX, PTR_MAX in *; lia|].
  exists d3. unfold t4_stores. by rewrite (pbind_ok _ _ _ _ _ E1), (pbind_ok _ _ _ _ _ E2), E3.
Qed.

(** ** A database to try the theorems on: what t4.c makes *)
Definition demo : DB :=
  match db_open ∅ (lit "db4") (Z.lor O_RDWR (Z.lor O_CREAT O_TRUNC)) with
  | (_, Some (Ok _ d)) => match t4_stores d with Ok _ d' => d' | Abort _ d' => d' end
  | _ => _db_alloc [] []
  end.

Lemma demo_rep : db_rep demo t4_map.
Proof.
  destruct (open_create_run ∅ (lit "db4") (Z.lor O_RDWR (Z.lor O_CREAT O_TRUNC))) as
    (fs' & d & E & Hr & _ & Hs & _); [done|by left|].
  unfold demo. rewrite E. destruct (t4_stores_run d Hr) as (d' & E' & Hr'); [by rewrite Hs|].
  by rewrite E'.
Qed.

(** [vmc] evaluates a closed goal. *)
Ltac vmc := vm_compute; first [reflexivity | discriminate | done].

(** ** Properties *)

(** C1: the library implements the abstract dictionary.  Any sequence of
    fetches, deletions and stores with arguments the format can hold, on a
    database with room for the stores, returns exactly what the dictionary
    returns, and leaves a database that stands for the dictionary's final
    map; no call aborts. *)
Theorem db_refines_dictionary l d M :
  db_rep d M -> Forall op_ok l -> (fsizes d).1 + SLOT_MAX * zlen l <= PTR_MAX ->
  exists d', run_ops l d = Ok (a_ops l M).1 d' /\ db_rep d' (a_ops l M).2.
Proof. intros H1 H2 H3. destruct (ops_run l d M H1 H2 H3) as (d' & ? & ? & _). eauto. Qed.

Definition demo_ops : list op :=
  [Store (lit "beta") (lit "longer than before") DB_REPLACE; Delete (lit "Alpha");
   Store (lit "Omega") (lit "data9") DB_INSERT; Fetch (lit "Alpha"); Fetch (lit "Omega")].

Lemma demo_ops_ok : Forall op_ok demo_ops.
Proof.
  apply Forall_cons; split; [apply (lit_ok "beta" "longer than before"); vmc|].
  apply Forall_cons; split; [by repeat constructor|].
  apply Forall_cons; split; [apply (lit_ok "Omega" "data9"); vmc|].
  by repeat constructor.
Qed.

Lemma db_refines_dictionary_witness :
  exists d', run_ops demo_ops demo = Ok (a_ops demo_ops t4_map).1 d' /\ db_rep d' (a_ops demo_ops t4_map).2.
Proof.
  apply (db_refines_dictionary demo_ops demo t4_map); [apply demo_rep|apply demo_ops_ok|vmc].
Defined.

(** C2: [db_store] with each of its three flags.  On valid arguments that
    fit, it returns the code (and errno) of the dictionary: 0 when the record
    is inserted or replaced, 1 for DB_INSERT of a key that is there, -1 with
    ENOENT for DB_REPLACE of a key that is not; the database then stands for
    the dictionary's map; one statistics counter goes up, [cnt_storerr]
    exactly on the error returns; the index file grows by at most one record
    of maximal length. *)
Theorem db_store_spec d M key data flag :
  db_rep d M -> valid_key key -> valid_data data -> fits (fsizes d) key data ->
  flag ∈ [DB_INSERT; DB_REPLACE; DB_STORE] ->
  exists d' c, db_store key data flag d = Ok (a_store M key data flag).1 d' /\
    db_rep d' (a_store M key data flag).2 /\ counts d' = inc c (counts d) /\
    (c = cnt_storerr <-> (a_store M key data flag).1.1 <> 0) /\
    (fsizes d').1 <= (fsizes d).1 + SLOT_MAX.
Proof.
  intros H1 H2 H3 H4 H5. destruct (store_run d M key data flag H1 H2 H3 H4 H5) as
    (d' & c & evs & E & Hr & Hs & Hc & Hcc & _). exists d', c. done.
Qed.

Lemma db_store_spec_witness :
  exists d' c, db_store (lit "beta") (lit "x") DB_STORE demo = Ok (0, None) d' /\
    db_rep d' (<[lit "beta" := lit "x"]> t4_map) /\ counts d' = inc c (counts demo) /\
    (c = cnt_storerr <-> 0 <> 0) /\ (fsizes d').1 <= (fsizes demo).1 + SLOT_MAX.
Proof.
  apply (db_store_spec demo t4_map (lit "beta") (lit "x") DB_STORE).
  - apply demo_rep.
  - apply (lit_ok "beta" "x"). vmc.
  - apply (lit_ok "beta" "x"). vmc.
  - split; [vmc|]. split; vmc.
  - by right; right; left.
Defined.

(** C3: [db_delete] returns 0 and removes the key when it is there, returns
    -1 and changes nothing of the map when it is not; the sizes of the files
    stay the same; [cnt_delok] or [cnt_delerr] goes up by one. *)
Theorem db_delete_spec d M key :
  db_rep d M -> nonul key ->
  exists d', db_delete key d = Ok (if M !! key is Some _ then 0 else -1) d' /\
    db_rep d' (delete key M) /\ fsizes d' = fsizes d /\
    counts d' = inc (if M !! key is Some _ then cnt_delok else cnt_delerr) (counts d).
Proof.
  intros H1 H2. destruct (delete_run d M key H1 H2) as (d' & evs & E & Hr & Hs & Hc & _).
  exists d'. unfold a_delete in *. destruct (M !! key) eqn:EM; [done|]. by rewrite delete_id.
Qed.

Lemma db_delete_spec_witness :
  exists d', db_delete (lit "beta") demo = Ok 0 d' /\ db_rep d' (delete (lit "beta") t4_map) /\
    fsizes d' = fsizes demo /\ counts d' = inc cnt_delok (counts demo).
Proof. apply (db_delete_spec demo t4_map (lit "beta")); [apply demo_rep|by repeat constructor]. Defined.

(** [db_fetch] returns the data of the key, or a null pointer exactly
    when the key is not in the database; neither file changes, and
    [cnt_fetchok] or [cnt_fetcherr] goes up by one. *)
Theorem db_fetch_spec d M key :
  db_rep d M -> nonul key ->
  exists d', db_fetch key d = Ok (M !! key) d' /\ db_rep d' M /\
    f_bytes (idxfd d') = f_bytes (idxfd d) /\ f_bytes (datfd d') = f_bytes (datfd d) /\
    counts d' = inc (if M !! key is Some _ then cnt_fetchok else cnt_fetcherr) (counts d).
Proof. intros H1 H2. destruct (fetch_run d M key H1 H2) as (d' & ?). exists d'. naive_solver. Qed.

Lemma db_fetch_spec_witness :
  exists d', db_fetch (lit "gamma") demo = Ok (Some (lit "record3")) d' /\ db_rep d' t4_map /\
    f_bytes (idxfd d') = f_bytes (idxfd demo) /\ f_bytes (datfd d') = f_bytes (datfd demo) /\
    counts d' = inc cnt_fetchok (counts demo).
Proof. apply (db_fetch_spec demo t4_map (lit "gamma")); [apply demo_rep|by repeat constructor]. Defined.

(** C4: the lock protocol.  A process that holds no lock before a sequence
    of operations holds none after it, and every write below the first index
    record (the free list pointer and the hash chain pointers) was made with
    a write lock held on its first byte. *)
Theorem db_lock_protocol l d M :
  db_rep d M -> Forall op_ok l -> (fsizes d).1 + SLOT_MAX * zlen l <= PTR_MAX ->
  unlocked (trace d) -> locked_writes (trace d) ->
  exists rs d', run_ops l d = Ok rs d' /\ unlocked (trace d') /\ locked_writes (trace d').
Proof.
  intros H1 H2 H3 H4 H5. destruct (ops_run l d M H1 H2 H3) as (d' & E & _ & H).
  exists (a_ops l M).1, d'. split; [done|]. by apply H.
Qed.

Definition demo_quiet : DB := set_trace [] demo.

Lemma demo_quiet_rep : db_rep demo_quiet t4_map.
Proof. destruct demo_rep as (g & L & Hr & Hi). exists g, L. split; [by apply repr_trace|done]. Qed.

Lemma db_lock_protocol_witness :
  exists rs d', run_ops demo_ops demo_quiet = Ok rs d' /\ unlocked (trace d') /\ locked_writes (trace d').
Proof.
  apply (db_lock_protocol demo_ops demo_quiet t4_map); [apply demo_quiet_rep|apply demo_ops_ok|vmc|done|done].
Defined.

(** C5: sequential access is complete.  [db_rewind] followed by [db_nextrec]
    until it returns a null pointer gives every record of the database whose
    key is not all blanks, each once, with its data, and changes nothing. *)
Theorem db_scan_complete d M :
  db_rep d M ->
  exists fuel l d', (run db_rewind; scan fuel) d = Ok l d' /\
    l ≡ₚ map_to_list (filter (fun x => all_blank x.1 = false) M) /\ db_rep d' M /\
    f_bytes (idxfd d') = f_bytes (idxfd d) /\ f_bytes (datfd d') = f_bytes (datfd d).
Proof.
  intros (g & L & Hr & Hi). destruct (rewind_run g d Hr) as (d1 & E1 & F1 & Ha & _).
  destruct (scan_run g (S (length (g_slots g))) (g_slots g) d1) as (d2 & E2 & F2);
    [by eapply repr_frame|done|lia|].
  exists (S (length (g_slots g))). eexists _, d2. rewrite (pbind_ok _ _ _ _ _ E1), E2.
  assert (frame d d2) as F by (by etrans). split_and!; [done|by eapply slots_perm| |apply F|apply F].
  exists g, L. split; [by eapply repr_frame|done].
Qed.

Lemma db_scan_complete_witness :
  exists fuel l d', (run db_rewind; scan fuel) demo = Ok l d' /\
    l ≡ₚ map_to_list (filter (fun x => all_blank x.1 = false) t4_map) /\ db_rep d' t4_map /\
    f_bytes (idxfd d') = f_bytes (idxfd demo) /\ f_bytes (datfd d') = f_bytes (datfd demo).
Proof. apply (db_scan_complete demo t4_map), demo_rep. Defined.

(** [db_open] with O_CREAT and O_TRUNC (and not O_EXCL on existing
    files) makes a well-formed empty database, positioned at its first
    record, with all locks released. *)
Theorem db_open_creates fs pathname oflag :
  Z.land oflag (Z.lor O_CREAT O_TRUNC) = Z.lor O_CREAT O_TRUNC ->
  has_flag oflag O_EXCL = false \/
    (fs !! (pathname ++ suffix_idx) = None /\ fs !! (pathname ++ suffix_dat) = None) ->
  exists fs' d, db_open fs pathname oflag = (fs', Some (Ok tt d)) /\ db_rep d ∅ /\
    fsizes d = (IDX0, 0) /\ f_pos (idxfd d) = IDX0 /\ unlocked (trace d) /\ locked_writes (trace d).
Proof.
  intros H1 H2. destruct (open_create_run fs pathname oflag H1 H2) as
    (fs' & d & E & Hr & _ & Hs & (l1 & Hl & Hp) & _ & Ht).
  exists fs', d. split_and!; try done.
  - rewrite Hp. destruct l1; done.
  - rewrite Ht. intros fd b. simpl. unfold covers. destruct (bool_decide (fd = IDX)), (0 <=? b); done.
  - by rewrite Ht.
Qed.

Lemma db_open_creates_witness :
  exists fs' d, db_open ∅ (lit "db4") (Z.lor O_RDWR (Z.lor O_CREAT O_TRUNC)) = (fs', Some (Ok tt d)) /\
    db_rep d ∅ /\ fsizes d = (IDX0, 0) /\ f_pos (idxfd d) = IDX0 /\
    unlocked (trace d) /\ locked_writes (trace d).
Proof. apply (db_open_creates ∅ (lit "db4") (Z.lor O_RDWR (Z.lor O_CREAT O_TRUNC))); [done|by left]. Defined.

(** C6: closing and opening again (without O_TRUNC, and without O_CREAT
    together with O_EXCL) gives a database that stands for the same map. *)
Theorem db_reopen_roundtrip fs pathname oflag d M :
  db_rep d M -> has_flag oflag O_TRUNC = false -> has_flag oflag O_CREAT && has_flag oflag O_EXCL = false ->
  exists d', db_open (db_close fs pathname d) pathname oflag
             = (db_close fs pathname d, Some (Ok tt d')) /\ db_rep d' M /\ unlocked (trace d').
Proof.
  intros H1 H2 H3. destruct (reopen_run fs pathname oflag d M H1 H2 H3) as (d' & E & Hr & Ht).
  exists d'. rewrite Ht. done.
Qed.

Lemma db_reopen_roundtrip_witness :
  exists d', db_open (db_close ∅ (lit "db4") demo) (lit "db4") O_RDWR
             = (db_close ∅ (lit "db4") demo, Some (Ok tt d')) /\ db_rep d' t4_map /\ unlocked (trace d').
Proof. apply (db_reopen_roundtrip ∅ (lit "db4") O_RDWR demo t4_map); [apply demo_rep|done|done]. Defined.

(** The program t4.c runs to its end on any file system, and opening
    the database it leaves gives the three records it stored. *)
Theorem t4_main_result fs :
  exists fs' d, t4_main fs = inr fs' /\ db_open fs' (lit "db4") O_RDWR = (fs', Some (Ok tt d)) /\
    db_rep d t4_map.
Proof.
  destruct (open_create_run fs (lit "db4") (Z.lor O_RDWR (Z.lor O_CREAT O_TRUNC))) as
    (fs1 & d & E & Hr & _ & Hs & _); [done|by left|].
  unfold t4_main. rewrite E. destruct (t4_stores_run d Hr) as (d' & E' & Hr'); [by rewrite Hs|].
  rewrite E'. destruct (reopen_run fs1 (lit "db4") O_RDWR d' t4_map Hr') as (d2 & E2 & Hr2 & _); [done..|].
  eauto.
Qed.

(** The argument checks of [db_store] come first.  An unknown flag is
    EINVAL and has no effect at all; data that is empty or longer than
    DATLEN_MAX - 1 ends the process before any lock is taken or file
    touched. *)
Theorem db_store_checks d key data flag :
  (flag ∉ [DB_INSERT; DB_REPLACE; DB_STORE] -> db_store key data flag d = Ok (-1, Some EINVAL) d) /\
  (flag ∈ [DB_INSERT; DB_REPLACE; DB_STORE] -> ~ DATLEN_MIN <= strlen data + 1 <= DATLEN_MAX ->
   db_store key data flag d = Abort "db_store: invalid data length" d).
Proof.
  unfold db_store. rewrite store_flag_test. split.
  - intros Hf. by rewrite bool_decide_false.
  - intros Hf Hl. rewrite bool_decide_true by done. cbn [negb].
    apply pbind_abort. unfold guard_die.
    destruct (Z.ltb_spec (strlen data + 1) DATLEN_MIN), (Z.ltb_spec DATLEN_MAX (strlen data + 1)); simpl; done || lia.
Qed.

Lemma db_store_checks_witness :
  db_store (lit "k") (lit "v") 7 demo = Ok (-1, Some EINVAL) demo /\
  db_store (lit "k") [] DB_INSERT demo = Abort "db_store: invalid data length" demo.
Proof.
  split.
  - apply (db_store_checks demo (lit "k") (lit "v") 7). rewrite !elem_of_cons, elem_of_nil. unfold DB_INSERT, DB_REPLACE, DB_STORE. lia.
  - apply (db_store_checks demo (lit "k") [] DB_INSERT); [by left|]. unfold DATLEN_MIN. simpl. intros [H _]. by apply H.
Defined.

(** A key that holds the separator byte is accepted by [db_store], and
    from then on looking the key up ends the process: the index record has
    three separators and [_db_readidx] takes it for corruption. *)
Theorem db_store_separator_key :
  exists d1 d2, db_store (lit "A:B") (lit "data1") DB_INSERT demo = Ok (0, None) d1 /\
    db_fetch (lit "A:B") d1 = Abort "_db_readidx: too many separators" d2.
Proof.
  eexists _, _. split; [apply out_ok; vmc|apply out_abort; vmc].
Qed.

(** [_db_writeidx] formats the index record into [idxbuf] before it
    compares its length with IDXLEN_MAX, so a key that is too long is
    written past the end of the buffer; by then the data record has been
    appended to the data file. *)
Theorem db_store_long_key :
  exists d1, db_store (replicate 1020 107) (lit "data1") DB_INSERT demo
             = Abort "_db_writeidx: sprintf past the end of idxbuf" d1 /\
    f_bytes (datfd d1) = f_bytes (datfd demo) ++ lit "data1" ++ [NEWLINE].
Proof.
  eexists. split; [apply out_abort|]; vmc.
Qed.

Lemma readptr_empty o d :
  f_bytes (idxfd d) = [] -> 0 <= o ->
  exists d', _db_readptr o d = Abort "_db_readptr: read error of ptr field" d'.
Proof.
  intros He Ho. unfold _db_readptr. unfold pbind at 1, sys_lseek, lseek. cbn [fileof]. rewrite ltb_false by done.
  unfold pbind at 1, sys_read, fread. dbs. rewrite He, slice_past by done. cbn. eauto.
Qed.

(** [db_open] with O_CREAT and without O_TRUNC creates the two files
    but does not initialise them; it returns a handle, and the first fetch
    ends the process. *)
Theorem db_open_creat_only fs pathname :
  fs !! (pathname ++ suffix_idx) = None -> fs !! (pathname ++ suffix_dat) = None ->
  exists fs' d, db_open fs pathname (Z.lor O_RDWR O_CREAT) = (fs', Some (Ok tt d)) /\
    f_bytes (idxfd d) = [] /\
    forall key, exists d', db_fetch key d = Abort "_db_readptr: read error of ptr field" d'.
Proof.
  intros H1 H2. unfold db_open, open_file. rewrite H1. change (has_flag (Z.lor O_RDWR O_CREAT) O_CREAT) with true.
  cbn beta iota. rewrite lookup_insert_ne by apply suffixes_differ. rewrite H2.
  eexists _, _. split; [reflexivity|]. split; [done|]. intros key. unfold db_fetch, _db_find_and_lock.
  pstep. rewrite hidx_off. unfold readw_lock, lock_reg, note. pstep.
  pose proof (hidx_range key).
  match goal with |- context [pbind (_db_readptr ?o) _ ?d] =>
    destruct (readptr_empty o d) as (d' & E); [done|unfold PTR_SZ; lia|] end.
  rewrite (pbind_abort _ _ _ _ _ E). eauto.
Qed.

Lemma db_open_creat_only_witness :
  exists fs' d, db_open ∅ (lit "new") (Z.lor O_RDWR O_CREAT) = (fs', Some (Ok tt d)) /\
    f_bytes (idxfd d) = [] /\
    forall key, exists d', db_fetch key d = Abort "_db_readptr: read error of ptr field" d'.
Proof. apply (db_open_creat_only ∅ (lit "new")); done. Defined.
