(* ===== verification/Mq.v ===== *)
(** * The message queues of unpv22e/my_pxmsg_mmap

    POSIX message queues in a memory-mapped file: a header, and a fixed
    number of message slots that are linked, by their byte index in the
    file, on the list of queued messages (by decreasing priority) or on the
    free list.  Every operation runs with the queue's mutex held; a thread
    leaves the critical section early only in [pthread_cond_wait], which is
    the [Wait] result of an operation. *)
From S2P Require Import Prelude CString Posix.

Open Scope prog_scope.

(** ** Data (mqueue.h) *)
Record mymq_attr := mkAttr { mq_flags : Z; mq_maxmsg : Z; mq_msgsize : Z; mq_curmsgs : Z }.

(** What the code uses of [struct sigevent]. *)
Record sigevent := mkSigev { sigev_notify : Z; sigev_signo : Z; sigev_value : Z }.

(** A message header and the bytes that follow it in its slot. *)
Record mymsg_hdr := mkMsg { msg_next : Z; msg_len : Z; msg_prio : Z; msg_body : bytes }.

(** What the operations do besides changing the mapped file: signals queued
    to a process, and wakeups of a thread waiting on the condition
    variable. *)
Inductive mqev :=
| SigQueue (pid signo value : Z)
| CondSignal.

(** The mapped file: the fields of the header, the message slots by byte
    index; and the events, most recent first. *)
Record mymq_hdr := mkHdr {
  mqh_attr : mymq_attr;
  mqh_head : Z;
  mqh_free : Z;
  mqh_nwait : Z;
  mqh_pid : Z;
  mqh_event : sigevent;
  mq_msgs : gmap Z mymsg_hdr;
  mq_evs : list mqev
}.

(** The per-open structure; the mapped file is passed separately. *)
Record mymq_info := mkInfo { mqi_magic : Z; mqi_flags : Z }.

Definition MQI_MAGIC : Z := 0x98765432.

(** Sizes of the types on x86-64. *)
Definition sizeof_long : Z := 8.
Definition sizeof_mymsg_hdr : Z := 24.
Definition sizeof_mymq_hdr : Z := 216.

Definition MSGSIZE (i : Z) : Z := ((i + sizeof_long - 1) / sizeof_long) * sizeof_long.

Definition set_attr (v : mymq_attr) (h : mymq_hdr) : mymq_hdr :=
  mkHdr v (mqh_head h) (mqh_free h) (mqh_nwait h) (mqh_pid h) (mqh_event h) (mq_msgs h) (mq_evs h).
Definition set_head (v : Z) (h : mymq_hdr) : mymq_hdr :=
  mkHdr (mqh_attr h) v (mqh_free h) (mqh_nwait h) (mqh_pid h) (mqh_event h) (mq_msgs h) (mq_evs h).
Definition set_free (v : Z) (h : mymq_hdr) : mymq_hdr :=
  mkHdr (mqh_attr h) (mqh_head h) v (mqh_nwait h) (mqh_pid h) (mqh_event h) (mq_msgs h) (mq_evs h).
Definition set_nwait (v : Z) (h : mymq_hdr) : mymq_hdr :=
  mkHdr (mqh_attr h) (mqh_head h) (mqh_free h) v (mqh_pid h) (mqh_event h) (mq_msgs h) (mq_evs h).
Definition set_pid (v : Z) (h : mymq_hdr) : mymq_hdr :=
  mkHdr (mqh_attr h) (mqh_head h) (mqh_free h) (mqh_nwait h) v (mqh_event h) (mq_msgs h) (mq_evs h).
Definition set_event (v : sigevent) (h : mymq_hdr) : mymq_hdr :=
  mkHdr (mqh_attr h) (mqh_head h) (mqh_free h) (mqh_nwait h) (mqh_pid h) v (mq_msgs h) (mq_evs h).
Definition set_msgs (v : gmap Z mymsg_hdr) (h : mymq_hdr) : mymq_hdr :=
  mkHdr (mqh_attr h) (mqh_head h) (mqh_free h) (mqh_nwait h) (mqh_pid h) (mqh_event h) v (mq_evs h).
Definition set_evs (v : list mqev) (h : mymq_hdr) : mymq_hdr :=
  mkHdr (mqh_attr h) (mqh_head h) (mqh_free h) (mqh_nwait h) (mqh_pid h) (mqh_event h) (mq_msgs h) v.

Definition set_curmsgs (v : Z) (h : mymq_hdr) : mymq_hdr :=
  let a := mqh_attr h in set_attr (mkAttr (mq_flags a) (mq_maxmsg a) (mq_msgsize a) v) h.

Definition curmsgs (h : mymq_hdr) : Z := mq_curmsgs (mqh_attr h).
Definition maxmsg (h : mymq_hdr) : Z := mq_maxmsg (mqh_attr h).
Definition msgsize (h : mymq_hdr) : Z := mq_msgsize (mqh_attr h).

(** The notification type the code looks for. *)
Definition SIGEV_SIGNAL : Z := 0.

(** ** Access to the slots *)

(** The message header at [&mptr[index]]: an index that is no slot's is
    outside of what the queue may touch. *)
Definition msg_at (index : Z) : Prog mymq_hdr mymsg_hdr :=
  fun h => match mq_msgs h !! index with
           | Some m => Ok m h
           | None => Abort "message index outside of the queue" h
           end.

Definition set_msg (index : Z) (m : mymsg_hdr) : Prog mymq_hdr unit :=
  put (fun h => set_msgs (<[index := m]> (mq_msgs h)) h).

(** A message header pointer through which only [msg_next], the first member,
    is used: [mq_send] makes one point to [mqh_head]. *)
Inductive prevptr := PHead | PMsg (index : Z).

Definition set_next (p : prevptr) (v : Z) : Prog mymq_hdr unit :=
  match p with
  | PHead => put (set_head v)
  | PMsg index =>
      do m <- msg_at index;
      set_msg index (mkMsg v (msg_len m) (msg_prio m) (msg_body m))
  end.

Definition emit (e : mqev) : Prog mymq_hdr unit := put (fun h => set_evs (e :: mq_evs h) h).

(** ** [mymq_send] *)

(** The search for the place of the new message.  The list is shorter than
    the number of slots: [size] steps reach its end. *)
Fixpoint insert_loop (fuel : nat) (prio freeindex index : Z) (pmsghdr : prevptr) : Prog mymq_hdr unit :=
  match fuel with
  | O => die "mymq_send: endless list"
  | S fuel =>
      if index =? 0 then
        run set_next pmsghdr freeindex;
        set_next (PMsg freeindex) 0
      else
        do msghdr <- msg_at index;
        if msg_prio msghdr <? prio then
          run set_next (PMsg freeindex) index;
          set_next pmsghdr freeindex
        else insert_loop fuel prio freeindex (msg_next msghdr) (PMsg index)
  end.

(** The rest of [mymq_send] once there is room. *)
Definition send_body (ptr : bytes) (len prio : Z) : Prog mymq_hdr (call (Z * option Z)) :=
  do freeindex <- get mqh_free;
  run guard_die (freeindex =? 0) "mymq_send: curmsgs = %ld; free = 0";
  do nmsghdr <- msg_at freeindex;
  run guard_die (zlen (msg_body nmsghdr) <? len) "mymq_send: memcpy past the end of the slot";
  run set_msg freeindex (mkMsg (msg_next nmsghdr) len prio
                          (splice (msg_body nmsghdr) 0 (slice ptr 0 len)));
  run put (set_free (msg_next nmsghdr));
  do index <- get mqh_head;
  do fuel <- get (fun h => S (size (mq_msgs h)));
  run insert_loop fuel prio freeindex index PHead;
  do cur <- get curmsgs;
  run (if cur =? 0 then emit CondSignal else pret tt);
  run put (set_curmsgs (cur + 1));
  pret (Ret (0, None)).

(** The wait loop, entered on a full queue and again after each wakeup. *)
Definition send_wait (ptr : bytes) (len prio : Z) : Prog mymq_hdr (call (Z * option Z)) :=
  do cur <- get curmsgs;
  do mx <- get maxmsg;
  if mx <=? cur then pret Wait else send_body ptr len prio.

Definition mymq_send (mqinfo : mymq_info) (ptr : bytes) (len prio : Z) : Prog mymq_hdr (call (Z * option Z)) :=
  if negb (mqi_magic mqinfo =? MQI_MAGIC) then pret (Ret (-1, Some EBADF))
  else
    do attr <- get mqh_attr;
    if wrapu 64 (mq_msgsize attr) <? len then pret (Ret (-1, Some EMSGSIZE))
    else if mq_curmsgs attr =? 0 then
      do pid <- get mqh_pid;
      do nwait <- get mqh_nwait;
      do sigev <- get mqh_event;
      run (if negb (pid =? 0) && (nwait =? 0) then
             run (if sigev_notify sigev =? SIGEV_SIGNAL
                  then emit (SigQueue pid (sigev_signo sigev) (sigev_value sigev)) else pret tt);
             put (set_pid 0)
           else pret tt);
      send_body ptr len prio
    else if mq_maxmsg attr <=? mq_curmsgs attr then
      if has_flag (mqi_flags mqinfo) O_NONBLOCK then pret (Ret (-1, Some EAGAIN))
      else send_wait ptr len prio
    else send_body ptr len prio.

(** ** [mymq_receive] *)

(** The length or -1, [errno], the bytes copied to the caller, and the value
    stored through [priop]. *)
Record received := mkRcv { r_len : Z; r_errno : option Z; r_bytes : bytes; r_prio : option Z }.

Definition rcv_err (e : Z) : received := mkRcv (-1) (Some e) [] None.

Definition receive_body (priop : bool) : Prog mymq_hdr (call received) :=
  do index <- get mqh_head;
  run guard_die (index =? 0) "mymq_receive: curmsgs = %ld; head = 0";
  do msghdr <- msg_at index;
  run put (set_head (msg_next msghdr));
  let len := msg_len msghdr in
  let data := slice (msg_body msghdr) 0 len in
  do free <- get mqh_free;
  run set_next (PMsg index) free;
  run put (set_free index);
  do cur <- get curmsgs;
  do mx <- get maxmsg;
  run (if cur =? mx then emit CondSignal else pret tt);
  run put (set_curmsgs (cur - 1));
  pret (Ret (mkRcv len None data (if priop then Some (msg_prio msghdr) else None))).

(** The wait loop: a thread in it counts in [mqh_nwait]. *)
Definition receive_wait (priop : bool) : Prog mymq_hdr (call received) :=
  do cur <- get curmsgs;
  if cur =? 0 then pret Wait
  else
    do nwait <- get mqh_nwait;
    run put (set_nwait (nwait - 1));
    receive_body priop.

Definition mymq_receive (mqinfo : mymq_info) (maxlen : Z) (priop : bool) : Prog mymq_hdr (call received) :=
  if negb (mqi_magic mqinfo =? MQI_MAGIC) then pret (Ret (rcv_err EBADF))
  else
    do attr <- get mqh_attr;
    if maxlen <? wrapu 64 (mq_msgsize attr) then pret (Ret (rcv_err EMSGSIZE))
    else if mq_curmsgs attr =? 0 then
      if has_flag (mqi_flags mqinfo) O_NONBLOCK then pret (Ret (rcv_err EAGAIN))
      else
        do nwait <- get mqh_nwait;
        run put (set_nwait (nwait + 1));
        receive_wait priop
    else receive_body priop.

(** ** [mymq_notify]

    [self] is what [getpid] returns, [alive] whether a process exists
    ([kill] with signal 0 does not fail with ESRCH). *)
Definition mymq_notify (alive : Z -> bool) (self : Z) (mqinfo : mymq_info) (notification : option sigevent) :
    Prog mymq_hdr (Z * option Z) :=
  if negb (mqi_magic mqinfo =? MQI_MAGIC) then pret (-1, Some EBADF)
  else
    do pid <- get mqh_pid;
    match notification with
    | None =>
        run (if pid =? self then put (set_pid 0) else pret tt);
        pret (0, None)
    | Some ev =>
        if negb (pid =? 0) && alive pid then pret (-1, Some EBUSY)
        else
          run put (set_pid self);
          run put (set_event ev);
          pret (0, None)
    end.

(** ** Attributes *)
Definition attr_now (mqinfo : mymq_info) (h : mymq_hdr) : mymq_attr :=
  mkAttr (mqi_flags mqinfo) (maxmsg h) (msgsize h) (curmsgs h).

Definition mymq_getattr (mqinfo : mymq_info) : Prog mymq_hdr (Z * option Z * option mymq_attr) :=
  if negb (mqi_magic mqinfo =? MQI_MAGIC) then pret (-1, Some EBADF, None)
  else
    do a <- get (attr_now mqinfo);
    pret (0, None, Some a).

(** The new per-open structure is part of the result. *)
Definition mymq_setattr (mqinfo : mymq_info) (mqstat : mymq_attr) :
    Prog mymq_hdr (Z * option Z * option mymq_attr * mymq_info) :=
  if negb (mqi_magic mqinfo =? MQI_MAGIC) then pret (-1, Some EBADF, None, mqinfo)
  else
    do a <- get (attr_now mqinfo);
    let fl := if has_flag (mq_flags mqstat) O_NONBLOCK then Z.lor (mqi_flags mqinfo) O_NONBLOCK
              else Z.land (mqi_flags mqinfo) (Z.lnot O_NONBLOCK) in
    pret (0, None, Some a, mkInfo (mqi_magic mqinfo) fl).

(** ** [mymq_close]: the per-open structure after it ([munmap] succeeds). *)
Definition mymq_close (alive : Z -> bool) (self : Z) (mqinfo : mymq_info) :
    Prog mymq_hdr (Z * option Z * mymq_info) :=
  if negb (mqi_magic mqinfo =? MQI_MAGIC) then pret (-1, Some EBADF, mqinfo)
  else
    do ' (rc, err) <- mymq_notify alive self mqinfo None;
    if negb (rc =? 0) then pret (-1, err, mqinfo)
    else pret (0, None, mkInfo 0 (mqi_flags mqinfo)).

(** ** [mymq_open] *)

(** A file of the name space: the user-execute bit, which the creator keeps
    on until the queue is initialised, and the queue. *)
Record mqfile := mkMqfile { qf_xusr : bool; qf_hdr : option mymq_hdr }.

Abbreviation mqfs := (gmap bytes mqfile).

(** The system calls that can fail for reasons outside of the model. *)
Inductive syscall :=
| SysOpenCreat | SysLseek | SysWrite | SysMmap | SysMalloc | SysMutexattr | SysMutex
| SysCondattr | SysCond | SysFchmod | SysOpen.

#[export] Instance syscall_eq_dec : EqDecision syscall.
Proof. solve_decision. Defined.

Definition MAX_TRIES : nat := 10.
Definition defattr : mymq_attr := mkAttr 0 128 1024 0.

(** The free list with all messages on it: [n] slots from [index] on, each
    [step] bytes, the last one ending the list. *)
Fixpoint init_slots (n : nat) (index step cap : Z) : gmap Z mymsg_hdr :=
  match n with
  | O => <[index := mkMsg 0 0 0 (replicate (Z.to_nat cap) 0)]> ∅
  | S n => <[index := mkMsg (index + step) 0 0 (replicate (Z.to_nat cap) 0)]>
             (init_slots n (index + step) step cap)
  end.

Definition init_hdr (attr : mymq_attr) : mymq_hdr :=
  let msz := MSGSIZE (mq_msgsize attr) in
  mkHdr (mkAttr 0 (mq_maxmsg attr) (mq_msgsize attr) 0) 0 sizeof_mymq_hdr 0 0 (mkSigev 0 0 0)
    (init_slots (Z.to_nat (mq_maxmsg attr - 1)) sizeof_mymq_hdr (sizeof_mymsg_hdr + msz) msz) [].

(** The name space, and the number of times this process has looked at it. *)
Record ostate := mkOstate { o_fs : mqfs; o_tick : nat }.

Section Open.
(** [fault] is the error of a system call that fails; [others] what the
    other processes do to the names before each [open] and [stat] of this
    one. *)
Context (fault : syscall -> option Z) (others : nat -> mqfs -> mqfs).
Context (pathname : bytes) (oflag : Z) (attr : option mymq_attr).

Definition o_sync : Prog ostate unit :=
  put (fun s => mkOstate (others (o_tick s) (o_fs s)) (S (o_tick s))).

Definition set_file (f : mqfile) : Prog ostate unit :=
  put (fun s => mkOstate (<[pathname := f]> (o_fs s)) (o_tick s)).

(** The error return of the creator removes the file. *)
Definition created_err (e : Z) : Prog ostate (Z + mymq_info) :=
  run put (fun s => mkOstate (delete pathname (o_fs s)) (o_tick s));
  pret (inl e).

(** A system call of the creator that can fail. *)
Definition try_sys (c : syscall) (k : Prog ostate (Z + mymq_info)) : Prog ostate (Z + mymq_info) :=
  match fault c with Some e => created_err e | None => k end.

Definition filesize (a : mymq_attr) : Z :=
  wraps 64 (sizeof_mymq_hdr + mq_maxmsg a * (sizeof_mymsg_hdr + MSGSIZE (mq_msgsize a))).

(** The creator's part once the attributes are checked.  Initialising a file
    that is shorter than the queue (the size did not fit in a [long]) stores
    past the end of the mapping. *)
Definition create_queue (a : mymq_attr) (nonblock : Z) : Prog ostate (Z + mymq_info) :=
  if filesize a - 1 <? 0 then created_err EINVAL
  else
  try_sys SysLseek (try_sys SysWrite (try_sys SysMmap (try_sys SysMalloc (
  run guard_die (filesize a <? sizeof_mymq_hdr + mq_maxmsg a * (sizeof_mymsg_hdr + MSGSIZE (mq_msgsize a)))
        "mymq_open: store past the end of the mapped file";
  run guard_die (2 ^ 31 - 1 <? mq_maxmsg a - 1) "mymq_open: int loop counter overflows";
  run set_file (mkMqfile true (Some (init_hdr a)));
  try_sys SysMutexattr (try_sys SysMutex (try_sys SysCondattr (try_sys SysCond (
  try_sys SysFchmod (
  run set_file (mkMqfile false (Some (init_hdr a)));
  pret (inr (mkInfo MQI_MAGIC nonblock))))))))))).

Definition open_create (nonblock : Z) : Prog ostate (Z + mymq_info) :=
  match attr with
  | None => create_queue defattr nonblock
  | Some a =>
      if (mq_maxmsg a <=? 0) || (mq_msgsize a <=? 0) then created_err EINVAL
      else create_queue a nonblock
  end.

(** Wait for the creator of an existing file: [true] when it is
    initialised, [false] when it is still not after the last try, [None]
    when the file is gone. *)
Fixpoint wait_init (tries : nat) : Prog ostate (option bool) :=
  match tries with
  | O => pret (Some false)
  | S tries =>
      run o_sync;
      do fs <- get o_fs;
      match fs !! pathname with
      | None => pret None
      | Some f => if negb (qf_xusr f) then pret (Some true) else wait_init tries
      end
  end.

(** The label [exists]; [again] is the label of that name. *)
Definition open_exists (again : Prog ostate (Z + mymq_info)) (nonblock : Z) : Prog ostate (Z + mymq_info) :=
  run o_sync;
  do fs <- get o_fs;
  match fault SysOpen, fs !! pathname with
  | Some e, _ => pret (inl e)
  | None, None => if has_flag oflag O_CREAT then again else pret (inl ENOENT)
  | None, Some _ =>
      do w <- wait_init MAX_TRIES;
      match w with
      | None => if has_flag oflag O_CREAT then again else pret (inl ENOENT)
      | Some false => pret (inl ETIMEDOUT)
      | Some true =>
          match fault SysMmap, fault SysMalloc with
          | Some e, _ => pret (inl e)
          | None, Some e => pret (inl e)
          | None, None => pret (inr (mkInfo MQI_MAGIC nonblock))
          end
      end
  end.

(** [fuel] bounds the number of times the name disappears under us. *)
Fixpoint mymq_open (fuel : nat) : Prog ostate (Z + mymq_info) :=
  match fuel with
  | O => die "mymq_open: the name keeps changing"
  | S fuel =>
      let nonblock := Z.land oflag O_NONBLOCK in
      if has_flag oflag O_CREAT then
        run o_sync;
        do fs <- get o_fs;
        match fault SysOpenCreat, fs !! pathname with
        | Some e, _ => pret (inl e)
        | None, Some _ =>
            if has_flag oflag O_EXCL then pret (inl EEXIST)
            else open_exists (mymq_open fuel) nonblock
        | None, None =>
            run set_file (mkMqfile true None);
            open_create nonblock
        end
      else open_exists (mymq_open fuel) nonblock
  end.

End Open.

(** [mymq_unlink] *)
Definition mymq_unlink (fs : mqfs) (pathname : bytes) : mqfs * (Z * option Z) :=
  match fs !! pathname with
  | Some _ => (delete pathname fs, (0, None))
  | None => (fs, (-1, Some ENOENT))
  end.

(** The wrapper functions end the process on an error return. *)
Definition Mymq_send (mqinfo : mymq_info) (ptr : bytes) (len prio : Z) : Prog mymq_hdr (call unit) :=
  do r <- mymq_send mqinfo ptr len prio;
  match r with
  | Wait => pret Wait
  | Ret (rc, _) => run guard_die (rc =? -1) "mymq_send error"; pret (Ret tt)
  end.

Definition Mymq_receive (mqinfo : mymq_info) (maxlen : Z) (priop : bool) : Prog mymq_hdr (call received) :=
  do r <- mymq_receive mqinfo maxlen priop;
  match r with
  | Wait => pret Wait
  | Ret v => run guard_die (r_len v =? -1) "mymq_receive error"; pret (Ret v)
  end.

Definition Mymq_notify (alive : Z -> bool) (self : Z) (mqinfo : mymq_info) (notification : option sigevent) :
    Prog mymq_hdr unit :=
  do r <- mymq_notify alive self mqinfo notification; guard_die (r.1 =? -1) "mymq_notify error".

Definition Mymq_getattr (mqinfo : mymq_info) : Prog mymq_hdr (option mymq_attr) :=
  do r <- mymq_getattr mqinfo; run guard_die (r.1.1 =? -1) "mymq_getattr error"; pret r.2.

Definition Mymq_setattr (mqinfo : mymq_info) (mqstat : mymq_attr) : Prog mymq_hdr (option mymq_attr * mymq_info) :=
  do r <- mymq_setattr mqinfo mqstat;
  run guard_die (r.1.1.1 =? -1) "mymq_setattr error";
  pret (r.1.2, r.2).

Definition Mymq_close (alive : Z -> bool) (self : Z) (mqinfo : mymq_info) : Prog mymq_hdr mymq_info :=
  do r <- mymq_close alive self mqinfo; run guard_die (r.1.1 =? -1) "mymq_close error"; pret r.2.

Definition Mymq_open (fault : syscall -> option Z) (others : nat -> mqfs -> mqfs) (pathname : bytes) (oflag : Z)
    (attr : option mymq_attr) (fuel : nat) : Prog ostate mymq_info :=
  do r <- mymq_open fault others pathname oflag attr fuel;
  match r with inl _ => die "mymq_open error" | inr mqd => pret mqd end.

Definition Mymq_unlink (pathname : bytes) : Prog ostate unit := fun s =>
  let '(fs, r) := mymq_unlink (o_fs s) pathname in
  guard_die (r.1 =? -1) "mymq_unlink error" (mkOstate fs (o_tick s)).
