(* ===== verification/MqInv.v ===== *)
(** * The representation of a message queue

    An abstract priority queue (the messages by decreasing priority, first
    come first served among equals), the invariant of the mapped file, and
    what the parts of [mymq_send] and [mymq_receive] do to it. *)
From S2P Require Import Prelude CString Posix Chain Mq.

Open Scope prog_scope.

(** ** The abstract queue *)
Abbreviation pqueue := (list (Z * bytes)).

Fixpoint pq_insert (prio : Z) (b : bytes) (q : pqueue) : pqueue :=
  match q with
  | [] => [(prio, b)]
  | x :: q => if x.1 <? prio then (prio, b) :: x :: q else x :: pq_insert prio b q
  end.

(** ** The invariant *)
Definition nexts (h : mymq_hdr) : gmap Z Z := msg_next <$> mq_msgs h.

(** The messages without their pointers. *)
Definition mpay (h : mymq_hdr) : gmap Z (Z * Z * bytes) :=
  (fun x => (msg_len x, msg_prio x, msg_body x)) <$> mq_msgs h.

(** What the message in a slot means. *)
Definition view (x : Z * Z * bytes) : Z * bytes := (x.1.2, slice x.2 0 x.1.1).

Definition entry (P : gmap Z (Z * Z * bytes)) (i : Z) : Z * bytes := default (0, []) (view <$> P !! i).

(** The list of messages [hl] and the free list [fl]. *)
Record mq_lists (h : mymq_hdr) (hl fl : list Z) : Prop := {
  v_head : chain (nexts h) (mqh_head h) hl 0;
  v_free : chain (nexts h) (mqh_free h) fl 0;
  v_nodup : NoDup (hl ++ fl);
  v_max : maxmsg h = zlen (hl ++ fl);
  v_size : 0 < msgsize h < 2 ^ 63;
  v_slots : forall i x, mpay h !! i = Some x ->
    zlen x.2 = MSGSIZE (msgsize h) /\ 0 <= x.1.1 <= msgsize h
}.

Definition mq_inv (h : mymq_hdr) (hl fl : list Z) : Prop := 
  mq_lists h hl fl /\ curmsgs h = zlen hl /\ 0 < maxmsg h.

(** The file holds the queue [q]. *)
Definition mq_rep (h : mymq_hdr) (q : pqueue) : Prop :=
  exists hl fl, mq_inv h hl fl /\ q = entry (mpay h) <$> hl.

(** The parts of the header the list operations leave alone. *)
Record same_rest (h h' : mymq_hdr) : Prop := {
  sr_attr : mqh_attr h' = mqh_attr h;
  sr_nwait : mqh_nwait h' = mqh_nwait h;
  sr_pid : mqh_pid h' = mqh_pid h;
  sr_event : mqh_event h' = mqh_event h;
  sr_evs : mq_evs h' = mq_evs h
}.

#[export] Instance same_rest_refl : Reflexive same_rest.
Proof. intros d. by split. Qed.

#[export] Instance same_rest_trans : Transitive same_rest.
Proof. intros d1 d2 d3 [] []. split; congruence. Qed.

Lemma MSGSIZE_ge i : 0 < i -> i <= MSGSIZE i.
Proof. intros. unfold MSGSIZE, sizeof_long. Z.to_euclidean_division_equations. lia. Qed.

(** ** Pointers *)
Definition prev_of (l : list Z) : prevptr := match last l with Some o => PMsg o | None => PHead end.

Lemma set_next_at i v h m :
  mq_msgs h !! i = Some m ->
  exists h', set_next (PMsg i) v h = Ok tt h' /\ nexts h' = <[i := v]> (nexts h) /\ mpay h' = mpay h /\
    mqh_head h' = mqh_head h /\ mqh_free h' = mqh_free h /\ same_rest h h'.
Proof.
  intros Hm. eexists. split; [unfold set_next, pbind, msg_at; rewrite Hm; reflexivity|].
  unfold nexts, mpay. cbn [mq_msgs set_msgs]. rewrite !fmap_insert. simpl. split_and!; try done.
  apply insert_id. by rewrite lookup_fmap, Hm.
Qed.

Lemma nexts_msg h i : is_Some (nexts h !! i) <-> is_Some (mq_msgs h !! i).
Proof. unfold nexts. rewrite lookup_fmap. apply fmap_is_Some. Qed.

Lemma mpay_msg h i : is_Some (mpay h !! i) <-> is_Some (mq_msgs h !! i).
Proof. unfold mpay. rewrite lookup_fmap. apply fmap_is_Some. Qed.

(** Redirecting the pointer that leads past the records [l]. *)
Lemma set_next_prev l h r v :
  chain (nexts h) (mqh_head h) l r -> NoDup l ->
  exists h', set_next (prev_of l) v h = Ok tt h' /\ chain (nexts h') (mqh_head h') l v /\
    mpay h' = mpay h /\ mqh_free h' = mqh_free h /\ same_rest h h' /\
    forall i, i ∉ l -> nexts h' !! i = nexts h !! i.
Proof.
  intros Hc Hn. unfold prev_of. destruct (last l) as [o|] eqn:E.
  - apply last_Some in E as [l' ->].
    assert (o ∉ l') as Ho. { apply NoDup_app in Hn as (_ & H & _). intros ?. by eapply H, list_elem_of_singleton. }
    destruct (chain_in _ _ _ _ o Hc) as [Hs _]; [rewrite elem_of_app, list_elem_of_singleton; auto|].
    apply nexts_msg in Hs as [m Hm].
    destruct (set_next_at o v h m Hm) as (h' & E & E1 & E2 & E3 & E4 & E5).
    exists h'. split_and!; try done.
    + rewrite E1, E3. by eapply chain_snoc.
    + intros i Hi. rewrite E1. apply lookup_insert_ne. intros ->. apply Hi. rewrite elem_of_app, list_elem_of_singleton. auto.
  - apply last_None in E as ->. exists (set_head v h). by split_and!.
Qed.

(** ** The place of a new message *)
Fixpoint ins (P : gmap Z (Z * Z * bytes)) (prio i : Z) (l : list Z) : list Z :=
  match l with
  | [] => [i]
  | j :: l => if (entry P j).1 <? prio then i :: j :: l else j :: ins P prio i l
  end.

Lemma ins_perm P prio i l : ins P prio i l ≡ₚ i :: l.
Proof.
  induction l as [|j l IH]; simpl; [done|]. destruct (_ <? prio); [done|]. rewrite IH. constructor.
Qed.

Lemma ins_entries P prio i l b :
  entry P i = (prio, b) -> entry P <$> ins P prio i l = pq_insert prio b (entry P <$> l).
Proof.
  intros Hi. induction l as [|j l IH]; [simpl; by rewrite Hi|]. rewrite fmap_cons. simpl.
  destruct (_ <? prio); [by rewrite !fmap_cons, Hi|]. by rewrite fmap_cons, IH.
Qed.

Lemma insert_loop_spec prio fi fuel l1 l2 h index :
  chain (nexts h) (mqh_head h) l1 index -> chain (nexts h) index l2 0 -> NoDup (l1 ++ l2) ->
  fi ∉ l1 ++ l2 -> is_Some (mq_msgs h !! fi) -> fi <> 0 -> (length l2 < fuel)%nat ->
  exists h', insert_loop fuel prio fi index (prev_of l1) h = Ok tt h' /\
    chain (nexts h') (mqh_head h') (l1 ++ ins (mpay h) prio fi l2) 0 /\ mpay h' = mpay h /\
    mqh_free h' = mqh_free h /\ same_rest h h' /\
    forall i, i ∉ fi :: l1 ++ l2 -> nexts h' !! i = nexts h !! i.
Proof.
  revert fuel l1 index. induction l2 as [|j l2 IH]; intros [|fuel] l1 index H1 H2 Hn Hf Hs H0 Hfu;
    try (simpl in Hfu; lia); cbn [insert_loop].
  - simpl in H2. subst index. rewrite app_nil_r in Hn, Hf. rewrite Z.eqb_refl.
    destruct (set_next_prev l1 h 0 fi H1 Hn) as (h1 & E1 & C1 & P1 & F1 & S1 & N1).
    assert (is_Some (mq_msgs h1 !! fi)) as [m Hm] by (apply mpay_msg; rewrite P1; by apply mpay_msg).
    destruct (set_next_at fi 0 h1 m Hm) as (h2 & E2 & N2 & P2 & Hh2 & F2 & S2).
    rewrite (pbind_ok _ _ _ _ _ E1). exists h2. split_and!; try congruence; [|by etrans|].
    + simpl. rewrite N2, Hh2. apply chain_app. exists fi. split; [by apply chain_insert_ne|].
      simpl. split_and!; [done..|]. exists 0. by rewrite lookup_insert_eq.
    + intros i Hi. apply not_elem_of_cons in Hi as [Hi1 Hi2]. rewrite app_nil_r in Hi2.
      rewrite N2, lookup_insert_ne by done. by apply N1.
  - simpl in H2. destruct H2 as (-> & Hj0 & n & Hjn & H2).
    assert (is_Some (mq_msgs h !! j)) as [mj Hmj] by (apply nexts_msg; by rewrite Hjn).
    rewrite eqb_false by done. unfold pbind at 1, msg_at at 1. rewrite Hmj.
    assert ((entry (mpay h) j).1 = msg_prio mj) as Ep by (unfold entry, mpay; by rewrite lookup_fmap, Hmj).
    assert (msg_next mj = n) as En by (unfold nexts in Hjn; rewrite lookup_fmap, Hmj in Hjn; by injection Hjn).
    cbn [ins]. rewrite Ep. destruct (msg_prio mj <? prio).
    + destruct Hs as [m Hm]. destruct (set_next_at fi j h m Hm) as (h1 & E1 & N1 & P1 & Hh1 & F1 & S1).
      rewrite (pbind_ok _ _ _ _ _ E1). rewrite not_elem_of_app, not_elem_of_cons in Hf. destruct Hf as (Hf1 & Hf2 & Hf3).
      apply NoDup_app in Hn as (Hn1 & Hn2 & Hn3).
      assert (chain (nexts h1) (mqh_head h1) l1 j) as H1' by (rewrite N1, Hh1; by apply chain_insert_ne).
      destruct (set_next_prev l1 h1 j fi H1' Hn1) as (h2 & E2 & C2 & P2 & F2 & S2 & N2).
      exists h2. split_and!; try congruence; [|by etrans|].
      * apply chain_app. exists fi. split; [done|]. simpl. split_and!; [done..|]. exists j.
        rewrite N2 by done. rewrite N1, lookup_insert_eq. split; [done|]. split_and!; [done..|]. exists n.
        assert (j ∉ l1) by (intros ?; eapply Hn2; [done|by left]).
        rewrite N2, N1, lookup_insert_ne by done. split; [done|]. eapply chain_ext; [|exact H2].
        intros o Ho. rewrite N2, N1, lookup_insert_ne; [done|by intros ->|].
        intros ?. eapply Hn2; [done|by right].
      * intros i Hi. rewrite !not_elem_of_cons, not_elem_of_app in Hi.
        rewrite N2, N1, lookup_insert_ne; [done|..]; intros ?; naive_solver.
    + replace (PMsg j) with (prev_of (l1 ++ [j])) by (unfold prev_of; by rewrite last_snoc).
      destruct (IH fuel (l1 ++ [j]) (msg_next mj)) as (h' & E & C & P & F & S' & N).
      * apply chain_app. exists j. split; [done|]. simpl. split_and!; [done..|]. exists n. by rewrite En.
      * by rewrite En.
      * by rewrite <- app_assoc.
      * by rewrite <- app_assoc.
      * done.
      * done.
      * simpl in Hfu. lia.
      * exists h'. rewrite <- app_assoc in C. rewrite <- app_assoc in N. done.
Qed.

(** ** The bodies of the operations *)
Lemma entry_insert_ne P i x j : j <> i -> entry (<[i := x]> P) j = entry P j.
Proof. intros. unfold entry. by rewrite lookup_insert_ne. Qed.

Lemma entries_insert_notin P i x (l : list Z) : i ∉ l -> entry (<[i := x]> P) <$> l = entry P <$> l.
Proof.
  intros Hi. apply list_fmap_ext. intros k j Hj. apply entry_insert_ne.
  intros ->. by apply Hi, list_elem_of_lookup_2 with k.
Qed.

(** Filling the first free slot, before it is linked. *)
Definition filled (fi len prio : Z) (ptr : bytes) (m : mymsg_hdr) (h : mymq_hdr) : mymq_hdr :=
  set_free (msg_next m)
    (set_msgs (<[fi := mkMsg (msg_next m) len prio (splice (msg_body m) 0 (slice ptr 0 len))]> (mq_msgs h)) h).

Lemma filled_nexts fi len prio ptr m h :
  mq_msgs h !! fi = Some m -> nexts (filled fi len prio ptr m h) = nexts h.
Proof.
  intros Hm. unfold nexts, filled. simpl. rewrite fmap_insert. apply insert_id.
  by rewrite lookup_fmap, Hm.
Qed.

Lemma filled_mpay fi len prio ptr m h :
  mpay (filled fi len prio ptr m h)
  = <[fi := (len, prio, splice (msg_body m) 0 (slice ptr 0 len))]> (mpay h).
Proof. unfold mpay, filled. simpl. by rewrite fmap_insert. Qed.

Lemma slice_splice_front l b n :
  0 <= n -> zlen b = n -> n <= zlen l -> slice (splice l 0 b) 0 n = b.
Proof.
  intros Hn Hb Hl. rewrite splice_front by lia. by apply (slice_at _ [] b (drop (length b) l)).
Qed.

(** The end of both operations: a wakeup on some condition, and the new
    number of messages. *)
Definition bump (sig : bool) (cur : Z) (h : mymq_hdr) : mymq_hdr :=
  set_curmsgs cur (if sig then set_evs (CondSignal :: mq_evs h) h else h).

Lemma bump_lists sig cur h hl fl : mq_lists h hl fl -> mq_lists (bump sig cur h) hl fl.
Proof. intros []. by destruct sig. Qed.

Lemma bump_rest sig cur h :
  mpay (bump sig cur h) = mpay h /\ curmsgs (bump sig cur h) = cur /\
  maxmsg (bump sig cur h) = maxmsg h /\ msgsize (bump sig cur h) = msgsize h /\
  mqh_nwait (bump sig cur h) = mqh_nwait h /\ mqh_pid (bump sig cur h) = mqh_pid h /\
  mqh_event (bump sig cur h) = mqh_event h /\
  mq_evs (bump sig cur h) = (if sig then [CondSignal] else []) ++ mq_evs h.
Proof. by destruct sig. Qed.

(** The new message is filled in and linked. *)
Definition send_link (ptr : bytes) (len prio : Z) : Prog mymq_hdr unit :=
  do freeindex <- get mqh_free;
  run guard_die (freeindex =? 0) "mymq_send: curmsgs = %ld; free = 0";
  do nmsghdr <- msg_at freeindex;
  run guard_die (zlen (msg_body nmsghdr) <? len) "mymq_send: memcpy past the end of the slot";
  run set_msg freeindex (mkMsg (msg_next nmsghdr) len prio
                          (splice (msg_body nmsghdr) 0 (slice ptr 0 len)));
  run put (set_free (msg_next nmsghdr));
  do index <- get mqh_head;
  do fuel <- get (fun h => S (size (mq_msgs h)));
  insert_loop fuel prio freeindex index PHead.

Lemma send_body_link ptr len prio h :
  send_body ptr len prio h
  = (run send_link ptr len prio;
     do cur <- get curmsgs;
     run put (bump (cur =? 0) (cur + 1));
     pret (Ret (0, None))) h.
Proof.
  unfold send_body, send_link. pstep. apply pbind_cong; [done|]. intros _ h1.
  pstep. apply pbind_cong; [done|]. intros m h2. pstep. apply pbind_cong; [done|]. intros _ h3.
  unfold set_msg. pstep. apply pbind_cong; [done|]. intros _ h4.
  pstep. unfold bump. by destruct (curmsgs h4 =? 0).
Qed.

(** The first free slot of a queue that is not full. *)
Lemma free_slot h hl fl :
  mq_lists h hl fl -> zlen hl < maxmsg h ->
  exists fi m fl', fl = fi :: fl' /\ mqh_free h = fi /\ fi <> 0 /\ (fi ∉ hl) /\ (fi ∉ fl') /\
    mq_msgs h !! fi = Some m /\ zlen (msg_body m) = MSGSIZE (msgsize h) /\
    chain (nexts h) (msg_next m) fl' 0.
Proof.
  intros Hi Hroom. pose proof (v_max _ _ _ Hi) as Hmax. rewrite zlen_app in Hmax.
  destruct fl as [|fi fl]; [change (zlen []) with 0 in Hmax; lia|].
  pose proof (v_free _ _ _ Hi) as Hfr. simpl in Hfr. destruct Hfr as (Hf & Hf0 & n & Hfn & Hfr).
  assert (is_Some (mq_msgs h !! fi)) as [m Hm] by (apply nexts_msg; by rewrite Hfn).
  assert (msg_next m = n) as Hmn by (unfold nexts in Hfn; rewrite lookup_fmap, Hm in Hfn; by injection Hfn).
  assert (mpay h !! fi = Some (msg_len m, msg_prio m, msg_body m)) as Hpm by (unfold mpay; by rewrite lookup_fmap, Hm).
  destruct (v_slots _ _ _ Hi _ _ Hpm) as [Hcap _].
  pose proof (v_nodup _ _ _ Hi) as (_ & Hn2 & Hn3)%NoDup_app. apply NoDup_cons in Hn3 as [Hn3 _].
  exists fi, m, fl. rewrite Hmn. split_and!; try done. intros ?. eapply Hn2; [done|by left].
Qed.

Lemma send_link_spec h hl fl ptr len prio :
  mq_lists h hl fl -> zlen hl < maxmsg h -> 0 <= len <= msgsize h -> len <= zlen ptr ->
  exists h' hl' fl', send_link ptr len prio h = Ok tt h' /\ mq_lists h' hl' fl' /\
    entry (mpay h') <$> hl' = pq_insert prio (slice ptr 0 len) (entry (mpay h) <$> hl) /\
    zlen hl' = zlen hl + 1 /\ same_rest h h'.
Proof.
  intros Hi Hroom Hlen Hptr.
  destruct (free_slot h hl fl Hi Hroom) as (fi & m & fl' & -> & Hf & Hf0 & Hfh & Hff & Hm & Hcap & Hfr).
  pose proof (MSGSIZE_ge (msgsize h) (proj1 (v_size _ _ _ Hi))) as Hge.
  pose proof (v_nodup _ _ _ Hi) as Hnd. pose proof Hnd as (Hn1 & Hn2 & Hn3)%NoDup_app.
  unfold send_link. pstep. rewrite Hf, pbind_guard by (by apply eqb_false).
  unfold pbind at 1, msg_at. rewrite Hm. rewrite pbind_guard by (apply ltb_false; lia).
  unfold set_msg. pstep. fold (filled fi len prio ptr m h). set (h1 := filled fi len prio ptr m h).
  assert (nexts h1 = nexts h) as N1 by (by apply filled_nexts).
  assert (zlen (slice ptr 0 len) = len) as Hsl by (apply slice_length; lia).
  assert (entry (mpay h1) fi = (prio, slice ptr 0 len)) as Efi.
  { unfold entry, h1. rewrite filled_mpay, lookup_insert_eq. unfold view. simpl. f_equal.
    rewrite slice_splice_front by lia. done. }
  change PHead with (prev_of []).
  destruct (insert_loop_spec prio fi (S (size (mq_msgs h1))) [] hl h1 (mqh_head h1)) as
    (h2 & E2 & C2 & P2 & F2 & S2 & N2); try done.
  { simpl. rewrite N1. apply (v_head _ _ _ Hi). }
  { unfold h1, filled. simpl. by rewrite lookup_insert_eq. }
  { enough (length hl <= size (mq_msgs h1))%nat by lia. apply chain_length; [done|].
    intros o Ho. apply nexts_msg. rewrite N1. by apply (chain_in _ _ _ _ o (v_head _ _ _ Hi)). }
  simpl app in *. assert (zlen (ins (mpay h1) prio fi hl) = zlen hl + 1) as Hz by (unfold zlen; rewrite ins_perm; simpl; lia).
  exists h2, (ins (mpay h1) prio fi hl), fl'. split_and!; [done| | |done|transitivity h1; [by split|done]].
  - assert (msgsize h2 = msgsize h) as Es by (unfold msgsize; by rewrite (sr_attr _ _ S2)).
    assert (maxmsg h2 = maxmsg h) as Em by (unfold maxmsg; by rewrite (sr_attr _ _ S2)).
    split; rewrite ?Es, ?Em; [exact C2| | | |apply Hi|].
    + rewrite F2. eapply chain_ext; [|exact Hfr]. intros o Ho.
      rewrite N2, N1; [done|]. rewrite not_elem_of_cons. split; [by intros ->|].
      intros ?. eapply Hn2; [done|by right].
    + rewrite ins_perm. apply (NoDup_Permutation_proper _ _ (Permutation_middle hl fl' fi)). done.
    + rewrite (v_max _ _ _ Hi), !zlen_app, zlen_cons, Hz. lia.
    + intros i x. rewrite P2. unfold h1. rewrite filled_mpay. destruct (decide (i = fi)) as [->|].
      * rewrite lookup_insert_eq. intros [= <-]. simpl. split; [|done]. rewrite splice_length by lia. done.
      * rewrite lookup_insert_ne by done. apply (v_slots _ _ _ Hi).
  - rewrite P2, (ins_entries _ _ _ _ (slice ptr 0 len)) by done. f_equal. unfold h1. rewrite filled_mpay.
    by apply entries_insert_notin.
Qed.

Lemma send_body_spec h q ptr len prio :
  mq_rep h q -> zlen q < maxmsg h -> 0 <= len <= msgsize h -> len <= zlen ptr ->
  exists h', send_body ptr len prio h = Ok (Ret (0, None)) h' /\
    mq_rep h' (pq_insert prio (slice ptr 0 len) q) /\
    maxmsg h' = maxmsg h /\ msgsize h' = msgsize h /\ mqh_nwait h' = mqh_nwait h /\ mqh_pid h' = mqh_pid h /\
    mqh_event h' = mqh_event h /\ mq_evs h' = (if zlen q =? 0 then [CondSignal] else []) ++ mq_evs h.
Proof.
  intros (hl & fl & (Hi & Hc & Hpos) & ->) Hroom Hlen Hptr.
  assert (zlen (entry (mpay h) <$> hl) = zlen hl) as Hz by (unfold zlen; by rewrite length_fmap).
  rewrite Hz in *.
  destruct (send_link_spec h hl fl ptr len prio Hi Hroom Hlen Hptr) as (h1 & hl' & fl' & E & Hi' & He & Hz' & S1).
  rewrite send_body_link, (pbind_ok _ _ _ _ _ E). pstep. destruct S1 as [Sa Sn Sp Se Sv].
  assert (curmsgs h1 = zlen hl) as Hcur by (unfold curmsgs; by rewrite Sa). rewrite Hcur.
  eexists. split; [reflexivity|].
  destruct (bump_rest (zlen hl =? 0) (zlen hl + 1) h1) as (B1 & B2 & B3 & B4 & B5 & B6 & B7 & B8).
  rewrite B3, B4, B5, B6, B7, B8, Sn, Sp, Se, Sv. unfold maxmsg, msgsize. rewrite Sa. split_and!; try done.
  exists hl', fl'. rewrite B1, He. split; [|done]. split; [by apply bump_lists|]. rewrite B2, B3. unfold maxmsg in *. rewrite Sa. lia.
Qed.

(** ** Receiving *)
Lemma receive_body_spec h prio b q priop :
  mq_rep h ((prio, b) :: q) ->
  exists h', receive_body priop h = Ok (Ret (mkRcv (zlen b) None b (if priop then Some prio else None))) h' /\
    mq_rep h' q /\ zlen b <= msgsize h /\
    maxmsg h' = maxmsg h /\ msgsize h' = msgsize h /\ mqh_nwait h' = mqh_nwait h /\ mqh_pid h' = mqh_pid h /\
    mqh_event h' = mqh_event h /\
    mq_evs h' = (if 1 + zlen q =? maxmsg h then [CondSignal] else []) ++ mq_evs h.
Proof.
  intros (hl & fl & (Hi & Hc & Hpos) & Hq). destruct hl as [|o hl]; [done|]. rewrite fmap_cons in Hq. injection Hq as Ho ->.
  pose proof (v_head _ _ _ Hi) as Hh. simpl in Hh. destruct Hh as (Hhd & Ho0 & n & Hon & Hh).
  assert (is_Some (mq_msgs h !! o)) as [m Hm] by (apply nexts_msg; by rewrite Hon).
  assert (msg_next m = n) as Hmn by (unfold nexts in Hon; rewrite lookup_fmap, Hm in Hon; by injection Hon).
  assert (mpay h !! o = Some (msg_len m, msg_prio m, msg_body m)) as Hpm by (unfold mpay; by rewrite lookup_fmap, Hm).
  destruct (v_slots _ _ _ Hi _ _ Hpm) as [Hcap Hlen]. simpl in Hcap, Hlen.
  pose proof (MSGSIZE_ge (msgsize h) (proj1 (v_size _ _ _ Hi))) as Hge.
  unfold entry in Ho. rewrite Hpm in Ho. unfold view in Ho. simpl in Ho. injection Ho as -> ->.
  assert (zlen (slice (msg_body m) 0 (msg_len m)) = msg_len m) as -> by (apply slice_length; lia).
  unfold receive_body. pstep. rewrite Hhd, pbind_guard by (by apply eqb_false).
  unfold pbind at 1, msg_at at 1. rewrite Hm. pstep. cbn [mqh_free set_head].
  set (h1 := set_head (msg_next m) h).
  destruct (set_next_at o (mqh_free h) h1 m Hm) as (h2 & E2 & N2 & P2 & Hh2 & F2 & S2).
  rewrite (pbind_ok _ _ _ _ _ E2). pstep.
  destruct S2 as [Sa Sn Sp Se Sv].
  assert (curmsgs (set_free o h2) = zlen (o :: hl)) as Hcur by (rewrite <- Hc; unfold curmsgs; simpl; by rewrite Sa).
  assert (maxmsg (set_free o h2) = maxmsg h) as Hmx by (unfold maxmsg; simpl; by rewrite Sa).
  rewrite Hcur, Hmx, zlen_cons. replace (1 + zlen hl - 1) with (zlen hl) by lia.
  exists (bump (1 + zlen hl =? maxmsg h) (zlen hl) (set_free o h2)). split.
  { destruct (1 + zlen hl =? maxmsg h); reflexivity. }
  destruct (bump_rest (1 + zlen hl =? maxmsg h) (zlen hl) (set_free o h2)) as (B1 & B2 & B3 & B4 & B5 & B6 & B7 & B8).
  assert (zlen (entry (mpay h) <$> hl) = zlen hl) as Hz by (unfold zlen; by rewrite length_fmap).
  rewrite B3, B4, B5, B6, B7, B8, Hmx, Hz. cbn [mqh_nwait mqh_pid mqh_event mq_evs set_free].
  rewrite Sn, Sp, Se, Sv. split_and!; try done; try lia.
  2:{ unfold msgsize. simpl. by rewrite Sa. }
  pose proof (v_nodup _ _ _ Hi) as Hnd. simpl in Hnd. apply NoDup_cons in Hnd as [Hnd1 Hnd2].
  rewrite not_elem_of_app in Hnd1. destruct Hnd1 as [Hoh Hof].
  exists hl, (o :: fl). rewrite B1. split; [|change (mpay (set_free o h2)) with (mpay h2); by rewrite P2].
  split; [|rewrite B2, B3, Hmx; done]. apply bump_lists. split.
  - change (chain (nexts h2) (mqh_head h2) hl 0). rewrite Hh2, N2. simpl. rewrite Hmn. by apply chain_insert_ne.
  - change (chain (nexts h2) o (o :: fl) 0). rewrite N2. simpl. split_and!; [done..|].
    exists (mqh_free h). rewrite lookup_insert_eq. split; [done|]. apply chain_insert_ne; [done|apply Hi].
  - rewrite <- Permutation_middle. constructor; [|done]. by rewrite not_elem_of_app.
  - rewrite Hmx, (v_max _ _ _ Hi). simpl app. rewrite !zlen_app, !zlen_cons, !zlen_app. lia.
  - change (0 < msgsize h2 < 2 ^ 63). unfold msgsize. rewrite Sa. apply Hi.
  - change (forall i x, mpay h2 !! i = Some x -> zlen x.2 = MSGSIZE (msgsize h2) /\ 0 <= x.1.1 <= msgsize h2).
    rewrite P2. unfold msgsize. rewrite Sa. apply Hi.
Qed.
