(* ===== verification/MqThms.v ===== *)
(** * The properties of the message queues

    What each operation of unpv22e/my_pxmsg_mmap does on every branch, the
    queue as a system of threads that wait and wake each other up, and
    opening a queue. *)
From Stdlib Require Import Sorting.Sorted.
From S2P Require Import Prelude CString Posix Chain Threads Mq MqInv.

Open Scope prog_scope.

(** ** Whole operations *)
Definition send_result (nonblock : bool) (h : mymq_hdr) (q : pqueue) (len : Z) : call (Z * option Z) :=
  if msgsize h <? len then Ret (-1, Some EMSGSIZE)
  else if zlen q =? maxmsg h then (if nonblock then Ret (-1, Some EAGAIN) else Wait)
  else Ret (0, None).

Definition sent (nonblock : bool) (h : mymq_hdr) (q : pqueue) (len : Z) : bool :=
  (len <=? msgsize h) && negb (zlen q =? maxmsg h).

(** The registered process is notified when a message arrives on an empty
    queue and no thread waits for one. *)
Definition notified (h : mymq_hdr) (q : pqueue) : bool :=
  (zlen q =? 0) && negb (mqh_pid h =? 0) && (mqh_nwait h =? 0).

Definition sig_events (h : mymq_hdr) (q : pqueue) : list mqev :=
  if notified h q && (sigev_notify (mqh_event h) =? SIGEV_SIGNAL)
  then [SigQueue (mqh_pid h) (sigev_signo (mqh_event h)) (sigev_value (mqh_event h))] else [].

Lemma rep_bounds h q : mq_rep h q -> 0 <= zlen q <= maxmsg h /\ 0 < maxmsg h /\ curmsgs h = zlen q /\ 0 < msgsize h < 2 ^ 63.
Proof.
  intros (hl & fl & (Hi & Hc & Hpos) & ->).
  assert (zlen (entry (mpay h) <$> hl) = zlen hl) as -> by (unfold zlen; by rewrite length_fmap).
  pose proof (v_max _ _ _ Hi) as Hm. rewrite zlen_app in Hm. pose proof (zlen_nonneg fl). pose proof (zlen_nonneg hl).
  pose proof (v_size _ _ _ Hi). lia.
Qed.

Lemma rep_pid h q pid evs : mq_rep h q -> mq_rep (set_pid pid (set_evs evs h)) q.
Proof. intros (hl & fl & ([] & Hc & Hpos) & ->). by exists hl, fl. Qed.

Lemma wrap_size h q : mq_rep h q -> wrapu 64 (msgsize h) = msgsize h.
Proof. intros H%rep_bounds. unfold wrapu. apply Z.mod_small. lia. Qed.

Lemma send_run info h q ptr len prio :
  mq_rep h q -> mqi_magic info = MQI_MAGIC -> 0 <= len <= zlen ptr ->
  let nb := has_flag (mqi_flags info) O_NONBLOCK in
  exists h', mymq_send info ptr len prio h = Ok (send_result nb h q len) h' /\
    maxmsg h' = maxmsg h /\ msgsize h' = msgsize h /\ mqh_nwait h' = mqh_nwait h /\ mqh_event h' = mqh_event h /\
    if sent nb h q len then
      mq_rep h' (pq_insert prio (slice ptr 0 len) q) /\
      mqh_pid h' = (if notified h q then 0 else mqh_pid h) /\
      mq_evs h' = (if zlen q =? 0 then [CondSignal] else []) ++ sig_events h q ++ mq_evs h
    else h' = h.
Proof.
  intros Hr Hm Hl nb. destruct (rep_bounds h q Hr) as (Hz & Hpos & Hc & Hms).
  unfold mymq_send. rewrite Hm, Z.eqb_refl. cbn [negb]. pstep. fold (msgsize h). fold (curmsgs h). fold (maxmsg h).
  rewrite (wrap_size h q Hr), Hc. unfold send_result, sent, sig_events, notified.
  destruct (Z.ltb_spec (msgsize h) len) as [H1|H1].
  { rewrite (leb_false len) by lia. exists h. done. }
  rewrite (leb_true len) by lia. destruct (Z.eqb_spec (zlen q) 0) as [H0|H0].
  - rewrite (eqb_false (zlen q)) by lia. cbn [andb negb]. pstep.
    set (notif := negb (mqh_pid h =? 0) && (mqh_nwait h =? 0)).
    set (sg := sigev_notify (mqh_event h) =? SIGEV_SIGNAL).
    set (evs := (if notif && sg then [SigQueue (mqh_pid h) (sigev_signo (mqh_event h)) (sigev_value (mqh_event h))] else [])).
    set (h1 := set_pid (if notif then 0 else mqh_pid h) (set_evs (evs ++ mq_evs h) h)).
    assert (mq_rep h1 q) as Hr1 by (by apply rep_pid).
    destruct (send_body_spec h1 q ptr len prio Hr1) as (h' & E & Hr' & M1 & M2 & M3 & M4 & M5 & M6);
      [change (maxmsg h1) with (maxmsg h); lia|change (msgsize h1) with (msgsize h); lia|lia|].
    exists h'. rewrite (proj2 (Z.eqb_eq (zlen q) 0) H0) in M6.
    split; [|split_and!; try done]. rewrite <- E. unfold h1, evs. destruct notif, sg; simpl; try done; by destruct h.
  - destruct (Z.eqb_spec (zlen q) (maxmsg h)) as [H2|H2]; cbn [andb negb].
    + rewrite leb_true by lia. unfold nb. destruct (has_flag (mqi_flags info) O_NONBLOCK); [by exists h|].
      unfold send_wait. pstep. rewrite Hc, leb_true by lia. by exists h.
    + rewrite leb_false by lia.
      destruct (send_body_spec h q ptr len prio Hr) as (h' & E & Hr' & M1 & M2 & M3 & M4 & M5 & M6); [lia|lia|lia|].
      exists h'. rewrite eqb_false in M6 by done. by rewrite E.
Qed.

Definition receive_result (nonblock priop : bool) (h : mymq_hdr) (q : pqueue) (maxlen : Z) : call received :=
  if maxlen <? msgsize h then Ret (rcv_err EMSGSIZE)
  else match q with
       | [] => if nonblock then Ret (rcv_err EAGAIN) else Wait
       | (prio, b) :: _ => Ret (mkRcv (zlen b) None b (if priop then Some prio else None))
       end.

(** What a receive that takes a message does to the rest of the header. *)
Definition full_signal (h : mymq_hdr) (q : pqueue) : list mqev :=
  if zlen q =? maxmsg h then [CondSignal] else [].

Lemma receive_run info h q maxlen priop :
  mq_rep h q -> mqi_magic info = MQI_MAGIC ->
  let nb := has_flag (mqi_flags info) O_NONBLOCK in
  exists h', mymq_receive info maxlen priop h = Ok (receive_result nb priop h q maxlen) h' /\
    maxmsg h' = maxmsg h /\ msgsize h' = msgsize h /\ mqh_pid h' = mqh_pid h /\ mqh_event h' = mqh_event h /\
    if maxlen <? msgsize h then h' = h
    else match q with
         | [] => h' = if nb then h else set_nwait (mqh_nwait h + 1) h
         | _ :: q' => mq_rep h' q' /\ mqh_nwait h' = mqh_nwait h /\ mq_evs h' = full_signal h q ++ mq_evs h
         end.
Proof.
  intros Hr Hm nb. destruct (rep_bounds h q Hr) as (Hz & Hpos & Hc & Hms).
  unfold mymq_receive. rewrite Hm, Z.eqb_refl. cbn [negb]. pstep. fold (msgsize h). fold (curmsgs h).
  rewrite (wrap_size h q Hr), Hc. unfold receive_result. destruct (maxlen <? msgsize h); [by exists h|].
  destruct q as [|[prio b] q].
  - change (zlen [] =? 0) with true. cbn beta iota. unfold nb. destruct (has_flag (mqi_flags info) O_NONBLOCK); [by exists h|].
    pstep. unfold receive_wait. pstep. change (curmsgs (set_nwait (mqh_nwait h + 1) h)) with (curmsgs h). rewrite Hc.
    by exists (set_nwait (mqh_nwait h + 1) h).
  - rewrite eqb_false by zl. destruct (receive_body_spec h prio b q priop Hr) as (h' & E & Hr' & _ & M1 & M2 & M3 & M4 & M5 & M6).
    exists h'. rewrite E. unfold full_signal. rewrite zlen_cons. done.
Qed.

(** The wait loops after a wakeup. *)
Lemma send_wait_run h q ptr len prio :
  mq_rep h q -> 0 <= len <= msgsize h -> len <= zlen ptr ->
  exists h', maxmsg h' = maxmsg h /\ msgsize h' = msgsize h /\ mqh_nwait h' = mqh_nwait h /\
    if zlen q =? maxmsg h then send_wait ptr len prio h = Ok Wait h' /\ h' = h
    else send_wait ptr len prio h = Ok (Ret (0, None)) h' /\ mq_rep h' (pq_insert prio (slice ptr 0 len) q).
Proof.
  intros Hr Hl Hp. destruct (rep_bounds h q Hr) as (Hz & Hpos & Hc & Hms).
  unfold send_wait. pstep. rewrite Hc. destruct (Z.eqb_spec (zlen q) (maxmsg h)).
  - rewrite leb_true by lia. by exists h.
  - rewrite leb_false by lia. destruct (send_body_spec h q ptr len prio Hr) as (h' & E & Hr' & M1 & M2 & M3 & _); [lia..|].
    by exists h'.
Qed.

Lemma rep_nwait h q n : mq_rep h q -> mq_rep (set_nwait n h) q.
Proof. intros (hl & fl & ([] & Hc & Hpos) & ->). by exists hl, fl. Qed.

Lemma receive_wait_run h q priop :
  mq_rep h q ->
  exists h', maxmsg h' = maxmsg h /\ msgsize h' = msgsize h /\
    match q with
    | [] => receive_wait priop h = Ok Wait h' /\ h' = h
    | (prio, b) :: q' =>
        receive_wait priop h = Ok (Ret (mkRcv (zlen b) None b (if priop then Some prio else None))) h' /\
        mq_rep h' q' /\ mqh_nwait h' = mqh_nwait h - 1
    end.
Proof.
  intros Hr. destruct (rep_bounds h q Hr) as (Hz & Hpos & Hc & Hms).
  unfold receive_wait. pstep. rewrite Hc. destruct q as [|[prio b] q]; [by exists h|].
  rewrite eqb_false by zl. pstep.
  destruct (receive_body_spec _ prio b q priop (rep_nwait h _ (mqh_nwait h - 1) Hr)) as
    (h' & E & Hr' & _ & M1 & M2 & M3 & _). exists h'. done.
Qed.

(** ** The threads of the processes that use the queue *)
Inductive pending :=
| PSend (info : mymq_info) (ptr : bytes) (len prio : Z)
| PRecv (info : mymq_info) (maxlen : Z) (priop : bool).

Inductive result :=
| RSent (r : Z * option Z)
| RReceived (r : received).

Definition call_map {A B} (f : A -> B) (c : call A) : call B :=
  match c with Ret a => Ret (f a) | Wait => Wait end.

(** A call from its start, and a call woken up in its wait loop. *)
Definition start (p : pending) : Prog mymq_hdr (call result) :=
  match p with
  | PSend info ptr len prio => do r <- mymq_send info ptr len prio; pret (call_map RSent r)
  | PRecv info maxlen priop => do r <- mymq_receive info maxlen priop; pret (call_map RReceived r)
  end.

Definition resume (p : pending) : Prog mymq_hdr (call result) :=
  match p with
  | PSend _ ptr len prio => do r <- send_wait ptr len prio; pret (call_map RSent r)
  | PRecv _ _ priop => do r <- receive_wait priop; pret (call_map RReceived r)
  end.

(** A thread runs outside of the queue, is blocked on the condition
    variable, or has been woken up and waits for the mutex. *)
Inductive tstate := TIdle | TWaiting (p : pending) | TReady (p : pending).

Record sys := mkSys { s_mem : mymq_hdr; s_thr : gmap nat tstate }.

Definition is_waiting (x : tstate) : bool := match x with TWaiting _ => true | _ => false end.

Fixpoint nsignals (l : list mqev) : nat :=
  match l with
  | [] => 0
  | CondSignal :: l => S (nsignals l)
  | _ :: l => nsignals l
  end.

(** [pthread_cond_signal] unblocks one of the waiting threads, [w]. *)
Definition wake (sig : bool) (w : option nat) (thr : gmap nat tstate) : option (gmap nat tstate) :=
  match sig, w with
  | false, None => Some thr
  | true, Some t => match thr !! t with Some (TWaiting p) => Some (<[t := TReady p]> thr) | _ => None end
  | true, None => if bool_decide (map_Forall (fun _ x => is_waiting x = false) thr) then Some thr else None
  | false, Some _ => None
  end.

Definition finish (s : sys) (t : nat) (p : pending) (w : option nat) (o : outcome mymq_hdr (call result)) : option sys :=
  match o with
  | Abort _ _ => None
  | Ok r h =>
      let thr := <[t := match r with Ret _ => TIdle | Wait => TWaiting p end]> (s_thr s) in
      mkSys h <$> wake (bool_decide (nsignals (mq_evs (s_mem s)) < nsignals (mq_evs h))%nat) w thr
  end.

(** The scheduler's choices. *)
Inductive action :=
| ACall (t : nat) (p : pending) (w : option nat)
| AResume (t : nat) (w : option nat)
| ASpurious (t : nat).

Definition act (a : action) (s : sys) : option sys :=
  match a with
  | ACall t p w => match s_thr s !! t with Some TIdle => finish s t p w (start p (s_mem s)) | _ => None end
  | AResume t w => match s_thr s !! t with Some (TReady p) => finish s t p w (resume p (s_mem s)) | _ => None end
  | ASpurious t =>
      match s_thr s !! t with
      | Some (TWaiting p) => Some (mkSys (s_mem s) (<[t := TReady p]> (s_thr s)))
      | _ => None
      end
  end.

(** Arguments of calls on an open queue: the buffer is as long as the caller
    says. *)
Definition pending_ok (p : pending) : Prop :=
  match p with
  | PSend info ptr len _ => mqi_magic info = MQI_MAGIC /\ 0 <= len <= zlen ptr
  | PRecv info _ _ => mqi_magic info = MQI_MAGIC
  end.

Definition action_ok (a : action) : Prop :=
  match a with ACall _ p _ => pending_ok p | _ => True end.

Inductive step : sys -> sys -> Prop :=
| step_act a s s' : action_ok a -> act a s = Some s' -> step s s'.

(** ** The invariant of the system *)
Definition recv_blocked (x : tstate) : bool :=
  match x with TWaiting (PRecv _ _ _) | TReady (PRecv _ _ _) => true | _ => false end.

Definition nrecv (thr : gmap nat tstate) : Z := count_if recv_blocked thr.

Definition blocked_ok (h : mymq_hdr) (x : tstate) : Prop :=
  match x with
  | TIdle => True
  | TWaiting p | TReady p =>
      match p with PSend _ ptr len _ => 0 <= len <= msgsize h /\ len <= zlen ptr | PRecv _ _ _ => True end
  end.

Record sys_inv (s : sys) : Prop := {
  y_rep : exists q, mq_rep (s_mem s) q;
  y_nwait : mqh_nwait (s_mem s) = nrecv (s_thr s);
  y_thr : forall t x, s_thr s !! t = Some x -> blocked_ok (s_mem s) x
}.

Definition after (p : pending) (r : call result) : tstate :=
  match r with Ret _ => TIdle | Wait => TWaiting p end.

(** What a critical section run by a thread that was in state [old] does. *)
Definition good_run (h : mymq_hdr) (old : tstate) (p : pending) (o : outcome mymq_hdr (call result)) : Prop :=
  exists r h', o = Ok r h' /\ (exists q, mq_rep h' q) /\ msgsize h' = msgsize h /\
    mqh_nwait h' = mqh_nwait h - Z.b2z (recv_blocked old) + Z.b2z (recv_blocked (after p r)) /\
    blocked_ok h' (after p r).

Lemma start_good s p :
  sys_inv s -> pending_ok p -> good_run (s_mem s) TIdle p (start p (s_mem s)).
Proof.
  intros [[q Hr] Hn Ht] Hp. set (h := s_mem s) in *. unfold good_run, start.
  destruct p as [info ptr len prio|info maxlen priop]; simpl in Hp.
  - destruct Hp as [Hm Hl]. destruct (send_run info h q ptr len prio Hr Hm Hl) as (h' & E & M1 & M2 & M3 & M4 & Hres).
    eexists _, h'. rewrite (pbind_ok _ _ _ _ _ E). split; [reflexivity|].
    unfold sent, send_result in *. destruct (Z.ltb_spec (msgsize h) len) as [H1|H1].
    + rewrite leb_false in Hres by lia. simpl in Hres. subst h'. simpl. split_and!; eauto; lia.
    + rewrite leb_true in Hres by lia. destruct (zlen q =? maxmsg h); simpl in Hres.
      * subst h'. destruct (has_flag (mqi_flags info) O_NONBLOCK); simpl; split_and!; eauto; lia.
      * destruct Hres as [Hr' _]. simpl. split_and!; eauto; lia.
  - destruct (receive_run info h q maxlen priop Hr Hp) as (h' & E & M1 & M2 & M3 & M4 & Hres).
    eexists _, h'. rewrite (pbind_ok _ _ _ _ _ E). split; [reflexivity|].
    unfold receive_result in *. destruct (maxlen <? msgsize h); [subst h'; simpl; split_and!; eauto; lia|].
    destruct q as [|[prio b] q].
    + destruct (has_flag (mqi_flags info) O_NONBLOCK); subst h'; simpl; split_and!; eauto; try lia.
      exists []. by apply rep_nwait.
    + destruct Hres as (Hr' & M5 & _). simpl. split_and!; eauto; lia.
Qed.

Lemma resume_good s t p :
  sys_inv s -> s_thr s !! t = Some (TReady p) -> good_run (s_mem s) (TReady p) p (resume p (s_mem s)).
Proof.
  intros [[q Hr] Hn Hthr] Ht. specialize (Hthr _ _ Ht). set (h := s_mem s) in *. unfold good_run, resume.
  destruct p as [info ptr len prio|info maxlen priop]; simpl in Hthr.
  - destruct Hthr as [Hl Hp]. destruct (send_wait_run h q ptr len prio Hr Hl Hp) as (h' & M1 & M2 & M3 & Hres).
    destruct (zlen q =? maxmsg h); destruct Hres as [E Hres]; eexists _, h'; rewrite (pbind_ok _ _ _ _ _ E);
      (split; [reflexivity|]); simpl.
    + subst h'. split_and!; eauto; lia.
    + split_and!; eauto; lia.
  - destruct (receive_wait_run h q priop Hr) as (h' & M1 & M2 & Hres). destruct q as [|[prio b] q].
    + destruct Hres as [E ->]. eexists _, h. rewrite (pbind_ok _ _ _ _ _ E). split; [reflexivity|].
      simpl. split_and!; eauto; lia.
    + destruct Hres as (E & Hr' & M3). eexists _, h'. rewrite (pbind_ok _ _ _ _ _ E). split; [reflexivity|].
      simpl. split_and!; eauto; lia.
Qed.

Lemma blocked_ok_size h h' x : msgsize h' = msgsize h -> blocked_ok h x -> blocked_ok h' x.
Proof. intros E. destruct x as [|[]|[]]; simpl; rewrite ?E; done. Qed.

(** Waking a thread up changes neither the number of receivers nor what the
    threads are about. *)
Lemma wake_inv h sig w thr thr' :
  wake sig w thr = Some thr' -> (forall t x, thr !! t = Some x -> blocked_ok h x) ->
  nrecv thr' = nrecv thr /\ forall t x, thr' !! t = Some x -> blocked_ok h x.
Proof.
  intros Hw Hok. assert (forall t p, thr !! t = Some (TWaiting p) -> thr' = <[t := TReady p]> thr ->
    nrecv thr' = nrecv thr /\ forall t x, thr' !! t = Some x -> blocked_ok h x) as H.
  { intros t p Ht ->. split.
    - unfold nrecv. rewrite (count_insert _ _ _ _ (TReady p) Ht). destruct p; simpl; lia.
    - intros t' x. destruct (decide (t' = t)) as [->|].
      + rewrite lookup_insert_eq. intros [= <-]. apply (Hok _ _ Ht).
      + rewrite lookup_insert_ne by done. apply Hok. }
  unfold wake in Hw. destruct sig, w as [t|]; simplify_eq/=; try done.
  - destruct (thr !! t) as [[|p|p]|] eqn:E; simplify_eq. by apply (H t p).
  - case_bool_decide; by simplify_eq.
Qed.

Lemma finish_inv s s' t old p w o :
  sys_inv s -> s_thr s !! t = Some old -> good_run (s_mem s) old p o -> finish s t p w o = Some s' -> sys_inv s'.
Proof.
  intros [Hrep Hn Ht] Hold (r & h' & -> & Hrep' & Hsz & Hnw & Hok) Hf. unfold finish in Hf.
  apply fmap_Some in Hf as (thr' & Hw & ->).
  assert (forall t' x, <[t := after p r]> (s_thr s) !! t' = Some x -> blocked_ok h' x) as Hthr.
  { intros t' x. destruct (decide (t' = t)) as [->|].
    - rewrite lookup_insert_eq. intros [= <-]. done.
    - rewrite lookup_insert_ne by done. intros Hx. eapply blocked_ok_size; [done|]. by eapply Ht. }
  destruct (wake_inv h' _ _ _ _ Hw Hthr) as [Hc Hthr']. split; simpl; [done| |done].
  rewrite Hc. change (match r with Ret _ => TIdle | Wait => TWaiting p end) with (after p r).
  unfold nrecv in *. rewrite (count_insert _ _ _ _ _ Hold). lia.
Qed.

Lemma step_inv s s' : sys_inv s -> step s s' -> sys_inv s'.
Proof.
  intros Hi Hs. revert Hi. destruct Hs as [a s s' Ha Hact]. intros Hi. destruct a as [t p w|t w|t]; simpl in *.
  - destruct (s_thr s !! t) as [[| |]|] eqn:E; try done.
    eapply finish_inv; [done|done|by apply start_good|done].
  - destruct (s_thr s !! t) as [[| |p]|] eqn:E; try done.
    eapply finish_inv; [done|done|by eapply resume_good|done].
  - destruct (s_thr s !! t) as [[|p|]|] eqn:E; try done. injection Hact as <-.
    destruct Hi as [Hrep Hn Ht]. split; simpl; [done|..].
    + rewrite Hn. unfold nrecv. rewrite (count_insert _ _ _ _ (TReady p) E). destruct p; simpl; lia.
    + intros t' x. destruct (decide (t' = t)) as [->|].
      * rewrite lookup_insert_eq. intros [= <-]. apply (Ht _ _ E).
      * rewrite lookup_insert_ne by done. apply Ht.
Qed.

Lemma reachable_inv s s' : sys_inv s -> rtc step s s' -> sys_inv s'.
Proof. intros Hi H. induction H as [|s1 s2 s3 H12 _ IH]; [done|]. apply IH. by eapply step_inv. Qed.

(** ** The order of delivery

    Inserting messages into the abstract queue sorts them by decreasing
    priority and keeps the order of messages of the same priority; what is
    sent to an empty queue and received again comes out in that order. *)
Definition prio_ge (x y : Z * bytes) : Prop := y.1 <= x.1.

Definition of_prio (p : Z) (q : pqueue) : pqueue := filter (fun x => x.1 = p) q.

Lemma pq_insert_perm prio b q : pq_insert prio b q ≡ₚ (prio, b) :: q.
Proof.
  induction q as [|x q IH]; simpl; [done|]. destruct (x.1 <? prio); [done|]. rewrite IH. constructor.
Qed.

Lemma pq_insert_sorted prio b q : StronglySorted prio_ge q -> StronglySorted prio_ge (pq_insert prio b q).
Proof.
  induction 1 as [|x q Hs IH Hx]; simpl; [by repeat constructor|].
  destruct (Z.ltb_spec x.1 prio).
  - constructor; [by constructor|]. constructor; [unfold prio_ge; simpl; lia|].
    eapply Forall_impl; [exact Hx|]. unfold prio_ge. simpl. intros y ?. lia.
  - constructor; [done|]. rewrite (Forall_forall (prio_ge x)). intros y Hy. rewrite pq_insert_perm in Hy.
    apply elem_of_cons in Hy as [->|Hy]; [done|]. rewrite Forall_forall in Hx. by apply Hx.
Qed.

Lemma pq_insert_stable p prio b q :
  StronglySorted prio_ge q ->
  of_prio p (pq_insert prio b q) = of_prio p q ++ (if decide (prio = p) then [(prio, b)] else []).
Proof.
  unfold of_prio. induction 1 as [|x q Hs IH Hx]; cbn [pq_insert].
  { rewrite filter_cons. simpl. by case_decide. }
  destruct (Z.ltb_spec x.1 prio) as [Hlt|Hge].
  - rewrite filter_cons. cbn [fst]. case_decide as E; [|by rewrite app_nil_r]. subst p.
    assert (filter (fun y => y.1 = prio) (x :: q) = []) as ->; [|done].
    apply filter_none. constructor; [lia|]. eapply Forall_impl; [exact Hx|]. unfold prio_ge. simpl. intros y ?. lia.
  - rewrite !filter_cons, IH. by destruct (decide (x.1 = p)).
Qed.

(** Messages sent one after the other. *)
Definition pq_inserts (l : pqueue) (q : pqueue) : pqueue :=
  fold_left (fun q x => pq_insert x.1 x.2 q) l q.

Lemma pq_inserts_spec l q :
  StronglySorted prio_ge q ->
  pq_inserts l q ≡ₚ q ++ l /\ StronglySorted prio_ge (pq_inserts l q) /\
  forall p, of_prio p (pq_inserts l q) = of_prio p q ++ of_prio p l.
Proof.
  revert q. induction l as [|[prio b] l IH]; intros q Hs; simpl.
  { rewrite app_nil_r. split_and!; [done..|]. intros p. by rewrite app_nil_r. }
  destruct (IH (pq_insert prio b q) (pq_insert_sorted _ _ _ Hs)) as (H1 & H2 & H3). split_and!; [|done|].
  - rewrite H1, pq_insert_perm. by rewrite <- Permutation_middle.
  - intros p. rewrite H3, pq_insert_stable by done. rewrite <- app_assoc. f_equal.
    unfold of_prio. rewrite filter_cons. simpl. by case_decide.
Qed.

(** ** Sending and receiving many messages *)
Fixpoint send_all (info : mymq_info) (l : pqueue) : Prog mymq_hdr (list (call (Z * option Z))) :=
  match l with
  | [] => pret []
  | (prio, b) :: l =>
      do r <- mymq_send info b (zlen b) prio;
      do rs <- send_all info l;
      pret (r :: rs)
  end.

Fixpoint receive_all (info : mymq_info) (maxlen : Z) (n : nat) : Prog mymq_hdr (list (call received)) :=
  match n with
  | O => pret []
  | S n =>
      do r <- mymq_receive info maxlen true;
      do rs <- receive_all info maxlen n;
      pret (r :: rs)
  end.

Definition delivered (x : Z * bytes) : call received := Ret (mkRcv (zlen x.2) None x.2 (Some x.1)).

Lemma pq_insert_length prio b q : zlen (pq_insert prio b q) = zlen q + 1.
Proof. unfold zlen. rewrite pq_insert_perm. simpl. lia. Qed.

Lemma send_all_run info l h q :
  mq_rep h q -> mqi_magic info = MQI_MAGIC -> zlen q + zlen l <= maxmsg h ->
  Forall (fun x => zlen x.2 <= msgsize h) l ->
  exists h', send_all info l h = Ok (replicate (length l) (Ret (0, None))) h' /\
    mq_rep h' (pq_inserts l q) /\ maxmsg h' = maxmsg h /\ msgsize h' = msgsize h.
Proof.
  intros Hr Hm Hroom Hl. revert h q Hr Hroom Hl. induction l as [|[prio b] l IH]; intros h q Hr Hroom Hl.
  { by exists h. }
  apply Forall_cons in Hl as [Hb Hl]. simpl in Hb. rewrite zlen_cons in Hroom. pose proof (zlen_nonneg l).
  destruct (send_run info h q b (zlen b) prio Hr Hm) as (h1 & E & M1 & M2 & _ & _ & Hres).
  { split; [apply zlen_nonneg|done]. }
  unfold send_result, sent in *. rewrite leb_true in Hres by done. rewrite ltb_false in E by done.
  rewrite eqb_false in Hres by lia. rewrite (eqb_false (zlen q)) in E by lia. destruct Hres as [Hr1 _].
  rewrite slice_all in Hr1 by done.
  destruct (IH h1 (pq_insert prio b q) Hr1) as (h2 & E2 & Hr2 & M3 & M4).
  { rewrite pq_insert_length, M1. lia. }
  { by rewrite M2. }
  exists h2. simpl. rewrite (pbind_ok _ _ _ _ _ E), (pbind_ok _ _ _ _ _ E2). split_and!; [done|done|congruence..].
Qed.

Lemma receive_all_run info maxlen h q :
  mq_rep h q -> mqi_magic info = MQI_MAGIC -> msgsize h <= maxlen ->
  exists h', receive_all info maxlen (length q) h = Ok (delivered <$> q) h' /\ mq_rep h' [].
Proof.
  intros Hr Hm Hmax. revert h Hr Hmax. induction q as [|[prio b] q IH]; intros h Hr Hmax; [by exists h|].
  destruct (receive_run info h _ maxlen true Hr Hm) as (h1 & E & M1 & M2 & _ & _ & Hres).
  unfold receive_result in E. rewrite ltb_false in E, Hres by done. destruct Hres as [Hr1 _].
  destruct (IH h1 Hr1) as (h2 & E2 & Hr2); [lia|].
  exists h2. simpl. by rewrite (pbind_ok _ _ _ _ _ E), (pbind_ok _ _ _ _ _ E2).
Qed.

(** ** Opening a message queue

    The free list [mymq_open] builds is a well-formed empty queue; a creator
    that fails leaves no file behind; a file whose creator never finishes is
    given up after [MAX_TRIES] looks. *)
(** ** The initial free list *)
Fixpoint slot_indices (n : nat) (index stp : Z) : list Z :=
  match n with
  | O => [index]
  | S n => index :: slot_indices n (index + stp) stp
  end.

Lemma slot_indices_ge n index stp i : 0 < stp -> i ∈ slot_indices n index stp -> index <= i.
Proof.
  intros Hs. revert index. induction n as [|n IH]; intros index; simpl.
  - intros ->%list_elem_of_singleton. lia.
  - intros [->|Hi]%elem_of_cons; [lia|]. apply IH in Hi. lia.
Qed.

Lemma slot_indices_nodup n index stp : 0 < stp -> NoDup (slot_indices n index stp).
Proof.
  intros Hs. revert index. induction n as [|n IH]; intros index; simpl; [apply NoDup_singleton|].
  constructor; [|apply IH]. intros H%slot_indices_ge; lia.
Qed.

Lemma slot_indices_length n index stp : length (slot_indices n index stp) = S n.
Proof. revert index. induction n as [|n IH]; intros index; simpl; [done|]. by rewrite IH. Qed.

Lemma init_slots_chain n index stp cap :
  0 < index -> 0 < stp ->
  chain (msg_next <$> init_slots n index stp cap) index (slot_indices n index stp) 0.
Proof.
  intros Hi Hs. revert index Hi. induction n as [|n IH]; intros index Hi; simpl; rewrite fmap_insert; simpl.
  - split_and!; [done|lia|]. exists 0. by rewrite lookup_insert_eq.
  - split_and!; [done|lia|]. exists (index + stp). rewrite lookup_insert_eq. split; [done|].
    apply chain_insert_ne; [|apply IH; lia]. intros H%slot_indices_ge; lia.
Qed.

Lemma init_slots_body n index stp cap i m :
  init_slots n index stp cap !! i = Some m -> msg_body m = replicate (Z.to_nat cap) 0 /\ msg_len m = 0.
Proof.
  revert index. induction n as [|n IH]; intros index; simpl.
  - rewrite lookup_insert_Some, lookup_empty. intros [[_ <-]|[_ ?]]; done.
  - rewrite lookup_insert_Some. intros [[_ <-]|[_ ?]]; [done|]. by eapply IH.
Qed.

Definition attr_ok (a : mymq_attr) : Prop :=
  0 < mq_maxmsg a /\ 0 < mq_msgsize a < 2 ^ 62 /\
  sizeof_mymq_hdr + mq_maxmsg a * (sizeof_mymsg_hdr + MSGSIZE (mq_msgsize a)) < 2 ^ 63 /\
  mq_maxmsg a <= 2 ^ 31.

Lemma init_rep a : attr_ok a -> mq_rep (init_hdr a) [].
Proof.
  intros (Hm & Hs & _ & _). pose proof (MSGSIZE_ge (mq_msgsize a) (proj1 Hs)).
  exists [], (slot_indices (Z.to_nat (mq_maxmsg a - 1)) sizeof_mymq_hdr (sizeof_mymsg_hdr + MSGSIZE (mq_msgsize a))).
  split; [|done]. split; [|done]. unfold init_hdr. split; simpl.
  - done.
  - apply init_slots_chain; unfold sizeof_mymq_hdr, sizeof_mymsg_hdr; lia.
  - apply slot_indices_nodup. unfold sizeof_mymsg_hdr; lia.
  - unfold maxmsg, zlen. simpl. rewrite slot_indices_length. lia.
  - unfold msgsize. simpl. lia.
  - intros i x. unfold mpay. simpl. rewrite lookup_fmap. intros (m & Hi & ->)%fmap_Some.
    apply init_slots_body in Hi as [-> ->]. simpl. unfold msgsize. simpl. rewrite zlen_replicate. lia.
Qed.

(** ** Running [mymq_open] *)
Section Open.
Context (fault : syscall -> option Z) (others : nat -> mqfs -> mqfs).
Context (pathname : bytes) (oflag : Z) (attr : option mymq_attr).

Abbreviation mq_open := (mymq_open fault others pathname oflag attr).

Definition the_attr : mymq_attr := default defattr attr.

Lemma defattr_ok : attr_ok defattr.
Proof. by vm_compute. Qed.

Lemma filesize_ok a :
  attr_ok a ->
  filesize a = sizeof_mymq_hdr + mq_maxmsg a * (sizeof_mymsg_hdr + MSGSIZE (mq_msgsize a)) /\ 0 < filesize a.
Proof.
  intros (Hm & Hs & Hf & _). pose proof (MSGSIZE_ge (mq_msgsize a) (proj1 Hs)).
  assert (0 < sizeof_mymq_hdr + mq_maxmsg a * (sizeof_mymsg_hdr + MSGSIZE (mq_msgsize a)))
    by (unfold sizeof_mymq_hdr, sizeof_mymsg_hdr in *; nia).
  assert (filesize a = sizeof_mymq_hdr + mq_maxmsg a * (sizeof_mymsg_hdr + MSGSIZE (mq_msgsize a))); [|lia].
  unfold filesize, wraps. rewrite Z.mod_small; lia.
Qed.

(** The calls of the creator after its [open], and the first that fails. *)
Definition creator_calls : list syscall :=
  [SysLseek; SysWrite; SysMmap; SysMalloc; SysMutexattr; SysMutex; SysCondattr; SysCond; SysFchmod].

Fixpoint first_fault (l : list syscall) : option Z :=
  match l with
  | [] => None
  | c :: l => match fault c with Some e => Some e | None => first_fault l end
  end.

(** The creator: a queue, or an error and no file. *)
Lemma mq_create_run nb s :
  attr_ok the_attr ->
  exists s', open_create fault pathname attr nb s
    = Ok (match first_fault creator_calls with Some e => inl e | None => inr (mkInfo MQI_MAGIC nb) end) s' /\
    o_fs s' = match first_fault creator_calls with
              | Some _ => delete pathname (o_fs s)
              | None => <[pathname := mkMqfile false (Some (init_hdr the_attr))]> (o_fs s)
              end.
Proof.
  intros Ha. destruct (filesize_ok _ Ha) as [Hf Hp]. pose proof Ha as (Hm & Hs & _ & Hi).
  assert (open_create fault pathname attr nb s = create_queue fault pathname the_attr nb s) as ->.
  { unfold open_create, the_attr in *. destruct attr as [a|]; [|done]. simpl in *. rewrite !leb_false by lia. done. }
  unfold create_queue, try_sys, first_fault, creator_calls. rewrite ltb_false by lia.
  do 4 (destruct (fault _); [by eexists|]).
  rewrite !pbind_guard by (apply ltb_false; lia). unfold set_file. pstep.
  do 5 (destruct (fault _); [eexists; split; [reflexivity|]; apply delete_insert_eq|]).
  pstep. eexists. split; [reflexivity|]. apply insert_insert_eq.
Qed.

Lemma attr_bad nb s a :
  attr = Some a -> mq_maxmsg a <= 0 \/ mq_msgsize a <= 0 ->
  open_create fault pathname attr nb s = created_err pathname EINVAL s.
Proof.
  intros -> H. unfold open_create.
  destruct (Z.leb_spec (mq_maxmsg a) 0), (Z.leb_spec (mq_msgsize a) 0); simpl; done || lia.
Qed.

(** The wait for the creator of the file when nobody else interferes. *)
Lemma wait_init_stuck n s f :
  (forall t fs, others t fs = fs) -> o_fs s !! pathname = Some f -> qf_xusr f = true ->
  exists s', wait_init others pathname n s = Ok (Some false) s' /\ o_fs s' = o_fs s.
Proof.
  intros Ho Hf Hx. revert s Hf. induction n as [|n IH]; intros s Hf; simpl; [by exists s|].
  unfold o_sync. pstep. rewrite Ho. simpl. rewrite Hf, Hx. simpl.
  destruct (IH (mkOstate (o_fs s) (S (o_tick s))) Hf) as (s' & E & E'). exists s'. done.
Qed.
End Open.
