(* ===== verification/MqProps.v ===== *)
(** * The properties of the message queues, as a client sees them *)
From Stdlib Require Import Sorting.Sorted.
From S2P Require Import Prelude CString Posix Chain Mq MqInv MqThms.

Open Scope prog_scope.

(** ** A queue to try the theorems on *)
Definition attr4 : mymq_attr := mkAttr 0 4 8 0.
Definition info0 : mymq_info := mkInfo MQI_MAGIC 0.
Definition queue0 : mymq_hdr := init_hdr attr4.

Lemma attr4_ok : attr_ok attr4.
Proof. by vm_compute. Qed.

Lemma queue0_rep : mq_rep queue0 [].
Proof. apply init_rep, attr4_ok. Qed.

(** ** Properties *)

(** C7: [mymq_send] on every branch.  A message that is too long is
    EMSGSIZE; on a full queue a non-blocking descriptor gets EAGAIN and a
    blocking one waits; these leave the queue as it was.  Otherwise the
    message is put behind all messages of the same or a higher priority,
    waiting threads are signalled exactly when the queue was empty, and a
    registered process is notified, once, exactly when the queue was empty
    and no thread waited for a message. *)
Theorem mq_send_spec info h q ptr len prio :
  mq_rep h q -> mqi_magic info = MQI_MAGIC -> 0 <= len <= zlen ptr ->
  let nb := has_flag (mqi_flags info) O_NONBLOCK in
  exists h', mymq_send info ptr len prio h = Ok (send_result nb h q len) h' /\
    if sent nb h q len then
      mq_rep h' (pq_insert prio (slice ptr 0 len) q) /\
      mqh_pid h' = (if notified h q then 0 else mqh_pid h) /\
      mq_evs h' = (if zlen q =? 0 then [CondSignal] else []) ++ sig_events h q ++ mq_evs h
    else h' = h.
Proof.
  intros H1 H2 H3 nb. destruct (send_run info h q ptr len prio H1 H2 H3) as (h' & E & _ & _ & _ & _ & H).
  exists h'. split; [exact E|exact H].
Qed.

Lemma mq_send_spec_witness :
  exists h', mymq_send info0 (lit "hello") 5 3 queue0 = Ok (Ret (0, None)) h' /\
    mq_rep h' [(3, lit "hello")] /\ mqh_pid h' = 0 /\ mq_evs h' = [CondSignal].
Proof.
  destruct (mq_send_spec info0 queue0 [] (lit "hello") 5 3) as (h' & E & H).
  - apply queue0_rep.
  - reflexivity.
  - vm_compute. split; discriminate.
  - exists h'. split; [exact E|exact H].
Defined.

(** C8: [mymq_receive] on every branch.  A buffer shorter than the longest
    message is EMSGSIZE; on an empty queue a non-blocking descriptor gets
    EAGAIN and a blocking one is counted as a waiter and waits; otherwise
    the caller gets the first message, its length and priority, the slot
    goes back to the free list, and waiting threads are signalled exactly
    when the queue was full. *)
Theorem mq_receive_spec info h q maxlen priop :
  mq_rep h q -> mqi_magic info = MQI_MAGIC ->
  let nb := has_flag (mqi_flags info) O_NONBLOCK in
  exists h', mymq_receive info maxlen priop h = Ok (receive_result nb priop h q maxlen) h' /\
    if maxlen <? msgsize h then h' = h
    else match q with
         | [] => h' = if nb then h else set_nwait (mqh_nwait h + 1) h
         | _ :: q' => mq_rep h' q' /\ mqh_nwait h' = mqh_nwait h /\ mq_evs h' = full_signal h q ++ mq_evs h
         end.
Proof.
  intros H1 H2 nb. destruct (receive_run info h q maxlen priop H1 H2) as (h' & E & _ & _ & _ & _ & H).
  exists h'. split; [exact E|exact H].
Qed.

Lemma mq_receive_spec_witness :
  exists h', mymq_receive (mkInfo MQI_MAGIC O_NONBLOCK) 8 true queue0 = Ok (Ret (rcv_err EAGAIN)) h' /\ h' = queue0.
Proof.
  apply (mq_receive_spec (mkInfo MQI_MAGIC O_NONBLOCK) queue0 [] 8 true); [apply queue0_rep|reflexivity].
Defined.

(** Order of delivery.  Messages sent to an empty queue that has room
    for them and then received come out complete, by decreasing priority,
    and in the order they were sent among those of the same priority. *)
Theorem mq_priority_order info h l maxlen :
  mq_rep h [] -> mqi_magic info = MQI_MAGIC -> zlen l <= maxmsg h ->
  Forall (fun x => zlen x.2 <= msgsize h) l -> msgsize h <= maxlen ->
  exists h1 h2 out, send_all info l h = Ok (replicate (length l) (Ret (0, None))) h1 /\
    receive_all info maxlen (length l) h1 = Ok (delivered <$> out) h2 /\ mq_rep h2 [] /\
    out ≡ₚ l /\ StronglySorted prio_ge out /\ forall p, of_prio p out = of_prio p l.
Proof.
  intros Hr Hm Hl Hb Hx. destruct (send_all_run info l h [] Hr Hm Hl Hb) as (h1 & E1 & Hr1 & M1 & M2).
  destruct (pq_inserts_spec l [] (SSorted_nil _)) as (P1 & P2 & P3). simpl in P1.
  destruct (receive_all_run info maxlen h1 _ Hr1 Hm) as (h2 & E2 & Hr2); [lia|].
  exists h1, h2, (pq_inserts l []). rewrite (Permutation_length P1) in E2. done.
Qed.

Definition demo_msgs : pqueue := [(1, lit "a"); (5, lit "b"); (1, lit "c"); (5, lit "d")].

Lemma mq_priority_order_witness :
  exists h1 h2 out, send_all info0 demo_msgs queue0 = Ok (replicate 4 (Ret (0, None))) h1 /\
    receive_all info0 8 4 h1 = Ok (delivered <$> out) h2 /\ mq_rep h2 [] /\
    out ≡ₚ demo_msgs /\ StronglySorted prio_ge out /\ forall p, of_prio p out = of_prio p demo_msgs.
Proof.
  apply (mq_priority_order info0 queue0 demo_msgs 8); [apply queue0_rep|done|done| |done].
  repeat (apply Forall_cons; split; [done|]); apply Forall_nil; exact I.
Defined.

(** C9: safety of the whole system.  However the calls of any number of
    threads, their wakeups and spurious wakeups interleave, the file stays a
    well-formed queue whose [mqh_nwait] is the number of threads blocked in
    [mymq_receive], and no call and no woken thread ever runs into the
    [err_dump]s of the code, an index outside of the queue, or a copy past
    the end of a message. *)
Theorem mq_system_safe s0 s :
  sys_inv s0 -> rtc step s0 s ->
  (exists q, mq_rep (s_mem s) q) /\ mqh_nwait (s_mem s) = nrecv (s_thr s) /\
  (forall p, pending_ok p -> exists r h', start p (s_mem s) = Ok r h') /\
  (forall t p, s_thr s !! t = Some (TReady p) -> exists r h', resume p (s_mem s) = Ok r h').
Proof.
  intros Hi Hr. pose proof (reachable_inv _ _ Hi Hr) as Hs. split_and!; [apply Hs|apply Hs|..].
  - intros p Hp. destruct (start_good s p Hs Hp) as (r & h' & E & _). eauto.
  - intros t p Ht. destruct (resume_good s t p Hs Ht) as (r & h' & E & _). eauto.
Qed.

Definition sys0 : sys := mkSys queue0 (<[0%nat := TIdle]> (<[1%nat := TIdle]> (<[2%nat := TIdle]> ∅))).

Lemma sys0_inv : sys_inv sys0.
Proof.
  split; [exists []; apply queue0_rep|done|]. intros t x. simpl.
  rewrite !lookup_insert_Some, lookup_empty. intros [[_ <-]|[_ [[_ <-]|[_ [[_ <-]|[_ ?]]]]]]; done.
Qed.

Fixpoint acts (l : list action) (s : sys) : option sys :=
  match l with
  | [] => Some s
  | a :: l => act a s ≫= acts l
  end.

Lemma acts_reachable l s s' : Forall action_ok l -> acts l s = Some s' -> rtc step s s'.
Proof.
  intros Hl. revert s. induction Hl as [|a l Ha Hl IH]; simpl; intros s H; [by injection H as ->|].
  apply bind_Some in H as (s1 & H1 & H2). eapply rtc_l; [by econstructor|]. by apply IH.
Qed.

Definition recv_call : pending := PRecv info0 8 false.
Definition send_call (c : Z) : pending := PSend info0 [c] 1 0.

(** Two receivers wait; two messages are sent before the first receiver
    runs. *)
Definition lost_acts : list action :=
  [ACall 0 recv_call None; ACall 1 recv_call None; ACall 2 (send_call 65) (Some 0%nat);
   ACall 2 (send_call 66) None; AResume 0 None].

Lemma lost_acts_ok : Forall action_ok lost_acts.
Proof. repeat (apply Forall_cons; split; [done|]). by apply Forall_nil. Qed.

Lemma mq_system_safe_witness :
  let s := default sys0 (acts lost_acts sys0) in
  (exists q, mq_rep (s_mem s) q) /\ mqh_nwait (s_mem s) = nrecv (s_thr s) /\
  (forall p, pending_ok p -> exists r h', start p (s_mem s) = Ok r h') /\
  (forall t p, s_thr s !! t = Some (TReady p) -> exists r h', resume p (s_mem s) = Ok r h').
Proof.
  intros s. apply (mq_system_safe sys0 s sys0_inv). apply (acts_reachable lost_acts); [apply lost_acts_ok|].
  vm_compute. reflexivity.
Defined.

(** A wakeup can be lost.  [mymq_send] signals only when it finds the
    queue empty, so of two blocked receivers only one is woken when two
    messages arrive before it runs: the system can reach a state in which a
    message is on the queue, a receiver is blocked, and no thread has a
    wakeup pending. *)
Theorem mq_lost_wakeup :
  exists s, rtc step sys0 s /\ curmsgs (s_mem s) = 1 /\ s_thr s !! 1%nat = Some (TWaiting recv_call) /\
    forall t p, s_thr s !! t <> Some (TReady p).
Proof.
  destruct (acts lost_acts sys0) as [s|] eqn:E; [|by vm_compute in E].
  assert (curmsgs (s_mem s) = 1 /\ s_thr s !! 1%nat = Some (TWaiting recv_call) /\
    map_Forall (fun _ x => match x with TReady _ => False | _ => True end) (s_thr s)) as (H1 & H2 & H3).
  { vm_compute in E. injection E as <-. split; [reflexivity|]. split; [reflexivity|].
    apply map_Forall_to_list. vm_compute. by repeat constructor. }
  exists s. split; [by eapply acts_reachable; [apply lost_acts_ok|]|]. split_and!; [done..|].
  intros t p Ht. by apply H3 in Ht.
Qed.

(** A registration is good for one notification.  A process that
    registers on an empty queue nobody waits on gets exactly one signal, with
    its signal number and value, when the next message is sent; while it is
    registered (and alive) others get EBUSY, afterwards nobody is
    registered. *)
Theorem mq_notify_once alive self other info h ev ev' b prio :
  mq_rep h [] -> mqi_magic info = MQI_MAGIC -> mqh_nwait h = 0 -> mqh_pid h = 0 -> self <> 0 ->
  alive self = true -> sigev_notify ev = SIGEV_SIGNAL -> zlen b <= msgsize h ->
  exists h1 h2, mymq_notify alive self info (Some ev) h = Ok (0, None) h1 /\
    mymq_notify alive other info (Some ev') h1 = Ok (-1, Some EBUSY) h1 /\
    mymq_send info b (zlen b) prio h1 = Ok (Ret (0, None)) h2 /\ mqh_pid h2 = 0 /\
    mq_evs h2 = CondSignal :: SigQueue self (sigev_signo ev) (sigev_value ev) :: mq_evs h.
Proof.
  intros Hr Hm Hn Hp Hs Ha Hev Hb. set (h1 := set_event ev (set_pid self h)).
  assert (mq_rep h1 []) as Hr1. { destruct Hr as (hl & fl & ([] & Hc & Hpos) & Hq). by exists hl, fl. }
  destruct (send_run info h1 [] b (zlen b) prio Hr1 Hm) as (h2 & E & _ & _ & _ & _ & Hres).
  { split; [apply zlen_nonneg|done]. }
  destruct (rep_bounds _ _ Hr1) as (_ & Hpos & _ & _).
  unfold send_result, sent, notified, sig_events in *. change (msgsize h1) with (msgsize h) in *.
  rewrite leb_true in Hres by done. rewrite ltb_false in E by done.
  rewrite (eqb_false (zlen [])) in E, Hres by (change (zlen []) with 0; lia).
  unfold notified in Hres. simpl in Hres. rewrite Hn, Hev, (eqb_false self) in Hres by done. simpl in Hres.
  exists h1, h2. unfold mymq_notify. rewrite Hm, Z.eqb_refl. cbn [negb]. pstep. rewrite Hp. simpl.
  rewrite (eqb_false self) by done. rewrite Ha. simpl. destruct Hres as (_ & H1 & H2). done.
Qed.

Lemma mq_notify_once_witness :
  exists h1 h2, mymq_notify (fun _ => true) 100 info0 (Some (mkSigev 0 10 7)) queue0 = Ok (0, None) h1 /\
    mymq_notify (fun _ => true) 200 info0 (Some (mkSigev 0 12 8)) h1 = Ok (-1, Some EBUSY) h1 /\
    mymq_send info0 (lit "x") 1 0 h1 = Ok (Ret (0, None)) h2 /\ mqh_pid h2 = 0 /\
    mq_evs h2 = [CondSignal; SigQueue 100 10 7].
Proof.
  apply (mq_notify_once (fun _ => true) 100 200 info0 queue0 (mkSigev 0 10 7) (mkSigev 0 12 8) (lit "x") 0);
    [apply queue0_rep|done..].
Defined.

(** Creating a queue.  When the name is free, [mymq_open] with O_CREAT
    either returns a descriptor on a well-formed empty queue with the given
    attributes (or the default ones) that is marked as initialised, or, when
    one of its system calls fails, returns that call's error and leaves no
    file of the name behind. *)
Theorem mq_open_creates fault others pathname oflag attr fuel s :
  has_flag oflag O_CREAT = true -> fault SysOpenCreat = None ->
  others (o_tick s) (o_fs s) !! pathname = None -> attr_ok (the_attr attr) ->
  let fs := others (o_tick s) (o_fs s) in
  exists s', mymq_open fault others pathname oflag attr (S fuel) s
    = Ok (match first_fault fault creator_calls with
          | Some e => inl e
          | None => inr (mkInfo MQI_MAGIC (Z.land oflag O_NONBLOCK)) end) s' /\
    o_fs s' = match first_fault fault creator_calls with
              | Some _ => fs
              | None => <[pathname := mkMqfile false (Some (init_hdr (the_attr attr)))]> fs end /\
    mq_rep (init_hdr (the_attr attr)) [].
Proof.
  intros Hc Hf Hno Ha fs. cbn [mymq_open]. rewrite Hc. unfold o_sync. pstep. fold fs. cbn [o_fs].
  rewrite Hf. unfold fs at 1. rewrite Hno. unfold set_file. pstep. cbn [o_fs o_tick].
  destruct (mq_create_run fault pathname attr (Z.land oflag O_NONBLOCK)
    (mkOstate (<[pathname := mkMqfile true None]> fs) (S (o_tick s))) Ha) as (s' & E & E').
  exists s'. split; [exact E|]. split; [|by apply init_rep]. rewrite E'. cbn [o_fs].
  destruct (first_fault fault creator_calls); [by rewrite delete_insert_id|by rewrite insert_insert_eq].
Qed.

Lemma mq_open_creates_witness :
  exists s', mymq_open (fun _ => None) (fun _ fs => fs) (lit "/q") (Z.lor O_RDWR O_CREAT) (Some attr4) 1 (mkOstate ∅ 0)
    = Ok (inr (mkInfo MQI_MAGIC 0)) s' /\
    o_fs s' = <[lit "/q" := mkMqfile false (Some (init_hdr attr4))]> ∅ /\ mq_rep (init_hdr attr4) [].
Proof.
  apply (mq_open_creates (fun _ => None) (fun _ fs => fs) (lit "/q") (Z.lor O_RDWR O_CREAT) (Some attr4) 0 (mkOstate ∅ 0));
    [done|done|done|apply attr4_ok].
Defined.

(** Opening an existing queue when no other process interferes.  A
    descriptor on the file as it is if its creator has finished; ETIMEDOUT
    after ten looks if the creator never finishes; EEXIST with O_CREAT and
    O_EXCL.  No file is changed in any of these cases. *)
Theorem mq_open_existing pathname oflag attr fuel fs f :
  fs !! pathname = Some f ->
  exists s', mymq_open (fun _ => None) (fun _ fs => fs) pathname oflag attr (S fuel) (mkOstate fs 0)
    = Ok (if has_flag oflag O_CREAT && has_flag oflag O_EXCL then inl EEXIST
          else if qf_xusr f then inl ETIMEDOUT
          else inr (mkInfo MQI_MAGIC (Z.land oflag O_NONBLOCK))) s' /\ o_fs s' = fs.
Proof.
  intros Hf. set (nb := Z.land oflag O_NONBLOCK).
  assert (forall again t, exists s', open_exists (fun _ => None) (fun _ fs => fs) pathname oflag again nb (mkOstate fs t)
    = Ok (if qf_xusr f then inl ETIMEDOUT else inr (mkInfo MQI_MAGIC nb)) s' /\ o_fs s' = fs) as Hex.
  { intros again t. unfold open_exists, o_sync. pstep. cbn [o_fs o_tick]. rewrite Hf.
    destruct (qf_xusr f) eqn:Ex.
    - destruct (wait_init_stuck (fun _ fs => fs) pathname MAX_TRIES (mkOstate fs (S t)) f) as (s' & E & E'); [done..|].
      rewrite (pbind_ok _ _ _ _ _ E). by exists s'.
    - cbn [wait_init MAX_TRIES]. unfold o_sync. pstep. cbn [o_fs o_tick]. rewrite Hf, Ex. cbn. by eexists. }
  cbn [mymq_open]. fold nb. destruct (has_flag oflag O_CREAT); [|by apply Hex].
  unfold o_sync. pstep. cbn [o_fs o_tick]. rewrite Hf. cbn [andb].
  destruct (has_flag oflag O_EXCL); [by eexists|by apply Hex].
Qed.

Lemma mq_open_existing_witness :
  exists s', mymq_open (fun _ => None) (fun _ fs => fs) (lit "/q") O_CREAT None 1
      (mkOstate (<[lit "/q" := mkMqfile true None]> ∅) 0)
    = Ok (inl ETIMEDOUT) s' /\ o_fs s' = <[lit "/q" := mkMqfile true None]> ∅.
Proof.
  apply (mq_open_existing (lit "/q") O_CREAT None 0 (<[lit "/q" := mkMqfile true None]> ∅) (mkMqfile true None)).
  reflexivity.
Defined.

(** The size of the file is not checked for overflow.  Attributes
    whose product wraps around pass all checks of [mymq_open]; the file is
    then too short and initialising the queue stores past the end of the
    mapping. *)
Theorem mq_open_size_overflow :
  exists s', mymq_open (fun _ => None) (fun _ fs => fs) (lit "/q") O_CREAT (Some (mkAttr 0 (2 ^ 59) 8 0)) 1 (mkOstate ∅ 0)
    = Abort "mymq_open: store past the end of the mapped file" s'.
Proof. eexists. apply out_abort. by vm_compute. Qed.
