(* ===== verification/SemIface.v ===== *)
(** * Counting semaphores as the programs use them

    What the producer-consumer programs of unpv22e rely on, whichever of the
    three implementations of the semaphores (memory-mapped file, System V
    semaphore, FIFO) they are linked with. *)
From S2P Require Import Prelude Posix.

(** [sem_rep s v]: the semaphore [s] has value [v]. *)
Class Semaphore (S : Type) := {
  sem_post : Prog S (Z * option Z);
  sem_wait : Prog S (call (Z * option Z));
  sem_rep : S -> Z -> Prop;
  sem_max : Z;
  sem_range s v : sem_rep s v -> 0 <= v <= sem_max;
  post_law s v : sem_rep s v -> v < sem_max ->
    exists s', sem_post s = Ok (0, None) s' /\ sem_rep s' (v + 1);
  wait_law s v : sem_rep s v -> 0 < v ->
    exists s', sem_wait s = Ok (Ret (0, None)) s' /\ sem_rep s' (v - 1);
  block_law s : sem_rep s 0 ->
    exists s', sem_wait s = Ok Wait s' /\ sem_rep s' 0
}.

(** ** The producer-consumer program (unpv22e/my_pxsem_mmap/prodcons1.c)

    One producer and one consumer share a circular buffer; the program is
    proved against the interface of the semaphores, so it holds with each of
    the three implementations. *)
Section ProdCons.
Context {S : Type} `{SEM : Semaphore S}.
Context (nitems : Z).

Definition NBUFF : Z := 10.

(** The statement of the loop body a thread is at. *)
Inductive pc := WaitCount | WaitMutex | Access | PostMutex | PostCount.

Definition step_of (p : pc) : Z :=
  match p with WaitCount => 0 | WaitMutex => 1 | Access => 2 | PostMutex => 3 | PostCount => 4 end.

(** [prod] and [cons]: the loop variable and the statement of each thread;
    [printed]: the lines the consumer has printed. *)
Record pcstate := mkPc {
  mutex : S; nempty : S; nstored : S;
  buff : list Z;
  prod_i : Z; prod_pc : pc;
  cons_i : Z; cons_pc : pc;
  printed : list (Z * Z)
}.

(** [Mysem_wait]: [None] when it blocks; the error return ends the
    program. *)
Definition Wait_sem (s : S) : option S :=
  match sem_wait s with
  | Ok (Ret (rc, _)) s' => if rc =? 0 then Some s' else None
  | _ => None
  end.

Definition Post_sem (s : S) : option S :=
  match sem_post s with
  | Ok (rc, _) s' => if rc =? 0 then Some s' else None
  | _ => None
  end.

(** One statement of [produce]. *)
Definition produce_step (x : pcstate) : option pcstate :=
  let i := prod_i x in
  if negb (i <? nitems) then None
  else match prod_pc x with
  | WaitCount => s ← Wait_sem (nempty x);
      Some (mkPc (mutex x) s (nstored x) (buff x) i WaitMutex (cons_i x) (cons_pc x) (printed x))
  | WaitMutex => s ← Wait_sem (mutex x);
      Some (mkPc s (nempty x) (nstored x) (buff x) i Access (cons_i x) (cons_pc x) (printed x))
  | Access =>
      Some (mkPc (mutex x) (nempty x) (nstored x) (<[Z.to_nat (i mod NBUFF) := i]> (buff x)) i PostMutex
              (cons_i x) (cons_pc x) (printed x))
  | PostMutex => s ← Post_sem (mutex x);
      Some (mkPc s (nempty x) (nstored x) (buff x) i PostCount (cons_i x) (cons_pc x) (printed x))
  | PostCount => s ← Post_sem (nstored x);
      Some (mkPc (mutex x) (nempty x) s (buff x) (i + 1) WaitCount (cons_i x) (cons_pc x) (printed x))
  end.

(** One statement of [consume]. *)
Definition consume_step (x : pcstate) : option pcstate :=
  let i := cons_i x in
  if negb (i <? nitems) then None
  else match cons_pc x with
  | WaitCount => s ← Wait_sem (nstored x);
      Some (mkPc (mutex x) (nempty x) s (buff x) (prod_i x) (prod_pc x) i WaitMutex (printed x))
  | WaitMutex => s ← Wait_sem (mutex x);
      Some (mkPc s (nempty x) (nstored x) (buff x) (prod_i x) (prod_pc x) i Access (printed x))
  | Access =>
      let v := default 0 (buff x !! Z.to_nat (i mod NBUFF)) in
      Some (mkPc (mutex x) (nempty x) (nstored x) (buff x) (prod_i x) (prod_pc x) i PostMutex
              (if v =? i then printed x else (i, v) :: printed x))
  | PostMutex => s ← Post_sem (mutex x);
      Some (mkPc s (nempty x) (nstored x) (buff x) (prod_i x) (prod_pc x) i PostCount (printed x))
  | PostCount => s ← Post_sem (nempty x);
      Some (mkPc (mutex x) s (nstored x) (buff x) (prod_i x) (prod_pc x) (i + 1) WaitCount (printed x))
  end.

Inductive pc_step : pcstate -> pcstate -> Prop :=
| step_produce x x' : produce_step x = Some x' -> pc_step x x'
| step_consume x x' : consume_step x = Some x' -> pc_step x x'.

Definition pc_init (m e n : S) : pcstate := mkPc m e n (replicate 10 0) 0 WaitCount 0 WaitCount [].

(** ** The invariant *)
Definition in_cs (p : pc) : Z := match p with Access | PostMutex => 1 | _ => 0 end.
Definition past_wait (p : pc) : Z := match p with WaitCount => 0 | _ => 1 end.
Definition stored (p : pc) : Z := match p with PostMutex | PostCount => 1 | _ => 0 end.

Record pc_inv (x : pcstate) : Prop := {
  n_mutex : sem_rep (mutex x) (1 - in_cs (prod_pc x) - in_cs (cons_pc x));
  n_empty : sem_rep (nempty x) (NBUFF - (prod_i x + past_wait (prod_pc x)) + cons_i x);
  n_stored : sem_rep (nstored x) (prod_i x - (cons_i x + past_wait (cons_pc x)));
  n_cs : in_cs (prod_pc x) + in_cs (cons_pc x) <= 1;
  n_len : length (buff x) = 10%nat;
  n_pos : 0 <= cons_i x;
  n_top : prod_i x <= nitems;
  n_done_p : prod_i x < nitems \/ prod_pc x = WaitCount;
  n_done_c : cons_i x < nitems \/ cons_pc x = WaitCount;
  n_buff : forall k, cons_i x <= k < prod_i x + stored (prod_pc x) ->
    buff x !! Z.to_nat (k mod NBUFF) = Some k;
  n_quiet : printed x = []
}.

Lemma wait_sem_rep s v s' :
  sem_rep s v -> Wait_sem s = Some s' -> 0 < v /\ sem_rep s' (v - 1).
Proof.
  intros Hs. unfold Wait_sem. pose proof (sem_range _ _ Hs). destruct (decide (v = 0)) as [->|].
  - destruct (block_law s Hs) as (s1 & -> & _). done.
  - destruct (wait_law s v Hs) as (s1 & -> & H1); [lia|]. intros [= <-]. split; [lia|done].
Qed.

Lemma wait_sem_enabled s v : sem_rep s v -> 0 < v -> is_Some (Wait_sem s).
Proof. intros Hs Hv. unfold Wait_sem. destruct (wait_law s v Hs Hv) as (s1 & -> & _). by eexists. Qed.

Lemma post_sem_rep s v : sem_rep s v -> v < sem_max -> exists s', Post_sem s = Some s' /\ sem_rep s' (v + 1).
Proof. intros Hs Hv. unfold Post_sem. destruct (post_law s v Hs Hv) as (s1 & -> & H1). by exists s1. Qed.

Context (MAX : NBUFF <= sem_max).

(** Two items in the buffer at the same time are in different slots. *)
Lemma slots_differ i k : k < i -> i - k < NBUFF -> Z.to_nat (i mod NBUFF) <> Z.to_nat (k mod NBUFF).
Proof.
  unfold NBUFF. intros H1 H2 E. apply (f_equal Z.of_nat) in E.
  rewrite !Z2Nat.id in E by (apply Z.mod_pos_bound; lia).
  pose proof (Z.div_mod i 10). pose proof (Z.div_mod k 10). nia.
Qed.

Lemma rep_eq s v v' : sem_rep s v -> v = v' -> sem_rep s v'.
Proof. by intros H <-. Qed.

Lemma in_cs_range p : 0 <= in_cs p <= 1.
Proof. by destruct p. Qed.

Ltac pc_arith :=
  try match goal with _ : context [in_cs (cons_pc ?y)] |- _ => pose proof (in_cs_range (cons_pc y)) end;
  try match goal with _ : context [in_cs (prod_pc ?y)] |- _ => pose proof (in_cs_range (prod_pc y)) end;
  cbn [in_cs past_wait stored] in *; unfold NBUFF in *; lia.

(** The fields of the invariant that follow from the old ones. *)
Ltac pc_solve :=
  split; cbn [mutex nempty nstored buff prod_i prod_pc cons_i cons_pc printed];
  try done; try (by left); try (by right);
  try (eapply rep_eq; [eassumption|pc_arith]); try pc_arith.

Lemma produce_inv x x' : pc_inv x -> produce_step x = Some x' -> pc_inv x'.
Proof.
  intros [Hm He Hn Hcs Hl Hp Ht Hdp Hdc Hb Hq] Hs. unfold produce_step in Hs.
  destruct (Z.ltb_spec (prod_i x) nitems) as [Hi|]; [|done]. simpl in Hs.
  destruct (prod_pc x) eqn:Ep.
  - apply bind_Some in Hs as (s & Hs & [= <-]). destruct (wait_sem_rep _ _ _ He Hs) as [Hv He'].
    pc_solve.
  - apply bind_Some in Hs as (s & Hs & [= <-]). destruct (wait_sem_rep _ _ _ Hm Hs) as [Hv Hm'].
    pc_solve.
  - injection Hs as <-. pc_solve.
    + by rewrite length_insert.
    + intros k Hk. pose proof (sem_range _ _ He). cbn [past_wait] in *.
      assert (0 <= prod_i x mod NBUFF < 10) by (apply Z.mod_pos_bound; done).
      destruct (decide (k = prod_i x)) as [->|]; [apply list_lookup_insert_eq; lia|].
      rewrite list_lookup_insert_ne; [apply Hb; pc_arith|]. apply slots_differ; pc_arith.
  - destruct (post_sem_rep (mutex x) _ Hm) as (s & Es & Hs'); [pc_arith|]. rewrite Es in Hs. injection Hs as <-.
    pc_solve.
  - destruct (post_sem_rep (nstored x) _ Hn) as (s & Es & Hs').
    { pose proof (sem_range _ _ He). destruct (cons_pc x); pc_arith. }
    rewrite Es in Hs. injection Hs as <-.
    pc_solve.
    intros k Hk. apply Hb. pc_arith.
Qed.

Lemma consume_inv x x' : pc_inv x -> consume_step x = Some x' -> pc_inv x'.
Proof.
  intros [Hm He Hn Hcs Hl Hp Ht Hdp Hdc Hb Hq] Hs. unfold consume_step in Hs.
  destruct (Z.ltb_spec (cons_i x) nitems) as [Hi|]; [|done]. simpl in Hs.
  destruct (cons_pc x) eqn:Ep.
  - apply bind_Some in Hs as (s & Hs & [= <-]). destruct (wait_sem_rep _ _ _ Hn Hs) as [Hv Hn'].
    pc_solve.
  - apply bind_Some in Hs as (s & Hs & [= <-]). destruct (wait_sem_rep _ _ _ Hm Hs) as [Hv Hm'].
    pc_solve.
  - injection Hs as <-. pc_solve.
    rewrite Hb. { simpl. by rewrite Z.eqb_refl. }
    pose proof (sem_range _ _ Hn). destruct (prod_pc x); pc_arith.
  - destruct (post_sem_rep (mutex x) _ Hm) as (s & Es & Hs'); [pc_arith|]. rewrite Es in Hs. injection Hs as <-.
    pc_solve.
  - destruct (post_sem_rep (nempty x) _ He) as (s & Es & Hs').
    { pose proof (sem_range _ _ Hn). destruct (prod_pc x); pc_arith. }
    rewrite Es in Hs. injection Hs as <-.
    pc_solve.
    intros k Hk. apply Hb. pc_arith.
Qed.

Lemma pc_step_inv x x' : pc_inv x -> pc_step x x' -> pc_inv x'.
Proof. intros Hi Hs. destruct Hs; [by eapply produce_inv|by eapply consume_inv]. Qed.

Lemma pc_reachable_inv m e n x :
  0 <= nitems -> sem_rep m 1 -> sem_rep e NBUFF -> sem_rep n 0 -> rtc pc_step (pc_init m e n) x -> pc_inv x.
Proof.
  intros H0 Hm He Hn Hr. assert (pc_inv (pc_init m e n)) as Hi.
  { split; simpl; try done; [by right..|]. lia. }
  clear Hm He Hn. induction Hr as [|x1 x2 x3 H12 _ IH]; [done|]. apply IH. by eapply pc_step_inv.
Qed.

(** ** Progress *)
Lemma produce_enabled x :
  pc_inv x -> prod_i x < nitems ->
  match prod_pc x with
  | WaitCount => 0 < NBUFF - prod_i x + cons_i x
  | WaitMutex => in_cs (cons_pc x) = 0
  | _ => True
  end -> exists x', pc_step x x'.
Proof.
  intros [Hm He Hn Hcs Hl Hp Ht Hdp Hdc Hb Hq] Hi Hc.
  enough (is_Some (produce_step x)) as [x' Hx] by (exists x'; by constructor).
  unfold produce_step. rewrite ltb_true by done. cbn [negb]. destruct (prod_pc x) eqn:Ep.
  - destruct (wait_sem_enabled _ _ He) as [s ->]; [pc_arith|]. by eexists.
  - destruct (wait_sem_enabled _ _ Hm) as [s ->]; [pc_arith|]. by eexists.
  - by eexists.
  - destruct (post_sem_rep _ _ Hm) as (s & -> & _); [pc_arith|]. by eexists.
  - destruct (post_sem_rep _ _ Hn) as (s & -> & _); [|by eexists].
    pose proof (sem_range _ _ He). destruct (cons_pc x); pc_arith.
Qed.

Lemma consume_enabled x :
  pc_inv x -> cons_i x < nitems ->
  match cons_pc x with
  | WaitCount => 0 < prod_i x - cons_i x
  | WaitMutex => in_cs (prod_pc x) = 0
  | _ => True
  end -> exists x', pc_step x x'.
Proof.
  intros [Hm He Hn Hcs Hl Hp Ht Hdp Hdc Hb Hq] Hi Hc.
  enough (is_Some (consume_step x)) as [x' Hx] by (exists x'; by constructor 2).
  unfold consume_step. rewrite ltb_true by done. cbn [negb]. destruct (cons_pc x) eqn:Ep.
  - destruct (wait_sem_enabled _ _ Hn) as [s ->]; [pc_arith|]. by eexists.
  - destruct (wait_sem_enabled _ _ Hm) as [s ->]; [pc_arith|]. by eexists.
  - by eexists.
  - destruct (post_sem_rep _ _ Hm) as (s & -> & _); [pc_arith|]. by eexists.
  - destruct (post_sem_rep _ _ He) as (s & -> & _); [|by eexists].
    pose proof (sem_range _ _ Hn). destruct (prod_pc x); pc_arith.
Qed.

(** As long as a thread has items left, some thread can move. *)
Lemma pc_progress x :
  pc_inv x -> prod_i x < nitems \/ cons_i x < nitems -> exists x', pc_step x x'.
Proof.
  intros Hi Hw. pose proof (produce_enabled x Hi) as HP. pose proof (consume_enabled x Hi) as HC.
  pose proof (sem_range _ _ (n_empty _ Hi)) as Re. pose proof (sem_range _ _ (n_stored _ Hi)) as Rn.
  pose proof (n_top _ Hi). pose proof (n_done_p _ Hi) as Dp. pose proof (n_done_c _ Hi) as Dc.
  destruct (prod_pc x), (cons_pc x); cbn [past_wait in_cs] in *; unfold NBUFF in *;
    first [apply HP; [lia || (destruct Dp; [done|discriminate])|exact I || reflexivity || lia]
          |apply HC; [lia || (destruct Dc; [done|discriminate])|exact I || reflexivity || lia]|idtac].
  destruct (decide (0 < prod_i x - cons_i x)); [apply HC; lia|apply HP; lia].
Qed.
End ProdCons.
