(* ===== verification/SemMmap.v ===== *)
(** * Semaphores in a memory-mapped file (unpv22e/my_pxsem_mmap)

    A counter, a mutex and a condition variable in a shared file; a waiting
    thread blocks on the condition variable, the [Wait] result. *)
From S2P Require Import Prelude CString Posix SemIface.

Open Scope prog_scope.

(** [sem_signals] counts the [pthread_cond_signal] calls. *)
Record mysem_t := mkSem { sem_count : Z; sem_magic : Z; sem_signals : nat }.

Definition SEM_MAGIC : Z := 0x67458923.

Definition set_count (v : Z) (s : mysem_t) : mysem_t := mkSem v (sem_magic s) (sem_signals s).
Definition set_magic (v : Z) (s : mysem_t) : mysem_t := mkSem (sem_count s) v (sem_signals s).

Definition cond_signal : Prog mysem_t unit :=
  put (fun s => mkSem (sem_count s) (sem_magic s) (S (sem_signals s))).

Definition bad_magic (s : mysem_t) : bool := negb (sem_magic s =? SEM_MAGIC).

Definition mysem_post : Prog mysem_t (Z * option Z) :=
  do bad <- get bad_magic;
  if bad then pret (-1, Some EINVAL)
  else
    do c <- get sem_count;
    run (if c =? 0 then cond_signal else pret tt);
    run put (set_count (wrapu 32 (c + 1)));
    pret (0, None).

(** The wait loop, entered with the mutex held. *)
Definition wait_loop : Prog mysem_t (call (Z * option Z)) :=
  do c <- get sem_count;
  if c =? 0 then pret Wait
  else
    run put (set_count (c - 1));
    pret (Ret (0, None)).

Definition mysem_wait : Prog mysem_t (call (Z * option Z)) :=
  do bad <- get bad_magic;
  if bad then pret (Ret (-1, Some EINVAL)) else wait_loop.

Definition mysem_trywait : Prog mysem_t (Z * option Z) :=
  do bad <- get bad_magic;
  if bad then pret (-1, Some EINVAL)
  else
    do c <- get sem_count;
    if 0 <? c then
      run put (set_count (c - 1));
      pret (0, None)
    else pret (-1, Some EAGAIN).

(** The value is stored into an [int]. *)
Definition mysem_getvalue : Prog mysem_t (Z * option Z * option Z) :=
  do bad <- get bad_magic;
  if bad then pret (-1, Some EINVAL, None)
  else
    do c <- get sem_count;
    pret (0, None, Some (wraps 32 c)).

(** [munmap] succeeds. *)
Definition mysem_close : Prog mysem_t (Z * option Z) :=
  do bad <- get bad_magic;
  if bad then pret (-1, Some EINVAL) else pret (0, None).

(** The wrapper functions. *)
Definition Mysem_post : Prog mysem_t unit :=
  do r <- mysem_post; guard_die (r.1 =? -1) "mysem_post error".

Definition Mysem_wait : Prog mysem_t (call unit) :=
  do r <- mysem_wait;
  match r with
  | Wait => pret Wait
  | Ret v => run guard_die (v.1 =? -1) "mysem_wait error"; pret (Ret tt)
  end.

Definition Mysem_trywait : Prog mysem_t Z :=
  do r <- mysem_trywait;
  run guard_die ((r.1 =? -1) && negb (bool_decide (r.2 = Some EAGAIN))) "mysem_trywait error";
  pret r.1.

Definition Mysem_getvalue : Prog mysem_t (option Z) :=
  do r <- mysem_getvalue; run guard_die (r.1.1 =? -1) "mysem_getvalue error"; pret r.2.

Definition Mysem_close : Prog mysem_t unit :=
  do r <- mysem_close; guard_die (r.1 =? -1) "mysem_close error".

(** ** [mysem_open]

    The files by name: the user-execute bit and the semaphore.  [fault] is
    the error of a system call that fails, [others] what other processes do
    to the names before each [open] and [stat], [vmax] the value of
    [_SC_SEM_VALUE_MAX]. *)
Record semfile := mkSemfile { sf_xusr : bool; sf_sem : mysem_t }.

Abbreviation semfs := (gmap bytes semfile).

Inductive syscall :=
| SysOpenCreat | SysWrite | SysMmap | SysMutexattr | SysMutex | SysCondattr | SysCond | SysFchmod | SysOpen.

#[export] Instance syscall_eq_dec : EqDecision syscall.
Proof. solve_decision. Defined.

Definition MAX_TRIES : nat := 10.

Record ostate := mkOstate { o_fs : semfs; o_tick : nat }.

Section Open.
Context (fault : syscall -> option Z) (others : nat -> semfs -> semfs) (vmax : Z).
Context (pathname : bytes) (oflag value : Z).

Definition o_sync : Prog ostate unit :=
  put (fun s => mkOstate (others (o_tick s) (o_fs s)) (S (o_tick s))).

Definition set_file (f : semfile) : Prog ostate unit :=
  put (fun s => mkOstate (<[pathname := f]> (o_fs s)) (o_tick s)).

(** The error return of the creator removes the file. *)
Definition created_err (e : Z) : Prog ostate (option Z) :=
  run put (fun s => mkOstate (delete pathname (o_fs s)) (o_tick s));
  pret (Some e).

Definition try_sys (c : syscall) (k : Prog ostate (option Z)) : Prog ostate (option Z) :=
  match fault c with Some e => created_err e | None => k end.

(** The creator's part after its [open]; the result is [errno] on an error
    return. *)
Definition open_create : Prog ostate (option Z) :=
  try_sys SysWrite (
  run set_file (mkSemfile true (mkSem 0 0 0));
  try_sys SysMmap (try_sys SysMutexattr (try_sys SysMutex (try_sys SysCondattr (try_sys SysCond (
  run set_file (mkSemfile true (mkSem (wrapu 32 value) 0 0));
  if vmax <? wrapu 32 value then created_err EINVAL
  else
    try_sys SysFchmod (
    run set_file (mkSemfile false (mkSem (wrapu 32 value) 0 0));
    run set_file (mkSemfile false (mkSem (wrapu 32 value) SEM_MAGIC 0));
    pret None))))))).

(** The loop of the label [exists]: [Some None] when the semaphore is ours,
    [Some e] on an error, [None] when the file is gone. *)
Fixpoint wait_init (tries : nat) : Prog ostate (option (option Z)) :=
  match tries with
  | O => pret (Some (Some ETIMEDOUT))
  | S tries =>
      run o_sync;
      do fs <- get o_fs;
      match fs !! pathname with
      | None => pret None
      | Some f =>
          if negb (sf_xusr f) then
            run set_file (mkSemfile false (set_magic SEM_MAGIC (sf_sem f)));
            pret (Some None)
          else wait_init tries
      end
  end.

Definition open_exists (again : Prog ostate (option Z)) : Prog ostate (option Z) :=
  run o_sync;
  do fs <- get o_fs;
  match fault SysOpen, fs !! pathname with
  | Some e, _ => pret (Some e)
  | None, None => if has_flag oflag O_CREAT then again else pret (Some ENOENT)
  | None, Some _ =>
      match fault SysMmap with
      | Some e => pret (Some e)
      | None =>
          do w <- wait_init MAX_TRIES;
          match w with
          | None => if has_flag oflag O_CREAT then again else pret (Some ENOENT)
          | Some r => pret r
          end
      end
  end.

Fixpoint mysem_open (fuel : nat) : Prog ostate (option Z) :=
  match fuel with
  | O => die "mysem_open: the name keeps changing"
  | S fuel =>
      if has_flag oflag O_CREAT then
        run o_sync;
        do fs <- get o_fs;
        match fault SysOpenCreat, fs !! pathname with
        | Some e, _ => pret (Some e)
        | None, Some _ =>
            if has_flag oflag O_EXCL then pret (Some EEXIST)
            else open_exists (mysem_open fuel)
        | None, None =>
            run set_file (mkSemfile true (mkSem 0 0 0));
            open_create
        end
      else open_exists (mysem_open fuel)
  end.
End Open.

Definition mysem_unlink (fs : semfs) (pathname : bytes) : semfs * (Z * option Z) :=
  match fs !! pathname with
  | Some _ => (delete pathname fs, (0, None))
  | None => (fs, (-1, Some ENOENT))
  end.

Definition Mysem_open fault others vmax (pathname : bytes) (oflag value : Z) (fuel : nat) : Prog ostate unit :=
  do r <- mysem_open fault others vmax pathname oflag value fuel;
  guard_die (bool_decide (is_Some r)) "mysem_open error".

Definition Mysem_unlink (pathname : bytes) : Prog ostate unit := fun s =>
  let '(fs, r) := mysem_unlink (o_fs s) pathname in
  guard_die (r.1 =? -1) "mysem_unlink error" (mkOstate fs (o_tick s)).

(** ** The interface *)
Definition srep (s : mysem_t) (v : Z) : Prop :=
  sem_magic s = SEM_MAGIC /\ sem_count s = v /\ 0 <= v <= 2 ^ 32 - 1.

#[export] Program Instance mmap_semaphore : Semaphore mysem_t := {|
  sem_post := mysem_post;
  sem_wait := mysem_wait;
  sem_rep := srep;
  sem_max := 2 ^ 32 - 1
|}.
Next Obligation. intros s v (_ & _ & H). done. Qed.
Next Obligation.
  intros [c m n] v (Hm & Hc & H) Hv. simpl in *. subst.
  exists (mkSem (wrapu 32 (v + 1)) SEM_MAGIC (if v =? 0 then S n else n)). split.
  - unfold mysem_post, bad_magic. pstep. simpl. unfold pbind at 1, get. simpl. by destruct (v =? 0).
  - unfold srep, wrapu. simpl. rewrite Z.mod_small by lia. split_and!; lia || done.
Qed.
Next Obligation.
  intros [c m n] v (Hm & Hc & H) Hv. simpl in *. subst. eexists. split.
  - unfold mysem_wait, wait_loop, bad_magic. pstep. simpl. pstep. simpl. rewrite eqb_false by lia. reflexivity.
  - unfold srep. simpl. split_and!; lia || done.
Qed.
Next Obligation.
  intros [c m n] (Hm & Hc & H). simpl in *. subst. eexists. by split.
Qed.
