(* ===== verification/SemSv.v ===== *)
(** * Semaphores on System V semaphores (unpv22e/my_pxsem_svsem)

    A POSIX semaphore is a System V semaphore set with one member, found
    through a file of its name.  The kernel's semaphores are modelled as far
    as the code uses them: [semget], [semop] on one member, and the
    [semctl] commands SETVAL, GETVAL, IPC_STAT and IPC_RMID. *)
From S2P Require Import Prelude CString Posix SemIface.

Open Scope prog_scope.

Definition SEM_MAGIC : Z := 0x45678923.
Definition SEMVMX : Z := 32767.
Definition ERANGE : Z := 34.
Definition EIDRM : Z := 43.

(** A semaphore set: its value, and whether [semop] has set [sem_otime]. *)
Record svset := mkSet { sv_val : Z; sv_otime : bool }.

(** The kernel: the files that exist, the set of each key, the sets by
    identifier, the next free identifier, and a clock of system calls. *)
Record kernel := mkKern {
  k_files : gset bytes;
  k_keys : gmap Z Z;
  k_sets : gmap Z svset;
  k_next : Z;
  k_tick : nat
}.

Definition set_sets (v : gmap Z svset) (k : kernel) : kernel :=
  mkKern (k_files k) (k_keys k) v (k_next k) (k_tick k).

(** The per-process structure. *)
Record mysem_t := mkSem { sem_semid : Z; sem_magic : Z }.

(** [semop] with one operation: it is done, it blocks, or it fails. *)
Definition semop (semid op : Z) (nowait : bool) : Prog kernel (call (Z * option Z)) :=
  fun k => match k_sets k !! semid with
  | None => Ok (Ret (-1, Some EINVAL)) k
  | Some s =>
      if 0 <? op then
        if SEMVMX <? sv_val s + op then Ok (Ret (-1, Some ERANGE)) k
        else Ok (Ret (0, None)) (set_sets (<[semid := mkSet (sv_val s + op) true]> (k_sets k)) k)
      else if op =? 0 then
        if sv_val s =? 0 then Ok (Ret (0, None)) (set_sets (<[semid := mkSet 0 true]> (k_sets k)) k)
        else if nowait then Ok (Ret (-1, Some EAGAIN)) k else Ok Wait k
      else if - op <=? sv_val s then
        Ok (Ret (0, None)) (set_sets (<[semid := mkSet (sv_val s + op) true]> (k_sets k)) k)
      else if nowait then Ok (Ret (-1, Some EAGAIN)) k else Ok Wait k
  end.

(** [IPC_RMID]: the set and its key are gone. *)
Definition rmid (semid : Z) : Prog kernel unit :=
  put (fun k => mkKern (k_files k) (filter (fun x => x.2 <> semid) (k_keys k)) (delete semid (k_sets k))
                  (k_next k) (k_tick k)).

(** ** The operations *)
Definition mysem_post (sem : mysem_t) : Prog kernel (call (Z * option Z)) :=
  if negb (sem_magic sem =? SEM_MAGIC) then pret (Ret (-1, Some EINVAL))
  else semop (sem_semid sem) 1 false.

Definition mysem_wait (sem : mysem_t) : Prog kernel (call (Z * option Z)) :=
  if negb (sem_magic sem =? SEM_MAGIC) then pret (Ret (-1, Some EINVAL))
  else semop (sem_semid sem) (-1) false.

Definition mysem_trywait (sem : mysem_t) : Prog kernel (call (Z * option Z)) :=
  if negb (sem_magic sem =? SEM_MAGIC) then pret (Ret (-1, Some EINVAL))
  else semop (sem_semid sem) (-1) true.

Definition mysem_getvalue (sem : mysem_t) : Prog kernel (Z * option Z * option Z) :=
  if negb (sem_magic sem =? SEM_MAGIC) then pret (-1, Some EINVAL, None)
  else
    do sets <- get k_sets;
    match sets !! sem_semid sem with
    | Some s => pret (0, None, Some (sv_val s))
    | None => pret (-1, Some EINVAL, None)
    end.

Definition mysem_close (sem : mysem_t) : Z * option Z * mysem_t :=
  if negb (sem_magic sem =? SEM_MAGIC) then (-1, Some EINVAL, sem)
  else (0, None, mkSem (sem_semid sem) 0).

(** ** [mysem_open]

    [ftok_key] is the key [ftok] makes of an existing file; [others] what
    the other processes do to the kernel's tables before each system call
    that looks at them; [nomem] whether [malloc] fails. *)
Definition MAX_TRIES : nat := 10.
Definition ENOMEM : Z := 12.

Section Open.
Context (ftok_key : bytes -> Z) (others : nat -> kernel -> kernel) (nomem : bool).
Context (pathname : bytes) (oflag value : Z).

Definition k_sync : Prog kernel unit :=
  put (fun k => let k' := others (k_tick k) k in
                mkKern (k_files k') (k_keys k') (k_sets k') (k_next k') (S (k_tick k))).

(** The label [err]: the identifier, if there is one, is removed. *)
Definition open_err (semid : option Z) (e : Z) : Prog kernel (Z + mysem_t) :=
  match semid with
  | Some id => run rmid id; pret (inl e)
  | None => pret (inl e)
  end.

(** The label [finish]. *)
Definition open_finish (semid : Z) : Prog kernel (Z + mysem_t) :=
  if nomem then open_err (Some semid) ENOMEM
  else pret (inr (mkSem semid SEM_MAGIC)).

Fixpoint wait_init (tries : nat) (semid : Z) : Prog kernel (Z + mysem_t) :=
  match tries with
  | O => open_err (Some semid) ETIMEDOUT
  | S tries =>
      run k_sync;
      do sets <- get k_sets;
      match sets !! semid with
      | None => open_err (Some semid) EIDRM
      | Some s => if sv_otime s then open_finish semid else wait_init tries semid
      end
  end.

(** After the [if (oflag & O_CREAT)]. *)
Definition open_existing : Prog kernel (Z + mysem_t) :=
  run k_sync;
  do files <- get k_files;
  if negb (bool_decide (pathname ∈ files)) then open_err None ENOENT
  else
    run k_sync;
    do keys <- get k_keys;
    match keys !! ftok_key pathname with
    | None => open_err None (if has_flag oflag O_CREAT then EINVAL else ENOENT)
    | Some id => wait_init MAX_TRIES id
    end.

(** A semaphore of our own: SETVAL to 0, then [semop] by the value. *)
Definition open_new (key : Z) : Prog kernel (Z + mysem_t) :=
  do id <- get k_next;
  run put (fun k => mkKern (k_files k) (<[key := id]> (k_keys k)) (<[id := mkSet 0 false]> (k_sets k))
                      (id + 1) (k_tick k));
  if SEMVMX <? value then open_err (Some id) EINVAL
  else
    do r <- semop id value false;
    match r with
    | Ret (0, _) => open_finish id
    | Ret (_, Some e) => open_err (Some id) e
    | _ => die "mysem_open: semop waits"
    end.

Definition mysem_open : Prog kernel (Z + mysem_t) :=
  if has_flag oflag O_CREAT then
    run k_sync;
    do files <- get k_files;
    if bool_decide (pathname ∈ files) && has_flag oflag O_EXCL then pret (inl EEXIST)
    else
      run put (fun k => mkKern ({[pathname]} ∪ k_files k) (k_keys k) (k_sets k) (k_next k) (k_tick k));
      run k_sync;
      do files <- get k_files;
      if negb (bool_decide (pathname ∈ files)) then pret (inl ENOENT)
      else
        do keys <- get k_keys;
        match keys !! ftok_key pathname with
        | None => open_new (ftok_key pathname)
        | Some _ => if has_flag oflag O_EXCL then open_err None EEXIST else open_existing
        end
  else open_existing.
End Open.

Definition mysem_unlink (ftok_key : bytes -> Z) (pathname : bytes) : Prog kernel (Z * option Z) :=
  do files <- get k_files;
  if negb (bool_decide (pathname ∈ files)) then pret (-1, Some ENOENT)
  else
    run put (fun k => mkKern (k_files k ∖ {[pathname]}) (k_keys k) (k_sets k) (k_next k) (k_tick k));
    do keys <- get k_keys;
    match keys !! ftok_key pathname with
    | None => pret (-1, Some ENOENT)
    | Some id => run rmid id; pret (0, None)
    end.

(** ** The wrapper functions *)
Definition Mysem_post (sem : mysem_t) : Prog kernel (call unit) :=
  do r <- mysem_post sem;
  match r with
  | Wait => pret Wait
  | Ret v => run guard_die (v.1 =? -1) "mysem_post error"; pret (Ret tt)
  end.

Definition Mysem_wait (sem : mysem_t) : Prog kernel (call unit) :=
  do r <- mysem_wait sem;
  match r with
  | Wait => pret Wait
  | Ret v => run guard_die (v.1 =? -1) "mysem_wait error"; pret (Ret tt)
  end.

Definition Mysem_trywait (sem : mysem_t) : Prog kernel (call Z) :=
  do r <- mysem_trywait sem;
  match r with
  | Wait => pret Wait
  | Ret v =>
      run guard_die ((v.1 =? -1) && negb (bool_decide (v.2 = Some EAGAIN))) "mysem_trywait error";
      pret (Ret v.1)
  end.

Definition Mysem_getvalue (sem : mysem_t) : Prog kernel (option Z) :=
  do r <- mysem_getvalue sem; run guard_die (r.1.1 =? -1) "mysem_getvalue error"; pret r.2.

Definition Mysem_close (sem : mysem_t) : Prog kernel mysem_t :=
  let r := mysem_close sem in
  run guard_die (r.1.1 =? -1) "mysem_close error"; pret r.2.

Definition Mysem_unlink (ftok_key : bytes -> Z) (pathname : bytes) : Prog kernel unit :=
  do r <- mysem_unlink ftok_key pathname; guard_die (r.1 =? -1) "mysem_unlink error".

Definition Mysem_open ftok_key others (nomem : bool) (pathname : bytes) (oflag value : Z) : Prog kernel mysem_t :=
  do r <- mysem_open ftok_key others nomem pathname oflag value;
  match r with inl _ => die "mysem_open error" | inr sem => pret sem end.

(** ** The interface

    Three semaphores of one program are three identifiers; here the state of
    one of them is the kernel with its identifier. *)
Record svhandle := mkHandle { hd_sem : mysem_t; hd_kern : kernel }.

Definition on_kernel {A} (f : mysem_t -> Prog kernel A) : Prog svhandle A :=
  fun h => match f (hd_sem h) (hd_kern h) with
           | Ok a k => Ok a (mkHandle (hd_sem h) k)
           | Abort why k => Abort why (mkHandle (hd_sem h) k)
           end.

(** A post never blocks; its result as the other implementations have it. *)
Definition post_result (r : call (Z * option Z)) : Z * option Z :=
  match r with Ret v => v | Wait => (-1, None) end.

Definition srep (h : svhandle) (v : Z) : Prop :=
  sem_magic (hd_sem h) = SEM_MAGIC /\ 0 <= v <= SEMVMX /\
  exists t, k_sets (hd_kern h) !! sem_semid (hd_sem h) = Some (mkSet v t).

#[export] Program Instance sv_semaphore : Semaphore svhandle := {|
  sem_post := (do r <- on_kernel mysem_post; pret (post_result r));
  sem_wait := on_kernel mysem_wait;
  sem_rep := srep;
  sem_max := SEMVMX
|}.
Next Obligation. intros h v (_ & H & _). done. Qed.
Next Obligation.
  intros [sem k] v (Hm & Hv & t & Hs) Hlt. simpl in *. eexists. split.
  - unfold pbind, on_kernel, mysem_post, semop. simpl. rewrite Hm, Z.eqb_refl. cbn [negb]. rewrite Hs. simpl.
    rewrite (ltb_false SEMVMX) by lia. reflexivity.
  - split; [done|]. split; [lia|]. exists true. simpl. by rewrite lookup_insert_eq.
Qed.
Next Obligation.
  intros [sem k] v (Hm & Hv & t & Hs) Hlt. simpl in *. eexists. split.
  - unfold on_kernel, mysem_wait, semop. simpl. rewrite Hm, Z.eqb_refl. cbn [negb]. rewrite Hs. simpl.
    rewrite leb_true by lia. reflexivity.
  - split; [done|]. split; [lia|]. exists true. simpl. by rewrite lookup_insert_eq.
Qed.
Next Obligation.
  intros [sem k] (Hm & Hv & t & Hs). simpl in *. eexists. split.
  - unfold on_kernel, mysem_wait, semop. simpl. rewrite Hm, Z.eqb_refl. cbn [negb]. rewrite Hs. simpl. reflexivity.
  - split; [done|]. split; [lia|]. by exists t.
Qed.
