(* ===== verification/SemFifo.v ===== *)
(** * Semaphores on FIFOs (unpv22e/my_pxsem_fifo)

    The value of a semaphore is the number of bytes in a FIFO: a post writes
    one byte (the descriptor does not block), a wait reads one (and blocks
    on an empty FIFO, since the process itself holds the write end open). *)
From S2P Require Import Prelude CString Posix SemIface.

Open Scope prog_scope.

Definition SEM_MAGIC : Z := 0x89674523.

(** The capacity of a FIFO on Linux. *)
Definition PIPE_SIZE : Z := 65536.

(** The open semaphore: the bytes in the FIFO, the magic number, and whether
    its two descriptors are open. *)
Record mysem_t := mkSem { sem_bytes : Z; sem_magic : Z; sem_open : bool }.

(** [write] of one byte to the non-blocking end; [read] of one byte. *)
Definition fifo_write : Prog mysem_t (Z * option Z) :=
  fun s => if sem_bytes s <? PIPE_SIZE
           then Ok (1, None) (mkSem (sem_bytes s + 1) (sem_magic s) (sem_open s))
           else Ok (-1, Some EAGAIN) s.

Definition fifo_read : Prog mysem_t (call (Z * option Z)) :=
  fun s => if 0 <? sem_bytes s
           then Ok (Ret (1, None)) (mkSem (sem_bytes s - 1) (sem_magic s) (sem_open s))
           else Ok Wait s.

Definition bad_magic (s : mysem_t) : bool := negb (sem_magic s =? SEM_MAGIC).

Definition mysem_post : Prog mysem_t (Z * option Z) :=
  do bad <- get bad_magic;
  if bad then pret (-1, Some EINVAL)
  else
    do ' (n, err) <- fifo_write;
    pret (if n =? 1 then (0, None) else (-1, err)).

Definition mysem_wait : Prog mysem_t (call (Z * option Z)) :=
  do bad <- get bad_magic;
  if bad then pret (Ret (-1, Some EINVAL))
  else
    do r <- fifo_read;
    match r with
    | Wait => pret Wait
    | Ret (n, err) => pret (Ret (if n =? 1 then (0, None) else (-1, err)))
    end.

(** [close] of both descriptors succeeds. *)
Definition mysem_close : Prog mysem_t (Z * option Z) :=
  do bad <- get bad_magic;
  if bad then pret (-1, Some EINVAL)
  else
    run put (fun s => mkSem (sem_bytes s) 0 false);
    pret (0, None).

(** ** [mysem_open]

    The FIFOs by name, with the number of bytes in each: closing the last
    descriptor would discard them, so another process is assumed to keep an
    existing FIFO open.  [fault] is the error of a system call that
    fails. *)
Inductive syscall := SysMalloc | SysOpenRd | SysOpenWr | SysGetfl | SysSetfl.

#[export] Instance syscall_eq_dec : EqDecision syscall.
Proof. solve_decision. Defined.

Abbreviation fifofs := (gmap bytes Z).

Section Open.
Context (fault : syscall -> option Z).
Context (pathname : bytes) (oflag value : Z).

(** The initialising writes: [Some e] when one fails. *)
Fixpoint init_writes (n : nat) : Prog mysem_t (option Z) :=
  match n with
  | O => pret None
  | S n =>
      do ' (r, err) <- fifo_write;
      if r =? 1 then init_writes n else pret err
  end.

Definition open_calls (l : list syscall) : option Z :=
  fold_right (fun c r => match fault c with Some e => Some e | None => r end) None l.

(** After [mkfifo]; [creat] is the O_CREAT bit that is left in [oflag]. *)
Definition open_fifo (fs : fifofs) (creat : bool) : fifofs * (Z + mysem_t) :=
  let err e := (if creat then delete pathname fs else fs, inl e) in
  match fault SysMalloc with
  | Some e => (fs, inl e)
  | None =>
      match fs !! pathname with
      | None => err ENOENT
      | Some n =>
          match open_calls [SysOpenRd; SysOpenWr; SysGetfl; SysSetfl] with
          | Some e => err e
          | None =>
              if creat then
                match init_writes (Z.to_nat (wrapu 32 value)) (mkSem n 0 true) with
                | Ok None s => (<[pathname := sem_bytes s]> fs, inr (mkSem (sem_bytes s) SEM_MAGIC true))
                | Ok (Some e) _ => err e
                | Abort _ _ => err EINVAL
                end
              else (fs, inr (mkSem n SEM_MAGIC true))
          end
      end
  end.

Definition mysem_open (fs : fifofs) : fifofs * (Z + mysem_t) :=
  if has_flag oflag O_CREAT then
    match fs !! pathname with
    | Some _ => if has_flag oflag O_EXCL then (fs, inl EEXIST) else open_fifo fs false
    | None => open_fifo (<[pathname := 0]> fs) true
    end
  else open_fifo fs false.
End Open.

Definition mysem_unlink (fs : fifofs) (pathname : bytes) : fifofs * (Z * option Z) :=
  match fs !! pathname with
  | Some _ => (delete pathname fs, (0, None))
  | None => (fs, (-1, Some ENOENT))
  end.

(** ** The wrapper functions *)
Definition Mysem_post : Prog mysem_t unit :=
  do r <- mysem_post; guard_die (r.1 =? -1) "mysem_post error".

Definition Mysem_wait : Prog mysem_t (call unit) :=
  do r <- mysem_wait;
  match r with
  | Wait => pret Wait
  | Ret v => run guard_die (v.1 =? -1) "mysem_wait error"; pret (Ret tt)
  end.

Definition Mysem_close : Prog mysem_t unit :=
  do r <- mysem_close; guard_die (r.1 =? -1) "mysem_close error".

Definition Mysem_open (fault : syscall -> option Z) (pathname : bytes) (oflag value : Z) : Prog fifofs mysem_t := fun fs =>
  match mysem_open fault pathname oflag value fs with
  | (fs', inr sem) => Ok sem fs'
  | (fs', inl _) => Abort "mysem_open error" fs'
  end.

Definition Mysem_unlink (pathname : bytes) : Prog fifofs unit := fun fs =>
  let '(fs', r) := mysem_unlink fs pathname in guard_die (r.1 =? -1) "mysem_unlink error" fs'.

(** ** The interface *)
Definition srep (s : mysem_t) (v : Z) : Prop :=
  sem_magic s = SEM_MAGIC /\ sem_bytes s = v /\ 0 <= v <= PIPE_SIZE.

#[export] Program Instance fifo_semaphore : Semaphore mysem_t := {|
  sem_post := mysem_post;
  sem_wait := mysem_wait;
  sem_rep := srep;
  sem_max := PIPE_SIZE
|}.
Next Obligation. intros s v (_ & _ & H). done. Qed.
Next Obligation.
  intros [b m o] v (Hm & Hb & H) Hlt. simpl in *. subst. eexists. split.
  - unfold mysem_post, bad_magic. pstep. simpl. unfold pbind at 1, fifo_write. simpl.
    rewrite ltb_true by done. reflexivity.
  - split_and!; simpl; done || lia.
Qed.
Next Obligation.
  intros [b m o] v (Hm & Hb & H) Hlt. simpl in *. subst. eexists. split.
  - unfold mysem_wait, bad_magic. pstep. simpl. unfold pbind at 1, fifo_read. simpl.
    rewrite ltb_true by done. reflexivity.
  - split_and!; simpl; done || lia.
Qed.
Next Obligation.
  intros [b m o] (Hm & Hb & H). simpl in *. subst. eexists. by split.
Qed.

(** The initialising writes leave as many bytes as the value says, or fail
    with EAGAIN when they do not fit. *)
Lemma init_writes_run n b :
  0 <= b -> b + Z.of_nat n <= PIPE_SIZE ->
  init_writes n (mkSem b 0 true) = Ok None (mkSem (b + Z.of_nat n) 0 true).
Proof.
  revert b. induction n as [|n IH]; intros b Hb Hn; simpl.
  - by rewrite Z.add_0_r.
  - unfold pbind, fifo_write. simpl. rewrite ltb_true by lia. simpl. rewrite IH by lia. do 2 f_equal. lia.
Qed.

Lemma init_writes_full n b :
  0 <= b <= PIPE_SIZE -> PIPE_SIZE < b + Z.of_nat n ->
  init_writes n (mkSem b 0 true) = Ok (Some EAGAIN) (mkSem PIPE_SIZE 0 true).
Proof.
  revert b. induction n as [|n IH]; intros b Hb Hn; simpl; [lia|].
  unfold pbind, fifo_write. cbn [sem_bytes sem_magic sem_open].
  destruct (Z.ltb_spec b PIPE_SIZE).
  - simpl. apply IH; lia.
  - simpl. assert (b = PIPE_SIZE) as -> by lia. done.
Qed.
