(* ===== verification/SemProps.v ===== *)
(** * The properties of the semaphores and of the producer-consumer program *)
From S2P Require Import Prelude CString Posix SemIface.
From S2P Require Import SemFifo SemSv SemMmap.

Open Scope prog_scope.

(** ** The producer-consumer program *)

(** C10: with any implementation of the semaphores that keeps the interface
    and can count to NBUFF, however the two threads interleave, the consumer
    never finds a wrong item, at most one thread is between
    [Mysem_wait(mutex)] and [Mysem_post(mutex)], and the producer is never
    more than NBUFF items ahead. *)
Theorem prodcons_safe {S} `{Semaphore S} nitems m e n x :
  0 <= nitems -> NBUFF <= sem_max -> sem_rep m 1 -> sem_rep e NBUFF -> sem_rep n 0 ->
  rtc (pc_step nitems) (pc_init m e n) x ->
  printed x = [] /\ in_cs (prod_pc x) + in_cs (cons_pc x) <= 1 /\ 0 <= prod_i x - cons_i x <= NBUFF.
Proof.
  intros H0 Hmax Hm He Hn Hr. pose proof (pc_reachable_inv nitems Hmax m e n x H0 Hm He Hn Hr) as Hi.
  split_and!; [apply Hi|apply Hi|..].
  - pose proof (sem_range _ _ (n_stored _ _ Hi)). destruct (cons_pc x); simpl in *; lia.
  - pose proof (sem_range _ _ (n_empty _ _ Hi)). destruct (prod_pc x); simpl in *; lia.
Qed.

(** Three semaphores in memory-mapped files. *)
Definition msem (v : Z) : SemMmap.mysem_t := SemMmap.mkSem v SemMmap.SEM_MAGIC 0.

Lemma msem_rep v : 0 <= v <= 100 -> sem_rep (msem v) v.
Proof. intros. split_and!; simpl; done || lia. Qed.

Definition prodcons_start : pcstate := pc_init (msem 1) (msem 10) (msem 0).

Fixpoint produce_n (k : nat) (nitems : Z) (x : pcstate) : option (pcstate (S := SemMmap.mysem_t)) :=
  match k with O => Some x | S k => produce_step nitems x ≫= produce_n k nitems end.

Lemma produce_n_rtc k nitems x x' : produce_n k nitems x = Some x' -> rtc (pc_step nitems) x x'.
Proof.
  revert x. induction k as [|k IH]; simpl; intros x E; [by injection E as ->|].
  apply bind_Some in E as (y & E1 & E2). eapply rtc_l; [by constructor|]. by apply IH.
Qed.

Lemma prodcons_safe_witness :
  let x := default prodcons_start (produce_n 7 2 prodcons_start) in
  printed x = [] /\ in_cs (prod_pc x) + in_cs (cons_pc x) <= 1 /\ 0 <= prod_i x - cons_i x <= NBUFF.
Proof.
  intros x. apply (prodcons_safe 2 (msem 1) (msem 10) (msem 0) x).
  - done.
  - done.
  - apply msem_rep. lia.
  - apply (msem_rep 10). lia.
  - apply msem_rep. lia.
  - apply (produce_n_rtc 7). vm_compute. reflexivity.
Defined.

(** The statements executed so far. *)
Definition work {S} (x : pcstate (S := S)) : Z :=
  5 * prod_i x + step_of (prod_pc x) + 5 * cons_i x + step_of (cons_pc x).

Lemma step_work {S} `{Semaphore S} nitems (x x' : pcstate) : pc_step nitems x x' -> work x' = work x + 1.
Proof.
  unfold work. intros Hs.
  destruct Hs as [x x' Hs|x x' Hs]; [unfold produce_step in Hs|unfold consume_step in Hs];
    destruct (negb _); try done.
  - destruct (prod_pc x); (try apply bind_Some in Hs as (s & _ & Hs)); injection Hs as <-; simpl; lia.
  - destruct (cons_pc x); (try apply bind_Some in Hs as (s & _ & Hs)); injection Hs as <-; simpl; lia.
Qed.

(** Termination.  Every run of the two threads has at most
    [10 * nitems] statements, and it can only stop with both loops
    finished: there is no deadlock. *)
Theorem prodcons_terminates {S} `{Semaphore S} nitems m e n k x :
  0 <= nitems -> NBUFF <= sem_max -> sem_rep m 1 -> sem_rep e NBUFF -> sem_rep n 0 ->
  nsteps (pc_step nitems) k (pc_init m e n) x ->
  Z.of_nat k <= 10 * nitems /\
  ((forall x', ~ pc_step nitems x x') -> prod_i x = nitems /\ cons_i x = nitems).
Proof.
  intros H0 Hmax Hm He Hn Hr.
  assert (work x = Z.of_nat k) as Hw.
  { assert (forall k (a b : pcstate), nsteps (pc_step nitems) k a b -> work b = work a + Z.of_nat k) as Hgen.
    { intros j a b Hab. induction Hab as [|j a b c Hab _ IH]; [lia|]. rewrite IH, (step_work nitems a b Hab). lia. }
    rewrite (Hgen _ _ _ Hr). unfold work. simpl. lia. }
  pose proof (pc_reachable_inv nitems Hmax m e n x H0 Hm He Hn (proj2 (rtc_nsteps _ _) (ex_intro _ _ Hr))) as Hi.
  pose proof (n_top _ _ Hi) as Ht. pose proof (n_done_p _ _ Hi) as Dp. pose proof (n_done_c _ _ Hi) as Dc.
  pose proof (sem_range _ _ (n_stored _ _ Hi)) as Rn.
  assert (cons_i x <= nitems) by (destruct (cons_pc x); simpl in *; lia). split.
  - rewrite <- Hw. unfold work. destruct Dp as [Dp|Dp], Dc as [Dc|Dc]; rewrite ?Dp, ?Dc; simpl;
      destruct (prod_pc x), (cons_pc x); simpl in *; lia.
  - intros Hstuck. destruct (decide (prod_i x < nitems \/ cons_i x < nitems)) as [Hl|]; [|lia].
    destruct (pc_progress nitems Hmax x Hi Hl) as [x' Hx]. by destruct (Hstuck x').
Qed.

Lemma prodcons_terminates_witness :
  Z.of_nat 0 <= 10 * 3 /\
  ((forall x', ~ pc_step 3 prodcons_start x') -> prod_i prodcons_start = 3 /\ cons_i prodcons_start = 3).
Proof.
  apply (prodcons_terminates 3 (msem 1) (msem 10) (msem 0) 0 prodcons_start).
  - done.
  - done.
  - apply msem_rep. lia.
  - apply (msem_rep 10). lia.
  - apply msem_rep. lia.
  - constructor.
Defined.

(** ** Threads on a semaphore in a memory-mapped file *)
Inductive sthread := SOut | SBlocked | SWoken.

#[export] Instance sthread_eq_dec : EqDecision sthread.
Proof. solve_decision. Defined.

Record semsys := mkSemsys { y_sem : SemMmap.mysem_t; y_thr : gmap nat sthread }.

Inductive semact :=
| APost (w : option nat)
| AWait (t : nat)
| AResume (t : nat).

(** [pthread_cond_signal] wakes the blocked thread [w]; it does nothing when
    no thread is blocked. *)
Definition signal_one (w : option nat) (thr : gmap nat sthread) : option (gmap nat sthread) :=
  match w with
  | Some t => match thr !! t with Some SBlocked => Some (<[t := SWoken]> thr) | _ => None end
  | None => if bool_decide (map_Forall (fun _ x => x <> SBlocked) thr) then Some thr else None
  end.

Definition sem_act (a : semact) (y : semsys) : option semsys :=
  let enter t o := match o with
    | Ok (Ret _) s => Some (mkSemsys s (<[t := SOut]> (y_thr y)))
    | Ok Wait s => Some (mkSemsys s (<[t := SBlocked]> (y_thr y)))
    | Abort _ _ => None
    end in
  match a with
  | APost w =>
      match SemMmap.mysem_post (y_sem y) with
      | Ok _ s =>
          if bool_decide (SemMmap.sem_signals (y_sem y) < SemMmap.sem_signals s)%nat
          then mkSemsys s <$> signal_one w (y_thr y) else Some (mkSemsys s (y_thr y))
      | Abort _ _ => None
      end
  | AWait t => match y_thr y !! t with Some SOut => enter t (SemMmap.mysem_wait (y_sem y)) | _ => None end
  | AResume t => match y_thr y !! t with Some SWoken => enter t (SemMmap.wait_loop (y_sem y)) | _ => None end
  end.

Definition sem_step (y y' : semsys) : Prop := exists a, sem_act a y = Some y'.

Fixpoint sem_acts (l : list semact) (y : semsys) : option semsys :=
  match l with [] => Some y | a :: l => sem_act a y ≫= sem_acts l end.

Lemma sem_acts_rtc l y y' : sem_acts l y = Some y' -> rtc sem_step y y'.
Proof.
  revert y. induction l as [|a l IH]; simpl; intros y E; [by injection E as ->|].
  apply bind_Some in E as (z & E1 & E2). eapply rtc_l; [by exists a|]. by apply IH.
Qed.

Definition two_waiters : semsys := mkSemsys (msem 0) (<[0%nat := SOut]> (<[1%nat := SOut]> ∅)).

(** A wakeup can be lost.  [mysem_post] signals only when the value is
    0, so when two threads wait and two posts come before the first of them
    runs, the second stays blocked: a state can be reached in which the
    value is 1, a thread is blocked in [mysem_wait], and no thread has a
    wakeup pending. *)
Theorem sem_mmap_lost_wakeup :
  exists y, rtc sem_step two_waiters y /\ SemMmap.sem_count (y_sem y) = 1 /\
    y_thr y !! 1%nat = Some SBlocked /\ forall t, y_thr y !! t <> Some SWoken.
Proof.
  destruct (sem_acts [AWait 0; AWait 1; APost (Some 0%nat); APost None; AResume 0] two_waiters) as [y|] eqn:E;
    [|by vm_compute in E].
  assert (SemMmap.sem_count (y_sem y) = 1 /\ y_thr y !! 1%nat = Some SBlocked /\
    map_Forall (fun _ x => x <> SWoken) (y_thr y)) as (H1 & H2 & H3).
  { vm_compute in E. injection E as <-. split; [reflexivity|]. split; [reflexivity|].
    apply map_Forall_to_list. vm_compute. by repeat constructor. }
  exists y. split; [by eapply sem_acts_rtc|]. split_and!; [done..|]. intros t Ht. by apply H3 in Ht.
Qed.

(** ** Opening *)

(** Creating a semaphore in a memory-mapped file.  When the name is
    free, [mysem_open] makes an initialised semaphore of the given value, or
    returns an error (EINVAL for a value above the system's maximum, the
    error of a failing system call) and leaves no file. *)
Theorem sem_mmap_open_creates fault others vmax pathname oflag value fuel s :
  has_flag oflag O_CREAT = true -> fault SemMmap.SysOpenCreat = None ->
  others (SemMmap.o_tick s) (SemMmap.o_fs s) !! pathname = None -> 0 <= value < 2 ^ 32 ->
  let fs := others (SemMmap.o_tick s) (SemMmap.o_fs s) in
  exists r s', SemMmap.mysem_open fault others vmax pathname oflag value (S fuel) s = Ok r s' /\
    match r with
    | Some _ => SemMmap.o_fs s' = fs
    | None => value <= vmax /\ exists sem, sem_rep sem value /\
        SemMmap.o_fs s' = <[pathname := SemMmap.mkSemfile false sem]> fs
    end.
Proof.
  intros Hc Hf Hno Hv fs. cbn [SemMmap.mysem_open]. rewrite Hc. unfold SemMmap.o_sync. pstep. fold fs.
  cbn [SemMmap.o_fs]. rewrite Hf. unfold fs at 1. rewrite Hno. unfold SemMmap.open_create, SemMmap.try_sys, SemMmap.set_file.
  pstep. cbn [SemMmap.o_fs SemMmap.o_tick].
  assert (forall e f t, exists r s', SemMmap.created_err pathname e (SemMmap.mkOstate (<[pathname := f]> fs) t) = Ok r s' /\
    match r with Some _ => SemMmap.o_fs s' = fs | None => value <= vmax /\ exists sem, sem_rep sem value /\
        SemMmap.o_fs s' = <[pathname := SemMmap.mkSemfile false sem]> fs end) as Herr.
  { intros e f t. eexists _, _. split; [reflexivity|]. simpl. by apply delete_insert_id. }
  clear Hf. destruct (fault SemMmap.SysWrite); [apply Herr|]. pstep. cbn [SemMmap.o_fs SemMmap.o_tick]. rewrite insert_insert_eq.
  do 5 (destruct (fault _); [apply Herr|]). pstep. cbn [SemMmap.o_fs SemMmap.o_tick]. rewrite insert_insert_eq.
  unfold wrapu. rewrite Z.mod_small by done. destruct (Z.ltb_spec vmax value); [apply Herr|].
  destruct (fault _); [apply Herr|]. pstep. eexists _, _. split; [reflexivity|]. cbn [SemMmap.o_fs SemMmap.o_tick].
  rewrite !insert_insert_eq. split; [done|]. eexists. split; [|reflexivity]. split_and!; simpl; done || lia.
Qed.

Lemma sem_mmap_open_creates_witness :
  exists r s', SemMmap.mysem_open (fun _ => None) (fun _ fs => fs) 1000 (lit "/s") O_CREAT 5 1 (SemMmap.mkOstate ∅ 0) = Ok r s' /\
    match r with
    | Some _ => SemMmap.o_fs s' = ∅
    | None => 5 <= 1000 /\ exists sem, sem_rep sem 5 /\
        SemMmap.o_fs s' = <[lit "/s" := SemMmap.mkSemfile false sem]> ∅
    end.
Proof.
  apply (sem_mmap_open_creates (fun _ => None) (fun _ fs => fs) 1000 (lit "/s") O_CREAT 5 0 (SemMmap.mkOstate ∅ 0));
    [reflexivity|reflexivity|reflexivity|split; [discriminate|reflexivity]].
Defined.

(** Creating a semaphore on a System V semaphore.  When neither the
    file nor a set with its key exists, [mysem_open] with O_CREAT and a value
    up to SEMVMX gives a semaphore of that value that is marked as
    initialised, so that others need not wait; a larger value is EINVAL and
    the set is removed again. *)
Theorem sem_sv_open_creates ftok_key pathname oflag value k :
  has_flag oflag O_CREAT = true -> SemSv.k_keys k !! ftok_key pathname = None ->
  pathname ∉ SemSv.k_files k -> SemSv.k_sets k !! SemSv.k_next k = None -> 0 <= value ->
  exists r k', SemSv.mysem_open ftok_key (fun _ k => k) false pathname oflag value k = Ok r k' /\
    if SemSv.SEMVMX <? value
    then r = inl EINVAL /\ SemSv.k_sets k' = SemSv.k_sets k
    else exists sem, r = inr sem /\ sem_rep (SemSv.mkHandle sem k') value /\
      SemSv.k_sets k' !! SemSv.sem_semid sem = Some (SemSv.mkSet value true).
Proof.
  intros Hc Hk Hf Hs Hv. unfold SemSv.mysem_open. rewrite Hc. unfold SemSv.k_sync. pstep. cbn [SemSv.k_files].
  rewrite (bool_decide_false _ Hf). cbn [andb]. pstep. cbn [SemSv.k_files SemSv.k_keys].
  rewrite bool_decide_true by set_solver. cbn [negb]. pstep. cbn [SemSv.k_keys]. rewrite Hk.
  unfold SemSv.open_new. pstep. cbn [SemSv.k_next SemSv.k_keys SemSv.k_sets SemSv.k_files SemSv.k_tick].
  destruct (Z.ltb_spec SemSv.SEMVMX value).
  - eexists _, _. split; [reflexivity|]. simpl. split; [done|]. by apply delete_insert_id.
  - unfold pbind at 1, SemSv.semop. cbn [SemSv.k_sets]. rewrite lookup_insert_eq. cbn [SemSv.sv_val].
    destruct (Z.ltb_spec 0 value).
    + rewrite (ltb_false SemSv.SEMVMX) by lia. simpl. eexists _, _. split; [reflexivity|]. eexists. split; [reflexivity|].
      simpl. rewrite lookup_insert_eq. split; [|done]. split_and!; simpl; try done; try lia.
      exists true. by rewrite lookup_insert_eq.
    + assert (value = 0) as -> by lia. simpl. eexists _, _. split; [reflexivity|]. eexists. split; [reflexivity|].
      simpl. rewrite lookup_insert_eq. split; [|done]. split_and!; simpl; try done; try lia.
      exists true. by rewrite lookup_insert_eq.
Qed.

Definition kernel0 : SemSv.kernel := SemSv.mkKern ∅ ∅ ∅ 0 0.

Lemma sem_sv_open_creates_witness :
  exists r k', SemSv.mysem_open (fun _ => 77) (fun _ k => k) false (lit "/s") O_CREAT 5 kernel0 = Ok r k' /\
    exists sem, r = inr sem /\ sem_rep (SemSv.mkHandle sem k') 5 /\
      SemSv.k_sets k' !! SemSv.sem_semid sem = Some (SemSv.mkSet 5 true).
Proof.
  apply (sem_sv_open_creates (fun _ => 77) (lit "/s") O_CREAT 5 kernel0);
    [reflexivity|reflexivity|apply not_elem_of_empty|reflexivity|discriminate].
Defined.

(** Giving up removes the semaphore of somebody else.  A process that
    opens an existing semaphore (without O_CREAT) whose creator has not yet
    set its value waits ten times, returns ETIMEDOUT, and removes the set,
    which it did not create. *)
Theorem sem_sv_open_removes ftok_key pathname k id :
  pathname ∈ SemSv.k_files k -> SemSv.k_keys k !! ftok_key pathname = Some id ->
  SemSv.k_sets k !! id = Some (SemSv.mkSet 0 false) ->
  exists k', SemSv.mysem_open ftok_key (fun _ k => k) false pathname 0 0 k = Ok (inl ETIMEDOUT) k' /\
    SemSv.k_sets k' !! id = None.
Proof.
  intros Hf Hk Hs. unfold SemSv.mysem_open. cbn [has_flag]. change (has_flag 0 O_CREAT) with false.
  unfold SemSv.open_existing, SemSv.k_sync. pstep. cbn [SemSv.k_files SemSv.k_keys].
  rewrite (bool_decide_true _ Hf). cbn [negb]. pstep. cbn [SemSv.k_keys]. rewrite Hk.
  assert (forall n k0, SemSv.k_sets k0 = SemSv.k_sets k -> exists k', SemSv.wait_init (fun _ k => k) false n id k0
    = Ok (inl ETIMEDOUT) k' /\ SemSv.k_sets k' !! id = None) as Hw.
  { induction n as [|n IH]; intros k0 E; simpl.
    - eexists. split; [reflexivity|]. simpl. apply lookup_delete_eq.
    - unfold SemSv.k_sync. pstep. cbn [SemSv.k_sets]. rewrite E, Hs. simpl. by apply IH. }
  by apply Hw.
Qed.

Definition kernel1 : SemSv.kernel :=
  SemSv.mkKern {[lit "/s"]} (<[77 := 1]> ∅) (<[1 := SemSv.mkSet 0 false]> ∅) 2 0.

Lemma sem_sv_open_removes_witness :
  exists k', SemSv.mysem_open (fun _ => 77) (fun _ k => k) false (lit "/s") 0 0 kernel1 = Ok (inl ETIMEDOUT) k' /\
    SemSv.k_sets k' !! 1 = None.
Proof. apply (sem_sv_open_removes (fun _ => 77) (lit "/s") kernel1 1); [unfold kernel1; simpl; set_solver|done|done]. Defined.

(** A semaphore on a FIFO.  A new semaphore has the given value when
    that many bytes fit into a FIFO; a larger value fails with EAGAIN and the
    FIFO is removed. *)
Theorem sem_fifo_open_creates pathname oflag value fs :
  has_flag oflag O_CREAT = true -> fs !! pathname = None -> 0 <= value < 2 ^ 32 ->
  SemFifo.mysem_open (fun _ => None) pathname oflag value fs
  = (if value <=? SemFifo.PIPE_SIZE
     then (<[pathname := value]> fs, inr (SemFifo.mkSem value SemFifo.SEM_MAGIC true))
     else (fs, inl EAGAIN)) /\
  (value <= SemFifo.PIPE_SIZE -> sem_rep (SemFifo.mkSem value SemFifo.SEM_MAGIC true) value).
Proof.
  intros Hc Hno Hv. split; [|intros; split_and!; simpl; done || lia].
  unfold SemFifo.mysem_open, SemFifo.open_fifo. rewrite Hc, Hno, lookup_insert_eq. simpl.
  unfold wrapu. rewrite Z.mod_small by done. destruct (Z.leb_spec value SemFifo.PIPE_SIZE).
  - rewrite SemFifo.init_writes_run by lia. rewrite Z.add_0_l, Z2Nat.id by lia. simpl. by rewrite insert_insert_eq.
  - rewrite SemFifo.init_writes_full by (unfold SemFifo.PIPE_SIZE in *; lia). by rewrite delete_insert_id.
Qed.

Lemma sem_fifo_open_creates_witness :
  SemFifo.mysem_open (fun _ => None) (lit "/f") O_CREAT 3 ∅
  = (<[lit "/f" := 3]> ∅, inr (SemFifo.mkSem 3 SemFifo.SEM_MAGIC true)) /\
  (3 <= SemFifo.PIPE_SIZE -> sem_rep (SemFifo.mkSem 3 SemFifo.SEM_MAGIC true) 3).
Proof. apply (sem_fifo_open_creates (lit "/f") O_CREAT 3 ∅); [done|done|split; done]. Defined.
