(* ===== verification/Rwlock.v ===== *)
(** * Read-write locks (unpv22e/my_rwlock)

    A reference count, the numbers of waiting readers and writers, a mutex
    and two condition variables.  The operations run with the mutex held; a
    thread that waits on a condition variable leaves with [WaitR] or
    [WaitW], and goes on in the [_resume] part with what
    [pthread_cond_wait] returned.  Locking and unlocking the mutex,
    signalling and broadcasting succeed; the counts stay below 2^31, there
    being fewer threads than that. *)
From S2P Require Import Prelude Posix.

Open Scope prog_scope.

(** The wakeups an operation makes. *)
Inductive wakeup := SignalWriter | BroadcastReaders.

(** [rw_wakes] is the history of wakeups, most recent first. *)
Record pthread_rwlock_t := mkRw {
  rw_magic : Z;
  rw_nwaitreaders : Z;
  rw_nwaitwriters : Z;
  rw_refcount : Z;
  rw_wakes : list wakeup
}.

Definition RW_MAGIC : Z := 0x19283746.

Definition set_nwaitreaders (v : Z) (rw : pthread_rwlock_t) :=
  mkRw (rw_magic rw) v (rw_nwaitwriters rw) (rw_refcount rw) (rw_wakes rw).
Definition set_nwaitwriters (v : Z) (rw : pthread_rwlock_t) :=
  mkRw (rw_magic rw) (rw_nwaitreaders rw) v (rw_refcount rw) (rw_wakes rw).
Definition set_refcount (v : Z) (rw : pthread_rwlock_t) :=
  mkRw (rw_magic rw) (rw_nwaitreaders rw) (rw_nwaitwriters rw) v (rw_wakes rw).
Definition set_rw_magic (v : Z) (rw : pthread_rwlock_t) :=
  mkRw v (rw_nwaitreaders rw) (rw_nwaitwriters rw) (rw_refcount rw) (rw_wakes rw).
Definition add_wake (w : wakeup) (rw : pthread_rwlock_t) :=
  mkRw (rw_magic rw) (rw_nwaitreaders rw) (rw_nwaitwriters rw) (rw_refcount rw) (w :: rw_wakes rw).

(** An operation returns an error number, or waits. *)
Inductive rwcall := Done (result : Z) | WaitR | WaitW.

Abbreviation rwprog := (Prog pthread_rwlock_t rwcall).

Definition bad_rw (rw : pthread_rwlock_t) : bool := negb (rw_magic rw =? RW_MAGIC).

Definition PTHREAD_RWLOCK_INITIALIZER : pthread_rwlock_t := mkRw RW_MAGIC 0 0 0 [].

(** [merr], [rerr] and [werr] are what the initialisation of the mutex and
    of the two condition variables returns. *)
Definition pthread_rwlock_init (has_attr : bool) (merr rerr werr : Z) : Prog pthread_rwlock_t Z :=
  if has_attr then pret EINVAL
  else if negb (merr =? 0) then pret merr
  else if negb (rerr =? 0) then pret rerr
  else if negb (werr =? 0) then pret werr
  else
    run put (set_nwaitreaders 0);
    run put (set_nwaitwriters 0);
    run put (set_refcount 0);
    run put (set_rw_magic RW_MAGIC);
    pret 0.

Definition pthread_rwlock_destroy : Prog pthread_rwlock_t Z :=
  do rw <- get id;
  if bad_rw rw then pret EINVAL
  else if negb (rw_refcount rw =? 0) || negb (rw_nwaitreaders rw =? 0) || negb (rw_nwaitwriters rw =? 0)
  then pret EBUSY
  else
    run put (set_rw_magic 0);
    pret 0.

(** ** Reading *)
Definition rdlock_loop : rwprog :=
  do rw <- get id;
  if (rw_refcount rw <? 0) || (0 <? rw_nwaitwriters rw) then
    run put (set_nwaitreaders (rw_nwaitreaders rw + 1));
    pret WaitR
  else
    run put (set_refcount (rw_refcount rw + 1));
    pret (Done 0).

Definition rdlock_resume (result : Z) : rwprog :=
  do n <- get rw_nwaitreaders;
  run put (set_nwaitreaders (n - 1));
  if negb (result =? 0) then pret (Done result) else rdlock_loop.

Definition pthread_rwlock_rdlock : rwprog :=
  do bad <- get bad_rw;
  if bad then pret (Done EINVAL) else rdlock_loop.

Definition pthread_rwlock_tryrdlock : rwprog :=
  do rw <- get id;
  if bad_rw rw then pret (Done EINVAL)
  else if (rw_refcount rw <? 0) || (0 <? rw_nwaitwriters rw) then pret (Done EBUSY)
  else
    run put (set_refcount (rw_refcount rw + 1));
    pret (Done 0).

(** ** Writing *)
Definition wrlock_loop : rwprog :=
  do rw <- get id;
  if negb (rw_refcount rw =? 0) then
    run put (set_nwaitwriters (rw_nwaitwriters rw + 1));
    pret WaitW
  else
    run put (set_refcount (-1));
    pret (Done 0).

Definition wrlock_resume (result : Z) : rwprog :=
  do n <- get rw_nwaitwriters;
  run put (set_nwaitwriters (n - 1));
  if negb (result =? 0) then pret (Done result) else wrlock_loop.

Definition pthread_rwlock_wrlock : rwprog :=
  do bad <- get bad_rw;
  if bad then pret (Done EINVAL) else wrlock_loop.

Definition pthread_rwlock_trywrlock : rwprog :=
  do rw <- get id;
  if bad_rw rw then pret (Done EINVAL)
  else if negb (rw_refcount rw =? 0) then pret (Done EBUSY)
  else
    run put (set_refcount (-1));
    pret (Done 0).

(** ** Unlocking *)
Definition release : Prog pthread_rwlock_t unit :=
  do n <- get rw_refcount;
  if 0 <? n then put (set_refcount (n - 1))
  else if n =? -1 then put (set_refcount 0)
  else die "rw_refcount = %d".

Definition pthread_rwlock_unlock : rwprog :=
  do bad <- get bad_rw;
  if bad then pret (Done EINVAL)
  else
    run release;
    do rw <- get id;
    run (if 0 <? rw_nwaitwriters rw then
           if rw_refcount rw =? 0 then put (add_wake SignalWriter) else pret tt
         else if 0 <? rw_nwaitreaders rw then put (add_wake BroadcastReaders)
         else pret tt);
    pret (Done 0).

(** ** The wrapper functions

    A result that is not 0 ends the process, also the EBUSY of the two
    functions that try. *)
Definition ok_or_exit (why : string) (r : rwcall) : rwprog :=
  match r with
  | Done n => run guard_die (negb (n =? 0)) why; pret (Done n)
  | _ => pret r
  end.

Definition Pthread_rwlock_init (has_attr : bool) (merr rerr werr : Z) : Prog pthread_rwlock_t unit :=
  do n <- pthread_rwlock_init has_attr merr rerr werr; guard_die (negb (n =? 0)) "pthread_rwlock_init error".

Definition Pthread_rwlock_destroy : Prog pthread_rwlock_t unit :=
  do n <- pthread_rwlock_destroy; guard_die (negb (n =? 0)) "pthread_rwlock_destroy error".

Definition Pthread_rwlock_rdlock : rwprog :=
  do r <- pthread_rwlock_rdlock; ok_or_exit "pthread_rwlock_rdlock error" r.

Definition Pthread_rwlock_tryrdlock : rwprog :=
  do r <- pthread_rwlock_tryrdlock; ok_or_exit "pthread_rwlock_tryrdlock error" r.

Definition Pthread_rwlock_wrlock : rwprog :=
  do r <- pthread_rwlock_wrlock; ok_or_exit "pthread_rwlock_wrlock error" r.

Definition Pthread_rwlock_trywrlock : rwprog :=
  do r <- pthread_rwlock_trywrlock; ok_or_exit "pthread_rwlock_trywrlock error" r.

Definition Pthread_rwlock_unlock : rwprog :=
  do r <- pthread_rwlock_unlock; ok_or_exit "pthread_rwlock_unlock error" r.

(** ** Read-write locks with cancellation handlers (unpv22e/my_rwlock_cancel)

    The operations in which this version differs from my_rwlock: the
    handlers that run when a waiting thread is cancelled, the results of
    [rdlock] and [wrlock] after a failed wait, the test of [tryrdlock], and
    the wakeups of [unlock]. *)
(** The cleanup handlers, run with the mutex held. *)
Definition rwlock_cancelrdwait : Prog pthread_rwlock_t unit :=
  do n <- get rw_nwaitreaders;
  put (set_nwaitreaders (n - 1)).

Definition rwlock_cancelwrwait : Prog pthread_rwlock_t unit :=
  do n <- get rw_nwaitwriters;
  put (set_nwaitwriters (n - 1)).

(** After a wait: 0 is returned also when it failed. *)
Definition cancel_rdlock_resume (result : Z) : rwprog :=
  do n <- get rw_nwaitreaders;
  run put (set_nwaitreaders (n - 1));
  if negb (result =? 0) then pret (Done 0) else rdlock_loop.

Definition cancel_rdlock : rwprog :=
  do bad <- get bad_rw;
  if bad then pret (Done EINVAL) else rdlock_loop.

Definition cancel_tryrdlock : rwprog :=
  do rw <- get id;
  if bad_rw rw then pret (Done EINVAL)
  else if (rw_refcount rw =? -1) || (0 <? rw_nwaitwriters rw) then pret (Done EBUSY)
  else
    run put (set_refcount (rw_refcount rw + 1));
    pret (Done 0).

Definition cancel_wrlock_resume (result : Z) : rwprog :=
  do n <- get rw_nwaitwriters;
  run put (set_nwaitwriters (n - 1));
  if negb (result =? 0) then pret (Done 0) else wrlock_loop.

Definition cancel_wrlock : rwprog :=
  do bad <- get bad_rw;
  if bad then pret (Done EINVAL) else wrlock_loop.

Definition cancel_unlock : rwprog :=
  do bad <- get bad_rw;
  if bad then pret (Done EINVAL)
  else
    run release;
    do rw <- get id;
    run (if 0 <? rw_nwaitwriters rw then put (add_wake SignalWriter)
         else if 0 <? rw_nwaitreaders rw then put (add_wake BroadcastReaders)
         else pret tt);
    pret (Done 0).
