(* ===== verification/RwSys.v ===== *)
(** * Threads on a read-write lock

    A step relation for any number of threads that lock, try to lock, unlock,
    wait and are woken up, over the operations of either version of the
    lock; the invariant behind mutual exclusion for both, and the one behind
    the absence of lost wakeups for my_rwlock. *)
From S2P Require Import Prelude Posix Threads Rwlock.

Open Scope prog_scope.

(** ** The operations of a version *)
Record rwops := mkOps {
  op_rdlock : rwprog;
  op_rdresume : rwprog;
  op_tryrdlock : rwprog;
  op_wrlock : rwprog;
  op_wrresume : rwprog;
  op_trywrlock : rwprog;
  op_unlock : rwprog
}.

(** [pthread_cond_wait] succeeds. *)
Definition plain_ops : rwops :=
  mkOps pthread_rwlock_rdlock (rdlock_resume 0) pthread_rwlock_tryrdlock
    pthread_rwlock_wrlock (wrlock_resume 0) pthread_rwlock_trywrlock pthread_rwlock_unlock.

Definition cancel_ops : rwops :=
  mkOps cancel_rdlock (cancel_rdlock_resume 0) cancel_tryrdlock
    cancel_wrlock (cancel_wrlock_resume 0) pthread_rwlock_trywrlock cancel_unlock.

(** ** What the operations promise *)
Definition rw_good (rw : pthread_rwlock_t) : Prop := rw_magic rw = RW_MAGIC /\ -1 <= rw_refcount rw.

(** A reader gets the lock, or waits because of a writer. *)
Definition rd_shape (rw : pthread_rwlock_t) (o : outcome pthread_rwlock_t rwcall) : Prop :=
  (o = Ok (Done 0) (set_refcount (rw_refcount rw + 1) rw) /\ 0 <= rw_refcount rw /\ rw_nwaitwriters rw <= 0) \/
  (o = Ok WaitR (set_nwaitreaders (rw_nwaitreaders rw + 1) rw) /\ (rw_refcount rw < 0 \/ 0 < rw_nwaitwriters rw)).

Definition tryrd_shape (rw : pthread_rwlock_t) (o : outcome pthread_rwlock_t rwcall) : Prop :=
  (o = Ok (Done 0) (set_refcount (rw_refcount rw + 1) rw) /\ 0 <= rw_refcount rw /\ rw_nwaitwriters rw <= 0) \/
  (o = Ok (Done EBUSY) rw /\ (rw_refcount rw < 0 \/ 0 < rw_nwaitwriters rw)).

(** A writer gets a free lock, or waits. *)
Definition wr_shape (rw : pthread_rwlock_t) (o : outcome pthread_rwlock_t rwcall) : Prop :=
  (o = Ok (Done 0) (set_refcount (-1) rw) /\ rw_refcount rw = 0) \/
  (o = Ok WaitW (set_nwaitwriters (rw_nwaitwriters rw + 1) rw) /\ rw_refcount rw <> 0).

Definition trywr_shape (rw : pthread_rwlock_t) (o : outcome pthread_rwlock_t rwcall) : Prop :=
  (o = Ok (Done 0) (set_refcount (-1) rw) /\ rw_refcount rw = 0) \/
  (o = Ok (Done EBUSY) rw /\ rw_refcount rw <> 0).

(** The count after a release. *)
Definition released (n : Z) : Z := if 0 <? n then n - 1 else 0.

Definition unlock_shape (wakes : pthread_rwlock_t -> list wakeup) (rw : pthread_rwlock_t)
    (o : outcome pthread_rwlock_t rwcall) : Prop :=
  let rw' := set_refcount (released (rw_refcount rw)) rw in
  o = Ok (Done 0) (match wakes rw' with w :: _ => add_wake w rw' | [] => rw' end) /\ (length (wakes rw') <= 1)%nat.

Record rw_laws (ops : rwops) (wakes : pthread_rwlock_t -> list wakeup) : Prop := {
  l_rd rw : rw_good rw -> rd_shape rw (op_rdlock ops rw);
  l_rdresume rw : rw_good rw -> rd_shape (set_nwaitreaders (rw_nwaitreaders rw - 1) rw) (op_rdresume ops rw);
  l_tryrd rw : rw_good rw -> tryrd_shape rw (op_tryrdlock ops rw);
  l_wr rw : rw_good rw -> wr_shape rw (op_wrlock ops rw);
  l_wrresume rw : rw_good rw -> wr_shape (set_nwaitwriters (rw_nwaitwriters rw - 1) rw) (op_wrresume ops rw);
  l_trywr rw : rw_good rw -> trywr_shape rw (op_trywrlock ops rw);
  l_unlock rw : rw_good rw -> rw_refcount rw <> 0 -> unlock_shape wakes rw (op_unlock ops rw)
}.

(** The wakeups of the two versions. *)
Definition plain_wakes (rw : pthread_rwlock_t) : list wakeup :=
  if 0 <? rw_nwaitwriters rw then (if rw_refcount rw =? 0 then [SignalWriter] else [])
  else if 0 <? rw_nwaitreaders rw then [BroadcastReaders] else [].

Definition cancel_wakes (rw : pthread_rwlock_t) : list wakeup :=
  if 0 <? rw_nwaitwriters rw then [SignalWriter]
  else if 0 <? rw_nwaitreaders rw then [BroadcastReaders] else [].

(** [rwcase] runs an operation on a lock whose fields are variables. *)
Ltac rwcase :=
  intros [m nr nw rc ws] [Hm Hr]; simpl in Hm, Hr; subst m; unfold plain_ops, cancel_ops;
  cbn [op_rdlock op_rdresume op_tryrdlock op_wrlock op_wrresume op_trywrlock];
  unfold rd_shape, tryrd_shape, wr_shape, trywr_shape,
    pthread_rwlock_rdlock, rdlock_loop, rdlock_resume, pthread_rwlock_tryrdlock, pthread_rwlock_wrlock,
    wrlock_loop, wrlock_resume, pthread_rwlock_trywrlock, cancel_rdlock, cancel_rdlock_resume,
    cancel_tryrdlock, cancel_wrlock, cancel_wrlock_resume, rdlock_loop, wrlock_loop, pbind, get, put, pret, id, bad_rw,
    set_nwaitreaders, set_nwaitwriters, set_refcount;
  cbn [rw_magic rw_nwaitreaders rw_nwaitwriters rw_refcount rw_wakes];
  rewrite ?Z.eqb_refl;
  cbn [negb rw_magic rw_nwaitreaders rw_nwaitwriters rw_refcount rw_wakes].

Lemma rd_cases rc nw : (rc <? 0) || (0 <? nw) = true /\ (rc < 0 \/ 0 < nw) \/ (rc <? 0) || (0 <? nw) = false /\ 0 <= rc /\ nw <= 0.
Proof. destruct (Z.ltb_spec rc 0), (Z.ltb_spec 0 nw); simpl; auto; right; split_and!; done || lia. Qed.

Lemma release_ok rw : rw_good rw -> rw_refcount rw <> 0 -> release rw = Ok tt (set_refcount (released (rw_refcount rw)) rw).
Proof.
  intros [_ Hr] H0. unfold release, released. pstep. destruct (Z.ltb_spec 0 (rw_refcount rw)); [done|].
  assert (rw_refcount rw = -1) as -> by lia. done.
Qed.

Lemma plain_laws : rw_laws plain_ops plain_wakes.
Proof.
  split.
  - rwcase. destruct (rd_cases rc nw) as [[-> ?]|(-> & ? & ?)]; [right|left]; done.
  - rwcase. destruct (rd_cases rc nw) as [[-> ?]|(-> & ? & ?)]; [right|left]; done.
  - rwcase. destruct (rd_cases rc nw) as [[-> ?]|(-> & ? & ?)]; [right|left]; done.
  - rwcase. destruct (Z.eqb_spec rc 0); [left|right]; done.
  - rwcase. destruct (Z.eqb_spec rc 0); [left|right]; done.
  - rwcase. destruct (Z.eqb_spec rc 0); [left|right]; done.
  - intros rw Hg H0. unfold unlock_shape. cbv zeta. simpl. unfold pthread_rwlock_unlock, bad_rw. pstep.
    rewrite (proj1 Hg). simpl. rewrite (pbind_ok _ _ _ _ _ (release_ok rw Hg H0)). pstep.
    set (rw' := set_refcount _ rw). unfold plain_wakes, id.
    destruct (0 <? rw_nwaitwriters rw'); [destruct (rw_refcount rw' =? 0); by split; [|simpl; lia]|].
    destruct (0 <? rw_nwaitreaders rw'); by split; [|simpl; lia].
Qed.

Lemma cancel_laws : rw_laws cancel_ops cancel_wakes.
Proof.
  split.
  - rwcase. destruct (rd_cases rc nw) as [[-> ?]|(-> & ? & ?)]; [right|left]; done.
  - rwcase. destruct (rd_cases rc nw) as [[-> ?]|(-> & ? & ?)]; [right|left]; done.
  - rwcase. assert ((rc =? -1) = (rc <? 0)) as -> by (destruct (Z.eqb_spec rc (-1)), (Z.ltb_spec rc 0); done || lia).
    destruct (rd_cases rc nw) as [[-> ?]|(-> & ? & ?)]; [right|left]; done.
  - rwcase. destruct (Z.eqb_spec rc 0); [left|right]; done.
  - rwcase. destruct (Z.eqb_spec rc 0); [left|right]; done.
  - rwcase. destruct (Z.eqb_spec rc 0); [left|right]; done.
  - intros rw Hg H0. unfold unlock_shape. cbv zeta. simpl. unfold cancel_unlock, bad_rw. pstep.
    rewrite (proj1 Hg). simpl. rewrite (pbind_ok _ _ _ _ _ (release_ok rw Hg H0)). pstep.
    set (rw' := set_refcount _ rw). unfold cancel_wakes, id.
    destruct (0 <? rw_nwaitwriters rw'); [by split; [|simpl; lia]|].
    destruct (0 <? rw_nwaitreaders rw'); by split; [|simpl; lia].
Qed.

(** ** The threads *)
Inductive rwthread := Out | RWait | RReady | WWait | WReady | HoldR | HoldW.

#[export] Instance rwthread_eq_dec : EqDecision rwthread.
Proof. solve_decision. Defined.

Record rwsys := mkRwsys { y_rw : pthread_rwlock_t; y_thr : gmap nat rwthread }.

Definition wake_reader (x : rwthread) : rwthread := match x with RWait => RReady | _ => x end.

(** The threads after the new wakeups; [w] is the writer a signal wakes, if
    one is blocked. *)
Definition wake_threads (l : list wakeup) (w : option nat) (thr : gmap nat rwthread) : option (gmap nat rwthread) :=
  match l, w with
  | [], None => Some thr
  | [BroadcastReaders], None => Some (wake_reader <$> thr)
  | [SignalWriter], Some t => match thr !! t with Some WWait => Some (<[t := WReady]> thr) | _ => None end
  | [SignalWriter], None => if bool_decide (map_Forall (fun _ x => x <> WWait) thr) then Some thr else None
  | _, _ => None
  end.

Definition new_wakes (rw rw' : pthread_rwlock_t) : list wakeup :=
  take (length (rw_wakes rw') - length (rw_wakes rw)) (rw_wakes rw').

Inductive rwact :=
| ARd (t : nat) | ATryRd (t : nat) | AWr (t : nat) | ATryWr (t : nat)
| AUnlock (t : nat) (w : option nat) | AResume (t : nat) | ASpurious (t : nat).

Section Sys.
Context (ops : rwops).

(** What becomes of a thread that has run a lock operation. *)
Definition enter (y : rwsys) (t : nat) (hold : rwthread) (o : outcome pthread_rwlock_t rwcall) : option rwsys :=
  match o with
  | Ok (Done r) rw => Some (mkRwsys rw (<[t := if r =? 0 then hold else Out]> (y_thr y)))
  | Ok WaitR rw => Some (mkRwsys rw (<[t := RWait]> (y_thr y)))
  | Ok WaitW rw => Some (mkRwsys rw (<[t := WWait]> (y_thr y)))
  | Abort _ _ => None
  end.

Definition rw_act (a : rwact) (y : rwsys) : option rwsys :=
  let rw := y_rw y in
  match a with
  | ARd t => match y_thr y !! t with Some Out => enter y t HoldR (op_rdlock ops rw) | _ => None end
  | ATryRd t => match y_thr y !! t with Some Out => enter y t HoldR (op_tryrdlock ops rw) | _ => None end
  | AWr t => match y_thr y !! t with Some Out => enter y t HoldW (op_wrlock ops rw) | _ => None end
  | ATryWr t => match y_thr y !! t with Some Out => enter y t HoldW (op_trywrlock ops rw) | _ => None end
  | AResume t =>
      match y_thr y !! t with
      | Some RReady => enter y t HoldR (op_rdresume ops rw)
      | Some WReady => enter y t HoldW (op_wrresume ops rw)
      | _ => None
      end
  | AUnlock t w =>
      match y_thr y !! t with
      | Some HoldR | Some HoldW =>
          match op_unlock ops rw with
          | Ok (Done 0) rw' => mkRwsys rw' <$> wake_threads (new_wakes rw rw') w (<[t := Out]> (y_thr y))
          | _ => None
          end
      | _ => None
      end
  | ASpurious t =>
      match y_thr y !! t with
      | Some RWait => Some (mkRwsys rw (<[t := RReady]> (y_thr y)))
      | Some WWait => Some (mkRwsys rw (<[t := WReady]> (y_thr y)))
      | _ => None
      end
  end.

Definition rw_step (y y' : rwsys) : Prop := exists a, rw_act a y = Some y'.

End Sys.

(** ** Invariants *)
Definition is_holdr (x : rwthread) : bool := match x with HoldR => true | _ => false end.
Definition is_holdw (x : rwthread) : bool := match x with HoldW => true | _ => false end.
Definition is_reader (x : rwthread) : bool := match x with RWait | RReady => true | _ => false end.
Definition is_writer (x : rwthread) : bool := match x with WWait | WReady => true | _ => false end.
Definition is_rwait (x : rwthread) : bool := match x with RWait => true | _ => false end.
Definition is_wready (x : rwthread) : bool := match x with WReady => true | _ => false end.

(** The counters of the lock count the threads; one writer or any number of
    readers hold it. *)
Definition counts_ok (rw : pthread_rwlock_t) (thr : gmap nat rwthread) : Prop :=
  rw_magic rw = RW_MAGIC /\
  rw_nwaitreaders rw = count_if is_reader thr /\ rw_nwaitwriters rw = count_if is_writer thr /\
  ((rw_refcount rw = -1 /\ count_if is_holdw thr = 1 /\ count_if is_holdr thr = 0) \/
   (0 <= rw_refcount rw /\ rw_refcount rw = count_if is_holdr thr /\ count_if is_holdw thr = 0)).

(** A lock without waiting writers that is not held by a writer has no
    blocked readers; a free lock with waiting writers has woken one. *)
Definition wakes_ok (rw : pthread_rwlock_t) (thr : gmap nat rwthread) : Prop :=
  (0 <= rw_refcount rw -> rw_nwaitwriters rw = 0 -> count_if is_rwait thr = 0) /\
  (rw_refcount rw = 0 -> 0 < rw_nwaitwriters rw -> 0 < count_if is_wready thr).

Lemma counts_good rw thr : counts_ok rw thr -> rw_good rw.
Proof. intros (Hm & _ & _ & H). split; [done|]. lia. Qed.

(** [counted Ht] rewrites the counts after an update of the thread that [Ht]
    looks up. *)
Ltac counted Ht :=
  rewrite ?(count_insert is_reader _ _ _ _ Ht), ?(count_insert is_writer _ _ _ _ Ht),
    ?(count_insert is_holdr _ _ _ _ Ht), ?(count_insert is_holdw _ _ _ _ Ht),
    ?(count_insert is_rwait _ _ _ _ Ht), ?(count_insert is_wready _ _ _ _ Ht); simpl.

(** Everything about the lock but its wakeups. *)
Definition same_lock (rw rw' : pthread_rwlock_t) : Prop :=
  rw_magic rw' = rw_magic rw /\ rw_nwaitreaders rw' = rw_nwaitreaders rw /\
  rw_nwaitwriters rw' = rw_nwaitwriters rw /\ rw_refcount rw' = rw_refcount rw.

Lemma wake_counts l w thr thr' f :
  wake_threads l w thr = Some thr' -> f RWait = f RReady -> f WWait = f WReady ->
  count_if f thr' = count_if f thr.
Proof.
  intros H Hr Hw. destruct l as [|[] [|]], w as [t|]; simplify_eq/=; try done.
  - destruct (thr !! t) as [[]|] eqn:Ht; simplify_eq. rewrite (count_insert f _ _ _ _ Ht), Hw. lia.
  - case_bool_decide; by simplify_eq.
  - apply count_fmap. by intros [].
Qed.

Section Exclusion.
Context (ops : rwops) (wakes : pthread_rwlock_t -> list wakeup) (LAWS : rw_laws ops wakes).

(** The lock after an unlock, before any thread runs. *)
Lemma unlock_run rw :
  rw_good rw -> rw_refcount rw <> 0 ->
  exists rw', op_unlock ops rw = Ok (Done 0) rw' /\
    same_lock (set_refcount (released (rw_refcount rw)) rw) rw' /\
    new_wakes rw rw' = wakes (set_refcount (released (rw_refcount rw)) rw).
Proof.
  intros Hg H0. destruct (l_unlock _ _ LAWS rw Hg H0) as [E Hl]. cbv zeta in *.
  set (rw1 := set_refcount _ rw) in *. rewrite E. eexists. split; [reflexivity|].
  destruct (wakes rw1) as [|w [|]]; simpl in Hl; [..|lia].
  - split; [done|]. unfold new_wakes. simpl. rewrite Nat.sub_diag. done.
  - split; [done|]. unfold new_wakes. simpl.
    replace (S (length (rw_wakes rw)) - length (rw_wakes rw))%nat with 1%nat by lia. done.
Qed.

Lemma counts_step y y' : counts_ok (y_rw y) (y_thr y) -> rw_step ops y y' -> counts_ok (y_rw y') (y_thr y').
Proof.
  intros Hc [a Ha]. pose proof (counts_good _ _ Hc) as Hg. destruct Hc as (Hm & Hnr & Hnw & Hrc).
  destruct a as [t|t|t|t|t w|t|t]; simpl in Ha; destruct (y_thr y !! t) as [x|] eqn:Ht; try done; destruct x; try done.
  - destruct (l_rd _ _ LAWS _ Hg) as [(E & H1 & H2)|[E _]]; rewrite E in Ha; injection Ha as <-;
      unfold counts_ok; simpl; counted Ht; lia.
  - destruct (l_tryrd _ _ LAWS _ Hg) as [(E & H1 & H2)|[E _]]; rewrite E in Ha; injection Ha as <-;
      unfold counts_ok; simpl; counted Ht; lia.
  - destruct (l_wr _ _ LAWS _ Hg) as [(E & H1)|[E _]]; rewrite E in Ha; injection Ha as <-;
      unfold counts_ok; simpl; counted Ht; lia.
  - destruct (l_trywr _ _ LAWS _ Hg) as [(E & H1)|[E _]]; rewrite E in Ha; injection Ha as <-;
      unfold counts_ok; simpl; counted Ht; lia.
  - pose proof (count_pos is_holdr _ _ _ Ht eq_refl) as Hp.
    destruct (unlock_run (y_rw y) Hg) as (rw' & E & (S1 & S2 & S3 & S4) & _); [lia|]. rewrite E in Ha.
    apply fmap_Some in Ha as (thr' & Hw & ->). unfold counts_ok. simpl in *. rewrite S1, S2, S3, S4.
    rewrite !(wake_counts _ _ _ _ _ Hw) by done. counted Ht. unfold released. rewrite ltb_true by lia. lia.
  - pose proof (count_pos is_holdw _ _ _ Ht eq_refl) as Hp.
    destruct (unlock_run (y_rw y) Hg) as (rw' & E & (S1 & S2 & S3 & S4) & _); [lia|]. rewrite E in Ha.
    apply fmap_Some in Ha as (thr' & Hw & ->). unfold counts_ok. simpl in *. rewrite S1, S2, S3, S4.
    rewrite !(wake_counts _ _ _ _ _ Hw) by done. counted Ht. unfold released. rewrite ltb_false by lia. lia.
  - destruct (l_rdresume _ _ LAWS _ Hg) as [(E & H1 & H2)|[E _]]; rewrite E in Ha; injection Ha as <-;
      unfold counts_ok; simpl in *; counted Ht; lia.
  - destruct (l_wrresume _ _ LAWS _ Hg) as [(E & H1)|[E _]]; rewrite E in Ha; injection Ha as <-;
      unfold counts_ok; simpl in *; counted Ht; lia.
  - injection Ha as <-. unfold counts_ok. simpl. counted Ht. lia.
  - injection Ha as <-. unfold counts_ok. simpl. counted Ht. lia.
Qed.
End Exclusion.

(** ** Wakeups of my_rwlock *)
Lemma wake_wready l w thr thr' :
  wake_threads l w thr = Some thr' -> 0 <= count_if is_wready thr <= count_if is_wready thr'.
Proof.
  intros H. assert (0 <= count_if is_wready thr) as H0 by apply count_nonneg. split; [done|].
  destruct l as [|[] [|]], w as [t|]; simplify_eq/=; try lia.
  - destruct (thr !! t) as [[]|] eqn:Ht; simplify_eq. rewrite (count_insert is_wready _ _ _ _ Ht). simpl. lia.
  - case_bool_decide; simplify_eq. lia.
  - rewrite (count_fmap _ is_wready) by (by intros []). lia.
Qed.

(** A signal finds a writer that waits, or every waiting writer is awake. *)
Lemma wake_signal w thr thr' :
  wake_threads [SignalWriter] w thr = Some thr' -> 0 < count_if is_writer thr -> 0 < count_if is_wready thr'.
Proof.
  intros H Hp. destruct w as [t|]; simpl in H.
  - destruct (thr !! t) as [[]|] eqn:Ht; simplify_eq. rewrite (count_insert is_wready _ _ _ _ Ht). simpl.
    pose proof (count_nonneg is_wready thr). lia.
  - case_bool_decide as Hf; simplify_eq. apply count_exists in Hp as (k & x & Hk & Hx).
    apply (count_pos is_wready _ k x Hk). specialize (Hf k x Hk). by destruct x.
Qed.

Lemma wake_broadcast w thr thr' :
  wake_threads [BroadcastReaders] w thr = Some thr' -> count_if is_rwait thr' = 0.
Proof.
  destruct w; simpl; [done|]. intros [= <-]. rewrite (count_fmap _ (fun _ => false)) by (by intros []).
  apply count_false.
Qed.

Lemma rwait_reader thr : count_if is_reader thr = 0 -> count_if is_rwait thr = 0.
Proof.
  intros H. pose proof (count_nonneg is_rwait thr). destruct (Z.eq_dec (count_if is_rwait thr) 0) as [|Hn]; [done|].
  destruct (count_exists is_rwait thr) as (t & x & Ht & Hx); [lia|].
  pose proof (count_zero is_reader thr t x H Ht). by destruct x.
Qed.

Lemma unlock_wakes y t w y' :
  counts_ok (y_rw y) (y_thr y) -> rw_act plain_ops (AUnlock t w) y = Some y' -> wakes_ok (y_rw y') (y_thr y').
Proof.
  intros Hc Ha. pose proof (counts_step _ _ plain_laws y y' Hc (ex_intro _ _ Ha)) as (_ & Hr' & Hw' & _).
  pose proof (counts_good _ _ Hc) as Hg. destruct Hc as (Hm & Hnr & Hnw & Hrc). simpl in Ha.
  assert (rw_refcount (y_rw y) <> 0 /\ exists rw', pthread_rwlock_unlock (y_rw y) = Ok (Done 0) rw' /\
    Some y' = mkRwsys rw' <$> wake_threads (new_wakes (y_rw y) rw') w (<[t := Out]> (y_thr y))) as (H0 & rw' & E & Hy).
  { destruct (y_thr y !! t) as [[]|] eqn:Ht; try done;
      [pose proof (count_pos is_holdr _ _ _ Ht eq_refl)|pose proof (count_pos is_holdw _ _ _ Ht eq_refl)];
      (split; [lia|]); destruct (pthread_rwlock_unlock (y_rw y)) as [[[]| |] rw'|]; try done; by exists rw'. }
  destruct (unlock_run _ _ plain_laws _ Hg H0) as (rw1 & E1 & (_ & S2 & S3 & S4) & Hn). simpl in E1.
  rewrite E in E1. injection E1 as <-. symmetry in Hy. apply fmap_Some in Hy as (thr' & Hw & ->). simpl in *.
  rewrite Hn in Hw. unfold plain_wakes in Hw. simpl in *. unfold wakes_ok. rewrite S3, S4 in *. rewrite S2 in Hr'.
  destruct (Z.ltb_spec 0 (rw_nwaitwriters (y_rw y))).
  - split; [lia|]. intros Hz _. rewrite Hz in Hw. eapply wake_signal; [exact Hw|].
    rewrite <- (wake_counts _ _ _ _ is_writer Hw) by done. lia.
  - split; [|lia]. intros _ _. destruct (Z.ltb_spec 0 (rw_nwaitreaders (y_rw y))).
    + by eapply wake_broadcast.
    + apply rwait_reader. pose proof (count_nonneg is_reader thr'). lia.
Qed.

Lemma wakes_step y y' :
  counts_ok (y_rw y) (y_thr y) -> wakes_ok (y_rw y) (y_thr y) -> rw_step plain_ops y y' ->
  wakes_ok (y_rw y') (y_thr y').
Proof.
  intros Hc [HA HB] [a Ha]. pose proof (counts_good _ _ Hc) as Hg. pose proof Hc as (Hm & Hnr & Hnw & Hrc).
  pose proof (count_nonneg is_wready (y_thr y)) as Hn.
  destruct a as [t|t|t|t|t w|t|t]; simpl in Ha; destruct (y_thr y !! t) as [x|] eqn:Ht; try done; destruct x; try done.
  - destruct (l_rd _ _ plain_laws _ Hg) as [(E & H1 & H2)|[E H1]]; simpl in E; rewrite E in Ha; injection Ha as <-;
      unfold wakes_ok; simpl; counted Ht; lia.
  - destruct (l_tryrd _ _ plain_laws _ Hg) as [(E & H1 & H2)|[E H1]]; simpl in E; rewrite E in Ha; injection Ha as <-;
      unfold wakes_ok; simpl; counted Ht; lia.
  - destruct (l_wr _ _ plain_laws _ Hg) as [(E & H1)|[E H1]]; simpl in E; rewrite E in Ha; injection Ha as <-;
      unfold wakes_ok; simpl; counted Ht; pose proof (count_nonneg is_writer (y_thr y)); lia.
  - destruct (l_trywr _ _ plain_laws _ Hg) as [(E & H1)|[E H1]]; simpl in E; rewrite E in Ha; injection Ha as <-;
      unfold wakes_ok; simpl; counted Ht; lia.
  - apply (unlock_wakes y t w); [done|]. simpl. by rewrite Ht.
  - apply (unlock_wakes y t w); [done|]. simpl. by rewrite Ht.
  - destruct (l_rdresume _ _ plain_laws _ Hg) as [(E & H1 & H2)|[E H1]]; simpl in E; rewrite E in Ha; injection Ha as <-;
      unfold wakes_ok; simpl in *; counted Ht; lia.
  - destruct (l_wrresume _ _ plain_laws _ Hg) as [(E & H1)|[E H1]]; simpl in E; rewrite E in Ha; injection Ha as <-;
      unfold wakes_ok; simpl in *; counted Ht; lia.
  - injection Ha as <-. unfold wakes_ok. simpl. counted Ht. pose proof (count_pos is_rwait _ _ _ Ht eq_refl). lia.
  - injection Ha as <-. unfold wakes_ok. simpl. counted Ht. lia.
Qed.
