(* ===== verification/RwProps.v ===== *)
(** * The properties of the read-write locks

    Threads on either version of the lock; in the version with cancellation
    handlers a waiting thread can also be cancelled. *)
From S2P Require Import Prelude Posix Threads Rwlock RwSys.

Open Scope prog_scope.

(** ** Both versions *)
Inductive version := Plain | Cancel.

Definition vops (v : version) : rwops := match v with Plain => plain_ops | Cancel => cancel_ops end.
Definition vwakes (v : version) := match v with Plain => plain_wakes | Cancel => cancel_wakes end.

Lemma vlaws v : rw_laws (vops v) (vwakes v).
Proof. destruct v; [apply plain_laws|apply cancel_laws]. Qed.

(** A thread is cancelled while it waits, or when it has been woken up and
    has not run yet: its handler runs, and it is gone (its number can be that
    of a new thread). *)
Definition rw_cancel (t : nat) (y : rwsys) : option rwsys :=
  let leave (h : Prog pthread_rwlock_t unit) :=
    match h (y_rw y) with Ok _ rw => Some (mkRwsys rw (<[t := Out]> (y_thr y))) | Abort _ _ => None end in
  match y_thr y !! t with
  | Some RWait | Some RReady => leave rwlock_cancelrdwait
  | Some WWait | Some WReady => leave rwlock_cancelwrwait
  | _ => None
  end.

Definition vstep (v : version) (y y' : rwsys) : Prop :=
  rw_step (vops v) y y' \/ (v = Cancel /\ exists t, rw_cancel t y = Some y').

(** Threads that have not called the lock yet, on a lock that
    [PTHREAD_RWLOCK_INITIALIZER] made. *)
Definition rw_start (n : nat) : rwsys :=
  mkRwsys PTHREAD_RWLOCK_INITIALIZER (list_to_map ((fun t => (t, Out)) <$> seq 0 n)).

Lemma start_out n t x : y_thr (rw_start n) !! t = Some x -> x = Out.
Proof. intros H%elem_of_list_to_map_2. apply list_elem_of_fmap in H as (? & [= _ ->] & _). done. Qed.

Lemma start_count n f : f Out = false -> count_if f (y_thr (rw_start n)) = 0.
Proof.
  intros Hf. pose proof (count_nonneg f (y_thr (rw_start n))).
  destruct (Z.eq_dec (count_if f (y_thr (rw_start n))) 0) as [|Hn]; [done|].
  destruct (count_exists f (y_thr (rw_start n))) as (t & x & Ht%start_out & Hx); [lia|]. by subst x; rewrite Hf in Hx.
Qed.

Lemma start_counts n : counts_ok (y_rw (rw_start n)) (y_thr (rw_start n)).
Proof. unfold counts_ok. rewrite !start_count by done. simpl. lia. Qed.

Lemma start_wakes n : wakes_ok (y_rw (rw_start n)) (y_thr (rw_start n)).
Proof. unfold wakes_ok. rewrite !start_count by done. simpl. lia. Qed.

(** The handlers keep the counters right. *)
Lemma cancel_counts t y y' :
  counts_ok (y_rw y) (y_thr y) -> rw_cancel t y = Some y' -> counts_ok (y_rw y') (y_thr y').
Proof.
  intros (Hm & Hnr & Hnw & Hrc) Ha. unfold rw_cancel, rwlock_cancelrdwait, rwlock_cancelwrwait in Ha.
  destruct (y_thr y !! t) as [[]|] eqn:Ht; try done; injection Ha as <-; unfold counts_ok; simpl; counted Ht; lia.
Qed.

Lemma reachable_counts v n y : rtc (vstep v) (rw_start n) y -> counts_ok (y_rw y) (y_thr y).
Proof.
  intros H. eapply (rtc_ind_r (fun y => counts_ok (y_rw y) (y_thr y))); [apply start_counts| |exact H].
  intros y1 y2 _ [Hs|[_ [t Hs]]] Hc; [|by eapply cancel_counts]. eapply counts_step; [apply (vlaws v)|done..].
Qed.

Lemma reachable_wakes n y : rtc (vstep Plain) (rw_start n) y -> wakes_ok (y_rw y) (y_thr y).
Proof.
  intros H. eapply (rtc_ind_r (fun y => wakes_ok (y_rw y) (y_thr y))); [apply start_wakes| |exact H].
  intros y1 y2 H1 [Hs|[? _]] Hw; [|done]. eapply wakes_step; [by eapply reachable_counts|done..].
Qed.

(** A writer is alone. *)
Lemma writer_alone rw thr t t' x' :
  counts_ok rw thr -> thr !! t = Some HoldW -> thr !! t' = Some x' -> t' <> t -> x' <> HoldR /\ x' <> HoldW.
Proof.
  intros (_ & _ & _ & Hh) Ht Ht' Hne. pose proof (count_pos is_holdw _ _ _ Ht eq_refl).
  assert (<[t := Out]> thr !! t' = Some x') as Hi by (by rewrite lookup_insert_ne).
  pose proof (count_insert is_holdw _ _ _ Out Ht) as Hc. simpl in Hc. split; intros ->.
  - pose proof (count_pos is_holdr _ _ _ Ht' eq_refl). lia.
  - pose proof (count_pos is_holdw _ _ _ Hi eq_refl). lia.
Qed.

(** C11: however any number of threads lock, try, wait, wake up (also
    spuriously), unlock and, in my_rwlock_cancel, are cancelled while they
    wait, a thread that holds the lock for writing holds it alone, and a
    thread that holds the lock unlocks it with the result 0: the err_dump
    of [pthread_rwlock_unlock] is not reached. *)
Theorem rw_exclusion v n y t x :
  rtc (vstep v) (rw_start n) y -> y_thr y !! t = Some x -> x = HoldR \/ x = HoldW ->
  (x = HoldW -> forall t' x', y_thr y !! t' = Some x' -> t' <> t -> x' <> HoldR /\ x' <> HoldW) /\
  exists rw', op_unlock (vops v) (y_rw y) = Ok (Done 0) rw'.
Proof.
  intros Hr Ht Hx. pose proof (reachable_counts v n y Hr) as Hc. pose proof Hc as (_ & _ & _ & Hh). split.
  - intros -> t' x' Ht' Hne. by eapply writer_alone.
  - destruct (unlock_run _ _ (vlaws v) (y_rw y)) as (rw' & E & _); [by eapply counts_good| |by eexists].
    destruct Hx as [-> | ->];
      [pose proof (count_pos is_holdr _ _ _ Ht eq_refl)|pose proof (count_pos is_holdw _ _ _ Ht eq_refl)]; lia.
Qed.

(** Runs, as lists of what the threads do. *)
Inductive vact := Act (a : rwact) | Kill (t : nat).

Definition do_vact (v : version) (a : vact) (y : rwsys) : option rwsys :=
  match a, v with
  | Act a, _ => rw_act (vops v) a y
  | Kill t, Cancel => rw_cancel t y
  | Kill _, Plain => None
  end.

Fixpoint vrun (v : version) (l : list vact) (y : rwsys) : option rwsys :=
  match l with [] => Some y | a :: l => do_vact v a y ≫= vrun v l end.

Lemma vrun_rtc v l y y' : vrun v l y = Some y' -> rtc (vstep v) y y'.
Proof.
  revert y. induction l as [|a l IH]; simpl; intros y H; [by injection H as ->|].
  apply bind_Some in H as (y1 & H1 & H2). eapply rtc_l; [|by apply IH].
  destruct a, v; simpl in H1; try done; [left; by eexists..|right; eauto].
Qed.

(** A writer holds the lock; a reader and a writer wait. *)
Definition three : list vact := [Act (AWr 0); Act (ARd 1); Act (AWr 2)].
Definition after (v : version) (l : list vact) : rwsys := default (rw_start 3) (vrun v l (rw_start 3)).

Lemma rw_exclusion_witness :
  let y := after Cancel (three ++ [Kill 1%nat]) in
  (HoldW = HoldW -> forall t' x', y_thr y !! t' = Some x' -> t' <> 0%nat -> x' <> HoldR /\ x' <> HoldW) /\
  exists rw', op_unlock (vops Cancel) (y_rw y) = Ok (Done 0) rw'.
Proof.
  intros y. apply (rw_exclusion Cancel 3 y 0 HoldW).
  - apply (vrun_rtc Cancel (three ++ [Kill 1%nat])). vm_compute. reflexivity.
  - vm_compute. reflexivity.
  - right. reflexivity.
Defined.

(** C12: in my_rwlock no wakeup is lost.  When nobody holds the lock and a
    thread is blocked, a writer has been woken up that takes the lock when
    it runs; and while no writer waits and none holds the lock, no reader is
    blocked. *)
Theorem rw_no_lost_wakeup n y t x :
  rtc (vstep Plain) (rw_start n) y -> y_thr y !! t = Some x -> x = RWait \/ x = WWait ->
  (rw_refcount (y_rw y) = 0 ->
   exists t' y', y_thr y !! t' = Some WReady /\ rw_act plain_ops (AResume t') y = Some y' /\
     y_thr y' !! t' = Some HoldW) /\
  (x = RWait -> (exists t', y_thr y !! t' = Some HoldW) \/
     exists t' x', y_thr y !! t' = Some x' /\ (x' = WWait \/ x' = WReady)).
Proof.
  intros Hr Ht Hx. pose proof (reachable_counts Plain n y Hr) as Hc. pose proof (reachable_wakes n y Hr) as [HA HB].
  pose proof (counts_good _ _ Hc) as Hg. destruct Hc as (Hm & Hnr & Hnw & Hh).
  assert (x = RWait -> rw_refcount (y_rw y) = -1 \/ 0 < rw_nwaitwriters (y_rw y)) as HR.
  { intros ->. pose proof (count_pos is_rwait _ _ _ Ht eq_refl). pose proof (count_nonneg is_writer (y_thr y)). lia. }
  split.
  - intros H0. assert (0 < rw_nwaitwriters (y_rw y)) as Hp.
    { destruct Hx as [-> | ->]; [specialize (HR eq_refl); lia|]. pose proof (count_pos is_writer _ _ _ Ht eq_refl). lia. }
    destruct (count_exists is_wready (y_thr y)) as (t' & z & Ht' & Hz); [by apply HB|]. destruct z; try done.
    destruct (l_wrresume _ _ plain_laws _ Hg) as [[E _]|[_ ?]]; [|done].
    exists t', (mkRwsys (set_refcount (-1) (set_nwaitwriters (rw_nwaitwriters (y_rw y) - 1) (y_rw y))) (<[t' := HoldW]> (y_thr y))).
    split; [done|]. unfold rw_act. rewrite Ht'. rewrite E. split; [done|]. simpl. by rewrite lookup_insert_eq.
  - intros [H|H]%HR.
    + left. destruct (count_exists is_holdw (y_thr y)) as (t' & z & Ht' & Hz); [lia|]. destruct z; try done. eauto.
    + right. destruct (count_exists is_writer (y_thr y)) as (t' & z & Ht' & Hz); [lia|]. destruct z; try done; eauto 6.
Qed.

Lemma rw_no_lost_wakeup_witness :
  let y := after Plain (three ++ [Act (AUnlock 0 (Some 2%nat))]) in
  (rw_refcount (y_rw y) = 0 ->
   exists t' y', y_thr y !! t' = Some WReady /\ rw_act plain_ops (AResume t') y = Some y' /\
     y_thr y' !! t' = Some HoldW) /\
  (RWait = RWait -> (exists t', y_thr y !! t' = Some HoldW) \/
     exists t' x', y_thr y !! t' = Some x' /\ (x' = WWait \/ x' = WReady)).
Proof.
  intros y. apply (rw_no_lost_wakeup 3 y 1 RWait).
  - apply (vrun_rtc Plain (three ++ [Act (AUnlock 0 (Some 2%nat))])). vm_compute. reflexivity.
  - vm_compute. reflexivity.
  - left. reflexivity.
Defined.

Lemma no_writers rw thr t x :
  counts_ok rw thr -> 0 <= rw_refcount rw -> rw_nwaitwriters rw <= 0 -> thr !! t = Some x ->
  x <> HoldW /\ x <> WWait /\ x <> WReady.
Proof.
  intros (_ & _ & Hnw & Hh) H0 Hw Ht. split_and!; intros ->;
    [pose proof (count_pos is_holdw _ _ _ Ht eq_refl)|pose proof (count_pos is_writer _ _ _ Ht eq_refl)|pose proof (count_pos is_writer _ _ _ Ht eq_refl)]; lia.
Qed.

(** A wakeup gives nobody the lock. *)
Lemma wake_holdr l w thr thr' t :
  wake_threads l w thr = Some thr' -> thr' !! t = Some HoldR -> thr !! t = Some HoldR.
Proof.
  intros H Ht. destruct l as [|[] [|]], w as [k|]; simplify_eq/=; try done.
  - destruct (thr !! k) as [[]|] eqn:Hk; simplify_eq. by apply lookup_insert_Some in Ht as [[_ ?]|[_ ?]].
  - case_bool_decide; by simplify_eq.
  - rewrite lookup_fmap in Ht. apply fmap_Some in Ht as (z & -> & Hz). by destruct z.
Qed.

(** A thread gets the lock for reading only when no writer has it or wants
    it. *)
Lemma step_holdr v y y' t :
  counts_ok (y_rw y) (y_thr y) -> rw_step (vops v) y y' ->
  y_thr y !! t <> Some HoldR -> y_thr y' !! t = Some HoldR ->
  0 <= rw_refcount (y_rw y) /\ rw_nwaitwriters (y_rw y) <= 0.
Proof.
  intros Hc [a Ha] Hn Hy. pose proof (counts_good _ _ Hc) as Hg.
  assert (forall k z, z <> HoldR -> <[k := z]> (y_thr y) !! t <> Some HoldR) as Hi.
  { intros k z Hz [[_ ?]|[_ ?]]%lookup_insert_Some; congruence. }
  destruct a as [k|k|k|k|k w|k|k]; simpl in Ha; destruct (y_thr y !! k) as [x|] eqn:Hk; try done; destruct x; try done.
  - destruct (l_rd _ _ (vlaws v) _ Hg) as [(E & H1 & H2)|[E _]]; rewrite E in Ha; injection Ha as <-; [done|]. by eapply Hi in Hy.
  - destruct (l_tryrd _ _ (vlaws v) _ Hg) as [(E & H1 & H2)|[E _]]; rewrite E in Ha; injection Ha as <-; [done|]. by eapply Hi in Hy.
  - destruct (l_wr _ _ (vlaws v) _ Hg) as [(E & H1)|[E _]]; rewrite E in Ha; injection Ha as <-; by eapply Hi in Hy.
  - destruct (l_trywr _ _ (vlaws v) _ Hg) as [(E & H1)|[E _]]; rewrite E in Ha; injection Ha as <-; by eapply Hi in Hy.
  - destruct (op_unlock _ _) as [[[]| |] rw'|]; try done. apply fmap_Some in Ha as (thr' & Hw & ->).
    apply (wake_holdr _ _ _ _ _ Hw) in Hy. by eapply Hi in Hy.
  - destruct (op_unlock _ _) as [[[]| |] rw'|]; try done. apply fmap_Some in Ha as (thr' & Hw & ->).
    apply (wake_holdr _ _ _ _ _ Hw) in Hy. by eapply Hi in Hy.
  - destruct (l_rdresume _ _ (vlaws v) _ Hg) as [(E & H1 & H2)|[E _]]; rewrite E in Ha; injection Ha as <-; [done|]. by eapply Hi in Hy.
  - destruct (l_wrresume _ _ (vlaws v) _ Hg) as [(E & H1)|[E _]]; rewrite E in Ha; injection Ha as <-; by eapply Hi in Hy.
  - injection Ha as <-. by eapply Hi in Hy.
  - injection Ha as <-. by eapply Hi in Hy.
Qed.

(** Writers have preference in both versions.  A step that gives a
    thread the lock for reading is only taken when no writer holds the lock
    and no writer waits for it. *)
Theorem rw_writer_preference v n y y' t :
  rtc (vstep v) (rw_start n) y -> vstep v y y' ->
  (y_thr y !! t = Some HoldR -> False) -> y_thr y' !! t = Some HoldR ->
  forall t' x, y_thr y !! t' = Some x -> x <> HoldW /\ x <> WWait /\ x <> WReady.
Proof.
  intros Hr Hs Hn Hy t' x Ht'. pose proof (reachable_counts v n y Hr) as Hc. destruct Hs as [Hs|[-> [k Hs]]].
  - destruct (step_holdr v y y' t Hc Hs Hn Hy). by eapply no_writers.
  - destruct Hn. unfold rw_cancel in Hs. destruct (y_thr y !! k) as [[]|]; try done; injection Hs as <-; simpl in Hy;
      by apply lookup_insert_Some in Hy as [[_ ?]|[_ ?]].
Qed.

Lemma rw_writer_preference_witness :
  y_thr (after Plain [Act (ARd 0)]) !! 0%nat = Some HoldR /\
  map_Forall (fun _ x => x <> HoldW /\ x <> WWait /\ x <> WReady) (y_thr (after Plain [Act (ARd 0)])).
Proof.
  split; [vm_compute; reflexivity|]. intros t' x.
  apply (rw_writer_preference Plain 3 (after Plain [Act (ARd 0)]) (after Plain [Act (ARd 0); Act (ATryRd 1)]) 1).
  - apply (vrun_rtc Plain [Act (ARd 0)]). vm_compute. reflexivity.
  - left. exists (ATryRd 1). vm_compute. reflexivity.
  - vm_compute. discriminate.
  - vm_compute. reflexivity.
Defined.

(** In my_rwlock_cancel a wakeup can be lost.  The last waiting writer
    is signalled and then cancelled before it runs; the handler wakes up
    nobody, and a reader stays blocked on a lock that nobody holds, waits
    for or has been woken up for. *)
Theorem rwc_lost_wakeup :
  exists y, rtc (vstep Cancel) (rw_start 3) y /\ rw_refcount (y_rw y) = 0 /\ rw_nwaitwriters (y_rw y) = 0 /\
    y_thr y = {[0%nat := Out; 1%nat := RWait; 2%nat := Out]}.
Proof.
  exists (after Cancel (three ++ [Act (AUnlock 0 (Some 2%nat)); Kill 2%nat])). split_and!.
  - apply (vrun_rtc Cancel (three ++ [Act (AUnlock 0 (Some 2%nat)); Kill 2%nat])). vm_compute. reflexivity.
  - vm_compute. reflexivity.
  - vm_compute. reflexivity.
  - vm_compute. reflexivity.
Qed.

(** After a failed [pthread_cond_wait], [pthread_rwlock_rdlock] and
    [pthread_rwlock_wrlock] of my_rwlock_cancel return 0 without the lock,
    where those of my_rwlock return the error. *)
Lemma rwc_failed_wait rw err :
  err <> 0 ->
  rdlock_resume err rw = Ok (Done err) (set_nwaitreaders (rw_nwaitreaders rw - 1) rw) /\
  cancel_rdlock_resume err rw = Ok (Done 0) (set_nwaitreaders (rw_nwaitreaders rw - 1) rw) /\
  wrlock_resume err rw = Ok (Done err) (set_nwaitwriters (rw_nwaitwriters rw - 1) rw) /\
  cancel_wrlock_resume err rw = Ok (Done 0) (set_nwaitwriters (rw_nwaitwriters rw - 1) rw).
Proof.
  intros H%Z.eqb_neq. unfold rdlock_resume, cancel_rdlock_resume, wrlock_resume, cancel_wrlock_resume, pbind, get, put.
  by rewrite H.
Qed.
