(* ===== verification/IoFd.v ===== *)
(** * Descriptors that read and write in pieces

    [read] and [write] on pipes, sockets and terminals: a read returns what
    has arrived, at most what was asked for; both can be interrupted by a
    signal or fail.  What a descriptor will do is its script.  The states
    also hold [errno], which only a failing call changes. *)
From S2P Require Import Prelude Posix.

Open Scope prog_scope.

(** ** Scripts *)

(** [Data c bs]: the bytes [c :: bs] have arrived; [Eof]: one end of file
    (from a terminal, more can follow).  After its script a descriptor is at
    end of file. *)
Inductive revent := Data (c : Z) (bs : bytes) | Intr | Fail (e : Z) | Eof.

(** [Room k]: there is room for [k + 1] bytes; [Zero]: a write returns 0.
    After its script a descriptor takes everything. *)
Inductive wevent := Room (k : nat) | WIntr | WFail (e : Z) | Zero.

Record world := mkWorld {
  w_in : gmap Z (list revent);
  w_to : gmap Z (list wevent * bytes);
  w_errno : Z
}.

Definition set_in (fd : Z) (s : list revent) (w : world) : world :=
  mkWorld (<[fd := s]> (w_in w)) (w_to w) (w_errno w).
Definition set_to (fd : Z) (o : list wevent * bytes) (w : world) : world :=
  mkWorld (w_in w) (<[fd := o]> (w_to w)) (w_errno w).
Definition set_errno (e : Z) (w : world) : world := mkWorld (w_in w) (w_to w) e.

Abbreviation io := (Prog world).

(** ** The system calls *)

(** What [read] returns: -1 ([None]) or the bytes it stored. *)
Definition sys_read (fd n : Z) : io (option bytes) :=
  do f <- get (fun w => w_in w !! fd);
  match f with
  | None => run put (set_errno EBADF); pret None
  | Some [] => pret (Some [])
  | Some (Eof :: s) => run put (set_in fd s); pret (Some [])
  | Some (Intr :: s) => run put (set_in fd s); run put (set_errno EINTR); pret None
  | Some (Fail e :: s) => run put (set_in fd s); run put (set_errno e); pret None
  | Some (Data c bs :: s) =>
      let got := take (Z.to_nat n) (c :: bs) in
      run put (set_in fd (match drop (Z.to_nat n) (c :: bs) with [] => s | c' :: bs' => Data c' bs' :: s end));
      pret (Some got)
  end.

(** What [write] returns. *)
Definition sys_write (fd : Z) (buf : bytes) : io Z :=
  do f <- get (fun w => w_to w !! fd);
  match f with
  | None => run put (set_errno EBADF); pret (-1)
  | Some ([], out) => run put (set_to fd ([], out ++ buf)); pret (zlen buf)
  | Some (Room k :: s, out) =>
      run put (set_to fd (s, out ++ take (S k) buf)); pret (zlen (take (S k) buf))
  | Some (Zero :: s, out) => run put (set_to fd (s, out)); pret 0
  | Some (WIntr :: s, out) => run put (set_to fd (s, out)); run put (set_errno EINTR); pret (-1)
  | Some (WFail e :: s, out) => run put (set_to fd (s, out)); run put (set_errno e); pret (-1)
  end.

(** Every call on a script that has not ended uses up some of its weight. *)
Fixpoint rweight (s : list revent) : nat :=
  match s with
  | [] => 0
  | Data _ bs :: s => S (S (length bs) + rweight s)
  | _ :: s => S (rweight s)
  end.

Definition rfuel (fd : Z) (w : world) : nat := S (S (rweight (default [] (w_in w !! fd)))).
Definition wfuel (fd : Z) (w : world) : nat := S (S (length (default ([], []) (w_to w !! fd)).1)).

(** ** The stream behind a script

    What there is to read, byte by byte, without the borders of the pieces.
    With [restart] interruptions do not show; without, they are errors. *)
Inductive item := Byte (c : Z) | Err (e : Z) | End.

Definition event_items (restart : bool) (v : revent) : list item :=
  match v with
  | Data c bs => Byte <$> (c :: bs)
  | Intr => if restart then [] else [Err EINTR]
  | Fail e => if restart && (e =? EINTR) then [] else [Err e]
  | Eof => [End]
  end.

Definition items (restart : bool) (s : list revent) : list item := s ≫= event_items restart.

(** How reading some bytes ends. *)
Inductive ending := Full | AtEnd | AtErr (e : Z).

(** Reading [n] bytes of a stream. *)
Fixpoint ref_read (n : nat) (l : list item) : bytes * ending * list item :=
  match n, l with
  | O, _ => ([], Full, l)
  | S n, [] => ([], AtEnd, [])
  | S n, End :: l => ([], AtEnd, l)
  | S n, Err e :: l => ([], AtErr e, l)
  | S n, Byte c :: l => let '(bs, x, l') := ref_read n l in (c :: bs, x, l')
  end.

(** ** Reading in pieces *)

(** What one [read] does to the stream. *)
Inductive read_does (restart : bool) (n : nat) (l : list item) : option bytes -> Z -> list item -> Prop :=
| RdIntr : restart = true -> read_does restart n l None EINTR l
| RdErr e l' : l = Err e :: l' -> (restart = true -> e <> EINTR) -> read_does restart n l None e l'
| RdEnd l' : (l = [] /\ l' = [] \/ l = End :: l') -> forall e, read_does restart n l (Some []) e l'
| RdBytes bs l' e : bs <> [] -> (length bs <= n)%nat -> l = (Byte <$> bs) ++ l' -> read_does restart n l (Some bs) e l'.

Lemma items_cons restart v s : items restart (v :: s) = event_items restart v ++ items restart s.
Proof. done. Qed.

Lemma sys_read_does restart fd n w s :
  w_in w !! fd = Some s -> 0 < n ->
  exists r w' s', sys_read fd n w = Ok r w' /\ w_in w' = <[fd := s']> (w_in w) /\ w_to w' = w_to w /\
    (r <> None -> w_errno w' = w_errno w) /\
    read_does restart (Z.to_nat n) (items restart s) r (w_errno w') (items restart s') /\
    (r = Some [] \/ (rweight s' < rweight s)%nat).
Proof.
  intros Hs Hn. unfold sys_read. pstep. rewrite Hs.
  destruct s as [|[c bs| |e|] s]; rewrite ?items_cons; pstep.
  - exists (Some []), w, []. split_and!; simpl; auto; [by rewrite insert_id|]. apply RdEnd. by left.
  - set (got := take _ _). set (s' := match drop _ _ with [] => s | c' :: bs' => Data c' bs' :: s end).
    assert (length got <= Z.to_nat n)%nat as Hl by (unfold got; rewrite length_take; lia).
    assert (items restart s' = (Byte <$> drop (Z.to_nat n) (c :: bs)) ++ items restart s) as Hi.
    { unfold s'. by destruct (drop _ _). }
    assert (Byte <$> (c :: bs) = (Byte <$> got) ++ (Byte <$> drop (Z.to_nat n) (c :: bs))) as Hb.
    { unfold got. by rewrite <- fmap_app, take_drop. }
    exists (Some got), (set_in fd s' w), s'. split_and!; try done.
    + apply RdBytes; [|done|].
      * unfold got. destruct (Z.to_nat n) eqn:E; [lia|done].
      * unfold event_items. rewrite Hb, Hi, app_assoc. done.
    + right. unfold s'. pose proof (length_drop (c :: bs) (Z.to_nat n)) as Hd. simpl length in Hd.
      destruct (drop _ _) as [|c' bs']; simpl in *; lia.
  - eexists None, _, s. split_and!; [reflexivity|done..| |simpl; auto with lia]. simpl.
    destruct restart; simpl; [by apply RdIntr|]. by apply RdErr.
  - eexists None, _, s. split_and!; [reflexivity|done..| |simpl; auto with lia]. simpl.
    destruct restart; simpl; [|by apply RdErr]. destruct (Z.eqb_spec e EINTR) as [->|]; simpl; [by apply RdIntr|by apply RdErr].
  - eexists (Some []), _, s. split_and!; [reflexivity|done..| |by left]. simpl. apply RdEnd. by right.
Qed.

(** The bytes that were read weigh what is gone from the script. *)
Lemma sys_read_weight fd n w s bs w' s' :
  w_in w !! fd = Some s -> sys_read fd n w = Ok (Some bs) w' -> w_in w' !! fd = Some s' ->
  (length bs + rweight s' <= rweight s)%nat.
Proof.
  intros Hs E Hs'. unfold sys_read, pbind, get, put, pret in E. rewrite Hs in E.
  destruct s as [|[c b| |e|] s]; try done; injection E as <- <-; simpl in Hs'; rewrite ?lookup_insert_eq in Hs'; simplify_eq.
  - simpl. lia.
  - pose proof (length_drop (c :: b) (Z.to_nat n)) as Hd. pose proof (length_take (c :: b) (Z.to_nat n)) as Ht.
    cbn [length] in *. rewrite Ht. destruct (drop _ _); simpl in *; lia.
  - simpl. lia.
Qed.
