(* ===== verification/IoReadn.v ===== *)
(** * Reading and writing a given number of bytes

    The [readn] and [writen] functions of apue.3e/lib, of unpv13e/lib (and
    unpv22e/lib, with the same text but for one test) and of
    tlpi-dist/sockets, and [r_read], [r_write] and [readblock] of
    UNIX_Systems_Programming.  A reading function returns its result and
    the bytes it has stored into the caller's buffer. *)
From S2P Require Import Prelude Posix IoFd.

Open Scope prog_scope.

(** ** apue.3e/lib *)
Module Apue.

Fixpoint readn_loop (fuel : nat) (fd n nleft : Z) (ptr : bytes) : io (Z * bytes) :=
  match fuel with
  | O => die "fuel"
  | S fuel =>
      if 0 <? nleft then
        do r <- sys_read fd nleft;
        match r with
        | None => if nleft =? n then pret (-1, ptr) else pret (n - nleft, ptr)
        | Some [] => pret (n - nleft, ptr)
        | Some bs => readn_loop fuel fd n (nleft - zlen bs) (ptr ++ bs)
        end
      else pret (n - nleft, ptr)
  end.

Definition readn (fd n : Z) : io (Z * bytes) :=
  do fuel <- get (rfuel fd);
  readn_loop fuel fd n n [].

Fixpoint writen_loop (fuel : nat) (fd : Z) (n nleft : Z) (ptr : bytes) : io Z :=
  match fuel with
  | O => die "fuel"
  | S fuel =>
      if 0 <? nleft then
        do nwritten <- sys_write fd ptr;
        if nwritten <? 0 then (if nleft =? n then pret (-1) else pret (n - nleft))
        else if nwritten =? 0 then pret (n - nleft)
        else writen_loop fuel fd n (nleft - nwritten) (drop (Z.to_nat nwritten) ptr)
      else pret (n - nleft)
  end.

Definition writen (fd : Z) (ptr : bytes) : io Z :=
  do fuel <- get (wfuel fd);
  writen_loop fuel fd (zlen ptr) (zlen ptr) ptr.

End Apue.

(** ** unpv13e/lib *)
Module Unp.

Fixpoint readn_loop (fuel : nat) (fd n nleft : Z) (ptr : bytes) : io (Z * bytes) :=
  match fuel with
  | O => die "fuel"
  | S fuel =>
      if 0 <? nleft then
        do r <- sys_read fd nleft;
        match r with
        | None =>
            do errno <- get w_errno;
            if errno =? EINTR then readn_loop fuel fd n nleft ptr else pret (-1, ptr)
        | Some [] => pret (n - nleft, ptr)
        | Some bs => readn_loop fuel fd n (nleft - zlen bs) (ptr ++ bs)
        end
      else pret (n - nleft, ptr)
  end.

Definition readn (fd n : Z) : io (Z * bytes) :=
  do fuel <- get (rfuel fd);
  readn_loop fuel fd n n [].

Definition Readn (fd nbytes : Z) : io (Z * bytes) :=
  do r <- readn fd nbytes;
  run guard_die (r.1 <? 0) "readn error";
  pret r.

Fixpoint writen_loop (fuel : nat) (fd n nleft : Z) (ptr : bytes) : io Z :=
  match fuel with
  | O => die "fuel"
  | S fuel =>
      if 0 <? nleft then
        do nwritten <- sys_write fd ptr;
        if nwritten <=? 0 then
          do errno <- get w_errno;
          if (nwritten <? 0) && (errno =? EINTR) then writen_loop fuel fd n nleft ptr
          else pret (-1)
        else writen_loop fuel fd n (nleft - nwritten) (drop (Z.to_nat nwritten) ptr)
      else pret n
  end.

Definition writen (fd : Z) (ptr : bytes) : io Z :=
  do fuel <- get (wfuel fd);
  writen_loop fuel fd (zlen ptr) (zlen ptr) ptr.

Definition Writen (fd : Z) (ptr : bytes) : io unit :=
  do n <- writen fd ptr;
  guard_die (negb (n =? zlen ptr)) "writen error".

End Unp.

(** ** unpv22e/lib: [writen] tests [errno] also after a write of 0 bytes *)
Module Unp22.

Fixpoint writen_loop (fuel : nat) (fd n nleft : Z) (ptr : bytes) : io Z :=
  match fuel with
  | O => die "fuel"
  | S fuel =>
      if 0 <? nleft then
        do nwritten <- sys_write fd ptr;
        if nwritten <=? 0 then
          do errno <- get w_errno;
          if errno =? EINTR then writen_loop fuel fd n nleft ptr
          else pret (-1)
        else writen_loop fuel fd n (nleft - nwritten) (drop (Z.to_nat nwritten) ptr)
      else pret n
  end.

Definition writen (fd : Z) (ptr : bytes) : io Z :=
  do fuel <- get (wfuel fd);
  writen_loop fuel fd (zlen ptr) (zlen ptr) ptr.

End Unp22.

(** ** tlpi-dist/sockets *)
Module Tlpi.

Fixpoint readn_loop (fuel : nat) (fd n totRead : Z) (buf : bytes) : io (Z * bytes) :=
  match fuel with
  | O => die "fuel"
  | S fuel =>
      if totRead <? n then
        do numRead <- sys_read fd (n - totRead);
        match numRead with
        | Some [] => pret (totRead, buf)
        | None =>
            do errno <- get w_errno;
            if errno =? EINTR then readn_loop fuel fd n totRead buf else pret (-1, buf)
        | Some bs => readn_loop fuel fd n (totRead + zlen bs) (buf ++ bs)
        end
      else pret (totRead, buf)
  end.

Definition readn (fd n : Z) : io (Z * bytes) :=
  do fuel <- get (rfuel fd);
  readn_loop fuel fd n 0 [].

Fixpoint writen_loop (fuel : nat) (fd n totWritten : Z) (buf : bytes) : io Z :=
  match fuel with
  | O => die "fuel"
  | S fuel =>
      if totWritten <? n then
        do numWritten <- sys_write fd buf;
        if numWritten <=? 0 then
          do errno <- get w_errno;
          if (numWritten =? -1) && (errno =? EINTR) then writen_loop fuel fd n totWritten buf
          else pret (-1)
        else writen_loop fuel fd n (totWritten + numWritten) (drop (Z.to_nat numWritten) buf)
      else pret totWritten
  end.

Definition writen (fd : Z) (buf : bytes) : io Z :=
  do fuel <- get (wfuel fd);
  writen_loop fuel fd (zlen buf) 0 buf.

End Tlpi.

(** ** UNIX_Systems_Programming, restart.c *)
Module Usp.

Definition BLKSIZE : Z := 4096.

Fixpoint r_read_loop (fuel : nat) (fd size : Z) : io (option bytes) :=
  match fuel with
  | O => die "fuel"
  | S fuel =>
      do retval <- sys_read fd size;
      do errno <- get w_errno;
      match retval with
      | None => if errno =? EINTR then r_read_loop fuel fd size else pret None
      | Some bs => pret (Some bs)
      end
  end.

Definition r_read (fd size : Z) : io (option bytes) :=
  do fuel <- get (rfuel fd);
  r_read_loop fuel fd size.

Fixpoint r_write_loop (fuel : nat) (fd bytestowrite totalbytes : Z) (bufp : bytes) : io Z :=
  match fuel with
  | O => die "fuel"
  | S fuel =>
      if 0 <? bytestowrite then
        do byteswritten <- sys_write fd bufp;
        do errno <- get w_errno;
        if (byteswritten =? -1) && negb (errno =? EINTR) then pret (-1)
        else
          let byteswritten := if byteswritten =? -1 then 0 else byteswritten in
          r_write_loop fuel fd (bytestowrite - byteswritten) (totalbytes + byteswritten)
            (drop (Z.to_nat byteswritten) bufp)
      else pret totalbytes
  end.

Definition r_write (fd : Z) (buf : bytes) : io Z :=
  do fuel <- get (wfuel fd);
  r_write_loop fuel fd (zlen buf) 0 buf.

Fixpoint readblock_loop (fuel : nat) (fd bytestoread totalbytes : Z) (bufp : bytes) : io (Z * bytes) :=
  match fuel with
  | O => die "fuel"
  | S fuel =>
      if 0 <? bytestoread then
        do bytesread <- sys_read fd bytestoread;
        do errno <- get w_errno;
        match bytesread with
        | Some [] =>
            if totalbytes =? 0 then pret (0, bufp)
            else run put (set_errno EINVAL); pret (-1, bufp)
        | None =>
            if negb (errno =? EINTR) then pret (-1, bufp)
            else readblock_loop fuel fd bytestoread totalbytes bufp
        | Some bs => readblock_loop fuel fd (bytestoread - zlen bs) (totalbytes + zlen bs) (bufp ++ bs)
        end
      else pret (totalbytes, bufp)
  end.

Definition readblock (fd size : Z) : io (Z * bytes) :=
  do fuel <- get (rfuel fd);
  readblock_loop fuel fd size 0 [].

(** The block that was read goes into the caller's [buf], whose first
    [size] bytes are written. *)
Definition readwriteblock (fromfd tofd size : Z) : io Z :=
  do ' (bytesread, buf) <- readblock fromfd size;
  if negb (bytesread =? size) then pret bytesread
  else r_write tofd buf.

Definition readwrite (fromfd tofd : Z) : io Z :=
  do r <- r_read fromfd BLKSIZE;
  match r with
  | None => pret (-1)
  | Some [] => pret 0
  | Some buf =>
      do n <- r_write tofd buf;
      if n <? 0 then pret (-1) else pret (zlen buf)
  end.

(** The total is an [int]. *)
Fixpoint copyfile_loop (fuel : nat) (fromfd tofd totalbytes : Z) : io Z :=
  match fuel with
  | O => die "fuel"
  | S fuel =>
      do bytesread <- readwrite fromfd tofd;
      if 0 <? bytesread then copyfile_loop fuel fromfd tofd (wraps 32 (totalbytes + bytesread))
      else pret totalbytes
  end.

Definition copyfile (fromfd tofd : Z) : io Z :=
  do fuel <- get (rfuel fromfd);
  copyfile_loop fuel fromfd tofd 0.

End Usp.
