(* ===== verification/IoGather.v ===== *)
(** * The loops of [readn] and [writen] in one form

    [gather] collects bytes and [scatter] hands bytes out, in as many calls
    as it takes; each implementation is one of them followed by its own
    result (lemmas [*_gather] and [*_scatter]), so what the loops do is
    proved once. *)
From S2P Require Import Prelude CString Posix IoFd IoReadn.

Open Scope prog_scope.

(** ** Reading *)
Fixpoint gather (restart : bool) (fuel : nat) (fd nleft : Z) (ptr : bytes) : io (ending * bytes) :=
  match fuel with
  | O => die "fuel"
  | S fuel =>
      if 0 <? nleft then
        do r <- sys_read fd nleft;
        match r with
        | None =>
            do errno <- get w_errno;
            if restart && (errno =? EINTR) then gather restart fuel fd nleft ptr else pret (AtErr errno, ptr)
        | Some [] => pret (AtEnd, ptr)
        | Some bs => gather restart fuel fd (nleft - zlen bs) (ptr ++ bs)
        end
      else pret (Full, ptr)
  end.

Lemma ref_read_app n bs l :
  (length bs <= n)%nat ->
  ref_read n ((Byte <$> bs) ++ l) = let '(bs', x, l') := ref_read (n - length bs) l in (bs ++ bs', x, l').
Proof.
  revert n. induction bs as [|c bs IH]; intros n Hn; simpl in *.
  - rewrite Nat.sub_0_r. by destruct (ref_read n l) as [[??]?].
  - destruct n as [|n]; [lia|]. simpl. rewrite IH by lia. by destruct (ref_read (n - length bs) l) as [[??]?].
Qed.

(** The world after a reader of [fd] has stopped. *)
Definition read_post (restart : bool) (fd : Z) (w : world) (x : ending) (l : list item) (w' : world) : Prop :=
  (exists s, w_in w' = <[fd := s]> (w_in w) /\ items restart s = l) /\ w_to w' = w_to w /\
  (forall e, x = AtErr e -> w_errno w' = e).

Lemma read_post_trans restart fd w w1 w2 s1 x l :
  w_in w1 = <[fd := s1]> (w_in w) -> w_to w1 = w_to w ->
  read_post restart fd w1 x l w2 -> read_post restart fd w x l w2.
Proof.
  intros H1 H2 ((s & Hs & Hl) & Ht & He). split_and!; [|congruence|done].
  exists s. rewrite Hs, H1, insert_insert_eq. done.
Qed.

Lemma gather_spec restart fuel fd nleft ptr w s :
  w_in w !! fd = Some s -> (rweight s + 1 < fuel)%nat -> 0 <= nleft ->
  let '(bs, x, l) := ref_read (Z.to_nat nleft) (items restart s) in
  exists w', gather restart fuel fd nleft ptr w = Ok (x, ptr ++ bs) w' /\ read_post restart fd w x l w'.
Proof.
  revert nleft ptr w s. induction fuel as [|fuel IH]; intros nleft ptr w s Hs Hf Hn; [lia|]. simpl gather.
  destruct (Z.ltb_spec 0 nleft) as [Hp|Hp].
  2: { replace nleft with 0 by lia. simpl. eexists. rewrite app_nil_r. split; [done|].
       split_and!; [|done..]. exists s. by rewrite insert_id. }
  destruct (sys_read_does restart fd nleft w s Hs Hp) as (r & w1 & s1 & E & Hw1 & Ht1 & _ & Hd & Hwt).
  rewrite (pbind_ok _ _ _ _ _ E). pstep.
  assert (w_in w1 !! fd = Some s1) as Hs1 by (rewrite Hw1; apply lookup_insert_eq).
  destruct (Z.to_nat nleft) as [|m] eqn:Em; [lia|].
  remember (w_errno w1) as e1 eqn:He1. remember (items restart s1) as l1 eqn:Hl1.
  destruct Hd as [->|e l' Hl Hne|l' Hl e|bs l' e Hbs Hlen Hl].
  - pstep. rewrite <- He1, Z.eqb_refl. cbn [andb]. destruct Hwt as [?|Hwt]; [done|].
    specialize (IH nleft ptr w1 s1 Hs1 ltac:(lia) Hn). rewrite Em, <- Hl1 in IH.
    destruct (ref_read (S m) (items true s)) as [[bs x] l]. destruct IH as (w' & -> & Hpost). exists w'. split; [done|].
    by eapply read_post_trans.
  - pstep. rewrite Hl, <- He1. simpl. assert (restart && (e =? EINTR) = false) as ->.
    { destruct restart; [|done]. simpl. apply Z.eqb_neq. auto. }
    eexists. rewrite app_nil_r. split; [done|]. split_and!; [by exists s1|done|]. congruence.
  - assert (ref_read (S m) (items restart s) = ([], AtEnd, l')) as ->.
    { by destruct Hl as [[-> ->] | ->]. }
    eexists. rewrite app_nil_r. split; [done|]. split_and!; [by exists s1|done|done].
  - rewrite Hl, ref_read_app by lia. destruct Hwt as [?|Hwt]; [congruence|].
    specialize (IH (nleft - zlen bs) (ptr ++ bs) w1 s1 Hs1 ltac:(lia) ltac:(unfold zlen; lia)).
    replace (Z.to_nat (nleft - zlen bs)) with (S m - length bs)%nat in IH by (unfold zlen; lia).
    rewrite <- Hl1 in IH. destruct (ref_read _ l') as [[bs' x] l]. destruct IH as (w' & E' & Hpost).
    exists w'. rewrite app_assoc. split; [|by eapply read_post_trans]. by destruct bs.
Qed.

(** A caller of [gather] with the fuel of the functions. *)
Lemma gather_run restart fd n w s :
  w_in w !! fd = Some s -> 0 <= n ->
  let '(bs, x, l) := ref_read (Z.to_nat n) (items restart s) in
  exists w', gather restart (rfuel fd w) fd n [] w = Ok (x, bs) w' /\ read_post restart fd w x l w'.
Proof. intros Hs Hn. apply (gather_spec restart _ fd n [] w s); [done| |done]. unfold rfuel. rewrite Hs. simpl. lia. Qed.

(** The results of the implementations. *)
Definition count_or_error (r : ending * bytes) : Z * bytes :=
  match r with (AtErr _, bs) => (-1, bs) | (_, bs) => (zlen bs, bs) end.

Definition count_or_first_error (r : ending * bytes) : Z * bytes :=
  match r with (AtErr _, []) => (-1, []) | (_, bs) => (zlen bs, bs) end.


Lemma unp_gather fuel fd n nleft ptr w :
  n = nleft + zlen ptr -> Unp.readn_loop fuel fd n nleft ptr w
  = (do r <- gather true fuel fd nleft ptr; pret (count_or_error r)) w.
Proof.
  revert nleft ptr w. induction fuel as [|fuel IH]; intros nleft ptr w Hn; [done|].
  simpl. destruct (0 <? nleft); [|unfold pbind, pret, count_or_error; do 2 f_equal; lia].
  unfold pbind, get, pret in *. destruct (sys_read fd nleft w) as [[[|c bs]|] w1|]; [|..|done].
  - simpl. do 2 f_equal. lia.
  - apply IH. unfold zlen in *. rewrite length_app. lia.
  - simpl. destruct (w_errno w1 =? EINTR); [by apply IH|done].
Qed.

Lemma tlpi_gather fuel fd n tot ptr w :
  tot = zlen ptr -> Tlpi.readn_loop fuel fd n tot ptr w
  = (do r <- gather true fuel fd (n - tot) ptr; pret (count_or_error r)) w.
Proof.
  revert tot ptr w. induction fuel as [|fuel IH]; intros tot ptr w Hn; [done|].
  simpl. replace (0 <? n - tot) with (tot <? n) by (destruct (Z.ltb_spec tot n), (Z.ltb_spec 0 (n - tot)); done || lia).
  destruct (tot <? n); [|unfold pbind, pret, count_or_error; by subst].
  unfold pbind, get, pret in *. destruct (sys_read fd _ w) as [[[|c bs]|] w1|]; [|..|done].
  - simpl. by subst.
  - rewrite IH by (unfold zlen in *; rewrite length_app; lia).
    by replace (n - (tot + zlen (c :: bs))) with (n - tot - zlen (c :: bs)) by lia.
  - simpl. destruct (w_errno w1 =? EINTR); [by apply IH|done].
Qed.

Lemma apue_gather fuel fd n nleft ptr w :
  n = nleft + zlen ptr -> Apue.readn_loop fuel fd n nleft ptr w
  = (do r <- gather false fuel fd nleft ptr; pret (count_or_first_error r)) w.
Proof.
  revert nleft ptr w. induction fuel as [|fuel IH]; intros nleft ptr w Hn; [done|].
  simpl. destruct (0 <? nleft); [|unfold pbind, pret, count_or_first_error; do 2 f_equal; lia].
  unfold pbind, get, pret in *. destruct (sys_read fd nleft w) as [[[|c bs]|] w1|]; [|..|done].
  - simpl. do 2 f_equal. lia.
  - apply IH. unfold zlen in *. rewrite length_app. lia.
  - simpl. subst n. destruct ptr as [|c ptr]; autorewrite with zlen.
    + by rewrite Z.add_0_r, Z.eqb_refl.
    + pose proof (zlen_nonneg ptr). destruct (Z.eqb_spec nleft (nleft + (1 + zlen ptr))); [lia|]. do 2 f_equal. lia.
Qed.

(** [readblock] takes a block or nothing. *)
Definition block_result (r : ending * bytes) : io (Z * bytes) :=
  match r with
  | (AtErr _, bs) => pret (-1, bs)
  | (AtEnd, _ :: _) => run put (set_errno EINVAL); pret (-1, r.2)
  | (_, bs) => pret (zlen bs, bs)
  end.

Lemma readblock_gather fuel fd nleft tot ptr w :
  tot = zlen ptr -> Usp.readblock_loop fuel fd nleft tot ptr w
  = (do r <- gather true fuel fd nleft ptr; block_result r) w.
Proof.
  revert nleft tot ptr w. induction fuel as [|fuel IH]; intros nleft tot ptr w Hn; [done|].
  simpl. destruct (0 <? nleft); [|unfold pbind, pret, block_result; by subst].
  unfold pbind, get, pret in *. destruct (sys_read fd nleft w) as [[[|c bs]|] w1|]; [|..|done].
  - simpl. subst. unfold zlen. by destruct ptr.
  - apply IH. unfold zlen in *. rewrite length_app. lia.
  - simpl. destruct (w_errno w1 =? EINTR); [by apply IH|done].
Qed.

(** ** The loops of [writen] in one form, and copying

    [scatter] hands bytes out in as many calls as it takes.  [again] says
    when an implementation calls [write] once more after a result that is
    not positive. *)
(** The last result of [write] (1 when all is written) and what is left. *)
Fixpoint scatter (again : Z -> Z -> bool) (fuel : nat) (fd : Z) (ptr : bytes) : io (Z * bytes) :=
  match fuel with
  | O => die "fuel"
  | S fuel =>
      match ptr with
      | [] => pret (1, [])
      | _ =>
          do n <- sys_write fd ptr;
          do errno <- get w_errno;
          if n <=? 0 then (if again n errno then scatter again fuel fd ptr else pret (n, ptr))
          else scatter again fuel fd (drop (Z.to_nat n) ptr)
      end
  end.

(** When the implementations try again. *)
Definition never (n errno : Z) : bool := false.
Definition if_intr (n errno : Z) : bool := (n <? 0) && (errno =? EINTR).
Definition if_errno_intr (n errno : Z) : bool := errno =? EINTR.
Definition if_zero_or_intr (n errno : Z) : bool := (n =? 0) || (errno =? EINTR).

(** Events an implementation gets over, whatever [errno] was before. *)
Definition passes (again : Z -> Z -> bool) (v : wevent) : Prop :=
  match v with
  | Room _ => True
  | Zero => forall errno, again 0 errno = true
  | WIntr => again (-1) EINTR = true
  | WFail e => again (-1) e = true
  end.

(** The world after a writer to [fd] has written [out]. *)
Definition write_post (fd : Z) (w : world) (out : bytes) (w' : world) : Prop :=
  w_in w' = w_in w /\ exists s s' o, w_to w !! fd = Some (s, o) /\ w_to w' = <[fd := (s', o ++ out)]> (w_to w) /\
    exists k, s' = drop k s.

Lemma sys_write_does fd ptr w s o :
  w_to w !! fd = Some (s, o) -> ptr <> [] ->
  exists n w', sys_write fd ptr w = Ok n w' /\ w_in w' = w_in w /\
    w_to w' = <[fd := (tail s, o ++ take (Z.to_nat n) ptr)]> (w_to w) /\ n <= zlen ptr /\
    (n <= 0 -> match s with
               | Zero :: _ => n = 0 | WIntr :: _ => n = -1 /\ w_errno w' = EINTR
               | WFail e :: _ => n = -1 /\ w_errno w' = e | _ => False end) /\
    (s = [] -> n = zlen ptr).
Proof.
  intros Hs Hp. unfold sys_write. pstep. rewrite Hs.
  assert (0 < zlen ptr) as Hl by (destruct ptr; [done|]; unfold zlen; simpl; lia).
  destruct s as [|[k| |e|] s]; pstep; eexists _, _; (split; [reflexivity|]).
  - split_and!; try done; [|lia..]. simpl. unfold zlen. by rewrite Nat2Z.id, firstn_all.
  - set (got := take (S k) ptr). assert (0 < zlen got <= zlen ptr) as Hg.
    { unfold got, zlen. rewrite length_take. unfold zlen in Hl. lia. }
    split_and!; try done; [|lia..]. simpl. do 3 f_equal. unfold got, zlen. rewrite Nat2Z.id, length_take.
    by rewrite <- take_take, firstn_all.
  - split_and!; try done; [|lia]. simpl. by rewrite app_nil_r.
  - split_and!; try done; [|lia]. simpl. by rewrite app_nil_r.
  - split_and!; try done; [|lia]. simpl. by rewrite app_nil_r.
Qed.

Lemma write_post_step fd w w1 w2 s o a b :
  w_to w !! fd = Some (s, o) -> w_in w1 = w_in w -> w_to w1 = <[fd := (tail s, o ++ a)]> (w_to w) ->
  write_post fd w1 b w2 -> write_post fd w (a ++ b) w2.
Proof.
  intros Hs Hi Ht (Hi2 & s1 & s2 & o1 & Hs1 & Ht2 & k & ->). split; [congruence|].
  rewrite Ht, lookup_insert_eq in Hs1. injection Hs1 as <- <-.
  exists s, (drop (S k) s), o. split_and!; [done| |by exists (S k)].
  rewrite Ht2, Ht, insert_insert_eq, app_assoc. do 2 f_equal. by destruct s; [destruct k|].
Qed.

Lemma scatter_spec again fuel fd ptr w s o :
  w_to w !! fd = Some (s, o) -> (length s + Nat.min 1 (length ptr) < fuel)%nat ->
  exists r out left w', scatter again fuel fd ptr w = Ok (r, left) w' /\ ptr = out ++ left /\
    write_post fd w out w' /\ (left = [] <-> r = 1) /\ r <= 1 /\ (r <= 0 -> left <> []) /\
    (Forall (passes again) s -> r = 1).
Proof.
  revert ptr w s o. induction fuel as [|fuel IH]; intros ptr w s o Hs Hf; [lia|].
  destruct ptr as [|c ptr].
  { exists 1, [], [], w. split_and!; try done; try lia. split; [done|]. exists s, s, o.
    rewrite app_nil_r, insert_id by done. split_and!; try done. by exists 0%nat. }
  assert (c :: ptr <> []) as Hne by done.
  destruct (sys_write_does fd (c :: ptr) w s o Hs Hne) as (n & w1 & E & Hi1 & Ht1 & Hn & Hn0 & Hnil).
  assert (w_to w1 !! fd = Some (tail s, o ++ take (Z.to_nat n) (c :: ptr))) as Hs1 by (rewrite Ht1; apply lookup_insert_eq).
  cbn [scatter]. remember (c :: ptr) as p. rewrite (pbind_ok _ _ _ _ _ E). pstep.
  destruct (Z.leb_spec n 0) as [Hle|Hgt].
  - assert (s <> []) as Hse by (intros ->; by apply Hn0).
    assert (take (Z.to_nat n) p = []) as Htk by (replace (Z.to_nat n) with 0%nat by lia; done).
    rewrite Htk in Hs1, Ht1. destruct (again n (w_errno w1)) eqn:Ea.
    + destruct (IH p w1 _ _ Hs1) as (r & out & left & w' & -> & Hp & Hpost & H1 & H2 & H3 & H4).
      { destruct s; [done|]. subst p. simpl in *. lia. }
      exists r, out, left, w'. split_and!; try done; [by apply (write_post_step fd w w1 w' s o [])|..].
      intros HF. apply H4. destruct s; [done|]. by apply Forall_cons in HF as [_ ?].
    + exists n, [], p, w1. split_and!; try done; try lia.
      * split; [done|]. exists s, (tail s), o. split_and!; [done..|]. by exists 1%nat.
      * split; [by intros ->|lia].
      * intros HF. specialize (Hn0 Hle). destruct s as [|v s]; [done|]. apply Forall_cons in HF as [Hv _].
        destruct v; simpl in Hv; try done; [destruct Hn0 as [-> Hx]; rewrite Hx in Ea; congruence..|].
        rewrite Hn0, Hv in Ea. done.
  - destruct (IH (drop (Z.to_nat n) p) w1 _ _ Hs1) as (r & out & left & w' & -> & Hp & Hpost & H1 & H2 & H3 & H4).
    { assert (0 < length p)%nat by (subst p; simpl; lia). destruct s as [|v s]; cbn [tail length] in *; [|lia]. rewrite Hnil by done. unfold zlen.
      rewrite Nat2Z.id, drop_all. subst p. simpl in *. lia. }
    exists r, (take (Z.to_nat n) p ++ out), left, w'. split_and!; try done.
    + by rewrite <- app_assoc, <- Hp, take_drop.
    + by eapply write_post_step.
    + intros HF. apply H4. destruct s; [done|]. by apply Forall_cons in HF as [_ ?].
Qed.

(** ** The implementations *)
Lemma sys_write_le fd ptr w n w' : sys_write fd ptr w = Ok n w' -> -1 <= n <= zlen ptr.
Proof.
  pose proof (zlen_nonneg ptr) as H0. unfold sys_write, pbind, get, put, pret.
  destruct (w_to w !! fd) as [[[|[k| |e|] s] o]|]; intros [= <- <-]; try lia.
  unfold zlen in *. rewrite length_take. lia.
Qed.

Lemma drop_left n (ptr : bytes) : 0 <= n <= zlen ptr -> zlen ptr - n = zlen (drop (Z.to_nat n) ptr).
Proof. intros. rewrite zlen_drop. lia. Qed.


Lemma zlen_pos {A} (l : list A) : (0 <? zlen l) = match l with [] => false | _ => true end.
Proof. by destruct l. Qed.

Lemma unp_scatter fuel fd n ptr w :
  Unp.writen_loop fuel fd n (zlen ptr) ptr w
  = (do r <- scatter if_intr fuel fd ptr; pret (if r.1 =? 1 then n else -1)) w.
Proof.
  revert ptr w. induction fuel as [|fuel IH]; intros ptr w; [done|]. simpl. rewrite zlen_pos.
  destruct ptr as [|c ptr]; [done|]. set (p := c :: ptr). unfold pbind, get, pret in *.
  destruct (sys_write fd p w) as [k w1|] eqn:E; [|done]. apply sys_write_le in E.
  destruct (Z.leb_spec k 0).
  - unfold if_intr at 1. destruct ((k <? 0) && (w_errno w1 =? EINTR)); [by apply IH|]. simpl. by destruct (Z.eqb_spec k 1); [lia|].
  - rewrite drop_left by lia. apply IH.
Qed.

Lemma unp22_scatter fuel fd n ptr w :
  Unp22.writen_loop fuel fd n (zlen ptr) ptr w
  = (do r <- scatter if_errno_intr fuel fd ptr; pret (if r.1 =? 1 then n else -1)) w.
Proof.
  revert ptr w. induction fuel as [|fuel IH]; intros ptr w; [done|]. simpl. rewrite zlen_pos.
  destruct ptr as [|c ptr]; [done|]. set (p := c :: ptr). unfold pbind, get, pret in *.
  destruct (sys_write fd p w) as [k w1|] eqn:E; [|done]. apply sys_write_le in E.
  destruct (Z.leb_spec k 0).
  - unfold if_errno_intr at 1. destruct (w_errno w1 =? EINTR); [by apply IH|]. simpl. by destruct (Z.eqb_spec k 1); [lia|].
  - rewrite drop_left by lia. apply IH.
Qed.

Lemma tlpi_scatter fuel fd n ptr w :
  Tlpi.writen_loop fuel fd n (n - zlen ptr) ptr w
  = (do r <- scatter if_intr fuel fd ptr; pret (if r.1 =? 1 then n else -1)) w.
Proof.
  revert ptr w. induction fuel as [|fuel IH]; intros ptr w; [done|]. simpl.
  replace (n - zlen ptr <? n) with (0 <? zlen ptr) by (destruct (Z.ltb_spec 0 (zlen ptr)), (Z.ltb_spec (n - zlen ptr) n); done || lia).
  rewrite zlen_pos. destruct ptr as [|c ptr]; [simpl; by rewrite Z.sub_0_r|]. set (p := c :: ptr). unfold pbind, get, pret in *.
  destruct (sys_write fd p w) as [k w1|] eqn:E; [|done]. apply sys_write_le in E.
  destruct (Z.leb_spec k 0).
  - assert ((k =? -1) && (w_errno w1 =? EINTR) = if_intr k (w_errno w1)) as ->.
    { unfold if_intr. f_equal. destruct (Z.eqb_spec k (-1)), (Z.ltb_spec k 0); done || lia. }
    destruct (if_intr k (w_errno w1)); [by apply IH|]. simpl. by destruct (Z.eqb_spec k 1); [lia|].
  - replace (n - zlen p + k) with (n - zlen (drop (Z.to_nat k) p)) by (rewrite <- drop_left by lia; lia). apply IH.
Qed.

Lemma usp_scatter fuel fd n ptr w :
  Usp.r_write_loop fuel fd (zlen ptr) (n - zlen ptr) ptr w
  = (do r <- scatter if_zero_or_intr fuel fd ptr; pret (if r.1 =? 1 then n else -1)) w.
Proof.
  revert ptr w. induction fuel as [|fuel IH]; intros ptr w; [done|]. simpl. rewrite zlen_pos.
  destruct ptr as [|c ptr]; [simpl; by rewrite Z.sub_0_r|]. set (p := c :: ptr). unfold pbind, get, pret in *.
  destruct (sys_write fd p w) as [k w1|] eqn:E; [|done]. apply sys_write_le in E.
  destruct (Z.leb_spec k 0).
  - assert (k = 0 \/ k = -1) as [-> | ->] by lia; simpl.
    + rewrite Z.sub_0_r, Z.add_0_r. apply IH.
    + destruct (w_errno w1 =? EINTR) eqn:Ei; unfold if_zero_or_intr at 1; rewrite Ei; simpl; [|done].
      rewrite Z.sub_0_r, Z.add_0_r. apply IH.
  - destruct (Z.eqb_spec k (-1)); [lia|]. simpl. rewrite drop_left by lia.
    replace (n - zlen p + k) with (n - zlen (drop (Z.to_nat k) p)) by (rewrite <- drop_left by lia; lia). apply IH.
Qed.

Lemma apue_scatter fuel fd n ptr w :
  zlen ptr <= n ->
  Apue.writen_loop fuel fd n (zlen ptr) ptr w
  = (do r <- scatter never fuel fd ptr;
     pret (if (r.1 <? 0) && (zlen r.2 =? n) then -1 else n - zlen r.2)) w.
Proof.
  revert ptr w. induction fuel as [|fuel IH]; intros ptr w Hn; [done|]. simpl. rewrite zlen_pos.
  destruct ptr as [|c ptr]; [done|]. set (p := c :: ptr) in *. unfold pbind, get, pret in *.
  destruct (sys_write fd p w) as [k w1|] eqn:E; [|done]. apply sys_write_le in E.
  destruct (Z.leb_spec k 0).
  - unfold never. cbn [fst snd]. destruct (Z.ltb_spec k 0); cbn [andb].
    + by destruct (zlen p =? n).
    + by destruct (Z.eqb_spec k 0); [|lia].
  - destruct (Z.ltb_spec k 0); [lia|]. destruct (Z.eqb_spec k 0); [lia|].
    rewrite drop_left by lia. apply IH. rewrite <- drop_left by lia. lia.
Qed.

(** ** Copying *)

(** [r_read] is one read that is not interrupted. *)
Lemma r_read_spec fuel fd size w s :
  w_in w !! fd = Some s -> (rweight s < fuel)%nat -> 0 < size ->
  exists r w' s', Usp.r_read_loop fuel fd size w = Ok r w' /\ w_in w' = <[fd := s']> (w_in w) /\ w_to w' = w_to w /\
    match r with
    | Some [] => items true s = [] /\ items true s' = [] \/ items true s = End :: items true s'
    | Some bs => items true s = (Byte <$> bs) ++ items true s' /\ (rweight s' < rweight s)%nat /\ zlen bs <= size
    | None => items true s = Err (w_errno w') :: items true s'
    end.
Proof.
  revert w s. induction fuel as [|fuel IH]; intros w s Hs Hf Hp; [lia|]. simpl.
  destruct (sys_read_does true fd size w s Hs Hp) as (r & w1 & s1 & E & Hw1 & Ht1 & _ & Hd & Hwt).
  rewrite (pbind_ok _ _ _ _ _ E). pstep.
  assert (w_in w1 !! fd = Some s1) as Hs1 by (rewrite Hw1; apply lookup_insert_eq).
  remember (w_errno w1) as e1 eqn:He1. remember (items true s1) as l1 eqn:Hl1.
  destruct Hd as [_|e l' Hl Hne|l' Hl e|bs l' e Hbs Hlen Hl].
  - rewrite Z.eqb_refl. destruct Hwt as [?|Hwt]; [done|].
    destruct (IH w1 s1 Hs1) as (r & w' & s' & E' & Hw' & Ht' & Hr); [lia|done|]. exists r, w', s'.
    rewrite Hw', Hw1, insert_insert_eq, Ht', Ht1. split_and!; try done. rewrite Hl1. destruct r as [[|]|]; [done| |done].
    destruct Hr as (-> & ? & ?). split_and!; [done|lia|done].
  - destruct (Z.eqb_spec e EINTR) as [->|]; [by destruct Hne|]. exists None, w1, s1. split_and!; try done. by subst.
  - exists (Some []), w1, s1. split_and!; try done. subst. by destruct Hl as [[-> <-] | ->]; auto.
  - exists (Some bs), w1, s1. split_and!; try done. destruct bs; [done|]. destruct Hwt as [?|Hwt]; [done|].
    split_and!; [by subst|done|]. unfold zlen. lia.
Qed.

Definition all_pass (fd : Z) (w : world) : Prop :=
  exists s o, w_to w !! fd = Some (s, o) /\ Forall (passes if_zero_or_intr) s.

Definition written (fd : Z) (w : world) : bytes := (default ([], []) (w_to w !! fd)).2.

Lemma r_write_all fd buf w :
  all_pass fd w ->
  exists w', Usp.r_write fd buf w = Ok (zlen buf) w' /\ w_in w' = w_in w /\ all_pass fd w' /\
    written fd w' = written fd w ++ buf.
Proof.
  intros (s & o & Hs & HF). unfold Usp.r_write. pstep.
  pose proof (usp_scatter (wfuel fd w) fd (zlen buf) buf w) as Hu. rewrite Z.sub_diag in Hu. rewrite Hu. clear Hu.
  destruct (scatter_spec if_zero_or_intr (wfuel fd w) fd buf w s o Hs) as (r & out & left & w' & E & Hb & Hp & Hl & _ & _ & HF').
  { unfold wfuel. rewrite Hs. change (default ([], []) (Some (s, o))) with (s, o). cbn [fst]. lia. }
  specialize (HF' HF). apply Hl in HF' as Hle. subst left r. rewrite app_nil_r in Hb. subst out.
  rewrite (pbind_ok _ _ _ _ _ E). simpl. exists w'. destruct Hp as (Hi & s1 & s2 & o1 & Hs1 & Ht & k & Hk).
  rewrite Hs in Hs1. injection Hs1 as <- <-. split_and!; [done|done|..].
  - exists s2, (o ++ buf). split; [rewrite Ht; apply lookup_insert_eq|]. subst s2. by apply Forall_drop.
  - unfold written. by rewrite Ht, lookup_insert_eq, Hs.
Qed.

Fixpoint until_end (l : list item) : bytes :=
  match l with Byte c :: l => c :: until_end l | _ => [] end.

Lemma until_end_app bs l : until_end ((Byte <$> bs) ++ l) = bs ++ until_end l.
Proof. induction bs as [|c bs IH]; [done|]. csimpl. by rewrite IH. Qed.

Lemma copy_loop_spec fuel fromfd tofd tot w s :
  w_in w !! fromfd = Some s -> (rweight s < fuel)%nat -> all_pass tofd w ->
  0 <= tot -> tot + zlen (until_end (items true s)) < 2 ^ 31 ->
  exists w', Usp.copyfile_loop fuel fromfd tofd tot w = Ok (tot + zlen (until_end (items true s))) w' /\
    written tofd w' = written tofd w ++ until_end (items true s).
Proof.
  revert tot w s. induction fuel as [|fuel IH]; intros tot w s Hs Hf Ho Ht Hb; [lia|].
  simpl. unfold Usp.readwrite at 1, Usp.r_read. pstep.
  destruct (r_read_spec (rfuel fromfd w) fromfd Usp.BLKSIZE w s Hs) as (r & w1 & s1 & E & Hw1 & Ht1 & Hr); [|done|].
  { unfold rfuel. rewrite Hs. simpl. lia. }
  rewrite (pbind_ok _ _ _ _ _ E). assert (all_pass tofd w1) as Ho1 by (unfold all_pass; by rewrite Ht1).
  assert (written tofd w1 = written tofd w) as Hwr by (unfold written; by rewrite Ht1).
  destruct r as [[|c bs]|].
  - exists w1. pstep. simpl. rewrite Hwr.
    by destruct Hr as [[-> _] | ->]; simpl; rewrite zlen_nil, Z.add_0_r, app_nil_r.
  - destruct Hr as (Hi & Hwt & Hlen). rewrite Hi, until_end_app, zlen_app in *.
    pstep. destruct (r_write_all tofd (c :: bs) w1 Ho1) as (w2 & E2 & Hi2 & Ho2 & Hwr2). rewrite (pbind_ok _ _ _ _ _ E2).
    pose proof (zlen_nonneg bs). pose proof (zlen_nonneg (until_end (items true s1))). rewrite zlen_cons in *.
    rewrite ltb_false by lia. pstep. rewrite ltb_true, wraps32_small by lia.
    destruct (IH (tot + (1 + zlen bs)) w2 s1) as (w' & -> & Hw'); [|lia|done|lia..|].
    { rewrite Hi2, Hw1. apply lookup_insert_eq. }
    exists w'. split; [f_equal; lia|]. by rewrite Hw', Hwr2, Hwr, <- app_assoc.
  - exists w1. pstep. simpl. rewrite Hwr, Hr. simpl. by rewrite zlen_nil, Z.add_0_r, app_nil_r.
Qed.
