(* ===== verification/IoLine.v ===== *)
(** * Reading lines

    The [readline] functions of unpv13e (with a static buffer, with a buffer
    per thread, and with a buffer of the caller's) and of unpv22e, the
    unbuffered [readLine] and the buffered [readLineBuf] of
    tlpi-dist/sockets, and [readline] of UNIX_Systems_Programming.  Each
    returns its result and the bytes it has stored into the caller's
    buffer, the terminating null included. *)
From S2P Require Import Prelude Posix CString IoFd.

Open Scope prog_scope.

(** ** unpv13e/lib: one static buffer, whatever the descriptor *)
Definition MAXLINE : Z := 4096.

(** [read_cnt], [read_ptr] (as an index) and [read_buf]. *)
Record Rline := mkRline { rl_cnt : Z; rl_bufptr : Z; rl_buf : bytes }.

Record rstate := mkR { r_line : Rline; r_world : world }.

Definition on_world {A} (m : io A) : Prog rstate A := fun r =>
  match m (r_world r) with
  | Ok a w => Ok a (mkR (r_line r) w)
  | Abort why w => Abort why (mkR (r_line r) w)
  end.

Definition set_line (l : Rline) (r : rstate) : rstate := mkR l (r_world r).

Module Unp.

(** From the label [again] to the end of the block; 1 when [read_buf] has
    been filled. *)
Fixpoint fill (fuel : nat) (fd : Z) : Prog rstate Z :=
  match fuel with
  | O => die "fuel"
  | S fuel =>
      do got <- on_world (sys_read fd MAXLINE);
      do l <- get r_line;
      match got with
      | None =>
          run put (set_line (mkRline (-1) (rl_bufptr l) (rl_buf l)));
          do errno <- get (fun r => w_errno (r_world r));
          if errno =? EINTR then fill fuel fd else pret (-1)
      | Some [] => run put (set_line (mkRline 0 (rl_bufptr l) (rl_buf l))); pret 0
      | Some bs => run put (set_line (mkRline (zlen bs) 0 (splice (rl_buf l) 0 bs))); pret 1
      end
  end.

(** [read_cnt--; *ptr = *read_ptr++; return(1);] *)
Definition take_byte : Prog rstate (Z * Z) :=
  do l <- get r_line;
  run put (set_line (mkRline (rl_cnt l - 1) (rl_bufptr l + 1) (rl_buf l)));
  pret (1, default 0 (rl_buf l !! Z.to_nat (rl_bufptr l))).

Definition my_read (fd : Z) : Prog rstate (Z * Z) :=
  do l <- get r_line;
  if rl_cnt l <=? 0 then
    do fuel <- get (fun r => rfuel fd (r_world r));
    do k <- fill fuel fd;
    if k =? 1 then take_byte else pret (k, 0)
  else take_byte.

Fixpoint readline_loop (fuel : nat) (fd n maxlen : Z) (ptr : bytes) : Prog rstate (Z * bytes) :=
  match fuel with
  | O => die "fuel"
  | S fuel =>
      if n <? maxlen then
        do ' (rc, c) <- my_read fd;
        if rc =? 1 then
          if c =? CH_NEWLINE then pret (n, ptr ++ [c] ++ [NUL])
          else readline_loop fuel fd (n + 1) maxlen (ptr ++ [c])
        else if rc =? 0 then pret (n - 1, ptr ++ [NUL])
        else pret (-1, ptr)
      else pret (n, ptr ++ [NUL])
  end.

Definition readline (fd maxlen : Z) : Prog rstate (Z * bytes) :=
  readline_loop (S (Z.to_nat maxlen)) fd 1 maxlen [].

(** What [readlinebuf] stores through its argument is the rest of the
    buffer from [read_ptr] on, when there is one. *)
Definition readlinebuf : Prog rstate (Z * option bytes) :=
  do l <- get r_line;
  pret (rl_cnt l, if rl_cnt l =? 0 then None else Some (drop (Z.to_nat (rl_bufptr l)) (rl_buf l))).

Definition Readline (fd maxlen : Z) : Prog rstate (Z * bytes) :=
  do r <- readline fd maxlen;
  run guard_die (r.1 <? 0) "readline error";
  pret r.

End Unp.

(** ** unpv22e/lib: the same [my_read], another end of file *)
Module Unp22.

Fixpoint readline_loop (fuel : nat) (fd n maxlen : Z) (ptr : bytes) : Prog rstate (Z * bytes) :=
  match fuel with
  | O => die "fuel"
  | S fuel =>
      if n <? maxlen then
        do ' (rc, c) <- Unp.my_read fd;
        if rc =? 1 then
          if c =? CH_NEWLINE then pret (n, ptr ++ [c] ++ [NUL])
          else readline_loop fuel fd (n + 1) maxlen (ptr ++ [c])
        else if rc =? 0 then
          if n =? 1 then pret (0, ptr) else pret (n, ptr ++ [NUL])
        else pret (-1, ptr)
      else pret (n, ptr ++ [NUL])
  end.

Definition readline (fd maxlen : Z) : Prog rstate (Z * bytes) :=
  readline_loop (S (Z.to_nat maxlen)) fd 1 maxlen [].

End Unp22.

(** ** unpv13e/threads: a buffer for each thread *)
Module Tsd.

Record tstate := mkT { t_tsd : gmap nat Rline; t_world : world }.

(** [Calloc(1, sizeof(Rline))]: the pointer [rl_bufptr] is not used before
    it is set, [rl_cnt] being 0. *)
Definition calloc_rline : Rline := mkRline 0 0 (replicate (Z.to_nat MAXLINE) 0).

(** [readline] of thread [t]; [my_read] and the loop have the text of
    unpv13e/lib/readline.c with [tsd->] before the variables. *)
Definition readline (t : nat) (fd maxlen : Z) : Prog tstate (Z * bytes) := fun s =>
  let tsd := default calloc_rline (t_tsd s !! t) in
  match Unp.readline_loop (S (Z.to_nat maxlen)) fd 1 maxlen [] (mkR tsd (t_world s)) with
  | Ok a r => Ok a (mkT (<[t := r_line r]> (t_tsd s)) (r_world r))
  | Abort why r => Abort why (mkT (<[t := r_line r]> (t_tsd s)) (r_world r))
  end.

End Tsd.

(** ** unpv13e/server: a buffer of the caller's *)
Module Caller.

Record Rline_r := mkRr { read_fd : Z; read_maxlen : Z; rr_line : Rline }.

Definition readline_rinit (fd maxlen : Z) (old : Rline_r) : Rline_r :=
  mkRr fd maxlen (mkRline 0 0 (rl_buf (rr_line old))).

(** [my_read_r] is [my_read] on the caller's buffer ([& 255] keeps the bits
    of a [char]); the loop ends like the one of unpv22e/lib. *)
Definition readline_r (x : Rline_r * world) : outcome (Rline_r * world) (Z * bytes) :=
  let '(p, w) := x in
  match Unp22.readline_loop (S (Z.to_nat (read_maxlen p))) (read_fd p) 1 (read_maxlen p) [] (mkR (rr_line p) w) with
  | Ok a r => Ok a (mkRr (read_fd p) (read_maxlen p) (r_line r), r_world r)
  | Abort why r => Abort why (mkRr (read_fd p) (read_maxlen p) (r_line r), r_world r)
  end.

End Caller.

(** ** tlpi-dist/sockets *)
Module Tlpi.

Fixpoint readLine_loop (fuel : nat) (fd n totRead : Z) (buf : bytes) : io (Z * bytes) :=
  match fuel with
  | O => die "fuel"
  | S fuel =>
      do numRead <- sys_read fd 1;
      match numRead with
      | None =>
          do errno <- get w_errno;
          if errno =? EINTR then readLine_loop fuel fd n totRead buf else pret (-1, buf)
      | Some [] => if totRead =? 0 then pret (0, buf) else pret (totRead, buf ++ [NUL])
      | Some (ch :: _) =>
          let '(totRead, buf) := if totRead <? n - 1 then (totRead + 1, buf ++ [ch]) else (totRead, buf) in
          if ch =? CH_NEWLINE then pret (totRead, buf ++ [NUL])
          else readLine_loop fuel fd n totRead buf
      end
  end.

(** [null] is whether the buffer is a null pointer. *)
Definition readLine (fd : Z) (null : bool) (n : Z) : io (Z * bytes) :=
  if (n <=? 0) || null then run put (set_errno EINVAL); pret (-1, [])
  else
    do fuel <- get (rfuel fd);
    readLine_loop fuel fd n 0 [].

Definition RL_MAX_BUF : Z := 10.

Record ReadLineBuf := mkRlb { b_fd : Z; b_buf : bytes; b_next : Z; b_len : Z }.

Record bstate := mkB { b_line : ReadLineBuf; b_world : world }.

Definition readLineBufInit (fd : Z) (b : ReadLineBuf) : ReadLineBuf := mkRlb fd (b_buf b) 0 0.

Definition on_bworld {A} (m : io A) : Prog bstate A := fun b =>
  match m (b_world b) with
  | Ok a w => Ok a (mkB (b_line b) w)
  | Abort why w => Abort why (mkB (b_line b) w)
  end.

Definition set_bline (l : ReadLineBuf) (b : bstate) : bstate := mkB l (b_world b).

(** The block that reads when there is nothing left: [None] to go on, or
    whether to return -1 or to leave the loop. *)
Definition refill : Prog bstate (option bool) :=
  do l <- get b_line;
  if b_len l <=? b_next l then
    do got <- on_bworld (sys_read (b_fd l) RL_MAX_BUF);
    match got with
    | None => run put (set_bline (mkRlb (b_fd l) (b_buf l) (b_next l) (-1))); pret (Some true)
    | Some [] => run put (set_bline (mkRlb (b_fd l) (b_buf l) (b_next l) 0)); pret (Some false)
    | Some bs => run put (set_bline (mkRlb (b_fd l) (splice (b_buf l) 0 bs) 0 (zlen bs))); pret None
    end
  else pret None.

Fixpoint readLineBuf_loop (fuel : nat) (n cnt : Z) (buffer : bytes) : Prog bstate (Z * bytes) :=
  match fuel with
  | O => die "fuel"
  | S fuel =>
      do stop <- refill;
      match stop with
      | Some true => pret (-1, buffer)
      | Some false => pret (cnt, buffer)
      | None =>
          do l <- get b_line;
          let c := default 0 (b_buf l !! Z.to_nat (b_next l)) in
          run put (set_bline (mkRlb (b_fd l) (b_buf l) (b_next l + 1) (b_len l)));
          let '(cnt, buffer) := if cnt <? n then (cnt + 1, buffer ++ [c]) else (cnt, buffer) in
          if c =? CH_NEWLINE then pret (cnt, buffer)
          else readLineBuf_loop fuel n cnt buffer
      end
  end.

(** What the loop can use up. *)
Definition bfuel (b : bstate) : nat :=
  (Z.to_nat (b_len (b_line b) - b_next (b_line b)) + rfuel (b_fd (b_line b)) (b_world b))%nat.

Definition readLineBuf (null : bool) (n : Z) : Prog bstate (Z * bytes) :=
  if (n <=? 0) || null then run on_bworld (put (set_errno EINVAL)); pret (-1, [])
  else
    do fuel <- get bfuel;
    readLineBuf_loop fuel n 0 [].

End Tlpi.

(** ** UNIX_Systems_Programming, restart.c *)
Module Usp.

Fixpoint readline_loop (fuel : nat) (fd numread nbytes : Z) (buf : bytes) : io (Z * bytes) :=
  match fuel with
  | O => die "fuel"
  | S fuel =>
      if numread <? nbytes - 1 then
        do returnval <- sys_read fd 1;
        do errno <- get w_errno;
        match returnval with
        | None => if errno =? EINTR then readline_loop fuel fd numread nbytes buf else pret (-1, buf)
        | Some [] =>
            if numread =? 0 then pret (0, buf)
            else run put (set_errno EINVAL); pret (-1, buf)
        | Some (c :: _) =>
            if c =? CH_NEWLINE then pret (numread + 1, buf ++ [c] ++ [NUL])
            else readline_loop fuel fd (numread + 1) nbytes (buf ++ [c])
        end
      else run put (set_errno EINVAL); pret (-1, buf)
  end.

Definition readline (fd nbytes : Z) : io (Z * bytes) :=
  do fuel <- get (rfuel fd);
  readline_loop fuel fd 0 nbytes [].

End Usp.
