(* ===== verification/IoLineThms.v ===== *)
(** * What the line readers do to a stream

    A buffered reader and its descriptor are one stream: what is left in the
    buffer, then what the descriptor has.  [next_item] says what a call of
    [my_read] takes from it; the loops are compared with reference readers
    on streams. *)
From S2P Require Import Prelude CString Posix IoFd IoLine.

Open Scope prog_scope.

(** ** Reference readers *)
Inductive lend := Newline | LFull | LEnd | LErr (e : Z).

(** A line of at most [k] bytes. *)
Fixpoint ref_line (k : nat) (l : list item) : bytes * lend * list item :=
  match k, l with
  | O, _ => ([], LFull, l)
  | S k, [] => ([], LEnd, [])
  | S k, End :: l => ([], LEnd, l)
  | S k, Err e :: l => ([], LErr e, l)
  | S k, Byte c :: l =>
      if c =? CH_NEWLINE then ([c], Newline, l)
      else let '(bs, x, l') := ref_line k l in (c :: bs, x, l')
  end.

(** A whole line. *)
Fixpoint ref_whole (l : list item) : bytes * lend * list item :=
  match l with
  | [] => ([], LEnd, [])
  | End :: l => ([], LEnd, l)
  | Err e :: l => ([], LErr e, l)
  | Byte c :: l =>
      if c =? CH_NEWLINE then ([c], Newline, l)
      else let '(bs, x, l') := ref_whole l in (c :: bs, x, l')
  end.

Lemma ref_whole_end l : let '(line, x, _) := ref_whole l in x <> LFull /\ (x = Newline -> line <> []).
Proof.
  induction l as [|[c|e|] l IH]; simpl; try done. destruct (c =? CH_NEWLINE); [done|].
  destruct (ref_whole l) as [[line x] l']. by destruct IH.
Qed.

(** What taking the next item of [l] gives: the result of [read], the byte
    or [errno], and the rest. *)
Definition next_item (l : list item) (rc c errno : Z) (l' : list item) : Prop :=
  match l with
  | [] => rc = 0 /\ l' = []
  | End :: l1 => rc = 0 /\ l' = l1
  | Err e :: l1 => rc = -1 /\ errno = e /\ l' = l1
  | Byte b :: l1 => rc = 1 /\ c = b /\ l' = l1
  end.

(** ** The buffer of [my_read] *)
Definition line_ok (l : Rline) : Prop :=
  zlen (rl_buf l) = MAXLINE /\ 0 <= rl_bufptr l /\ (0 < rl_cnt l -> rl_bufptr l + rl_cnt l <= MAXLINE).

Definition pending (l : Rline) : bytes := slice (rl_buf l) (rl_bufptr l) (rl_cnt l).

Definition stream (fd : Z) (r : rstate) : list item :=
  (Byte <$> pending (r_line r)) ++ items true (default [] (w_in (r_world r) !! fd)).

Definition line_post (fd : Z) (r : rstate) (l : list item) (r' : rstate) : Prop :=
  line_ok (r_line r') /\ w_to (r_world r') = w_to (r_world r) /\ stream fd r' = l /\
  exists s, w_in (r_world r') = <[fd := s]> (w_in (r_world r)).

Lemma line_post_trans fd r r1 r2 l1 l2 : line_post fd r l1 r1 -> line_post fd r1 l2 r2 -> line_post fd r l2 r2.
Proof.
  intros (_ & Ht1 & _ & s1 & H1) (Hk & Ht2 & Hl & s2 & H2). split_and!; [done|congruence|done|].
  exists s2. by rewrite H2, H1, insert_insert_eq.
Qed.

Lemma pending_none l : rl_cnt l <= 0 -> pending l = [].
Proof. intros H. unfold pending, slice. by replace (Z.to_nat (rl_cnt l)) with 0%nat by lia. Qed.

Lemma splice_start (l bs : bytes) : splice l 0 bs = bs ++ drop (length bs) l.
Proof. done. Qed.

Lemma fill_spec fuel fd r s :
  w_in (r_world r) !! fd = Some s -> (rweight s + 1 < fuel)%nat -> line_ok (r_line r) -> 
  exists k r' s', Unp.fill fuel fd r = Ok k r' /\ line_ok (r_line r') /\ w_to (r_world r') = w_to (r_world r) /\
    w_in (r_world r') = <[fd := s']> (w_in (r_world r)) /\
    match items true s with
    | Byte c :: l => k = 1 /\ 0 < rl_cnt (r_line r') /\ (Byte <$> pending (r_line r')) ++ items true s' = items true s
    | _ => rl_cnt (r_line r') <= 0 /\ next_item (items true s) k 0 (w_errno (r_world r')) (items true s')
    end.
Proof.
  revert r s. induction fuel as [|fuel IH]; intros r s Hs Hf Hok; [lia|]. simpl.
  destruct (sys_read_does true fd MAXLINE (r_world r) s Hs ltac:(done)) as (got & w1 & s1 & E & Hw1 & Ht1 & _ & Hd & Hwt).
  assert (on_world (sys_read fd MAXLINE) r = Ok got (mkR (r_line r) w1)) as E1 by (unfold on_world; by rewrite E).
  rewrite (pbind_ok _ _ _ _ _ E1). pstep.
  assert (w_in w1 !! fd = Some s1) as Hs1 by (rewrite Hw1; apply lookup_insert_eq).
  remember (w_errno w1) as e1 eqn:He1. remember (items true s1) as l1 eqn:Hl1.
  destruct Hd as [_|e l' Hl Hne|l' Hl e|bs l' e Hbs Hlen Hl].
  - pstep. simpl. rewrite <- He1, Z.eqb_refl. destruct Hwt as [?|Hwt]; [done|].
    set (r1 := set_line _ _). destruct (IH r1 s1) as (k & r' & s' & E' & Hok' & Ht' & Hw' & Hr); [done|lia| |].
    { destruct Hok as (? & ? & ?). unfold r1, line_ok; simpl. split_and!; try done; lia. }
    exists k, r', s'. rewrite Hw', Ht'. subst r1. simpl. rewrite Hw1, Ht1, insert_insert_eq, Hl1. by split_and!.
  - pstep. simpl. rewrite <- He1. destruct (Z.eqb_spec e EINTR) as [->|]; [by destruct Hne|].
    eexists (-1), _, s1. split_and!; [reflexivity|..]; try done.
    + destruct Hok as (? & ? & ?). unfold line_ok; simpl. split_and!; try done; lia.
    + rewrite Hl. simpl. split_and!; [lia|done|done|by subst].
  - eexists 0, _, s1. split_and!; [reflexivity|..]; try done.
    + destruct Hok as (? & ? & ?). unfold line_ok; simpl. split_and!; try done; lia.
    + subst l'. by destruct Hl as [[-> Hl] | ->]; simpl; rewrite ?Hl.
  - destruct bs as [|c bs]; [done|]. eexists 1, _, s1. split_and!; [reflexivity|..]; try done.
    + destruct Hok as (Hb & Hp & Hc). unfold line_ok, zlen, MAXLINE in *. cbn [r_line set_line rl_buf rl_cnt rl_bufptr length] in *.
      rewrite splice_start, length_app, length_drop. cbn [length] in *. split_and!; lia.
    + rewrite Hl. csimpl. split_and!; [done|unfold zlen; simpl; lia|]. unfold pending, slice.
      cbn [r_line set_line rl_buf rl_cnt rl_bufptr]. rewrite splice_start. change (Z.to_nat 0) with 0%nat. rewrite drop_0, take_app_length' by (unfold zlen; lia). by subst.
Qed.

Lemma take_byte_spec fd r :
  line_ok (r_line r) -> 0 < rl_cnt (r_line r) -> is_Some (w_in (r_world r) !! fd) ->
  exists c r', Unp.take_byte r = Ok (1, c) r' /\ exists l, stream fd r = Byte c :: l /\ line_post fd r l r'.
Proof.
  intros (Hb & Hp & Hc) H0 [s Hs]. unfold Unp.take_byte. pstep. eexists _, _. split; [reflexivity|].
  specialize (Hc H0). unfold line_post, stream, pending, slice. cbn [r_line set_line rl_buf rl_cnt rl_bufptr r_world].
  destruct (lookup_lt_is_Some_2 (rl_buf (r_line r)) (Z.to_nat (rl_bufptr (r_line r)))) as [c Hl].
  { unfold zlen, MAXLINE in *. lia. }
  rewrite Hl. simpl default. rewrite (drop_S _ _ _ Hl).
  replace (Z.to_nat (rl_cnt (r_line r))) with (S (Z.to_nat (rl_cnt (r_line r) - 1))) by lia.
  replace (Z.to_nat (rl_bufptr (r_line r) + 1)) with (S (Z.to_nat (rl_bufptr (r_line r)))) by lia.
  csimpl. eexists. split; [reflexivity|]. split_and!; try done.
  - split_and!; simpl; [done|lia|lia].
  - exists s. by rewrite insert_id.
Qed.

Lemma my_read_spec fd r :
  line_ok (r_line r) -> is_Some (w_in (r_world r) !! fd) ->
  exists rc c r' l', Unp.my_read fd r = Ok (rc, c) r' /\ line_post fd r l' r' /\
    next_item (stream fd r) rc c (w_errno (r_world r')) l'.
Proof.
  intros Hok [s Hs]. unfold Unp.my_read. pstep. destruct (Z.leb_spec (rl_cnt (r_line r)) 0) as [Hc|Hc].
  - pstep. destruct (fill_spec (rfuel fd (r_world r)) fd r s Hs) as (k & r1 & s1 & E & Hok1 & Ht1 & Hw1 & Hr); [|done|].
    { unfold rfuel. rewrite Hs. simpl. lia. }
    assert (stream fd r = items true s) as Hst by (unfold stream; by rewrite (pending_none _ Hc), Hs).
    assert (w_in (r_world r1) !! fd = Some s1) as Hs1 by (rewrite Hw1; apply lookup_insert_eq).
    rewrite (pbind_ok _ _ _ _ _ E), Hst. destruct (items true s) as [|[c|e|] l] eqn:El.
    2: { destruct Hr as (-> & Hp & Hi). simpl.
         destruct (take_byte_spec fd r1 Hok1 Hp) as (c' & r2 & E2 & l2 & Hl2 & Hp2); [by eexists|].
         assert (stream fd r1 = Byte c :: l) as Hst1 by (unfold stream; by rewrite Hs1).
         rewrite Hst1 in Hl2. injection Hl2 as <- <-. exists 1, c, r2, l. split_and!; try done.
         eapply line_post_trans; [|exact Hp2]. split_and!; try done. by exists s1. }
    all: destruct Hr as (Hp & Hn); exists k, 0, r1, (items true s1);
      assert (stream fd r1 = items true s1) as Hst1 by (unfold stream; by rewrite (pending_none _ Hp), Hs1);
      assert ((k =? 1) = false) as Hk by (apply Z.eqb_neq; simpl in Hn; lia); rewrite Hk; split_and!; try done; (split_and!; try done; by exists s1).
  - destruct (take_byte_spec fd r Hok Hc) as (c & r' & E & l & Hl & Hp); [by eexists|].
    exists 1, c, r', l. by rewrite Hl.
Qed.

(** ** The loops of unpv13e and unpv22e *)

(** What [readline] of unpv13e/lib returns for a line of a stream. *)
Definition line_result (bs : bytes) (x : lend) : Z * bytes :=
  match x with
  | Newline => (zlen bs, bs ++ [NUL])
  | LEnd => (zlen bs, bs ++ [NUL])
  | LErr _ => (-1, bs)
  | LFull => (zlen bs + 1, bs ++ [NUL])
  end.

(** What those of unpv22e/lib and [readline_r] return. *)
Definition line_result22 (bs : bytes) (x : lend) : Z * bytes :=
  match x with
  | LEnd => match bs with [] => (0, []) | _ => (zlen bs + 1, bs ++ [NUL]) end
  | _ => line_result bs x
  end.

(** The reader after a line. *)
Definition after_line (fd : Z) (r : rstate) (x : lend) (l : list item) (r' : rstate) : Prop :=
  line_post fd r l r' /\ (forall e, x = LErr e -> w_errno (r_world r') = e).

Lemma after_line_trans fd r r1 r2 x l1 l2 :
  line_post fd r l1 r1 -> after_line fd r1 x l2 r2 -> after_line fd r x l2 r2.
Proof. intros H1 [H2 He]. split; [by eapply line_post_trans|done]. Qed.

Lemma line_post_refl fd r : line_ok (r_line r) -> is_Some (w_in (r_world r) !! fd) -> line_post fd r (stream fd r) r.
Proof. intros Hok [s Hs]. split_and!; try done. exists s. by rewrite insert_id. Qed.

Lemma line_post_some fd r l r' : line_post fd r l r' -> is_Some (w_in (r_world r') !! fd).
Proof. intros (_ & _ & _ & s & ->). rewrite lookup_insert_eq. by eexists. Qed.

(** [readline_loop] with [n - 1] bytes stored in [ptr]; the two versions
    differ in what they make of the end of file. *)
Section Loop.
Context (loop : nat -> Z -> Z -> Z -> bytes -> Prog rstate (Z * bytes)).
Context (result : bytes -> lend -> Z * bytes).
Hypothesis loop_eq : forall fuel fd n maxlen ptr r,
  n = zlen ptr + 1 ->
  loop (S fuel) fd n maxlen ptr r =
    (if n <? maxlen then
      do ' (rc, c) <- Unp.my_read fd;
      if rc =? 1 then
        if c =? CH_NEWLINE then pret (result (ptr ++ [c]) Newline)
        else loop fuel fd (n + 1) maxlen (ptr ++ [c])
      else if rc =? 0 then pret (result ptr LEnd)
      else pret (result ptr (LErr 0))
    else pret (result ptr LFull)) r.
Hypothesis result_err : forall bs e e', result bs (LErr e) = result bs (LErr e').

Lemma loop_spec fuel fd n maxlen ptr r :
  line_ok (r_line r) -> is_Some (w_in (r_world r) !! fd) -> n = zlen ptr + 1 -> (Z.to_nat (maxlen - n) < fuel)%nat ->
  let '(bs, x, l) := ref_line (Z.to_nat (maxlen - n)) (stream fd r) in
  exists r', loop fuel fd n maxlen ptr r = Ok (result (ptr ++ bs) x) r' /\ after_line fd r x l r'.
Proof.
  revert n ptr r. induction fuel as [|fuel IH]; intros n ptr r Hok Hs Hn Hf; [lia|]. rewrite loop_eq by done.
  destruct (Z.ltb_spec n maxlen) as [Hlt|Hge].
  2: { replace (Z.to_nat (maxlen - n)) with 0%nat by lia. simpl. exists r. rewrite app_nil_r. split; [done|].
       split; [by apply line_post_refl|done]. }
  destruct (my_read_spec fd r Hok Hs) as (rc & c & r1 & l1 & E & Hp & Hnext).
  destruct (Z.to_nat (maxlen - n)) as [|k] eqn:Ek; [lia|]. rewrite (pbind_ok _ _ _ _ _ E).
  destruct (stream fd r) as [|[b|e|] l0] eqn:Est; simpl in Hnext |- *.
  - destruct Hnext as [-> ->]. exists r1. rewrite app_nil_r. split; [done|]. by split.
  - destruct Hnext as (-> & -> & ->). simpl. destruct (Z.eqb_spec b CH_NEWLINE) as [->|Hb].
    { exists r1. split; [done|]. by split. }
    specialize (IH (n + 1) (ptr ++ [b]) r1 (proj1 Hp) (line_post_some _ _ _ _ Hp)).
    replace (Z.to_nat (maxlen - (n + 1))) with k in IH by lia.
    assert (stream fd r1 = l0) as Hst by apply Hp. rewrite Hst in IH.
    destruct (ref_line k l0) as [[bs x] l].
    destruct IH as (r2 & -> & Ha); [rewrite zlen_app; unfold zlen at 2; simpl; lia|lia|].
    exists r2. rewrite <- app_assoc. split; [done|]. by eapply after_line_trans.
  - destruct Hnext as (-> & He & ->). exists r1. rewrite app_nil_r. split; [by rewrite (result_err _ e 0)|].
    split; [done|]. by intros ? [= <-].
  - destruct Hnext as [-> ->]. exists r1. rewrite app_nil_r. split; [done|]. by split.
Qed.
End Loop.

Lemma unp_loop_eq fuel fd n maxlen ptr r :
  n = zlen ptr + 1 ->
  Unp.readline_loop (S fuel) fd n maxlen ptr r =
    (if n <? maxlen then
      do ' (rc, c) <- Unp.my_read fd;
      if rc =? 1 then
        if c =? CH_NEWLINE then pret (line_result (ptr ++ [c]) Newline)
        else Unp.readline_loop fuel fd (n + 1) maxlen (ptr ++ [c])
      else if rc =? 0 then pret (line_result ptr LEnd)
      else pret (line_result ptr (LErr 0))
    else pret (line_result ptr LFull)) r.
Proof.
  intros ->. cbn [Unp.readline_loop]. destruct (_ <? maxlen); [|done].
  apply pbind_cong; [done|]. intros [rc c] r1. cbn [line_result]. rewrite zlen_app, <- app_assoc, Z.add_simpl_r. done.
Qed.

Lemma unp22_loop_eq fuel fd n maxlen ptr r :
  n = zlen ptr + 1 ->
  Unp22.readline_loop (S fuel) fd n maxlen ptr r =
    (if n <? maxlen then
      do ' (rc, c) <- Unp.my_read fd;
      if rc =? 1 then
        if c =? CH_NEWLINE then pret (line_result22 (ptr ++ [c]) Newline)
        else Unp22.readline_loop fuel fd (n + 1) maxlen (ptr ++ [c])
      else if rc =? 0 then pret (line_result22 ptr LEnd)
      else pret (line_result22 ptr (LErr 0))
    else pret (line_result22 ptr LFull)) r.
Proof.
  intros ->. cbn [Unp22.readline_loop]. destruct (_ <? maxlen); [|done].
  apply pbind_cong; [done|]. intros [rc c] r1. cbn [line_result22 line_result]. rewrite zlen_app, <- app_assoc.
  destruct (rc =? 1); [done|]. destruct (rc =? 0); [|done]. destruct ptr as [|c' ptr]; [done|].
  pose proof (zlen_nonneg ptr). rewrite zlen_cons. destruct (Z.eqb_spec (1 + zlen ptr + 1) 1); [lia|done].
Qed.

Lemma unp_readline fd maxlen r :
  line_ok (r_line r) -> is_Some (w_in (r_world r) !! fd) ->
  let '(bs, x, l) := ref_line (Z.to_nat (maxlen - 1)) (stream fd r) in
  exists r', Unp.readline fd maxlen r = Ok (line_result bs x) r' /\ after_line fd r x l r'.
Proof.
  intros Hok Hs. apply (loop_spec Unp.readline_loop line_result unp_loop_eq (fun _ _ _ => eq_refl) _ fd 1 maxlen []); try done. lia.
Qed.

Lemma unp22_readline fd maxlen r :
  line_ok (r_line r) -> is_Some (w_in (r_world r) !! fd) ->
  let '(bs, x, l) := ref_line (Z.to_nat (maxlen - 1)) (stream fd r) in
  exists r', Unp22.readline fd maxlen r = Ok (line_result22 bs x) r' /\ after_line fd r x l r'.
Proof.
  intros Hok Hs. apply (loop_spec Unp22.readline_loop line_result22 unp22_loop_eq (fun _ _ _ => eq_refl) _ fd 1 maxlen []); try done. lia.
Qed.

(** ** The unbuffered readers *)

(** One byte, or what stands in its place, with interruptions retried. *)
Lemma read1_does fd w s :
  w_in w !! fd = Some s ->
  exists r w' s', sys_read fd 1 w = Ok r w' /\ w_in w' = <[fd := s']> (w_in w) /\ w_to w' = w_to w /\
    match r with
    | Some (c :: bs) => bs = [] /\ items true s = Byte c :: items true s' /\ (rweight s' < rweight s)%nat
    | Some [] => next_item (items true s) 0 0 0 (items true s')
    | None =>
        (w_errno w' = EINTR /\ items true s' = items true s /\ (rweight s' < rweight s)%nat) \/
        (w_errno w' <> EINTR /\ items true s = Err (w_errno w') :: items true s')
    end.
Proof.
  intros Hs. destruct (sys_read_does true fd 1 w s Hs ltac:(done)) as (r & w1 & s1 & E & Hw1 & Ht1 & _ & Hd & Hwt).
  exists r, w1, s1. split_and!; try done. remember (w_errno w1) as e1 eqn:He1. remember (items true s1) as l1 eqn:Hl1.
  destruct Hd as [_|e l' Hl Hne|l' Hl e|bs l' e Hbs Hlen Hl].
  - left. destruct Hwt; [done|]. by split_and!.
  - right. split; [by apply Hne|done].
  - by destruct Hl as [[-> ->] | ->].
  - destruct bs as [|c [|]]; [done| |simpl in Hlen; lia]. destruct Hwt; [done|]. by split_and!.
Qed.

(** [readline] of UNIX_Systems_Programming: a whole line, or nothing. *)
Definition usp_result (bs : bytes) (x : lend) : Z * bytes :=
  match x with
  | Newline => (zlen bs, bs ++ [NUL])
  | LEnd => match bs with [] => (0, []) | _ => (-1, bs) end
  | _ => (-1, bs)
  end.

Lemma usp_loop_spec fuel fd n nbytes buf w s :
  w_in w !! fd = Some s -> (rweight s + 1 < fuel)%nat -> n = zlen buf ->
  let '(bs, x, l) := ref_line (Z.to_nat (nbytes - 1 - n)) (items true s) in
  exists w' s', Usp.readline_loop fuel fd n nbytes buf w = Ok (usp_result (buf ++ bs) x) w' /\
    w_in w' = <[fd := s']> (w_in w) /\ items true s' = l.
Proof.
  revert n buf w s. induction fuel as [|fuel IH]; intros n buf w s Hs Hf Hn; [lia|]. cbn [Usp.readline_loop].
  destruct (Z.ltb_spec n (nbytes - 1)) as [Hlt|Hge].
  2: { replace (Z.to_nat (nbytes - 1 - n)) with 0%nat by lia. eexists _, s. rewrite app_nil_r. pstep.
       split; [reflexivity|]. by rewrite insert_id. }
  destruct (read1_does fd w s Hs) as (r & w1 & s1 & E & Hw1 & Ht1 & Hr). rewrite (pbind_ok _ _ _ _ _ E). pstep.
  assert (w_in w1 !! fd = Some s1) as Hs1 by (rewrite Hw1; apply lookup_insert_eq).
  destruct (Z.to_nat (nbytes - 1 - n)) as [|k] eqn:Ek; [lia|]. destruct r as [[|c bs]|].
  - assert (ref_line (S k) (items true s) = ([], LEnd, items true s1)) as ->.
    { destruct (items true s) as [|[]]; simpl in *; [by destruct Hr as [_ ->]|by destruct Hr|by destruct Hr|by destruct Hr as [_ ->]]. }
    rewrite app_nil_r. destruct buf as [|b buf]; subst n; [eexists _, s1; by split|]. simpl. eexists _, s1. by split.
  - destruct Hr as (-> & -> & Hwt). simpl. destruct (Z.eqb_spec c CH_NEWLINE) as [->|].
    { eexists _, s1. split; [|done]. f_equal. unfold usp_result. rewrite zlen_app, <- app_assoc. by subst n. }
    specialize (IH (n + 1) (buf ++ [c]) w1 s1 Hs1 ltac:(lia) ltac:(rewrite zlen_app; by subst n)).
    replace (Z.to_nat (nbytes - 1 - (n + 1))) with k in IH by lia.
    destruct (ref_line k (items true s1)) as [[bs x] l]. destruct IH as (w' & s' & -> & Hw' & Hl).
    exists w', s'. rewrite <- app_assoc, Hw', Hw1, insert_insert_eq. by split_and!.
  - destruct Hr as [(-> & Hi & Hwt)|(Hne%Z.eqb_neq & ->)].
    + rewrite Z.eqb_refl. specialize (IH n buf w1 s1 Hs1 ltac:(lia) Hn). rewrite Ek, Hi in IH.
      destruct (ref_line (S k) (items true s)) as [[bs x] l]. destruct IH as (w' & s' & -> & Hw' & Hl).
      exists w', s'. rewrite Hw', Hw1, insert_insert_eq. by split_and!.
    + rewrite Hne. eexists _, s1. simpl. rewrite app_nil_r. by split.
Qed.

(** Storing one byte of a line, then the others, as far as there is room. *)
Lemma take_more (c : Z) (line : bytes) (buf : bytes) k tot :
  tot = zlen buf ->
  take (Z.to_nat (k - tot)) [c] ++ take (Z.to_nat (k - zlen (buf ++ take (Z.to_nat (k - tot)) [c]))) line
  = take (Z.to_nat (k - tot)) (c :: line).
Proof.
  intros ->. destruct (Z.ltb_spec (zlen buf) k).
  - replace (Z.to_nat (k - zlen buf)) with (S (Z.to_nat (k - zlen buf - 1))) by lia. simpl. rewrite take_nil. simpl.
    do 2 f_equal. rewrite zlen_app. unfold zlen at 2. simpl. lia.
  - replace (Z.to_nat (k - zlen buf)) with 0%nat by lia. simpl. rewrite app_nil_r.
    by replace (Z.to_nat (k - zlen buf)) with 0%nat by lia.
Qed.

(** [readLine]: the first [n - 1] bytes of a line. *)
Definition tlpi_result (bs : bytes) (x : lend) : Z * bytes :=
  match x with
  | Newline => (zlen bs, bs ++ [NUL])
  | LEnd => match bs with [] => (0, []) | _ => (zlen bs, bs ++ [NUL]) end
  | _ => (-1, bs)
  end.

Lemma readLine_loop_spec fuel fd n tot buf w s :
  w_in w !! fd = Some s -> (rweight s < fuel)%nat -> tot = zlen buf ->
  let '(line, x, l) := ref_whole (items true s) in
  exists w' s', Tlpi.readLine_loop fuel fd n tot buf w
      = Ok (tlpi_result (buf ++ take (Z.to_nat (n - 1 - tot)) line) x) w' /\
    w_in w' = <[fd := s']> (w_in w) /\ items true s' = l.
Proof.
  revert tot buf w s. induction fuel as [|fuel IH]; intros tot buf w s Hs Hf Hn; [lia|]. cbn [Tlpi.readLine_loop].
  destruct (read1_does fd w s Hs) as (r & w1 & s1 & E & Hw1 & Ht1 & Hr). rewrite (pbind_ok _ _ _ _ _ E).
  assert (w_in w1 !! fd = Some s1) as Hs1 by (rewrite Hw1; apply lookup_insert_eq).
  destruct r as [[|c bs]|].
  - assert (ref_whole (items true s) = ([], LEnd, items true s1)) as ->.
    { destruct (items true s) as [|[]]; simpl in *; [by destruct Hr as [_ ->]|by destruct Hr|by destruct Hr|by destruct Hr as [_ ->]]. }
    rewrite firstn_nil, app_nil_r. eexists _, s1. split; [|done]. subst tot. by destruct buf.
  - destruct Hr as (-> & -> & Hwt). cbn [ref_whole].
    set (tb := if tot <? n - 1 then (tot + 1, buf ++ [c]) else (tot, buf)).
    assert (tb = (zlen (buf ++ take (Z.to_nat (n - 1 - tot)) [c]), buf ++ take (Z.to_nat (n - 1 - tot)) [c])) as ->.
    { unfold tb. destruct (Z.ltb_spec tot (n - 1)).
      - replace (Z.to_nat (n - 1 - tot)) with (S (Z.to_nat (n - 2 - tot))) by lia. simpl. rewrite take_nil, zlen_app. by subst tot.
      - replace (Z.to_nat (n - 1 - tot)) with 0%nat by lia. simpl. by rewrite app_nil_r, Hn. }
    set (buf1 := buf ++ take _ [c]). destruct (Z.eqb_spec c CH_NEWLINE) as [->|].
    { eexists _, s1. by split. }
    specialize (IH (zlen buf1) buf1 w1 s1 Hs1 ltac:(lia) eq_refl).
    destruct (ref_whole (items true s1)) as [[line x] l]. destruct IH as (w' & s' & -> & Hw' & Hl).
    exists w', s'. rewrite Hw', Hw1, insert_insert_eq. split; [|done]. do 2 f_equal. unfold buf1. rewrite <- app_assoc. f_equal.
    by apply take_more.
  - pstep. destruct Hr as [(-> & Hi & Hwt)|(Hne%Z.eqb_neq & ->)].
    + rewrite Z.eqb_refl. specialize (IH tot buf w1 s1 Hs1 ltac:(lia) Hn). rewrite Hi in IH.
      destruct (ref_whole (items true s)) as [[bs x] l]. destruct IH as (w' & s' & -> & Hw' & Hl).
      exists w', s'. rewrite Hw', Hw1, insert_insert_eq. by split_and!.
    + rewrite Hne. eexists _, s1. simpl. rewrite firstn_nil, app_nil_r. by split.
Qed.

(** ** The buffered line reader of tlpi-dist/sockets

    [readLineBuf] on the stream of its buffer and its descriptor, and its
    comparison with the unbuffered [readLine]. *)
Import Tlpi.


Definition buf_ok (l : ReadLineBuf) : Prop :=
  zlen (b_buf l) = RL_MAX_BUF /\ 0 <= b_next l /\ (b_next l < b_len l -> b_len l <= RL_MAX_BUF).

Definition bpending (l : ReadLineBuf) : bytes := slice (b_buf l) (b_next l) (b_len l - b_next l).

Definition bscript (b : bstate) : list revent := default [] (w_in (b_world b) !! b_fd (b_line b)).

(** Interruptions are not retried: they are errors of the stream. *)
Definition bstream (b : bstate) : list item := (Byte <$> bpending (b_line b)) ++ items false (bscript b).

(** A good buffer on an open descriptor. *)
Definition bgood (b : bstate) : Prop := buf_ok (b_line b) /\ is_Some (w_in (b_world b) !! b_fd (b_line b)).

Definition bweight (b : bstate) : nat := (length (bpending (b_line b)) + rweight (bscript b))%nat.

Lemma refill_spec b :
  bgood b ->
  exists stop b', refill b = Ok stop b' /\ bgood b' /\ b_fd (b_line b') = b_fd (b_line b) /\
    (bweight b' <= bweight b)%nat /\
    match stop with
    | None => bstream b' = bstream b /\ b_next (b_line b') < b_len (b_line b')
    | Some err => exists l, next_item (bstream b) (if err : bool then -1 else 0) 0 (w_errno (b_world b')) l /\ bstream b' = l
    end.
Proof.
  intros [(Hb & H0 & Hl) [s Hs]]. unfold refill. pstep. destruct (Z.leb_spec (b_len (b_line b)) (b_next (b_line b))) as [Hle|Hgt].
  2: { exists None, b. by split_and!. }
  assert (bpending (b_line b) = []) as Hp.
  { unfold bpending, slice. by replace (Z.to_nat (b_len (b_line b) - b_next (b_line b))) with 0%nat by lia. }
  assert (bscript b = s) as Hsc by (unfold bscript; by rewrite Hs).
  assert (bstream b = items false s) as Hst by (unfold bstream; by rewrite Hp, Hsc).
  destruct (sys_read_does false _ RL_MAX_BUF _ s Hs ltac:(done)) as (got & w1 & s1 & E & Hw1 & Ht1 & _ & Hd & Hwt).
  assert (on_bworld (sys_read (b_fd (b_line b)) RL_MAX_BUF) b = Ok got (mkB (b_line b) w1)) as E1 by (unfold on_bworld; by rewrite E).
  rewrite (pbind_ok _ _ _ _ _ E1). assert (w_in w1 !! b_fd (b_line b) = Some s1) as Hs1 by (rewrite Hw1; apply lookup_insert_eq).
  assert (forall nx le, le <= nx -> bpending (mkRlb (b_fd (b_line b)) (b_buf (b_line b)) nx le) = []) as Hnil.
  { intros nx le Hx. unfold bpending, slice. simpl. by replace (Z.to_nat (le - nx)) with 0%nat by lia. }
  unfold bweight. rewrite Hp, Hsc, Hst. remember (w_errno w1) as e1 eqn:He1. remember (items false s1) as l1 eqn:Hl1.
  destruct Hd as [?|e l' Hi Hne|l' Hi e|bs l' e Hbs Hlen Hi]; [done|..].
  - eexists (Some true), _. pstep. split; [reflexivity|]. unfold bgood, buf_ok, bstream, bscript. simpl. rewrite Hnil by lia. rewrite Hs1. simpl.
    split_and!; [done|done|simpl; lia|by eexists|done|destruct Hwt; [done|lia]|]. exists l'. rewrite Hi. by split_and!.
  - eexists (Some false), _. pstep. split; [reflexivity|]. unfold bgood, buf_ok, bstream, bscript. simpl. rewrite Hnil by lia. rewrite Hs1. simpl.
    pose proof (sys_read_weight _ _ _ _ _ _ _ Hs E Hs1). simpl in *.
    split_and!; [done|done|simpl; lia|by eexists|done|lia|]. exists l'. by destruct Hi as [[-> ->] | ->].
  - pose proof (sys_read_weight _ _ _ _ _ _ _ Hs E Hs1) as Hwt'. destruct bs as [|c bs]; [done|].
    eexists None, _. pstep. split; [reflexivity|]. unfold bgood, buf_ok, bstream, bscript, bpending, slice.
    cbn [b_line b_world b_fd b_buf b_next b_len set_bline]. rewrite Hs1, splice_start, Z.sub_0_r.
    change (Z.to_nat 0) with 0%nat. rewrite drop_0, take_app_length' by (unfold zlen; lia). unfold zlen in *.
    rewrite length_app, length_drop. unfold RL_MAX_BUF in *. cbn [length default] in *. split_and!; try done; try lia.
    unfold id. by rewrite <- Hl1, Hi.
Qed.

(** The byte that is taken. *)
Lemma btake b :
  bgood b -> b_next (b_line b) < b_len (b_line b) ->
  exists c l, b_buf (b_line b) !! Z.to_nat (b_next (b_line b)) = Some c /\ bstream b = Byte c :: l /\
    let b' := set_bline (mkRlb (b_fd (b_line b)) (b_buf (b_line b)) (b_next (b_line b) + 1) (b_len (b_line b))) b in
    bgood b' /\ bstream b' = l /\ (bweight b' < bweight b)%nat.
Proof.
  intros [(Hb & H0 & Hl) Hs] Hlt. specialize (Hl Hlt).
  destruct (lookup_lt_is_Some_2 (b_buf (b_line b)) (Z.to_nat (b_next (b_line b)))) as [c Hc].
  { unfold zlen, RL_MAX_BUF in *. lia. }
  assert (bpending (b_line b) = c :: slice (b_buf (b_line b)) (b_next (b_line b) + 1) (b_len (b_line b) - (b_next (b_line b) + 1))) as Hp.
  { unfold bpending, slice. rewrite (drop_S _ _ _ Hc).
    replace (Z.to_nat (b_len (b_line b) - b_next (b_line b))) with (S (Z.to_nat (b_len (b_line b) - (b_next (b_line b) + 1)))) by lia.
    by replace (Z.to_nat (b_next (b_line b) + 1)) with (S (Z.to_nat (b_next (b_line b)))) by lia. }
  eexists c, _. split_and!; [done|unfold bstream; rewrite Hp; reflexivity|]. cbv zeta. split_and!; [|done|].
  - split; [|done]. unfold buf_ok. simpl. split_and!; [done|lia|lia].
  - unfold bweight. rewrite Hp. unfold bpending, bscript. cbn [b_line b_world b_fd b_buf b_next b_len set_bline length]. lia.
Qed.

Definition buf_result (bs : bytes) (x : lend) : Z * bytes :=
  match x with LErr _ => (-1, bs) | _ => (zlen bs, bs) end.

Lemma readLineBuf_loop_spec fuel n cnt buf b :
  bgood b -> (bweight b < fuel)%nat -> cnt = zlen buf ->
  let '(line, x, l) := ref_whole (bstream b) in
  exists b', readLineBuf_loop fuel n cnt buf b = Ok (buf_result (buf ++ take (Z.to_nat (n - cnt)) line) x) b' /\
    bgood b' /\ b_fd (b_line b') = b_fd (b_line b) /\ bstream b' = l.
Proof.
  revert cnt buf b. induction fuel as [|fuel IH]; intros cnt buf b Hg Hf Hn; [lia|]. cbn [readLineBuf_loop].
  destruct (refill_spec b Hg) as (stop & b1 & E & Hg1 & Hfd1 & Hw1 & Hr). rewrite (pbind_ok _ _ _ _ _ E).
  destruct stop as [err|].
  - destruct Hr as (l & Hx & Hl). destruct err, (bstream b) as [|[c|e|] l0]; simpl in Hx |- *; destruct Hx as [? Hx]; try done;
      exists b1; rewrite take_nil, app_nil_r, Hl; subst; [by destruct Hx as [_ ->]|done|done].
  - destruct Hr as [Hst Hlt]. rewrite <- Hst. destruct (btake b1 Hg1 Hlt) as (c & l & Hc & Hs1 & Hg2 & Hs2 & Hw2).
    pstep. rewrite Hc, Hs1. change (default 0 (Some c)) with c. cbn [ref_whole].
    set (b2 := set_bline _ b1) in *. set (tb := if cnt <? n then (cnt + 1, buf ++ [c]) else (cnt, buf)).
    assert (tb = (zlen (buf ++ take (Z.to_nat (n - cnt)) [c]), buf ++ take (Z.to_nat (n - cnt)) [c])) as ->.
    { unfold tb. destruct (Z.ltb_spec cnt n).
      - replace (Z.to_nat (n - cnt)) with (S (Z.to_nat (n - cnt - 1))) by lia. simpl. rewrite take_nil, zlen_app. by subst cnt.
      - replace (Z.to_nat (n - cnt)) with 0%nat by lia. simpl. by rewrite app_nil_r, Hn. }
    set (buf1 := buf ++ take (Z.to_nat (n - cnt)) [c]). destruct (Z.eqb_spec c CH_NEWLINE) as [->|].
    { by exists b2. }
    specialize (IH (zlen buf1) buf1 b2 Hg2 ltac:(lia) eq_refl). rewrite Hs2 in IH.
    destruct (ref_whole l) as [[line x] l']. destruct IH as (b' & E' & Hg' & Hfd' & Hl'). exists b'.
    split_and!; [|done|by rewrite Hfd'|done].
    rewrite E'. do 2 f_equal. unfold buf1. rewrite <- app_assoc. f_equal. by apply take_more.
Qed.

Lemma bfuel_enough b : (bweight b < bfuel b)%nat.
Proof.
  unfold bweight, bfuel, bpending, bscript, rfuel, slice. rewrite length_take. lia.
Qed.
