(* ===== verification/IoProps.v ===== *)
(** * The properties of the input and output routines *)
From S2P Require Import Prelude Posix CString IoFd IoReadn IoGather IoLine IoLineThms.

Open Scope prog_scope.

(** ** Reading and writing a given number of bytes *)

(** The rest of the stream of [fd]. *)
Definition rest_is (restart : bool) (fd : Z) (w : world) (l : list item) : Prop :=
  items restart <$> w_in w !! fd = Some l.

Lemma read_post_rest restart fd w x l w' : read_post restart fd w x l w' -> rest_is restart fd w' l.
Proof. intros ((s & Hs & Hl) & _). unfold rest_is. rewrite Hs, lookup_insert_eq. by rewrite <- Hl. Qed.

(** The value of [readblock]. *)
Definition block_value (x : ending) (bs : bytes) : Z :=
  match x, bs with AtErr _, _ => -1 | AtEnd, _ :: _ => -1 | _, _ => zlen bs end.

Lemma block_result_ok x bs w :
  exists w', block_result (x, bs) w = Ok (block_value x bs, bs) w' /\ w_in w' = w_in w /\
    (x = AtEnd -> bs <> [] -> w_errno w' = EINVAL).
Proof. destruct x, bs; (eexists; split; [reflexivity|]); done. Qed.

(** Reading [n] bytes.  However the bytes arrive and wherever reads are
    interrupted, [readn] of unpv13e and of tlpi-dist store the next [n]
    bytes of the stream, or those before the end of file, and return their
    number, or -1 at an error; [readblock] returns [n], 0 at the end of
    file, and -1 with EINVAL for a part of a block; [readn] of apue stops at
    an interruption and returns the bytes it has, -1 when it has none.
    Nothing that was not stored is taken from the stream. *)
Theorem readn_spec fd n w s :
  w_in w !! fd = Some s -> 0 <= n ->
  (let '(bs, x, l) := ref_read (Z.to_nat n) (items true s) in
   (exists w', IoReadn.Unp.readn fd n w = Ok (count_or_error (x, bs)) w' /\ rest_is true fd w' l) /\
   (exists w', IoReadn.Tlpi.readn fd n w = Ok (count_or_error (x, bs)) w' /\ rest_is true fd w' l) /\
   (exists w', IoReadn.Usp.readblock fd n w = Ok (block_value x bs, bs) w' /\ rest_is true fd w' l /\
      (x = AtEnd -> bs <> [] -> w_errno w' = EINVAL))) /\
  (let '(bs, x, l) := ref_read (Z.to_nat n) (items false s) in
   exists w', Apue.readn fd n w = Ok (count_or_first_error (x, bs)) w' /\ rest_is false fd w' l).
Proof.
  intros Hs Hn. split.
  - pose proof (gather_run true fd n w s Hs Hn) as Hg. destruct (ref_read _ _) as [[bs x] l].
    destruct Hg as (w' & E & Hp). pose proof (read_post_rest _ _ _ _ _ _ Hp) as Hl.
    unfold IoReadn.Unp.readn, IoReadn.Tlpi.readn, IoReadn.Usp.readblock. pstep. split_and!.
    + exists w'. rewrite unp_gather by (rewrite zlen_nil; lia). by rewrite (pbind_ok _ _ _ _ _ E).
    + exists w'. rewrite tlpi_gather by done. rewrite Z.sub_0_r. by rewrite (pbind_ok _ _ _ _ _ E).
    + rewrite readblock_gather by done. rewrite (pbind_ok _ _ _ _ _ E).
      destruct (block_result_ok x bs w') as (w2 & -> & Hi & He). exists w2. split_and!; try done. unfold rest_is. by rewrite Hi.
  - pose proof (gather_run false fd n w s Hs Hn) as Hg. destruct (ref_read _ _) as [[bs x] l].
    destruct Hg as (w' & E & Hp). exists w'. split; [|by eapply read_post_rest]. unfold Apue.readn. pstep.
    rewrite apue_gather by (rewrite zlen_nil; lia). by rewrite (pbind_ok _ _ _ _ _ E).
Qed.

(** Five bytes that arrive in two pieces with an interruption between. *)
Definition pieces : list revent := [Data 97 [98]; Intr; Data 99 [100; 101]].
Definition pieces_world : world := mkWorld {[3 := pieces]} {[4 := ([WIntr; Room 0; Room 1], [])]} 0.

Lemma readn_spec_witness :
  (exists w', IoReadn.Unp.readn 3 4 pieces_world = Ok (4, [97; 98; 99; 100]) w' /\ rest_is true 3 w' [Byte 101]) /\
  (exists w', Apue.readn 3 4 pieces_world = Ok (2, [97; 98]) w' /\ rest_is false 3 w' [Byte 99; Byte 100; Byte 101]).
Proof.
  pose proof (readn_spec 3 4 pieces_world pieces eq_refl ltac:(lia)) as [[H _] H'].
  split; [exact H|exact H'].
Defined.

(** What a [writen] has done: the first [k] bytes are written. *)
Definition wrote (fd : Z) (w : world) (buf : bytes) (k : Z) (w' : world) : Prop :=
  0 <= k <= zlen buf /\ write_post fd w (take (Z.to_nat k) buf) w'.

Lemma scatter_run again fd buf w s o :
  w_to w !! fd = Some (s, o) ->
  exists r left k w', scatter again (wfuel fd w) fd buf w = Ok (r, left) w' /\ wrote fd w buf k w' /\
    zlen left = zlen buf - k /\ (r = 1 <-> k = zlen buf) /\ (r <= 0 -> k < zlen buf) /\ r <= 1 /\
    (Forall (passes again) s -> k = zlen buf).
Proof.
  intros Hs. destruct (scatter_spec again (wfuel fd w) fd buf w s o Hs) as (r & out & left & w' & E & Hb & Hp & Hl & H1 & H0 & HF).
  { unfold wfuel. rewrite Hs. change (default ([], []) (Some (s, o))) with (s, o). cbn [fst]. lia. }
  assert (zlen buf = zlen out + zlen left) as Hz by (rewrite Hb; apply zlen_app).
  assert (left = [] <-> zlen left = 0) as Hll by (destruct left; unfold zlen; simpl; split; try done; lia).
  pose proof (zlen_nonneg out). pose proof (zlen_nonneg left).
  exists r, left, (zlen out), w'. split_and!; try done; try lia; try (intros; lia || tauto).
  - split; [lia|]. unfold zlen. by rewrite Nat2Z.id, Hb, take_app_length.
  - rewrite <- Hl, Hll. lia.
  - intros ?%H0. rewrite Hll in *. lia.
  - intros ?%HF%Hl%Hll. lia.
Qed.

(** Writing [n] bytes.  [writen] of unpv13e, unpv22e and tlpi-dist and
    [r_write] return [n] exactly when all [n] bytes have been written, and
    -1 otherwise, a first part having been written; interruptions do not
    count ([passes] says what each version gets over; [r_write] also gets
    over writes of 0 bytes).  [writen] of apue returns how much was written,
    or -1 when the first write fails. *)
Theorem writen_spec fd buf w s o :
  w_to w !! fd = Some (s, o) ->
  (exists k w', IoReadn.Unp.writen fd buf w = Ok (if k =? zlen buf then zlen buf else -1) w' /\ wrote fd w buf k w' /\
     (Forall (passes if_intr) s -> k = zlen buf)) /\
  (exists k w', IoReadn.Unp22.writen fd buf w = Ok (if k =? zlen buf then zlen buf else -1) w' /\ wrote fd w buf k w' /\
     (Forall (passes if_errno_intr) s -> k = zlen buf)) /\
  (exists k w', IoReadn.Tlpi.writen fd buf w = Ok (if k =? zlen buf then zlen buf else -1) w' /\ wrote fd w buf k w' /\
     (Forall (passes if_intr) s -> k = zlen buf)) /\
  (exists k w', IoReadn.Usp.r_write fd buf w = Ok (if k =? zlen buf then zlen buf else -1) w' /\ wrote fd w buf k w' /\
     (Forall (passes if_zero_or_intr) s -> k = zlen buf)) /\
  (exists r k w', Apue.writen fd buf w = Ok r w' /\ wrote fd w buf k w' /\
     (r = k \/ r = -1 /\ k = 0 /\ 0 < zlen buf) /\ (Forall (passes never) s -> k = zlen buf)).
Proof.
  intros Hs.
  assert (forall r k, (r = 1 <-> k = zlen buf) -> (if r =? 1 then zlen buf else -1) = (if k =? zlen buf then zlen buf else -1)) as Hr.
  { intros r k H. by destruct (Z.eqb_spec r 1), (Z.eqb_spec k (zlen buf)); try tauto. }
  unfold IoReadn.Unp.writen, IoReadn.Unp22.writen, IoReadn.Tlpi.writen, IoReadn.Usp.r_write, Apue.writen. pstep. split_and!.
  - destruct (scatter_run if_intr fd buf w s o Hs) as (r & left & k & w' & E & Hw & _ & H1 & _ & _ & HF).
    exists k, w'. rewrite unp_scatter, (pbind_ok _ _ _ _ _ E). simpl. rewrite (Hr r k H1). done.
  - destruct (scatter_run if_errno_intr fd buf w s o Hs) as (r & left & k & w' & E & Hw & _ & H1 & _ & _ & HF).
    exists k, w'. rewrite unp22_scatter, (pbind_ok _ _ _ _ _ E). simpl. rewrite (Hr r k H1). done.
  - destruct (scatter_run if_intr fd buf w s o Hs) as (r & left & k & w' & E & Hw & _ & H1 & _ & _ & HF).
    exists k, w'. pose proof (tlpi_scatter (wfuel fd w) fd (zlen buf) buf w) as Ht. rewrite Z.sub_diag in Ht.
    rewrite Ht, (pbind_ok _ _ _ _ _ E). simpl. rewrite (Hr r k H1). done.
  - destruct (scatter_run if_zero_or_intr fd buf w s o Hs) as (r & left & k & w' & E & Hw & _ & H1 & _ & _ & HF).
    exists k, w'. pose proof (usp_scatter (wfuel fd w) fd (zlen buf) buf w) as Ht. rewrite Z.sub_diag in Ht.
    rewrite Ht, (pbind_ok _ _ _ _ _ E). simpl. rewrite (Hr r k H1). done.
  - destruct (scatter_run never fd buf w s o Hs) as (r & left & k & w' & E & Hw & Hl & H1 & H2 & H3 & HF).
    eexists _, k, w'. rewrite apue_scatter, (pbind_ok _ _ _ _ _ E) by lia. split_and!; [reflexivity|done| |done].
    cbn [fst snd]. rewrite Hl. destruct Hw as [Hk _].
    destruct (Z.ltb_spec r 0), (Z.eqb_spec (zlen buf - k) (zlen buf)); simpl; lia.
Qed.

Lemma writen_spec_witness :
  exists k w', IoReadn.Unp.writen 4 [1; 2; 3; 4; 5] pieces_world = Ok (if k =? 5 then 5 else -1) w' /\
    wrote 4 pieces_world [1; 2; 3; 4; 5] k w' /\ k = 5.
Proof.
  destruct (writen_spec 4 [1; 2; 3; 4; 5] pieces_world [WIntr; Room 0; Room 1] [] eq_refl) as ((k & w' & E & Hw & HF) & _).
  exists k, w'. split_and!; [exact E|exact Hw|]. apply HF. repeat constructor.
Defined.

(** [copyfile] writes every byte that comes before the end of the input
    (or before an error, which it does not report) and returns their number,
    for a number that an [int] holds, however the bytes arrive, are taken and
    are interrupted. *)
Theorem copyfile_copies fromfd tofd w s :
  w_in w !! fromfd = Some s -> all_pass tofd w -> zlen (until_end (items true s)) < 2 ^ 31 ->
  exists w', IoReadn.Usp.copyfile fromfd tofd w = Ok (zlen (until_end (items true s))) w' /\
    written tofd w' = written tofd w ++ until_end (items true s).
Proof.
  intros Hs Ho Hb. unfold IoReadn.Usp.copyfile. pstep. apply (copy_loop_spec _ fromfd tofd 0 w s); try done.
  unfold rfuel. rewrite Hs. simpl. lia.
Qed.

Lemma copyfile_copies_witness :
  exists w', IoReadn.Usp.copyfile 3 4 pieces_world = Ok 5 w' /\ written 4 w' = [97; 98; 99; 100; 101].
Proof.
  apply (copyfile_copies 3 4 pieces_world pieces); [reflexivity| |vm_compute; reflexivity].
  eexists _, _. split; [reflexivity|]. repeat constructor.
Defined.

(** ** Reading lines *)

(** The state of the line reader of thread [t]. *)
Definition tsd_state (t : nat) (s : Tsd.tstate) : rstate :=
  mkR (default Tsd.calloc_rline (Tsd.t_tsd s !! t)) (Tsd.t_world s).

Definition caller_state (x : Caller.Rline_r * world) : rstate := mkR (Caller.rr_line x.1) x.2.

Definition open_reader (fd : Z) (r : rstate) : Prop := line_ok (r_line r) /\ is_Some (w_in (r_world r) !! fd).

(** Reading lines.  For a reader with a good buffer, the next line of
    the stream (what is buffered, then what the descriptor has) is stored
    and the rest of the stream is kept: [line_result] says what
    unpv13e/lib and, on the buffer of the calling thread with the buffers of
    the other threads unchanged, unpv13e/threads return, [line_result22]
    what unpv22e/lib and [readline_r] return.  The number returned is the
    number of bytes of the line when it ends in a newline; it is one more
    than that for a line that does not fit, and in unpv22e/lib and
    [readline_r] also for a last line without a newline. *)
Theorem readline_spec fd maxlen r t s x :
  open_reader fd r -> tsd_state t s = r -> Caller.read_fd x.1 = fd -> Caller.read_maxlen x.1 = maxlen -> caller_state x = r ->
  let '(bs, e, l) := ref_line (Z.to_nat (maxlen - 1)) (stream fd r) in
  (exists r', IoLine.Unp.readline fd maxlen r = Ok (line_result bs e) r' /\ after_line fd r e l r') /\
  (exists r', IoLine.Unp22.readline fd maxlen r = Ok (line_result22 bs e) r' /\ after_line fd r e l r') /\
  (exists s', Tsd.readline t fd maxlen s = Ok (line_result bs e) s' /\ after_line fd r e l (tsd_state t s') /\
     forall t', t' <> t -> Tsd.t_tsd s' !! t' = Tsd.t_tsd s !! t') /\
  (exists x', Caller.readline_r x = Ok (line_result22 bs e) x' /\ after_line fd r e l (caller_state x')).
Proof.
  intros [Hok Hs] Ht Hfd Hm Hx. pose proof (unp_readline fd maxlen r Hok Hs) as H1.
  pose proof (unp22_readline fd maxlen r Hok Hs) as H2. destruct (ref_line _ _) as [[bs e] l].
  destruct H1 as (r1 & E1 & A1), H2 as (r2 & E2 & A2). split_and!; [by eexists|by eexists|..].
  - unfold Tsd.readline, IoLine.Unp.readline in *. unfold tsd_state in Ht. rewrite Ht, E1. eexists. split; [reflexivity|].
    unfold tsd_state. simpl. rewrite lookup_insert_eq. split; [by destruct r1|]. intros t' Hne. by rewrite lookup_insert_ne.
  - destruct x as [p w]. unfold Caller.readline_r, IoLine.Unp22.readline in *. unfold caller_state in Hx. simpl in *.
    rewrite Hfd, Hm, Hx, E2. eexists. split; [reflexivity|]. by destruct r2.
Qed.

(** Nothing buffered; "ab" and the end of file. *)
Definition fresh : Rline := Tsd.calloc_rline.
Definition short_world : world := mkWorld {[3 := [Data 97 [98]]]} ∅ 0.

Lemma fresh_ok : line_ok fresh.
Proof. split_and!; simpl; [vm_compute; reflexivity|lia|lia]. Qed.

Lemma readline_spec_witness :
  (exists r', IoLine.Unp.readline 3 10 (mkR fresh short_world) = Ok (2, [97; 98; 0]) r' /\
     after_line 3 (mkR fresh short_world) LEnd [] r') /\
  (exists r', IoLine.Unp22.readline 3 10 (mkR fresh short_world) = Ok (3, [97; 98; 0]) r' /\
     after_line 3 (mkR fresh short_world) LEnd [] r').
Proof.
  pose proof (readline_spec 3 10 (mkR fresh short_world) 1 (Tsd.mkT ∅ short_world)
    (Caller.mkRr 3 10 fresh, short_world)) as H.
  assert (open_reader 3 (mkR fresh short_world)) as Hr.
  { split; [apply fresh_ok|eexists; reflexivity]. }
  specialize (H Hr eq_refl eq_refl eq_refl eq_refl).
  destruct H as (H1 & H2 & _). split; [exact H1|exact H2].
Defined.

(** C13: [readLineBuf] is a buffered [readLine].  When both have the same
    stream to read (in particular one without interruptions, which
    [readLineBuf] does not retry), [readLineBuf] with a buffer of [n] bytes
    and [readLine] with one of [n + 1] return the same number and store the
    same bytes, but for the terminating null of [readLine], and then again
    have the same stream: they stay in step over any number of calls. *)
Theorem readLineBuf_refines fd n w s b :
  w_in w !! fd = Some s -> 1 <= n -> bgood b -> bstream b = items true s ->
  exists r bs w' s' b',
    IoLine.Tlpi.readLine fd false (n + 1) w = Ok (r, bs ++ if 0 <? r then [NUL] else []) w' /\
    IoLine.Tlpi.readLineBuf false n b = Ok (r, bs) b' /\ zlen bs <= n /\
    w_in w' !! fd = Some s' /\ bgood b' /\ bstream b' = items true s'.
Proof.
  intros Hs Hn Hg Hst. unfold IoLine.Tlpi.readLine, IoLine.Tlpi.readLineBuf.
  rewrite !(proj2 (Z.leb_gt _ _)) by lia. cbn [orb]. pstep.
  pose proof (readLine_loop_spec (rfuel fd w) fd (n + 1) 0 [] w s Hs) as H1.
  pose proof (readLineBuf_loop_spec (IoLine.Tlpi.bfuel b) n 0 [] b Hg) as H2. rewrite Hst in H2.
  replace (n + 1 - 1 - 0) with (n - 0) in H1 by lia. rewrite !Z.sub_0_r in *.
  pose proof (ref_whole_end (items true s)) as He. destruct (ref_whole (items true s)) as [[line x] l].
  destruct H1 as (w' & s' & -> & Hw' & Hl'); [unfold rfuel; rewrite Hs; simpl; lia|done|].
  destruct H2 as (b' & -> & Hg' & _ & Hs'); [apply bfuel_enough|done|].
  exists (buf_result (take (Z.to_nat n) line) x).1, (take (Z.to_nat n) line), w', s', b'.
  assert (zlen (take (Z.to_nat n) line) <= n) as Hlen by (unfold zlen; rewrite length_take; lia).
  cbn [app]. split_and!; [|by destruct x|done|by rewrite Hw', lookup_insert_eq|done|congruence].
  f_equal. destruct He as [Hf Hnl]. destruct x; simpl; [|done| |by rewrite app_nil_r].
  - destruct line as [|c line]; [by destruct Hnl|]. replace (Z.to_nat n) with (S (Z.to_nat (n - 1))) by lia.
    done.
  - destruct (take (Z.to_nat n) line) as [|c bs]; done.
Qed.

(** A fresh buffer on descriptor 3. *)
Definition fresh_buf : IoLine.Tlpi.bstate :=
  IoLine.Tlpi.mkB (IoLine.Tlpi.readLineBufInit 3 (IoLine.Tlpi.mkRlb 0 (replicate 10 0) 7 9)) short_world.

Lemma readLineBuf_refines_witness :
  exists r bs w' s' b',
    IoLine.Tlpi.readLine 3 false 6 short_world = Ok (r, bs ++ if 0 <? r then [NUL] else []) w' /\
    IoLine.Tlpi.readLineBuf false 5 fresh_buf = Ok (r, bs) b' /\ zlen bs <= 5 /\
    w_in w' !! 3 = Some s' /\ bgood b' /\ bstream b' = items true s'.
Proof.
  apply (readLineBuf_refines 3 5 short_world [Data 97 [98]] fresh_buf).
  - reflexivity.
  - lia.
  - split; [|eexists; reflexivity]. split_and!; simpl; [reflexivity|lia|lia].
  - reflexivity.
Defined.
