(* ===== verification/Xfer.v ===== *)
(** * A transfer through shared memory (tlpi-dist/svshm)

    svshm_xfr_writer.c and svshm_xfr_reader.c take turns on a shared segment
    with the binary semaphores of tlpi-dist/svsem/binary_sems.c.  Each
    process is a sequence of statements; a step executes one statement of
    one process.  The reader starts when the writer has made the semaphores
    and the segment; attaching and detaching the segment and removing it
    succeed. *)
From S2P Require Import Prelude Posix IoFd.

Open Scope prog_scope.

(** ** Binary semaphores *)

(** A set of semaphores, gone after IPC_RMID. *)
Record semset := mkSet { ss_alive : bool; ss_val : gmap Z Z }.

Definition EIDRM : Z := 43.

Definition semctl_setval (semNum v : Z) : Prog semset Z :=
  do alive <- get ss_alive;
  if alive then run put (fun s => mkSet (ss_alive s) (<[semNum := v]> (ss_val s))); pret 0
  else pret (-1).

(** [semop] with one operation on one semaphore: it blocks rather than make
    the value negative. *)
Definition semop1 (semNum op : Z) : Prog semset (call Z) :=
  do s <- get id;
  if negb (ss_alive s) then pret (Ret (-1))
  else
    let v := default 0 (ss_val s !! semNum) + op in
    if v <? 0 then pret Wait
    else run put (fun s => mkSet (ss_alive s) (<[semNum := v]> (ss_val s))); pret (Ret 0).

Definition initSemAvailable (semNum : Z) : Prog semset Z := semctl_setval semNum 1.
Definition initSemInUse (semNum : Z) : Prog semset Z := semctl_setval semNum 0.

(** [intr]: the number of calls of [semop] that a signal interrupts. *)
Fixpoint reserveSem (bsRetryOnEintr : bool) (semNum : Z) (intr : nat) : Prog semset (call Z) :=
  match intr with
  | S intr => if bsRetryOnEintr then reserveSem bsRetryOnEintr semNum intr else pret (Ret (-1))
  | O => semop1 semNum (-1)
  end.

Definition releaseSem (semNum : Z) : Prog semset (call Z) := semop1 semNum 1.

(** ** The shared segment *)
Definition WRITE_SEM : Z := 0.
Definition READ_SEM : Z := 1.
Definition BUF_SIZE : Z := 1024.

Record shmseg := mkSeg { cnt : Z; sbuf : bytes }.

(** The statements of the writer and of the reader. *)
Inductive wpc := WReserve | WRead | WRelease | WTest | WLast | WRemove | WExit (ok : bool).
Inductive rpc := RReserve | RTest | RWrite | RRelease | RDetach | RFinal | RExit (ok : bool).

Record xfer := mkX {
  x_sems : semset; x_shm : shmseg; x_world : world;
  w_pc : wpc; w_xfrs : Z; w_bytes : Z;
  r_pc : rpc; r_xfrs : Z; r_bytes : Z
}.

Definition STDIN_FILENO : Z := 0.
Definition STDOUT_FILENO : Z := 1.

Section Step.
(** The interruptions of the next [reserveSem]. *)
Context (intr : nat).

(** One statement of the writer's main; an error ends the process. *)
Definition writer_step (x : xfer) : option xfer :=
  let set_w p := mkX (x_sems x) (x_shm x) (x_world x) p (w_xfrs x) (w_bytes x) (r_pc x) (r_xfrs x) (r_bytes x) in
  let sems m next :=
    match m (x_sems x) with
    | Ok (Ret rc) s => Some (mkX s (x_shm x) (x_world x) (if rc =? -1 then WExit false else next)
                               (w_xfrs x) (w_bytes x) (r_pc x) (r_xfrs x) (r_bytes x))
    | _ => None
    end in
  match w_pc x with
  | WReserve => sems (reserveSem true WRITE_SEM intr) WRead
  | WRead =>
      match sys_read STDIN_FILENO BUF_SIZE (x_world x) with
      | Ok got w =>
          let c := match got with None => -1 | Some bs => zlen bs end in
          let b := match got with None => sbuf (x_shm x) | Some bs => splice (sbuf (x_shm x)) 0 bs end in
          Some (mkX (x_sems x) (mkSeg c b) w (if c =? -1 then WExit false else WRelease)
                  (w_xfrs x) (w_bytes x) (r_pc x) (r_xfrs x) (r_bytes x))
      | Abort _ _ => None
      end
  | WRelease => sems (releaseSem READ_SEM) WTest
  | WTest =>
      if cnt (x_shm x) =? 0 then Some (set_w WLast)
      else Some (mkX (x_sems x) (x_shm x) (x_world x) WReserve (wraps 32 (w_xfrs x + 1)) (wraps 32 (w_bytes x + cnt (x_shm x)))
                   (r_pc x) (r_xfrs x) (r_bytes x))
  | WLast => sems (reserveSem true WRITE_SEM intr) WRemove
  | WRemove =>
      if ss_alive (x_sems x) then
        Some (mkX (mkSet false (ss_val (x_sems x))) (x_shm x) (x_world x) (WExit true)
                (w_xfrs x) (w_bytes x) (r_pc x) (r_xfrs x) (r_bytes x))
      else Some (set_w (WExit false))
  | WExit _ => None
  end.

(** One statement of the reader's main. *)
Definition reader_step (x : xfer) : option xfer :=
  let set_r p := mkX (x_sems x) (x_shm x) (x_world x) (w_pc x) (w_xfrs x) (w_bytes x) p (r_xfrs x) (r_bytes x) in
  let sems m next xf :=
    match m (x_sems x) with
    | Ok (Ret rc) s => Some (mkX s (x_shm x) (x_world x) (w_pc x) (w_xfrs x) (w_bytes x)
                               (if rc =? -1 then RExit false else next) xf (r_bytes x))
    | _ => None
    end in
  match r_pc x with
  | RReserve => sems (reserveSem true READ_SEM intr) RTest (r_xfrs x)
  | RTest =>
      if cnt (x_shm x) =? 0 then Some (set_r RDetach)
      else Some (mkX (x_sems x) (x_shm x) (x_world x) (w_pc x) (w_xfrs x) (w_bytes x)
                   RWrite (r_xfrs x) (wraps 32 (r_bytes x + cnt (x_shm x))))
  | RWrite =>
      match sys_write STDOUT_FILENO (take (Z.to_nat (cnt (x_shm x))) (sbuf (x_shm x))) (x_world x) with
      | Ok n w => Some (mkX (x_sems x) (x_shm x) w (w_pc x) (w_xfrs x) (w_bytes x)
                          (if n =? cnt (x_shm x) then RRelease else RExit false) (r_xfrs x) (r_bytes x))
      | Abort _ _ => None
      end
  | RRelease => sems (releaseSem WRITE_SEM) RReserve (wraps 32 (r_xfrs x + 1))
  | RDetach => Some (set_r RFinal)
  | RFinal => sems (releaseSem WRITE_SEM) (RExit true) (r_xfrs x)
  | RExit _ => None
  end.
End Step.

Inductive xfer_step : xfer -> xfer -> Prop :=
| XWriter intr x x' : writer_step intr x = Some x' -> xfer_step x x'
| XReader intr x x' : reader_step intr x = Some x' -> xfer_step x x'.

(** The initial state the writer makes: [initSemAvailable(semid, WRITE_SEM)]
    and [initSemInUse(semid, READ_SEM)] on a new set, a new segment. *)
Definition xfer_init (w : world) : xfer :=
  let sems := out_state ((run initSemAvailable WRITE_SEM; initSemInUse READ_SEM) (mkSet true ∅)) in
  mkX sems (mkSeg 0 (replicate (Z.to_nat BUF_SIZE) 0)) w WReserve 0 0 RReserve 0 0.
