(* ===== verification/XferThms.v ===== *)
(** * The transfer is in step

    The invariant of the two processes: whose turn it is, and where the
    bytes are. *)
From S2P Require Import Prelude Posix IoFd IoGather IoLineThms Xfer.

Open Scope prog_scope.

Lemma wraps_add w a b : 0 < w -> wraps w (wraps w a + b) = wraps w (a + b).
Proof.
  intros Hw. unfold wraps. set (h := 2 ^ (w - 1)). f_equal.
  replace ((a + h) mod 2 ^ w - h + b + h) with ((a + h) mod 2 ^ w + b) by lia.
  rewrite Zplus_mod_idemp_l. f_equal. lia.
Qed.

(** ** Semaphores *)

(** A live set with the values of the two semaphores. *)
Definition sems_are (s : semset) (ws rs : Z) : Prop :=
  ss_alive s = true /\ ss_val s !! WRITE_SEM = Some ws /\ ss_val s !! READ_SEM = Some rs.

Lemma semop_up k s v :
  ss_alive s = true -> ss_val s !! k = Some v -> 0 <= v ->
  semop1 k 1 s = Ok (Ret 0) (mkSet true (<[k := v + 1]> (ss_val s))).
Proof. intros Ha Hv H0. unfold semop1. pstep. unfold id. rewrite Ha, Hv. simpl. rewrite ltb_false by lia. pstep. by rewrite Ha. Qed.

Lemma reserve_up intr k s :
  ss_alive s = true -> ss_val s !! k = Some 1 ->
  reserveSem true k intr s = Ok (Ret 0) (mkSet true (<[k := 0]> (ss_val s))).
Proof.
  intros Ha Hv. induction intr as [|intr IH]; [|done]. simpl. unfold semop1. pstep. unfold id. rewrite Ha, Hv. simpl. pstep. by rewrite Ha.
Qed.

Lemma reserve_blocked intr k s :
  ss_alive s = true -> ss_val s !! k = Some 0 -> reserveSem true k intr s = Ok Wait s.
Proof. intros Ha Hv. induction intr as [|intr IH]; [|done]. simpl. unfold semop1. pstep. unfold id. by rewrite Ha, Hv. Qed.

(** ** The invariant *)
Section Inv.
(** All the bytes of the input and its stream; the output before the
    start. *)
Context (D O : bytes) (I0 : list item).

Definition script (x : xfer) : list revent := default [] (w_in (x_world x) !! STDIN_FILENO).

(** What the input still has, what is in the segment. *)
Definition rem (x : xfer) : bytes := until_end (items false (script x)).
Definition seg (x : xfer) : bytes := take (Z.to_nat (cnt (x_shm x))) (sbuf (x_shm x)).

Definition out_is (x : xfer) (out : bytes) : Prop := w_to (x_world x) !! STDOUT_FILENO = Some ([], O ++ out).

(** The writer has counted the bytes of [out] and is past its test, or the
    last [cnt] of them are not counted yet; [sent] are the bytes the segment
    has held so far. *)
Definition writer_at (x : xfer) (sent : bytes) (k : Z) : Prop :=
  (w_pc x = WTest /\ w_bytes x = wraps 32 (zlen sent - cnt (x_shm x)) /\ w_xfrs x = wraps 32 (k - 1)) \/
  (w_pc x = WReserve /\ w_bytes x = wraps 32 (zlen sent) /\ w_xfrs x = wraps 32 k).

(** The turns: [out] has been written in [k] transfers. *)
Inductive turn (x : xfer) (out : bytes) (k : Z) : Prop :=
| TWriter ws :
    sems_are (x_sems x) ws 0 -> r_pc x = RReserve -> D = out ++ rem x ->
    r_bytes x = wraps 32 (zlen out) -> r_xfrs x = wraps 32 k ->
    (ws = 1 /\ (writer_at x out k) /\ (w_pc x = WTest -> 0 < cnt (x_shm x)) \/
     ws = 0 /\ w_pc x = WRead /\ w_bytes x = wraps 32 (zlen out) /\ w_xfrs x = wraps 32 k) ->
    turn x out k
| TLoaded :
    sems_are (x_sems x) 0 0 -> r_pc x = RReserve -> w_pc x = WRelease ->
    zlen (seg x) = cnt (x_shm x) ->
    (0 < cnt (x_shm x) -> D = out ++ seg x ++ rem x) -> (cnt (x_shm x) = 0 -> D = out) ->
    w_bytes x = wraps 32 (zlen out) -> w_xfrs x = wraps 32 k ->
    r_bytes x = wraps 32 (zlen out) -> r_xfrs x = wraps 32 k ->
    turn x out k
| TReader rs :
    sems_are (x_sems x) 0 rs -> 0 < cnt (x_shm x) -> zlen (seg x) = cnt (x_shm x) -> D = out ++ seg x ++ rem x ->
    writer_at x (out ++ seg x) (k + 1) -> r_xfrs x = wraps 32 k ->
    (rs = 1 /\ r_pc x = RReserve /\ r_bytes x = wraps 32 (zlen out) \/
     rs = 0 /\ r_pc x = RTest /\ r_bytes x = wraps 32 (zlen out) \/
     rs = 0 /\ r_pc x = RWrite /\ r_bytes x = wraps 32 (zlen (out ++ seg x))) ->
    turn x out k
| TWritten :
    sems_are (x_sems x) 0 0 -> 0 < cnt (x_shm x) -> D = out ++ rem x ->
    writer_at x out (k + 1) -> r_pc x = RRelease ->
    r_xfrs x = wraps 32 k -> r_bytes x = wraps 32 (zlen out) ->
    turn x out k
| TEnd ws rs :
    sems_are (x_sems x) ws rs -> cnt (x_shm x) = 0 -> D = out ->
    w_bytes x = wraps 32 (zlen out) -> w_xfrs x = wraps 32 k ->
    r_bytes x = wraps 32 (zlen out) -> r_xfrs x = wraps 32 k ->
    ((w_pc x = WTest \/ w_pc x = WLast) /\ ws = 0 /\
       (rs = 1 /\ r_pc x = RReserve \/ rs = 0 /\ (r_pc x = RTest \/ r_pc x = RDetach \/ r_pc x = RFinal)) \/
     r_pc x = RExit true /\ rs = 0 /\
       ((w_pc x = WTest \/ w_pc x = WLast) /\ ws = 1 \/ w_pc x = WRemove /\ ws = 0)) ->
    turn x out k
| TDone :
    ss_alive (x_sems x) = false -> D = out ->
    w_pc x = WExit true -> w_bytes x = wraps 32 (zlen out) -> w_xfrs x = wraps 32 k ->
    r_pc x = RExit true -> r_bytes x = wraps 32 (zlen out) -> r_xfrs x = wraps 32 k ->
    turn x out k
| TError :
    sems_are (x_sems x) 0 0 -> D = out -> (exists e, Err e ∈ I0) -> w_pc x = WExit false -> r_pc x = RReserve ->
    r_bytes x = wraps 32 (zlen out) -> r_xfrs x = wraps 32 k ->
    turn x out k.

Definition xinv (x : xfer) : Prop :=
  is_Some (w_in (x_world x) !! STDIN_FILENO) /\ (zlen (sbuf (x_shm x)) = BUF_SIZE /\ items false (script x) `suffix_of` I0) /\
  exists out k, out_is x out /\ turn x out k.

(** [sems] solves what the semaphores are after an operation. *)
Ltac sems := unfold sems_are, WRITE_SEM, READ_SEM in *; simpl; rewrite ?lookup_insert_eq, ?lookup_insert_ne by done; done.

(** What the writer's [read] does. *)
Lemma load_spec x :
  is_Some (w_in (x_world x) !! STDIN_FILENO) -> zlen (sbuf (x_shm x)) = BUF_SIZE ->
  exists got w, sys_read STDIN_FILENO BUF_SIZE (x_world x) = Ok got w /\ w_to w = w_to (x_world x) /\
    is_Some (w_in w !! STDIN_FILENO) /\
    (length (default [] got) + rweight (default [] (w_in w !! STDIN_FILENO)) <= rweight (script x))%nat /\
    (exists pre, items false (script x) = pre ++ items false (default [] (w_in w !! STDIN_FILENO)) /\
       (got = None -> exists e, pre = [Err e])) /\
    let rem' := until_end (items false (default [] (w_in w !! STDIN_FILENO))) in
    match got with
    | None => rem x = []
    | Some [] => rem x = []
    | Some bs => rem x = bs ++ rem' /\ zlen bs <= BUF_SIZE
    end.
Proof.
  intros [s Hs] Hb. destruct (sys_read_does false STDIN_FILENO BUF_SIZE (x_world x) s Hs ltac:(done)) as (got & w & s' & E & Hw & Ht & _ & Hd & Hwt).
  assert (w_in w !! STDIN_FILENO = Some s') as Hs' by (rewrite Hw; apply lookup_insert_eq).
  exists got, w. split_and!; [done|done|by eexists|..].
  { unfold script. rewrite Hs, Hs'. destruct got as [bs|]; [by apply (sys_read_weight _ _ _ _ _ _ _ Hs E Hs')|].
    destruct Hwt; [done|]. simpl. unfold id. lia. }
  all: unfold rem, script; rewrite Hs, Hs'; cbn [default id]; unfold id;
    remember (items false s') as l'; remember (w_errno w) as e;
    destruct Hd as [?|e l' Hl _|l' Hl e|bs l' e Hne Hlen Hl]; [done|..].
  - exists [Err e]. split; [done|by eexists].
  - destruct Hl as [[-> ->] | ->]; [by exists []|by exists [End]].
  - by eexists.
  - by rewrite Hl.
  - by destruct Hl as [[-> _] | ->].
  - rewrite Hl, until_end_app. destruct bs; [done|]. split; [done|]. unfold zlen, BUF_SIZE in *. lia.
Qed.

(** A segment that has just been filled. *)
Lemma load_seg (bs old : bytes) :
  zlen old = BUF_SIZE -> zlen bs <= BUF_SIZE ->
  zlen (splice old 0 bs) = BUF_SIZE /\ take (Z.to_nat (zlen bs)) (splice old 0 bs) = bs.
Proof.
  intros Ho Hb. rewrite splice_start. unfold zlen in *. split; [rewrite length_app, length_drop; lia|].
  by rewrite take_app_length' by lia.
Qed.

(** The writer goes on after its test. *)
Lemma writer_at_test x sent k p :
  writer_at x sent k -> w_pc x = WTest ->
  writer_at (mkX (x_sems x) (x_shm x) (x_world x) WReserve (wraps 32 (w_xfrs x + 1)) (wraps 32 (w_bytes x + cnt (x_shm x)))
    p (r_xfrs x) (r_bytes x)) sent k.
Proof.
  intros [(_ & Hb & Hx)|(Hp & _)] Hw; [|congruence]. right. simpl. rewrite Hb, Hx, !wraps_add by lia.
  split_and!; [done|f_equal; lia..].
Qed.

Ltac turns x := destruct x as [ws Hse Hr HD Hrb Hrx Hw|Hse Hr Hw Hseg Hd1 Hd0 Hwb Hwx Hrb Hrx|rs Hse Hc Hseg HD Hw Hrx Hr
  |Hse Hc HD Hw Hr Hrx Hrb|ws rs Hse Hc HD Hwb Hwx Hrb Hrx Hp|Ha HD Hw Hwb Hwx Hr Hrb Hrx|Hse HD He Hw Hr Hrb Hrx].

Lemma writer_read_inv x x' out k intr :
  is_Some (w_in (x_world x) !! STDIN_FILENO) -> zlen (sbuf (x_shm x)) = BUF_SIZE -> items false (script x) `suffix_of` I0 ->
  out_is x out ->
  sems_are (x_sems x) 0 0 -> r_pc x = RReserve -> D = out ++ rem x ->
  r_bytes x = wraps 32 (zlen out) -> r_xfrs x = wraps 32 k ->
  w_pc x = WRead -> w_bytes x = wraps 32 (zlen out) -> w_xfrs x = wraps 32 k ->
  writer_step intr x = Some x' -> xinv x'.
Proof.
  intros Hin Hb [p0 Hsuf] Ho Hse Hr HD Hrb Hrx Hw Hwb Hwx Hs. unfold writer_step in Hs. rewrite Hw in Hs.
  destruct (load_spec x Hin Hb) as (got & w & E & Hto & Hin' & _ & (pre & Hpre & Herr) & Hg). rewrite E in Hs. injection Hs as <-.
  assert (forall sm sg p a b q c d, out_is (mkX sm sg w p a b q c d) out) as Ho' by (intros; unfold out_is in *; simpl; by rewrite Hto).
  assert (items false (default [] (w_in w !! STDIN_FILENO)) `suffix_of` I0) as Hsuf'.
  { exists (p0 ++ pre). by rewrite Hsuf, Hpre, app_assoc. }
  unfold xinv. cbn [x_world x_shm sbuf]. split; [done|]. destruct got as [[|c bs]|].
  - rewrite Hg, app_nil_r in HD. split; [done|]. exists out, k. split; [apply Ho'|]. by apply TLoaded.
  - destruct Hg as [Hrem Hlen]. destruct (load_seg (c :: bs) _ Hb Hlen) as [H1 H2]. split; [done|].
    exists out, k. split; [apply Ho'|]. assert ((zlen (c :: bs) =? -1) = false) as -> by (apply eqb_false; pose proof (zlen_nonneg (c :: bs)); lia).
    apply TLoaded; try done; unfold seg; cbn [x_shm cnt sbuf]; rewrite ?H2; [done|].
    intros _. by rewrite HD, Hrem.
  - rewrite Hg, app_nil_r in HD. split; [done|]. exists out, k. split; [apply Ho'|]. apply TError; try done.
    destruct (Herr eq_refl) as [e ->]. exists e. rewrite Hsuf, Hpre. set_solver.
Qed.

Lemma writer_inv intr x x' : xinv x -> writer_step intr x = Some x' -> xinv x'.
Proof.
  intros (Hin & [Hb Hsuf] & out & k & Ho & Ht) Hs. turns Ht.
  - pose proof Hse as (Ha & Hv & Hv'). destruct Hw as [(-> & Hw & Hpos)|(-> & Hw & Hwb & Hwx)].
    2: { by eapply (writer_read_inv x x' out k). }
    unfold writer_step in Hs. pose proof Hw as [(Hp & Hwb & Hwx)|(Hp & Hwb & Hwx)]; rewrite Hp in Hs.
    + specialize (Hpos Hp). rewrite eqb_false in Hs by lia. injection Hs as <-. split_and!; [done..|]. exists out, k. split; [done|].
      eapply (TWriter _ _ _ 1); try done. left. split_and!; [done|by apply writer_at_test|done].
    + rewrite reserve_up in Hs by done. injection Hs as <-. split_and!; [done..|]. exists out, k. split; [done|].
      eapply (TWriter _ _ _ 0); try done; [sems|]. by right.
  - pose proof Hse as (Ha & Hv & Hv'). unfold writer_step, releaseSem in Hs. rewrite Hw, (semop_up _ _ 0) in Hs by done.
    injection Hs as <-. split_and!; [done..|]. exists out, k. split; [done|].
    pose proof (zlen_nonneg (seg x)). destruct (Z.eq_dec (cnt (x_shm x)) 0) as [H0|H0].
    + eapply (TEnd _ _ _ 0 1); try done; [sems|by apply Hd0|]. left. split_and!; [by left|done|by left].
    + eapply (TReader _ _ _ 1); try done; [sems|simpl; lia|apply Hd1; lia| |by left].
      left. simpl. rewrite zlen_app. unfold seg at 1. simpl. fold (seg x). rewrite Hwb, Hwx. split_and!; [done|f_equal; lia..].
  - pose proof Hse as (Ha & Hv & Hv'). unfold writer_step in Hs. pose proof Hw as [(Hp & Hwb & Hwx)|(Hp & Hwb & Hwx)]; rewrite Hp in Hs.
    + rewrite eqb_false in Hs by lia. injection Hs as <-. split_and!; [done..|]. exists out, k. split; [done|].
      eapply (TReader _ _ _ rs); try done. by apply writer_at_test.
    + rewrite reserve_blocked in Hs by done. done.
  - pose proof Hse as (Ha & Hv & Hv'). unfold writer_step in Hs. pose proof Hw as [(Hp & Hwb & Hwx)|(Hp & Hwb & Hwx)]; rewrite Hp in Hs.
    + rewrite eqb_false in Hs by lia. injection Hs as <-. split_and!; [done..|]. exists out, k. split; [done|].
      eapply TWritten; try done. by apply writer_at_test.
    + rewrite reserve_blocked in Hs by done. done.
  - pose proof Hse as (Ha & Hv & Hv'). unfold writer_step in Hs.
    destruct Hp as [([Hp|Hp] & -> & Hr)|(Hr & -> & [([Hp|Hp] & ->)|(Hp & ->)])]; rewrite Hp in Hs.
    + rewrite Hc in Hs. injection Hs as <-. split_and!; [done..|]. exists out, k. split; [done|].
      eapply (TEnd _ _ _ 0 rs); try done. left. split_and!; [by right|done|done].
    + by rewrite reserve_blocked in Hs.
    + rewrite Hc in Hs. injection Hs as <-. split_and!; [done..|]. exists out, k. split; [done|].
      eapply (TEnd _ _ _ 1 0); try done. right. split_and!; [done|done|]. left. split; [by right|done].
    + rewrite reserve_up in Hs by done. injection Hs as <-. split_and!; [done..|]. exists out, k. split; [done|].
      eapply (TEnd _ _ _ 0 0); try done; [sems|]. right. split_and!; [done|done|by right].
    + rewrite Ha in Hs. injection Hs as <-. split_and!; [done..|]. exists out, k. split; [done|]. by apply TDone.
  - unfold writer_step in Hs. by rewrite Hw in Hs.
  - unfold writer_step in Hs. by rewrite Hw in Hs.
Qed.

Lemma reader_inv intr x x' : xinv x -> reader_step intr x = Some x' -> xinv x'.
Proof.
  intros (Hin & [Hb Hsuf] & out & k & Ho & Ht) Hs. unfold reader_step in Hs. turns Ht.
  - destruct Hse as (Ha & Hv & Hv'). by rewrite Hr, reserve_blocked in Hs.
  - destruct Hse as (Ha & Hv & Hv'). by rewrite Hr, reserve_blocked in Hs.
  - pose proof Hse as (Ha & Hv & Hv'). destruct Hr as [(-> & Hr & Hrb)|[(-> & Hr & Hrb)|(-> & Hr & Hrb)]]; rewrite Hr in Hs.
    + rewrite reserve_up in Hs by done. injection Hs as <-. split_and!; [done..|]. exists out, k. split; [done|].
      eapply (TReader _ _ _ 0); try done; [sems|]. right. by left.
    + rewrite eqb_false in Hs by lia. injection Hs as <-. split_and!; [done..|]. exists out, k. split; [done|].
      eapply (TReader _ _ _ 0); try done. right. right. simpl. rewrite Hrb, wraps_add, zlen_app by lia.
      unfold seg at 1. simpl. fold (seg x). by rewrite Hseg.
    + fold (seg x) in Hs. unfold sys_write, pbind, get, put, pret in Hs. unfold out_is in Ho. rewrite Ho, Hseg, Z.eqb_refl in Hs.
      injection Hs as <-. unfold xinv. cbn [x_world x_shm w_in set_to]. split_and!; [done..|]. exists (out ++ seg x), k. split.
      * unfold out_is. simpl. by rewrite lookup_insert_eq, app_assoc.
      * apply TWritten; try done. by rewrite <- app_assoc.
  - pose proof Hse as (Ha & Hv & Hv'). unfold releaseSem in Hs. rewrite Hr, (semop_up _ _ 0) in Hs by done. injection Hs as <-.
    split_and!; [done..|]. exists out, (k + 1). split; [done|].
    eapply (TWriter _ _ _ 1); try done; [sems|simpl; by rewrite Hrx, wraps_add|]. by left.
  - pose proof Hse as (Ha & Hv & Hv').
    destruct Hp as [(Hw & -> & [(-> & Hr)|(-> & [Hr|[Hr|Hr]])])|(Hr & _)]; rewrite Hr in Hs; [..|done].
    + rewrite reserve_up in Hs by done. injection Hs as <-. split_and!; [done..|]. exists out, k. split; [done|].
      eapply (TEnd _ _ _ 0 0); try done; [sems|]. left. split_and!; [done|done|]. right. split; [done|by left].
    + rewrite Hc in Hs. injection Hs as <-. split_and!; [done..|]. exists out, k. split; [done|].
      eapply (TEnd _ _ _ 0 0); try done. left. split_and!; [done|done|]. right. split; [done|right; by left].
    + injection Hs as <-. split_and!; [done..|]. exists out, k. split; [done|].
      eapply (TEnd _ _ _ 0 0); try done. left. split_and!; [done|done|]. right. split; [done|right; by right].
    + unfold releaseSem in Hs. rewrite (semop_up _ _ 0) in Hs by done. injection Hs as <-. split_and!; [done..|]. exists out, k. split; [done|].
      eapply (TEnd _ _ _ 1 0); try done; [sems|]. right. split_and!; [done|done|]. left. by split.
  - by rewrite Hr in Hs.
  - destruct Hse as (Ha & Hv & Hv'). by rewrite Hr, reserve_blocked in Hs.
Qed.

Lemma xfer_reach x y : xinv x -> rtc xfer_step x y -> xinv y.
Proof. intros H Hr. induction Hr as [|x y z [i ?? Hs|i ?? Hs] _ IH]; [done|..]; apply IH; [by eapply writer_inv|by eapply reader_inv]. Qed.

(** ** Progress *)
Definition finished (x : xfer) : Prop :=
  w_pc x = WExit true /\ r_pc x = RExit true \/ w_pc x = WExit false.

Lemma xfer_progress x : xinv x -> (exists x', xfer_step x x') \/ finished x.
Proof.
  intros (Hin & [Hb Hsuf] & out & k & Ho & Ht). turns Ht.
  - left. pose proof Hse as (Ha & Hv & Hv'). destruct Hw as [(-> & [(Hw & _)|(Hw & _)] & Hpos)|(-> & Hw & _)].
    + specialize (Hpos Hw). eexists. apply (XWriter 0). unfold writer_step. rewrite Hw, eqb_false by lia. reflexivity.
    + eexists. apply (XWriter 0). unfold writer_step. rewrite Hw, reserve_up by done. reflexivity.
    + destruct (load_spec x Hin Hb) as (got & w & E & _).
      eexists. apply (XWriter 0). unfold writer_step. rewrite Hw, E. reflexivity.
  - left. pose proof Hse as (Ha & Hv & Hv'). eexists. apply (XWriter 0). unfold writer_step, releaseSem.
    rewrite Hw, (semop_up _ _ 0) by done. reflexivity.
  - left. pose proof Hse as (Ha & Hv & Hv'). destruct Hr as [(-> & Hr & _)|[(-> & Hr & _)|(-> & Hr & _)]];
      eexists; apply (XReader 0); unfold reader_step; rewrite Hr.
    + rewrite reserve_up by done. reflexivity.
    + rewrite eqb_false by lia. reflexivity.
    + unfold sys_write, pbind, get, put, pret. unfold out_is in Ho. rewrite Ho. reflexivity.
  - left. pose proof Hse as (Ha & Hv & Hv'). eexists. apply (XReader 0). unfold reader_step, releaseSem.
    rewrite Hr, (semop_up _ _ 0) by done. reflexivity.
  - pose proof Hse as (Ha & Hv & Hv'). left.
    destruct Hp as [(_ & -> & [(-> & Hr)|(-> & [Hr|[Hr|Hr]])])|(Hr & -> & [([Hp|Hp] & ->)|(Hp & ->)])].
    + eexists. apply (XReader 0). unfold reader_step. rewrite Hr, reserve_up by done. reflexivity.
    + eexists. apply (XReader 0). unfold reader_step. rewrite Hr, Hc. reflexivity.
    + eexists. apply (XReader 0). unfold reader_step. rewrite Hr. reflexivity.
    + eexists. apply (XReader 0). unfold reader_step, releaseSem. rewrite Hr, (semop_up _ _ 0) by done. reflexivity.
    + eexists. apply (XWriter 0). unfold writer_step. rewrite Hp, Hc. reflexivity.
    + eexists. apply (XWriter 0). unfold writer_step. rewrite Hp, reserve_up by done. reflexivity.
    + eexists. apply (XWriter 0). unfold writer_step. rewrite Hp, Ha. reflexivity.
  - right. by left.
  - right. by right.
Qed.

(** What the turns say about the output. *)
Lemma turn_prefix x out k : turn x out k -> out `prefix_of` D.
Proof.
  intros Ht. turns Ht; try (by rewrite HD; eexists); [|by rewrite HD..].
  destruct (Z.eq_dec (cnt (x_shm x)) 0) as [Hz|Hz]; [by rewrite (Hd0 Hz)|].
  pose proof (zlen_nonneg (seg x)). rewrite Hd1 by lia. by eexists.
Qed.

Lemma turn_finished x out k :
  turn x out k -> finished x ->
  w_pc x = WExit true /\ r_pc x = RExit true /\ out = D /\ w_bytes x = wraps 32 (zlen D) /\
    r_bytes x = w_bytes x /\ r_xfrs x = w_xfrs x \/
  w_pc x = WExit false /\ exists e, Err e ∈ I0.
Proof.
  intros Ht Hf. unfold finished in Hf. turns Ht; try (rewrite ?Hw, ?Hr in Hf; intuition congruence).
  - destruct Hw as [(_ & [(Hw & _)|(Hw & _)] & _)|(_ & Hw & _)]; rewrite Hw in Hf; intuition congruence.
  - destruct Hw as [(Hw & _)|(Hw & _)]; rewrite Hw in Hf; intuition congruence.
  - destruct Hw as [(Hw & _)|(Hw & _)]; rewrite Hw in Hf; intuition congruence.
Qed.

(** ** Termination *)
Definition wrank (p : wpc) : nat :=
  match p with WRelease => 6 | WTest => 5 | WReserve | WLast => 4 | WRead | WRemove => 3 | WExit _ => 0 end.

(** What the reader still owes: a round when there is something for it. *)
Definition rrank (x : xfer) : nat :=
  match r_pc x with
  | RReserve => match w_pc x with WRelease => 6 | _ => if default 0 (ss_val (x_sems x) !! READ_SEM) =? 1 then 6 else 0 end
  | RTest => 5 | RWrite | RDetach => 4 | RRelease | RFinal => 3 | RExit _ => 0
  end.

(** Whether the end of file is still to come. *)
Definition eof_due (x : xfer) : nat :=
  match w_pc x with
  | WReserve | WRead => 1
  | WExit false => 0
  | _ => if cnt (x_shm x) =? 0 then 0 else 1
  end.

Definition left_to_do (x : xfer) : nat := (10 * (rweight (script x) + eof_due x) + wrank (w_pc x) + rrank x)%nat.

(** [ranks] computes what is left to do before and after a step. *)
Ltac ranks := unfold left_to_do, rrank, eof_due, script; cbn [w_pc r_pc x_sems x_shm x_world ss_val cnt wrank].

Lemma writer_less intr x x' : xinv x -> writer_step intr x = Some x' -> (left_to_do x' < left_to_do x)%nat.
Proof.
  intros (Hin & [Hb Hsuf] & out & k & Ho & Ht) Hs. unfold writer_step in Hs. turns Ht.
  - pose proof Hse as (Ha & Hv & Hv'). destruct Hw as [(-> & [(Hp & _)|(Hp & _)] & Hpos)|(-> & Hp & _)]; rewrite Hp in Hs.
    + specialize (Hpos Hp). rewrite eqb_false in Hs by lia. injection Hs as <-. ranks.
      rewrite Hp, Hr, Hv', (eqb_false (cnt _) 0) by lia. simpl wrank. lia.
    + rewrite reserve_up in Hs by done. injection Hs as <-. ranks. rewrite Hp, Hr, lookup_insert_ne, Hv' by done. simpl. lia.
    + destruct (load_spec x Hin Hb) as (got & w & E & _ & _ & Hwt & _ & Hg). rewrite E in Hs. injection Hs as <-.
      ranks. unfold script in Hwt. rewrite Hp, Hr, Hv'. destruct got as [[|c bs]|]; simpl in *; lia.
  - pose proof Hse as (Ha & Hv & Hv'). unfold releaseSem in Hs. rewrite Hw, (semop_up _ _ 0) in Hs by done. injection Hs as <-.
    ranks. rewrite Hw, Hr, lookup_insert_eq. simpl. lia.
  - pose proof Hse as (Ha & Hv & Hv'). destruct Hw as [(Hp & _)|(Hp & _)]; rewrite Hp in Hs; [|by rewrite reserve_blocked in Hs].
    rewrite eqb_false in Hs by lia. injection Hs as <-. ranks. rewrite Hp, (eqb_false (cnt _) 0) by lia. simpl wrank.
    destruct (r_pc x); lia.
  - pose proof Hse as (Ha & Hv & Hv'). destruct Hw as [(Hp & _)|(Hp & _)]; rewrite Hp in Hs; [|by rewrite reserve_blocked in Hs].
    rewrite eqb_false in Hs by lia. injection Hs as <-. ranks. rewrite Hp, (eqb_false (cnt _) 0) by lia. simpl wrank.
    destruct (r_pc x); lia.
  - pose proof Hse as (Ha & Hv & Hv').
    destruct Hp as [([Hp|Hp] & -> & Hr)|(Hr & -> & [([Hp|Hp] & ->)|(Hp & ->)])]; rewrite Hp in Hs.
    + rewrite Hc in Hs. injection Hs as <-. ranks. rewrite Hp, Hc. simpl wrank. destruct (r_pc x); simpl; lia.
    + by rewrite reserve_blocked in Hs.
    + rewrite Hc in Hs. injection Hs as <-. ranks. rewrite Hp, Hc, Hr. simpl. lia.
    + rewrite reserve_up in Hs by done. injection Hs as <-. ranks. rewrite Hp, Hc, Hr. simpl. lia.
    + rewrite Ha in Hs. injection Hs as <-. ranks. rewrite Hp, Hc, Hr. simpl. lia.
  - by rewrite Hw in Hs.
  - by rewrite Hw in Hs.
Qed.

Lemma reader_less intr x x' : xinv x -> reader_step intr x = Some x' -> (left_to_do x' < left_to_do x)%nat.
Proof.
  intros (Hin & [Hb Hsuf] & out & k & Ho & Ht) Hs. unfold reader_step in Hs. turns Ht.
  - destruct Hse as (Ha & Hv & Hv'). by rewrite Hr, reserve_blocked in Hs.
  - destruct Hse as (Ha & Hv & Hv'). by rewrite Hr, reserve_blocked in Hs.
  - pose proof Hse as (Ha & Hv & Hv'). destruct Hr as [(-> & Hr & Hrb)|[(-> & Hr & Hrb)|(-> & Hr & Hrb)]]; rewrite Hr in Hs.
    + rewrite reserve_up in Hs by done. injection Hs as <-. ranks. rewrite Hr, Hv'. destruct (w_pc x); simpl; lia.
    + rewrite eqb_false in Hs by lia. injection Hs as <-. ranks. rewrite Hr. destruct (w_pc x); simpl; lia.
    + fold (seg x) in Hs. unfold sys_write, pbind, get, put, pret in Hs. unfold out_is in Ho. rewrite Ho, Hseg, Z.eqb_refl in Hs.
      injection Hs as <-. ranks. rewrite Hr. cbn [w_in set_to]. destruct (w_pc x); simpl; lia.
  - pose proof Hse as (Ha & Hv & Hv'). unfold releaseSem in Hs. rewrite Hr, (semop_up _ _ 0) in Hs by done. injection Hs as <-.
    ranks. rewrite Hr, lookup_insert_ne, Hv' by done. destruct Hw as [(-> & _)|(-> & _)]; simpl; lia.
  - pose proof Hse as (Ha & Hv & Hv').
    destruct Hp as [(Hw & -> & [(-> & Hr)|(-> & [Hr|[Hr|Hr]])])|(Hr & _)]; rewrite Hr in Hs; [..|done].
    + rewrite reserve_up in Hs by done. injection Hs as <-. ranks. rewrite Hr, Hv'. destruct (w_pc x); simpl; lia.
    + rewrite Hc in Hs. injection Hs as <-. ranks. rewrite Hr. destruct (w_pc x); simpl; lia.
    + injection Hs as <-. ranks. rewrite Hr. destruct (w_pc x); simpl; lia.
    + unfold releaseSem in Hs. rewrite (semop_up _ _ 0) in Hs by done. injection Hs as <-. ranks. rewrite Hr. destruct (w_pc x); simpl; lia.
  - by rewrite Hr in Hs.
  - destruct Hse as (Ha & Hv & Hv'). by rewrite Hr, reserve_blocked in Hs.
Qed.

Lemma xfer_steps n x y : xinv x -> nsteps xfer_step n x y -> (n + left_to_do y <= left_to_do x)%nat.
Proof.
  intros Hi Hn. induction Hn as [x|n x y z Hs _ IH]; [lia|].
  assert (xinv y /\ (left_to_do y < left_to_do x)%nat) as [Hy Hl].
  { destruct Hs as [i x y Hs|i x y Hs]; split; [by eapply writer_inv|by eapply writer_less|by eapply reader_inv|by eapply reader_less]. }
  specialize (IH Hy). lia.
Qed.
End Inv.

(** ** The property of the transfer through shared memory *)
Lemma xfer_init_inv w s O :
  w_in w !! STDIN_FILENO = Some s -> w_to w !! STDOUT_FILENO = Some ([], O) ->
  xinv (until_end (items false s)) O (items false s) (xfer_init w).
Proof.
  intros Hs Ho. assert (script (xfer_init w) = s) as Hsc by (unfold script; simpl; by rewrite Hs).
  split_and!; [by eexists|done|by rewrite Hsc|]. exists [], 0. split; [unfold out_is; simpl; by rewrite Ho, app_nil_r|].
  apply (TWriter _ _ _ _ _ 1); try done.
  - unfold rem. by rewrite Hsc.
  - left. split_and!; [done|by right|done].
Qed.

(** C14: the transfer.  For every interleaving of the writer and the reader
    and any interruptions of their semaphore operations, with an output that
    takes everything: what has come out is a first part of the input (of the
    bytes before its end or its first error); a run has at most
    10 * (weight of the input + 1) + 4 steps; and a run that cannot go on
    has ended with both processes having succeeded, the whole input copied
    and the same numbers of bytes and transfers counted on both sides, or
    with the writer having failed at an error of the input. *)
Theorem xfer_correct w s O n x :
  w_in w !! STDIN_FILENO = Some s -> w_to w !! STDOUT_FILENO = Some ([], O) ->
  nsteps xfer_step n (xfer_init w) x ->
  let D := until_end (items false s) in
  (exists out, w_to (x_world x) !! STDOUT_FILENO = Some ([], O ++ out) /\ out `prefix_of` D) /\
  (n <= 10 * (rweight s + 1) + 4)%nat /\
  ((forall x', xfer_step x x' -> False) ->
   w_pc x = WExit true /\ r_pc x = RExit true /\ w_to (x_world x) !! STDOUT_FILENO = Some ([], O ++ D) /\
     w_bytes x = wraps 32 (zlen D) /\ r_bytes x = w_bytes x /\ r_xfrs x = w_xfrs x \/
   w_pc x = WExit false /\ exists e, Err e ∈ items false s).
Proof.
  intros Hs Ho Hn D. pose proof (xfer_init_inv w s O Hs Ho) as Hi.
  pose proof (xfer_steps _ _ _ _ _ _ Hi Hn) as Hb.
  assert (left_to_do (xfer_init w) = 10 * (rweight s + 1) + 4)%nat as Hl.
  { unfold left_to_do, script. simpl x_world. rewrite Hs. done. }
  pose proof (xfer_reach _ _ _ _ _ Hi (rtc_nsteps_2 _ _ _ Hn)) as Hx. split_and!; [|lia|].
  - destruct Hx as (_ & _ & out & k & Hout & Ht). exists out. split; [done|]. by eapply turn_prefix.
  - intros Hstuck. destruct (xfer_progress _ _ _ _ Hx) as [[x' Hx']|Hf]; [by destruct (Hstuck x')|].
    destruct Hx as (_ & _ & out & k & Hout & Ht).
    destruct (turn_finished _ _ _ _ _ Ht Hf) as [(Hw & Hr & -> & Hwb & Hrb & Hrx)|Hw]; [|by right].
    left. by split_and!.
Qed.

(** A schedule: [true] is a step of the writer. *)
Fixpoint sched (l : list bool) (x : xfer) : option xfer :=
  match l with
  | [] => Some x
  | b :: l => (if b then writer_step 1 x else reader_step 1 x) ≫= sched l
  end.

Lemma sched_nsteps l x y : sched l x = Some y -> nsteps xfer_step (length l) x y.
Proof.
  revert x. induction l as [|b l IH]; simpl; intros x H; [injection H as ->; constructor|].
  apply bind_Some in H as (z & H1 & H2). eapply nsteps_l; [|by apply IH]. destruct b; by econstructor.
Qed.

(** Two bytes, then the end of file. *)
Definition two_world : world := mkWorld {[0 := [Data 104 [105]]]} {[1 := ([], [])]} 0.
Definition W4 : list bool := [true; true; true; true].
Definition two_sched : list bool :=
  W4 ++ [false; false; false; false] ++ W4 ++ [false; false; false; false] ++ [true; true].
Definition two_end : xfer := default (xfer_init two_world) (sched two_sched (xfer_init two_world)).

Lemma exited_stuck x x' : w_pc x = WExit true -> r_pc x = RExit true -> xfer_step x x' -> False.
Proof.
  intros Hw Hr Hs. destruct Hs as [i x x' H|i x x' H]; [unfold writer_step in H; by rewrite Hw in H|].
  unfold reader_step in H. by rewrite Hr in H.
Qed.

Lemma xfer_correct_witness :
  (18 <= 10 * (rweight [Data 104 [105]%Z] + 1) + 4)%nat /\
  w_to (x_world two_end) !! STDOUT_FILENO = Some ([], [104; 105]) /\ r_bytes two_end = w_bytes two_end.
Proof.
  destruct (xfer_correct two_world [Data 104 [105]] [] 18 two_end) as (_ & H1 & H2).
  - reflexivity.
  - reflexivity.
  - apply (sched_nsteps two_sched). vm_compute. reflexivity.
  - split; [exact H1|]. destruct (H2 (fun x' => exited_stuck two_end x' eq_refl eq_refl)) as [(_ & _ & Ho & _ & Hb & _)|[Hw _]].
    + split; [exact Ho|exact Hb].
    + vm_compute in Hw. discriminate Hw.
Defined.
