(* ===== verification/FooHash.v ===== *)
(** * Objects with reference counts in a hash table (apue.3e/threads/mutex3.c)

    [foo_alloc], [foo_hold], [foo_find] and [foo_rele] on a heap of objects
    that are linked into hash chains.  Each of them changes the table and
    the counts with [hashlock] held from its first access to the table to
    its last, so an execution of several threads is a sequence of the
    operations.  An access to an object that is not allocated aborts. *)
From S2P Require Import Prelude Chain.

Open Scope prog_scope.

Record foo := mkFoo { f_count : Z; f_id : Z; f_next : Z }.

(** [fh], the chains, and the heap; a null pointer is 0. *)
Record table := mkTable { fh : gmap Z Z; heap : gmap Z foo }.

Definition NHASH : Z := 29.

(** [((unsigned long)id) % NHASH] *)
Definition HASH (id : Z) : Z := wrapu 64 id mod NHASH.

Definition head (idx : Z) (t : table) : Z := default 0 (fh t !! idx).

Definition set_head (idx p : Z) (t : table) : table := mkTable (<[idx := p]> (fh t)) (heap t).
Definition set_foo (p : Z) (f : foo) (t : table) : table := mkTable (fh t) (<[p := f]> (heap t)).
Definition free_foo (p : Z) (t : table) : table := mkTable (fh t) (delete p (heap t)).

(** [*p] *)
Definition deref (p : Z) : Prog table foo :=
  do f <- get (fun t => heap t !! p);
  match f with Some f => pret f | None => die "invalid pointer" end.

(** [p] is what [malloc] returns, [merr] what [pthread_mutex_init] returns. *)
Definition foo_alloc (p merr id : Z) : Prog table Z :=
  if p =? 0 then pret 0
  else
    run put (set_foo p (mkFoo 1 id 0));
    if negb (merr =? 0) then
      run put (free_foo p);
      pret 0
    else
      let idx := HASH id in
      do h <- get (head idx);
      run put (set_foo p (mkFoo 1 id h));
      run put (set_head idx p);
      pret p.

Definition foo_hold (fp : Z) : Prog table unit :=
  do f <- deref fp;
  put (set_foo fp (mkFoo (wraps 32 (f_count f + 1)) (f_id f) (f_next f))).

Fixpoint foo_find_loop (fuel : nat) (id fp : Z) : Prog table Z :=
  match fuel with
  | O => die "fuel"
  | S fuel =>
      if fp =? 0 then pret 0
      else
        do f <- deref fp;
        if f_id f =? id then
          run put (set_foo fp (mkFoo (wraps 32 (f_count f + 1)) (f_id f) (f_next f)));
          pret fp
        else foo_find_loop fuel id (f_next f)
  end.

(** No chain is longer than the heap. *)
Definition heap_fuel (t : table) : nat := S (size (heap t)).

Definition foo_find (id : Z) : Prog table Z :=
  do fuel <- get heap_fuel;
  do fp <- get (head (HASH id));
  foo_find_loop fuel id fp.

(** [while (tfp->f_next != fp) tfp = tfp->f_next;] and the store after it. *)
Fixpoint unlink_loop (fuel : nat) (fp next tfp : Z) : Prog table unit :=
  match fuel with
  | O => die "fuel"
  | S fuel =>
      do t <- deref tfp;
      if f_next t =? fp then put (set_foo tfp (mkFoo (f_count t) (f_id t) next))
      else unlink_loop fuel fp next (f_next t)
  end.

Definition foo_rele (fp : Z) : Prog table unit :=
  do f <- deref fp;
  let count := wraps 32 (f_count f - 1) in
  run put (set_foo fp (mkFoo count (f_id f) (f_next f)));
  if count =? 0 then
    let idx := HASH (f_id f) in
    do tfp <- get (head idx);
    do fuel <- get heap_fuel;
    run (if tfp =? fp then put (set_head idx (f_next f)) else unlink_loop fuel fp (f_next f) tfp);
    put (free_foo fp)
  else pret tt.

(** ** The abstract table

    The live objects, newest first: pointer, identifier and count. *)
Record obj := mkObj { o_ptr : Z; o_id : Z; o_count : Z }.

Definition bump (d : Z) (o : obj) : obj := mkObj (o_ptr o) (o_id o) (o_count o + d).

(** Changing the count of the object at [p]. *)
Definition adjust (p d : Z) (l : list obj) : list obj :=
  (fun o => if o_ptr o =? p then bump d o else o) <$> l.

Definition with_id (id : Z) (l : list obj) : option obj := List.find (fun o => o_id o =? id) l.

Inductive fop := Alloc (p merr id : Z) | Hold (p : Z) | Find (id : Z) | Rele (p : Z).

Definition abs_op (op : fop) (l : list obj) : Z * list obj :=
  match op with
  | Alloc p merr id => if (p =? 0) || negb (merr =? 0) then (0, l) else (p, mkObj p id 1 :: l)
  | Hold p => (0, adjust p 1 l)
  | Find id => match with_id id l with Some o => (o_ptr o, adjust (o_ptr o) 1 l) | None => (0, l) end
  | Rele p => (0, filter (fun o => o_count o <> 0) (adjust p (-1) l))
  end.

Definition run_op (op : fop) : Prog table Z :=
  match op with
  | Alloc p merr id => foo_alloc p merr id
  | Hold p => run foo_hold p; pret 0
  | Find id => foo_find id
  | Rele p => run foo_rele p; pret 0
  end.

(** What the callers do: [malloc] returns memory that is not in use, and
    only live objects are held and released; the counts stay in an [int]. *)
Definition op_ok (op : fop) (l : list obj) : Prop :=
  Forall (fun o => o_count o < 2 ^ 31 - 1) l /\
  match op with
  | Alloc p _ _ => p ∉ o_ptr <$> l
  | Hold p | Rele p => p ∈ o_ptr <$> l
  | Find _ => True
  end.

#[export] Instance op_ok_dec op l : Decision (op_ok op l).
Proof. destruct op; apply _. Defined.

(** ** The representation *)
Definition links (t : table) : gmap Z Z := f_next <$> heap t.

Definition bucket (idx : Z) (l : list obj) : list Z := o_ptr <$> filter (fun o => HASH (o_id o) = idx) l.

(** All but the counts being positive. *)
Record rep0 (t : table) (l : list obj) : Prop := {
  r_nodup : NoDup (o_ptr <$> l);
  r_nonnull : Forall (fun o => o_ptr o <> 0) l;
  r_heap p : is_Some (heap t !! p) -> p ∈ o_ptr <$> l;
  r_obj o : o ∈ l -> exists n, heap t !! o_ptr o = Some (mkFoo (o_count o) (o_id o) n);
  r_chain idx : chain (links t) (head idx t) (bucket idx l) 0
}.

Definition rep (t : table) (l : list obj) : Prop := rep0 t l /\ Forall (fun o => 1 <= o_count o) l.
