(* ===== verification/FooThms.v ===== *)
(** * The hash table of objects implements its list

    What the operations of apue.3e/threads/mutex3.c do to the list of live
    objects. *)
From S2P Require Import Prelude CString Chain FooHash.

Open Scope prog_scope.

Lemma wraps32_pos z : 0 <= z < 2 ^ 31 -> wraps 32 z = z.
Proof. apply wraps32_small. Qed.

(** ** Counts *)
Lemma adjust_ptrs p d l : o_ptr <$> adjust p d l = o_ptr <$> l.
Proof. unfold adjust. rewrite <- list_fmap_compose. apply list_fmap_ext. intros _ o _. simpl. by destruct (_ =? p). Qed.

Lemma adjust_bucket p d l idx : bucket idx (adjust p d l) = bucket idx l.
Proof.
  unfold bucket, adjust. induction l as [|o l IH]; [done|]. rewrite fmap_cons, !filter_cons.
  destruct (o_ptr o =? p); simpl; destruct (decide (HASH (o_id o) = idx)); csimpl; by rewrite IH.
Qed.

Lemma adjust_elem p d l o : o ∈ adjust p d l <-> exists o', o' ∈ l /\ o = if o_ptr o' =? p then bump d o' else o'.
Proof. unfold adjust. rewrite list_elem_of_fmap. naive_solver. Qed.

Lemma links_set_count t p f c : heap t !! p = Some f -> links (set_foo p (mkFoo c (f_id f) (f_next f)) t) = links t.
Proof. intros H. unfold links. simpl. rewrite fmap_insert. simpl. apply insert_id. by rewrite lookup_fmap, H. Qed.

(** Two objects of the list at the same place are the same. *)
Lemma ptr_inj l o o' : NoDup (o_ptr <$> l) -> o ∈ l -> o' ∈ l -> o_ptr o = o_ptr o' -> o = o'.
Proof.
  intros Hn [i Hi]%list_elem_of_lookup [j Hj]%list_elem_of_lookup He.
  assert (i = j) as ->; [|congruence]. apply (NoDup_lookup (o_ptr <$> l) i j (o_ptr o)); [done|..]; rewrite list_lookup_fmap.
  - by rewrite Hi.
  - by rewrite Hj, He.
Qed.

Lemma set_count_rep t l o n d :
  rep0 t l -> o ∈ l -> heap t !! o_ptr o = Some (mkFoo (o_count o) (o_id o) n) ->
  rep0 (set_foo (o_ptr o) (mkFoo (o_count o + d) (o_id o) n) t) (adjust (o_ptr o) d l).
Proof.
  intros [Hnd Hnn Hh Ho Hc] Hin Hf. split.
  - by rewrite adjust_ptrs.
  - apply Forall_forall. intros x (x' & Hx' & ->)%adjust_elem. rewrite Forall_forall in Hnn. specialize (Hnn x' Hx'). by destruct (_ =? _).
  - intros q. rewrite adjust_ptrs. simpl. destruct (decide (q = o_ptr o)) as [->|Hne].
    + intros _. apply list_elem_of_fmap. eauto.
    + rewrite lookup_insert_ne by done. apply Hh.
  - intros x (x' & Hx' & ->)%adjust_elem. simpl. destruct (Z.eqb_spec (o_ptr x') (o_ptr o)) as [He|Hne].
    + assert (x' = o) as -> by (by eapply ptr_inj). exists n. simpl. by rewrite lookup_insert_eq.
    + rewrite lookup_insert_ne by done. by apply Ho.
  - intros idx. rewrite adjust_bucket. specialize (Hc idx). rewrite <- (links_set_count t (o_ptr o) _ (o_count o + d) Hf) in Hc. exact Hc.
Qed.

Lemma adjust_pos p l : Forall (fun o => 1 <= o_count o) l -> Forall (fun o => 1 <= o_count o) (adjust p 1 l).
Proof.
  rewrite !Forall_forall. intros H x (x' & Hx' & ->)%adjust_elem. specialize (H x' Hx'). destruct (_ =? _); simpl; lia.
Qed.

(** ** [foo_find] *)
Lemma foo_find_spec id t bl fuel fp :
  chain (links t) fp (o_ptr <$> bl) 0 ->
  (forall o, o ∈ bl -> (exists n, heap t !! o_ptr o = Some (mkFoo (o_count o) (o_id o) n)) /\ 0 <= o_count o < 2 ^ 31 - 1) ->
  (length bl < fuel)%nat ->
  match with_id id bl with
  | Some o => exists n, heap t !! o_ptr o = Some (mkFoo (o_count o) (o_id o) n) /\
      foo_find_loop fuel id fp t = Ok (o_ptr o) (set_foo (o_ptr o) (mkFoo (o_count o + 1) (o_id o) n) t)
  | None => foo_find_loop fuel id fp t = Ok 0 t
  end.
Proof.
  revert fp fuel. induction bl as [|o bl IH]; intros fp fuel Hc Ho Hf; (destruct fuel as [|fuel]; [simpl in Hf; lia|]).
  - simpl in Hc. subst fp. done.
  - simpl in Hc. destruct Hc as (-> & Hnz & n & Hn & Hc).
    destruct (Ho o ltac:(left)) as [[n' Hh] Hr]. unfold links in Hn. rewrite lookup_fmap, Hh in Hn. injection Hn as <-. simpl in Hc.
    cbn [foo_find_loop]. rewrite eqb_false by done. unfold deref. pstep. rewrite Hh. pstep. cbn [f_id f_count f_next]. simpl with_id.
    unfold with_id. simpl List.find. destruct (Z.eqb_spec (o_id o) id).
    + exists n'. split; [done|]. pstep. rewrite wraps32_pos by lia. done.
    + apply IH; [done| |simpl in Hf; lia]. intros x Hx. apply Ho. by right.
Qed.

Lemma with_id_bucket id l : with_id id (filter (fun o => HASH (o_id o) = HASH id) l) = with_id id l.
Proof.
  unfold with_id. induction l as [|o l IH]; [done|]. rewrite filter_cons. simpl.
  destruct (decide (HASH (o_id o) = HASH id)) as [He|Hne].
  - simpl. by destruct (o_id o =? id).
  - rewrite IH. destruct (Z.eqb_spec (o_id o) id); [congruence|done].
Qed.

Lemma with_id_elem id l o : with_id id l = Some o -> o ∈ l.
Proof. intros H%List.find_some. apply list_elem_of_In. apply H. Qed.

(** No bucket is longer than the heap. *)
Lemma bucket_length t l idx : rep0 t l -> (length (bucket idx l) <= size (heap t))%nat.
Proof.
  intros Hr. apply chain_length.
  - unfold bucket. eapply sublist_NoDup; [apply (r_nodup _ _ Hr)|]. apply fmap_sublist, sublist_filter.
  - intros p. unfold bucket. rewrite list_elem_of_fmap. intros (o & -> & [_ Ho]%list_elem_of_filter).
    destruct (r_obj _ _ Hr o Ho) as [n ->]. by eexists.
Qed.

Lemma find_run t l id :
  rep t l -> Forall (fun o => o_count o < 2 ^ 31 - 1) l ->
  exists t', foo_find id t = Ok (abs_op (Find id) l).1 t' /\ rep t' (abs_op (Find id) l).2.
Proof.
  intros [Hr Hpos] Hb. unfold foo_find. pstep. simpl abs_op.
  pose proof (bucket_length t l (HASH id) Hr) as Hlen. unfold bucket in Hlen. rewrite length_fmap in Hlen.
  pose proof (foo_find_spec id t (filter (fun o => HASH (o_id o) = HASH id) l) (heap_fuel t) (head (HASH id) t)
    (r_chain _ _ Hr (HASH id))) as Hf. rewrite with_id_bucket in Hf.
  assert (forall o, o ∈ filter (fun o => HASH (o_id o) = HASH id) l ->
    (exists n, heap t !! o_ptr o = Some (mkFoo (o_count o) (o_id o) n)) /\ 0 <= o_count o < 2 ^ 31 - 1) as Hobj.
  { intros o [_ Ho]%list_elem_of_filter. split; [by apply (r_obj _ _ Hr)|].
    rewrite Forall_forall in Hpos, Hb. specialize (Hpos o Ho). specialize (Hb o Ho). lia. }
  specialize (Hf Hobj ltac:(unfold heap_fuel; lia)). destruct (with_id id l) as [o|] eqn:Hw.
  - destruct Hf as (n & Hh & ->). eexists. split; [done|]. apply with_id_elem in Hw. split; [by apply set_count_rep|by apply adjust_pos].
  - exists t. by rewrite Hf.
Qed.

Lemma hold_run t l p :
  rep t l -> Forall (fun o => o_count o < 2 ^ 31 - 1) l -> p ∈ o_ptr <$> l ->
  exists t', foo_hold p t = Ok tt t' /\ rep t' (adjust p 1 l).
Proof.
  intros [Hr Hpos] Hb (o & -> & Ho)%list_elem_of_fmap. destruct (r_obj _ _ Hr o Ho) as [n Hh].
  rewrite Forall_forall in Hb. unfold foo_hold, deref. pstep. rewrite Hh. pstep. cbn [f_count f_id f_next].
  assert (1 <= o_count o) by (rewrite Forall_forall in Hpos; auto). specialize (Hb o Ho). simpl in Hb.
  rewrite wraps32_pos by lia. eexists. split; [done|]. split; [by apply set_count_rep|by apply adjust_pos].
Qed.

(** ** [foo_alloc] *)
Lemma alloc_run t l p merr id :
  rep t l -> p ∉ o_ptr <$> l ->
  exists t', foo_alloc p merr id t = Ok (abs_op (Alloc p merr id) l).1 t' /\ rep t' (abs_op (Alloc p merr id) l).2.
Proof.
  intros [Hr Hpos] Hp. unfold foo_alloc. simpl. destruct (Z.eqb_spec p 0) as [->|H0]; [by exists t|]. cbn [orb].
  assert (heap t !! p = None) as Hnone by (apply eq_None_not_Some; intros H%(r_heap _ _ Hr); done).
  pstep. destruct (Z.eqb_spec merr 0) as [->|Hm]; simpl.
  2: { eexists. split; [done|]. unfold free_foo, set_foo. simpl. rewrite delete_insert_id by done. by destruct t. }
  pstep. eexists. split; [done|]. split; [|constructor; [simpl; lia|done]].
  unfold set_head, set_foo. simpl. rewrite insert_insert_eq. set (h := head _ _).
  assert (forall idx, bucket idx (mkObj p id 1 :: l) = if decide (HASH id = idx) then p :: bucket idx l else bucket idx l) as Hbk.
  { intros idx. unfold bucket. rewrite filter_cons. simpl. by destruct (decide _). }
  split.
  - csimpl. constructor; [done|apply (r_nodup _ _ Hr)].
  - constructor; [done|apply (r_nonnull _ _ Hr)].
  - intros q. csimpl. destruct (decide (q = p)) as [->|Hne]; [left|]. rewrite lookup_insert_ne by done. right. by apply (r_heap _ _ Hr).
  - intros o [->|Ho]%elem_of_cons; simpl; [rewrite lookup_insert_eq; eauto|].
    rewrite lookup_insert_ne; [by apply (r_obj _ _ Hr)|]. intros ->. apply Hp, list_elem_of_fmap. eauto.
  - intros idx. rewrite Hbk. unfold links. simpl. rewrite fmap_insert. pose proof (r_chain _ _ Hr idx) as Hc.
    assert (p ∉ bucket idx l) as Hpb.
    { unfold bucket. rewrite list_elem_of_fmap. intros (o & -> & [_ Ho]%list_elem_of_filter). apply Hp, list_elem_of_fmap. eauto. }
    unfold head. simpl. destruct (decide (HASH id = idx)) as [<-|Hi].
    + rewrite lookup_insert_eq. simpl. split_and!; [done..|]. exists h. rewrite lookup_insert_eq. split; [done|]. by apply chain_insert_ne.
    + rewrite lookup_insert_ne by done. by apply chain_insert_ne.
Qed.

(** ** [foo_rele] *)
Lemma unlink_loop_spec t p n q fq b a tfp fuel :
  chain (links t) tfp (a ++ q :: p :: b) 0 -> NoDup (a ++ q :: p :: b) -> heap t !! q = Some fq -> (length a < fuel)%nat ->
  unlink_loop fuel p n tfp t = Ok tt (set_foo q (mkFoo (f_count fq) (f_id fq) n) t).
Proof.
  revert tfp fuel. induction a as [|x a IH]; intros tfp fuel Hc Hn Hq Hf; (destruct fuel as [|fuel]; [simpl in Hf; lia|]);
    cbn [unlink_loop]; unfold deref; pstep; simpl in Hc.
  - destruct Hc as (-> & _ & m & Hm & -> & _). rewrite Hq. pstep. unfold links in Hm. rewrite lookup_fmap, Hq in Hm.
    injection Hm as ->. by rewrite Z.eqb_refl.
  - destruct Hc as (-> & _ & m & Hm & Hc). unfold links in Hm. rewrite lookup_fmap in Hm.
    destruct (heap t !! x) as [fx|]; [|done]. injection Hm as <-. pstep.
    apply NoDup_cons in Hn as [_ Hn]. rewrite eqb_false; [apply IH; try done; simpl in Hf; lia|].
    intros E. destruct a as [|y a]; simpl in Hc, Hn; destruct Hc as (Hy & _); rewrite E in Hy; subst; apply NoDup_cons in Hn as [Hn _]; set_solver.
Qed.

Lemma bucket_filter p l idx : bucket idx (filter (fun o => o_ptr o <> p) l) = filter (fun q => q <> p) (bucket idx l).
Proof.
  unfold bucket. induction l as [|o l IH]; [done|]. rewrite !filter_cons.
  destruct (decide (o_ptr o <> p)), (decide (HASH (o_id o) = idx)); rewrite ?filter_cons; csimpl; rewrite ?filter_cons, ?decide_True, ?decide_False by done; csimpl; by rewrite ?IH.
Qed.

Lemma filter_other (p : Z) (k : list Z) : p ∉ k -> filter (fun q => q <> p) k = k.
Proof.
  induction k as [|q k IH]; [done|]. intros [Hq Hk]%not_elem_of_cons. rewrite filter_cons, decide_True by done. by rewrite IH.
Qed.

(** What is left of the table when the object at [p] is freed. *)
Lemma remove_rep t t' l o :
  rep0 t l -> o ∈ l ->
  (forall q f, heap t !! q = Some f -> exists n, heap t' !! q = Some (mkFoo (f_count f) (f_id f) n)) ->
  (forall q, is_Some (heap t' !! q) -> is_Some (heap t !! q)) ->
  (forall idx, idx <> HASH (o_id o) -> chain (links t') (head idx t') (bucket idx l) 0) ->
  (exists a b, bucket (HASH (o_id o)) l = a ++ o_ptr o :: b /\ chain (links t') (head (HASH (o_id o)) t') (a ++ b) 0) ->
  rep0 (free_foo (o_ptr o) t') (filter (fun x => o_ptr x <> o_ptr o) l).
Proof.
  intros Hr Ho Hobj Hdom Hoth (a & b & Hbk & Hch). set (p := o_ptr o) in *.
  assert (forall idx k q, p ∉ k -> chain (links t') (head idx t') k q -> chain (links (free_foo p t')) (head idx (free_foo p t')) k q) as Hfree.
  { intros idx k q Hk. apply chain_ext. intros x Hx. unfold links. simpl. rewrite fmap_delete, lookup_delete_ne; [done|]. by intros <-. }
  assert (forall idx, NoDup (bucket idx l)) as Hnd.
  { intros idx. eapply sublist_NoDup; [apply (r_nodup _ _ Hr)|]. apply fmap_sublist, sublist_filter. }
  split.
  - eapply sublist_NoDup; [apply (r_nodup _ _ Hr)|]. apply fmap_sublist, sublist_filter.
  - apply Forall_forall. intros x [_ Hx]%list_elem_of_filter. pose proof (r_nonnull _ _ Hr) as Hnn. rewrite Forall_forall in Hnn. auto.
  - intros q. simpl. destruct (decide (q = p)) as [->|Hne]; [rewrite lookup_delete_eq; by intros []|]. rewrite lookup_delete_ne by done.
    intros Hq%Hdom%(r_heap _ _ Hr). apply list_elem_of_fmap in Hq as (x & -> & Hx). apply list_elem_of_fmap. exists x. split; [done|].
    by apply list_elem_of_filter.
  - intros x [Hx Hxl]%list_elem_of_filter. destruct (r_obj _ _ Hr x Hxl) as [n Hn]. apply Hobj in Hn as [n' Hn']. exists n'.
    simpl. by rewrite lookup_delete_ne.
  - intros idx. rewrite bucket_filter. specialize (Hnd idx). destruct (decide (idx = HASH (o_id o))) as [->|Hi].
    + rewrite Hbk in Hnd |- *. apply NoDup_app in Hnd as (_ & Hab & Hnd). apply NoDup_cons in Hnd as [Hpb _].
      assert (p ∉ a) as Hpa by (intros Hin; apply (Hab p Hin); left).
      rewrite filter_app, filter_cons, decide_False by (by intros []). rewrite !filter_other by done.
      apply Hfree; [|done]. rewrite elem_of_app. tauto.
    + assert (p ∉ bucket idx l) as Hp.
      { unfold bucket. rewrite list_elem_of_fmap. intros (x & Hx & [Hxi Hxl]%list_elem_of_filter). apply Hi. rewrite <- Hxi.
        by rewrite (ptr_inj l x o (r_nodup _ _ Hr) Hxl Ho (eq_sym Hx)). }
      rewrite filter_other by done. apply Hfree; [done|]. by apply Hoth.
Qed.

Lemma filter_zero p (l : list obj) :
  (forall x, x ∈ l -> o_count x <> 0 <-> o_ptr x <> p) ->
  filter (fun x => o_count x <> 0) l = filter (fun x => o_ptr x <> p) l.
Proof.
  induction l as [|x l IH]; [done|]. intros H. rewrite !filter_cons. rewrite IH by (intros y Hy; apply H; by right).
  specialize (H x ltac:(left)). destruct (decide (o_count x <> 0)), (decide (o_ptr x <> p)); tauto || done.
Qed.

(** The chain without the object, in both cases of the code. *)
Lemma unlink_run t l o n :
  rep0 t l -> o ∈ l -> heap t !! o_ptr o = Some (mkFoo (o_count o) (o_id o) n) ->
  let idx := HASH (o_id o) in
  exists t', (if head idx t =? o_ptr o then put (set_head idx n) else unlink_loop (heap_fuel t) (o_ptr o) n (head idx t)) t = Ok tt t' /\
    rep0 (free_foo (o_ptr o) t') (filter (fun x => o_ptr x <> o_ptr o) l).
Proof.
  intros Hr Ho Hh idx. pose proof (r_chain _ _ Hr idx) as Hc.
  assert (NoDup (bucket idx l)) as Hnd by (eapply sublist_NoDup; [apply (r_nodup _ _ Hr)|]; apply fmap_sublist, sublist_filter).
  assert (o_ptr o ∈ bucket idx l) as (a & b & Hbk)%list_elem_of_split.
  { unfold bucket. apply list_elem_of_fmap. exists o. split; [done|]. by apply list_elem_of_filter. }
  pose proof (bucket_length t l idx Hr) as Hlen. rewrite Hbk in Hc, Hnd, Hlen.
  pose proof Hc as (r & Ha & Hpb)%chain_app. simpl in Hpb. destruct Hpb as (-> & _ & n' & Hn' & Hb).
  unfold links in Hn'. rewrite lookup_fmap, Hh in Hn'. injection Hn' as <-.
  pose proof Hnd as (Hna & Hab & [Hob Hndb]%NoDup_cons)%NoDup_app.
  destruct (decide (a = [])) as [->|Hne].
  - simpl in Ha. rewrite Ha, Z.eqb_refl. eexists. split; [done|]. apply (remove_rep t _ l o Hr Ho).
    + intros q [fc fi fn] Hq. by exists fn.
    + done.
    + intros i Hi. unfold head. simpl. rewrite lookup_insert_ne by done. apply (r_chain _ _ Hr).
    + exists [], b. split; [done|]. unfold head. simpl. by rewrite lookup_insert_eq.
  - destruct (exists_last Hne) as (a' & q & ->). rewrite <- app_assoc in Hc, Hnd. simpl in Hc, Hnd.
    assert (head idx t <> o_ptr o) as Hhd.
    { intros E. rewrite E in Ha. destruct a' as [|x a']; simpl in Ha; destruct Ha as (Hx & _); subst; apply (Hab (o_ptr o)); set_solver. }
    rewrite eqb_false by done. destruct (chain_in _ _ _ _ q Ha) as [[m Hq] _]; [set_solver|].
    unfold links in Hq. rewrite lookup_fmap in Hq. apply fmap_Some in Hq as (fq & Hq & ->).
    rewrite (unlink_loop_spec t (o_ptr o) n q fq b a') by (done || (unfold heap_fuel; rewrite !length_app in Hlen; simpl in Hlen; lia)).
    eexists. split; [done|].
    assert (forall k, links (set_foo q (mkFoo (f_count fq) (f_id fq) k) t) = <[q := k]> (links t)) as Hlk.
    { intros k. unfold links. simpl. by rewrite fmap_insert. }
    assert (q ∉ a') as Hqa by (apply NoDup_app in Hna as (_ & H & _); intros Hin; apply (H q Hin); left).
    apply (remove_rep t _ l o Hr Ho).
    + intros q' f Hq'. simpl. destruct (decide (q' = q)) as [->|]; [|rewrite lookup_insert_ne by done; destruct f; eauto].
      rewrite lookup_insert_eq. rewrite Hq in Hq'. injection Hq' as ->. eauto.
    + intros q'. simpl. destruct (decide (q' = q)) as [->|]; [by rewrite Hq|by rewrite lookup_insert_ne].
    + intros i Hi. rewrite Hlk. apply chain_insert_ne; [|apply (r_chain _ _ Hr)].
      intros Hin. assert (q ∈ bucket idx l) as Hq2 by (rewrite Hbk; set_solver).
      unfold bucket in Hin, Hq2. apply list_elem_of_fmap in Hin as (x & Hx & [Hxi Hxl]%list_elem_of_filter).
      apply list_elem_of_fmap in Hq2 as (y & Hy & [Hyi Hyl]%list_elem_of_filter). apply Hi. rewrite <- Hxi.
      rewrite (ptr_inj l x y (r_nodup _ _ Hr) Hxl Hyl ltac:(congruence)). exact Hyi.
    + exists (a' ++ [q]), b. split; [done|]. rewrite Hlk. apply chain_app. exists n. split; [by eapply chain_snoc|].
      apply chain_insert_ne; [|done]. intros Hin. apply (Hab q); [set_solver|by right].
Qed.

Lemma rele_run t l p :
  rep t l -> Forall (fun o => o_count o < 2 ^ 31 - 1) l -> p ∈ o_ptr <$> l ->
  exists t', foo_rele p t = Ok tt t' /\ rep t' (filter (fun o => o_count o <> 0) (adjust p (-1) l)).
Proof.
  intros [Hr Hpos] Hb (o & -> & Ho)%list_elem_of_fmap. destruct (r_obj _ _ Hr o Ho) as [n Hh].
  rewrite Forall_forall in Hpos, Hb. pose proof (Hpos o Ho) as H1. specialize (Hb o Ho). simpl in Hb.
  unfold foo_rele, deref. pstep. rewrite Hh. pstep. cbn [f_count f_id f_next]. rewrite wraps32_pos by lia.
  pose proof (set_count_rep t l o n (-1) Hr Ho Hh) as Hr1. set (l1 := adjust (o_ptr o) (-1) l) in *.
  replace (o_count o + -1) with (o_count o - 1) in Hr1 by lia. set (t1 := set_foo _ _ t) in *.
  assert (forall x, x ∈ l1 -> 1 <= o_count x \/ o_ptr x = o_ptr o /\ o_count x = o_count o - 1) as Hx.
  { intros x (x' & Hx' & ->)%adjust_elem. destruct (Z.eqb_spec (o_ptr x') (o_ptr o)) as [He|]; [|left; by apply Hpos].
    right. rewrite (ptr_inj l x' o (r_nodup _ _ Hr) Hx' Ho He). simpl. lia. }
  destruct (Z.eqb_spec (o_count o - 1) 0) as [Hz|Hz].
  - assert (bump (-1) o ∈ l1) as Ho1 by (apply adjust_elem; exists o; by rewrite Z.eqb_refl).
    assert (heap t1 !! o_ptr o = Some (mkFoo (o_count (bump (-1) o)) (o_id o) n)) as Hh1.
    { unfold t1. simpl. rewrite lookup_insert_eq. do 2 f_equal. }
    destruct (unlink_run t1 l1 (bump (-1) o) n Hr1 Ho1 Hh1) as (t' & E & Hrep). simpl in E. pstep.
    rewrite (pbind_ok _ _ _ _ _ E). eexists. split; [done|].
    rewrite (filter_zero (o_ptr o)).
    + split; [exact Hrep|]. apply Forall_forall. intros x [Hxp Hxl]%list_elem_of_filter. destruct (Hx x Hxl) as [?|[? _]]; done.
    + intros x Hxl. split; [|intros ?; destruct (Hx x Hxl) as [?|[? _]]; [lia|done]].
      intros Hc He. apply Hc. rewrite (ptr_inj l1 x (bump (-1) o) (r_nodup _ _ Hr1) Hxl Ho1 He). simpl. lia.
  - eexists. split; [done|]. assert (Forall (fun x => 1 <= o_count x) l1) as HF.
    { apply Forall_forall. intros x Hxl. destruct (Hx x Hxl) as [?|[_ ->]]; lia. }
    assert (filter (fun x => o_count x <> 0) l1 = l1) as ->; [|done].
    clear -HF. induction HF as [|x k ? ? IH]; [done|]. rewrite filter_cons, decide_True by lia. by rewrite IH.
Qed.

(** ** The property of the hash table of objects *)
(** The operations of the threads, in the order of their critical
    sections. *)
Fixpoint run_ops (ops : list fop) : Prog table (list Z) :=
  match ops with
  | [] => pret []
  | op :: ops => do r <- run_op op; do rs <- run_ops ops; pret (r :: rs)
  end.

Fixpoint abs_ops (ops : list fop) (l : list obj) : list Z * list obj :=
  match ops with
  | [] => ([], l)
  | op :: ops => let '(r, l1) := abs_op op l in let '(rs, l2) := abs_ops ops l1 in (r :: rs, l2)
  end.

Fixpoint ops_ok (ops : list fop) (l : list obj) : Prop :=
  match ops with
  | [] => True
  | op :: ops => op_ok op l /\ ops_ok ops (abs_op op l).2
  end.

#[export] Instance ops_ok_dec ops l : Decision (ops_ok ops l).
Proof. revert l. induction ops; intros l; simpl; apply _. Defined.

Lemma op_refines op t l :
  rep t l -> op_ok op l -> exists t', run_op op t = Ok (abs_op op l).1 t' /\ rep t' (abs_op op l).2.
Proof.
  intros Hr [Hb Hop]. destruct op as [p merr id|p|id|p]; simpl run_op.
  - by apply alloc_run.
  - destruct (hold_run t l p Hr Hb Hop) as (t' & E & Hr'). exists t'. by rewrite (pbind_ok _ _ _ _ _ E).
  - by apply find_run.
  - destruct (rele_run t l p Hr Hb Hop) as (t' & E & Hr'). exists t'. by rewrite (pbind_ok _ _ _ _ _ E).
Qed.

(** C15: the hash table implements the list of live objects.  For every
    sequence of the operations in which only live objects are held and
    released and [malloc] returns unused memory, the results are those of
    the list: [foo_find] returns the newest object with the identifier and
    counts it, an object leaves the table and the heap exactly when its last
    reference is released; no freed or null pointer is followed, and every
    loop ends. *)
Theorem foo_refines ops t l :
  rep t l -> ops_ok ops l ->
  exists t', run_ops ops t = Ok (abs_ops ops l).1 t' /\ rep t' (abs_ops ops l).2.
Proof.
  revert t l. induction ops as [|op ops IH]; intros t l Hr Hok; [by exists t|].
  destruct Hok as [Hop Hok]. destruct (op_refines op t l Hr Hop) as (t1 & E1 & Hr1).
  destruct (IH t1 _ Hr1 Hok) as (t2 & E2 & Hr2). exists t2. simpl.
  rewrite (pbind_ok _ _ _ _ _ E1), (pbind_ok _ _ _ _ _ E2). destruct (abs_op op l) as [r l1]. simpl in *.
  by destruct (abs_ops ops l1).
Qed.

Definition empty_table : table := mkTable ∅ ∅.

Lemma empty_rep : rep empty_table [].
Proof.
  split; [|constructor]. split; try constructor.
  - simpl. by intros p [].
  - intros o H. by apply not_elem_of_nil in H.
Qed.

(** Two objects in the same chain; the older one is found, then released
    twice. *)
Definition foo_demo : list fop := [Alloc 100 0 3; Alloc 200 0 32; Find 3; Rele 100; Rele 100; Find 3; Find 32].

Lemma foo_refines_witness :
  exists t', run_ops foo_demo empty_table = Ok [100; 200; 100; 0; 0; 0; 200] t' /\ rep t' [mkObj 200 32 2].
Proof.
  apply (foo_refines foo_demo empty_table []); [apply empty_rep|].
  apply (bool_decide_eq_true_1 (ops_ok foo_demo [])). vm_compute. reflexivity.
Defined.
