(* ===== verification/Foo2.v ===== *)
(** * Reference counts under two locks (apue.3e/threads/mutex2.c)

    In this version the count of an object is protected by its own lock
    [f_lock] and the table by [hashlock].  [foo_rele] has to give up
    [f_lock] before it can take [hashlock], so other threads run between its
    test of the count and the removal, and it tests again.  The operations
    are steps of any number of threads: a step is what happens between
    taking a lock and the next release or request of a lock.

    The table, [HASH], [foo_alloc] on the table and the loop that unlinks an
    object are those of FooHash: the sources have the same text there. *)
From S2P Require Import Prelude Chain Threads FooHash FooThms.

Open Scope prog_scope.

(** ** The operations on the table *)

(** The search of [foo_find], with [hashlock] held. *)
Fixpoint search_loop (fuel : nat) (id fp : Z) : Prog table Z :=
  match fuel with
  | O => die "fuel"
  | S fuel =>
      if fp =? 0 then pret 0
      else
        do f <- deref fp;
        if f_id f =? id then pret fp else search_loop fuel id (f_next f)
  end.

Definition search (id : Z) : Prog table Z :=
  do fuel <- get heap_fuel;
  do fp <- get (head (HASH id));
  search_loop fuel id fp.

(** [foo_rele] with [f_lock] held for the first time: is this the last
    reference? *)
Definition rele_first (fp : Z) : Prog table bool :=
  do f <- deref fp;
  if f_count f =? 1 then pret true
  else
    run put (set_foo fp (mkFoo (wraps 32 (f_count f - 1)) (f_id f) (f_next f)));
    pret false.

(** [foo_rele] with both locks held. *)
Definition rele_second (fp : Z) : Prog table unit :=
  do f <- deref fp;
  if negb (f_count f =? 1) then
    put (set_foo fp (mkFoo (wraps 32 (f_count f - 1)) (f_id f) (f_next f)))
  else
    let idx := HASH (f_id f) in
    do tfp <- get (head idx);
    do fuel <- get heap_fuel;
    run (if tfp =? fp then put (set_head idx (f_next f)) else unlink_loop fuel fp (f_next f) tfp);
    put (free_foo fp).

(** ** The threads *)

(** Where a thread is between its steps. *)
Inductive pc :=
| Idle                (* outside the operations *)
| AInit (fp : Z)      (* foo_alloc: has f_lock, initialises *)
| FHold (fp : Z)      (* foo_find: has hashlock, calls foo_hold(fp) *)
| RWant (fp : Z)      (* foo_rele: saw the count 1, wants hashlock *)
| RHave (fp : Z).     (* foo_rele: has hashlock, wants f_lock *)

(** The object an operation is at. *)
Definition working_on (c : pc) : option Z :=
  match c with Idle => None | AInit fp | FHold fp | RWant fp | RHave fp => Some fp end.

(** The references a thread owns; [foo_rele] gives one up. *)
Record thread := mkTh { t_pc : pc; refs : list Z }.

(** [hashlock] and the locks of the objects, with their owners. *)
Record sys := mkSys { tab : table; hash_owner : option nat; f_owner : gmap Z nat; thr : gmap nat thread }.

Definition all_refs (s : sys) : list Z := gather refs (thr s).

Inductive step : sys -> sys -> Prop :=
| SAllocFail tb h fo th t r p merr id :
    (* malloc or pthread_mutex_init fails: no lock is taken *)
    th !! t = Some (mkTh Idle r) -> heap tb !! p = None ->
    foo_alloc p merr id tb = Ok 0 tb ->
    step (mkSys tb h fo th) (mkSys tb h fo th)
| SAlloc tb fo th t r p id tb' :
    th !! t = Some (mkTh Idle r) -> heap tb !! p = None -> p <> 0 ->
    foo_alloc p 0 id tb = Ok p tb' ->
    step (mkSys tb None fo th) (mkSys tb' None (<[p := t]> fo) (<[t := mkTh (AInit p) (p :: r)]> th))
| SInit tb h fo th t r fp :
    th !! t = Some (mkTh (AInit fp) r) ->
    step (mkSys tb h fo th) (mkSys tb h (delete fp fo) (<[t := mkTh Idle r]> th))
| SHold tb h fo th t r fp tb' :
    th !! t = Some (mkTh Idle r) -> fp ∈ r -> fo !! fp = None ->
    zlen (gather refs th) < 2 ^ 31 - 1 ->
    foo_hold fp tb = Ok tt tb' ->
    step (mkSys tb h fo th) (mkSys tb' h fo (<[t := mkTh Idle (fp :: r)]> th))
| SFindNone tb fo th t r id :
    th !! t = Some (mkTh Idle r) -> search id tb = Ok 0 tb ->
    step (mkSys tb None fo th) (mkSys tb None fo th)
| SFind tb fo th t r id fp :
    th !! t = Some (mkTh Idle r) -> search id tb = Ok fp tb -> fp <> 0 ->
    step (mkSys tb None fo th) (mkSys tb (Some t) fo (<[t := mkTh (FHold fp) r]> th))
| SFindHold tb h fo th t r fp tb' :
    th !! t = Some (mkTh (FHold fp) r) -> fo !! fp = None ->
    zlen (gather refs th) < 2 ^ 31 - 1 ->
    foo_hold fp tb = Ok tt tb' ->
    step (mkSys tb h fo th) (mkSys tb' None fo (<[t := mkTh Idle (fp :: r)]> th))
| SRele tb h fo th t r fp r' tb' :
    th !! t = Some (mkTh Idle r) -> r ≡ₚ fp :: r' -> fo !! fp = None ->
    rele_first fp tb = Ok false tb' ->
    step (mkSys tb h fo th) (mkSys tb' h fo (<[t := mkTh Idle r']> th))
| SReleLast tb h fo th t r fp :
    th !! t = Some (mkTh Idle r) -> fp ∈ r -> fo !! fp = None ->
    rele_first fp tb = Ok true tb ->
    step (mkSys tb h fo th) (mkSys tb h fo (<[t := mkTh (RWant fp) r]> th))
| SReleLock tb fo th t r fp :
    th !! t = Some (mkTh (RWant fp) r) ->
    step (mkSys tb None fo th) (mkSys tb (Some t) fo (<[t := mkTh (RHave fp) r]> th))
| SReleEnd tb h fo th t r fp r' tb' :
    th !! t = Some (mkTh (RHave fp) r) -> r ≡ₚ fp :: r' -> fo !! fp = None ->
    rele_second fp tb = Ok tt tb' ->
    step (mkSys tb h fo th) (mkSys tb' None fo (<[t := mkTh Idle r']> th)).

Definition start (ts : gset nat) : sys := mkSys (mkTable ∅ ∅) None ∅ (gset_to_gmap (mkTh Idle []) ts).

(** ** The invariant *)
Definition occ (p : Z) (l : list Z) : Z := zlen (filter (fun x => x = p) l).

Definition has_hash (c : pc) : bool := match c with FHold _ | RHave _ => true | _ => false end.

(** The object a thread is working on is one it has a reference to. *)
Definition pc_ok (x : thread) (l : list obj) : Prop :=
  match t_pc x with
  | Idle => True
  | AInit fp | RWant fp | RHave fp => fp ∈ refs x
  | FHold fp => fp ∈ o_ptr <$> l
  end.

Record inv (s : sys) (l : list obj) : Prop := {
  i_rep : rep (tab s) l;
  i_count o : o ∈ l -> o_count o = occ (o_ptr o) (all_refs s);
  i_bound : Forall (fun o => o_count o < 2 ^ 31) l;
  i_live p : p ∈ all_refs s -> p ∈ o_ptr <$> l;
  i_hash t x : thr s !! t = Some x -> has_hash (t_pc x) = true <-> hash_owner s = Some t;
  i_owner t : hash_owner s = Some t -> is_Some (thr s !! t);
  i_flock p t : f_owner s !! p = Some t <-> exists x, thr s !! t = Some x /\ t_pc x = AInit p;
  i_pc t x : thr s !! t = Some x -> pc_ok x l
}.

(** ** The invariant of the threads of apue.3e/threads/mutex2.c *)
(** ** Counting references *)
#[export] Instance occ_perm p : Proper ((≡ₚ) ==> (=)) (occ p).
Proof. intros l l' H. unfold occ, zlen. by rewrite H. Qed.

Lemma occ_cons p x l : occ p (x :: l) = (if x =? p then 1 else 0) + occ p l.
Proof.
  unfold occ. rewrite filter_cons. destruct (Z.eqb_spec x p) as [->|Hne].
  - rewrite decide_True by done. zl.
  - rewrite decide_False by done. lia.
Qed.

Lemma occ_pos p l : p ∈ l <-> 1 <= occ p l.
Proof.
  unfold occ. split.
  - intros H. assert (p ∈ filter (fun x => x = p) l) as H' by (by apply list_elem_of_filter).
    destruct (filter _ l); [by apply not_elem_of_nil in H'|]. zl.
  - intros H. destruct (filter (fun x => x = p) l) as [|y k] eqn:E; [done|].
    assert (y ∈ y :: k) as Hy by left. rewrite <- E in Hy. apply list_elem_of_filter in Hy as [-> Hy]. done.
Qed.

Lemma occ_le p l : occ p l <= zlen l.
Proof. unfold occ, zlen. pose proof (length_filter (fun x => x = p) l). lia. Qed.

(** ** The operations on the table *)
Lemma search_loop_run id t bl fuel fp :
  chain (links t) fp (o_ptr <$> bl) 0 ->
  (forall o, o ∈ bl -> exists n, heap t !! o_ptr o = Some (mkFoo (o_count o) (o_id o) n)) -> (length bl < fuel)%nat ->
  search_loop fuel id fp t = Ok (match with_id id bl with Some o => o_ptr o | None => 0 end) t.
Proof.
  revert fp fuel. induction bl as [|o bl IH]; intros fp fuel Hc Ho Hf; (destruct fuel as [|fuel]; [simpl in Hf; lia|]).
  - simpl in Hc. by subst fp.
  - simpl in Hc. destruct Hc as (-> & Hnz & n & Hn & Hc). destruct (Ho o ltac:(left)) as [n' Hh].
    unfold links in Hn. rewrite lookup_fmap, Hh in Hn. injection Hn as <-.
    cbn [search_loop]. rewrite eqb_false by done. unfold deref. pstep. rewrite Hh. pstep. cbn [f_id f_next].
    unfold with_id. simpl List.find. destruct (Z.eqb_spec (o_id o) id); [done|].
    apply IH; [done| |simpl in Hf; lia]. intros x Hx. apply Ho. by right.
Qed.

Lemma search_run t l id :
  rep t l -> search id t = Ok (match with_id id l with Some o => o_ptr o | None => 0 end) t.
Proof.
  intros [Hr _]. unfold search. pstep. rewrite <- (with_id_bucket id l).
  pose proof (bucket_length t l (HASH id) Hr) as Hlen. unfold bucket in Hlen. rewrite length_fmap in Hlen.
  apply search_loop_run; [apply (r_chain _ _ Hr)| |unfold heap_fuel; lia].
  intros o [_ Ho]%list_elem_of_filter. by apply (r_obj _ _ Hr).
Qed.

Lemma decr_run t l o n :
  rep t l -> o ∈ l -> o_count o <> 1 -> o_count o < 2 ^ 31 -> heap t !! o_ptr o = Some (mkFoo (o_count o) (o_id o) n) ->
  rep (set_foo (o_ptr o) (mkFoo (wraps 32 (o_count o - 1)) (o_id o) n) t) (adjust (o_ptr o) (-1) l).
Proof.
  intros [Hr Hp] Ho Hne Hb Hh. rewrite Forall_forall in Hp. pose proof (Hp o Ho) as H1. rewrite wraps32_pos by lia. split.
  - replace (o_count o - 1) with (o_count o + -1) by lia. by apply set_count_rep.
  - apply Forall_forall. intros x (y & Hy & ->)%adjust_elem. destruct (Z.eqb_spec (o_ptr y) (o_ptr o)) as [E|]; [|by apply Hp].
    rewrite (ptr_inj l y o (r_nodup _ _ Hr) Hy Ho E). simpl. lia.
Qed.

Lemma rele_first_run t l o :
  rep t l -> o ∈ l -> o_count o < 2 ^ 31 ->
  if o_count o =? 1 then rele_first (o_ptr o) t = Ok true t
  else exists t', rele_first (o_ptr o) t = Ok false t' /\ rep t' (adjust (o_ptr o) (-1) l).
Proof.
  intros Hr Ho Hb. destruct (r_obj _ _ (proj1 Hr) o Ho) as [n Hh]. unfold rele_first, deref. pstep. rewrite Hh. pstep. cbn [f_count].
  destruct (Z.eqb_spec (o_count o) 1) as [E|E]; [done|]. pstep. eexists. split; [done|]. by apply decr_run.
Qed.

Lemma rele_second_run t l o :
  rep t l -> o ∈ l -> o_count o < 2 ^ 31 ->
  exists t', rele_second (o_ptr o) t = Ok tt t' /\
    rep t' (if o_count o =? 1 then filter (fun x => o_ptr x <> o_ptr o) l else adjust (o_ptr o) (-1) l).
Proof.
  intros Hr Ho Hb. destruct (r_obj _ _ (proj1 Hr) o Ho) as [n Hh]. unfold rele_second, deref. pstep. rewrite Hh. pstep. cbn [f_count f_id f_next].
  destruct (Z.eqb_spec (o_count o) 1) as [E|E]; cbn [negb].
  - destruct (unlink_run t l o n (proj1 Hr) Ho Hh) as (t' & Eu & Hrep). cbv zeta in *. pstep. rewrite (pbind_ok _ _ _ _ _ Eu).
    eexists. split; [done|]. split; [done|]. destruct Hr as [_ Hp]. rewrite Forall_forall in Hp |- *.
    intros x [_ Hx]%list_elem_of_filter. by apply Hp.
  - eexists. split; [done|]. by apply decr_run.
Qed.

(** ** Changing one thread *)
Section change.
Context (tb : table) (h : option nat) (fo : gmap Z nat) (th : gmap nat thread) (l : list obj) (t : nat) (x : thread).
Context (Hi : inv (mkSys tb h fo th) l) (Ht : th !! t = Some x).

Let others := gather refs (delete t th).

Lemma inv_change tb' h' fo' x' l' :
  rep tb' l' -> Forall (fun o => o_count o < 2 ^ 31) l' ->
  (forall o, o ∈ l' -> o_count o = occ (o_ptr o) (refs x' ++ others)) ->
  (forall p, p ∈ refs x' ++ others -> p ∈ o_ptr <$> l') ->
  (has_hash (t_pc x') = true <-> h' = Some t) -> (forall t', t' <> t -> h' = Some t' <-> h = Some t') ->
  (forall p, fo' !! p = Some t <-> t_pc x' = AInit p) -> (forall p t', t' <> t -> fo' !! p = Some t' <-> fo !! p = Some t') ->
  pc_ok x' l' -> (forall t' y, t' <> t -> th !! t' = Some y -> pc_ok y l -> pc_ok y l') ->
  inv (mkSys tb' h' fo' (<[t := x']> th)) l'.
Proof.
  intros Hr Hb Hc Hl Hh Hh' Hf Hf' Hp Hp'. pose proof Hi as [_ _ _ _ Gh Go Gf Gp]. simpl in *.
  split; simpl; try done; unfold all_refs; simpl.
  - intros o Ho. rewrite (gather_insert _ _ _ _ _ Ht). by apply Hc.
  - intros p. rewrite (gather_insert _ _ _ _ _ Ht). apply Hl.
  - intros t' y. destruct (decide (t' = t)) as [->|Hne]; [rewrite lookup_insert_eq; by intros [= <-]|].
    rewrite lookup_insert_ne, Hh' by done. apply Gh.
  - intros t' H. destruct (decide (t' = t)) as [->|Hne]; [by rewrite lookup_insert_eq|].
    rewrite lookup_insert_ne by done. apply Go. by apply Hh'.
  - intros p t'. destruct (decide (t' = t)) as [->|Hne]; [rewrite lookup_insert_eq, Hf; naive_solver|].
    rewrite lookup_insert_ne, Hf' by done. apply Gf.
  - intros t' y. destruct (decide (t' = t)) as [->|Hne]; [rewrite lookup_insert_eq; by intros [= <-]|].
    rewrite lookup_insert_ne by done. intros Hy. eapply Hp'; [done|done|]. by eapply Gp.
Qed.

Lemma refs_split : all_refs (mkSys tb h fo th) ≡ₚ refs x ++ others.
Proof. by apply gather_delete. Qed.

Lemma ref_obj p : p ∈ refs x -> exists o, o ∈ l /\ o_ptr o = p /\ o_count o = occ p (refs x ++ others) /\ o_count o < 2 ^ 31.
Proof.
  intros Hp. destruct Hi as [_ Hc Hb Hl _ _ _ _]. assert (p ∈ o_ptr <$> l) as H.
  { apply Hl. rewrite refs_split. apply elem_of_app. by left. }
  apply list_elem_of_fmap in H as (o & -> & Ho). exists o. rewrite Forall_forall in Hb. split_and!; auto.
  rewrite (Hc o Ho). by rewrite refs_split.
Qed.

(** The step changes neither the table nor the references. *)
Lemma inv_move c h' :
  h' = (if has_hash c then Some t else if has_hash (t_pc x) then None else h) -> (has_hash c = true -> h = None \/ h = Some t) ->
  (forall p, c <> AInit p) -> (forall p, t_pc x <> AInit p) -> pc_ok (mkTh c (refs x)) l ->
  inv (mkSys tb h' fo (<[t := mkTh c (refs x)]> th)) l.
Proof.
  intros -> Hn Hc Hx Hp. pose proof Hi as [Gr Gc Gb Gl Gh Go Gf Gp]. simpl in *. pose proof (Gh _ _ Ht) as Ghx.
  apply inv_change; try done; simpl.
  - intros o Ho. rewrite <- refs_split. by apply Gc.
  - intros p. rewrite <- refs_split. apply Gl.
  - destruct (has_hash c); [done|]. destruct (has_hash (t_pc x)) eqn:E; [done|]. split; [done|]. intros H. by apply Ghx in H.
  - intros t' Hne. destruct (has_hash c); [destruct Hn as [-> | ->]; naive_solver|].
    destruct (has_hash (t_pc x)) eqn:E; [|done]. destruct Ghx as [Ghx _]. specialize (Ghx eq_refl). naive_solver.
  - intros p. rewrite Gf. rewrite Ht. naive_solver.
Qed.

End change.

(** ** Every step keeps the invariant *)
Lemma adjust_count p d l A B :
  (forall o, o ∈ l -> o_count o = occ (o_ptr o) A) -> (forall q, occ q B = occ q A + if p =? q then d else 0) ->
  forall o, o ∈ adjust p d l -> o_count o = occ (o_ptr o) B.
Proof.
  intros Hc HB o (o' & Ho & ->)%adjust_elem. specialize (Hc o' Ho). destruct (Z.eqb_spec (o_ptr o') p) as [E|E]; simpl; rewrite HB.
  - rewrite E, Z.eqb_refl. rewrite E in Hc. lia.
  - rewrite eqb_false by congruence. lia.
Qed.

Lemma adjust_bound p l : Forall (fun o => o_count o < 2 ^ 31 - 1) l -> Forall (fun o => o_count o < 2 ^ 31) (adjust p 1 l).
Proof. rewrite !Forall_forall. intros H o (o' & Ho & ->)%adjust_elem. specialize (H o' Ho). destruct (_ =? _); simpl in *; lia. Qed.

Lemma adjust_bound_down p l : Forall (fun o => o_count o < 2 ^ 31) l -> Forall (fun o => o_count o < 2 ^ 31) (adjust p (-1) l).
Proof. rewrite !Forall_forall. intros H o (o' & Ho & ->)%adjust_elem. specialize (H o' Ho). destruct (_ =? _); simpl in *; lia. Qed.

Lemma pc_ok_ptrs y l l' : o_ptr <$> l ⊆ o_ptr <$> l' -> pc_ok y l -> pc_ok y l'.
Proof. intros Hs. unfold pc_ok. destruct (t_pc y); auto. Qed.

Section cases.
Context (tb : table) (h : option nat) (fo : gmap Z nat) (th : gmap nat thread) (l : list obj) (t : nat).
Context (Hi : inv (mkSys tb h fo th) l).

Lemma hold_inv c r fp tb' :
  th !! t = Some (mkTh c r) -> c = Idle \/ c = FHold fp -> fp ∈ o_ptr <$> l -> zlen (gather refs th) < 2 ^ 31 - 1 ->
  foo_hold fp tb = Ok tt tb' ->
  inv (mkSys tb' (if has_hash c then None else h) fo (<[t := mkTh Idle (fp :: r)]> th)) (adjust fp 1 l).
Proof.
  intros Ht Hc Hfp Hb E. pose proof Hi as [Gr Gc Gb Gl Gh Go Gf Gp]. simpl in *.
  assert (Forall (fun o => o_count o < 2 ^ 31 - 1) l) as Hlt.
  { apply Forall_forall. intros o Ho. rewrite (Gc o Ho). unfold all_refs. simpl. pose proof (occ_le (o_ptr o) (gather refs th)). lia. }
  destruct (hold_run tb l fp Gr Hlt Hfp) as (tb1 & E1 & Hr). rewrite E in E1. injection E1 as <-.
  pose proof (Gh _ _ Ht) as Ghx. simpl in Ghx.
  apply (inv_change tb h fo th l t (mkTh c r) Hi Ht); try done; simpl.
  - by apply adjust_bound.
  - apply (adjust_count _ _ _ (all_refs (mkSys tb h fo th))); [done|]. intros q. rewrite (refs_split tb h fo th t _ Ht).
    simpl. rewrite occ_cons. lia.
  - intros p. rewrite adjust_ptrs. intros [->|Hp]%elem_of_cons; [done|]. apply Gl. by rewrite (refs_split tb h fo th t _ Ht).
  - split; [done|]. destruct (has_hash c) eqn:Ec; [done|]. intros H%Ghx. done.
  - intros t' Hne. destruct (has_hash c) eqn:Ec; [|done]. destruct Ghx as [Ghx _]. specialize (Ghx eq_refl). naive_solver.
  - intros p. rewrite Gf, Ht. destruct Hc as [-> | ->]; naive_solver.
  - intros t' y _ _. apply pc_ok_ptrs. by rewrite adjust_ptrs.
Qed.

(** Giving up one of several references. *)
Lemma decr_inv c r fp r' tb' :
  th !! t = Some (mkTh c r) -> (c = Idle \/ c = RHave fp) -> r ≡ₚ fp :: r' -> rep tb' (adjust fp (-1) l) ->
  inv (mkSys tb' (if has_hash c then None else h) fo (<[t := mkTh Idle r']> th)) (adjust fp (-1) l).
Proof.
  intros Ht Hc Hr Hrep. pose proof Hi as [Gr Gc Gb Gl Gh Go Gf Gp]. simpl in *. pose proof (Gh _ _ Ht) as Ghx. simpl in Ghx.
  apply (inv_change tb h fo th l t (mkTh c r) Hi Ht); try done; simpl.
  - by apply adjust_bound_down.
  - apply (adjust_count _ _ _ (all_refs (mkSys tb h fo th))); [done|]. intros q. rewrite (refs_split tb h fo th t _ Ht).
    simpl. rewrite Hr. simpl. rewrite occ_cons. destruct (_ =? _); lia.
  - intros p Hp. rewrite adjust_ptrs. apply Gl. rewrite (refs_split tb h fo th t _ Ht). simpl. rewrite Hr. by right.
  - split; [done|]. destruct (has_hash c) eqn:Ec; [done|]. intros H%Ghx. done.
  - intros t' Hne. destruct (has_hash c) eqn:Ec; [|done]. destruct Ghx as [Ghx _]. specialize (Ghx eq_refl). naive_solver.
  - intros p. rewrite Gf, Ht. destruct Hc as [-> | ->]; naive_solver.
  - intros t' y _ _. apply pc_ok_ptrs. by rewrite adjust_ptrs.
Qed.

(** Giving up the last one: no other thread can be about to use the
    object. *)
Lemma last_inv r r' tb' o :
  th !! t = Some (mkTh (RHave (o_ptr o)) r) -> r ≡ₚ o_ptr o :: r' -> o ∈ l -> o_count o = 1 ->
  rep tb' (filter (fun x => o_ptr x <> o_ptr o) l) ->
  inv (mkSys tb' None fo (<[t := mkTh Idle r']> th)) (filter (fun x => o_ptr x <> o_ptr o) l).
Proof.
  intros Ht Hr Ho H1 Hrep. pose proof Hi as [Gr Gc Gb Gl Gh Go Gf Gp]. simpl in *. pose proof (Gh _ _ Ht) as [Ghx _]. specialize (Ghx eq_refl).
  assert (all_refs (mkSys tb h fo th) ≡ₚ o_ptr o :: r' ++ gather refs (delete t th)) as Hall.
  { rewrite (refs_split tb h fo th t _ Ht). simpl. by rewrite Hr. }
  assert (o_ptr o ∉ r' ++ gather refs (delete t th)) as Hno.
  { rewrite occ_pos. pose proof (Gc o Ho) as Hc. rewrite Hall, occ_cons, Z.eqb_refl in Hc. lia. }
  apply (inv_change tb h fo th l t (mkTh (RHave (o_ptr o)) r) Hi Ht); try done; simpl.
  - rewrite Forall_forall in Gb |- *. intros x [_ Hx]%list_elem_of_filter. auto.
  - intros x [Hx Hxl]%list_elem_of_filter. rewrite (Gc x Hxl), Hall, occ_cons, eqb_false by congruence. lia.
  - intros p Hp. assert (p ∈ o_ptr <$> l) as Hpl by (apply Gl; rewrite Hall; by right).
    apply list_elem_of_fmap in Hpl as (x & -> & Hx). apply list_elem_of_fmap. exists x. split; [done|].
    apply list_elem_of_filter. split; [|done]. congruence.
  - naive_solver.
  - intros p. rewrite Gf, Ht. naive_solver.
  - intros t' y Hne Hy. pose proof (Gh _ _ Hy) as Hyh. unfold pc_ok. destruct (t_pc y); try done. destruct Hyh as [Hyh _]. specialize (Hyh eq_refl). congruence.
Qed.

Lemma alloc_inv r p id tb' :
  h = None -> th !! t = Some (mkTh Idle r) -> heap tb !! p = None -> p <> 0 -> foo_alloc p 0 id tb = Ok p tb' ->
  inv (mkSys tb' None (<[p := t]> fo) (<[t := mkTh (AInit p) (p :: r)]> th)) (mkObj p id 1 :: l).
Proof.
  intros -> Ht Hp Hp0 E. pose proof Hi as [Gr Gc Gb Gl Gh Go Gf Gp]. simpl in *.
  assert (p ∉ o_ptr <$> l) as Hpl.
  { intros (o & -> & Ho)%list_elem_of_fmap. destruct (r_obj _ _ (proj1 Gr) o Ho) as [n Hn]. congruence. }
  assert (p ∉ all_refs (mkSys tb None fo th)) as Hpr by (intros H%Gl; done).
  destruct (alloc_run tb l p 0 id Gr Hpl) as (tb1 & E1 & Hrep). rewrite E in E1. simpl in E1, Hrep. rewrite eqb_false in E1, Hrep by done.
  simpl in E1, Hrep. injection E1 as <-.
  assert (fo !! p = None) as Hfo.
  { destruct (fo !! p) as [u|] eqn:Eu; [|done]. apply Gf in Eu as (x & Hx & Hpc). exfalso. apply Hpr.
    apply gather_elem. exists u, x. split; [done|]. specialize (Gp _ _ Hx). unfold pc_ok in Gp. by rewrite Hpc in Gp. }
  rewrite (refs_split tb None fo th t _ Ht) in Hpr. simpl in Hpr.
  apply (inv_change tb None fo th l t (mkTh Idle r) Hi Ht); try done; simpl.
  - constructor; [simpl; lia|done].
  - intros o [->|Ho]%elem_of_cons; simpl; rewrite occ_cons.
    + rewrite Z.eqb_refl. rewrite occ_pos in Hpr. unfold occ in *. pose proof (zlen_nonneg (filter (fun x => x = p) (r ++ gather refs (delete t th)))). lia.
    + rewrite (Gc o Ho), (refs_split tb None fo th t _ Ht). simpl. rewrite eqb_false; [lia|].
      intros ->. apply Hpl, list_elem_of_fmap. eauto.
  - intros q [->|Hq]%elem_of_cons; csimpl; [left|]. right. apply Gl. by rewrite (refs_split tb None fo th t _ Ht).
  - intros q. destruct (decide (q = p)) as [->|Hne]; [by rewrite lookup_insert_eq|].
    rewrite lookup_insert_ne, Gf, Ht by done. naive_solver.
  - intros q t' Hne. destruct (decide (q = p)) as [->|Hnq]; [rewrite lookup_insert_eq; naive_solver|by rewrite lookup_insert_ne].
  - unfold pc_ok. simpl. left.
  - intros t' y _ _. apply pc_ok_ptrs. csimpl. set_solver.
Qed.

Lemma init_inv r fp :
  th !! t = Some (mkTh (AInit fp) r) -> inv (mkSys tb h (delete fp fo) (<[t := mkTh Idle r]> th)) l.
Proof.
  intros Ht. pose proof Hi as [Gr Gc Gb Gl Gh Go Gf Gp]. simpl in *. pose proof (Gh _ _ Ht) as Ghx. simpl in Ghx.
  assert (fo !! fp = Some t) as Hfo by (apply Gf; by eexists).
  apply (inv_change tb h fo th l t _ Hi Ht); try done; simpl.
  - intros o Ho. rewrite (Gc o Ho), (refs_split tb h fo th t _ Ht). done.
  - intros p Hp. apply Gl. by rewrite (refs_split tb h fo th t _ Ht).
  - intros p. destruct (decide (p = fp)) as [->|Hne]; [rewrite lookup_delete_eq; naive_solver|].
    rewrite lookup_delete_ne, Gf, Ht by done. naive_solver.
  - intros p t' Hne. destruct (decide (p = fp)) as [->|Hnp]; [rewrite lookup_delete_eq; naive_solver|by rewrite lookup_delete_ne].
Qed.

End cases.

Lemma foo2_inv_step s s' l : inv s l -> step s s' -> exists l', inv s' l'.
Proof.
  intros Hi Hst. destruct Hst as [tb h fo th t r p merr id Ht Hp E|tb fo th t r p id tb' Ht Hp Hp0 E|tb h fo th t r fp Ht
    |tb h fo th t r fp tb' Ht Hfp Hf Hb E|tb fo th t r id Ht E|tb fo th t r id fp Ht E Hfp|tb h fo th t r fp tb' Ht Hf Hb E
    |tb h fo th t r fp r' tb' Ht Hr Hf E|tb h fo th t r fp Ht Hfp Hf E|tb fo th t r fp Ht|tb h fo th t r fp r' tb' Ht Hr Hf E].
  - by exists l.
  - eexists. by eapply alloc_inv.
  - exists l. by eapply init_inv.
  - destruct (ref_obj _ _ _ _ _ _ _ Hi Ht fp Hfp) as (o & Ho & <- & _). eexists.
    eapply (hold_inv tb h fo th l t Hi Idle); [done|by left| |done|done]. apply list_elem_of_fmap. eauto.
  - by exists l.
  - exists l. apply (inv_move tb None fo th l t _ Hi Ht (FHold fp) (Some t)); try done; [by left|].
    unfold pc_ok. simpl. pose proof (i_rep _ _ Hi) as Hrep. simpl in Hrep. rewrite (search_run _ _ id Hrep) in E. injection E as <-.
    destruct (with_id id l) as [o|] eqn:Eo; [|done]. apply with_id_elem in Eo. apply list_elem_of_fmap. eauto.
  - eexists. eapply (hold_inv tb h fo th l t Hi (FHold fp)); [done|by right| |done|done]. apply (i_pc _ _ Hi _ _ Ht).
  - destruct (ref_obj _ _ _ _ _ _ _ Hi Ht fp) as (o & Ho & <- & Hc & Hb); [simpl; rewrite Hr; left|].
    pose proof (rele_first_run tb l o (i_rep _ _ Hi) Ho Hb) as Hrun. destruct (o_count o =? 1); [congruence|].
    destruct Hrun as (tb1 & E1 & Hrep). rewrite E in E1. injection E1 as <-. eexists. eapply (decr_inv tb h fo th l t Hi Idle); eauto.
  - exists l. apply (inv_move tb h fo th l t _ Hi Ht (RWant fp) h); try done.
  - exists l. apply (inv_move tb None fo th l t _ Hi Ht (RHave fp) (Some t)); try done; [by left|]. apply (i_pc _ _ Hi _ _ Ht).
  - destruct (ref_obj _ _ _ _ _ _ _ Hi Ht fp) as (o & Ho & <- & Hc & Hb); [simpl; rewrite Hr; left|].
    destruct (rele_second_run tb l o (i_rep _ _ Hi) Ho Hb) as (tb1 & E1 & Hrep). rewrite E in E1. injection E1 as <-.
    destruct (Z.eqb_spec (o_count o) 1) as [H1|H1].
    + eexists. by eapply last_inv.
    + eexists. eapply (decr_inv tb h fo th l t Hi (RHave (o_ptr o))); eauto.
Qed.

Lemma foo2_inv_start ts : inv (start ts) [].
Proof.
  assert (forall f : thread -> list Z, f (mkTh Idle []) = [] -> gather f (gset_to_gmap (mkTh Idle []) ts) = []) as Hg.
  { intros f Hf. destruct (gather f _) as [|b k] eqn:E; [done|]. assert (b ∈ b :: k) as Hb by left.
    rewrite <- E in Hb. apply gather_elem in Hb as (t & y & Hy & Hb). apply lookup_gset_to_gmap_Some in Hy as [_ <-].
    rewrite Hf in Hb. by apply not_elem_of_nil in Hb. }
  split; simpl; try done.
  - split; [|constructor]. split; try constructor; [by intros p []|by intros o ?%not_elem_of_nil].
  - by intros o ?%not_elem_of_nil.
  - intros p. unfold all_refs. simpl. by rewrite Hg.
  - intros t x [_ <-]%lookup_gset_to_gmap_Some. done.
  - intros p t. rewrite lookup_empty. split; [done|]. intros (x & [_ <-]%lookup_gset_to_gmap_Some & ?). done.
  - intros t x [_ <-]%lookup_gset_to_gmap_Some. done.
Qed.

Lemma foo2_reach ts s : rtc step (start ts) s -> exists l, inv s l.
Proof.
  intros H. assert (exists l, inv (start ts) l) as H0 by (exists []; apply foo2_inv_start). revert H0.
  induction H as [|s s' s'' Hst _ IH]; [done|]. intros [l Hl]. by apply IH, (foo2_inv_step s s' l).
Qed.

(** ** Progress *)

(** A thread inside an operation. *)
Definition busy (x : thread) : bool := match t_pc x with Idle => false | _ => true end.

(** A thread inside an operation can take its next step. *)
Definition can_go (s : sys) : Prop :=
  exists u y, thr s !! u = Some y /\ busy y = true /\ exists s', step s s' /\ thr s' !! u <> Some y.

Section progress.
Context (tb : table) (h : option nat) (fo : gmap Z nat) (th : gmap nat thread) (l : list obj).
Context (Hi : inv (mkSys tb h fo th) l) (Hb : zlen (gather refs th) < 2 ^ 31 - 1).

Lemma go_by u y s' x' :
  th !! u = Some y -> busy y = true -> step (mkSys tb h fo th) s' -> thr s' = <[u := x']> th -> x' <> y -> can_go (mkSys tb h fo th).
Proof. intros Hu Hy Hst Hs Hne. exists u, y. split_and!; [done|done|]. exists s'. split; [done|]. rewrite Hs, lookup_insert_eq. congruence. Qed.

(** The owner of the lock of an object can release it. *)
Lemma go_flock fp : fo !! fp <> None -> can_go (mkSys tb h fo th).
Proof.
  intros Hfp. destruct (fo !! fp) as [u|] eqn:E; [|done]. apply (i_flock _ _ Hi) in E as ([c r] & Hu & Hc). simpl in Hc. subst c.
  by eapply go_by; [done|done|by eapply SInit|done|].
Qed.

(** The owner of [hashlock] can go on. *)
Lemma go_hash u c r : th !! u = Some (mkTh c r) -> has_hash c = true -> can_go (mkSys tb h fo th).
Proof.
  intros Hu Hc. pose proof Hi as [Gr Gc Gb Gl Gh Go Gf Gp]. simpl in *.
  pose proof (Gp _ _ Hu) as Hpc. unfold pc_ok in Hpc. simpl in Hpc. destruct c as [|fp|fp|fp|fp]; try done;
    (destruct (fo !! fp) eqn:E; [apply (go_flock fp); by rewrite E|]).
  - assert (Forall (fun o => o_count o < 2 ^ 31 - 1) l) as Hlt.
    { apply Forall_forall. intros o Ho. rewrite (Gc o Ho). unfold all_refs. simpl. pose proof (occ_le (o_ptr o) (gather refs th)). lia. }
    destruct (hold_run tb l fp Gr Hlt Hpc) as (tb' & E' & _). by eapply go_by; [done|done|by eapply SFindHold|done|].
  - destruct (ref_obj _ _ _ _ _ _ _ Hi Hu fp Hpc) as (o & Ho & <- & _ & Hob).
    destruct (rele_second_run tb l o Gr Ho Hob) as (tb' & E' & _). apply list_elem_of_split in Hpc as (a & b & Hab).
    assert (r ≡ₚ o_ptr o :: a ++ b) as Hp by (rewrite Hab; symmetry; apply Permutation_middle).
    eapply go_by; [done|done|by eapply SReleEnd|done|done].
Qed.

(** No thread waits for a lock for ever: when some thread is inside an
    operation, a thread inside an operation can go on. *)
Lemma foo2_progress t x : th !! t = Some x -> busy x = true -> can_go (mkSys tb h fo th).
Proof.
  intros Ht Hbusy. destruct x as [c r]. destruct c as [|fp|fp|fp|fp]; try done; [| | |by eapply go_hash].
  - apply (go_flock fp). intros H. apply eq_None_not_Some in H. apply H. exists t. apply (i_flock _ _ Hi). by eexists.
  - by eapply go_hash.
  - assert (h = None \/ exists u, h = Some u) as [Hn|[u Hu]] by (destruct h; eauto).
    + eapply go_by; [done|done|rewrite Hn; by eapply SReleLock|done|done].
    + destruct (i_owner _ _ Hi u Hu) as [[c' r'] Hu']. eapply go_hash; [done|]. by apply (i_hash _ _ Hi _ _ Hu').
Qed.

End progress.
