(* ===== verification/JobQ.v ===== *)
(** * The queue of jobs of apue.3e/threads/rwlock.c

    [queue_init], [job_insert], [job_append], [job_remove] and [job_find] on
    a doubly linked list of jobs.  Each holds [q_lock] from its first access
    to the queue to its last, the writers for writing and [job_find] for
    reading, so an execution of several threads is a sequence of the
    operations.  An access through an invalid pointer aborts. *)
From S2P Require Import Prelude Chain.

Open Scope prog_scope.

(** A job: [j_next] and [j_prev] are the links of its node, the data is
    [j_id]. *)
Abbreviation job := (node Z).
Abbreviation j_next := n_next.
Abbreviation j_prev := n_prev.
Abbreviation j_id := n_data.

(** The queue and the jobs in memory. *)
Abbreviation queue := (dl Z).
Abbreviation q_head := d_head.
Abbreviation q_tail := d_tail.

(** [err] is what [pthread_rwlock_init] returns. *)
Definition queue_init (err : Z) : Prog queue Z :=
  run put (set_head 0);
  run put (set_tail 0);
  if negb (err =? 0) then pret err else pret 0.

Definition job_insert (jp : Z) : Prog queue unit :=
  do h <- get q_head;
  run set_next jp h;
  run set_prev jp 0;
  run (if negb (h =? 0) then set_prev h jp else put (set_tail jp));
  put (set_head jp).

Definition job_append (jp : Z) : Prog queue unit :=
  run set_next jp 0;
  do t <- get q_tail;
  run set_prev jp t;
  run (if negb (t =? 0) then set_next t jp else put (set_head jp));
  put (set_tail jp).

Definition job_remove (jp : Z) : Prog queue unit :=
  do h <- get q_head;
  do t <- get q_tail;
  do j <- deref jp;
  if jp =? h then
    run put (set_head (j_next j));
    if t =? jp then put (set_tail 0) else set_prev (j_next j) (j_prev j)
  else if jp =? t then
    run put (set_tail (j_prev j));
    set_next (j_prev j) (j_next j)
  else
    run set_next (j_prev j) (j_next j);
    do j <- deref jp;
    set_prev (j_next j) (j_prev j).

(** [for (jp = qp->q_head; jp != NULL; jp = jp->j_next)]; thread
    identifiers are compared as numbers. *)
Fixpoint job_find_loop (fuel : nat) (id jp : Z) : Prog queue Z :=
  match fuel with
  | O => die "fuel"
  | S fuel =>
      if jp =? 0 then pret 0
      else
        do j <- deref jp;
        if j_id j =? id then pret jp else job_find_loop fuel id (j_next j)
  end.

(** [err] is what [pthread_rwlock_rdlock] returns. *)
Definition job_find (err id : Z) : Prog queue Z :=
  if negb (err =? 0) then pret 0
  else
    do fuel <- get (fun q => S (size (d_mem q)));
    do h <- get q_head;
    job_find_loop fuel id h.

(** ** The abstract queue

    A list of jobs; [ids] says which thread handles a job. *)
Inductive jop := Init (err : Z) | Insert (p : Z) | Append (p : Z) | Remove (p : Z) | Find (err id : Z).

Definition abs_find (ids : gmap Z Z) (id : Z) (l : list Z) : Z :=
  default 0 (List.find (fun p => bool_decide (ids !! p = Some id)) l).

Definition abs_op (ids : gmap Z Z) (op : jop) (l : list Z) : Z * list Z :=
  match op with
  | Init err => (err, [])
  | Insert p => (0, p :: l)
  | Append p => (0, l ++ [p])
  | Remove p => (0, filter (fun x => x <> p) l)
  | Find err id => (if err =? 0 then abs_find ids id l else 0, l)
  end.

Definition run_op (op : jop) : Prog queue Z :=
  match op with
  | Init err => queue_init err
  | Insert p => run job_insert p; pret 0
  | Append p => run job_append p; pret 0
  | Remove p => run job_remove p; pret 0
  | Find err id => job_find err id
  end.

(** What the callers do: a job is added when it is not on the queue and
    removed when it is. *)
Definition op_ok (ids : gmap Z Z) (op : jop) (l : list Z) : Prop :=
  match op with
  | Insert p | Append p => is_Some (ids !! p) /\ p <> 0 /\ p ∉ l
  | Remove p => p ∈ l
  | Init _ | Find _ _ => True
  end.

#[export] Instance jop_ok_dec ids op l : Decision (op_ok ids op l).
Proof. destruct op; simpl; apply _. Defined.

(** ** The representation *)
Abbreviation rep := dl_rep.

(** Sequences of operations, in the order of their critical sections. *)
Fixpoint run_ops (ops : list jop) : Prog queue (list Z) :=
  match ops with
  | [] => pret []
  | op :: ops => do r <- run_op op; do rs <- run_ops ops; pret (r :: rs)
  end.

Fixpoint abs_ops (ids : gmap Z Z) (ops : list jop) (l : list Z) : list Z * list Z :=
  match ops with
  | [] => ([], l)
  | op :: ops => let '(r, l1) := abs_op ids op l in let '(rs, l2) := abs_ops ids ops l1 in (r :: rs, l2)
  end.

Fixpoint ops_ok (ids : gmap Z Z) (ops : list jop) (l : list Z) : Prop :=
  match ops with
  | [] => True
  | op :: ops => op_ok ids op l /\ ops_ok ids ops (abs_op ids op l).2
  end.

#[export] Instance jops_ok_dec ids ops l : Decision (ops_ok ids ops l).
Proof. revert l. induction ops; intros l; simpl; apply _. Defined.

(** ** The operations *)
Lemma insert_run ids q l p :
  rep ids q l -> op_ok ids (Insert p) l -> exists q', job_insert p q = Ok tt q' /\ rep ids q' (p :: l).
Proof.
  intros Hr (Hp & Hp0 & Hpl). pose proof (dlist_push _ _ _ _ _ _ (proj2 Hr) Hpl Hp0) as Hpush.
  pose proof (rep_view _ _ _ Hr) as Hv0. unfold job_insert. pstep. store; [done|]. store; [done|].
  destruct (Z.eqb_spec (q_head q) 0) as [Hz|Hz]; simpl; pstep.
  - eexists. split; [done|]. eapply view_rep; eauto with dlops.
  - store; [eapply rep_datas, dlist_first; [done|apply Hr|done]|].
    eexists. split; [done|]. eapply view_rep; eauto with dlops.
Qed.

Lemma append_run ids q l p :
  rep ids q l -> op_ok ids (Append p) l -> exists q', job_append p q = Ok tt q' /\ rep ids q' (l ++ [p]).
Proof.
  intros Hr (Hp & Hp0 & Hpl). pose proof (dlist_append _ _ _ _ _ _ (proj2 Hr) Hpl Hp0) as Hpush.
  pose proof (rep_view _ _ _ Hr) as Hv0. unfold job_append. pstep. store; [done|].
  assert (q_tail d' = q_tail q) as -> by apply Hv. store; [done|].
  destruct (Z.eqb_spec (q_tail q) 0) as [Hz|Hz]; simpl; pstep.
  - eexists. split; [done|]. eapply view_rep; eauto with dlops.
  - store; [eapply rep_datas, dlist_last; [done|apply Hr|done]|].
    eexists. split; [done|]. eapply view_rep; eauto with dlops.
Qed.

Lemma remove_run ids q l p :
  rep ids q l -> p ∈ l -> exists q', job_remove p q = Ok tt q' /\ rep ids q' (filter (fun x => x <> p) l).
Proof.
  intros Hr Hp. pose proof (rep_view _ _ _ Hr) as Hv0. pose proof (rep_datas _ _ _ _ Hr Hp) as Hid.
  destruct (rep_unlink _ _ _ _ Hr Hp) as (j & E & Hnp & Hpp & Hh & Ht & Hin & Hip & Hdl).
  unfold job_remove. pstep. rewrite (pbind_ok _ _ _ _ _ E).
  destruct (Z.eqb_spec p (q_head q)) as [Hph|Hph]; [|destruct (Z.eqb_spec p (q_tail q)) as [Hpt|Hpt]].
  - assert (j_prev j = 0) as Hz by (apply Hh; congruence). rewrite Hz in Hdl. simpl in Hdl. pstep.
    destruct (Z.eqb_spec (q_tail q) p) as [Hpt|Hpt].
    + assert (j_next j = 0) as Hn by tauto. rewrite Hn in *. eexists. split; [done|]. eapply view_rep; [|exact Hdl]. eauto with dlops.
    + assert (j_next j <> 0) as Hn by tauto. rewrite eqb_false in Hdl by done. rewrite Hz. store; [auto|].
      eexists. split; [done|]. by eapply view_rep.
  - assert (j_next j = 0) as Hn by (apply Ht; congruence). rewrite Hn in *.
    assert (j_prev j <> 0) as Hz by (intros H%Hh; congruence). rewrite eqb_false in Hdl by done. pstep.
    store; [auto|]. eexists. split; [done|]. by eapply view_rep.
  - assert (j_next j <> 0) as Hn by (intros H%Ht; congruence).
    assert (j_prev j <> 0) as Hz by (intros H%Hh; congruence). rewrite !eqb_false in Hdl by done.
    destruct (deref_run _ _ _ _ _ p _ Hv0 Hid) as (x & Ex & Hxn & Hxp & _). assert (x = j) as -> by congruence.
    store; [auto|]. destruct (deref_run _ _ _ _ _ p _ Hv Hid) as (j' & E' & Hjn & Hjp & _).
    rewrite (pbind_ok _ _ _ _ _ E'). rewrite lookup_insert_ne, Hxn in Hjn by done. rewrite Hxp in Hjp.
    injection Hjn as <-. injection Hjp as <-. store; [auto|]. eexists. split; [done|]. by eapply view_rep.
Qed.

Lemma job_find_run ids q l fuel id jp :
  chain (nexts q) jp l 0 -> datas q = ids -> (length l < fuel)%nat ->
  job_find_loop fuel id jp q = Ok (abs_find ids id l) q.
Proof.
  intros Hc Hid. revert jp fuel Hc. induction l as [|x l IH]; intros jp fuel Hc Hf; (destruct fuel as [|fuel]; [simpl in Hf; lia|]).
  - simpl in Hc. by subst jp.
  - simpl in Hc. destruct Hc as (-> & Hx & n & Hn & Hc). cbn [job_find_loop]. rewrite eqb_false by done.
    unfold deref. pstep. unfold nexts in Hn. rewrite lookup_fmap in Hn.
    destruct (d_mem q !! x) as [j|] eqn:Ej; [|done]. injection Hn as <-. pstep.
    unfold abs_find. simpl. rewrite <- Hid. unfold datas. rewrite lookup_fmap, Ej. simpl. destruct (Z.eqb_spec (j_id j) id) as [->|Hne].
    + by rewrite bool_decide_true.
    + rewrite bool_decide_false by congruence. fold (datas q). rewrite Hid. apply IH; [done|simpl in Hf; lia].
Qed.

Lemma jop_refines ids op q l :
  rep ids q l -> op_ok ids op l -> exists q', run_op op q = Ok (abs_op ids op l).1 q' /\ rep ids q' (abs_op ids op l).2.
Proof.
  intros Hr Hop. destruct op as [err|p|p|p|err id]; simpl run_op.
  - unfold queue_init. pstep. eexists. split; [by destruct (Z.eqb_spec err 0) as [->|]|].
    split; [apply Hr|apply dlist_nil].
  - destruct (insert_run _ _ _ _ Hr Hop) as (q' & E & Hr'). exists q'. by rewrite (pbind_ok _ _ _ _ _ E).
  - destruct (append_run _ _ _ _ Hr Hop) as (q' & E & Hr'). exists q'. by rewrite (pbind_ok _ _ _ _ _ E).
  - destruct (remove_run _ _ _ _ Hr Hop) as (q' & E & Hr'). exists q'. by rewrite (pbind_ok _ _ _ _ _ E).
  - exists q. split; [|done]. unfold job_find. destruct (Z.eqb_spec err 0) as [->|Hne]; simpl; [|by rewrite eqb_false].
    pstep. eapply job_find_run; [apply Hr|apply Hr|]. pose proof (rep_length _ _ _ Hr). lia.
Qed.
