(* ===== verification/Barrier.v ===== *)
(** * Sorting with threads and a barrier (apue.3e/threads/barrier.c)

    Every thread sorts its part of [nums]; when all have arrived at the
    barrier, [main] merges the parts into [snums].  The number of threads and
    the numbers per thread (8 and 1000000 in the source) are parameters. *)
From stdpp Require Import sorting.
From S2P Require Import Prelude.

Open Scope prog_scope.

Definition LONG_MAX : Z := 2 ^ 63 - 1.

Definition complong (l1 l2 : Z) : Z :=
  if l1 =? l2 then 0 else if l1 <? l2 then -1 else 1.

(** [a[k]] *)
Definition aread {S} (a : list Z) (k : Z) : Prog S Z :=
  if k <? 0 then die "index out of range"
  else match a !! Z.to_nat k with Some v => pret v | None => die "index out of range" end.

(** The local variables of [merge] that live through its loop, and [snums]. *)
Record mvars := mkM { idx : list Z; minidx : option Z; snums : list Z }.

Definition set_idx (i : list Z) (m : mvars) : mvars := mkM i (minidx m) (snums m).
Definition set_minidx (i : Z) (m : mvars) : mvars := mkM (idx m) (Some i) (snums m).
Definition set_snum (k v : Z) (m : mvars) : mvars := mkM (idx m) (minidx m) (<[Z.to_nat k := v]> (snums m)).

Section merge.
Context (NTHR TNUM : Z).

Definition NUMNUM : Z := NTHR * TNUM.

(** [for (i = 0; i < NTHR; i++)] of the search, with [n] rounds left. *)
Fixpoint scan (n : nat) (nums : list Z) (i num : Z) : Prog mvars Z :=
  match n with
  | O => pret num
  | S n =>
      do ix <- get idx;
      do k <- aread ix i;
      if k <? (i + 1) * TNUM then
        do v <- aread nums k;
        if v <? num then run put (set_minidx i); scan n nums (i + 1) v
        else scan n nums (i + 1) num
      else scan n nums (i + 1) num
  end.

(** [for (sidx = 0; sidx < NUMNUM; sidx++)], with [n] rounds left. *)
Fixpoint merge_loop (n : nat) (nums : list Z) (sidx : Z) : Prog mvars unit :=
  match n with
  | O => pret tt
  | S n =>
      run scan (Z.to_nat NTHR) nums 0 LONG_MAX;
      do m <- get minidx;
      match m with
      | None => die "minidx is not set"
      | Some m =>
          do ix <- get idx;
          do k <- aread ix m;
          do v <- aread nums k;
          run guard_die (NUMNUM <=? sidx) "index out of range";
          run put (set_snum sidx v);
          run put (set_idx (<[Z.to_nat m := k + 1]> ix));
          merge_loop n nums (sidx + 1)
      end
  end.

Definition merge (nums : list Z) : Prog mvars unit :=
  run put (set_idx ((fun i => Z.of_nat i * TNUM) <$> seq 0 (Z.to_nat NTHR)));
  merge_loop (Z.to_nat NUMNUM) nums 0.

(** ** The threads *)

(** [heapsort] is a library function. *)
Context (heapsort : (Z -> Z -> Z) -> list Z -> list Z).

(** [thr_fn] for the part that starts at [start]. *)
Definition thr_sort (start : Z) (nums : list Z) : list Z :=
  splice nums start (heapsort complong (slice nums start TNUM)).

(** Where a thread is: before its sort, in [pthread_barrier_wait], after. *)
Inductive tpc := TSort | TWait | TDone.

(** Where [main] is: about to create thread [i], in the barrier, before the
    merge, at the end. *)
Inductive mpc := MCreate (i : Z) | MWait | MMerge | MDone.

Record sys := mkSys { s_nums : list Z; s_snums : list Z; s_thr : list tpc; s_main : mpc }.

Inductive step : sys -> sys -> Prop :=
| SCreate nums sn thr i :
    i < NTHR -> step (mkSys nums sn thr (MCreate i)) (mkSys nums sn (thr ++ [TSort]) (MCreate (i + 1)))
| SArrive nums sn thr i :
    NTHR <= i -> step (mkSys nums sn thr (MCreate i)) (mkSys nums sn thr MWait)
| SSort nums sn thr m t :
    thr !! t = Some TSort ->
    step (mkSys nums sn thr m) (mkSys (thr_sort (Z.of_nat t * TNUM) nums) sn (<[t := TWait]> thr) m)
| SRelease nums sn thr :
    (* the barrier has count NTHR + 1 *)
    Forall (fun x => x = TWait) thr -> zlen thr + 1 = NTHR + 1 ->
    step (mkSys nums sn thr MWait) (mkSys nums sn ((fun _ => TDone) <$> thr) MMerge)
| SMerge nums sn thr m :
    merge nums (mkM [] None sn) = Ok tt m ->
    step (mkSys nums sn thr MMerge) (mkSys nums (snums m) thr MDone).

Definition start (nums sn : list Z) : sys := mkSys nums sn [] (MCreate 0).

End merge.

(** ** What the comparison promises to [heapsort], and [heapsort] in return *)
Definition comparison_ok (cmp : Z -> Z -> Z) : Prop :=
  (forall x y, cmp x y <= 0 \/ cmp y x <= 0) /\ (forall x y z, cmp x y <= 0 -> cmp y z <= 0 -> cmp x z <= 0).

Definition sorts (sort : (Z -> Z -> Z) -> list Z -> list Z) : Prop :=
  forall cmp l, comparison_ok cmp ->
    sort cmp l ≡ₚ l /\ StronglySorted (fun x y => cmp x y <= 0) (sort cmp l).

Lemma complong_le x y : complong x y <= 0 <-> x <= y.
Proof. unfold complong. destruct (Z.eqb_spec x y), (Z.ltb_spec x y); lia. Qed.

Lemma complong_ok : comparison_ok complong.
Proof. split; intros *; rewrite !complong_le; lia. Qed.

(** ** The search for the smallest head *)

(** The part of thread [i] from position [k] on. *)
Definition rest (TNUM : Z) (nums : list Z) (i k : Z) : list Z := slice nums k ((i + 1) * TNUM - k).

Section scan.
Context (NTHR TNUM : Z) (nums : list Z).
Context (Hlen : zlen nums = NTHR * TNUM) (Hmax : Forall (fun v => v < LONG_MAX) nums).

(** The positions are inside their parts. *)
Definition idx_ok (ix : list Z) : Prop :=
  zlen ix = NTHR /\ forall i k, ix !! i = Some k -> Z.of_nat i * TNUM <= k <= (Z.of_nat i + 1) * TNUM.

Lemma aread_ok {S} (a : list Z) k v (s : S) : 0 <= k -> a !! Z.to_nat k = Some v -> aread a k s = Ok v s.
Proof. intros Hk Hv. unfold aread. rewrite ltb_false by done. by rewrite Hv. Qed.

Lemma rest_cons i k v : 0 <= k < (i + 1) * TNUM -> nums !! Z.to_nat k = Some v -> rest TNUM nums i k = v :: rest TNUM nums i (k + 1).
Proof.
  intros Hk Hv. unfold rest, slice. rewrite (drop_S _ v) by done.
  replace (Z.to_nat ((i + 1) * TNUM - k)) with (S (Z.to_nat ((i + 1) * TNUM - (k + 1)))) by lia.
  simpl. by replace (Z.to_nat (k + 1)) with (S (Z.to_nat k)) by lia.
Qed.

Lemma rest_nil i : rest TNUM nums i ((i + 1) * TNUM) = [].
Proof. unfold rest, slice. by replace (Z.to_nat _) with 0%nat by lia. Qed.

Lemma nums_in k : 0 <= k < NTHR * TNUM -> exists v, nums !! Z.to_nat k = Some v /\ v < LONG_MAX.
Proof.
  intros Hk. destruct (lookup_lt_is_Some_2 nums (Z.to_nat k)) as [v Hv]; [unfold zlen in Hlen; lia|].
  exists v. split; [done|]. rewrite Forall_lookup in Hmax. by eapply Hmax.
Qed.

(** After the search of the first [i] parts: their heads are not smaller
    than [num], which is the head of the part found. *)
Definition found (ix : list Z) (i num : Z) (m : option Z) : Prop :=
  (forall j k, Z.of_nat j < i -> ix !! j = Some k -> Forall (fun v => num <= v) (take 1 (rest TNUM nums (Z.of_nat j) k))) /\
  (num = LONG_MAX \/ exists j k, m = Some (Z.of_nat j) /\ ix !! j = Some k /\ take 1 (rest TNUM nums (Z.of_nat j) k) = [num]).

Lemma merge_scan_run n i num s :
  0 <= TNUM -> idx_ok (idx s) -> Z.of_nat n + i = NTHR -> 0 <= i -> found (idx s) i num (minidx s) ->
  exists num' s', scan TNUM n nums i num s = Ok num' s' /\ idx s' = idx s /\ snums s' = snums s /\ found (idx s) NTHR num' (minidx s').
Proof.
  intros HT Hix. revert i num s Hix. induction n as [|n IH]; intros i num s Hix Hn Hi Hf.
  { exists num, s. replace NTHR with i by lia. done. }
  destruct Hix as [Hl Hb]. destruct (lookup_lt_is_Some_2 (idx s) (Z.to_nat i)) as [k Hk]; [unfold zlen in Hl; lia|].
  pose proof (Hb _ _ Hk) as Hk'. rewrite Z2Nat.id in Hk' by lia. cbn [scan]. pstep.
  rewrite (pbind_ok _ _ _ _ _ (aread_ok _ _ _ s Hi Hk)). destruct (Z.ltb_spec k ((i + 1) * TNUM)) as [Hlt|Hge].
  - assert (0 <= k) as Hk0 by (pose proof (Z.mul_nonneg_nonneg i TNUM Hi HT); lia).
    assert ((i + 1) * TNUM <= NTHR * TNUM) as Hup by (apply Z.mul_le_mono_nonneg_r; lia).
    destruct (nums_in k) as (v & Hv & Hvm); [lia|]. rewrite (pbind_ok _ _ _ _ _ (aread_ok _ _ _ s Hk0 Hv)).
    pose proof (rest_cons i k v (conj Hk0 Hlt) Hv) as Hr. destruct (Z.ltb_spec v num) as [Hvn|Hvn]; pstep.
    + destruct (IH (i + 1) v (set_minidx i s)) as (num' & s' & E & H); [done|lia|lia| |by exists num', s'].
      destruct Hf as [Hf _]. split.
      * intros j k' Hj Hk1. simpl in Hk1. destruct (decide (Z.of_nat j = i)) as [<-|Hne].
        { rewrite Nat2Z.id in Hk. rewrite Hk in Hk1. injection Hk1 as <-. rewrite Hr. repeat constructor. lia. }
        eapply Forall_impl; [apply (Hf j); [lia|done]|]. simpl. lia.
      * right. exists (Z.to_nat i), k. simpl. rewrite Z2Nat.id by lia. by rewrite Hr.
    + destruct (IH (i + 1) num s) as (num' & s' & E & H); [done|lia|lia| |by exists num', s'].
      destruct Hf as [Hf Hm]. split; [|done]. intros j k' Hj Hk1. destruct (decide (Z.of_nat j = i)) as [<-|Hne]; [|apply Hf; [lia|done]].
      rewrite Nat2Z.id in Hk. rewrite Hk in Hk1. injection Hk1 as <-. rewrite Hr. repeat constructor. lia.
  - destruct (IH (i + 1) num s) as (num' & s' & E & H); [done|lia|lia| |by exists num', s'].
    destruct Hf as [Hf Hm]. split; [|done]. intros j k' Hj Hk1. destruct (decide (Z.of_nat j = i)) as [<-|Hne]; [|apply Hf; [lia|done]].
    rewrite Nat2Z.id in Hk. rewrite Hk in Hk1. injection Hk1 as <-. replace k with ((Z.of_nat j + 1) * TNUM) by lia. by rewrite rest_nil.
Qed.

(** ** The merge *)

(** What is left of all the parts. *)
Definition rests (ix : list Z) : list Z := concat (imap (fun i k => rest TNUM nums (Z.of_nat i) k) ix).

Lemma rests_in ix y : y ∈ rests ix <-> exists i k, ix !! i = Some k /\ y ∈ rest TNUM nums (Z.of_nat i) k.
Proof.
  unfold rests. rewrite list_elem_of_In, in_concat. setoid_rewrite <- list_elem_of_In. split.
  - intros (l & [i Hi]%list_elem_of_lookup & Hy). rewrite list_lookup_imap in Hi.
    destruct (ix !! i) as [k|] eqn:E; [|done]. injection Hi as <-. eauto.
  - intros (i & k & Hi & Hy). exists (rest TNUM nums (Z.of_nat i) k). split; [|done].
    apply list_elem_of_lookup. exists i. by rewrite list_lookup_imap, Hi.
Qed.

Lemma rests_advance ix j k v :
  ix !! j = Some k -> rest TNUM nums (Z.of_nat j) k = v :: rest TNUM nums (Z.of_nat j) (k + 1) ->
  rests ix ≡ₚ v :: rests (<[j := k + 1]> ix).
Proof.
  intros Hk Hr. pose proof (lookup_lt_Some _ _ _ Hk) as Hj. unfold rests.
  rewrite <- (take_drop_middle ix j k Hk) at 1. rewrite insert_take_drop by done.
  rewrite !imap_app, !concat_app, !imap_cons, !concat_cons. rewrite !length_take, Nat.min_l by lia. unfold compose.
  rewrite Nat.add_0_r, Hr. simpl. symmetry. apply Permutation_middle.
Qed.

(** The parts are sorted. *)
Context (Hsorted : forall i, 0 <= i < NTHR -> StronglySorted Z.le (slice nums (i * TNUM) TNUM)).

Lemma sorted_drop (l : list Z) n : StronglySorted Z.le l -> StronglySorted Z.le (drop n l).
Proof. revert n. induction l as [|x l IH]; intros [|n] Hs; simpl; try done. apply IH. by apply StronglySorted_inv in Hs as [? _]. Qed.

Lemma rest_sorted i k : 0 <= TNUM -> 0 <= i < NTHR -> i * TNUM <= k <= (i + 1) * TNUM -> StronglySorted Z.le (rest TNUM nums i k).
Proof.
  intros HT Hi Hk. pose proof (Z.mul_nonneg_nonneg i TNUM ltac:(lia) HT).
  pose proof (sorted_drop _ (Z.to_nat (k - i * TNUM)) (Hsorted i Hi)) as Hs. unfold rest, slice in *.
  rewrite skipn_firstn_comm, drop_drop in Hs.
  replace (Z.to_nat (i * TNUM) + Z.to_nat (k - i * TNUM))%nat with (Z.to_nat k) in Hs by lia.
  by replace (Z.to_nat TNUM - Z.to_nat (k - i * TNUM))%nat with (Z.to_nat ((i + 1) * TNUM - k)) in Hs by lia.
Qed.

(** The head that was found is the smallest number left. *)
Lemma found_least ix num m :
  0 <= TNUM -> idx_ok ix -> found ix NTHR num m -> rests ix <> [] ->
  (exists j k, m = Some (Z.of_nat j) /\ ix !! j = Some k /\ nums !! Z.to_nat k = Some num /\ Z.of_nat j * TNUM <= k < (Z.of_nat j + 1) * TNUM) /\
  forall y, y ∈ rests ix -> num <= y.
Proof.
  intros HT [Hl Hb] [Hf Hm] Hne.
  assert (forall j k, ix !! j = Some k -> 0 <= Z.of_nat j < NTHR) as Hj.
  { intros j k ?%lookup_lt_Some. unfold zlen in Hl. lia. }
  assert (forall y, y ∈ rests ix -> num <= y) as Hmin.
  { intros y (j & k & Hk & Hy)%rests_in. specialize (Hj j k Hk). pose proof (Hf j k ltac:(lia) Hk) as H1.
    pose proof (rest_sorted _ k HT Hj (Hb _ _ Hk)) as Hs. destruct (rest _ _ _ k) as [|h t]; [by apply not_elem_of_nil in Hy|].
    simpl in H1. apply Forall_cons in H1 as [H1 _]. apply StronglySorted_inv in Hs as [_ Hs]. rewrite Forall_forall in Hs.
    apply elem_of_cons in Hy as [->|Hy]; [done|]. specialize (Hs y Hy). lia. }
  split; [|done]. destruct Hm as [->|(j & k & -> & Hk & Ht)].
  - destruct (rests ix) as [|y l] eqn:E; [done|]. assert (y ∈ y :: l) as Hy by left. specialize (Hmin y Hy).
    rewrite <- E in Hy. apply rests_in in Hy as (i & k & _ & Hy). unfold rest, slice in Hy.
    apply elem_of_take in Hy as (p & Hp & _). rewrite lookup_drop in Hp. rewrite Forall_lookup in Hmax. specialize (Hmax _ _ Hp). simpl in Hmax. lia.
  - exists j, k. pose proof (Hb _ _ Hk) as Hk'. pose proof (Z.mul_nonneg_nonneg (Z.of_nat j) TNUM ltac:(lia) HT).
    unfold rest, slice in Ht. destruct (decide (k = (Z.of_nat j + 1) * TNUM)) as [->|Hn].
    { by replace (Z.to_nat ((Z.of_nat j + 1) * TNUM - (Z.of_nat j + 1) * TNUM)) with 0%nat in Ht by lia. }
    split_and!; try done; [|lia..]. destruct (nums !! Z.to_nat k) as [v|] eqn:E.
    + rewrite (drop_S _ v) in Ht by done. destruct (Z.to_nat _) as [|n]; [done|]. by injection Ht as ->.
    + rewrite drop_ge in Ht by (by apply lookup_ge_None). by rewrite take_nil in Ht.
Qed.

(** What holds before round [sidx]: [out] has been written. *)
Record merging (s : mvars) (sidx : Z) (out : list Z) : Prop := {
  mg_idx : idx_ok (idx s);
  mg_perm : out ++ rests (idx s) ≡ₚ nums;
  mg_sorted : StronglySorted Z.le out;
  mg_below x y : x ∈ out -> y ∈ rests (idx s) -> x <= y;
  mg_out : take (Z.to_nat sidx) (snums s) = out;
  mg_sidx : zlen out = sidx;
  mg_len : zlen (snums s) = NTHR * TNUM
}.

Lemma sorted_snoc (l : list Z) x : StronglySorted Z.le l -> (forall y, y ∈ l -> y <= x) -> StronglySorted Z.le (l ++ [x]).
Proof.
  induction 1 as [|y l Hs IH Hf]; simpl; intros Hx; [repeat constructor|]. constructor.
  - apply IH. intros z Hz. apply Hx. by right.
  - apply Forall_app. split; [done|]. repeat constructor. apply Hx. left.
Qed.

Lemma merge_loop_run n s sidx out :
  0 <= TNUM -> merging s sidx out -> Z.of_nat n + sidx = NTHR * TNUM ->
  exists s', merge_loop NTHR TNUM n nums sidx s = Ok tt s' /\ snums s' ≡ₚ nums /\ StronglySorted Z.le (snums s').
Proof.
  intros HT. revert s sidx out. induction n as [|n IH]; intros s sidx out Hm Hn.
  - exists s. split; [done|]. destruct Hm as [_ Hp Hs _ Ho Hx Hl]. simpl in Hn. subst sidx.
    assert (snums s = out) as -> by (rewrite <- Ho, to_nat_zlen, take_ge; [done|]; unfold zlen in *; lia).
    split; [|done]. assert (rests (idx s) = []) as Hz; [|by rewrite Hz, app_nil_r in Hp].
    apply length_zero_iff_nil. apply Permutation_length in Hp. rewrite length_app in Hp. unfold zlen in *. lia.
  - pose proof Hm as [Hix Hp Hs Hbl Ho Hx Hl]. assert (0 <= sidx) by (subst sidx; zl).
    assert (0 <= NTHR) as HN by (destruct Hix as [<- _]; zl).
    destruct (merge_scan_run (Z.to_nat NTHR) 0 LONG_MAX s HT Hix) as (num & s1 & E & Hi1 & Hs1 & Hf); [lia|lia| |].
    { split; [intros j k ?; lia|by left]. }
    destruct (found_least _ _ _ HT Hix Hf) as [(j & k & Em & Hk & Hv & Hkb) Hmin].
    { intros Hz. rewrite Hz, app_nil_r in Hp. apply Permutation_length in Hp. unfold zlen in *. lia. }
    assert (0 <= k) as Hk0 by (pose proof (Z.mul_nonneg_nonneg (Z.of_nat j) TNUM ltac:(lia) HT); lia).
    cbn [merge_loop]. rewrite (pbind_ok _ _ _ _ _ E). pstep. rewrite Em. pstep. rewrite Hi1.
    rewrite (pbind_ok _ _ _ _ _ (aread_ok _ (Z.of_nat j) k _ ltac:(lia) ltac:(by rewrite Nat2Z.id))).
    rewrite (pbind_ok _ _ _ _ _ (aread_ok _ _ _ _ Hk0 Hv)). rewrite pbind_guard by (unfold NUMNUM; apply leb_false; lia). pstep.
    pose proof (rests_advance _ j k num Hk (rest_cons (Z.of_nat j) k num ltac:(lia) Hv)) as Hadv.
    apply (IH _ _ (out ++ [num])); [|lia]. split; simpl; rewrite ?Nat2Z.id, ?Hs1.
    + destruct Hix as [Hl' Hb]. split; [by rewrite <- Hl'; unfold zlen; rewrite length_insert|].
      intros i k' Hi. destruct (decide (i = j)) as [->|Hne].
      * rewrite list_lookup_insert_eq in Hi by (by eapply lookup_lt_Some). injection Hi as <-. lia.
      * rewrite list_lookup_insert_ne in Hi by done. by apply Hb.
    + rewrite <- app_assoc. simpl. by rewrite <- Hadv.
    + apply sorted_snoc; [done|]. intros y Hy. apply Hbl; [done|]. rewrite Hadv. left.
    + intros x y Hxo Hy. apply elem_of_app in Hxo as [Hxo|Hxo%list_elem_of_singleton]; [|subst x].
      * apply Hbl; [done|]. rewrite Hadv. by right.
      * apply Hmin. rewrite Hadv. by right.
    + replace (Z.to_nat (sidx + 1)) with (S (Z.to_nat sidx)) by lia.
      rewrite (take_S_r _ _ num) by (apply list_lookup_insert_eq; unfold zlen in *; lia).
      by rewrite take_insert_ge, Ho by lia.
    + rewrite zlen_app. unfold zlen in *. simpl. lia.
    + unfold zlen in *. by rewrite length_insert.
Qed.

Lemma rests_start : 0 <= NTHR -> 0 <= TNUM -> rests ((fun i => Z.of_nat i * TNUM) <$> seq 0 (Z.to_nat NTHR)) = nums.
Proof.
  intros HN HT. unfold rests. rewrite imap_fmap.
  assert (forall n s, (n + s <= Z.to_nat NTHR)%nat ->
    concat (imap (fun i k => rest TNUM nums (Z.of_nat (s + i)) (Z.of_nat k * TNUM)) (seq s n)) = slice nums (Z.of_nat s * TNUM) (Z.of_nat n * TNUM)) as H.
  { induction n as [|n IH]; intros s Hs; simpl; [done|]. specialize (IH (S s) ltac:(lia)).
    rewrite (imap_ext _ (fun i k => rest TNUM nums (Z.of_nat (S s + i)) (Z.of_nat k * TNUM))).
    2: { intros i x _. unfold compose. do 2 f_equal. lia. }
    rewrite IH, Nat.add_0_r. unfold rest, slice. replace ((Z.of_nat s + 1) * TNUM - Z.of_nat s * TNUM) with TNUM by lia.
    pose proof (Z.mul_nonneg_nonneg (Z.of_nat s) TNUM ltac:(lia) HT). pose proof (Z.mul_nonneg_nonneg (Z.of_nat n) TNUM ltac:(lia) HT).
    replace (Z.to_nat (Z.of_nat (S s) * TNUM)) with (Z.to_nat (Z.of_nat s * TNUM) + Z.to_nat TNUM)%nat by lia.
    replace (Z.to_nat (Z.of_nat (S n) * TNUM)) with (Z.to_nat TNUM + Z.to_nat (Z.of_nat n * TNUM))%nat by lia.
    rewrite <- drop_drop. apply take_take_drop. }
  specialize (H (Z.to_nat NTHR) 0%nat ltac:(lia)). rewrite Z2Nat.id in H by lia.
  rewrite slice_all in H by (simpl; lia). etransitivity; [|exact H]. reflexivity.
Qed.

Lemma merge_run s :
  0 <= NTHR -> 0 <= TNUM -> zlen (snums s) = NTHR * TNUM ->
  exists s', merge NTHR TNUM nums s = Ok tt s' /\ snums s' ≡ₚ nums /\ StronglySorted Z.le (snums s').
Proof.
  intros HN HT Hl. unfold merge. pstep. apply (merge_loop_run _ _ _ []); [done| |unfold NUMNUM; lia].
  split; simpl; try done; [|by rewrite rests_start|constructor|by intros x y ?%not_elem_of_nil].
  split; [unfold zlen; rewrite length_fmap, length_seq; lia|]. intros i k Hi.
  rewrite list_lookup_fmap in Hi. destruct (seq 0 (Z.to_nat NTHR) !! i) as [j|] eqn:E; [|done].
  apply lookup_seq in E as [-> _]. injection Hi as <-. simpl. lia.
Qed.

End scan.

(** ** The whole program *)

(** Which part of [nums] a thread has sorted. *)
Definition part (TNUM : Z) (nums : list Z) (i : nat) : list Z := slice nums (Z.of_nat i * TNUM) TNUM.

Section system.
Context (NTHR TNUM : Z) (heapsort : (Z -> Z -> Z) -> list Z -> list Z).
Context (HN : 0 <= NTHR) (HT : 0 <= TNUM) (Hsort : sorts heapsort).

Lemma sort_part l : heapsort complong l ≡ₚ l /\ StronglySorted Z.le (heapsort complong l).
Proof.
  destruct (Hsort complong l complong_ok) as [Hp Hs]. split; [done|]. revert Hs. generalize (heapsort complong l).
  induction 1 as [|x k Hk IH Hf]; constructor; [done|]. eapply Forall_impl; [done|]. intros y. by rewrite complong_le.
Qed.

(** One sort: a permutation of [nums] in which only part [t] changes. *)
Lemma thr_sort_spec nums t :
  zlen nums = NTHR * TNUM -> Z.of_nat t < NTHR ->
  let nums' := thr_sort TNUM heapsort (Z.of_nat t * TNUM) nums in
  nums' ≡ₚ nums /\ StronglySorted Z.le (part TNUM nums' t) /\ forall i, i <> t -> part TNUM nums' i = part TNUM nums i.
Proof.
  intros Hl Ht nums'. set (o := Z.of_nat t * TNUM). assert (0 <= o) as Ho by (apply Z.mul_nonneg_nonneg; lia).
  assert (o + TNUM <= zlen nums) as Hoe.
  { rewrite Hl. unfold o. replace (Z.of_nat t * TNUM + TNUM) with ((Z.of_nat t + 1) * TNUM) by lia. apply Z.mul_le_mono_nonneg_r; lia. }
  pose proof (sort_part (slice nums o TNUM)) as [Hp Hs]. set (mid := slice nums o TNUM) in *.
  set (pre := take (Z.to_nat o) nums). set (post := drop (Z.to_nat (o + TNUM)) nums).
  assert (nums = pre ++ mid ++ post) as En.
  { unfold pre, mid, post, slice. replace (Z.to_nat (o + TNUM)) with (Z.to_nat o + Z.to_nat TNUM)%nat by lia.
    by rewrite <- drop_drop, !take_drop. }
  assert (zlen pre = o) as Hpre by (unfold pre, zlen in *; rewrite length_take; lia).
  assert (zlen mid = TNUM) as Hmid by (apply slice_length; lia).
  set (mid' := heapsort complong mid) in *. assert (zlen mid' = TNUM) as Hmid' by (rewrite <- Hmid; unfold zlen; by rewrite Hp).
  assert (nums' = pre ++ mid' ++ post) as En'.
  { unfold nums', thr_sort. fold o. fold mid mid'. apply (splice_at _ _ mid); congruence. }
  split_and!.
  - by rewrite En', Hp, <- En.
  - unfold part. fold o. rewrite En'. by rewrite slice_app.
  - intros i Hi. unfold part. rewrite En', En. clear -HT Hi Hpre Hmid Hmid' Ho. set (q := Z.of_nat i * TNUM).
    assert (0 <= q) as Hq by (apply Z.mul_nonneg_nonneg; lia). unfold slice.
    assert (length pre = Z.to_nat o /\ length mid = Z.to_nat TNUM /\ length mid' = Z.to_nat TNUM) as (L1 & L2 & L3) by (unfold zlen in *; lia).
    destruct (decide (i < t)%nat) as [Hlt|Hge].
    + assert (q + TNUM <= o) by (unfold q, o; nia). rewrite !drop_app_le, !take_app_le; [done|rewrite ?length_drop; lia..].
    + assert (o + TNUM <= q) by (unfold q, o; nia).
      rewrite !(drop_app_ge pre) by lia. rewrite !drop_app_ge by (rewrite ?L2, ?L3; lia). by rewrite L2, L3.
Qed.

(** ** The invariant of the system *)
Definition finished (x : tpc) : bool := match x with TSort => false | _ => true end.

Record inv (nums0 : list Z) (s : sys) : Prop := {
  i_perm : s_nums s ≡ₚ nums0;
  i_len : zlen (s_snums s) = NTHR * TNUM;
  i_thr : zlen (s_thr s) <= NTHR;
  i_part t x : s_thr s !! t = Some x -> finished x = true -> StronglySorted Z.le (part TNUM (s_nums s) t);
  i_main : match s_main s with
           | MCreate i => zlen (s_thr s) = i /\ Forall (fun x => x <> TDone) (s_thr s)
           | MWait => zlen (s_thr s) = NTHR /\ Forall (fun x => x <> TDone) (s_thr s)
           | MMerge => zlen (s_thr s) = NTHR /\ Forall (fun x => x = TDone) (s_thr s)
           | MDone => Forall (fun x => x = TDone) (s_thr s) /\ s_snums s ≡ₚ nums0 /\ StronglySorted Z.le (s_snums s)
           end
}.

Lemma inv_merge nums0 nums sn thr :
  zlen nums0 = NTHR * TNUM -> Forall (fun v => v < LONG_MAX) nums0 -> inv nums0 (mkSys nums sn thr MMerge) ->
  exists m, merge NTHR TNUM nums (mkM [] None sn) = Ok tt m /\ snums m ≡ₚ nums0 /\ StronglySorted Z.le (snums m).
Proof.
  intros H0 Hmax [Hp Hl Hth Hpart [Hn Hd]]. simpl in *.
  destruct (merge_run NTHR TNUM nums) with (s := mkM [] None sn) as (m & E & Hm & Hs); try done.
  - unfold zlen in *. by rewrite Hp.
  - by rewrite Hp.
  - intros i Hi. destruct (lookup_lt_is_Some_2 thr (Z.to_nat i)) as [x Hx]; [unfold zlen in Hn; lia|].
    rewrite Forall_lookup in Hd. rewrite (Hd _ _ Hx) in Hx. specialize (Hpart _ _ Hx eq_refl). unfold part in Hpart.
    by rewrite Z2Nat.id in Hpart by lia.
  - exists m. split_and!; [done|by rewrite Hm|done].
Qed.

Lemma barrier_step_inv nums0 s s' :
  zlen nums0 = NTHR * TNUM -> Forall (fun v => v < LONG_MAX) nums0 -> inv nums0 s -> step NTHR TNUM heapsort s s' -> inv nums0 s'.
Proof.
  intros H0 Hmax Hi Hst. pose proof Hi as [Hp Hl Hth Hpart Hm]. destruct Hst as [nums sn thr i Hlt|nums sn thr i Hge|nums sn thr m t Ht|nums sn thr Hw Hn|nums sn thr m E]; simpl in *.
  - destruct Hm as [Hz Hnd]. split; simpl; try done.
    + rewrite zlen_app. change (zlen [TSort]) with 1. lia.
    + intros t x Hx Hf. apply (Hpart t x); [|done]. apply lookup_app_Some in Hx as [?|[_ Hx]]; [done|].
      apply list_lookup_singleton_Some in Hx as [_ <-]. done.
    + rewrite zlen_app. change (zlen [TSort]) with 1. split; [lia|]. apply Forall_app. split; [done|]. by repeat constructor.
  - destruct Hm as [Hz Hnd]. split; simpl; try done. split; [lia|done].
  - pose proof (lookup_lt_Some _ _ _ Ht) as Hlt.
    destruct (thr_sort_spec nums t) as (Hp' & Hs & Ho); [unfold zlen in *; by rewrite Hp|unfold zlen in *; lia|].
    assert (forall P : tpc -> Prop, Forall P thr -> P TWait -> Forall P (<[t := TWait]> thr)) as HF.
    { intros P HP HW. by apply Forall_insert. }
    split; simpl; [by rewrite Hp'|done|unfold zlen in *; by rewrite length_insert| |].
    + intros i x Hx Hf. destruct (decide (i = t)) as [->|Hne]; [done|]. rewrite Ho by done.
      rewrite list_lookup_insert_ne in Hx by done. by eapply Hpart.
    + rewrite Forall_lookup in Hm || idtac. unfold zlen in *. rewrite ?length_insert.
      destruct m as [i| | |]; try (destruct Hm as [? Hm]; split; [done|by apply HF]).
      * destruct Hm as [? Hm]. rewrite Forall_lookup in Hm. specialize (Hm _ _ Ht). done.
      * destruct Hm as [Hm ?]. rewrite Forall_lookup in Hm. specialize (Hm _ _ Ht). done.
  - destruct Hm as [Hz Hnd]. split; simpl; try done.
    + unfold zlen in *. by rewrite length_fmap.
    + intros t x Hx Hf. rewrite list_lookup_fmap in Hx. destruct (thr !! t) as [y|] eqn:E; [|done].
      rewrite Forall_lookup in Hw. rewrite (Hw _ _ E) in E. by eapply Hpart.
    + unfold zlen in *. rewrite length_fmap. split; [lia|]. apply Forall_forall. by intros x (y & -> & _)%list_elem_of_fmap.
  - destruct (inv_merge nums0 nums sn thr) as (m' & E' & Hm1 & Hm2); try done. rewrite E' in E. injection E as ->.
    destruct Hm as [Hz Hd]. split; simpl; try done. unfold zlen in *. rewrite Hm1. done.
Qed.

(** ** How long a run is *)
Definition unsorted (thr : list tpc) : list tpc := filter (fun x => finished x = false) thr.

Definition weight (s : sys) : Z :=
  zlen (unsorted (s_thr s)) +
  match s_main s with MCreate i => 2 * (NTHR - i) + 3 | MWait => 2 | MMerge => 1 | MDone => 0 end.

Lemma unsorted_nil thr : Forall (fun x => finished x = true) thr -> unsorted thr = [].
Proof. intros H. apply filter_none. eapply Forall_impl; [done|]. simpl. congruence. Qed.

Lemma unsorted_sort thr t : thr !! t = Some TSort -> zlen (unsorted (<[t := TWait]> thr)) = zlen (unsorted thr) - 1.
Proof.
  intros Ht. pose proof (lookup_lt_Some _ _ _ Ht) as Hlt. rewrite insert_take_drop by done.
  rewrite <- (take_drop_middle thr t TSort Ht) at 3. unfold unsorted. rewrite !filter_app, filter_cons_False, filter_cons_True by done. zl.
Qed.

Lemma weight_step nums0 s s' : inv nums0 s -> step NTHR TNUM heapsort s s' -> weight s' = weight s - 1.
Proof.
  intros [_ _ Hth _ Hm] Hst. destruct Hst; unfold weight; simpl in *.
  - unfold unsorted. rewrite filter_app. change (filter (fun x => finished x = false) [TSort]) with [TSort]. zl.
  - destruct Hm. lia.
  - rewrite unsorted_sort by done. lia.
  - rewrite !unsorted_nil; [done| |].
    + eapply Forall_impl; [done|]. by intros x ->.
    + apply Forall_forall. by intros x (y & -> & _)%list_elem_of_fmap.
  - destruct Hm as [_ Hd]. rewrite !unsorted_nil; [done|]. eapply Forall_impl; [done|]. by intros x ->.
Qed.

Lemma weight_nonneg nums0 s : inv nums0 s -> 0 <= weight s.
Proof.
  intros [_ _ Hth _ Hm]. unfold weight. pose proof (zlen_nonneg (unsorted (s_thr s))). destruct (s_main s); try lia.
Qed.

Lemma barrier_start_inv nums sn : zlen nums = NTHR * TNUM -> zlen sn = NTHR * TNUM -> inv nums (start nums sn).
Proof. intros Hl Hsl. split; simpl; try done. Qed.

Lemma barrier_inv nums sn n s :
  zlen nums = NTHR * TNUM -> zlen sn = NTHR * TNUM -> Forall (fun v => v < LONG_MAX) nums ->
  nsteps (step NTHR TNUM heapsort) n (start nums sn) s ->
  inv nums s /\ weight s = 2 * NTHR + 3 - Z.of_nat n.
Proof.
  intros Hl Hsl Hmax Hn. revert Hn. generalize (barrier_start_inv nums sn Hl Hsl).
  assert (weight (start nums sn) = 2 * NTHR + 3) as Hw by (unfold weight, unsorted, zlen; simpl; lia).
  rewrite <- Hw. clear Hw. generalize (start nums sn). intros s0 Hi Hn. induction Hn as [s|n s s1 s2 Hst _ IH]; [split; [done|lia]|].
  destruct IH as [IH1 IH2]; [by eapply barrier_step_inv|]. split; [done|]. rewrite IH2, (weight_step nums s s1) by done. lia.
Qed.

Lemma barrier_progress nums0 s :
  zlen nums0 = NTHR * TNUM -> Forall (fun v => v < LONG_MAX) nums0 -> inv nums0 s -> s_main s <> MDone ->
  exists s', step NTHR TNUM heapsort s s'.
Proof.
  intros H0 Hmax Hi Hd. destruct s as [nums sn thr m]. simpl in Hd. destruct m as [i| | |]; [| | |done].
  - destruct (Z.lt_ge_cases i NTHR); eexists; [by apply SCreate|by apply SArrive].
  - pose proof (i_main _ _ Hi) as [Hz Hnd]. simpl in Hz, Hnd.
    destruct (decide (Exists (fun x => finished x = false) thr)) as [(x & Hx & Hf)%Exists_exists|Hno].
    + apply list_elem_of_lookup in Hx as [t Ht]. destruct x; try done. eexists. by apply SSort.
    + eexists. apply SRelease; [|by rewrite Hz]. apply Forall_forall. intros x Hx. rewrite Forall_forall in Hnd. specialize (Hnd x Hx).
      destruct x; try done. exfalso. apply Hno, Exists_exists. eauto.
  - destruct (inv_merge nums0 nums sn thr H0 Hmax Hi) as (m & E & _). eexists. by apply SMerge.
Qed.

End system.
