(* ===== verification/CondQ.v ===== *)
(** * A queue of messages with a condition variable
      (apue.3e/threads/condvar.c)

    [enqueue_msg] and [process_msg] as steps of any number of producers and
    consumers.  A step is what happens with [qlock] held; a consumer that
    waits has released it.  [enqueue_msg] signals after it has released the
    lock, as a step of its own, so other threads run in between.  Wakeups
    may be spurious. *)
From S2P Require Import Prelude Posix Chain Threads.

Open Scope prog_scope.

(** [workq] and the field [m_next] of the messages in memory; null is 0. *)
Record wq := mkWq { workq : Z; m_next : gmap Z Z }.

Definition set_workq (p : Z) (q : wq) : wq := mkWq p (m_next q).
Definition set_m_next (p v : Z) (q : wq) : wq := mkWq (workq q) (<[p := v]> (m_next q)).

(** The critical section of [process_msg]: from [pthread_mutex_lock], or
    the return of [pthread_cond_wait], to [pthread_mutex_unlock] or the
    wait. *)
Definition take_msg : Prog wq (call Z) :=
  do mp <- get workq;
  if mp =? 0 then pret Wait
  else
    do n <- get (fun q => m_next q !! mp);
    match n with
    | None => die "invalid pointer"
    | Some n => run put (set_workq n); pret (Ret mp)
    end.

(** The critical section of [enqueue_msg]. *)
Definition put_msg (mp : Z) : Prog wq unit :=
  do h <- get workq;
  run put (set_m_next mp h);
  put (set_workq mp).

(** ** The threads *)

(** [process_msg]: before the lock, asleep in [pthread_cond_wait], woken up,
    with a message to process. *)
Inductive consumer := CStart | CWait | CWoken | CHas (mp : Z).

(** [enqueue_msg]: outside, between the unlock and the signal. *)
Inductive producer := PIdle | PSig.

(** [s_in] and [s_done] are the messages that were put in and that were
    processed, most recent first. *)
Record sys := mkSys {
  s_q : wq; s_cons : gmap nat consumer; s_prod : gmap nat producer; s_in : list Z; s_done : list Z }.

Inductive step : sys -> sys -> Prop :=
| SWait q cs ps i d t x q' :
    cs !! t = Some x -> x = CStart \/ x = CWoken -> take_msg q = Ok Wait q' ->
    step (mkSys q cs ps i d) (mkSys q' (<[t := CWait]> cs) ps i d)
| STake q cs ps i d t x mp q' :
    cs !! t = Some x -> x = CStart \/ x = CWoken -> take_msg q = Ok (Ret mp) q' ->
    step (mkSys q cs ps i d) (mkSys q' (<[t := CHas mp]> cs) ps i d)
| SProcess q cs ps i d t mp :
    cs !! t = Some (CHas mp) ->
    step (mkSys q cs ps i d) (mkSys q (<[t := CStart]> cs) ps i (mp :: d))
| SPut q cs ps i d t mp q' :
    ps !! t = Some PIdle -> mp <> 0 -> (forall l, chain (m_next q) (workq q) l 0 -> mp ∉ l) ->
    put_msg mp q = Ok tt q' ->
    step (mkSys q cs ps i d) (mkSys q' cs (<[t := PSig]> ps) (mp :: i) d)
| SSignal q cs ps i d t w :
    ps !! t = Some PSig -> cs !! w = Some CWait ->
    step (mkSys q cs ps i d) (mkSys q (<[w := CWoken]> cs) (<[t := PIdle]> ps) i d)
| SNobody q cs ps i d t :
    ps !! t = Some PSig -> (forall w, cs !! w <> Some CWait) ->
    step (mkSys q cs ps i d) (mkSys q cs (<[t := PIdle]> ps) i d)
| SSpurious q cs ps i d w :
    cs !! w = Some CWait -> step (mkSys q cs ps i d) (mkSys q (<[w := CWoken]> cs) ps i d).

Definition start (cs : gset nat) (ps : gset nat) : sys :=
  mkSys (mkWq 0 ∅) (gset_to_gmap CStart cs) (gset_to_gmap PIdle ps) [] [].

(** ** The invariant *)
Definition held (x : consumer) : list Z := match x with CHas mp => [mp] | _ => [] end.
Definition asleep (x : consumer) : bool := match x with CWait => true | _ => false end.
Definition woken (x : consumer) : bool := match x with CWoken => true | _ => false end.
Definition signalling (x : producer) : bool := match x with PSig => true | _ => false end.

(** While somebody sleeps there is a wakeup for every message. *)
Record inv (s : sys) (l : list Z) : Prop := {
  i_chain : chain (m_next (s_q s)) (workq (s_q s)) l 0;
  i_nodup : NoDup l;
  i_msgs : s_in s ≡ₚ s_done s ++ gather held (s_cons s) ++ l;
  i_wake : 0 < count_if asleep (s_cons s) -> zlen l <= count_if signalling (s_prod s) + count_if woken (s_cons s)
}.

Lemma chain_fun N p l l' : chain N p l 0 -> chain N p l' 0 -> l = l'.
Proof.
  revert p l'. induction l as [|o l IH]; intros p l'; simpl.
  - intros ->. destruct l' as [|o' l']; [done|]. intros (<- & H & _). done.
  - intros (-> & Ho & n & Hn & Hc). destruct l' as [|o' l']; simpl; [by intros ->|].
    intros (-> & _ & n' & Hn' & Hc'). f_equal. apply (IH n); [done|]. congruence.
Qed.

Lemma take_run q l :
  chain (m_next q) (workq q) l 0 ->
  match l with
  | [] => take_msg q = Ok Wait q
  | mp :: l' => exists n, take_msg q = Ok (Ret mp) (set_workq n q) /\ chain (m_next q) n l' 0
  end.
Proof.
  unfold take_msg. pstep. destruct l as [|mp l]; simpl.
  - by intros ->.
  - intros (-> & Hmp & n & Hn & Hc). rewrite eqb_false by done. pstep. rewrite Hn. by exists n.
Qed.

Ltac cnt := repeat (erewrite count_insert by eassumption); simpl.

Lemma condq_step_inv s s' l : inv s l -> step s s' -> exists l', inv s' l'.
Proof.
  intros [Hc Hnd Hm Hw] Hst.
  destruct Hst as [q cs ps i d t x q' Ht Hx E|q cs ps i d t x mp q' Ht Hx E|q cs ps i d t mp Ht|q cs ps i d t mp q' Ht Hmp Hfresh E
    |q cs ps i d t w Ht Hsl|q cs ps i d t Ht Hno|q cs ps i d w Hsl]; simpl in *.
  - pose proof (take_run q l Hc) as Hr. destruct l as [|mp l]; [|destruct Hr as (n & Hr & _); congruence].
    rewrite Hr in E. injection E as <-. exists []. split; simpl; try done.
    + rewrite (gather_insert _ _ _ _ _ Ht). rewrite Hm, (gather_delete _ _ _ _ Ht). by destruct Hx as [-> | ->].
    + intros _. rewrite zlen_nil. pose proof (count_nonneg signalling ps). pose proof (count_nonneg woken (<[t := CWait]> cs)). lia.
  - pose proof (take_run q l Hc) as Hr. destruct l as [|mp' l]; [congruence|]. destruct Hr as (n & Hr & Hc').
    rewrite Hr in E. injection E as -> <-. exists l. split; simpl; try done.
    + by apply NoDup_cons in Hnd as [_ Hnd].
    + rewrite (gather_insert _ _ _ _ _ Ht), Hm, (gather_delete _ _ _ _ Ht).
      destruct Hx as [-> | ->]; simpl; apply Permutation_app_head; by rewrite Permutation_middle.
    + rewrite zlen_cons in Hw. cnt. destruct Hx as [-> | ->]; simpl; lia.
  - exists l. split; simpl; try done.
    + rewrite (gather_insert _ _ _ _ _ Ht), Hm, (gather_delete _ _ _ _ Ht). simpl. symmetry. apply Permutation_middle.
    + cnt. lia.
  - unfold put_msg in E. revert E. pstep. intros [= <-]. exists (mp :: l). specialize (Hfresh l Hc). split; simpl.
    + split_and!; [done..|]. exists (workq q). rewrite lookup_insert_eq. split; [done|]. by apply chain_insert_ne.
    + by constructor.
    + rewrite Hm, !app_assoc. apply Permutation_middle.
    + cnt. rewrite zlen_cons. lia.
  - exists l. split; simpl; try done.
    + rewrite (gather_insert _ _ _ _ _ Hsl), Hm, (gather_delete _ _ _ _ Hsl). done.
    + pose proof (count_pos asleep cs w _ Hsl eq_refl). cnt. lia.
  - exists l. split; simpl; try done. intros Hpos. apply count_exists in Hpos as (w & x & Hx & Hs). destruct x; try done. by destruct (Hno w).
  - exists l. split; simpl; try done.
    + rewrite (gather_insert _ _ _ _ _ Hsl), Hm, (gather_delete _ _ _ _ Hsl). done.
    + pose proof (count_pos asleep cs w _ Hsl eq_refl). cnt. lia.
Qed.

Lemma gather_const {X B} (f : X -> list B) x (c : gset nat) : f x = [] -> gather f (gset_to_gmap x c) = [].
Proof.
  intros Hx. destruct (gather f (gset_to_gmap x c)) as [|b r] eqn:E; [done|]. assert (b ∈ b :: r) as Hb by left.
  rewrite <- E in Hb. apply gather_elem in Hb as (t & y & Hy & Hb). apply lookup_gset_to_gmap_Some in Hy as [_ <-].
  rewrite Hx in Hb. by apply not_elem_of_nil in Hb.
Qed.

Lemma condq_start_inv cs ps : inv (start cs ps) [].
Proof.
  split; simpl; try done; [constructor|by rewrite gather_const|]. intros _. rewrite zlen_nil.
  pose proof (count_nonneg signalling (gset_to_gmap PIdle ps)). pose proof (count_nonneg woken (gset_to_gmap CStart cs)). lia.
Qed.

Lemma inv_reach cs ps s : rtc step (start cs ps) s -> exists l, inv s l.
Proof.
  intros H. assert (exists l, inv (start cs ps) l) as H0 by (exists []; apply condq_start_inv). revert H0.
  induction H as [|s s' s'' Hst _ IH]; [done|]. intros [l Hl]. by apply IH, (condq_step_inv s s' l).
Qed.

(** What the counts say about single threads. *)
Lemma inv_wakeup s l w :
  inv s l -> l <> [] -> s_cons s !! w = Some CWait ->
  (exists t, s_prod s !! t = Some PSig) \/ (exists t, s_cons s !! t = Some CWoken).
Proof.
  intros [_ _ _ Hw] Hne Hsl. specialize (Hw (count_pos asleep _ w _ Hsl eq_refl)).
  assert (0 < zlen l) as Hl by (destruct l; [done|zl]).
  destruct (Z.lt_ge_cases 0 (count_if signalling (s_prod s))) as [Hp|Hp].
  - left. apply count_exists in Hp as (t & x & Hx & Hf). destruct x; [done|]. by exists t.
  - right. destruct (count_exists woken (s_cons s)) as (t & x & Hx & Hf); [lia|]. destruct x; try done. by exists t.
Qed.
