(* ===== verification/ThrProps.v ===== *)
(** * The properties of the programs of apue.3e/threads

    The job queue of rwlock.c, the sort of barrier.c, the message queue of
    condvar.c and the reference counts of mutex2.c. *)
From stdpp Require Import sorting.
From S2P Require Import Prelude Posix Chain Threads FooHash.
From S2P Require JobQ Barrier CondQ Foo2.

Open Scope prog_scope.

(** ** The job queue *)

(** The job queue implements a list.  For every sequence of the
    operations in which a job is added only when it is not on the queue and
    removed only when it is, the results are those of the list: [job_insert]
    adds in front, [job_append] at the end, [job_remove] takes a job out from
    any place, [job_find] returns the first job of the thread, or null when
    there is none or the read lock fails; both directions of the links agree
    with the list at the end, and no invalid pointer is followed. *)
Theorem job_queue_refines ids ops q l :
  Chain.dl_rep ids q l -> JobQ.ops_ok ids ops l ->
  exists q', JobQ.run_ops ops q = Ok (JobQ.abs_ops ids ops l).1 q' /\ Chain.dl_rep ids q' (JobQ.abs_ops ids ops l).2.
Proof.
  revert q l. induction ops as [|op ops IH]; intros q l Hr Hok; [by exists q|].
  destruct Hok as [Hop Hok]. destruct (JobQ.jop_refines ids op q l Hr Hop) as (q1 & E1 & Hr1).
  destruct (IH q1 _ Hr1 Hok) as (q2 & E2 & Hr2). exists q2. simpl.
  rewrite (pbind_ok _ _ _ _ _ E1), (pbind_ok _ _ _ _ _ E2). destruct (JobQ.abs_op ids op l) as [r l1]. simpl in *.
  by destruct (JobQ.abs_ops ids ops l1).
Qed.

Definition demo_queue : Chain.dl Z :=
  Chain.mkDl 0 0 (list_to_map [(10, Chain.mkNode 7 7 1); (20, Chain.mkNode 7 7 2); (30, Chain.mkNode 7 7 1);
    (40, Chain.mkNode 7 7 3)]).

Definition demo_jobs : list JobQ.jop :=
  [JobQ.Init 0; JobQ.Append 10; JobQ.Append 20; JobQ.Insert 30; JobQ.Append 40; JobQ.Find 0 1; JobQ.Remove 20; JobQ.Remove 30;
   JobQ.Find 0 1; JobQ.Remove 40; JobQ.Find 0 3; JobQ.Find 11 1; JobQ.Remove 10; JobQ.Insert 20].

Lemma job_queue_refines_witness :
  let ids := Chain.datas demo_queue in
  let res := JobQ.abs_ops ids demo_jobs [] in
  res = ([0; 0; 0; 0; 0; 30; 0; 0; 10; 0; 0; 0; 0; 0], [20]) /\
  exists q', JobQ.run_ops demo_jobs demo_queue = Ok res.1 q' /\ Chain.dl_rep ids q' res.2.
Proof.
  intros ids res. split; [vm_compute; reflexivity|]. apply (job_queue_refines ids demo_jobs demo_queue []).
  - split; [reflexivity|]. apply Chain.dlist_nil.
  - apply (@bool_decide_eq_true_1 _ (JobQ.jops_ok_dec ids demo_jobs [])). vm_compute. reflexivity.
Defined.

(** ** Sorting with a barrier *)

(** C16: with any number of threads and any interleaving of their sorts,
    when [main] has merged the parts [snums] is sorted and is a permutation
    of the numbers; until then some thread can go on, and no run has more
    than two steps per thread and three of [main].  The library's [heapsort]
    has to sort by a comparison that is a total preorder, as [complong] is;
    the numbers are below LONG_MAX, with which the search for the smallest
    head starts. *)
Theorem barrier_sorts NTHR TNUM heapsort nums sn n s :
  0 <= NTHR -> 0 <= TNUM -> Barrier.sorts heapsort ->
  zlen nums = NTHR * TNUM -> zlen sn = NTHR * TNUM -> Forall (fun v => v < Barrier.LONG_MAX) nums ->
  nsteps (Barrier.step NTHR TNUM heapsort) n (Barrier.start nums sn) s ->
  (Barrier.s_main s = Barrier.MDone -> Barrier.s_snums s ≡ₚ nums /\ StronglySorted Z.le (Barrier.s_snums s)) /\
  (Barrier.s_main s <> Barrier.MDone -> exists s', Barrier.step NTHR TNUM heapsort s s') /\
  Z.of_nat n <= 2 * NTHR + 3.
Proof.
  intros HN HT Hsort Hl Hsl Hmax Hn.
  pose proof (Barrier.barrier_inv NTHR TNUM heapsort HN HT Hsort nums sn n s Hl Hsl Hmax Hn) as [Hinv Hw].
  split_and!.
  - intros Hd. pose proof (Barrier.i_main _ _ _ _ Hinv) as Hm. rewrite Hd in Hm. apply Hm.
  - intros Hd. by eapply (Barrier.barrier_progress NTHR TNUM heapsort HN HT nums).
  - pose proof (Barrier.weight_nonneg NTHR TNUM nums s Hinv). lia.
Qed.

(** A [heapsort] for the demonstration: merge sort. *)
Definition cmp_le (cmp : Z -> Z -> Z) (x y : Z) : Prop := cmp x y <= 0.

#[export] Instance cmp_le_dec cmp : RelDecision (cmp_le cmp).
Proof. unfold cmp_le. intros x y. apply _. Defined.

Definition demo_sort (cmp : Z -> Z -> Z) (l : list Z) : list Z := merge_sort (cmp_le cmp) l.

Lemma demo_sorts : Barrier.sorts demo_sort.
Proof.
  intros cmp l [Ht Htr]. split; [apply merge_sort_Permutation|].
  assert (Transitive (cmp_le cmp)) by (intros x y z; apply Htr).
  assert (Total (cmp_le cmp)) by (intros x y; apply Ht).
  apply (StronglySorted_merge_sort (cmp_le cmp) l).
Qed.

Definition demo_end : Barrier.sys := Barrier.mkSys [1; 5; 0; 4] [0; 1; 4; 5] [Barrier.TDone; Barrier.TDone] Barrier.MDone.

(** Two threads with two numbers each; the second one is created after the
    first has sorted. *)
Lemma demo_run : nsteps (Barrier.step 2 2 demo_sort) 7 (Barrier.start [5; 1; 4; 0] [9; 9; 9; 9]) demo_end.
Proof.
  eapply nsteps_l; [apply Barrier.SCreate; lia|].
  eapply nsteps_l; [by apply (Barrier.SSort _ _ _ _ _ _ _ 0%nat)|].
  eapply nsteps_l; [apply Barrier.SCreate; lia|].
  eapply nsteps_l; [apply Barrier.SArrive; lia|].
  eapply nsteps_l; [by apply (Barrier.SSort _ _ _ _ _ _ _ 1%nat)|].
  eapply nsteps_l; [apply Barrier.SRelease; [by repeat constructor|reflexivity]|].
  eapply nsteps_l; [|apply nsteps_O]. unfold demo_end.
  apply (Barrier.SMerge _ _ _ [1; 5; 0; 4] [9; 9; 9; 9] _ (Barrier.mkM [2; 4] (Some 0) [0; 1; 4; 5])). vm_compute. reflexivity.
Qed.

Lemma barrier_sorts_witness :
  Barrier.s_main demo_end = Barrier.MDone /\
  Barrier.s_snums demo_end ≡ₚ [5; 1; 4; 0] /\ StronglySorted Z.le (Barrier.s_snums demo_end).
Proof.
  split; [reflexivity|].
  apply (barrier_sorts 2 2 demo_sort [5; 1; 4; 0] [9; 9; 9; 9] 7 demo_end); [lia|lia|apply demo_sorts|reflexivity|reflexivity| |apply demo_run|reflexivity].
  repeat constructor.
Defined.

(** ** The message queue *)

(** No message and no wakeup is lost.  For any number of producers and
    consumers: every message put into the queue has been processed, is being
    processed or is on the queue, once each time it was put in; a consumer
    never follows an invalid pointer; and when a message is on the queue while
    a consumer sleeps, a signal is still to come or a woken consumer has yet
    to look at the queue, although [enqueue_msg] signals after it has released
    the lock.  When all producers are outside and all consumers sleep, the
    queue is empty. *)
Theorem condq_safe cs ps s :
  rtc CondQ.step (CondQ.start cs ps) s ->
  exists l, chain (CondQ.m_next (CondQ.s_q s)) (CondQ.workq (CondQ.s_q s)) l 0 /\
    CondQ.s_in s ≡ₚ CondQ.s_done s ++ gather CondQ.held (CondQ.s_cons s) ++ l /\
    (exists r q', CondQ.take_msg (CondQ.s_q s) = Ok r q') /\
    (forall w, l <> [] -> CondQ.s_cons s !! w = Some CondQ.CWait ->
       (exists t, CondQ.s_prod s !! t = Some CondQ.PSig) \/ (exists t, CondQ.s_cons s !! t = Some CondQ.CWoken)) /\
    ((forall t x, CondQ.s_prod s !! t = Some x -> x = CondQ.PIdle) -> (forall t x, CondQ.s_cons s !! t = Some x -> x = CondQ.CWait) ->
     CondQ.s_cons s <> ∅ -> l = []).
Proof.
  intros Hr. destruct (CondQ.inv_reach cs ps s Hr) as [l Hi]. exists l. pose proof Hi as [Hc _ Hm _].
  pose proof (fun w => CondQ.inv_wakeup s l w Hi) as Hw. split_and!; [done|done| |done|].
  - pose proof (CondQ.take_run _ l Hc) as Ht. destruct l as [|mp l]; [eauto|]. destruct Ht as (n & -> & _). eauto.
  - intros Hp Hcs Hne. destruct l as [|mp l]; [done|]. destruct (map_choose _ Hne) as (w & x & Hx).
    rewrite (Hcs _ _ Hx) in Hx. destruct (Hw w) as [[t Ht]|[t Ht]]; [done|done|..].
    + specialize (Hp _ _ Ht). done.
    + specialize (Hcs _ _ Ht). done.
Qed.

(** A consumer has gone to sleep, a producer has put a message in and has
    not signalled yet. *)
Definition demo_condq : CondQ.sys :=
  CondQ.mkSys (CondQ.mkWq 8 (<[8 := 0]> ∅)) (<[0%nat := CondQ.CWait]> (gset_to_gmap CondQ.CStart {[0%nat]}))
    (<[1%nat := CondQ.PSig]> (gset_to_gmap CondQ.PIdle {[1%nat]})) [8] [].

Lemma demo_condq_reach : rtc CondQ.step (CondQ.start {[0%nat]} {[1%nat]}) demo_condq.
Proof.
  eapply rtc_l; [|eapply rtc_l; [|apply rtc_refl]].
  - by eapply (CondQ.SWait _ _ _ _ _ 0%nat); [reflexivity|left|].
  - apply (CondQ.SPut _ _ _ _ _ 1%nat 8); [reflexivity|done| |done].
    intros l Hc. apply (CondQ.chain_fun _ _ _ []) in Hc; [|done]. subst l. apply not_elem_of_nil.
Qed.

Lemma condq_safe_witness :
  exists l, chain (CondQ.m_next (CondQ.s_q demo_condq)) (CondQ.workq (CondQ.s_q demo_condq)) l 0 /\
    CondQ.s_in demo_condq ≡ₚ CondQ.s_done demo_condq ++ gather CondQ.held (CondQ.s_cons demo_condq) ++ l.
Proof.
  destruct (condq_safe {[0%nat]} {[1%nat]} demo_condq demo_condq_reach) as (l & Hc & Hm & _). by exists l.
Defined.

(** ** Reference counts under two locks *)

(** C17: in every state that any number of threads can reach, the count of
    an object is the number of references the threads own, an object is in
    memory exactly as long as there is one, the object a thread is about to
    hold or to release is in memory, and [foo_find] finds the newest object
    with an identifier; and there is no deadlock: when some thread is inside
    an operation, such a thread can go on.  The second test of the count in
    [foo_rele] is what makes this true. *)
Theorem foo2_safe ts s :
  rtc Foo2.step (Foo2.start ts) s ->
  (forall p, p ∈ Foo2.all_refs s -> exists f, heap (Foo2.tab s) !! p = Some f /\ f_count f = Foo2.occ p (Foo2.all_refs s)) /\
  (forall p, is_Some (heap (Foo2.tab s) !! p) -> p ∈ Foo2.all_refs s) /\
  (forall t x fp, Foo2.thr s !! t = Some x -> Foo2.working_on (Foo2.t_pc x) = Some fp -> is_Some (heap (Foo2.tab s) !! fp)) /\
  (exists l, rep (Foo2.tab s) l /\ forall id, Foo2.search id (Foo2.tab s) = Ok (from_option o_ptr 0 (with_id id l)) (Foo2.tab s)) /\
  (forall t x, Foo2.thr s !! t = Some x -> Foo2.busy x = true -> zlen (Foo2.all_refs s) < 2 ^ 31 - 1 -> Foo2.can_go s).
Proof.
  intros Hr. destruct (Foo2.foo2_reach ts s Hr) as [l Hi]. pose proof Hi as [Grep Gc Gb Gl Gh Go Gf Gp].
  assert (forall p, p ∈ o_ptr <$> l -> exists f, heap (Foo2.tab s) !! p = Some f /\ f_count f = Foo2.occ p (Foo2.all_refs s)) as Hobj.
  { intros p (o & -> & Ho)%list_elem_of_fmap. destruct (r_obj _ _ (proj1 Grep) o Ho) as [n Hn]. eexists. split; [done|]. by apply Gc. }
  split_and!.
  - intros p Hp. by apply Hobj, Gl.
  - intros p Hp. apply (r_heap _ _ (proj1 Grep)) in Hp. apply list_elem_of_fmap in Hp as (o & -> & Ho).
    apply Foo2.occ_pos. rewrite <- (Gc o Ho). destruct Grep as [_ Hpos]. rewrite Forall_forall in Hpos. auto.
  - intros t x fp Hx Hpc. destruct (Hobj fp) as (f & -> & _); [|by eexists]. specialize (Gp _ _ Hx). unfold Foo2.pc_ok in Gp.
    destruct (Foo2.t_pc x); simplify_eq/=; try (apply Gl, gather_elem; by exists t, x). done.
  - exists l. split; [done|]. intros id. rewrite (Foo2.search_run _ l id Grep). by destruct (with_id id l).
  - intros t x Hx Hb Hz. destruct s as [tb h fo th]. by eapply Foo2.foo2_progress.
Qed.

(** [calc] runs a computation to the result that is asked for. *)
Ltac calc := first [done | vm_compute; reflexivity | apply out_ok; vm_compute; reflexivity].

(** Thread 0 sees the count 1 and lets go of the lock; thread 1 finds the
    object; thread 0 then only decrements the count. *)
Lemma demo_foo2 :
  exists s, rtc Foo2.step (Foo2.start {[0%nat; 1%nat]}) s /\ Foo2.all_refs s = [100].
Proof.
  eexists. split.
  - eapply rtc_l; [eapply (Foo2.SAlloc _ _ _ 0%nat [] 100 3); calc|].
    eapply rtc_l; [eapply (Foo2.SInit _ _ _ _ 0%nat [100] 100); calc|].
    eapply rtc_l; [eapply (Foo2.SReleLast _ _ _ _ 0%nat [100] 100); [calc|left|calc|calc]|].
    eapply rtc_l; [eapply (Foo2.SFind _ _ _ 1%nat [] 3 100); calc|].
    eapply rtc_l; [eapply (Foo2.SFindHold _ _ _ _ 1%nat [] 100); calc|].
    eapply rtc_l; [eapply (Foo2.SReleLock _ _ _ 0%nat [100] 100); calc|].
    eapply rtc_l; [eapply (Foo2.SReleEnd _ _ _ _ 0%nat [100] 100 []); calc|]. apply rtc_refl.
  - vm_compute. reflexivity.
Qed.

Lemma foo2_safe_witness :
  exists s, rtc Foo2.step (Foo2.start {[0%nat; 1%nat]}) s /\ exists f, heap (Foo2.tab s) !! 100 = Some f /\ f_count f = 1.
Proof.
  destruct demo_foo2 as (s & Hr & Hs). exists s. split; [exact Hr|].
  destruct (foo2_safe {[0%nat; 1%nat]} s Hr) as [H _]. destruct (H 100) as (f & Hf & Hc); [rewrite Hs; left|].
  exists f. split; [exact Hf|]. rewrite Hc, Hs. reflexivity.
Defined.
