(* ===== verification/PrUtil.v ===== *)
(** * Timed reads and the configuration file of the printer spooler
      (apue.3e/printer/util.c)

    [tread] waits with [select] before it reads.  That nothing arrives in
    time shows in the script of a descriptor as the error ETIME. *)
From S2P Require Import Prelude Posix CString IoFd.

Open Scope prog_scope.

Definition ETIME : Z := 62.
Definition EIO : Z := 5.

(** ** Timed reads *)

(** What [select] on one descriptor returns: it is ready when a read would
    not block, also at the end of file and for an error of the device. *)
Definition sys_select (fd : Z) : io Z :=
  do f <- get (fun w => w_in w !! fd);
  match f with
  | None => run put (set_errno EBADF); pret (-1)
  | Some (Intr :: s) => run put (set_in fd s); run put (set_errno EINTR); pret (-1)
  | Some (Fail e :: s) => if e =? ETIME then run put (set_in fd s); pret 0 else pret 1
  | _ => pret 1
  end.

Definition tread (fd nbytes : Z) : io (option bytes) :=
  do nfds <- sys_select fd;
  if nfds <=? 0 then
    run (if nfds =? 0 then put (set_errno ETIME) else pret tt);
    pret None
  else sys_read fd nbytes.

Fixpoint treadn_loop (fuel : nat) (fd nbytes nleft : Z) (buf : bytes) : io (Z * bytes) :=
  match fuel with
  | O => die "fuel"
  | S fuel =>
      if 0 <? nleft then
        do nread <- tread fd nleft;
        match nread with
        | None => if nleft =? nbytes then pret (-1, buf) else pret (nbytes - nleft, buf)
        | Some [] => pret (nbytes - nleft, buf)
        | Some bs => treadn_loop fuel fd nbytes (nleft - zlen bs) (buf ++ bs)
        end
      else pret (nbytes - nleft, buf)
  end.

Definition treadn (fd nbytes : Z) : io (Z * bytes) :=
  do fuel <- get (rfuel fd);
  treadn_loop fuel fd nbytes nbytes [].

(** ** The configuration file *)
Definition MAXCFGLINE : Z := 512.
Definition MAXKWLEN : Z := 16.

(** [fgets] with room for [n] bytes before the null: a line with its
    newline, or as much of it as fits. *)
Fixpoint fgets (n : nat) (l : bytes) : bytes * bytes :=
  match n, l with
  | S n, c :: l => if c =? CH_NEWLINE then ([c], l) else let '(a, b) := fgets n l in (c :: a, b)
  | _, _ => ([], l)
  end.

(** The conversion [%<n>s] of [sscanf] after its blanks. *)
Fixpoint scan_word (n : nat) (s : bytes) : bytes * bytes :=
  match n, s with
  | S n, c :: s' => if isspace c then ([], s) else let '(a, b) := scan_word n s' in (c :: a, b)
  | _, _ => ([], s)
  end.

(** [sscanf(line, "%15s %511s", keybuf, valbuf)]: the two words, when both
    are there. *)
Definition sscanf2 (line : bytes) : option (bytes * bytes) :=
  let '(key, r) := scan_word (Z.to_nat (MAXKWLEN - 1)) (skip_space (cstr line)) in
  let '(val, _) := scan_word (Z.to_nat (MAXCFGLINE - 1)) (skip_space r) in
  match key, val with [], _ | _, [] => None | _, _ => Some (key, val) end.

Fixpoint scan_lines (fuel : nat) (keyword content : bytes) : option bytes :=
  match fuel with
  | O => None
  | S fuel =>
      match fgets (Z.to_nat (MAXCFGLINE - 1)) content with
      | ([], _) => None
      | (line, rest) =>
          match sscanf2 line with
          | Some (key, val) => if bool_decide (key = keyword) then Some val else scan_lines fuel keyword rest
          | None => scan_lines fuel keyword rest
          end
      end
  end.

(** [conf] is the content of CONFIG_FILE, [None] when it cannot be opened;
    the inner [None] of the result is the null pointer. *)
Definition scan_configfile (conf : option bytes) (keyword : bytes) : option bytes + string :=
  match conf with
  | None => inr "can't open /etc/printer.conf"
  | Some content => inl (scan_lines (S (length content)) keyword content)
  end.

Definition get_printserver (conf : option bytes) : option bytes + string :=
  scan_configfile conf (lit "printserver").

Section address.
(** The resolver: [getaddrinfo] with the hints of [getaddrlist]. *)
Context {addrinfo : Type} (getaddrinfo : bytes -> bytes -> addrinfo + Z).

Definition getaddrlist (host service : bytes) : addrinfo + Z := getaddrinfo host service.

Definition get_printaddr (conf : option bytes) : option addrinfo + string :=
  match scan_configfile conf (lit "printer") with
  | inr why => inr why
  | inl (Some p) => match getaddrlist p (lit "ipp") with inl ailist => inl (Some ailist) | inr _ => inl None end
  | inl None => inl None
  end.

End address.

#[local] Arguments isspace : simpl never.

(** ** Lemmas on timed reads *)

(** A timed read is a read of the script. *)
Lemma tread_read fd n w : tread fd n w = sys_read fd n w.
Proof.
  unfold tread, sys_select, sys_read, pbind, get, put, pret.
  destruct (w_in w !! fd) as [[|[c bs| |e|] s]|] eqn:E; simpl; rewrite ?E; try done.
  destruct (Z.eqb_spec e ETIME) as [->|]; simpl; [done|]. by rewrite E.
Qed.

(** ** Lemmas on the configuration file *)

(** A line of the file: key, blanks, value, and more text after a blank. *)
Record cline := mkLine { c_key : bytes; c_sep : bytes; c_val : bytes; c_rest : bytes }.

Definition blank (c : Z) : Prop := c = CH_SPACE \/ c = 9.
Definition wordc (c : Z) : Prop := isspace c = false /\ c <> NUL.

Definition line_text (c : cline) : bytes := c_key c ++ c_sep c ++ c_val c ++ c_rest c ++ [CH_NEWLINE].

Record line_ok (c : cline) : Prop := {
  lo_key : c_key c <> [] /\ Forall wordc (c_key c) /\ zlen (c_key c) < MAXKWLEN;
  lo_sep : c_sep c <> [] /\ Forall blank (c_sep c);
  lo_val : c_val c <> [] /\ Forall wordc (c_val c);
  lo_rest : Forall (fun x => x <> CH_NEWLINE /\ x <> NUL) (c_rest c) /\ forall x, head (c_rest c) = Some x -> blank x;
  lo_len : zlen (line_text c) < MAXCFGLINE
}.

Lemma fgets_line n a l :
  Forall (fun c => c <> CH_NEWLINE) a -> (length a < n)%nat -> fgets n (a ++ CH_NEWLINE :: l) = (a ++ [CH_NEWLINE], l).
Proof.
  intros Ha. revert n. induction Ha as [|c a Hc Ha IH]; intros [|n] Hn; simpl in *; try lia; [done|].
  rewrite eqb_false by done. by rewrite IH by lia.
Qed.

Lemma scan_word_stop n a s :
  Forall wordc a -> (length a <= n)%nat -> (forall x, head s = Some x -> isspace x = true) -> scan_word n (a ++ s) = (a, s).
Proof.
  intros Ha. revert n. induction Ha as [|c a [Hc _] Ha IH]; intros n Hn Hs; simpl in *.
  - destruct n; [done|]. destruct s as [|x s]; [done|]. simpl. by rewrite (Hs x eq_refl).
  - destruct n as [|n]; [lia|]. simpl. rewrite Hc. by rewrite IH by (done || lia).
Qed.

Lemma skip_blanks a s : Forall blank a -> skip_space (a ++ s) = skip_space s.
Proof. induction 1 as [|c a [->| ->] _ IH]; done. Qed.

Lemma skip_word a s : a <> [] -> Forall wordc a -> skip_space (a ++ s) = a ++ s.
Proof. intros Hne Ha. destruct Ha as [|c a [Hc _] Ha]; [done|]. simpl. by rewrite Hc. Qed.

Lemma blank_space x : blank x -> isspace x = true.
Proof. by intros [->| ->]. Qed.

Lemma wordc_line c : wordc c -> c <> CH_NEWLINE.
Proof. by intros [H _] ->. Qed.

Lemma blank_line c : blank c -> c <> CH_NEWLINE /\ c <> NUL.
Proof. by intros [->| ->]. Qed.

Lemma sscanf2_line c : line_ok c -> sscanf2 (line_text c) = Some (c_key c, c_val c).
Proof.
  intros [(Hk0 & Hk & Hkl) (Hs0 & Hs) (Hv0 & Hv) (Hr & Hrh) Hl]. unfold sscanf2, line_text.
  rewrite cstr_id.
  2: { unfold nonul. rewrite !Forall_app. split_and!; try (by repeat constructor).
       - eapply Forall_impl; [exact Hk|]. by intros x [_ ?].
       - eapply Forall_impl; [exact Hs|]. intros x ?%blank_line. tauto.
       - eapply Forall_impl; [exact Hv|]. by intros x [_ ?].
       - eapply Forall_impl; [exact Hr|]. simpl. tauto. }
  rewrite skip_word, scan_word_stop; [|done|unfold zlen, MAXKWLEN in *; lia| |done|done].
  2: { intros x. destruct Hs as [|y s Hy _]; [done|]. intros [= <-]. by apply blank_space. }
  rewrite skip_blanks, skip_word, scan_word_stop; try done.
  - destruct (c_key c); [done|]. by destruct (c_val c).
  - unfold line_text in Hl. rewrite !zlen_app in Hl. unfold MAXCFGLINE, zlen in *. simpl in *. lia.
  - intros x. destruct (c_rest c) as [|y r]; simpl; [by intros [= <-]|]. intros [= <-]. apply blank_space. by apply Hrh.
Qed.

Lemma scan_lines_spec fuel kw cs :
  Forall line_ok cs -> (length cs < fuel)%nat ->
  scan_lines fuel kw (concat (line_text <$> cs)) = c_val <$> List.find (fun c => bool_decide (c_key c = kw)) cs.
Proof.
  intros Hok. revert fuel. induction Hok as [|c cs Hc Hok IH]; intros fuel Hf; (destruct fuel as [|fuel]; [simpl in Hf; lia|]); [done|].
  simpl in Hf. pose proof (sscanf2_line c Hc) as Hs. destruct Hc as [(Hk0 & Hk & _) (_ & Hsp) (_ & Hv) (Hr & _) Hl].
  assert (exists a, line_text c = a ++ [CH_NEWLINE] /\ Forall (fun c => c <> CH_NEWLINE) a) as (a & Ha & Hnl).
  { exists (c_key c ++ c_sep c ++ c_val c ++ c_rest c). unfold line_text. rewrite <- !app_assoc. split; [done|]. rewrite !Forall_app.
    split_and!; (eapply Forall_impl; [eassumption|]); [apply wordc_line|intros x ?%blank_line; tauto|apply wordc_line|simpl; tauto]. }
  rewrite Ha in *. rewrite fmap_cons, concat_cons, Ha, <- app_assoc. cbn [scan_lines app List.find]. rewrite fgets_line; [|done|unfold MAXCFGLINE, zlen in *; rewrite length_app in Hl; simpl in Hl; lia].
  rewrite Hs. destruct (a ++ [CH_NEWLINE]) as [|x y] eqn:E; [by destruct a|].
  case_bool_decide as Hkw; simpl; [done|]. apply IH. lia.
Qed.

Lemma lines_fuel cs : Forall line_ok cs -> (length cs <= length (concat (line_text <$> cs)))%nat.
Proof.
  induction 1 as [|c cs [_ _ _ _ _] _ IH]; [done|].
  rewrite fmap_cons, concat_cons, length_app. unfold line_text at 1. rewrite !length_app. cbn [length]. lia.
Qed.

Lemma scan_configfile_lines kw cs :
  Forall line_ok cs ->
  scan_configfile (Some (concat (line_text <$> cs))) kw = inl (c_val <$> List.find (fun c => bool_decide (c_key c = kw)) cs).
Proof. intros Hok. unfold scan_configfile. f_equal. apply scan_lines_spec; [done|]. pose proof (lines_fuel cs Hok). lia. Qed.
