(* ===== verification/PrReq.v ===== *)
(** * Print requests and the client of the printer spooler
      (apue.3e/printer/print.h, print.c)

    The structures that the client and the daemon exchange, as the bytes in
    memory on a little-endian machine, and [submit_file]. *)
From S2P Require Import Prelude Posix CString IoFd IoReadn.

Open Scope prog_scope.

(** ** 32-bit integers in memory *)
Definition le32 (z : Z) : bytes := [z mod 256; z / 256 mod 256; z / 65536 mod 256; z / 16777216 mod 256].

Definition of_le32 (l : bytes) : Z :=
  match l with
  | b0 :: b1 :: b2 :: b3 :: _ => b0 + 256 * b1 + 65536 * b2 + 16777216 * b3
  | _ => 0
  end.

(** [htonl] and [ntohl] swap the bytes. *)
Definition htonl (z : Z) : Z := of_le32 (reverse (le32 z)).
Definition ntohl (z : Z) : Z := of_le32 (reverse (le32 z)).

(** ** The structures *)
Definition USERNM_MAX : Z := 64.
Definition JOBNM_MAX : Z := 256.
Definition MSGLEN_MAX : Z := 512.
Definition IOBUFSZ : Z := 8192.
Definition PR_TEXT : Z := 1.

Record printreq := mkReq { size : Z; flags : Z; usernm : bytes; jobnm : bytes }.

Definition sizeof_printreq : Z := 4 + 4 + USERNM_MAX + JOBNM_MAX.

(** The bytes of a request in memory, and a request in a buffer. *)
Definition enc_req (r : printreq) : bytes := le32 (size r) ++ le32 (flags r) ++ usernm r ++ jobnm r.
Definition dec_req (l : bytes) : printreq :=
  mkReq (of_le32 (slice l 0 4)) (of_le32 (slice l 4 4)) (slice l 8 USERNM_MAX) (slice l 72 JOBNM_MAX).

Record printresp := mkResp { retcode : Z; r_jobid : Z; msg : bytes }.

Definition sizeof_printresp : Z := 4 + 4 + MSGLEN_MAX.

Definition enc_resp (r : printresp) : bytes := le32 (retcode r) ++ le32 (r_jobid r) ++ msg r.
Definition dec_resp (l : bytes) : printresp := mkResp (of_le32 (slice l 0 4)) (of_le32 (slice l 4 4)) (slice l 8 MSGLEN_MAX).

(** ** String functions on arrays *)

(** [strcpy(a, s)]: the string and its null; what follows stays. *)
Definition strcpy (a s : bytes) : bytes := splice a 0 (cstr s ++ [NUL]).

(** [strncpy(a, s, n)]: as many bytes as fit, the rest is filled with
    nulls. *)
Definition strncpy (a s : bytes) (n : Z) : bytes :=
  let t := take (Z.to_nat n) (cstr s) in splice a 0 (t ++ replicate (Z.to_nat n - length t) NUL).

(** [strncat(a, s, n)]: at most [n] bytes after the string in [a], and a
    null. *)
Definition strncat (a s : bytes) (n : Z) : bytes :=
  splice a (strlen a) (take (Z.to_nat n) (cstr s) ++ [NUL]).

(** ** [submit_file] *)

(** The header: [req] is the structure on the stack before, [pw_name] the
    name that [getpwuid] finds. *)
Definition build_req (req : printreq) (pw_name : option bytes) (fname : bytes) (nbytes : Z) (text : bool) : printreq :=
  let user := match pw_name with
              | None => strcpy (usernm req) (lit "unknown")
              | Some n => splice (strncpy (usernm req) n (USERNM_MAX - 1)) (USERNM_MAX - 1) [NUL]
              end in
  let fl := if text then htonl PR_TEXT else 0 in
  let len := strlen fname in
  let job := if JOBNM_MAX <=? len
             then strncat (strcpy (jobnm req) (lit "... ")) (drop (Z.to_nat (len - JOBNM_MAX + 5)) fname) (JOBNM_MAX - 5)
             else strcpy (jobnm req) fname in
  mkReq (htonl (wrapu 32 nbytes)) fl user job.

(** [while ((nr = read(fd, buf, IOBUFSZ)) != 0)]: a failed read gives
    [nr] the value -1, which is then the number of bytes to write. *)
Fixpoint send_loop (fuel : nat) (fd sockfd : Z) : io unit :=
  match fuel with
  | O => die "fuel"
  | S fuel =>
      do r <- sys_read fd IOBUFSZ;
      match r with
      | Some [] => pret tt
      | None => die "writen with the size -1"
      | Some buf =>
          do nw <- Apue.writen sockfd buf;
          run guard_die (negb (nw =? zlen buf)) (if nw <? 0 then "can't write to print server" else "short write to print server");
          send_loop fuel fd sockfd
      end
  end.

(** What the command prints. *)
Inductive answer := Rejected (m : bytes) | JobId (n : Z).

Definition submit_file (req : printreq) (pw_name : option bytes) (fd sockfd : Z) (fname : bytes) (nbytes : Z) (text : bool) : io answer :=
  let req := build_req req pw_name fname nbytes text in
  do nw <- Apue.writen sockfd (enc_req req);
  run guard_die (negb (nw =? sizeof_printreq)) (if nw <? 0 then "can't write to print server" else "short write to print server");
  do fuel <- get (rfuel fd);
  run send_loop fuel fd sockfd;
  do '(nr, buf) <- Apue.readn sockfd sizeof_printresp;
  run guard_die (negb (nr =? sizeof_printresp)) "can't read response from server";
  let res := dec_resp buf in
  if negb (retcode res =? 0) then pret (Rejected (cstr (msg res))) else pret (JobId (ntohl (r_jobid res))).

(** ** Lemmas on integers in memory *)
Lemma of_le32_app z l : 0 <= z < 2 ^ 32 -> of_le32 (le32 z ++ l) = z.
Proof.
  intros Hz. unfold le32, of_le32. cbn [app].
  pose proof (Z.div_mod z 256 ltac:(lia)) as H0. pose proof (Z.div_mod (z / 256) 256 ltac:(lia)) as H1.
  pose proof (Z.div_mod (z / 65536) 256 ltac:(lia)) as H2.
  rewrite Z.div_div in H1, H2 by lia. change (256 * 256) with 65536 in H1. change (65536 * 256) with 16777216 in H2.
  rewrite (Z.mod_small (z / 16777216) 256); [lia|].
  split; [apply Z.div_pos; lia|]. apply Z.div_lt_upper_bound; lia.
Qed.

Lemma of_le32_le32 z : 0 <= z < 2 ^ 32 -> of_le32 (le32 z) = z.
Proof. intros Hz. pose proof (of_le32_app z [] Hz) as H. by rewrite app_nil_r in H. Qed.

Lemma le32_of_le32 b0 b1 b2 b3 :
  0 <= b0 < 256 -> 0 <= b1 < 256 -> 0 <= b2 < 256 -> 0 <= b3 < 256 -> le32 (of_le32 [b0; b1; b2; b3]) = [b0; b1; b2; b3].
Proof.
  intros. cbn [of_le32]. unfold le32.
  assert (forall a b, 0 <= a < 256 -> (a + 256 * b) mod 256 = a /\ (a + 256 * b) / 256 = b) as Hs.
  { intros a b Ha. rewrite Z.mul_comm, Z_mod_plus_full, Z_div_plus_full, Z.mod_small, Z.div_small by lia. lia. }
  pose (z2 := b2 + 256 * b3). pose (z1 := b1 + 256 * z2).
  replace (b0 + 256 * b1 + 65536 * b2 + 16777216 * b3) with (b0 + 256 * z1) by (unfold z1, z2; lia).
  change 65536 with (256 * 256). change 16777216 with (256 * 256 * 256). rewrite <- !Z.div_div by lia.
  destruct (Hs b0 z1) as [-> ->]; [lia|]. unfold z1.
  destruct (Hs b1 z2) as [-> ->]; [lia|]. unfold z2. destruct (Hs b2 b3) as [-> ->]; [lia|].
  by rewrite Z.mod_small.
Qed.

Lemma le32_bytes z : Forall (fun b => 0 <= b < 256) (le32 z).
Proof. unfold le32. repeat constructor; apply Z.mod_pos_bound; lia. Qed.

Lemma zlen_le32 z : zlen (le32 z) = 4.
Proof. done. Qed.

Lemma htonl_range z : 0 <= htonl z < 2 ^ 32.
Proof.
  unfold htonl. pose proof (le32_bytes z) as H. unfold le32 in *. rewrite !Forall_cons in H. destruct H as (? & ? & ? & ? & _).
  cbn [reverse rev_append]. unfold reverse. cbn [rev_append of_le32]. lia.
Qed.

(** Sending an integer in network order and converting it back. *)
Lemma ntohl_htonl z : 0 <= z < 2 ^ 32 -> ntohl (htonl z) = z.
Proof.
  intros Hz. unfold ntohl, htonl. pose proof (le32_bytes z) as Hb. pose proof (of_le32_le32 z Hz) as E. unfold le32 in Hb, E |- * at 2.
  rewrite !Forall_cons in Hb. destruct Hb as (? & ? & ? & ? & _). unfold reverse. cbn [rev_append].
  rewrite le32_of_le32 by done. cbn [rev_append]. exact E.
Qed.

Lemma htonl_inj0 z : 0 <= z < 2 ^ 32 -> htonl z = 0 -> z = 0.
Proof. intros Hz H. rewrite <- (ntohl_htonl z Hz), H. done. Qed.

(** ** The structures in memory *)
Definition req_ok (r : printreq) : Prop :=
  0 <= size r < 2 ^ 32 /\ 0 <= flags r < 2 ^ 32 /\ zlen (usernm r) = USERNM_MAX /\ zlen (jobnm r) = JOBNM_MAX.

Lemma enc_req_length r : req_ok r -> zlen (enc_req r) = sizeof_printreq.
Proof. intros (_ & _ & Hu & Hj). unfold enc_req. rewrite !zlen_app, !zlen_le32, Hu, Hj. done. Qed.

Lemma dec_enc_req r l : req_ok r -> dec_req (enc_req r ++ l) = r.
Proof.
  intros (Hs & Hf & Hu & Hj). unfold dec_req, enc_req. destruct r as [s f u j]. cbn [size flags usernm jobnm] in *. rewrite <- !app_assoc. f_equal.
  - rewrite (slice_at _ [] (le32 s) (le32 f ++ u ++ j ++ l)) by done. by apply of_le32_le32.
  - rewrite (slice_at _ (le32 s) (le32 f) (u ++ j ++ l)) by done. by apply of_le32_le32.
  - apply (slice_at _ (le32 s ++ le32 f) u (j ++ l)); [by rewrite <- app_assoc|done|done].
  - apply (slice_at _ (le32 s ++ le32 f ++ u) j l); [by rewrite <- !app_assoc| |done].
    rewrite !zlen_app, !zlen_le32, Hu. done.
Qed.

Definition resp_ok (r : printresp) : Prop :=
  0 <= retcode r < 2 ^ 32 /\ 0 <= r_jobid r < 2 ^ 32 /\ zlen (msg r) = MSGLEN_MAX.

Lemma enc_resp_length r : resp_ok r -> zlen (enc_resp r) = sizeof_printresp.
Proof. intros (_ & _ & Hm). unfold enc_resp. rewrite !zlen_app, !zlen_le32, Hm. done. Qed.

Lemma dec_enc_resp r : resp_ok r -> dec_resp (enc_resp r) = r.
Proof.
  intros (Hc & Hj & Hm). unfold dec_resp, enc_resp. destruct r as [c j m]. cbn [retcode r_jobid msg] in *. f_equal.
  - rewrite (slice_at _ [] (le32 c) (le32 j ++ m)) by done. by apply of_le32_le32.
  - rewrite (slice_at _ (le32 c) (le32 j) m) by done. by apply of_le32_le32.
  - apply (slice_at _ (le32 c ++ le32 j) m []); [by rewrite app_nil_r, <- app_assoc|done|done].
Qed.
