(* ===== verification/PrJobs.v ===== *)
(** * The job list and the job numbers of the printer daemon
      (apue.3e/printer/printd.c)

    The list of pending jobs, the counter [nextjob] and the file that keeps
    it.  [add_job], [replace_job] and [get_newjobno] hold [joblock]; the
    caller of [remove_job] does. *)
From S2P Require Import Prelude CString Posix Chain PrReq.

Open Scope prog_scope.

(** A job: the links [next] and [prev] are those of its node. *)
Record pjob := mkPjob { jobid : Z; req : printreq }.

(** [jobhead], [jobtail] and the jobs in memory. *)
Abbreviation joblist := (dl pjob).

(** [jp] is what [malloc] returns. *)
Definition add_job (jp : Z) (reqp : printreq) (id : Z) : Prog joblist unit :=
  run guard_die (jp =? 0) "malloc failed";
  run put (set_node jp (mkNode 0 0 (mkPjob id reqp)));
  do t <- get d_tail;
  run set_prev jp t;
  run (if t =? 0 then put (set_head jp) else set_next t jp);
  put (set_tail jp).

Definition replace_job (jp : Z) : Prog joblist unit :=
  run set_prev jp 0;
  do h <- get d_head;
  run set_next jp h;
  run (if h =? 0 then put (set_tail jp) else set_prev h jp);
  put (set_head jp).

Definition remove_job (target : Z) : Prog joblist unit :=
  do j <- deref target;
  run (if negb (n_next j =? 0) then set_prev (n_next j) (n_prev j) else put (set_tail (n_prev j)));
  do j <- deref target;
  if negb (n_prev j =? 0) then set_next (n_prev j) (n_next j) else put (set_head (n_next j)).

(** ** Job numbers *)

(** [nextjob] has 32 bits. *)
Definition get_newjobno : Prog Z Z :=
  do jobid <- get id;
  let next := wraps 32 (jobid + 1) in
  run put (fun _ => next);
  run (if next <=? 0 then put (fun _ => 1) else pret tt);
  pret jobid.

(** The name of the job file, in a buffer of FILENMSZ bytes; [junk] is what
    was in the buffer. *)
Definition FILENMSZ : Z := 64.
Definition job_path : bytes := lit "/var/spool/printer/jobno".
Definition name_buf (junk : bytes) : bytes := strcpy junk job_path.

(** [file] is the content of the job file, empty when it was just created;
    [locked] says that another process has locked it.  The bytes are read
    over the name, without a null after them. *)
Definition init_request (junk file : bytes) (locked : bool) : Z + string :=
  if locked then inr "daemon already running"
  else
    let got := take (Z.to_nat FILENMSZ) file in
    if zlen got =? 0 then inl 1
    else inl (wraps 32 (atol (splice (name_buf junk) 0 got))).

(** The job file after [update_jobno]: it is not truncated. *)
Definition update_jobno (nextjob : Z) (file : bytes) : bytes := splice file 0 (fmt_d nextjob).

(** ** What the list operations do *)
Lemma add_job_run D d l jp r id :
  dl_rep D d l -> D !! jp = None -> jp <> 0 ->
  exists d', add_job jp r id d = Ok tt d' /\ dl_rep (<[jp := mkPjob id r]> D) d' (l ++ [jp]).
Proof.
  intros Hr Hjp H0. set (D' := <[jp := mkPjob id r]> D).
  assert (jp ∉ l) as Hl by (intros H; destruct (rep_datas _ _ _ _ Hr H); congruence).
  unfold add_job. rewrite pbind_guard by (by apply Z.eqb_neq). pstep. set (d0 := set_node _ _ d).
  assert (d_mem d !! jp = None) as Hm.
  { destruct Hr as [<- _]. unfold datas in Hjp. by rewrite lookup_fmap, fmap_None in Hjp. }
  assert (view D' (<[jp := 0]> (nexts d)) (<[jp := 0]> (prevs d)) (d_head d) (d_tail d) d0) as Hv0.
  { destruct Hr as [<- _]. unfold view, d0, D', datas, nexts, prevs. simpl. by rewrite !fmap_insert. }
  assert (forall x, x ∈ l -> is_Some (D' !! x)) as Hin.
  { intros x Hx. unfold D'. rewrite lookup_insert_ne by (by intros ->). by eapply rep_datas. }
  pose proof (dlist_append _ _ _ _ _ jp (proj2 Hr) Hl H0) as Happ.
  change (d_tail d0) with (d_tail d). store; [unfold D'; by rewrite lookup_insert_eq|].
  rewrite insert_insert_eq in Hv. destruct (Z.eqb_spec (d_tail d) 0) as [Hz|Hz]; pstep.
  - eexists. split; [done|]. eapply view_rep; eauto with dlops.
  - store; [eapply Hin, dlist_last; [apply Hr|done]|]. eexists. split; [done|]. eapply view_rep; eauto with dlops.
Qed.

Lemma replace_job_run D d l jp :
  dl_rep D d l -> is_Some (D !! jp) -> jp ∉ l -> jp <> 0 ->
  exists d', replace_job jp d = Ok tt d' /\ dl_rep D d' (jp :: l).
Proof.
  intros Hr Hjp Hl H0. pose proof (rep_view _ _ _ Hr) as Hv0. pose proof (dlist_push _ _ _ _ _ jp (proj2 Hr) Hl H0) as Hpush.
  unfold replace_job. store; [done|]. assert (d_head d' = d_head d) as -> by apply Hv. store; [done|].
  destruct (Z.eqb_spec (d_head d) 0) as [Hz|Hz]; pstep.
  - eexists. split; [done|]. eapply view_rep; eauto with dlops.
  - store; [eapply rep_datas, dlist_first; [done|apply Hr|done]|]. eexists. split; [done|]. eapply view_rep; eauto with dlops.
Qed.

Lemma remove_job_run D d l jp :
  dl_rep D d l -> jp ∈ l -> exists d', remove_job jp d = Ok tt d' /\ dl_rep D d' (filter (fun x => x <> jp) l).
Proof.
  intros Hr Hp. pose proof (rep_view _ _ _ Hr) as Hv0. pose proof (rep_datas _ _ _ _ Hr Hp) as Hid.
  destruct (rep_unlink _ _ _ _ Hr Hp) as (j & E & Hnp & Hpp & Hh & Ht & Hin & Hip & Hdl).
  destruct (deref_run _ _ _ _ _ jp _ Hv0 Hid) as (x & Ex & Hxn & Hxp & _). assert (x = j) as -> by congruence.
  unfold remove_job. rewrite (pbind_ok _ _ _ _ _ E). destruct (Z.eqb_spec (n_next j) 0) as [Hn|Hn]; cbn [negb]; pstep.
  - assert (view D (nexts d) (prevs d) (d_head d) (n_prev j) (set_tail (n_prev j) d)) as Hv by eauto with dlops.
    destruct (deref_run _ _ _ _ _ jp _ Hv Hid) as (j' & E' & Hjn & Hjp & _). rewrite (pbind_ok _ _ _ _ _ E').
    rewrite Hxn in Hjn. rewrite Hxp in Hjp. injection Hjn as <-. injection Hjp as <-.
    destruct (Z.eqb_spec (n_prev j) 0) as [Hz|Hz]; cbn [negb].
    + eexists. split; [done|]. eapply view_rep; eauto with dlops.
    + store; [auto|]. eexists. split; [done|]. by eapply view_rep.
  - store; [auto|]. destruct (deref_run _ _ _ _ _ jp _ Hv Hid) as (j' & E' & Hjn & Hjp & _). rewrite (pbind_ok _ _ _ _ _ E').
    rewrite Hxn in Hjn. rewrite lookup_insert_ne, Hxp in Hjp by done. injection Hjn as <-. injection Hjp as <-.
    destruct (Z.eqb_spec (n_prev j) 0) as [Hz|Hz]; cbn [negb].
    + eexists. split; [done|]. eapply view_rep; eauto with dlops.
    + store; [auto|]. eexists. split; [done|]. by eapply view_rep.
Qed.

(** ** Job numbers *)
Definition JOBMAX : Z := 2 ^ 31 - 1.

(** The number [k] calls after [n]. *)
Definition nth_job (n k : Z) : Z := 1 + (n - 1 + k) mod JOBMAX.

Lemma nth_job_range n k : 1 <= nth_job n k <= JOBMAX.
Proof. unfold nth_job, JOBMAX. pose proof (Z.mod_pos_bound (n - 1 + k) (2 ^ 31 - 1)). lia. Qed.

Lemma nth_job_0 n : 1 <= n <= JOBMAX -> nth_job n 0 = n.
Proof. intros Hn. unfold nth_job. rewrite Z.add_0_r, Z.mod_small by lia. lia. Qed.

Lemma get_newjobno_run n k : get_newjobno (nth_job n k) = Ok (nth_job n k) (nth_job n (k + 1)).
Proof.
  pose proof (nth_job_range n k) as Hr. set (j := nth_job n k) in *. unfold get_newjobno. pstep. unfold id.
  assert (nth_job n (k + 1) = if j =? JOBMAX then 1 else j + 1) as ->.
  { unfold j, nth_job in *. replace (n - 1 + (k + 1)) with (n - 1 + k + 1) by lia.
    rewrite <- (Z.add_mod_idemp_l (n - 1 + k) 1) by done. destruct (Z.eqb_spec (1 + (n - 1 + k) mod JOBMAX) JOBMAX) as [E|E].
    - replace ((n - 1 + k) mod JOBMAX + 1) with JOBMAX by lia. by rewrite Z.mod_same.
    - rewrite (Z.mod_small (_ + 1)) by lia. lia. }
  destruct (Z.eqb_spec j JOBMAX) as [E|E].
  - rewrite E. done.
  - unfold JOBMAX in *. rewrite wraps32_small by lia. rewrite leb_false by lia. done.
Qed.

Lemma nth_job_inj n i j : 0 <= j - i < JOBMAX -> nth_job n i = nth_job n j -> i = j.
Proof.
  unfold nth_job. intros Hij H. assert ((n - 1 + j - (n - 1 + i)) mod JOBMAX = 0) as Hm.
  { rewrite Zminus_mod. replace ((n - 1 + i) mod JOBMAX) with ((n - 1 + j) mod JOBMAX) by lia. by rewrite Z.sub_diag. }
  rewrite Z.mod_small in Hm by lia. lia.
Qed.

(** ** The job file *)
Lemma num_go_stop acc s c t :
  Forall (fun c => isdigit c = true) s -> isdigit c = false -> num_go acc (s ++ c :: t) = num_go acc s.
Proof. intros Hs Hc. revert acc. induction Hs as [|x s Hx _ IH]; intros acc; simpl; [by rewrite Hc|]. rewrite Hx. apply IH. Qed.

(** A number that is followed by something else. *)
Lemma atol_prefix n c t :
  0 <= n < 2 ^ 63 -> isdigit c = false -> c <> NUL -> atol (dec n ++ c :: t) = n.
Proof.
  intros Hn Hc Hc0. unfold atol.
  assert (cstr (dec n ++ c :: t) = dec n ++ c :: cstr t) as ->.
  { pose proof (dec_nonul n ltac:(lia)) as H. induction H as [|x s Hx _ IH]; simpl; [by rewrite eqb_false|].
    rewrite eqb_false by done. by rewrite IH. }
  pose proof (dec_digits n ltac:(lia)) as Hd. pose proof (dec_num n (c :: cstr t) ltac:(lia)) as Hv.
  destruct (dec n) as [|x s] eqn:E; [by destruct (dec_nonempty n)|]. apply Forall_cons in Hd as [Hx _]. unfold CH_0 in Hx.
  cbn [app]. unfold skip_space at 1. unfold isspace. rewrite eqb_false, (leb_false x 13), andb_false_r by lia. simpl orb. cbn iota.
  unfold CH_MINUS, CH_PLUS. rewrite !eqb_false by lia. change (x :: s ++ c :: cstr t) with ((x :: s) ++ c :: cstr t).
  rewrite Hv. simpl. rewrite Hc. by apply clampl_small.
Qed.

Definition no_digits (l : bytes) : Prop := Forall (fun c => isdigit c = false /\ c <> NUL) l.

Lemma job_path_no_digits : no_digits job_path.
Proof. unfold no_digits. apply (bool_decide_eq_true_1 (Forall (fun c => isdigit c = false /\ c <> NUL) job_path)). vm_compute. reflexivity. Qed.

(** What [init_request] reads from a file that holds a number. *)
Lemma init_request_dec junk n :
  zlen junk = FILENMSZ -> 1 <= n <= JOBMAX -> init_request junk (dec n) false = inl n.
Proof.
  intros Hj Hn. unfold JOBMAX in Hn. assert (zlen (dec n) <= 10) as Hl by (apply dec_length; lia). pose proof (dec_length_pos n) as Hl1.
  unfold init_request. rewrite take_ge by (unfold zlen, FILENMSZ in *; lia). rewrite eqb_false by lia.
  unfold name_buf, strcpy. rewrite cstr_id by (eapply Forall_impl; [apply job_path_no_digits|]; simpl; tauto).
  rewrite (splice_front junk) by (rewrite zlen_app, Hj; vm_compute; discriminate).
  set (rest := drop (length (job_path ++ [NUL])) junk).
  rewrite splice_front by (rewrite !zlen_app; change (zlen job_path) with 24; change (zlen [NUL]) with 1; pose proof (zlen_nonneg rest); lia).
  rewrite <- app_assoc, drop_app_le by (change (length job_path) with 24%nat; unfold zlen in *; lia).
  pose proof job_path_no_digits as Hp. apply (Forall_drop _ (length (dec n))) in Hp.
  assert (0 < length (drop (length (dec n)) job_path))%nat as Hpos by (rewrite length_drop; change (length job_path) with 24%nat; unfold zlen in *; lia).
  destruct (drop (length (dec n)) job_path) as [|c t]; [simpl in Hpos; lia|]. apply Forall_cons in Hp as [[Hc Hc0] _].
  cbn [app]. rewrite atol_prefix by (done || lia). f_equal. apply wraps32_small. lia.
Qed.

Lemma update_jobno_run n file : 0 <= n -> zlen file <= zlen (dec n) -> update_jobno n file = dec n.
Proof.
  intros Hn Hl. unfold update_jobno, splice. rewrite fmt_d_dec by done. simpl. rewrite drop_ge by (unfold zlen in *; lia). by rewrite app_nil_r.
Qed.

(** Larger numbers are not shorter. *)
Lemma dec_length_mono n m : 0 <= n <= m -> zlen (dec n) <= zlen (dec m).
Proof.
  intros Hnm. pose proof (dec_length_pos m) as Hm. apply dec_length; [done|]. split; [lia|].
  enough (m < 10 ^ zlen (dec m)) by lia.
  pose proof (dec_num m [] ltac:(lia)) as Hv. rewrite app_nil_r in Hv. simpl in Hv. rewrite <- Hv at 1.
  assert (forall s acc, Forall (fun c => CH_0 <= c <= 57) s -> 0 <= acc -> num_go acc s < (acc + 1) * 10 ^ zlen s) as Hb.
  { induction s as [|c s IH]; intros acc Hs Hacc; simpl; [rewrite zlen_nil; lia|]. apply Forall_cons in Hs as [Hc Hs].
    unfold isdigit. unfold CH_0 in *. rewrite !leb_true by lia. simpl. specialize (IH (acc * 10 + (c - 48)) Hs ltac:(lia)).
    rewrite zlen_cons, Z.pow_add_r by (pose proof (zlen_nonneg s); lia). pose proof (Z.pow_pos_nonneg 10 (zlen s) ltac:(lia) (zlen_nonneg s)). nia. }
  specialize (Hb (dec m) 0 (dec_digits m ltac:(lia)) ltac:(lia)). lia.
Qed.

(** ** The worker threads of the printer daemon
      (apue.3e/printer/printd.c)

    [add_worker], [kill_workers] and [client_cleanup] on the list of worker
    threads, each under [workerlock], and the signals.  The list has a head,
    [workers], and no tail pointer. *)
(** A worker: its thread and its socket; the links are those of the node. *)
Record worker := mkWorker { tid : Z; sockfd : Z }.

Abbreviation worklist := (dl worker).
Abbreviation workers := d_head.

(** [wtp] is what [malloc] returns; the thread exits when it is null. *)
Definition add_worker (wtp t fd : Z) : Prog worklist bool :=
  if wtp =? 0 then pret false
  else
    run put (set_node wtp (mkNode 0 0 (mkWorker t fd)));
    run set_prev wtp 0;
    do w <- get workers;
    run set_next wtp w;
    run (if w =? 0 then put (set_head wtp) else set_prev w wtp);
    pret true.

(** The threads that [pthread_cancel] is called for. *)
Fixpoint kill_loop (fuel : nat) (wtp : Z) : Prog worklist (list Z) :=
  match fuel with
  | O => die "fuel"
  | S fuel =>
      if wtp =? 0 then pret []
      else
        do w <- deref wtp;
        do ts <- kill_loop fuel (n_next w);
        pret (tid (n_data w) :: ts)
  end.

Definition kill_workers : Prog worklist (list Z) :=
  do fuel <- get (fun d => S (base.size (d_mem d)));
  do w <- get workers;
  kill_loop fuel w.

(** The search of [client_cleanup], which unlinks the worker it finds. *)
Fixpoint cleanup_loop (fuel : nat) (t wtp : Z) : Prog worklist Z :=
  match fuel with
  | O => die "fuel"
  | S fuel =>
      if wtp =? 0 then pret 0
      else
        do w <- deref wtp;
        if tid (n_data w) =? t then
          run (if negb (n_next w =? 0) then set_prev (n_next w) (n_prev w) else pret tt);
          do w <- deref wtp;
          run (if negb (n_prev w =? 0) then set_next (n_prev w) (n_next w) else put (set_head (n_next w)));
          pret wtp
        else cleanup_loop fuel t (n_next w)
  end.

(** The socket that is closed, if any. *)
Definition client_cleanup (t : Z) : Prog worklist (option Z) :=
  do fuel <- get (fun d => S (base.size (d_mem d)));
  do w <- get workers;
  do wtp <- cleanup_loop fuel t w;
  if negb (wtp =? 0) then
    do w <- deref wtp;
    run put (free_node wtp);
    pret (Some (sockfd (n_data w)))
  else pret None.

(** ** Signals *)
Inductive signo := SIGHUP | SIGTERM | Other (n : Z).

(** One round of [signal_thread]: [reread] is set, or the workers are
    cancelled and the daemon ends. *)
Definition signal_round (err : Z) (s : signo) : Prog (worklist * bool) (list Z) :=
  run guard_die (negb (err =? 0)) "sigwait failed";
  match s with
  | SIGHUP => run put (fun x => (x.1, true)); pret []
  | SIGTERM => do ts <- zoom fst (fun w x => (w, x.2)) kill_workers; die "exit(0)"
  | Other _ => do ts <- zoom fst (fun w x => (w, x.2)) kill_workers; die "unexpected signal"
  end.

(** ** One worker at a time

    A worker that is alone is found, its socket is closed and its memory
    freed. *)
Lemma single_worker mem wtp t fd :
  wtp <> 0 -> mem !! wtp = None ->
  exists d1, add_worker wtp t fd (mkDl 0 0 mem) = Ok true d1 /\ workers d1 = wtp /\
    client_cleanup t d1 = Ok (Some fd) (mkDl 0 0 mem).
Proof.
  intros H0 Hm. set (d1 := mkDl wtp 0 (<[wtp := mkNode 0 0 (mkWorker t fd)]> mem)).
  assert (add_worker wtp t fd (mkDl 0 0 mem) = Ok true d1) as ->.
  { unfold add_worker. rewrite eqb_false by done. pstep. unfold set_prev, set_next, deref. pstep. cbn [d_mem set_node].
    rewrite !lookup_insert_eq. pstep. cbn [d_mem set_node d_head]. rewrite !lookup_insert_eq. pstep. cbn [n_data n_next n_prev].
    unfold d1, set_head, set_node. cbn [d_mem d_head d_tail]. by rewrite !insert_insert_eq. }
  exists d1. split_and!; [done|done|]. unfold client_cleanup. pstep. unfold d1 at 1 2 3. cbn [d_mem d_head].
  unfold cleanup_loop. rewrite eqb_false by done. unfold deref. pstep. cbn [d_mem d1]. rewrite lookup_insert_eq. pstep.
  cbn [n_data tid n_next n_prev]. rewrite !Z.eqb_refl. cbn [negb]. pstep. cbn [d_mem d1]. rewrite lookup_insert_eq. pstep.
  cbn [n_prev n_next]. rewrite Z.eqb_refl. cbn [negb]. pstep. rewrite eqb_false by done. cbn [negb]. pstep.
  cbn [set_head d_mem d1]. rewrite lookup_insert_eq. pstep. unfold free_node, set_head. cbn [d_head d_tail d_mem n_data sockfd].
  by rewrite delete_insert_id.
Qed.

(** ** Two workers *)

(** [wsim] runs the operations on a memory that is known where they look. *)
Ltac wsim :=
  unfold add_worker, kill_workers, client_cleanup;
  repeat first
    [ progress unfold set_prev, set_next, deref | progress pstep
    | progress cbn [d_mem d_head d_tail set_node set_head free_node n_next n_prev n_data tid sockfd kill_loop cleanup_loop negb]
    | rewrite lookup_insert_eq | rewrite lookup_insert_ne by done | rewrite lookup_delete_eq | rewrite lookup_delete_ne by done
    | rewrite Z.eqb_refl | rewrite eqb_false by done ].

Section two.
Context (mem : gmap Z (node worker)) (a b ta tb fa fb : Z).
Context (Ha : a <> 0) (Hb : b <> 0) (Hab : a <> b) (Hba : b <> a) (Ht : ta <> tb).

Definition one_mem : gmap Z (node worker) := <[a := mkNode 0 0 (mkWorker ta fa)]> mem.
Definition two_mem : gmap Z (node worker) := <[a := mkNode 0 b (mkWorker ta fa)]> (<[b := mkNode a 0 (mkWorker tb fb)]> mem).

Lemma add_first : add_worker a ta fa (mkDl 0 0 mem) = Ok true (mkDl a 0 one_mem).
Proof. wsim. unfold one_mem, set_head, set_node. cbn. by rewrite !insert_insert_eq. Qed.

Lemma add_second : add_worker b tb fb (mkDl a 0 one_mem) = Ok true (mkDl a 0 two_mem).
Proof.
  unfold one_mem. wsim. unfold two_mem, pret, set_head, set_node. cbn. do 2 f_equal. rewrite !insert_insert_eq.
  rewrite (insert_insert_ne _ b a) by done. by rewrite insert_insert_eq.
Qed.

Lemma two_size : exists n, base.size two_mem = S n.
Proof. destruct (base.size two_mem) eqn:E; [|eauto]. apply map_size_empty_iff in E. apply (f_equal (lookup a)) in E. unfold two_mem in E. by rewrite lookup_insert_eq in E. Qed.

Lemma kill_first : kill_workers (mkDl a 0 two_mem) = Ok [ta] (mkDl a 0 two_mem).
Proof. destruct two_size as [n E]. unfold kill_workers. pstep. cbn [d_mem d_head]. rewrite E. unfold two_mem. by wsim. Qed.

Lemma cleanup_second : client_cleanup tb (mkDl a 0 two_mem) = Ok None (mkDl a 0 two_mem).
Proof. destruct two_size as [n E]. unfold client_cleanup. pstep. cbn [d_mem d_head]. rewrite E. unfold two_mem. by wsim. Qed.

Lemma cleanup_first :
  exists d3, client_cleanup ta (mkDl a 0 two_mem) = Ok (Some fa) d3 /\ d_head d3 = a /\ d_mem d3 !! a = None.
Proof.
  destruct two_size as [n E]. unfold client_cleanup. pstep. cbn [d_mem d_head]. rewrite E. unfold two_mem. wsim.
  eexists. split; [reflexivity|]. cbn. split; [done|]. apply lookup_delete_eq.
Qed.

End two.

(** A head that points to freed memory. *)
Lemma dangling_kill d : d_head d <> 0 -> d_mem d !! d_head d = None -> kill_workers d = Abort "invalid pointer" d.
Proof. intros H0 Hm. wsim. by rewrite Hm. Qed.

Lemma dangling_add d c t f :
  c <> 0 -> d_head d <> c -> d_head d <> 0 -> d_mem d !! d_head d = None -> exists d', add_worker c t f d = Abort "invalid pointer" d'.
Proof.
  intros Hc Hdc H0 Hm. assert (c <> d_head d) by congruence. wsim. rewrite Hm. by eexists.
Qed.
