(* ===== verification/PrSpool.v ===== *)
(** * The spool directory of the printer daemon (apue.3e/printer/printd.c)

    [client_thread] takes a print job from a client and [build_qonstart]
    finds the jobs of an earlier run of the daemon.  The state of the daemon
    has the sockets, the files of the spool directory, the job list, the
    counter and the workers.  What the calls on files do is a script, as for
    the sockets; a file is written from its start, so a write appends. *)
From S2P Require Import Prelude Posix CString IoFd IoReadn Chain PrUtil PrReq PrJobs.

Open Scope prog_scope.

(** ** The state *)

(** The next call on a file works, fails, or writes only [k] bytes. *)
Inductive fev := FOk | FErr (e : Z) | FShort (k : nat).

Record pd := mkPd {
  pd_io : world;
  pd_fs : fsys;
  pd_ev : list fev;
  pd_jobs : joblist;
  pd_next : Z;
  pd_work : worklist;
  pd_closed : list Z
}.

Definition set_io (w : world) (s : pd) : pd := mkPd w (pd_fs s) (pd_ev s) (pd_jobs s) (pd_next s) (pd_work s) (pd_closed s).
Definition set_fs (f : fsys) (s : pd) : pd := mkPd (pd_io s) f (pd_ev s) (pd_jobs s) (pd_next s) (pd_work s) (pd_closed s).
Definition set_ev (e : list fev) (s : pd) : pd := mkPd (pd_io s) (pd_fs s) e (pd_jobs s) (pd_next s) (pd_work s) (pd_closed s).
Definition set_jobs (j : joblist) (s : pd) : pd := mkPd (pd_io s) (pd_fs s) (pd_ev s) j (pd_next s) (pd_work s) (pd_closed s).
Definition set_nextjob (n : Z) (s : pd) : pd := mkPd (pd_io s) (pd_fs s) (pd_ev s) (pd_jobs s) n (pd_work s) (pd_closed s).
Definition set_work (w : worklist) (s : pd) : pd := mkPd (pd_io s) (pd_fs s) (pd_ev s) (pd_jobs s) (pd_next s) w (pd_closed s).
Definition add_closed (fd : Z) (s : pd) : pd := mkPd (pd_io s) (pd_fs s) (pd_ev s) (pd_jobs s) (pd_next s) (pd_work s) (fd :: pd_closed s).

Abbreviation daemon := (Prog pd).

Definition on_io {A} (m : io A) : daemon A := zoom pd_io set_io m.
Definition on_jobs {A} (m : Prog joblist A) : daemon A := zoom pd_jobs set_jobs m.
Definition on_work {A} (m : Prog worklist A) : daemon A := zoom pd_work set_work m.
Definition on_next {A} (m : Prog Z A) : daemon A := zoom pd_next set_nextjob m.

Definition errno : daemon Z := get (fun s => w_errno (pd_io s)).

(** ** Files *)
Definition next_ev : daemon fev :=
  do ev <- get pd_ev;
  match ev with [] => pret FOk | e :: ev => run put (set_ev ev); pret e end.

(** [creat]: was the file created? *)
Definition sys_creat (path : bytes) : daemon bool :=
  do e <- next_ev;
  match e with
  | FErr e => run on_io (put (set_errno e)); pret false
  | _ => run put (fun s => set_fs (<[path := []]> (pd_fs s)) s); pret true
  end.

(** [write] on the file that was created as [path]. *)
Definition sys_fwrite (path buf : bytes) : daemon Z :=
  do e <- next_ev;
  let store b := put (fun s => set_fs (<[path := default [] (pd_fs s !! path) ++ b]> (pd_fs s)) s) in
  match e with
  | FErr e => run on_io (put (set_errno e)); pret (-1)
  | FOk => run store buf; pret (zlen buf)
  | FShort k => run store (take k buf); pret (zlen (take k buf))
  end.

(** A [read] of at most [n] bytes of a file of which [rest] is left. *)
Definition sys_fread (n : nat) (rest : bytes) : daemon (option bytes) :=
  do e <- next_ev;
  match e with
  | FErr e => run on_io (put (set_errno e)); pret None
  | FOk => pret (Some (take n rest))
  | FShort k => pret (Some (take (S k) (take n rest)))
  end.

Definition sys_unlink (path : bytes) : daemon unit :=
  put (fun s => set_fs (delete path (pd_fs s)) s).

(** [sprintf(name, "%s/%s/%d", SPOOLDIR, DATADIR, jobid)] and the same with
    REQDIR *)
Definition data_path (id : Z) : bytes := lit "/var/spool/printer/data/" ++ fmt_d id.
Definition req_path (id : Z) : bytes := lit "/var/spool/printer/reqs/" ++ fmt_d id.

(** [strncmp(a, b, n) == 0] *)
Definition strneq (a b : bytes) (n : nat) : bool := bool_decide (take n (cstr a) = take n (cstr b)).

(** ** [client_thread] *)
Section client.
Context (strerror : Z -> bytes).

(** The response to a request that failed with [code]; [res] is the
    structure on the stack before.  The argument of [strerror] is the number
    in network order. *)
Definition fail_reply (res : printresp) (fd code : Z) : daemon unit :=
  let rc := htonl code in
  run on_io (Apue.writen fd (enc_resp (mkResp rc 0 (strncpy (msg res) (strerror rc) MSGLEN_MAX))));
  pret tt.

(** What comes after an error: the handler runs and the thread exits. *)
Definition thread_exit (t : Z) (status : Z) : daemon Z :=
  do c <- on_work (client_cleanup t);
  run (match c with Some fd => put (add_closed fd) | None => pret tt end);
  pret status.

(** [while ((nr = tread(sockfd, buf, IOBUFSZ, 20)) > 0)]: the new flags, or
    the error number of a failed write; [buf] is what is in the buffer. *)
Fixpoint copy_loop (fuel : nat) (fd : Z) (path buf : bytes) (first : bool) (fl : Z) : daemon (Z + Z) :=
  match fuel with
  | O => die "fuel"
  | S fuel =>
      do nr <- on_io (tread fd IOBUFSZ);
      match nr with
      | None | Some [] => pret (inl fl)
      | Some bs =>
          let buf := splice buf 0 bs in
          let fl := if first && negb (strneq buf (lit "%!PS") 4) then Z.lor fl PR_TEXT else fl in
          do nw <- sys_fwrite path bs;
          if negb (nw =? zlen bs) then
            do e <- errno;
            pret (inr (if nw <? 0 then e else EIO))
          else copy_loop fuel fd path buf false fl
      end
  end.

(** The response to a job that is accepted. *)
Definition accept_resp (res : printresp) (jobid : Z) : printresp :=
  mkResp 0 (htonl (wrapu 32 jobid)) (strcpy (msg res) (lit "request ID " ++ fmt_d jobid)).

(** The end of [client_thread], with the data file stored: the control file,
    the response, the job list.  [jp] is what [malloc] returns. *)
Definition store_request (t fd jp jobid : Z) (res : printresp) (r : printreq) : daemon Z :=
  let name := req_path jobid in
  do ok <- sys_creat name;
  if negb ok then
    do e <- errno;
    run fail_reply res fd e;
    run sys_unlink (data_path jobid);
    thread_exit t 1
  else
  do nw <- sys_fwrite name (enc_req r);
  if negb (nw =? sizeof_printreq) then
    do e <- errno;
    run fail_reply res fd (if nw <? 0 then e else EIO);
    run sys_unlink name;
    run sys_unlink (data_path jobid);
    thread_exit t 1
  else
  run on_io (Apue.writen fd (enc_resp (accept_resp res jobid)));
  run on_jobs (add_job jp r jobid);
  thread_exit t 0.

(** The part of [client_thread] after the request header [r]. *)
Definition store_job (t fd jp jobid : Z) (res : printresp) (buf : bytes) (r : printreq) : daemon Z :=
  let name := data_path jobid in
  do ok <- sys_creat name;
  if negb ok then
    do e <- errno;
    run fail_reply res fd e;
    thread_exit t 1
  else
  do fuel <- get (fun s => rfuel fd (pd_io s));
  do c <- copy_loop fuel fd name buf true (flags r);
  match c with
  | inr e =>
      run fail_reply res fd e;
      run sys_unlink name;
      thread_exit t 1
  | inl fl => store_request t fd jp jobid res (mkReq (size r) fl (usernm r) (jobnm r))
  end.

(** [t] is the thread, [fd] the socket, [wtp] and [jp] what [malloc]
    returns, [res] and [buf] what is on the stack. *)
Definition client_thread (t fd wtp jp : Z) (res : printresp) (buf : bytes) : daemon Z :=
  do ok <- on_work (add_worker wtp t fd);
  if negb ok then thread_exit t 1
  else
  do '(n, hdr) <- on_io (treadn fd sizeof_printreq);
  if negb (n =? sizeof_printreq) then
    do e <- errno;
    run fail_reply res fd (if n <? 0 then e else EIO);
    thread_exit t 1
  else
  let r := dec_req hdr in
  let r := mkReq (ntohl (size r)) (ntohl (flags r)) (usernm r) (jobnm r) in
  do jobid <- on_next get_newjobno;
  store_job t fd jp jobid res buf r.

End client.

(** ** [build_qonstart] *)

(** One entry [d_name] of the directory of requests; [jp] is what [malloc]
    returns. *)
Definition queue_entry (d_name : bytes) (jp : Z) : daemon unit :=
  if streq d_name (lit ".") || streq d_name (lit "..") then pret tt
  else
    let fname := lit "/var/spool/printer/reqs/" ++ cstr d_name in
    run guard_die (FILENMSZ <=? zlen fname) "name too long for fname";
    do e <- next_ev;
    do f <- get (fun s => pd_fs s !! fname);
    match e, f with
    | FErr _, _ | _, None => pret tt                       (* open fails *)
    | _, Some content =>
        do nr <- sys_fread (Z.to_nat sizeof_printreq) content;
        let got := match nr with Some b => b | None => [] end in
        if negb (zlen got =? sizeof_printreq) then
          run sys_unlink fname;
          sys_unlink (lit "/var/spool/printer/data/" ++ cstr d_name)
        else
          let id := wraps 32 (atol d_name) in
          on_jobs (add_job jp (dec_req got) id)
    end.

(** The entries come in the order of [readdir]; [None] says that [opendir]
    fails. *)
Fixpoint queue_entries (names : list (bytes * Z)) : daemon unit :=
  match names with
  | [] => pret tt
  | (d_name, jp) :: names => run queue_entry d_name jp; queue_entries names
  end.

Definition build_qonstart (dir : option (list (bytes * Z))) : daemon unit :=
  match dir with None => pret tt | Some names => queue_entries names end.
