(* ===== verification/PrSpoolThms.v ===== *)
(** * What [client_thread] does to the spool directory

    A job is accepted with both of its files, or it is rejected and leaves
    neither, whatever the sockets and the file system do. *)
From S2P Require Import Prelude Posix CString IoFd IoReadn IoGather Chain PrUtil PrReq PrJobs PrSpool.

Open Scope prog_scope.

(** ** The pieces *)
Lemma apue_writen_run fd buf w s o :
  w_to w !! fd = Some (s, o) ->
  exists n out w', Apue.writen fd buf w = Ok n w' /\ write_post fd w out w' /\ (s = [] -> n = zlen buf /\ out = buf) /\
    (n = zlen buf -> out = buf).
Proof.
  intros Hs. unfold Apue.writen. pstep. rewrite apue_scatter by lia.
  destruct (scatter_spec never (wfuel fd w) fd buf w s o Hs) as (r & out & left & w' & E & Hb & Hp & Hl & _ & _ & HF).
  { unfold wfuel. rewrite Hs. change (default ([], []) (Some (s, o))) with (s, o). cbn [fst]. lia. }
  rewrite (pbind_ok _ _ _ _ _ E). eexists _, out, w'. split_and!; [done|done| |].
  2: { intros Hn. destruct left as [|c left]; [by rewrite app_nil_r in Hb|]. exfalso. revert Hn. simpl. rewrite Hb.
       destruct ((r <? 0) && _); [pose proof (zlen_nonneg (out ++ c :: left)); lia|zl]. }
  intros ->. specialize (HF (Forall_nil_2 _)). subst r. assert (left = []) as -> by (by apply Hl). rewrite app_nil_r in Hb. simpl.
  rewrite zlen_nil. split; [lia|done].
Qed.

Lemma treadn_run fd n w s :
  w_in w !! fd = Some s -> 0 <= n ->
  let '(bs, x, l) := ref_read (Z.to_nat n) (items false s) in
  exists w', treadn fd n w = Ok (count_or_first_error (x, bs)) w' /\ read_post false fd w x l w'.
Proof.
  intros Hs Hn. pose proof (gather_run false fd n w s Hs Hn) as H. destruct (ref_read _ _) as [[bs x] l].
  destruct H as (w' & E & Hp). exists w'. split; [|done]. unfold treadn. pstep.
  assert (forall fuel nleft buf w, treadn_loop fuel fd n nleft buf w = Apue.readn_loop fuel fd n nleft buf w) as ->.
  { clear. induction fuel as [|fuel IH]; intros nleft buf w; [done|]. simpl. destruct (0 <? nleft); [|done].
    unfold pbind. rewrite tread_read. by destruct (sys_read fd nleft w) as [[[|c bs]|] w1|]. }
  rewrite apue_gather by (rewrite zlen_nil; lia). by rewrite (pbind_ok _ _ _ _ _ E).
Qed.

(** What a part of [client_thread] leaves alone. *)
Definition kept (s s' : pd) : Prop :=
  pd_jobs s' = pd_jobs s /\ pd_next s' = pd_next s /\ pd_work s' = pd_work s /\ pd_closed s' = pd_closed s.

#[export] Instance kept_preorder : PreOrder kept.
Proof. split; [done|]. intros a b c (? & ? & ? & ?) (? & ? & ? & ?). split_and!; congruence. Qed.

(** The flags after the first piece [p] of the data. *)
Definition text_flags (buf p : bytes) (fl : Z) : Z :=
  match p with [] => fl | _ => if strneq (splice buf 0 p) (lit "%!PS") 4 then fl else Z.lor fl PR_TEXT end.

Lemma next_ev_run st : exists e st', next_ev st = Ok e st' /\ kept st st' /\ pd_io st' = pd_io st /\ pd_fs st' = pd_fs st /\
  (pd_ev st = [] -> e = FOk /\ pd_ev st' = []).
Proof. unfold next_ev. pstep. destruct (pd_ev st) as [|e ev] eqn:E; pstep; eexists _, _; (split; [done|]); by rewrite ?E. Qed.

Lemma creat_run path st :
  exists ok st', sys_creat path st = Ok ok st' /\ kept st st' /\ w_in (pd_io st') = w_in (pd_io st) /\ w_to (pd_io st') = w_to (pd_io st) /\
    pd_fs st' = (if ok : bool then <[path := []]> (pd_fs st) else pd_fs st) /\ (pd_ev st = [] -> ok = true /\ pd_ev st' = []).
Proof.
  destruct (next_ev_run st) as (e & st1 & E & Hk & Hi & Hf & Hev). unfold sys_creat. rewrite (pbind_ok _ _ _ _ _ E).
  destruct e as [|e|k].
  - pstep. eexists true, _. split; [done|]. simpl. rewrite Hi, Hf. split_and!; try done. intros H%Hev. split; [done|apply H].
  - eexists false, _. split; [done|]. simpl. rewrite Hi, Hf. split_and!; try done. intros H%Hev. destruct H as [[=] _].
  - pstep. eexists true, _. split; [done|]. simpl. rewrite Hi, Hf. split_and!; try done. intros H%Hev. destruct H as [[=] _].
Qed.

Lemma fwrite_run path buf old st :
  pd_fs st !! path = Some old ->
  exists nw new st', sys_fwrite path buf st = Ok nw st' /\ kept st st' /\ w_in (pd_io st') = w_in (pd_io st) /\ w_to (pd_io st') = w_to (pd_io st) /\
    pd_fs st' = <[path := new]> (pd_fs st) /\ (nw = zlen buf -> new = old ++ buf) /\
    (pd_ev st = [] -> nw = zlen buf /\ pd_ev st' = []).
Proof.
  intros Hold. destruct (next_ev_run st) as (e & st1 & E & Hk & Hi & Hf & Hev). unfold sys_fwrite. rewrite (pbind_ok _ _ _ _ _ E).
  destruct e as [|e|k].
  - pstep. eexists _, (old ++ buf), _. split; [done|]. cbn [pd_io set_fs pd_fs pd_ev]. rewrite Hi, Hf, Hold.
    split_and!; try done. intros H%Hev. split; [done|apply H].
  - eexists (-1), old, _. split; [done|]. cbn [pd_io pd_fs pd_ev set_io]. rewrite Hi, Hf. split_and!; try done.
    + by rewrite insert_id.
    + pose proof (zlen_nonneg buf). lia.
    + intros H%Hev. destruct H as [[=] _].
  - pstep. eexists _, (old ++ take k buf), _. split; [done|]. cbn [pd_io set_fs pd_fs pd_ev]. rewrite Hi, Hf, Hold.
    split_and!; try done.
    + intros H. f_equal. apply take_ge. unfold zlen in H. rewrite length_take in H. lia.
    + intros H%Hev. destruct H as [[=] _].
Qed.

(** What the copy loop has done when it returns [r]. *)
Definition copy_post (fd : Z) (path buf : bytes) (first : bool) (fl : Z) (s : list revent) (old : bytes) (st : pd) (r : Z + Z) (st' : pd) : Prop :=
  exists s' new, kept st st' /\ w_in (pd_io st') = <[fd := s']> (w_in (pd_io st)) /\ w_to (pd_io st') = w_to (pd_io st) /\
    pd_fs st' = <[path := new]> (pd_fs st) /\
    (forall fl', r = inl fl' -> new = old ++ until_end (items false s) /\
       exists p q, until_end (items false s) = p ++ q /\ (p = [] -> q = []) /\ fl' = if first then text_flags buf p fl else fl) /\
    (pd_ev st = [] -> (exists fl', r = inl fl') /\ pd_ev st' = []).

Lemma copy_post_stop fd path buf first fl s old st w1 s1 :
  pd_fs st !! path = Some old -> w_in w1 = <[fd := s1]> (w_in (pd_io st)) -> w_to w1 = w_to (pd_io st) -> until_end (items false s) = [] ->
  copy_post fd path buf first fl s old st (inl fl) (set_io w1 st).
Proof.
  intros Hold Hw Ht Hu. exists s1, old. split_and!; try done.
  - cbn. by rewrite insert_id.
  - intros fl' [= <-]. rewrite Hu, app_nil_r. split; [done|]. exists [], []. split_and!; try done. by destruct first.
  - intros H. split; [by exists fl|done].
Qed.

Lemma pd_copy_run fuel fd path buf first fl st s old :
  w_in (pd_io st) !! fd = Some s -> (rweight s < fuel)%nat -> pd_fs st !! path = Some old ->
  exists r st', copy_loop fuel fd path buf first fl st = Ok r st' /\ copy_post fd path buf first fl s old st r st'.
Proof.
  revert buf first fl st s old. induction fuel as [|fuel IH]; intros buf first fl st s old Hs Hf Hold; [lia|]. simpl copy_loop.
  destruct (sys_read_does false fd IOBUFSZ (pd_io st) s Hs ltac:(done)) as (r & w1 & s1 & E & Hw1 & Ht1 & _ & Hd & Hwt).
  assert (on_io (tread fd IOBUFSZ) st = Ok r (set_io w1 st)) as E1 by (apply zoom_ok; by rewrite tread_read).
  rewrite (pbind_ok _ _ _ _ _ E1). remember (w_errno w1) as e1 eqn:He1. remember (items false s1) as l1 eqn:Hl1.
  destruct Hd as [?|e l' Hl Hne|l' Hl e|bs l' e Hbs Hlen Hl]; [done| | |].
  { eexists _, _. split; [done|]. eapply copy_post_stop; [done..|]. by rewrite Hl. }
  { eexists _, _. split; [done|]. eapply copy_post_stop; [done..|]. by destruct Hl as [[-> _] | ->]. }
  destruct bs as [|c0 bs0]; [done|]. set (bs := c0 :: bs0) in *. destruct Hwt as [?|Hwt]; [done|].
  destruct (fwrite_run path bs old (set_io w1 st) Hold) as (nw & new & st2 & E2 & Hk2 & Hi2 & Ht2 & Hf2 & Hnew & Hev).
  cbn [pd_io pd_fs pd_ev set_io] in Hi2, Ht2, Hf2, Hev. rewrite (pbind_ok _ _ _ _ _ E2). destruct (Z.eqb_spec nw (zlen bs)) as [Hnw|Hnw]; cbn [negb].
  - specialize (Hnew Hnw). subst new. assert (w_in (pd_io st2) !! fd = Some s1) as Hs1 by (rewrite Hi2, Hw1; apply lookup_insert_eq).
    assert (pd_fs st2 !! path = Some (old ++ bs)) as Hf1 by (rewrite Hf2; apply lookup_insert_eq).
    set (fl2 := if first && negb (strneq (splice buf 0 bs) (lit "%!PS") 4) then Z.lor fl PR_TEXT else fl).
    destruct (IH (splice buf 0 bs) false fl2 st2 s1 (old ++ bs) Hs1 ltac:(lia) Hf1) as (r3 & st3 & E3 & s3 & new3 & Hk3 & Hi3 & Ht3 & Hf3 & Hr3 & Hev3).
    exists r3, st3. split; [done|]. exists s3, new3.
    split_and!; [|rewrite Hi3, Hi2, Hw1; apply insert_insert_eq|congruence|rewrite Hf3, Hf2; apply insert_insert_eq| |].
    + etransitivity; [|exact Hk3]. etransitivity; [|exact Hk2]. done.
    + intros fl' Hfl. destruct (Hr3 fl' Hfl) as [-> (p & q & _ & _ & ->)]. rewrite Hl, until_end_app, app_assoc, Hl1. split; [done|].
      exists bs, (until_end (items false s1)). split_and!; [done|done|]. unfold fl2, text_flags. destruct first; [|done]. unfold bs at 2. cbn [andb].
      by destruct (strneq _ _ _).
    + intros H. apply Hev3. by apply Hev in H as [_ ?].
  - pstep. eexists _, _. split; [done|]. exists s1, new. split_and!; [|congruence|congruence|done|done|].
    + etransitivity; [|exact Hk2]. done.
    + intros H. apply Hev in H as [? _]. done.
Qed.

(** ** [client_thread] *)
Lemma reply_run fd buf st so o :
  w_to (pd_io st) !! fd = Some (so, o) ->
  exists n st' so' out, on_io (Apue.writen fd buf) st = Ok n st' /\ kept st st' /\ pd_fs st' = pd_fs st /\ pd_ev st' = pd_ev st /\
    w_in (pd_io st') = w_in (pd_io st) /\ w_to (pd_io st') = <[fd := (so', o ++ out)]> (w_to (pd_io st)) /\ (so = [] -> out = buf) /\
    (n = zlen buf -> out = buf) /\ (so = [] -> n = zlen buf /\ so' = []).
Proof.
  intros Hs. destruct (apue_writen_run fd buf (pd_io st) so o Hs) as (n & out & w' & E & (Hi & s1 & s2 & o1 & H1 & H2 & k & Hk) & Hout & Hn).
  rewrite Hs in H1. injection H1 as <- <-. exists n, (set_io w' st), s2, out. split; [by apply zoom_ok|]. split_and!; try done.
  - intros H. by apply Hout.
  - intros H. split; [by apply Hout|]. rewrite Hk, H. by destruct k.
Qed.

(** What the thread has given: the socket, the two files, the place in the
    list. *)
Definition rejected (n : Z) (st st' : pd) : Prop :=
  pd_jobs st' = pd_jobs st /\
  (pd_fs st' = pd_fs st \/ pd_fs st' = delete (data_path n) (pd_fs st) \/
   pd_fs st' = delete (data_path n) (delete (req_path n) (pd_fs st))).

Definition accepted (n : Z) (hdr : printreq) (data : bytes) (D : gmap Z pjob) (l : list Z) (jp : Z) (buf : bytes) (st st' : pd) : Prop :=
  exists r p q, pd_fs st' = <[req_path n := enc_req r]> (<[data_path n := data]> (pd_fs st)) /\
    dl_rep (<[jp := mkPjob n r]> D) (pd_jobs st') (l ++ [jp]) /\
    usernm r = usernm hdr /\ jobnm r = jobnm hdr /\ size r = size hdr /\
    data = p ++ q /\ (p = [] -> q = []) /\ flags r = text_flags buf p (flags hdr).

(** The thread is gone from the list and its socket is closed. *)
Definition exited (wm : gmap Z (node worker)) (fd : Z) (st st' : pd) : Prop :=
  pd_work st' = mkDl 0 0 wm /\ pd_closed st' = fd :: pd_closed st.

Lemma paths_differ i j : data_path i <> req_path j.
Proof. unfold data_path, req_path. intros H. apply (f_equal (take 20)) in H. vm_compute in H. discriminate. Qed.

Section client.
Context (strerror : Z -> bytes) (t fd jp n : Z) (res : printresp) (buf : bytes) (wm : gmap Z (node worker)) (d1 : worklist).
Context (Hclean : client_cleanup t d1 = Ok (Some fd) (mkDl 0 0 wm)).

Lemma exit_run c st : pd_work st = d1 -> thread_exit t c st = Ok c (add_closed fd (set_work (mkDl 0 0 wm) st)).
Proof. intros Hw. unfold thread_exit, pbind, on_work, zoom. by rewrite Hw, Hclean. Qed.

(** The reply to a failed request. *)
Lemma fail_run code st so o :
  w_to (pd_io st) !! fd = Some (so, o) ->
  exists st', fail_reply strerror res fd code st = Ok tt st' /\ kept st st' /\ pd_fs st' = pd_fs st.
Proof.
  intros Hto. unfold fail_reply. match goal with |- context [Apue.writen fd ?b] => set (msgb := b) end.
  destruct (reply_run fd msgb st so o Hto) as (k & st1 & so' & out & E & Hk & Hf & _). rewrite (pbind_ok _ _ _ _ _ E). by exists st1.
Qed.

(** [reject] runs the rest of a branch that sends an error. *)
Ltac reject st so o :=
  match goal with |- context [fail_reply strerror res fd ?code] =>
    let H := fresh "Hfail" in
    destruct (fail_run code st so o) as (st' & E & (Hxj & Hxn & Hxw & Hxc) & Hxf); [congruence|];
    rewrite (pbind_ok _ _ _ _ _ E); unfold sys_unlink; pstep; rewrite exit_run by (simpl; congruence);
    eexists 1, _; split; [done|]; unfold exited; simpl
  end.

Lemma store_request_run (D : gmap Z pjob) l r fs0 data st so o :
  pd_work st = d1 -> w_to (pd_io st) !! fd = Some (so, o) -> pd_fs st = <[data_path n := data]> fs0 ->
  dl_rep D (pd_jobs st) l -> D !! jp = None -> jp <> 0 -> req_ok r ->
  exists c st', store_request strerror t fd jp n res r st = Ok c st' /\ exited wm fd st st' /\ pd_next st' = pd_next st /\
    ((c = 1 /\ pd_jobs st' = pd_jobs st /\
      (pd_fs st' = delete (data_path n) fs0 \/ pd_fs st' = delete (data_path n) (delete (req_path n) fs0))) \/
     (c = 0 /\ pd_fs st' = <[req_path n := enc_req r]> (<[data_path n := data]> fs0) /\
      dl_rep (<[jp := mkPjob n r]> D) (pd_jobs st') (l ++ [jp]))) /\
    (pd_ev st = [] -> c = 0 /\ (so = [] -> exists so', w_to (pd_io st') !! fd =
       Some (so', o ++ enc_resp (accept_resp res n)))).
Proof.
  intros Hw Hto Hfs Hrep Hjp Hjp0 Hr. unfold store_request.
  destruct (creat_run (req_path n) st) as (ok & st1 & E1 & (Hj1 & Hn1 & Hw1 & Hc1) & Hi1 & Ht1 & Hf1 & Hev1). rewrite (pbind_ok _ _ _ _ _ E1).
  destruct ok; cbn [negb].
  2: { unfold errno. pstep. reject st1 so o. split_and!; try congruence.
       - left. split_and!; [done|congruence|]. left. rewrite Hxf, Hf1, Hfs. apply delete_insert_eq.
       - intros H%Hev1. by destruct H. }
  destruct (fwrite_run (req_path n) (enc_req r) [] st1) as (nw & new & st2 & E2 & (Hj2 & Hn2 & Hw2 & Hc2) & Hi2 & Ht2 & Hf2 & Hnew & Hev2).
  { rewrite Hf1. apply lookup_insert_eq. }
  rewrite (pbind_ok _ _ _ _ _ E2). rewrite <- (enc_req_length r Hr). destruct (Z.eqb_spec nw (zlen (enc_req r))) as [Hnw|Hnw]; cbn [negb].
  2: { unfold errno. pstep. reject st2 so o. split_and!; try congruence.
       - left. split_and!; [done|congruence|]. right. rewrite Hxf, Hf2, Hf1, Hfs.
         rewrite !delete_insert_eq, (delete_insert_ne _ (req_path n) (data_path n)) by (intros H; symmetry in H; by apply paths_differ in H). by rewrite delete_insert_eq.
       - intros H%Hev1. destruct H as [_ H%Hev2]. by destruct H. }
  specialize (Hnew Hnw). subst new. rewrite app_nil_l in Hf2.
  match goal with |- context [Apue.writen fd ?b] => set (msgb := b) end.
  destruct (reply_run fd msgb st2 so o) as (k & st3 & so' & out & E3 & (Hj3 & Hn3 & Hw3 & Hc3) & Hf3 & Hev3 & Hi3 & Ht3 & Hout & _); [congruence|].
  rewrite (pbind_ok _ _ _ _ _ E3).
  destruct (add_job_run D (pd_jobs st3) l jp r n) as (dj & Ej & Hdj); [congruence|done|done|].
  assert (on_jobs (add_job jp r n) st3 = Ok tt (set_jobs dj st3)) as E4 by (by apply zoom_ok). rewrite (pbind_ok _ _ _ _ _ E4).
  rewrite exit_run by (simpl; congruence). eexists 0, _. split; [done|]. unfold exited. simpl. split_and!; try congruence.
  - right. split_and!; [done| |done]. by rewrite Hf3, Hf2, Hf1, Hfs, insert_insert_eq.
  - intros _. split; [done|]. intros ->. rewrite Ht3, lookup_insert_eq, Hout by done. eauto.
Qed.

Lemma lor_range a b k : 0 <= k -> 0 <= a < 2 ^ k -> 0 <= b < 2 ^ k -> 0 <= Z.lor a b < 2 ^ k.
Proof.
  intros Hk Ha Hb. assert (0 <= Z.lor a b) as H0 by (apply Z.lor_nonneg; lia). split; [done|].
  destruct (Z.eq_dec (Z.lor a b) 0) as [E|E]; [rewrite E; apply Z.pow_pos_nonneg; lia|].
  apply Z.log2_lt_pow2; [lia|]. rewrite Z.log2_lor by lia.
  assert (forall x, 0 <= x < 2 ^ k -> x <> 0 -> Z.log2 x < k) as Hl by (intros x Hx Hn; apply Z.log2_lt_pow2; lia).
  destruct (Z.eq_dec a 0) as [->|Ha0], (Z.eq_dec b 0) as [->|Hb0].
  - done.
  - change (Z.log2 0) with 0. pose proof (Hl b Hb Hb0). pose proof (Z.log2_nonneg b). lia.
  - change (Z.log2 0) with 0. pose proof (Hl a Ha Ha0). pose proof (Z.log2_nonneg a). lia.
  - pose proof (Hl a Ha Ha0). pose proof (Hl b Hb Hb0). lia.
Qed.

Lemma text_flags_range b p fl : 0 <= fl < 2 ^ 32 -> 0 <= text_flags b p fl < 2 ^ 32.
Proof. intros H. unfold text_flags. destruct p; [done|]. destruct (strneq _ _ _); [done|]. by apply lor_range. Qed.

Lemma store_job_run (D : gmap Z pjob) l r s st so o :
  pd_work st = d1 -> w_in (pd_io st) !! fd = Some s -> w_to (pd_io st) !! fd = Some (so, o) ->
  dl_rep D (pd_jobs st) l -> D !! jp = None -> jp <> 0 -> req_ok r ->
  exists c st', store_job strerror t fd jp n res buf r st = Ok c st' /\ exited wm fd st st' /\ pd_next st' = pd_next st /\
    (c = 1 /\ rejected n st st' \/ c = 0 /\ accepted n r (until_end (items false s)) D l jp buf st st') /\
    (pd_ev st = [] -> c = 0 /\ (so = [] -> exists so', w_to (pd_io st') !! fd =
       Some (so', o ++ enc_resp (accept_resp res n)))).
Proof.
  intros Hw Hin Hto Hrep Hjp Hjp0 Hr. unfold store_job.
  destruct (creat_run (data_path n) st) as (ok & st1 & E1 & (Hj1 & Hn1 & Hw1 & Hc1) & Hi1 & Ht1 & Hf1 & Hev1). rewrite (pbind_ok _ _ _ _ _ E1).
  destruct ok; cbn [negb].
  2: { unfold errno. pstep. reject st1 so o. split_and!; try congruence.
       - left. split; [done|]. split; [simpl; congruence|]. left. simpl. congruence.
       - intros H%Hev1. by destruct H. }
  pstep. destruct (pd_copy_run (rfuel fd (pd_io st1)) fd (data_path n) buf true (flags r) st1 s []) as (c & st2 & E2 & s2 & new & (Hj2 & Hn2 & Hw2 & Hc2) & Hi2 & Ht2 & Hf2 & Hnew & Hev2).
  { congruence. }
  { unfold rfuel. rewrite Hi1, Hin. change (default [] (Some s)) with s. lia. }
  { rewrite Hf1. apply lookup_insert_eq. }
  rewrite (pbind_ok _ _ _ _ _ E2). rewrite Hf1, insert_insert_eq in Hf2. destruct c as [fl|e].
  2: { reject st2 so o. split_and!; try congruence.
       - left. split; [done|]. split; [simpl; congruence|]. right. left. simpl. rewrite Hxf, Hf2. apply delete_insert_eq.
       - intros H%Hev1. destruct H as [_ H%Hev2]. by destruct H as [[? ?] _]. }
  destruct (Hnew fl eq_refl) as [-> (p & q & Hpq & Hp0 & Hfl)]. rewrite app_nil_l in Hf2. destruct Hr as (Hs & Hf & Hu & Hjn).
  destruct (store_request_run D l (mkReq (size r) fl (usernm r) (jobnm r)) (pd_fs st) (until_end (items false s)) st2 so o)
    as (c & st' & E & [Hx Hxc] & Hn' & Hres & Hev); try congruence.
  { split; [done|]. split; [simpl; rewrite Hfl; by apply text_flags_range|done]. }
  exists c, st'. split; [done|]. unfold exited. split_and!; try congruence.
  - destruct Hres as [(-> & Hj' & Hf')|(-> & Hf' & Hd')]; [left|right]; (split; [done|]).
    + split; [congruence|]. tauto.
    + exists (mkReq (size r) fl (usernm r) (jobnm r)), p, q. simpl. split_and!; done.
  - intros H%Hev1. destruct H as [_ H%Hev2]. destruct H as [_ H%Hev]. done.
Qed.

End client.

(** A read is full exactly when it has all the bytes. *)
Lemma ref_read_full n l bs x l' :
  ref_read n l = (bs, x, l') -> (x = Full /\ length bs = n) \/ (x <> Full /\ (length bs < n)%nat).
Proof.
  revert l bs. induction n as [|n IH]; intros l bs; simpl; [intros [= <- <- <-]; by left|].
  destruct l as [|[c|e|] l]; try (intros [= <- <- <-]; right; split; [done|simpl; lia]).
  destruct (ref_read n l) as [[bs1 x1] l1] eqn:E. intros [= <- <- <-]. destruct (IH l bs1 E) as [[-> <-]|[? ?]]; [by left|right; split; [done|simpl; lia]].
Qed.

(** The request in host order. *)
Definition host_req (r : printreq) : printreq := mkReq (ntohl (size r)) (ntohl (flags r)) (usernm r) (jobnm r).

Lemma host_req_ok hdr : zlen hdr = sizeof_printreq -> req_ok (host_req (dec_req hdr)).
Proof.
  intros Hl. unfold sizeof_printreq, USERNM_MAX, JOBNM_MAX in Hl. split; [apply htonl_range|]. split; [apply htonl_range|].
  unfold host_req, dec_req. cbn [usernm jobnm]. unfold USERNM_MAX, JOBNM_MAX. split; apply slice_length; lia.
Qed.

(** A whole client. *)
Lemma client_run strerror t fd wtp jp res buf wm (D : gmap Z pjob) l s st so o n hdr x rest :
  pd_work st = mkDl 0 0 wm -> wtp <> 0 -> wm !! wtp = None ->
  w_in (pd_io st) !! fd = Some s -> w_to (pd_io st) !! fd = Some (so, o) ->
  dl_rep D (pd_jobs st) l -> D !! jp = None -> jp <> 0 -> pd_next st = n -> 1 <= n <= JOBMAX ->
  ref_read (Z.to_nat sizeof_printreq) (items false s) = (hdr, x, rest) ->
  exists c st', client_thread strerror t fd wtp jp res buf st = Ok c st' /\ exited wm fd st st' /\
    (c = 1 /\ rejected n st st' /\ (pd_next st' = n \/ pd_next st' = nth_job n 1) \/
     c = 0 /\ x = Full /\ accepted n (host_req (dec_req hdr)) (until_end rest) D l jp buf st st' /\ pd_next st' = nth_job n 1) /\
    (x = Full -> pd_ev st = [] -> c = 0 /\ (so = [] -> exists so', w_to (pd_io st') !! fd =
       Some (so', o ++ enc_resp (accept_resp res n)))).
Proof.
  intros Hw Hwtp Hwm Hin Hto Hrep Hjp Hjp0 Hn Hnr Href.
  destruct (single_worker wm wtp t fd Hwtp Hwm) as (d1 & Ea & _ & Hclean). unfold client_thread.
  assert (on_work (add_worker wtp t fd) st = Ok true (set_work d1 st)) as E1 by (apply zoom_ok; by rewrite Hw).
  rewrite (pbind_ok _ _ _ _ _ E1). cbn [negb]. set (st1 := set_work d1 st).
  pose proof (treadn_run fd sizeof_printreq (pd_io st1) s Hin ltac:(done)) as Ht. rewrite Href in Ht.
  destruct Ht as (w2 & E2 & (s2 & Hi2 & Hl2) & Ht2 & _).
  assert (on_io (treadn fd sizeof_printreq) st1 = Ok (count_or_first_error (x, hdr)) (set_io w2 st1)) as E2' by (by apply zoom_ok).
  rewrite (pbind_ok _ _ _ _ _ E2'). clear E2'. set (st2 := set_io w2 st1).
  assert (w_to (pd_io st2) !! fd = Some (so, o)) as Hto2 by (unfold st2; simpl; by rewrite Ht2).
  destruct (ref_read_full _ _ _ _ _ Href) as [[-> Hlen]|[Hx Hlen]].
  - assert (zlen hdr = sizeof_printreq) as Hh by (unfold zlen; rewrite Hlen; done).
    cbn [count_or_first_error]. rewrite Hh, Z.eqb_refl. cbn [negb].
    assert (on_next get_newjobno st2 = Ok n (set_nextjob (nth_job n 1) st2)) as E3.
    { apply zoom_ok. change (pd_next st2) with (pd_next st). rewrite Hn. pose proof (get_newjobno_run n 0) as H. by rewrite nth_job_0 in H. }
    rewrite (pbind_ok _ _ _ _ _ E3). set (st3 := set_nextjob _ st2). fold (host_req (dec_req hdr)).
    destruct (store_job_run strerror t fd jp n res buf wm d1 Hclean D l (host_req (dec_req hdr)) s2 st3 so o) as (c & st' & E & Hx & Hn' & Hres & Hev);
      try done.
    { unfold st3, st2. simpl. rewrite Hi2. apply lookup_insert_eq. }
    { by apply host_req_ok. }
    rewrite Hl2 in Hres. exists c, st'. split; [done|]. split; [done|]. split; [|by intros _].
    destruct Hres as [[-> ?]|[-> ?]]; [left|right]; split_and!; try done. by right.
  - assert (exists k, count_or_first_error (x, hdr) = (k, hdr) /\ k <> sizeof_printreq) as (k & -> & Hk).
    { unfold sizeof_printreq, USERNM_MAX, JOBNM_MAX in *. destruct x, hdr; simpl; eexists; (split; [done|]); unfold zlen; simpl in *; lia. }
    rewrite eqb_false by done. cbn [negb]. unfold errno. pstep.
    destruct (fail_run strerror fd res (if k <? 0 then w_errno (pd_io st2) else EIO) st2 so o Hto2) as (st3 & E3 & (Hj3 & Hn3 & Hw3 & Hc3) & Hf3).
    rewrite (pbind_ok _ _ _ _ _ E3). rewrite (exit_run t fd wm d1 Hclean) by done.
    eexists 1, _. split; [done|]. unfold exited, rejected. simpl. rewrite Hf3, Hc3, Hj3, Hn3. split_and!; try done. left. split_and!; try done; by left.
Qed.
