(* ===== verification/PrIpp.v ===== *)
(** * The request that the printer daemon sends to the printer
      (apue.3e/printer/printd.c, ipp.h)

    The headers are built in arrays of fixed size; a store past the end of
    an array aborts. *)
From S2P Require Import Prelude Posix CString PrReq.

Open Scope prog_scope.

Definition IBUFSZ : Z := 512.
Definition HBUFSZ : Z := 512.
Definition IPP_PORT : Z := 631.
Definition OP_PRINT_JOB : Z := 2.
Definition TAG_OPERATION_ATTR : Z := 1.
Definition TAG_END_OF_ATTR : Z := 3.
Definition TAG_NAMEWOLANG : Z := 66.
Definition TAG_URI : Z := 69.
Definition TAG_CHARSET : Z := 71.
Definition TAG_NATULANG : Z := 72.
Definition TAG_MIMETYPE : Z := 73.

(** Integers in network order. *)
Definition be16 (z : Z) : bytes := [z / 256 mod 256; z mod 256].
Definition be32 (z : Z) : bytes := reverse (le32 z).

Lemma zlen_be16 z : zlen (be16 z) = 2.
Proof. done. Qed.

Lemma zlen_be32 z : zlen (be32 z) = 4.
Proof. done. Qed.

#[export] Hint Rewrite zlen_be16 zlen_be32 : zlen.

(** A store of the bytes [bs] at the position [cp] of the array. *)
Definition bstore (cp : Z) (bs : bytes) : Prog bytes unit :=
  do buf <- get id;
  run guard_die (zlen buf <? cp + zlen bs) "store past the end of the buffer";
  put (fun buf => splice buf cp bs).

Definition add_option (cp tag : Z) (optname optval : bytes) : Prog bytes Z :=
  run bstore cp [tag mod 256];
  let n := strlen optname in
  run bstore (cp + 1) (be16 n);
  run bstore (cp + 3) (cstr optname ++ [NUL]);
  let m := strlen optval in
  run bstore (cp + 3 + n) (be16 m);
  run bstore (cp + 5 + n) (cstr optval ++ [NUL]);
  pret (cp + 5 + n + m).

(** [str] has 64 bytes. *)
Definition printer_uri (printer_name : bytes) : bytes := lit "http://" ++ cstr printer_name ++ lit "/ipp".

(** The IPP header in [ibuf]; the result is its length. *)
Definition build_ipp (jobid : Z) (printer_name : bytes) (r : printreq) : Prog bytes Z :=
  run bstore 0 ([1; 1] ++ be16 OP_PRINT_JOB ++ be32 jobid);
  run bstore 8 [TAG_OPERATION_ATTR];
  do icp <- add_option 9 TAG_CHARSET (lit "attributes-charset") (lit "utf-8");
  do icp <- add_option icp TAG_NATULANG (lit "attributes-natural-language") (lit "en-us");
  let str := printer_uri printer_name in
  run guard_die (64 <=? zlen str) "printer name too long for str";
  do icp <- add_option icp TAG_URI (lit "printer-uri") str;
  do icp <- add_option icp TAG_NAMEWOLANG (lit "requesting-user-name") (usernm r);
  do icp <- add_option icp TAG_NAMEWOLANG (lit "job-name") (jobnm r);
  let p := if negb (Z.land (flags r) PR_TEXT =? 0) then lit "text/plain" else lit "application/postscript" in
  do icp <- add_option icp TAG_MIMETYPE (lit "document-format") p;
  run bstore icp [TAG_END_OF_ATTR];
  pret (icp + 1).

Definition crlf : bytes := [13; 10].

(** The HTTP header: what the calls of [sprintf] leave in [hbuf]. *)
Definition http_header (printer_name : bytes) (content_length : Z) : bytes :=
  lit "POST /ipp HTTP/1.1" ++ crlf ++ lit "Content-Length: " ++ fmt_d content_length ++ crlf ++
  lit "Content-Type: application/ipp" ++ crlf ++ lit "Host: " ++ cstr printer_name ++ lit ":" ++ fmt_d IPP_PORT ++ crlf ++ crlf.

Definition build_http (printer_name : bytes) (content_length : Z) : Prog bytes Z :=
  let h := http_header printer_name content_length in
  run bstore 0 h;
  pret (zlen h).

(** ** The bytes of the header *)
Definition opt_bytes (tag : Z) (name val : bytes) : bytes := [tag] ++ be16 (zlen name) ++ name ++ be16 (zlen val) ++ val.

Definition ipp_bytes (jobid : Z) (printer_name user job : bytes) (text : bool) : bytes :=
  [1; 1] ++ be16 OP_PRINT_JOB ++ be32 jobid ++ [TAG_OPERATION_ATTR] ++
  opt_bytes TAG_CHARSET (lit "attributes-charset") (lit "utf-8") ++
  opt_bytes TAG_NATULANG (lit "attributes-natural-language") (lit "en-us") ++
  opt_bytes TAG_URI (lit "printer-uri") (printer_uri printer_name) ++
  opt_bytes TAG_NAMEWOLANG (lit "requesting-user-name") user ++
  opt_bytes TAG_NAMEWOLANG (lit "job-name") job ++
  opt_bytes TAG_MIMETYPE (lit "document-format") (if text then lit "text/plain" else lit "application/postscript") ++
  [TAG_END_OF_ATTR].

(** ** Reading the header back

    The attributes of an IPP message up to the end tag, as RFC 2910 defines
    them: the reference for what the printer sees. *)
Definition of_be16 (l : bytes) : Z := match l with a :: b :: _ => 256 * a + b | _ => 0 end.

Fixpoint parse_attrs (fuel : nat) (l : bytes) : option (list (Z * bytes * bytes) * bytes) :=
  match fuel with
  | O => None
  | S fuel =>
      match l with
      | [] => None
      | tag :: l =>
          if tag =? TAG_END_OF_ATTR then Some ([], l)
          else
            let n := of_be16 l in
            let name := slice l 2 n in
            let l := drop (Z.to_nat (2 + n)) l in
            let m := of_be16 l in
            let val := slice l 2 m in
            match parse_attrs fuel (drop (Z.to_nat (2 + m)) l) with
            | Some (as_, rest) => Some ((tag, name, val) :: as_, rest)
            | None => None
            end
      end
  end.

(** ** Stores *)

(** The first bytes of the array are known. *)
Definition written_to (buf out : bytes) : Prop := take (length out) buf = out /\ (length out <= length buf)%nat.

Lemma bstore_run buf out cp bs :
  written_to buf out -> cp = zlen out -> zlen out + zlen bs <= zlen buf ->
  exists buf', bstore cp bs buf = Ok tt buf' /\ written_to buf' (out ++ bs) /\ zlen buf' = zlen buf.
Proof.
  intros [Ht Hl] -> Hfit. unfold bstore. pstep. unfold id. rewrite pbind_guard by (by apply ltb_false). eexists. split; [done|].
  rewrite <- (take_drop (length out) buf) at 1 2. rewrite Ht. set (rest := drop (length out) buf).
  assert (zlen buf = zlen out + zlen rest) as Hz by (unfold rest; rewrite zlen_drop; unfold zlen; lia).
  rewrite <- (take_drop (length bs) rest). assert (length (take (length bs) rest) = length bs) as Hlb by (rewrite length_take; unfold zlen in *; lia).
  rewrite (splice_mid out (take (length bs) rest) _ bs) by (done || (unfold zlen; lia)). split.
  - split; [|rewrite !length_app; lia]. rewrite app_assoc. apply take_app_length.
  - rewrite !zlen_app. unfold zlen in *. rewrite length_drop. lia.
Qed.

(** A store that ends with a null, of which the null is not kept. *)
Lemma written_shrink buf out c : written_to buf (out ++ [c]) -> written_to buf out.
Proof.
  intros [Ht Hl]. rewrite length_app in *. simpl in *. split; [|lia].
  apply (f_equal (take (length out))) in Ht. rewrite take_take, Nat.min_l, take_app_length in Ht by lia. done.
Qed.

Lemma bstore_overflow buf cp bs : zlen buf < cp + zlen bs -> bstore cp bs buf = Abort "store past the end of the buffer" buf.
Proof. intros H. unfold bstore. pstep. unfold id, guard_die. by rewrite ltb_true by lia. Qed.

Lemma add_option_run buf out cp tag name val :
  written_to buf out -> cp = zlen out -> 0 <= tag < 256 -> nonul name ->
  zlen out + 5 + zlen name + zlen (cstr val) + 1 <= zlen buf ->
  exists buf', add_option cp tag name val buf = Ok (cp + 5 + zlen name + zlen (cstr val)) buf' /\
    written_to buf' (out ++ opt_bytes tag name (cstr val)) /\ zlen buf' = zlen buf.
Proof.
  intros Hw Hcp Htag Hn Hfit. pose proof (zlen_nonneg name). pose proof (zlen_nonneg (cstr val)). unfold add_option. unfold strlen. rewrite (cstr_id name) by done.
  rewrite Z.mod_small by done. unfold opt_bytes. rewrite !app_assoc.
  destruct (bstore_run buf out cp [tag] Hw Hcp) as (b1 & E1 & H1 & L1); [zl|]. rewrite (pbind_ok _ _ _ _ _ E1).
  destruct (bstore_run b1 _ (cp + 1) (be16 (zlen name)) H1) as (b2 & E2 & H2 & L2); [zl|zl|]. rewrite (pbind_ok _ _ _ _ _ E2).
  destruct (bstore_run b2 _ (cp + 3) (name ++ [NUL]) H2) as (b3 & E3 & H3 & L3); [zl|zl|]. rewrite (pbind_ok _ _ _ _ _ E3).
  rewrite app_assoc in H3. apply written_shrink in H3.
  destruct (bstore_run b3 _ (cp + 3 + zlen name) (be16 (zlen (cstr val))) H3) as (b4 & E4 & H4 & L4); [zl|zl|]. rewrite (pbind_ok _ _ _ _ _ E4).
  destruct (bstore_run b4 _ (cp + 5 + zlen name) (cstr val ++ [NUL]) H4) as (b5 & E5 & H5 & L5); [zl|zl|]. rewrite (pbind_ok _ _ _ _ _ E5).
  rewrite app_assoc in H5. apply written_shrink in H5. exists b5. split_and!; [done|done|congruence].
Qed.

Definition is_text (r : printreq) : bool := negb (Z.land (flags r) PR_TEXT =? 0).

Lemma zlen_opt tag name val : zlen (opt_bytes tag name val) = 5 + zlen name + zlen val.
Proof. unfold opt_bytes. zl. Qed.

#[export] Hint Rewrite zlen_opt : zlen.

(** [lits] computes the lengths of string constants. *)
Ltac lits :=
  repeat match goal with
         | |- context [zlen (lit ?s)] => let v := eval vm_compute in (zlen (lit s)) in change (zlen (lit s)) with v
         | H : context [zlen (lit ?s)] |- _ => let v := eval vm_compute in (zlen (lit s)) in change (zlen (lit s)) with v in H
         end.

Lemma lit_cstr s : bool_decide (Forall (fun c => c <> NUL) (lit s)) = true -> cstr (lit s) = lit s.
Proof. intros H. apply cstr_id. by apply bool_decide_eq_true_1 in H. Qed.

Lemma lit_nonul s : bool_decide (Forall (fun c => c <> NUL) (lit s)) = true -> nonul (lit s).
Proof. apply bool_decide_eq_true_1. Qed.

(** [add_opt o W] runs the next [add_option] after the bytes [o]; [W] says
    what is there then. *)
Tactic Notation "add_opt" constr(o) ident(W) :=
  lazymatch goal with
  | |- context [pbind (add_option ?cp ?tag ?name ?val) _ ?b] =>
      let b' := fresh "b" in let E := fresh "E" in let L := fresh "L" in
      destruct (add_option_run b o cp tag name val) as (b' & E & W & L);
        [assumption
        |lits; lia
        |done
        |by apply lit_nonul
        |rewrite ?lit_cstr by done; lits; try lia
        |rewrite (pbind_ok _ _ _ _ _ E); rewrite ?lit_cstr in W by done; rewrite ?lit_cstr by done]
  end.

Section build.
Context (jobid : Z) (pn : bytes) (r : printreq) (Hpn : nonul pn).

Let hdr : bytes := [1; 1] ++ be16 OP_PRINT_JOB ++ be32 jobid ++ [TAG_OPERATION_ATTR].
Let o1 : bytes := hdr ++ opt_bytes TAG_CHARSET (lit "attributes-charset") (lit "utf-8").
Let o2 : bytes := o1 ++ opt_bytes TAG_NATULANG (lit "attributes-natural-language") (lit "en-us").
Let o3 : bytes := o2 ++ opt_bytes TAG_URI (lit "printer-uri") (printer_uri pn).
Let o4 : bytes := o3 ++ opt_bytes TAG_NAMEWOLANG (lit "requesting-user-name") (cstr (usernm r)).
Let o5 : bytes := o4 ++ opt_bytes TAG_NAMEWOLANG (lit "job-name") (cstr (jobnm r)).
Let fmt : bytes := if is_text r then lit "text/plain" else lit "application/postscript".
Let o6 : bytes := o5 ++ opt_bytes TAG_MIMETYPE (lit "document-format") fmt.

Lemma ipp_bytes_eq : ipp_bytes jobid pn (cstr (usernm r)) (cstr (jobnm r)) (is_text r) = o6 ++ [TAG_END_OF_ATTR].
Proof. unfold ipp_bytes, o6, o5, o4, o3, o2, o1, hdr. by rewrite <- !app_assoc. Qed.

Lemma uri_cstr : cstr (printer_uri pn) = printer_uri pn.
Proof.
  apply cstr_id. unfold printer_uri. rewrite (cstr_id pn) by done.
  apply nonul_app; [by apply lit_nonul|]. apply nonul_app; [done|by apply lit_nonul].
Qed.

Lemma fmt_cstr : cstr fmt = fmt.
Proof. unfold fmt. destruct (is_text r); by apply lit_cstr. Qed.

Lemma build_ipp_run buf :
  zlen buf = IBUFSZ -> zlen (printer_uri pn) < 64 ->
  let out := ipp_bytes jobid pn (cstr (usernm r)) (cstr (jobnm r)) (is_text r) in
  zlen out <= IBUFSZ ->
  exists buf', build_ipp jobid pn r buf = Ok (zlen out) buf' /\ written_to buf' out /\ zlen buf' = IBUFSZ.
Proof.
  intros Hb Hu out Hfit. unfold out in *. rewrite ipp_bytes_eq in *. unfold build_ipp.
  assert (zlen o6 + 1 <= IBUFSZ) as H6 by zl.
  assert (zlen o5 + 5 + 15 + zlen fmt = zlen o6) as L6 by (unfold o6; autorewrite with zlen; lits; lia).
  assert (zlen o4 + 5 + 8 + zlen (cstr (jobnm r)) = zlen o5) as L5 by (unfold o5; autorewrite with zlen; lits; lia).
  assert (zlen o3 + 5 + 20 + zlen (cstr (usernm r)) = zlen o4) as L4 by (unfold o4; autorewrite with zlen; lits; lia).
  assert (zlen o2 + 5 + 11 + zlen (printer_uri pn) = zlen o3) as L3 by (unfold o3; autorewrite with zlen; lits; lia).
  assert (zlen o1 + 5 + 27 + 5 = zlen o2) as L2 by (unfold o2; autorewrite with zlen; lits; lia).
  assert (9 + 5 + 18 + 5 = zlen o1) as L1 by (unfold o1, hdr; autorewrite with zlen; lits; lia).
  pose proof (zlen_nonneg fmt). pose proof (zlen_nonneg (cstr (jobnm r))). pose proof (zlen_nonneg (cstr (usernm r))). pose proof (zlen_nonneg (printer_uri pn)).
  assert (written_to buf []) as W0 by (split; [done|simpl; lia]).
  destruct (bstore_run buf [] 0 ([1; 1] ++ be16 OP_PRINT_JOB ++ be32 jobid) W0 eq_refl) as (b1 & E1 & W1 & Z1); [autorewrite with zlen; lia|].
  rewrite (pbind_ok _ _ _ _ _ E1). destruct (bstore_run b1 _ 8 [TAG_OPERATION_ATTR] W1 eq_refl) as (b2 & E2 & W2 & Z2); [autorewrite with zlen; lia|].
  rewrite (pbind_ok _ _ _ _ _ E2). change (([] ++ [1; 1] ++ be16 OP_PRINT_JOB ++ be32 jobid) ++ [TAG_OPERATION_ATTR]) with hdr in W2.
  assert (zlen b2 = IBUFSZ) as Hb2 by congruence. assert (zlen hdr = 9) as L0 by done.
  add_opt hdr V1. fold o1 in V1. add_opt o1 V2. fold o2 in V2. rewrite pbind_guard by (by apply leb_false).
  pose proof uri_cstr as Huri. pose proof fmt_cstr as Hfmt.
  add_opt o2 V3; [rewrite Huri; lits; lia|]. rewrite Huri in V3 |- *. fold o3 in V3.
  add_opt o3 V4. fold o4 in V4. add_opt o4 V5. fold o5 in V5. fold (is_text r). fold fmt.
  add_opt o5 V6; [rewrite Hfmt; lits; lia|]. rewrite Hfmt in V6 |- *. fold o6 in V6. lits.
  match goal with |- context [pbind (bstore ?cp ?x) _ ?b] => destruct (bstore_run b o6 cp x V6) as (b' & E' & W' & Z'); [lia|zl|] end.
  rewrite (pbind_ok _ _ _ _ _ E'). exists b'. split_and!; [|done|congruence]. unfold pret. f_equal. zl.
Qed.

End build.

(** How long the header is. *)
Lemma ipp_length jobid pn user job text :
  zlen (ipp_bytes jobid pn user job text) = 160 + zlen (cstr pn) + zlen user + zlen job + (if text : bool then 10 else 22).
Proof.
  unfold ipp_bytes, printer_uri. autorewrite with zlen. lits. change (zlen [1; 1]) with 2. destruct text; lits; lia.
Qed.

(** ** The attributes come back *)
Lemma of_be16_app z l : 0 <= z < 65536 -> of_be16 (be16 z ++ l) = z.
Proof.
  intros Hz. unfold be16, of_be16. cbn [app]. rewrite (Z.mod_small (z / 256)).
  - pose proof (Z.div_mod z 256). lia.
  - split; [apply Z.div_pos; lia|]. apply Z.div_lt_upper_bound; lia.
Qed.

Lemma parse_opt fuel tag name val l :
  tag <> TAG_END_OF_ATTR -> zlen name < 65536 -> zlen val < 65536 ->
  parse_attrs (S fuel) (opt_bytes tag name val ++ l) =
    match parse_attrs fuel l with Some (as_, rest) => Some ((tag, name, val) :: as_, rest) | None => None end.
Proof.
  intros Ht Hn Hv. pose proof (zlen_nonneg name). pose proof (zlen_nonneg val). unfold opt_bytes. rewrite <- !app_assoc. cbn [app parse_attrs].
  rewrite eqb_false by done. rewrite of_be16_app by lia. rewrite (slice_at _ (be16 (zlen name)) name (be16 (zlen val) ++ val ++ l)) by done.
  assert (forall a k, drop (Z.to_nat (2 + zlen a)) (be16 (zlen a) ++ a ++ k) = k) as Hd.
  { intros a k. apply (drop_at _ (be16 (zlen a) ++ a)); [by rewrite <- app_assoc|zl]. }
  rewrite Hd, of_be16_app by lia. by rewrite Hd, (slice_at _ (be16 (zlen val)) val l).
Qed.

Definition ipp_attrs (printer_name user job : bytes) (text : bool) : list (Z * bytes * bytes) :=
  [(TAG_CHARSET, lit "attributes-charset", lit "utf-8"); (TAG_NATULANG, lit "attributes-natural-language", lit "en-us");
   (TAG_URI, lit "printer-uri", printer_uri printer_name); (TAG_NAMEWOLANG, lit "requesting-user-name", user);
   (TAG_NAMEWOLANG, lit "job-name", job);
   (TAG_MIMETYPE, lit "document-format", if text then lit "text/plain" else lit "application/postscript")].

(** The message ends where the document starts. *)
Lemma parse_ipp jobid pn user job text doc :
  zlen (printer_uri pn) < 65536 -> zlen user < 65536 -> zlen job < 65536 ->
  parse_attrs 8 (drop 9 (ipp_bytes jobid pn user job text ++ doc)) = Some (ipp_attrs pn user job text, doc).
Proof.
  intros Hu Hus Hj. set (fmt := if text then lit "text/plain" else lit "application/postscript").
  assert (zlen fmt < 65536) as Hf by (unfold fmt; by destruct text).
  assert (drop 9 (ipp_bytes jobid pn user job text ++ doc) =
    (opt_bytes TAG_CHARSET (lit "attributes-charset") (lit "utf-8") ++
     opt_bytes TAG_NATULANG (lit "attributes-natural-language") (lit "en-us") ++
     opt_bytes TAG_URI (lit "printer-uri") (printer_uri pn) ++ opt_bytes TAG_NAMEWOLANG (lit "requesting-user-name") user ++
     opt_bytes TAG_NAMEWOLANG (lit "job-name") job ++ opt_bytes TAG_MIMETYPE (lit "document-format") fmt ++ [TAG_END_OF_ATTR]) ++ doc) as -> by reflexivity.
  rewrite <- !app_assoc. do 6 (rewrite parse_opt; [|done|lits; lia|lits; lia]). reflexivity.
Qed.
