(* ===== verification/PrStat.v ===== *)
(** * The response of the printer (apue.3e/printer/printd.c)

    [readmore] and [printer_status] on the buffer that holds the response.
    The buffer has what was read and, after that, what was in memory; an
    access past its end aborts.  The loops carry fuel, which the caller
    gives: [printer_status] need not end. *)
From S2P Require Import Prelude CString Posix IoFd PrUtil PrReq.

Open Scope prog_scope.

(** The socket and the buffer; [bufsz] is the length of the buffer. *)
Record pst := mkPst { p_w : world; p_buf : bytes }.

Definition set_w (w : world) (s : pst) : pst := mkPst w (p_buf s).
Definition set_buf (b : bytes) (s : pst) : pst := mkPst (p_w s) b.

Abbreviation stat := (Prog pst).

(** [bp[i]] and [bp[i] = c] *)
Definition peek (i : Z) : stat Z :=
  do b <- get p_buf;
  if i <? 0 then die "read outside the buffer"
  else match b !! Z.to_nat i with Some c => pret c | None => die "read outside the buffer" end.

Definition poke (i c : Z) : stat unit :=
  do b <- get p_buf;
  run guard_die ((i <? 0) || (zlen b <=? i)) "store outside the buffer";
  put (fun s => set_buf (<[Z.to_nat i := c]> (p_buf s)) s).

(** [while (P(cp[0])) cp++;] *)
Fixpoint skip_while (fuel : nat) (P : Z -> bool) (i : Z) : stat Z :=
  match fuel with
  | O => die "fuel"
  | S fuel => do c <- peek i; if P c then skip_while fuel P (i + 1) else pret i
  end.

Definition tolower (c : Z) : Z := if (65 <=? c) && (c <=? 90) then c + 32 else c.

(** [strncasecmp(cp, pat, strlen(pat)) == 0] for a lower-case [pat]; the
    comparison stops at the first difference. *)
Fixpoint casematch (pat : bytes) (i : Z) : stat bool :=
  match pat with
  | [] => pret true
  | p :: pat => do c <- peek i; if tolower c =? p then casematch pat (i + 1) else pret false
  end.

Section status.
(** What [realloc] finds in memory after the old buffer. *)
Context (junk : bytes).

(** A read of [n] bytes to the position [off]; the size is unsigned. *)
Definition read_at (fd off n : Z) : stat (option bytes) :=
  do r <- zoom p_w set_w (tread fd (wrapu 64 n));
  match r with
  | None => pret None
  | Some bs =>
      do b <- get p_buf;
      run guard_die (zlen b <? off + zlen bs) "read past the end of the buffer";
      run put (fun s => set_buf (splice (p_buf s) off bs) s);
      pret (Some bs)
  end.

Definition readmore (fd off : Z) : stat Z :=
  do bsz <- get (fun s => zlen (p_buf s));
  run (if bsz <=? off then put (fun s => set_buf (p_buf s ++ take (Z.to_nat IOBUFSZ) junk) s) else pret tt);
  do bsz <- get (fun s => zlen (p_buf s));
  do nr <- read_at fd off (bsz - off);
  match nr with None | Some [] => pret (-1) | Some bs => pret (off + zlen bs) end.

(** [if (i >= datsz)] and the code under it: the new [datsz], or [None] for
    [goto out]. *)
Definition more_header (fd i datsz : Z) : stat (option Z) :=
  if datsz <=? i then
    do nr <- readmore fd i;
    if nr <? 0 then pret None else pret (Some (datsz + nr))
  else pret (Some datsz).

Definition is_c (c : Z) : bool := (c =? 67) || (c =? 99).

(** The loop that looks for a C of either case while i < datsz. *)
Fixpoint find_c (fuel : nat) (i datsz : Z) : stat Z :=
  match fuel with
  | O => die "fuel"
  | S fuel =>
      do c <- peek i;
      if negb (is_c c) && (i <? datsz) then find_c fuel (i + 1) datsz else pret i
  end.

Definition CONTENT_LENGTH : bytes := lit "content-length:".

(** The search for the Content-Length: position, [datsz] and the length. *)
Fixpoint find_length (fuel : nat) (fd i datsz : Z) : stat (option (Z * Z * Z)) :=
  match fuel with
  | O => die "fuel"
  | S fuel' =>
      do i <- find_c fuel i datsz;
      do d <- more_header fd i datsz;
      match d with
      | None => pret None
      | Some datsz =>
          do m <- casematch CONTENT_LENGTH i;
          if m : bool then
            do cl <- skip_while fuel isspace (i + 15);
            do i <- skip_while fuel isdigit cl;
            run poke i NUL;
            do b <- get p_buf;
            pret (Some (i + 1, datsz, atoi (drop (Z.to_nat cl) b)))
          else find_length fuel' fd (i + 1) datsz
      end
  end.

(** [while (i < datsz - 2)]: is the end of the header there, and where the
    scan stops. *)
Fixpoint scan_end (fuel : nat) (i datsz : Z) : stat (bool * Z) :=
  match fuel with
  | O => die "fuel"
  | S fuel =>
      if i <? datsz - 2 then
        do c <- peek i;
        if c =? 10 then
          do c <- peek (i + 1);
          if c =? 13 then
            do c <- peek (i + 2);
            if c =? 10 then pret (true, i + 3) else scan_end fuel (i + 1) datsz
          else scan_end fuel (i + 1) datsz
        else scan_end fuel (i + 1) datsz
      else pret (false, i)
  end.

(** [while (!found)] *)
Fixpoint find_end (fuel : nat) (fd i datsz : Z) : stat (option (Z * Z)) :=
  match fuel with
  | O => die "fuel"
  | S fuel' =>
      do '(found, i) <- scan_end fuel i datsz;
      do d <- more_header fd i datsz;
      match d with
      | None => pret None
      | Some datsz => if found : bool then pret (Some (i, datsz)) else find_end fuel' fd i datsz
      end
  end.

Definition of_be32 (a b c d : Z) : Z := 16777216 * a + 65536 * b + 256 * c + d.

(** The IPP header of the response at [i]: does it report success for
    [jobid]? *)
Definition ipp_status (i jobid : Z) : stat Z :=
  do s1 <- peek (i + 2);
  do s2 <- peek (i + 3);
  do j1 <- peek (i + 4);
  do j2 <- peek (i + 5);
  do j3 <- peek (i + 6);
  do j4 <- peek (i + 7);
  if negb (wraps 32 (of_be32 j1 j2 j3 j4) =? jobid) then pret 0
  else if 256 * s1 + s2 <=? 255 then pret 1 else pret 0.

(** From the status line on: the answer, or [None] to read on. *)
Definition parse_response (fuel : nat) (fd jobid datsz : Z) : stat (option Z) :=
  do st <- skip_while fuel isspace 8;
  do cp <- skip_while fuel isdigit st;
  if cp =? st then pret None
  else
    run poke cp NUL;
    do cp <- skip_while fuel (fun c => negb (c =? 13) && negb (c =? 10)) (cp + 1);
    run poke cp NUL;
    do b <- get p_buf;
    let code := atoi (drop (Z.to_nat st) b) in
    if (100 <=? code) && (code <=? 199) then pret None
    else if negb ((200 <=? code) && (code <=? 299)) then
      run poke datsz NUL;
      pret (Some 0)
    else
      do l <- find_length fuel fd cp datsz;
      match l with
      | None => pret (Some 0)
      | Some (i, datsz, len) =>
          do d <- more_header fd i datsz;
          match d with
          | None => pret (Some 0)
          | Some datsz =>
              do e <- find_end fuel fd i datsz;
              match e with
              | None => pret (Some 0)
              | Some (i, datsz) =>
                  do d <- (if datsz - i <? len then do nr <- readmore fd i; pret (if nr <? 0 then None else Some (datsz + nr)) else pret (Some datsz));
                  match d with
                  | None => pret (Some 0)
                  | Some _ => do s <- ipp_status i jobid; pret (Some s)
                  end
              end
          end
      end.

(** [while ((nr = tread(sfd, bp, bufsz, 5)) > 0)] *)
Fixpoint status_loop (fuel : nat) (fd jobid : Z) : stat Z :=
  match fuel with
  | O => die "fuel"
  | S fuel' =>
      do bufsz <- get (fun s => zlen (p_buf s));
      do nr <- read_at fd 0 bufsz;
      match nr with
      | None | Some [] => pret 0
      | Some bs =>
          do r <- parse_response fuel fd jobid (zlen bs);
          match r with Some s => pret s | None => status_loop fuel' fd jobid end
      end
  end.

(** [buf] is what [malloc] returns, IOBUFSZ bytes. *)
Definition printer_status (fuel : nat) (fd jobid : Z) (buf : bytes) : io Z :=
  fun w => match status_loop fuel fd jobid (mkPst w buf) with
           | Ok s p => Ok s (p_w p)
           | Abort why p => Abort why (p_w p)
           end.

End status.

(** ** What [printer_status] finds in a response

    The loops of [printer_status] on a buffer that is known up to the place
    they stop at. *)
#[local] Arguments isspace : simpl never.
#[local] Arguments isdigit : simpl never.

(** ** Single bytes *)
Lemma peek_at st a c b i : p_buf st = a ++ c :: b -> i = zlen a -> peek i st = Ok c st.
Proof.
  intros Hb ->. unfold peek. pstep. rewrite ltb_false by apply zlen_nonneg. rewrite Hb, to_nat_zlen.
  by rewrite lookup_app_r, Nat.sub_diag by lia.
Qed.

Lemma poke_at st a c b i x : p_buf st = a ++ c :: b -> i = zlen a -> poke i x st = Ok tt (set_buf (a ++ x :: b) st).
Proof.
  intros Hb ->. unfold poke. pstep. pose proof (zlen_nonneg a). rewrite pbind_guard.
  - unfold put. rewrite Hb, to_nat_zlen. do 2 f_equal. rewrite insert_app_r_alt, Nat.sub_diag by lia. done.
  - rewrite Hb, ltb_false, leb_false by zl. done.
Qed.

(** ** Loops over bytes *)
Lemma skip_while_at st P fuel a m c b i :
  p_buf st = a ++ m ++ c :: b -> i = zlen a -> Forall (fun x => P x = true) m -> P c = false -> (length m < fuel)%nat ->
  skip_while fuel P i st = Ok (zlen a + zlen m) st.
Proof.
  intros Hb -> Hm Hc. revert a fuel Hb. induction Hm as [|x m Hx _ IH]; intros a fuel Hb Hf; (destruct fuel as [|fuel]; [simpl in Hf; lia|]).
  - simpl. rewrite (pbind_ok _ _ _ _ _ (peek_at st a c b _ Hb eq_refl)), Hc. unfold pret. f_equal. zl.
  - simpl. rewrite (pbind_ok _ _ _ _ _ (peek_at st a x _ _ Hb eq_refl)), Hx. simpl in Hf.
    replace (zlen a + 1) with (zlen (a ++ [x])) by zl. rewrite (IH (a ++ [x]) fuel); [f_equal; zl|by rewrite <- app_assoc|lia].
Qed.

Lemma casematch_yes st pat a m b i :
  p_buf st = a ++ m ++ b -> i = zlen a -> tolower <$> m = pat -> casematch pat i st = Ok true st.
Proof.
  intros Hb -> <-. revert a Hb. induction m as [|x m IH]; intros a Hb; [done|]. csimpl.
  rewrite (pbind_ok _ _ _ _ _ (peek_at st a x (m ++ b) _ Hb eq_refl)), Z.eqb_refl.
  replace (zlen a + 1) with (zlen (a ++ [x])) by zl. apply IH. by rewrite <- app_assoc.
Qed.

Lemma casematch_no st pat a m i :
  p_buf st = a ++ m -> i = zlen a -> (length pat <= length m)%nat -> ~ (pat `prefix_of` (tolower <$> m)) -> casematch pat i st = Ok false st.
Proof.
  intros Hb -> Hl. revert a m Hb Hl. induction pat as [|p pat IH]; intros a m Hb Hl Hn; [destruct Hn; apply prefix_nil|].
  destruct m as [|x m]; [simpl in Hl; lia|]. simpl. rewrite (pbind_ok _ _ _ _ _ (peek_at st a x m _ Hb eq_refl)).
  destruct (Z.eqb_spec (tolower x) p) as [<-|]; [|done]. replace (zlen a + 1) with (zlen (a ++ [x])) by zl.
  apply (IH _ m); [by rewrite <- app_assoc|simpl in Hl; lia|]. intros H. apply Hn. csimpl. by apply prefix_cons.
Qed.

Lemma find_c_at st fuel a m c b datsz i :
  p_buf st = a ++ m ++ c :: b -> i = zlen a -> Forall (fun x => is_c x = false) m -> is_c c = true ->
  zlen a + zlen m <= datsz -> (length m < fuel)%nat ->
  find_c fuel i datsz st = Ok (zlen a + zlen m) st.
Proof.
  intros Hb -> Hm Hc. revert a fuel Hb. induction Hm as [|x m Hx _ IH]; intros a fuel Hb Hd Hf; (destruct fuel as [|fuel]; [simpl in Hf; lia|]).
  - simpl. rewrite (pbind_ok _ _ _ _ _ (peek_at st a c b _ Hb eq_refl)), Hc. simpl. unfold pret. f_equal. zl.
  - simpl. rewrite (pbind_ok _ _ _ _ _ (peek_at st a x _ _ Hb eq_refl)), Hx. simpl in Hf. rewrite ltb_true by zl. simpl.
    replace (zlen a + 1) with (zlen (a ++ [x])) by zl. rewrite (IH (a ++ [x]) fuel); [f_equal; zl|by rewrite <- app_assoc|zl|lia].
Qed.

(** ** The Content-Length *)
Section search.
Context (junk : bytes) (fd datsz : Z).

(** No header before [tail] is the Content-Length. *)
Definition no_length (h tail : bytes) : Prop :=
  forall k, (k < length h)%nat -> ~ (CONTENT_LENGTH `prefix_of` (tolower <$> drop k (h ++ tail))).

Lemma more_no i st : i < datsz -> more_header junk fd i datsz st = Ok (Some datsz) st.
Proof. intros H. unfold more_header. by rewrite leb_false. Qed.

(** Splitting at the first C. *)
Lemma split_c h : Forall (fun x => is_c x = false) h \/ exists m c h', h = m ++ c :: h' /\ Forall (fun x => is_c x = false) m /\ is_c c = true.
Proof.
  induction h as [|x h IH]; [by left|]. destruct (is_c x) eqn:E; [right; by exists [], x, h|].
  destruct IH as [IH|(m & c & h' & -> & Hm & Hc)]; [left; by constructor|]. right. exists (x :: m), c, h'. split_and!; [done|by constructor|done].
Qed.

Lemma length_is_c c cl : tolower <$> c :: cl = CONTENT_LENGTH -> is_c c = true.
Proof.
  change CONTENT_LENGTH with (99 :: tl CONTENT_LENGTH). csimpl. intros [= H _]. unfold tolower in H. unfold is_c.
  destruct (Z.leb_spec 65 c), (Z.leb_spec c 90); simpl in H; destruct (Z.eqb_spec c 67), (Z.eqb_spec c 99); simpl; try done; lia.
Qed.

Lemma find_length_at st a h cl sp ds y b fuel i :
  p_buf st = a ++ h ++ cl ++ sp ++ ds ++ y :: b -> i = zlen a -> tolower <$> cl = CONTENT_LENGTH -> no_length h (cl ++ sp ++ ds ++ y :: b) ->
  Forall (fun x => isspace x = true) sp -> Forall (fun x => isdigit x = true) ds -> ds <> [] -> isdigit y = false ->
  zlen (a ++ h ++ cl) <= datsz -> (length (h ++ cl ++ sp ++ ds) + 1 < fuel)%nat ->
  find_length junk fuel fd i datsz st =
    Ok (Some (zlen (a ++ h ++ cl ++ sp ++ ds) + 1, datsz, atoi (ds ++ NUL :: b))) (set_buf (a ++ h ++ cl ++ sp ++ ds ++ NUL :: b) st).
Proof.
  intros Hb -> Hcl Hno Hsp Hds Hne Hy Hd. assert (length cl = 15%nat) as Lcl by (rewrite <- (length_fmap tolower), Hcl; done).
  revert a h Hb Hno Hd. induction fuel as [|fuel IH]; intros a h Hb Hno Hd Hf; [lia|]. destruct (split_c h) as [Hh|(m & c & h' & -> & Hm & Hc)].
  - destruct cl as [|c0 cl']; [done|]. pose proof (length_is_c _ _ Hcl) as Hc0.
    cbn [find_length].
    rewrite (pbind_ok _ _ _ _ _ (find_c_at st (S fuel) a h c0 _ datsz _ Hb eq_refl Hh Hc0 ltac:(zl) ltac:(rewrite !length_app in Hf; lia))).
    rewrite (pbind_ok _ _ _ _ _ (more_no (zlen a + zlen h) st ltac:(zl))). replace (zlen a + zlen h) with (zlen (a ++ h)) by zl.
    rewrite (pbind_ok _ _ _ _ _ (casematch_yes st CONTENT_LENGTH (a ++ h) (c0 :: cl') (sp ++ ds ++ y :: b) _ ltac:(by rewrite <- app_assoc) eq_refl Hcl)).
    destruct ds as [|d ds]; [done|]. apply Forall_cons in Hds as [Hd0 Hds].
    assert (isspace d = false) as Hds0.
    { unfold isdigit, CH_0 in Hd0. zbool. unfold isspace. rewrite eqb_false, (leb_false d 13), andb_false_r by lia. done. }
    assert (zlen (a ++ h) + 15 = zlen (a ++ h ++ c0 :: cl')) as Hcl15 by (rewrite !zlen_app; unfold zlen in *; rewrite Lcl; lia).
    rewrite (pbind_ok _ _ _ _ _ (skip_while_at st isspace (S fuel) (a ++ h ++ c0 :: cl') sp d (ds ++ y :: b) _ ltac:(rewrite Hb; by rewrite <- !app_assoc) Hcl15 Hsp Hds0
      ltac:(rewrite !length_app in Hf; lia))).
    rewrite (pbind_ok _ _ _ _ _ (skip_while_at st isdigit (S fuel) (a ++ h ++ (c0 :: cl') ++ sp) (d :: ds) y b (zlen (a ++ h ++ c0 :: cl') + zlen sp) ltac:(rewrite Hb; by rewrite <- !app_assoc) ltac:(zl)
      ltac:(by constructor) Hy ltac:(rewrite !length_app in Hf; simpl in *; lia))).
    rewrite (pbind_ok _ _ _ _ _ (poke_at st (a ++ h ++ (c0 :: cl') ++ sp ++ d :: ds) y b (zlen (a ++ h ++ (c0 :: cl') ++ sp) + zlen (d :: ds)) NUL ltac:(rewrite Hb; by rewrite <- !app_assoc) ltac:(zl))).
    pstep. cbn [p_buf set_buf]. unfold pret. rewrite <- !app_assoc. f_equal. do 2 f_equal; [f_equal; zl|].
    f_equal. apply (drop_at _ (a ++ h ++ (c0 :: cl') ++ sp)); [by rewrite <- !app_assoc|zl].
  - cbn [find_length]. rewrite <- app_assoc in Hb. cbn [app] in Hb.
    rewrite (pbind_ok _ _ _ _ _ (find_c_at st (S fuel) a m c _ datsz _ Hb eq_refl Hm Hc ltac:(zl) ltac:(rewrite !length_app in Hf; lia))).
    rewrite (pbind_ok _ _ _ _ _ (more_no (zlen a + zlen m) st ltac:(zl))). replace (zlen a + zlen m) with (zlen (a ++ m)) by zl.
    rewrite (pbind_ok _ _ _ _ _ (casematch_no st CONTENT_LENGTH (a ++ m) (c :: h' ++ cl ++ sp ++ ds ++ y :: b) _ ltac:(by rewrite <- app_assoc) eq_refl
      ltac:(change (length CONTENT_LENGTH) with 15%nat; simpl; rewrite !length_app; lia)
      ltac:(intros Hp; apply (Hno (length m)); [rewrite length_app; simpl; lia|]; rewrite <- app_assoc, drop_app_length; exact Hp))).
    replace (zlen (a ++ m) + 1) with (zlen (a ++ m ++ [c])) by zl.
    rewrite (IH (a ++ m ++ [c]) h').
    + by rewrite <- !app_assoc.
    + rewrite Hb. by rewrite <- !app_assoc.
    + intros k Hk Hp. apply (Hno (length m + S k)%nat); [rewrite length_app; simpl; lia|].
      rewrite <- (app_assoc m), <- drop_drop, drop_app_length. exact Hp.
    + rewrite <- !app_assoc in *. exact Hd.
    + rewrite !length_app in *. simpl in Hf. lia.
Qed.

End search.

(** ** The end of the header *)
Definition TERM : bytes := [10; 13; 10].

Lemma scan_step st fuel a x1 x2 x3 b datsz :
  p_buf st = a ++ x1 :: x2 :: x3 :: b -> zlen a < datsz - 2 ->
  scan_end (S fuel) (zlen a) datsz st =
    if bool_decide ([x1; x2; x3] = TERM) then Ok (true, zlen a + 3) st else scan_end fuel (zlen a + 1) datsz st.
Proof.
  intros Hb Hd. cbn [scan_end]. rewrite ltb_true by done. rewrite (pbind_ok _ _ _ _ _ (peek_at st a x1 _ _ Hb eq_refl)).
  assert (peek (zlen a + 1) st = Ok x2 st) as E2 by (apply (peek_at st (a ++ [x1]) x2 (x3 :: b)); [by rewrite <- app_assoc|zl]).
  assert (peek (zlen a + 2) st = Ok x3 st) as E3 by (apply (peek_at st (a ++ [x1; x2]) x3 b); [by rewrite <- app_assoc|zl]).
  unfold TERM. destruct (Z.eqb_spec x1 10) as [->|H1]; [|rewrite bool_decide_false; congruence].
  rewrite (pbind_ok _ _ _ _ _ E2). destruct (Z.eqb_spec x2 13) as [->|H2]; [|rewrite bool_decide_false; congruence].
  rewrite (pbind_ok _ _ _ _ _ E3). destruct (Z.eqb_spec x3 10) as [->|H3]; [by rewrite bool_decide_true|rewrite bool_decide_false; congruence].
Qed.

(** The terminator comes after [h] and not before. *)
Definition no_term (h tail : bytes) : Prop := forall k, (k < length h)%nat -> ~ (TERM `prefix_of` drop k (h ++ tail)).

Lemma scan_end_at st a h b datsz fuel :
  p_buf st = a ++ h ++ TERM ++ b -> no_term h (TERM ++ b) -> zlen (a ++ h ++ TERM) <= datsz -> (length h < fuel)%nat ->
  scan_end fuel (zlen a) datsz st = Ok (true, zlen (a ++ h ++ TERM)) st.
Proof.
  revert a fuel. induction h as [|x h IH]; intros a fuel Hb Hno Hd Hf; (destruct fuel as [|fuel]; [simpl in Hf; lia|]).
  - rewrite (scan_step st fuel a 10 13 10 b) by (done || (rewrite zlen_app in Hd; change (zlen ([] ++ TERM)) with 3 in Hd; lia)).
    rewrite bool_decide_true by done. do 2 f_equal. rewrite zlen_app. done.
  - assert (exists x2 x3 t, h ++ TERM ++ b = x2 :: x3 :: t) as (x2 & x3 & t & Ht).
    { destruct h as [|? [|? ?]]; simpl; eauto. }
    cbn [app] in Hb. rewrite Ht in Hb. rewrite (scan_step st fuel a x x2 x3 t) by (done || (unfold TERM in Hd; zl)).
    rewrite bool_decide_false.
    + replace (zlen a + 1) with (zlen (a ++ [x])) by zl. rewrite (IH (a ++ [x]) fuel).
      * by rewrite <- !app_assoc.
      * rewrite Hb, <- Ht, <- !app_assoc. done.
      * intros k Hk. apply (Hno (S k)). simpl. lia.
      * rewrite <- !app_assoc. done.
      * simpl in Hf. lia.
    + intros E. apply (Hno 0%nat); [simpl; lia|]. cbn [drop app]. rewrite Ht. exists t. injection E as -> -> ->. done.
Qed.

(** No terminator in [w], which ends at [datsz]: the scan stops two bytes
    before the end. *)
Lemma scan_end_none st a w b datsz fuel :
  p_buf st = a ++ w ++ b -> datsz = zlen (a ++ w) -> (forall k, ~ (TERM `prefix_of` drop k w)) -> (length w < fuel)%nat ->
  scan_end fuel (zlen a) datsz st = Ok (false, Z.max (zlen a) (datsz - 2)) st.
Proof.
  intros Hb -> Hno. revert a fuel Hb. induction w as [|x1 w IH]; intros a fuel Hb Hf; (destruct fuel as [|fuel]; [simpl in Hf; lia|]).
  - cbn [scan_end]. rewrite ltb_false by zl. unfold pret. do 2 f_equal. zl.
  - destruct w as [|x2 [|x3 w]].
    + cbn [scan_end]. rewrite ltb_false by zl. unfold pret. do 2 f_equal. zl.
    + cbn [scan_end]. rewrite ltb_false by zl. unfold pret. do 2 f_equal. zl.
    + rewrite (scan_step st fuel a x1 x2 x3 (w ++ b)) by (done || zl). rewrite bool_decide_false.
      * replace (zlen a + 1) with (zlen (a ++ [x1])) by zl. replace (zlen (a ++ x1 :: x2 :: x3 :: w)) with (zlen ((a ++ [x1]) ++ x2 :: x3 :: w)) by zl.
        rewrite (IH ltac:(intros k; apply (Hno (S k))) (a ++ [x1]) fuel); [|by rewrite Hb, <- app_assoc|simpl in *; lia].
        do 2 f_equal. zl.
      * intros E. apply (Hno 0%nat). simpl. exists w. injection E as -> -> ->. done.
Qed.

(** Then nothing is read and the same bytes are scanned again. *)
Lemma find_end_again junk fd st a w b datsz fuel :
  p_buf st = a ++ w ++ b -> datsz = zlen (a ++ w) -> w <> [] -> (forall k, ~ (TERM `prefix_of` drop k w)) -> (length w <= fuel)%nat ->
  exists a' w', p_buf st = a' ++ w' ++ b /\ datsz = zlen (a' ++ w') /\ w' <> [] /\ (forall k, ~ (TERM `prefix_of` drop k w')) /\ (length w' <= 2)%nat /\
    find_end junk (S fuel) fd (zlen a) datsz st = find_end junk fuel fd (zlen a') datsz st.
Proof.
  intros Hb Hd Hne Hno Hf. set (n := (length w - 2)%nat).
  exists (a ++ take n w), (drop n w). split_and!.
  - rewrite Hb. by rewrite <- app_assoc, (app_assoc (take n w)), take_drop.
  - by rewrite <- app_assoc, take_drop.
  - intros E. apply (f_equal length) in E. rewrite length_drop in E. destruct w; [done|]. simpl in *. lia.
  - intros k. rewrite drop_drop. apply Hno.
  - rewrite length_drop. lia.
  - cbn [find_end]. rewrite (pbind_ok _ _ _ _ _ (scan_end_none st a w b datsz (S fuel) Hb Hd Hno ltac:(lia))).
    assert (Z.max (zlen a) (datsz - 2) = zlen (a ++ take n w)) as ->.
    { rewrite Hd, !zlen_app. unfold zlen. rewrite length_take. lia. }
    rewrite (pbind_ok _ _ _ _ _ (more_no junk fd datsz (zlen (a ++ take n w)) st
      ltac:(rewrite Hd, !zlen_app; unfold zlen; rewrite length_take; destruct w; [done|]; simpl in *; lia))). done.
Qed.

Lemma find_end_spins_small junk fd st a w b datsz fuel :
  p_buf st = a ++ w ++ b -> datsz = zlen (a ++ w) -> w <> [] -> (forall k, ~ (TERM `prefix_of` drop k w)) -> (length w <= 2)%nat ->
  find_end junk fuel fd (zlen a) datsz st = Abort "fuel" st.
Proof.
  intros Hb Hd Hne Hno Hw. revert a w Hb Hd Hne Hno Hw. induction fuel as [|fuel IH]; intros a w Hb Hd Hne Hno Hw; [done|].
  destruct w as [|x w]; [done|]. cbn [find_end].
  assert (scan_end (S fuel) (zlen a) datsz st = Ok (false, zlen a) st) as E.
  { cbn [scan_end]. rewrite ltb_false; [done|]. rewrite Hd, zlen_app. unfold zlen. simpl in *. lia. }
  rewrite (pbind_ok _ _ _ _ _ E).
  rewrite (pbind_ok _ _ _ _ _ (more_no junk fd datsz (zlen a) st ltac:(rewrite Hd; zl))). by apply (IH a (x :: w)).
Qed.

Lemma find_end_spins junk fd st a w b datsz fuel :
  p_buf st = a ++ w ++ b -> datsz = zlen (a ++ w) -> w <> [] -> (forall k, ~ (TERM `prefix_of` drop k w)) -> (length w < fuel)%nat ->
  find_end junk fuel fd (zlen a) datsz st = Abort "fuel" st.
Proof.
  intros Hb Hd Hne Hno Hf. destruct (decide (length w <= 2)%nat) as [Hw|Hw]; [by apply (find_end_spins_small _ _ _ _ w b)|].
  destruct fuel as [|fuel]; [lia|].
  destruct (find_end_again junk fd st a w b datsz fuel Hb Hd Hne Hno ltac:(lia)) as (a' & w' & Hb' & Hd' & Hne' & Hno' & Hs & ->).
  by apply (find_end_spins_small _ _ _ _ w' b).
Qed.

(** ** A response in one piece *)

(** The parts of a response: the version, the status line, the headers
    before the Content-Length, its line up to the byte after the number, and
    the rest. *)
Record resp := mkRs {
  rs_version : bytes; rs_blank : bytes; rs_code : bytes; rs_sep : Z; rs_reason : bytes; rs_eol : Z;
  rs_head : bytes; rs_name : bytes; rs_space : bytes; rs_length : bytes; rs_after : Z; rs_rest : bytes
}.

Definition rs_line (r : resp) (sep eol : Z) : bytes :=
  rs_version r ++ rs_blank r ++ rs_code r ++ sep :: rs_reason r ++ [eol].

Definition rs_clen (r : resp) (after : Z) : bytes := rs_name r ++ rs_space r ++ rs_length r ++ [after].

Definition rs_bytes (r : resp) : bytes := rs_line r (rs_sep r) (rs_eol r) ++ rs_head r ++ rs_clen r (rs_after r) ++ rs_rest r.

Definition digits (l : bytes) : Prop := Forall (fun x => isdigit x = true) l /\ l <> [].
Definition blanks (l : bytes) : Prop := Forall (fun x => isspace x = true) l.
Definition eolb (c : Z) : bool := (c =? 13) || (c =? 10).

Record rs_ok (r : resp) : Prop := {
  ok_version : length (rs_version r) = 8%nat;
  ok_blank : blanks (rs_blank r);
  ok_code : digits (rs_code r);
  ok_sep : isdigit (rs_sep r) = false;
  ok_reason : Forall (fun c => eolb c = false) (rs_reason r);
  ok_eol : eolb (rs_eol r) = true;
  ok_head : no_length (NUL :: rs_head r) (rs_clen r (rs_after r) ++ rs_rest r);
  ok_name : tolower <$> rs_name r = CONTENT_LENGTH;
  ok_space : blanks (rs_space r);
  ok_length : digits (rs_length r);
  ok_after : isdigit (rs_after r) = false
}.

Lemma digit_not_space d : isdigit d = true -> isspace d = false.
Proof. intros Hd0. unfold isdigit, CH_0 in Hd0. zbool. unfold isspace. rewrite eqb_false, (leb_false d 13), andb_false_r by lia. done. Qed.

(** The number that was cut off with a null. *)
Lemma atoi_cut ds l : digits ds -> atoi (ds ++ NUL :: l) = atoi ds.
Proof.
  intros [Hd _]. unfold atoi. rewrite <- atol_cstr, cstr_app_nul; [done|]. eapply Forall_impl; [exact Hd|]. intros x Hx ->. done.
Qed.

(** More bytes at the end make no new match. *)
Lemma prefix_cut (p l r : bytes) : p `prefix_of` l ++ r -> (length p <= length l)%nat -> p `prefix_of` l.
Proof.
  intros [k Hk] Hl. exists (take (length l - length p) k). transitivity (take (length l) (l ++ r)); [by rewrite take_app_length|].
  rewrite Hk, take_app. f_equal. by apply take_ge.
Qed.

Lemma no_length_app h t r : (15 <= length t)%nat -> no_length h t -> no_length h (t ++ r).
Proof.
  intros Ht H k Hk Hp. apply (H k Hk). rewrite app_assoc, drop_app_le, fmap_app in Hp by (rewrite length_app; lia).
  apply prefix_cut in Hp; [done|]. change (length CONTENT_LENGTH) with 15%nat. rewrite length_fmap, length_drop, length_app. lia.
Qed.

Lemma no_term_app h t r : (3 <= length t)%nat -> no_term h t -> no_term h (t ++ r).
Proof.
  intros Ht H k Hk Hp. apply (H k Hk). rewrite app_assoc, drop_app_le in Hp by (rewrite length_app; lia).
  apply prefix_cut in Hp; [done|]. change (length TERM) with 3%nat. rewrite length_drop, length_app. lia.
Qed.

(** What the buffer has after the scan of the headers. *)
Definition rs_cut (r : resp) : bytes := rs_line r NUL NUL ++ rs_head r ++ rs_clen r NUL.

Definition rs_i (r : resp) : Z := zlen (rs_cut r).

(** The part of [parse_response] after the Content-Length. *)
Definition body_part (junk : bytes) (fuel : nat) (fd jobid i datsz len : Z) : stat (option Z) :=
  do d <- more_header junk fd i datsz;
  match d with
  | None => pret (Some 0)
  | Some datsz =>
      do e <- find_end junk fuel fd i datsz;
      match e with
      | None => pret (Some 0)
      | Some (i, datsz) =>
          do d <- (if datsz - i <? len then do nr <- readmore junk fd i; pret (if nr <? 0 then None else Some (datsz + nr)) else pret (Some datsz));
          match d with
          | None => pret (Some 0)
          | Some _ => do s <- ipp_status i jobid; pret (Some s)
          end
      end
  end.

Ltac flat := repeat first [rewrite <- app_assoc | progress cbn [app]].
Ltac flat_in H := repeat first [rewrite <- app_assoc in H | progress cbn [app] in H].

Lemma parse_head junk fd jobid r st rest fuel :
  rs_ok r -> p_buf st = rs_bytes r ++ rest -> 200 <= atoi (rs_code r) <= 299 -> (length (rs_bytes r) < fuel)%nat ->
  parse_response junk fuel fd jobid (zlen (rs_bytes r)) st =
    body_part junk fuel fd jobid (rs_i r) (zlen (rs_bytes r)) (atoi (rs_length r)) (set_buf (rs_cut r ++ rs_rest r ++ rest) st).
Proof.
  intros [] Hb Hcode Hf. destruct r as [v sp0 code x reason e h cl sp ds y rs]. simpl in *.
  assert (length cl = 15%nat) as Lcl by (rewrite <- (length_fmap tolower), ok_name0; done).
  unfold rs_bytes, rs_line, rs_clen, rs_cut, rs_i in *. simpl in *.
  flat_in Hb. flat_in ok_head0.
  repeat first [rewrite length_app in Hf | progress simpl in Hf].
  set (D := zlen ((v ++ _) ++ _)). destruct ok_code0 as [Hcd Hcne]. destruct code as [|d0 code]; [done|]. pose proof (Forall_inv Hcd) as Hd0.
  unfold parse_response.
  rewrite (pbind_ok _ _ _ _ _ (skip_while_at st isspace fuel v sp0 d0 _ 8 Hb ltac:(unfold zlen; lia) ok_blank0 (digit_not_space _ Hd0) ltac:(lia))).
  rewrite (pbind_ok _ _ _ _ _ (skip_while_at st isdigit fuel (v ++ sp0) (d0 :: code) x _ (zlen v + zlen sp0) ltac:(rewrite Hb; by flat) ltac:(zl) Hcd ok_sep0 ltac:(simpl in *; lia))).
  rewrite eqb_false by (pose proof (zlen_nonneg code); zl).
  set (c1 := zlen (v ++ sp0) + zlen (d0 :: code)).
  rewrite (pbind_ok _ _ _ _ _ (poke_at st (v ++ sp0 ++ d0 :: code) x (reason ++ e :: h ++ cl ++ sp ++ ds ++ y :: rs ++ rest) c1 NUL ltac:(rewrite Hb; by flat) ltac:(unfold c1; zl))).
  set (l1 := v ++ sp0 ++ (d0 :: code) ++ [NUL]). set (st1 := set_buf _ st).
  assert (p_buf st1 = l1 ++ reason ++ e :: h ++ cl ++ sp ++ ds ++ y :: rs ++ rest) as Hb1 by (unfold st1, l1; cbn [p_buf set_buf]; by flat).
  rewrite (pbind_ok _ _ _ _ _ (skip_while_at st1 (fun c => negb (c =? 13) && negb (c =? 10)) fuel l1 reason e _ (c1 + 1) Hb1 ltac:(unfold c1, l1; zl)
    ltac:(eapply Forall_impl; [exact ok_reason0|]; unfold eolb; intros c; destruct (c =? 13), (c =? 10); done)
    ltac:(unfold eolb in ok_eol0; cbn beta; destruct (e =? 13), (e =? 10); done) ltac:(lia))).
  replace (zlen l1 + zlen reason) with (zlen (l1 ++ reason)) by zl.
  rewrite (pbind_ok _ _ _ _ _ (poke_at st1 (l1 ++ reason) e (h ++ cl ++ sp ++ ds ++ y :: rs ++ rest) (zlen (l1 ++ reason)) NUL ltac:(rewrite Hb1; by flat) eq_refl)).
  set (st2 := set_buf _ st1).
  assert (p_buf st2 = (l1 ++ reason) ++ (NUL :: h) ++ cl ++ sp ++ ds ++ y :: rs ++ rest) as Hb2 by (unfold st2; cbn [p_buf set_buf]; by flat).
  pstep. assert (atoi (drop (Z.to_nat (zlen v + zlen sp0)) (p_buf st2)) = atoi (d0 :: code)) as ->.
  { erewrite (drop_at _ (v ++ sp0)); [|rewrite Hb2; unfold l1; flat; reflexivity|zl]. by apply (atoi_cut (d0 :: code)). }
  rewrite (leb_false (atoi (d0 :: code)) 199) by lia. rewrite andb_false_r, !leb_true by lia. cbn [andb negb].
  assert (no_length (NUL :: h) (cl ++ sp ++ ds ++ y :: rs ++ rest)) as Hno.
  { replace (cl ++ sp ++ ds ++ y :: rs ++ rest) with ((cl ++ sp ++ ds ++ y :: rs) ++ rest) by (by flat).
    apply no_length_app; [rewrite !length_app; lia|done]. }
  rewrite (pbind_ok _ _ _ _ _ (find_length_at junk fd D st2 (l1 ++ reason) (NUL :: h) cl sp ds y (rs ++ rest) fuel _ Hb2 eq_refl ok_name0
    Hno ok_space0 (proj1 ok_length0) (proj2 ok_length0) ok_after0 ltac:(unfold l1, D; zl) ltac:(rewrite !length_app; simpl; lia))).
  rewrite atoi_cut by done.
  transitivity (body_part junk fuel fd jobid (zlen ((l1 ++ reason) ++ (NUL :: h) ++ cl ++ sp ++ ds) + 1) D (atoi ds)
    (set_buf ((l1 ++ reason) ++ (NUL :: h) ++ cl ++ sp ++ ds ++ NUL :: rs ++ rest) st2)); [done|]. f_equal.
  - unfold rs_cut, rs_line, rs_clen, l1. simpl. zl.
  - unfold st2, st1, set_buf, rs_line, rs_clen, l1. cbn [p_w p_buf rs_version rs_blank rs_code rs_reason rs_name rs_space rs_length]. f_equal. by flat.
Qed.

(** The body that [ipp_status] looks at. *)
Definition verdict (jobid : Z) (body : bytes) : Z :=
  match body with
  | _ :: _ :: s1 :: s2 :: j1 :: j2 :: j3 :: j4 :: _ =>
      if (wraps 32 (of_be32 j1 j2 j3 j4) =? jobid) && (256 * s1 + s2 <=? 255) then 1 else 0
  | _ => 0
  end.

Lemma ipp_status_at st a body jobid : p_buf st = a ++ body -> (8 <= length body)%nat -> ipp_status (zlen a) jobid st = Ok (verdict jobid body) st.
Proof.
  intros Hb Hl. do 8 (destruct body as [|? body]; [simpl in Hl; lia|]). unfold ipp_status.
  rewrite (pbind_ok _ _ _ _ _ (peek_at st (a ++ [z; z0]) z1 (z2 :: z3 :: z4 :: z5 :: z6 :: body) (zlen a + 2) ltac:(rewrite Hb; by flat) ltac:(zl))).
  rewrite (pbind_ok _ _ _ _ _ (peek_at st (a ++ [z; z0; z1]) z2 (z3 :: z4 :: z5 :: z6 :: body) (zlen a + 3) ltac:(rewrite Hb; by flat) ltac:(zl))).
  rewrite (pbind_ok _ _ _ _ _ (peek_at st (a ++ [z; z0; z1; z2]) z3 (z4 :: z5 :: z6 :: body) (zlen a + 4) ltac:(rewrite Hb; by flat) ltac:(zl))).
  rewrite (pbind_ok _ _ _ _ _ (peek_at st (a ++ [z; z0; z1; z2; z3]) z4 (z5 :: z6 :: body) (zlen a + 5) ltac:(rewrite Hb; by flat) ltac:(zl))).
  rewrite (pbind_ok _ _ _ _ _ (peek_at st (a ++ [z; z0; z1; z2; z3; z4]) z5 (z6 :: body) (zlen a + 6) ltac:(rewrite Hb; by flat) ltac:(zl))).
  rewrite (pbind_ok _ _ _ _ _ (peek_at st (a ++ [z; z0; z1; z2; z3; z4; z5]) z6 body (zlen a + 7) ltac:(rewrite Hb; by flat) ltac:(zl))).
  simpl. destruct (_ =? jobid); cbn [negb andb]; [|done]. by destruct (_ <=? 255).
Qed.

(** The rest of a response that has arrived whole. *)
Lemma body_whole junk fuel fd jobid st i datsz len a h body more :
  p_buf st = a ++ h ++ TERM ++ body ++ more -> i = zlen a -> datsz = zlen (a ++ h ++ TERM ++ body) -> no_term h (TERM ++ body) ->
  len <= zlen body -> (8 <= length body)%nat -> (length h < fuel)%nat ->
  body_part junk fuel fd jobid i datsz len st = Ok (Some (verdict jobid body)) st.
Proof.
  intros Hb -> Hd Hno Hlen H8 Hf. unfold body_part.
  rewrite (pbind_ok _ _ _ _ _ (more_no junk fd datsz (zlen a) st ltac:(rewrite Hd; unfold TERM; zl))).
  assert (find_end junk fuel fd (zlen a) datsz st = Ok (Some (zlen (a ++ h ++ TERM), datsz)) st) as E.
  { destruct fuel as [|fuel]; [lia|]. cbn [find_end].
    rewrite (pbind_ok _ _ _ _ _ (scan_end_at st a h (body ++ more) datsz (S fuel) Hb ltac:(rewrite (app_assoc TERM); apply no_term_app; [rewrite length_app; simpl; lia|done]) ltac:(rewrite Hd; zl) Hf)).
    rewrite (pbind_ok _ _ _ _ _ (more_no junk fd datsz (zlen (a ++ h ++ TERM)) st ltac:(rewrite Hd; unfold zlen; rewrite !length_app; lia))). done. }
  rewrite (pbind_ok _ _ _ _ _ E). rewrite ltb_false by (rewrite Hd; zl). pstep.
  rewrite (pbind_ok _ _ _ _ _ (ipp_status_at st (a ++ h ++ TERM) (body ++ more) jobid ltac:(rewrite Hb; by flat) ltac:(rewrite length_app; lia))).
  unfold pret. do 2 f_equal. do 8 (destruct body as [|? body]; [simpl in H8; lia|]). done.
Qed.

(** ** From the socket *)
Section socket.
Context (junk : bytes) (fd jobid : Z) (r : resp) (w : world) (s : list revent) (buf : bytes).
Context (Hok : rs_ok r) (Hcode : 200 <= atoi (rs_code r) <= 299).
Context (c : Z) (bs : bytes) (Hin : w_in w !! fd = Some (Data c bs :: s)) (Hr : c :: bs = rs_bytes r).
Context (Hbuf : zlen buf = IOBUFSZ) (Hfit : zlen (rs_bytes r) <= IOBUFSZ).

(** The first read takes the response whole. *)
Lemma status_read fuel :
  status_loop junk (S fuel) fd jobid (mkPst w buf) =
    pbind (parse_response junk (S fuel) fd jobid (zlen (rs_bytes r)))
      (fun x => match x with Some v => pret v | None => status_loop junk fuel fd jobid end)
      (mkPst (set_in fd s w) (rs_bytes r ++ drop (length (rs_bytes r)) buf)).
Proof.
  cbn [status_loop]. pstep. cbn [p_buf]. rewrite Hbuf.
  assert (read_at fd 0 IOBUFSZ (mkPst w buf) =
    Ok (Some (rs_bytes r)) (mkPst (set_in fd s w) (rs_bytes r ++ drop (length (rs_bytes r)) buf))) as E.
  { unfold read_at. assert (tread fd (wrapu 64 IOBUFSZ) w = Ok (Some (rs_bytes r)) (set_in fd s w)) as Er.
    { rewrite tread_read. unfold sys_read. pstep. rewrite Hin. pstep. rewrite Hr. change (wrapu 64 IOBUFSZ) with IOBUFSZ.
      assert (length (rs_bytes r) <= Z.to_nat IOBUFSZ)%nat as Hl by (unfold zlen in Hfit; lia).
      unfold pret. by rewrite take_ge, drop_ge by done. }
    rewrite (pbind_ok _ _ _ _ _ (zoom_ok p_w set_w _ (mkPst w buf) _ _ Er)). pstep. cbn [p_buf set_w].
    rewrite pbind_guard by (apply Z.ltb_ge; lia). pstep. unfold pret. cbn [p_buf set_w set_buf p_w]. rewrite splice_front by lia. done. }
  rewrite (pbind_ok _ _ _ _ _ E). rewrite <- Hr. done.
Qed.

Lemma printer_status_whole_run fuel h body :
  rs_rest r = h ++ TERM ++ body -> no_term h (TERM ++ body) -> atoi (rs_length r) <= zlen body -> (8 <= length body)%nat ->
  (length (rs_bytes r) < fuel)%nat ->
  printer_status junk fuel fd jobid buf w = Ok (verdict jobid body) (set_in fd s w).
Proof.
  intros Hrest Hno Hlen H8 Hf. unfold printer_status. destruct fuel as [|fuel]; [lia|]. rewrite status_read. unfold pbind at 1.
  assert (length h < S fuel)%nat as Hh.
  { revert Hf. unfold rs_bytes. rewrite Hrest, !length_app. lia. }
  rewrite (parse_head junk fd jobid r (mkPst (set_in fd s w) (rs_bytes r ++ drop (length (rs_bytes r)) buf)) _ (S fuel) Hok eq_refl Hcode Hf).
  rewrite (body_whole junk (S fuel) fd jobid _ _ _ _ (rs_cut r) h body (drop (length (rs_bytes r)) buf)); try done.
  - simpl. rewrite Hrest. by flat.
  - unfold rs_bytes, rs_cut, rs_line, rs_clen. rewrite Hrest. zl.
Qed.

Lemma printer_status_spins_run fuel :
  rs_rest r <> [] -> (forall k, ~ (TERM `prefix_of` drop k (rs_rest r))) -> (length (rs_bytes r) < fuel)%nat ->
  printer_status junk fuel fd jobid buf w = Abort "fuel" (set_in fd s w).
Proof.
  intros Hne Hno Hf. unfold printer_status. destruct fuel as [|fuel]; [lia|]. rewrite status_read. unfold pbind at 1.
  rewrite (parse_head junk fd jobid r (mkPst (set_in fd s w) (rs_bytes r ++ drop (length (rs_bytes r)) buf)) _ (S fuel) Hok eq_refl Hcode Hf). unfold body_part.
  assert (zlen (rs_bytes r) = zlen (rs_cut r ++ rs_rest r)) as Hz by (unfold rs_bytes, rs_cut, rs_line, rs_clen; zl).
  assert (0 < zlen (rs_rest r)) as Hpos by (destruct (rs_rest r); [done|zl]).
  rewrite (pbind_ok _ _ _ _ _ (more_no junk fd (zlen (rs_bytes r)) (rs_i r) _ ltac:(rewrite Hz; unfold rs_i; zl))).
  unfold pbind at 1. unfold rs_i. erewrite find_end_spins; [done|reflexivity|done|done|done|].
  revert Hf. unfold rs_bytes. rewrite !length_app. lia.
Qed.

End socket.
