(* ===== verification/PrPrint.v ===== *)
(** * The thread that prints (apue.3e/printer/printd.c, sockets/clconn2.c)

    One round of [printer_thread]: it takes the first job, connects to the
    printer, sends the headers and the data file, and reads the response.
    [goto defer] is the result [false] of [send_job]. *)
From S2P Require Import Prelude Posix CString IoFd IoReadn Chain PrUtil PrReq PrJobs PrSpool PrIpp PrStat.

Open Scope prog_scope.

(** ** Connections *)

(** What [socket] and [connect] do next: no socket, a connection on [fd], or
    the socket [fd] is refused. *)
Inductive cev := NoSocket (e : Z) | Connected (fd : Z) | Refused (fd e : Z).

Definition MAXSLEEP : Z := 128.

(** [for (numsec = 1; numsec <= MAXSLEEP; numsec <<= 1)]: the descriptor, the
    error number, how long the calls of [sleep] take together, and the
    events that are left; after its script the printer refuses. *)
Fixpoint connect_loop (fuel : nat) (numsec : Z) (evs : list cev) (slept err : Z) : option Z * Z * Z * list cev :=
  match fuel with
  | O => (None, err, slept, evs)
  | S fuel =>
      if numsec <=? MAXSLEEP then
        let again e evs := connect_loop fuel (Z.shiftl numsec 1) evs (if numsec <=? MAXSLEEP / 2 then slept + numsec else slept) e in
        match evs with
        | NoSocket e :: evs => (None, e, slept, evs)
        | Connected fd :: evs => (Some fd, err, slept, evs)
        | Refused _ e :: evs => again e evs
        | [] => again err []
        end
      else (None, err, slept, evs)
  end.

(** Eight values of [numsec] are at most MAXSLEEP. *)
Definition connect_retry (evs : list cev) (err : Z) : option Z * Z * Z * list cev := connect_loop 9 1 evs 0 err.

(** ** The printer *)
Section printer.
Context {addrinfo : Type} (getaddrinfo : bytes -> bytes -> addrinfo + Z) (ai_canonname : addrinfo -> option bytes).

(** [printer] and [printer_name]; the message of [exit] otherwise. *)
Definition init_printer (conf : option bytes) : addrinfo * bytes + string :=
  match get_printaddr getaddrinfo conf with
  | inr why => inr why
  | inl None => inr "exit"
  | inl (Some p) => inl (p, default (lit "printer") (ai_canonname p))
  end.

(** [if (reread)] *)
Definition check_config (conf : option bytes) (reread : bool) (cur : addrinfo * bytes) : addrinfo * bytes + string :=
  if reread then init_printer conf else inl cur.

End printer.

(** ** Sending *)
Inductive outcome := Waiting | Canceled | Deferred | Printed.

(** [while ((nr = read(fd, buf, IOBUFSZ)) > 0)]: was the whole file [rest]
    sent? *)
Fixpoint send_file (fuel : nat) (sockfd : Z) (rest : bytes) : daemon bool :=
  match fuel with
  | O => die "fuel"
  | S fuel =>
      do nr <- sys_fread (Z.to_nat IOBUFSZ) rest;
      match nr with
      | None => pret false
      | Some [] => pret true
      | Some bs =>
          do nw <- on_io (Apue.writen sockfd bs);
          if negb (nw =? zlen bs) then pret false
          else send_file fuel sockfd (drop (length bs) rest)
      end
  end.

(** What is on the stack and in memory before: [ibuf], [hbuf], the buffer of
    [printer_status] and what [realloc] finds. *)
Record mem := mkMem { m_ibuf : bytes; m_hbuf : bytes; m_buf : bytes; m_junk : bytes; m_fuel : nat }.

(** The headers: [hbuf] and [ibuf] up to their lengths. *)
Definition headers (m : mem) (name : bytes) (id : Z) (r : printreq) (st_size : Z) : (bytes * bytes) + string :=
  match build_ipp id name r (m_ibuf m) with
  | Abort why _ => inr why
  | Ok ilen ibuf =>
      let extra := if is_text r then 1 else 0 in
      match build_http name (st_size + ilen + extra) (m_hbuf m) with
      | Abort why _ => inr why
      | Ok hlen hbuf => inl (take (Z.to_nat hlen) hbuf, take (Z.to_nat ilen) ibuf)
      end
  end.

(** From the headers to the response, on the connection [sockfd]; [content]
    is the data file. *)
Definition send_job (m : mem) (name : bytes) (id : Z) (r : printreq) (content : bytes) (sockfd : Z) : daemon bool :=
  match headers m name id r (zlen content) with
  | inr why => die why
  | inl (h, i) =>
      do nw <- on_io (sys_write sockfd (h ++ i));
      if negb (nw =? zlen h + zlen i) then pret false
      else
      do ok <- (if is_text r then do nw <- on_io (sys_write sockfd [8]); pret (nw =? 1) else pret true);
      if negb ok then pret false
      else
      do sent <- send_file (S (S (length content))) sockfd content;
      if negb sent then pret false
      else
      do st <- on_io (printer_status (m_junk m) (m_fuel m) sockfd id (m_buf m));
      pret (negb (st =? 0))
  end.

(** ** A round *)

(** From the connection on: [jp] is the job [j], [content] its data file,
    [name] the printer and [evs] what the network does. *)
Definition contact (m : mem) (name : bytes) (evs : list cev) (jp : Z) (j : pjob) (content : bytes) : daemon outcome :=
  do err <- errno;
  let '(sock, err, _, _) := connect_retry evs err in
  match sock with
  | None => run on_io (put (set_errno err)); run on_jobs (replace_job jp); pret Deferred
  | Some sockfd =>
      do ok <- send_job m name (jobid j) (req j) content sockfd;
      if ok : bool then
        run sys_unlink (data_path (jobid j));
        run sys_unlink (req_path (jobid j));
        run on_jobs (put (free_node jp));
        run put (add_closed sockfd);
        pret Printed
      else
        run put (add_closed sockfd);
        run on_jobs (replace_job jp);
        pret Deferred
  end.

(** The job leaves the memory when its data file cannot be opened, or
    [fstat] fails. *)
Definition cancel (jp : Z) : daemon outcome := run on_jobs (put (free_node jp)); pret Canceled.

(** The part of the round after the first job was taken. *)
Definition print_job (m : mem) (name : bytes) (evs : list cev) (jp : Z) (j : pjob) : daemon outcome :=
  do e <- next_ev;
  do f <- get (fun s => pd_fs s !! data_path (jobid j));
  match e, f with
  | FErr _, _ | _, None => cancel jp                       (* open *)
  | _, Some content =>
      do e <- next_ev;
      match e with
      | FErr _ => cancel jp                                (* fstat *)
      | _ => contact m name evs jp j content
      end
  end.

(** One round of [printer_thread]; [cur] is the printer, [reread] the request
    to read the configuration file [conf] again. *)
Definition printer_round {addrinfo : Type} (getaddrinfo : bytes -> bytes -> addrinfo + Z) (ai_canonname : addrinfo -> option bytes)
    (conf : option bytes) (reread : bool) (cur : addrinfo * bytes) (m : mem) (evs : list cev) : daemon outcome :=
  do jp <- get (fun s => d_head (pd_jobs s));
  if jp =? 0 then pret Waiting
  else
  run on_jobs (remove_job jp);
  do j <- on_jobs (deref jp);
  run put (fun s => set_fs (<[job_path := update_jobno (pd_next s) (default [] (pd_fs s !! job_path))]> (pd_fs s)) s);
  match check_config getaddrinfo ai_canonname conf reread cur with
  | inr why => die why
  | inl (_, name) => print_job m name evs jp (n_data j)
  end.
