(* ===== verification/PrPrintThms.v ===== *)
(** * What a round of [printer_thread] does

    A job that is taken from the list is printed, and then its files are
    gone, or goes back to the head of the list with its files as they were,
    or is dropped with a data file that cannot be opened. *)
From S2P Require Import Prelude Posix CString IoFd IoReadn IoGather Chain.
From S2P Require Import PrUtil PrReq PrJobs PrSpool PrSpoolThms PrIpp PrStat PrPrint.

Open Scope prog_scope.

(** ** Connections *)

(** The printer accepts the connection after [k] refusals. *)
Lemma connect_accepts k rs fd evs err :
  (k <= 7)%nat -> length rs = k -> Forall (fun e => exists f x, e = Refused f x) rs ->
  exists err', connect_retry (rs ++ Connected fd :: evs) err = (Some fd, err', 2 ^ Z.of_nat k - 1, evs).
Proof.
  intros Hk <- Hrs. unfold connect_retry.
  do 8 (destruct Hrs as [|? rs (? & ? & ->) Hrs]; [eexists; reflexivity|]). simpl in Hk. lia.
Qed.

(** [connect_retry] does not sleep for more than 127 seconds. *)
Lemma connect_bound evs err : let '(_, _, slept, _) := connect_retry evs err in 0 <= slept <= 127.
Proof.
  unfold connect_retry. do 9 (destruct evs as [|[?|?|? ?] evs]; [by vm_compute|by vm_compute|by vm_compute|]). by vm_compute.
Qed.

(** ** The headers *)
Section request.
Context (m : mem) (name : bytes) (id : Z) (r : printreq) (content : bytes).
Context (Hib : zlen (m_ibuf m) = IBUFSZ) (Hhb : zlen (m_hbuf m) = HBUFSZ) (Hname : nonul name) (Huri : zlen (printer_uri name) < 64).

(** The IPP header and the document, which Content-Length counts. *)
Definition ipp_part : bytes := ipp_bytes id name (cstr (usernm r)) (cstr (jobnm r)) (is_text r).
Definition document : bytes := (if is_text r then [8] else []) ++ content.
Definition http_part : bytes := http_header name (zlen (ipp_part ++ document)).

Lemma written_take buf out : written_to buf out -> take (Z.to_nat (zlen out)) buf = out.
Proof. intros [H _]. by rewrite to_nat_zlen. Qed.

Lemma headers_run :
  zlen ipp_part <= IBUFSZ -> zlen http_part <= HBUFSZ -> headers m name id r (zlen content) = inl (http_part, ipp_part).
Proof.
  intros Hi Hh. unfold headers. destruct (build_ipp_run id name r Hname (m_ibuf m) Hib Huri Hi) as (ib & -> & Hw & _). fold ipp_part in *.
  assert (zlen content + zlen ipp_part + (if is_text r then 1 else 0) = zlen (ipp_part ++ document)) as ->.
  { unfold document. destruct (is_text r); zl. }
  unfold build_http. destruct (bstore_run (m_hbuf m) [] 0 http_part) as (hb & E & Hwh & _); [split; [done|simpl; lia]|done|rewrite zlen_nil; lia|].
  fold http_part. rewrite (pbind_ok _ _ _ _ _ E). unfold pret. rewrite !written_take by done. done.
Qed.

End request.

(** ** What sending leaves alone *)
Definition frames {A} (p : daemon A) : Prop := forall st a st', p st = Ok a st' -> kept st st' /\ pd_fs st' = pd_fs st.

Create HintDb frames.

Lemma frames_bind {A B} (p : daemon A) (k : A -> daemon B) : frames p -> (forall a, frames (k a)) -> frames (pbind p k).
Proof.
  intros Hp Hk st b st'. unfold pbind. destruct (p st) as [a st1|] eqn:E; [|done]. intros E'.
  destruct (Hp _ _ _ E) as [H1 F1], (Hk _ _ _ _ E') as [H2 F2]. split; [by etransitivity|congruence].
Qed.

Lemma frames_pret {A} (a : A) : frames (pret a).
Proof. intros st x st' [= <- <-]. done. Qed.

Lemma frames_die {A} why : frames (@die pd A why).
Proof. intros st x st' [=]. Qed.

Lemma frames_io {A} (p : io A) : frames (on_io p).
Proof. intros st x st'. unfold on_io, zoom. destruct (p (pd_io st)); [|done]. by intros [= <- <-]. Qed.

Lemma frames_ev : frames next_ev.
Proof. intros st x st' E. destruct (next_ev_run st) as (e & st1 & E1 & Hk & _ & Hf & _). rewrite E in E1. injection E1 as <- <-. done. Qed.

Lemma frames_if {A} (b : bool) (p q : daemon A) : frames p -> frames q -> frames (if b then p else q).
Proof. by destruct b. Qed.

#[export] Hint Resolve frames_bind frames_pret frames_die frames_io frames_ev frames_if : frames.

Lemma fread_frames n rest : frames (sys_fread n rest).
Proof. unfold sys_fread. apply frames_bind; [apply frames_ev|]. intros [|e|k]; eauto with frames. Qed.

#[export] Hint Resolve fread_frames : frames.

Lemma send_file_frames fuel fd rest : frames (send_file fuel fd rest).
Proof.
  revert rest. induction fuel as [|fuel IH]; intros rest; simpl; [apply frames_die|].
  apply frames_bind; [apply fread_frames|intros [[|c bs]|]; eauto 6 with frames].
Qed.

#[export] Hint Resolve send_file_frames : frames.

Lemma send_job_frames m name id r content fd : frames (send_job m name id r content fd).
Proof. unfold send_job. destruct (headers _ _ _ _ _) as [[h i]|]; eauto 12 with frames. Qed.

(** ** A round *)

(** The job number goes to its file. *)
Definition saved (st : pd) : fsys := <[job_path := update_jobno (pd_next st) (default [] (pd_fs st !! job_path))]> (pd_fs st).

(** What a round with the job [j] at [jp] has done. *)
Definition round_post (D : gmap Z pjob) (jp : Z) (j : pjob) (l : list Z) (st : pd) (out : outcome) (st' : pd) : Prop :=
  pd_next st' = pd_next st /\ pd_work st' = pd_work st /\
  match out with
  | Waiting => False
  | Canceled => dl_rep (delete jp D) (pd_jobs st') l /\ pd_fs st' = saved st
  | Deferred => dl_rep D (pd_jobs st') (jp :: l) /\ pd_fs st' = saved st
  | Printed => dl_rep (delete jp D) (pd_jobs st') l /\ pd_fs st' = delete (req_path (jobid j)) (delete (data_path (jobid j)) (saved st))
  end.

Lemma filter_head (p : Z) l : p ∉ l -> filter (fun x => x <> p) (p :: l) = l.
Proof. intros Hp. rewrite filter_cons_False by tauto. induction l as [|y l IH]; [done|]. apply not_elem_of_cons in Hp as [? ?]. rewrite filter_cons_True by done. by rewrite IH. Qed.

Section rounds.
Context {addrinfo : Type} (gai : bytes -> bytes -> addrinfo + Z) (canon : addrinfo -> option bytes).
Context (conf : option bytes) (reread : bool) (cur : addrinfo * bytes).

Lemma round_pick m evs (D : gmap Z pjob) st jp l :
  dl_rep D (pd_jobs st) (jp :: l) ->
  exists j dj, D !! jp = Some j /\ dl_rep D dj l /\
    printer_round gai canon conf reread cur m evs st =
      match check_config gai canon conf reread cur with
      | inr why => die why
      | inl (_, name) => print_job m name evs jp j
      end (set_fs (saved st) (set_jobs dj st)).
Proof.
  intros Hr. destruct (rep_head _ _ _ _ Hr) as (Hh & H0 & Hl & Hj). destruct (remove_job_run _ _ _ jp Hr) as (dj & E & Hdj); [left|].
  rewrite filter_head in Hdj by done.
  destruct (deref_run _ _ _ _ _ jp _ (rep_view _ _ _ Hdj) Hj) as (x & Ex & _ & _ & Hx). exists (n_data x), dj. split_and!; [done|done|].
  unfold printer_round. pstep. rewrite Hh, eqb_false by done.
  assert (on_jobs (remove_job jp) st = Ok tt (set_jobs dj st)) as E1 by (by apply zoom_ok). rewrite (pbind_ok _ _ _ _ _ E1).
  assert (on_jobs (deref jp) (set_jobs dj st) = Ok x (set_jobs dj st)) as E2 by (unfold on_jobs, zoom; simpl; by rewrite Ex).
  rewrite (pbind_ok _ _ _ _ _ E2). pstep. done.
Qed.

End rounds.

Section print.
Context (m : mem) (name : bytes) (evs : list cev) (D : gmap Z pjob) (jp : Z) (j : pjob) (l : list Z) (st : pd).
Context (Hjp : is_Some (D !! jp)) (H0 : jp <> 0) (Hl : jp ∉ l).

(** A state of the round before it decides what becomes of the job. *)
Definition holding (s : pd) : Prop :=
  dl_rep D (pd_jobs s) l /\ pd_fs s = saved st /\ pd_next s = pd_next st /\ pd_work s = pd_work st.

Lemma holding_kept s s' : holding s -> kept s s' -> pd_fs s' = pd_fs s -> holding s'.
Proof. intros (Hd & Hf & Hn & Hw) (Hj' & Hn' & Hw' & _) Hf'. split_and!; congruence. Qed.

Lemma replace_holding s : holding s -> exists d, on_jobs (replace_job jp) s = Ok tt (set_jobs d s) /\ round_post D jp j l st Deferred (set_jobs d s).
Proof.
  intros (Hd & Hf & Hn & Hw). destruct (replace_job_run D (pd_jobs s) l jp Hd Hjp Hl H0) as (d & E & Hd').
  exists d. split; [by apply zoom_ok|]. by split_and!.
Qed.

Lemma cancel_post s out st' : holding s -> cancel jp s = Ok out st' -> round_post D jp j l st out st'.
Proof. intros (Hd & Hf & Hn & Hw) [= <- <-]. split_and!; try done. by apply rep_free. Qed.

Lemma contact_post content s out st' : holding s -> contact m name evs jp j content s = Ok out st' -> round_post D jp j l st out st'.
Proof.
  intros Hs. unfold contact, errno. pstep. destruct (connect_retry _ _) as [[[sock err] slept] evs']. destruct sock as [fd|].
  - unfold pbind at 1. destruct (send_job _ _ _ _ _ _ s) as [ok s1|] eqn:E; [|done]. destruct (send_job_frames _ _ _ _ _ _ _ _ _ E) as [Hk Hf].
    pose proof (holding_kept _ _ Hs Hk Hf) as Hs1. destruct ok.
    + unfold sys_unlink. pstep. intros [= <- <-]. destruct Hs1 as (Hd & Hf1 & Hn & Hw). split_and!; try done; [by apply rep_free|]. simpl. by rewrite Hf1.
    + pstep. destruct (replace_holding (add_closed fd s1) Hs1) as (d & Ed & Hp). rewrite (pbind_ok _ _ _ _ _ Ed). by intros [= <- <-].
  - assert (on_io (put (set_errno err)) s = Ok tt (set_io (set_errno err (pd_io s)) s)) as Ee by done. rewrite (pbind_ok _ _ _ _ _ Ee).
    destruct (replace_holding (set_io (set_errno err (pd_io s)) s) Hs) as (d & Ed & Hp). rewrite (pbind_ok _ _ _ _ _ Ed). by intros [= <- <-].
Qed.

Lemma print_job_post s out st' : holding s -> print_job m name evs jp j s = Ok out st' -> round_post D jp j l st out st'.
Proof.
  intros Hs. unfold print_job. destruct (next_ev_run s) as (e & s1 & E1 & Hk1 & _ & Hf1 & _). rewrite (pbind_ok _ _ _ _ _ E1). pstep.
  pose proof (holding_kept _ _ Hs Hk1 Hf1) as Hs1. destruct (next_ev_run s1) as (e2 & s2 & E2 & Hk2 & _ & Hf2 & _).
  pose proof (holding_kept _ _ Hs1 Hk2 Hf2) as Hs2.
  destruct e as [|e|k], (pd_fs s1 !! data_path (jobid j)) as [content|]; eauto using cancel_post;
    rewrite (pbind_ok _ _ _ _ _ E2); destruct e2; eauto using cancel_post, contact_post.
Qed.

End print.

(** Every round that returns. *)
Lemma round_run {A} gai canon conf reread (cur : A * bytes) m evs (D : gmap Z pjob) st l out st' :
  dl_rep D (pd_jobs st) l -> printer_round gai canon conf reread cur m evs st = Ok out st' ->
  match l with
  | [] => out = Waiting /\ st' = st
  | jp :: l => exists j, D !! jp = Some j /\ round_post D jp j l st out st'
  end.
Proof.
  intros Hr. destruct l as [|jp l].
  - unfold printer_round. pstep. destruct Hr as [_ Hd%dlist_head]. destruct Hd as [_ ->]; [|done]. by intros [= <- <-].
  - destruct (round_pick gai canon conf reread cur m evs D st jp l Hr) as (j & dj & Hj & Hdj & ->). intros E. exists j. split; [done|].
    destruct (rep_head _ _ _ _ Hr) as (_ & H0 & Hl & Hjp). destruct (check_config _ _ _ _ _) as [[p name]|why]; [|done].
    by eapply (print_job_post m name evs D jp j l st Hjp H0 Hl); [|exact E].
Qed.

(** ** A job that is printed *)
Lemma fread_run n rest st :
  (0 < n)%nat ->
  exists r st', sys_fread n rest st = Ok r st' /\ w_in (pd_io st') = w_in (pd_io st) /\ w_to (pd_io st') = w_to (pd_io st) /\
    (forall bs, r = Some bs -> bs = take (length bs) rest /\ (bs = [] -> rest = [])) /\ (pd_ev st = [] -> r <> None /\ pd_ev st' = []).
Proof.
  intros Hn. destruct (next_ev_run st) as (e & st1 & E1 & _ & Hi1 & _ & Hev1). unfold sys_fread. rewrite (pbind_ok _ _ _ _ _ E1).
  assert (forall k bs, (0 < k)%nat -> bs = take k rest -> bs = take (length bs) rest /\ (bs = [] -> rest = [])) as Hp.
  { intros k bs Hk ->. split; [rewrite length_take; destruct (decide (k <= length rest)%nat); [by rewrite Nat.min_l|by rewrite Nat.min_r, !take_ge by lia]|].
    destruct rest; [done|]. destruct k; [lia|done]. }
  destruct e as [|e|k].
  - exists (Some (take n rest)), st1. rewrite Hi1. split_and!; try done; [|intros H; by destruct (Hev1 H)]. intros bs [= <-]. by apply (Hp n).
  - eexists None, _. split; [reflexivity|]. simpl. rewrite Hi1. split_and!; try done. intros H. by destruct (Hev1 H).
  - eexists _, st1. split; [reflexivity|]. rewrite Hi1. split_and!; try done; [|intros H; by destruct (Hev1 H)]. intros bs [= <-].
    rewrite take_take. by apply (Hp (Nat.min (S k) n)); [lia|].
Qed.

Lemma send_file_run fuel fd rest st so o :
  w_to (pd_io st) !! fd = Some (so, o) -> (length rest < fuel)%nat ->
  exists b st' so' out, send_file fuel fd rest st = Ok b st' /\ w_in (pd_io st') = w_in (pd_io st) /\
    w_to (pd_io st') = <[fd := (so', o ++ out)]> (w_to (pd_io st)) /\ (b = true -> out = rest) /\
    (so = [] -> pd_ev st = [] -> b = true /\ so' = [] /\ pd_ev st' = []).
Proof.
  revert rest st so o. induction fuel as [|fuel IH]; intros rest st so o Hto Hf; [lia|]. cbn [send_file].
  destruct (fread_run (Z.to_nat IOBUFSZ) rest st ltac:(unfold IOBUFSZ; lia)) as (r & st1 & E1 & Hi1 & Ht1 & Hbs & Hev1).
  rewrite (pbind_ok _ _ _ _ _ E1). destruct r as [bs|].
  2: { exists false, st1, so, []. rewrite app_nil_r, insert_id by done. split_and!; try done. intros _ H. by destruct (Hev1 H). }
  destruct (Hbs bs eq_refl) as [Htk Hnil]. destruct bs as [|c bs0].
  { exists true, st1, so, []. rewrite app_nil_r, insert_id by done. split_and!; try done; [intros _; by rewrite Hnil|]. intros H1 H. by destruct (Hev1 H). }
  set (bs := c :: bs0) in *.
  destruct (reply_run fd bs st1 so o) as (nw & st2 & so2 & out & E2 & _ & _ & Hev2 & Hi2 & Ht2 & _ & Hall & Hfull); [congruence|].
  rewrite (pbind_ok _ _ _ _ _ E2). destruct (Z.eqb_spec nw (zlen bs)) as [En|En]; cbn [negb].
  - rewrite (Hall En) in Ht2. destruct (IH (drop (length bs) rest) st2 so2 (o ++ bs)) as (b & st3 & so3 & out3 & E3 & Hi3 & Ht3 & Hb3 & Hev3).
    { rewrite Ht2. apply lookup_insert_eq. }
    { assert (length bs <= length rest)%nat by (rewrite Htk, length_take; lia). rewrite length_drop. unfold bs in *. simpl in *. lia. }
    exists b, st3, so3, (bs ++ out3). split_and!; [done|congruence|by rewrite Ht3, Ht2, insert_insert_eq, app_assoc, Ht1| |].
    + intros Hb. rewrite (Hb3 Hb), Htk at 1. apply take_drop.
    + intros H1 H2. apply Hev3; [by apply Hfull|]. rewrite Hev2. by apply Hev1.
  - exists false, st2, so2, out. split_and!; [done|congruence|congruence|done|]. intros H1 H2. by destruct (Hfull H1).
Qed.

(** The response that the printer gives: it arrives in one piece, with the
    body after the header [h]. *)
Record reply_ok (m : mem) (r : resp) (h body : bytes) : Prop := {
  an_ok : rs_ok r;
  an_code : 200 <= atoi (rs_code r) <= 299;
  an_rest : rs_rest r = h ++ TERM ++ body;
  an_term : no_term h (TERM ++ body);
  an_len : atoi (rs_length r) <= zlen body;
  an_body : (8 <= length body)%nat;
  an_buf : zlen (m_buf m) = IOBUFSZ;
  an_fit : zlen (rs_bytes r) <= IOBUFSZ;
  an_fuel : (length (rs_bytes r) < m_fuel m)%nat
}.

Definition script_of (r : resp) (s : list revent) : list revent :=
  match rs_bytes r with c :: bs => Data c bs :: s | [] => s end.

Lemma answer_run m r h body fd id w s :
  reply_ok m r h body -> w_in w !! fd = Some (script_of r s) ->
  printer_status (m_junk m) (m_fuel m) fd id (m_buf m) w = Ok (verdict id body) (set_in fd s w).
Proof.
  intros [] Hin. unfold script_of in Hin. destruct (rs_bytes r) as [|c bs] eqn:E.
  - exfalso. destruct an_ok0 as [Hv _ _ _ _ _ _ _ _ _ _]. unfold rs_bytes, rs_line in E. destruct (rs_version r); done.
  - rewrite <- E in *. by apply (printer_status_whole_run (m_junk m) fd id r w s (m_buf m) an_ok0 an_code0 c bs Hin (eq_sym E) an_buf0 an_fit0 (m_fuel m) h body).
Qed.

Section printed.
Context (m : mem) (name : bytes) (j : pjob) (content : bytes) (fd : Z) (r : resp) (h body : bytes) (s : list revent).
Context (Hib : zlen (m_ibuf m) = IBUFSZ) (Hhb : zlen (m_hbuf m) = HBUFSZ) (Hname : nonul name) (Huri : zlen (printer_uri name) < 64).

(** The whole request. *)
Definition request : bytes :=
  http_part name (jobid j) (req j) content ++ ipp_part name (jobid j) (req j) ++ document (req j) content.

Context (Hi : zlen (ipp_part name (jobid j) (req j)) <= IBUFSZ) (Hh : zlen (http_part name (jobid j) (req j) content) <= HBUFSZ).
Context (Hans : reply_ok m r h body).

Lemma sys_write_all buf w o :
  w_to w !! fd = Some ([], o) -> sys_write fd buf w = Ok (zlen buf) (set_to fd ([], o ++ buf) w).
Proof. intros Hw. unfold sys_write. pstep. rewrite Hw. pstep. done. Qed.

Lemma send_job_run st o :
  w_to (pd_io st) !! fd = Some ([], o) -> w_in (pd_io st) !! fd = Some (script_of r s) -> pd_ev st = [] ->
  exists st', send_job m name (jobid j) (req j) content fd st = Ok (negb (verdict (jobid j) body =? 0)) st' /\
    w_to (pd_io st') !! fd = Some ([], o ++ request).
Proof.
  intros Hto Hin Hev. unfold send_job. rewrite (headers_run m name (jobid j) (req j) content Hib Hhb Hname Huri Hi Hh).
  unfold request. set (hp := http_part _ _ _ _). set (ip := ipp_part _ _ _).
  assert (on_io (sys_write fd (hp ++ ip)) st = Ok (zlen (hp ++ ip)) (set_io (set_to fd ([], o ++ hp ++ ip) (pd_io st)) st)) as E1
    by (by apply zoom_ok, sys_write_all).
  rewrite (pbind_ok _ _ _ _ _ E1), zlen_app, Z.eqb_refl. cbn [negb]. set (st1 := set_io _ st).
  assert (exists st2, (if is_text (req j) then do nw <- on_io (sys_write fd [8]); pret (nw =? 1) else pret true) st1 = Ok true st2 /\
    w_in (pd_io st2) = w_in (pd_io st) /\ pd_ev st2 = pd_ev st /\
    w_to (pd_io st2) !! fd = Some ([], o ++ hp ++ ip ++ (if is_text (req j) then [8] else []))) as (st2 & E2 & Hi2 & He2 & Ht2).
  { assert (w_to (pd_io st1) !! fd = Some ([], o ++ hp ++ ip)) as Ht1 by apply lookup_insert_eq. destruct (is_text (req j)).
    - assert (on_io (sys_write fd [8]) st1 = Ok 1 (set_io (set_to fd ([], (o ++ hp ++ ip) ++ [8]) (pd_io st1)) st1)) as E by (by apply zoom_ok, sys_write_all).
      rewrite (pbind_ok _ _ _ _ _ E). eexists. split; [reflexivity|]. split_and!; [done..|]. cbn [pd_io set_io w_to set_to]. rewrite lookup_insert_eq. by rewrite <- !app_assoc.
    - exists st1. rewrite app_nil_r. by split_and!. }
  rewrite (pbind_ok _ _ _ _ _ E2). cbn [negb].
  destruct (send_file_run (S (S (length content))) fd content st2 [] _ Ht2 ltac:(lia)) as (b & st3 & so & out & E3 & Hi3 & Ht3 & Hb & Hfull).
  destruct (Hfull eq_refl ltac:(congruence)) as (-> & -> & _). rewrite (pbind_ok _ _ _ _ _ E3). cbn [negb].
  assert (on_io (printer_status (m_junk m) (m_fuel m) fd (jobid j) (m_buf m)) st3 = Ok (verdict (jobid j) body) (set_io (set_in fd s (pd_io st3)) st3)) as E4.
  { apply zoom_ok. apply (answer_run m r h body fd (jobid j) (pd_io st3) s Hans). congruence. }
  rewrite (pbind_ok _ _ _ _ _ E4). eexists. split; [reflexivity|]. cbn [pd_io set_io w_to set_in]. rewrite Ht3, lookup_insert_eq, (Hb eq_refl). unfold document. by rewrite <- !app_assoc.
Qed.

(** A round that prints, on a connection that the printer accepts after [k]
    refusals. *)
Lemma round_prints_run {A} gai canon conf reread (cur : A * bytes) p st (D : gmap Z pjob) jp l rs evs :
  check_config gai canon conf reread cur = inl (p, name) ->
  dl_rep D (pd_jobs st) (jp :: l) -> D !! jp = Some j -> pd_ev st = [] -> pd_fs st !! data_path (jobid j) = Some content ->
  w_to (pd_io st) !! fd = Some ([], []) -> w_in (pd_io st) !! fd = Some (script_of r s) ->
  (length rs <= 7)%nat -> Forall (fun e => exists f x, e = Refused f x) rs ->
  exists out st', printer_round gai canon conf reread cur m (rs ++ Connected fd :: evs) st = Ok out st' /\
    out = (if verdict (jobid j) body =? 0 then Deferred else Printed) /\
    round_post D jp j l st out st' /\ w_to (pd_io st') !! fd = Some ([], request).
Proof.
  intros Hcfg Hr Hj Hev Hfile Hto Hin Hk Hrs. destruct (round_pick gai canon conf reread cur m (rs ++ Connected fd :: evs) D st jp l Hr) as (j' & dj & Hj' & Hdj & E). rewrite Hcfg in E.
  assert (j' = j) as -> by congruence. destruct (rep_head _ _ _ _ Hr) as (_ & H0 & Hl & Hjp).
  assert (exists out st', printer_round gai canon conf reread cur m (rs ++ Connected fd :: evs) st = Ok out st' /\
    out = (if verdict (jobid j) body =? 0 then Deferred else Printed) /\ w_to (pd_io st') !! fd = Some ([], request)) as (out & st' & E' & Ho & Ht).
  2: { exists out, st'. split_and!; try done. destruct (round_run _ _ _ _ _ _ _ _ _ _ _ _ Hr E') as (j2 & Hj2 & Hp). assert (j2 = j) as -> by congruence. done. }
  rewrite E. set (st0 := set_fs _ _). unfold print_job, next_ev.
  assert (holding D l st st0) as Hh0 by (by split_and!).
  pstep. change (pd_ev st0) with (pd_ev st). rewrite Hev. pstep.
  assert (pd_fs st0 !! data_path (jobid j) = Some content) as ->.
  { unfold st0, saved. cbn [pd_fs set_fs]. rewrite lookup_insert_ne; [done|]. unfold data_path, job_path. intros X. apply (f_equal (take 20)) in X. vm_compute in X. discriminate. }
  pstep. change (pd_ev st0) with (pd_ev st). rewrite Hev. pstep. unfold contact, errno. pstep.
  destruct (connect_accepts (length rs) rs fd evs (w_errno (pd_io st0)) Hk eq_refl Hrs) as (err & ->).
  destruct (send_job_run st0 [] Hto Hin Hev) as (st1 & E1 & Ht1). rewrite (pbind_ok _ _ _ _ _ E1).
  destruct (verdict (jobid j) body =? 0); cbn [negb].
  - pstep. destruct (send_job_frames _ _ _ _ _ _ _ _ _ E1) as [Hkp Hfs].
    destruct (replace_holding D jp j l st Hjp H0 Hl (add_closed fd st1) (holding_kept D l st _ _ Hh0 Hkp Hfs)) as (d & Ed & _).
    rewrite (pbind_ok _ _ _ _ _ Ed). by eexists _, _.
  - unfold sys_unlink. pstep. by eexists _, _.
Qed.

End printed.

(** ** What becomes of a job, and why *)

(** A call that returns. *)
Lemma pbind_inv {S A B} (p : Prog S A) (k : A -> Prog S B) s b s' :
  pbind p k s = Ok b s' -> exists a s1, p s = Ok a s1 /\ k a s1 = Ok b s'.
Proof. unfold pbind. destruct (p s) as [a s1|]; [by eauto|done]. Qed.

Lemma bstore_ok cp bs buf u buf' : 0 <= cp -> bstore cp bs buf = Ok u buf' -> cp + zlen bs <= zlen buf /\ zlen buf' = zlen buf.
Proof.
  intros H0. unfold bstore, guard_die. pstep. unfold id. destruct (Z.ltb_spec (zlen buf) (cp + zlen bs)); [done|]. pstep. intros [= _ <-]. split; [done|].
  unfold splice, zlen in *. rewrite !length_app, length_take, length_replicate, length_drop. lia.
Qed.

Lemma add_option_ok cp tag n v buf cp' buf' :
  0 <= cp -> add_option cp tag n v buf = Ok cp' buf' -> cp' = cp + 5 + strlen n + strlen v /\ zlen buf' = zlen buf.
Proof.
  intros H0 H. unfold add_option in H. assert (0 <= strlen n /\ 0 <= strlen v) as [Hn Hv] by (split; apply zlen_nonneg).
  apply pbind_inv in H as (u1 & b1 & [_ E1]%bstore_ok & H); [|lia]. apply pbind_inv in H as (u2 & b2 & [_ E2]%bstore_ok & H); [|lia].
  apply pbind_inv in H as (u3 & b3 & [_ E3]%bstore_ok & H); [|lia]. apply pbind_inv in H as (u4 & b4 & [_ E4]%bstore_ok & H); [|lia].
  apply pbind_inv in H as (u5 & b5 & [_ E5]%bstore_ok & H); [|lia]. injection H as <- <-. split; [lia|congruence].
Qed.

(** The headers that are built fit their buffers. *)
Lemma build_ipp_fits id name r buf n buf' :
  build_ipp id name r buf = Ok n buf' -> zlen (printer_uri name) < 64 /\ zlen (ipp_part name id r) <= zlen buf.
Proof.
  intros H. unfold build_ipp in H. pose proof (zlen_nonneg (cstr name)) as Hn. assert (0 <= strlen (usernm r) /\ 0 <= strlen (jobnm r)) as [Hu Hj] by (split; apply zlen_nonneg).
  assert (strlen (printer_uri name) = 11 + zlen (cstr name)) as Huri by (unfold strlen, printer_uri; rewrite cstr_id by (apply nonul_app; [by apply lit_nonul|apply nonul_app; [apply cstr_nonul|by apply lit_nonul]]); autorewrite with zlen; change (zlen (lit "http://")) with 7; change (zlen (lit "/ipp")) with 4; lia).
  apply pbind_inv in H as (u1 & b1 & [_ E1]%bstore_ok & H); [|lia]. apply pbind_inv in H as (u2 & b2 & [_ E2]%bstore_ok & H); [|lia].
  apply pbind_inv in H as (c1 & b3 & [-> E3]%add_option_ok & H); [|lia]. apply pbind_inv in H as (c2 & b4 & [-> E4]%add_option_ok & H); [|by vm_compute].
  apply pbind_inv in H as (u3 & b5 & Hg & H). unfold guard_die in Hg. destruct (Z.leb_spec 64 (zlen (printer_uri name))); [done|]. injection Hg as _ <-. split; [done|].
  change (9 + 5 + strlen (lit "attributes-charset") + strlen (lit "utf-8")) with 37 in H. change (37 + 5 + strlen (lit "attributes-natural-language") + strlen (lit "en-us")) with 74 in H.
  apply pbind_inv in H as (c3 & b6 & [-> E5]%add_option_ok & H); [|lia]. change (strlen (lit "printer-uri")) with 11 in H. rewrite Huri in H.
  apply pbind_inv in H as (c4 & b7 & [-> E6]%add_option_ok & H); [|lia]. change (strlen (lit "requesting-user-name")) with 20 in H.
  apply pbind_inv in H as (c5 & b8 & [-> E7]%add_option_ok & H); [|lia]. change (strlen (lit "job-name")) with 8 in H.
  apply pbind_inv in H as (c6 & b9 & [-> E8]%add_option_ok & H); [|lia]. change (strlen (lit "document-format")) with 15 in H.
  fold (is_text r) in H. assert (strlen (if is_text r then lit "text/plain" else lit "application/postscript") = if is_text r then 10 else 22) as Hf by (by destruct (is_text r)). rewrite Hf in H.
  apply pbind_inv in H as (u4 & b10 & [E9 _]%bstore_ok & H); [|destruct (is_text r); lia]. change (zlen [TAG_END_OF_ATTR]) with 1 in E9.
  unfold ipp_part. rewrite ipp_length. unfold strlen in *. rewrite E1 in E2. destruct (is_text r); lia.
Qed.

Definition fits (name : bytes) (j : pjob) (content : bytes) : Prop :=
  zlen (printer_uri name) < 64 /\ zlen (ipp_part name (jobid j) (req j)) <= IBUFSZ /\ zlen (http_part name (jobid j) (req j) content) <= HBUFSZ.

Lemma headers_fit m name j content :
  zlen (m_ibuf m) = IBUFSZ -> zlen (m_hbuf m) = HBUFSZ -> nonul name ->
  match headers m name (jobid j) (req j) (zlen content) with
  | inl hi => hi = (http_part name (jobid j) (req j) content, ipp_part name (jobid j) (req j)) /\ fits name j content
  | inr _ => ~ fits name j content
  end.
Proof.
  intros Hib Hhb Hn. destruct (headers m name (jobid j) (req j) (zlen content)) as [hi|why] eqn:E.
  - assert (fits name j content) as Hf; [|split; [|done]; destruct Hf as (H1 & H2 & H3); rewrite (headers_run m name _ _ content) in E by done; by injection E as <-].
    unfold headers in E. destruct (build_ipp _ _ _ _) as [n ib|] eqn:Ei; [|done]. destruct (build_ipp_fits _ _ _ _ _ _ Ei) as [Hu Hi].
    rewrite Hib in Hi. unfold fits. split; [done|]. split; [done|].
    destruct (build_ipp_run (jobid j) name (req j) Hn (m_ibuf m) Hib Hu Hi) as (ib' & Ei' & _). rewrite Ei in Ei'. injection Ei' as -> <-.
    destruct (build_http _ _ _) as [k hb|] eqn:Eh; [|done]. unfold build_http in Eh. apply pbind_inv in Eh as (u & b & [Hb _]%bstore_ok & _); [|lia].
    rewrite Hhb in Hb. unfold http_part, document. fold (ipp_part name (jobid j) (req j)) in Hb.
    replace (zlen (ipp_part name (jobid j) (req j) ++ (if is_text (req j) then [8] else []) ++ content)) with (zlen content + zlen (ipp_part name (jobid j) (req j)) + (if is_text (req j) then 1 else 0)) by (destruct (is_text (req j)); zl). lia.
  - intros (H1 & H2 & H3). by rewrite (headers_run m name _ _ content) in E by done.
Qed.

(** ** What is on the way to the printer *)
Definition written (fd : Z) (w : world) : bytes := match w_to w !! fd with Some (_, o) => o | None => [] end.

(** The bytes [out] were written to [fd], and nothing else happened. *)
Definition sent (fd : Z) (out : bytes) (w w' : world) : Prop :=
  w_in w' = w_in w /\ written fd w' = written fd w ++ out /\ (is_Some (w_to w !! fd) -> is_Some (w_to w' !! fd)) /\
  forall fd', fd' <> fd -> w_to w' !! fd' = w_to w !! fd'.

Lemma sent_nil fd w w' : w_in w' = w_in w -> w_to w' = w_to w -> sent fd [] w w'.
Proof. intros H1 H2. unfold sent, written. rewrite app_nil_r, H2. by split_and!. Qed.

Lemma sent_app fd a b w w1 w2 : sent fd a w w1 -> sent fd b w1 w2 -> sent fd (a ++ b) w w2.
Proof.
  intros (H1 & H2 & H3 & H4) (G1 & G2 & G3 & G4). split; [congruence|]. split; [by rewrite G2, H2, app_assoc|]. split; [auto|]. intros fd' Hne. by rewrite G4, H4.
Qed.

Lemma sent_insert fd s s' o out w w' : w_in w' = w_in w -> w_to w !! fd = Some (s, o) -> w_to w' = <[fd := (s', o ++ out)]> (w_to w) -> sent fd out w w'.
Proof.
  intros H1 H2 H3. unfold sent, written. rewrite H3, lookup_insert_eq, H2. split_and!; try done. intros fd' Hne. by rewrite lookup_insert_ne.
Qed.

(** A [write]; the connection exists when something was written. *)
Lemma write_sent fd buf st :
  buf <> [] ->
  exists n w' out, on_io (sys_write fd buf) st = Ok n (set_io w' st) /\ sent fd out (pd_io st) w' /\ out `prefix_of` buf /\ (n = zlen buf <-> out = buf) /\ (out = buf -> is_Some (w_to w' !! fd)).
Proof.
  intros Hne. destruct (w_to (pd_io st) !! fd) as [[s o]|] eqn:E.
  - destruct (sys_write_does fd buf (pd_io st) s o E Hne) as (n & w' & Ew & Hi & Ht & Hn & _ & _). exists n, w', (take (Z.to_nat n) buf).
    split; [by apply zoom_ok|]. split; [by eapply sent_insert|]. split; [by exists (drop (Z.to_nat n) buf); rewrite take_drop|]. split; [|intros _; rewrite Ht, lookup_insert_eq; by eexists].
    split; [intros ->; rewrite to_nat_zlen; apply take_ge; lia|]. intros Heq. apply (f_equal length) in Heq. rewrite length_take in Heq. unfold zlen in *. assert (0 < length buf)%nat by (destruct buf; [done|simpl; lia]). lia.
  - exists (-1), (set_errno EBADF (pd_io st)), []. split; [unfold on_io; apply zoom_ok; unfold sys_write; pstep; by rewrite E|]. split; [by apply sent_nil|]. split; [apply prefix_nil|].
    pose proof (zlen_nonneg buf). split; [split; [lia|intros <-; done]|intros <-; done].
Qed.

Lemma writen_sent fd buf st :
  is_Some (w_to (pd_io st) !! fd) -> buf <> [] ->
  exists n w' out, on_io (Apue.writen fd buf) st = Ok n (set_io w' st) /\ sent fd out (pd_io st) w' /\ out `prefix_of` buf /\ (n = zlen buf <-> out = buf).
Proof.
  intros [[s o] Hs] Hne. unfold Apue.writen. destruct (scatter_spec never (wfuel fd (pd_io st)) fd buf (pd_io st) s o Hs) as (r & out & left & w' & E & Hb & (Hi & s1 & s2 & o1 & H1 & H2 & _) & Hl & _ & _ & _).
  { unfold wfuel. rewrite Hs. change (default ([], []) (Some (s, o))) with (s, o). cbn [fst]. lia. }
  eexists _, w', out. split; [apply zoom_ok; pstep; rewrite apue_scatter by lia; by rewrite (pbind_ok _ _ _ _ _ E)|].
  split; [by eapply sent_insert|]. split; [by exists left|]. cbn [fst snd]. split.
  - intros Hn. destruct left as [|c left]; [by rewrite app_nil_r in Hb|]. exfalso. revert Hn. rewrite Hb. destruct ((r <? 0) && _); [pose proof (zlen_nonneg (out ++ c :: left)); lia|zl].
  - intros Ho. assert (left = []) as -> by (apply (f_equal length) in Hb; rewrite length_app, Ho in Hb; destruct left; [done|simpl in Hb; lia]).
    assert (r = 1) as -> by (by apply Hl). cbn. rewrite zlen_nil. lia.
Qed.

(** Reading the data file. *)
Lemma fread_sent n rest st fd r st' :
  sys_fread n rest st = Ok r st' -> sent fd [] (pd_io st) (pd_io st') /\ (forall e, e ∈ pd_ev st' -> e ∈ pd_ev st) /\ (r = None -> exists e, FErr e ∈ pd_ev st).
Proof.
  unfold sys_fread, next_ev. pstep. destruct (pd_ev st) as [|e ev] eqn:E; pstep.
  - intros [= <- <-]. split; [by apply sent_nil|]. by rewrite E.
  - assert (forall x, x ∈ ev -> x ∈ e :: ev) as Hs by (intros x Hx; by right). destruct e; intros [= <- <-]; (split; [by apply sent_nil|]); (split; [done|]); try done. intros _. eexists. left.
Qed.

Definition file_error (st : pd) : Prop := exists e, FErr e ∈ pd_ev st.

Lemma send_file_sent fuel fd : forall rest st, is_Some (w_to (pd_io st) !! fd) -> (length rest < fuel)%nat ->
  exists b st' out, send_file fuel fd rest st = Ok b st' /\ sent fd out (pd_io st) (pd_io st') /\ out `prefix_of` rest /\
    (b = true -> out = rest) /\ (b = false -> out <> rest \/ file_error st).
Proof.
  induction fuel as [|fuel IH]; intros rest st Hto Hf; [lia|]. cbn [send_file].
  destruct (fread_run (Z.to_nat IOBUFSZ) rest st ltac:(unfold IOBUFSZ; lia)) as (r & st1 & E1 & Hi1 & Ht1 & Hbs & _).
  destruct (fread_sent _ _ _ fd _ _ E1) as (S1 & Hev & He). rewrite (pbind_ok _ _ _ _ _ E1). destruct r as [bs|].
  2: { exists false, st1, []. split_and!; try done; [apply prefix_nil|]. intros _. right. by apply He. }
  destruct (Hbs bs eq_refl) as [Htk Hnil]. destruct bs as [|c bs0]; [exists true, st1, []; split_and!; try done; [apply prefix_nil|]; intros _; by rewrite Hnil|].
  set (bs := c :: bs0) in *. assert (bs <> []) as Hne by done. assert (rest = bs ++ drop (length bs) rest) as Hrest by (rewrite Htk at 1; by rewrite take_drop).
  destruct (writen_sent fd bs st1 ltac:(by rewrite Ht1) Hne) as (nw & w2 & out & E2 & S2 & Hpre & Hn). rewrite (pbind_ok _ _ _ _ _ E2).
  pose proof (sent_app _ _ _ _ _ _ S1 S2) as S12. cbn [app] in S12. destruct (Z.eqb_spec nw (zlen bs)) as [En|En]; cbn [negb].
  - apply Hn in En as ->. destruct (IH (drop (length bs) rest) (set_io w2 st1)) as (b & st3 & out3 & E3 & S3 & Hp3 & Hb3 & Hb3').
    { apply S12. done. }
    { pose proof (f_equal length Hrest) as Hlen. rewrite length_app in Hlen. assert (0 < length bs)%nat by (unfold bs; simpl; lia). lia. }
    exists b, st3, (bs ++ out3). split; [done|]. split; [by eapply sent_app|]. split; [apply (prefix_app bs) in Hp3; by rewrite <- Hrest in Hp3|]. split; [intros Hb; by rewrite (Hb3 Hb), <- Hrest|].
    intros Hb. destruct (Hb3' Hb) as [Hx|[e Hx]]; [left; intros Heq; apply Hx, (app_inv_head bs); by rewrite Heq|right; exists e; by apply Hev].
  - exists false, (set_io w2 st1), out. split; [done|]. split; [done|]. split; [apply (prefix_app_r _ _ (drop (length bs) rest)) in Hpre; by rewrite <- Hrest in Hpre|]. split; [done|]. intros _. left. intros Heq.
    apply En, Hn. destruct Hpre as [k Hk]. assert (k = []) as ->; [|by rewrite app_nil_r in Hk]. rewrite Heq in Hk. apply (f_equal length) in Hk. pose proof (f_equal length Hrest) as Hlen. rewrite length_app in Hk, Hlen. assert (length k = 0)%nat by lia. by destruct k.
Qed.

(** The socket of a connection: the first of eight attempts that is not
    refused. *)
Definition refused (e : cev) : bool := match e with Refused _ _ => true | _ => false end.

Definition connection (evs : list cev) : option Z :=
  match filter (fun e => refused e = false) (take 8 evs) with
  | Connected fd :: _ => Some fd
  | _ => None
  end.

Lemma connect_connection evs err : (connect_retry evs err).1.1.1 = connection evs.
Proof. unfold connect_retry. do 8 (destruct evs as [|[?|?|? ?] evs]; [reflexivity|reflexivity|reflexivity|]). by destruct evs as [|[?|?|? ?] evs]. Qed.

Section fates.
Context {A : Type} (gai : bytes -> bytes -> A + Z) (canon : A -> option bytes) (conf : option bytes) (reread : bool) (cur : A * bytes).
Context (m : mem) (evs : list cev) (st : pd) (j : pjob).

(** The round has got as far as the connection [fd], and [out] of the request
    is sent. *)
Definition attempt (name : bytes) (fd : Z) (content out : bytes) (w : world) : Prop :=
  (exists p, check_config gai canon conf reread cur = inl (p, name)) /\ connection evs = Some fd /\
  pd_fs st !! data_path (jobid j) = Some content /\ sent fd out (pd_io st) w /\ out `prefix_of` request name j content.

(** The whole request is sent, and [printer_status] finds [v] in what the
    printer answers. *)
Definition answered (v : Z) : Prop :=
  exists name fd content w w', attempt name fd content (request name j content) w /\
    printer_status (m_junk m) (m_fuel m) fd (jobid j) (m_buf m) w = Ok v w' /\
    forall r h body s, reply_ok m r h body -> w_in (pd_io st) !! fd = Some (script_of r s) -> v = verdict (jobid j) body.

(** Why a job is printed, deferred or canceled, and why the daemon ends. *)
Definition fate (out : outcome + string) : Prop :=
  match out with
  | inl Waiting => False
  | inl Canceled => pd_fs st !! data_path (jobid j) = None \/ file_error st
  | inl Printed => exists v, answered v /\ v <> 0
  | inl Deferred =>
      connection evs = None \/ answered 0 \/
      exists name fd content out w, attempt name fd content out w /\ (out <> request name j content \/ file_error st)
  | inr why =>
      check_config gai canon conf reread cur = inr why \/
      (exists name fd content, attempt name fd content [] (pd_io st) /\ ~ fits name j content) \/
      exists name fd content w w', attempt name fd content (request name j content) w /\
        printer_status (m_junk m) (m_fuel m) fd (jobid j) (m_buf m) w = Abort why w'
  end.

End fates.

(** Less than the beginning of a message is not all of it. *)
Lemma prefix_short (o a b : bytes) : o `prefix_of` a -> o <> a -> o <> a ++ b.
Proof. intros Hp Hne ->. apply Hne. apply prefix_length_eq; [done|]. rewrite length_app. lia. Qed.

Section send.
Context (m : mem) (name : bytes) (j : pjob) (content : bytes) (fd : Z).
Context (Hib : zlen (m_ibuf m) = IBUFSZ) (Hhb : zlen (m_hbuf m) = HBUFSZ) (Hname : nonul name).

(** The backspace. *)
Lemma mark_sent st :
  is_Some (w_to (pd_io st) !! fd) ->
  let mark := if is_text (req j) then [8] else [] in
  exists b w' out, (if is_text (req j) then do nw <- on_io (sys_write fd [8]); pret (nw =? 1) else pret true) st = Ok b (set_io w' st) /\
    sent fd out (pd_io st) w' /\ out `prefix_of` mark /\ (b = true <-> out = mark) /\ is_Some (w_to w' !! fd).
Proof.
  intros Hto. destruct (is_text (req j)); cbv zeta.
  - destruct (write_sent fd [8] st ltac:(done)) as (n & w' & out & E & S & P & N & _). rewrite (pbind_ok _ _ _ _ _ E). eexists _, w', out. split; [done|]. split; [done|]. split; [done|].
    rewrite Z.eqb_eq. split; [exact N|]. by apply S.
  - exists true, (pd_io st), []. split; [by destruct st|]. split; [by apply sent_nil|]. by split_and!.
Qed.

(** From the headers to the response. *)
Lemma send_job_sent st :
  let send := send_job m name (jobid j) (req j) content fd st in
  (exists why, send = Abort why st /\ ~ fits name j content) \/
  exists st1 out, sent fd out (pd_io st) (pd_io st1) /\ out `prefix_of` request name j content /\
    (send = Ok false st1 /\ (out <> request name j content \/ file_error st) \/
     kept st st1 /\ pd_fs st1 = pd_fs st /\ out = request name j content /\
     send = match printer_status (m_junk m) (m_fuel m) fd (jobid j) (m_buf m) (pd_io st1) with
            | Ok v w' => Ok (negb (v =? 0)) (set_io w' st1)
            | Abort why w' => Abort why (set_io w' st1)
            end).
Proof.
  cbv zeta. pose proof (headers_fit m name j content Hib Hhb Hname) as Hf. unfold send_job. destruct (headers _ _ _ _ _) as [hi|why]; [|left; by exists why]. destruct Hf as [-> _]. right.
  unfold request, document. set (hp := http_part _ _ _ _). set (ip := ipp_part _ _ _). set (mk := if is_text (req j) then [8] else []).
  assert (hp ++ ip ++ mk ++ content = (hp ++ ip) ++ mk ++ content) as -> by (by rewrite <- app_assoc).
  destruct (write_sent fd (hp ++ ip) st ltac:(done)) as (n1 & w1 & o1 & E1 & S1 & P1 & N1 & I1). rewrite (pbind_ok _ _ _ _ _ E1), <- zlen_app.
  destruct (Z.eqb_spec n1 (zlen (hp ++ ip))) as [En|En]; cbn [negb].
  2: { exists (set_io w1 st), o1. split; [done|]. split; [by apply prefix_app_r|]. left. split; [done|]. left. apply prefix_short; [done|]. intros ->. by apply En, N1. }
  apply N1 in En as ->. destruct (mark_sent (set_io w1 st) (I1 eq_refl)) as (b & w2 & o2 & E2 & S2 & P2 & N2 & I2). fold mk in P2, N2. rewrite (pbind_ok _ _ _ _ _ E2).
  pose proof (sent_app _ _ _ _ _ _ S1 S2) as S12. cbn [pd_io set_io] in S12. destruct b; cbn [negb].
  2: { exists (set_io w2 (set_io w1 st)), ((hp ++ ip) ++ o2). split; [exact S12|]. split; [by apply prefix_app, prefix_app_r|]. left. split; [done|]. left. intros Heq%app_inv_head. revert Heq. apply prefix_short; [done|]. intros Hx. by apply N2 in Hx. }
  rewrite (proj1 N2 eq_refl) in S12. set (st2 := set_io w2 _) in *.
  destruct (send_file_sent (S (S (length content))) fd content st2 I2 ltac:(lia)) as (b & st3 & o3 & E3 & S3 & P3 & N3 & N3'). rewrite (pbind_ok _ _ _ _ _ E3).
  destruct (send_file_frames _ _ _ _ _ _ E3) as [Hk Hfs]. pose proof (sent_app _ _ _ _ _ _ S12 S3) as S123. rewrite <- app_assoc in S123. destruct b; cbn [negb].
  - rewrite (N3 eq_refl) in S123. exists st3, ((hp ++ ip) ++ mk ++ content). split; [done|]. split; [done|]. right. split; [done|]. split; [done|]. split; [done|].
    unfold pbind, on_io, zoom. by destruct (printer_status _ _ _ _ _ _).
  - eexists st3, _. split; [exact S123|]. split; [by do 2 apply prefix_app|]. left. split; [done|]. destruct (N3' eq_refl) as [Hx|Hx]; [left|right; exact Hx]. by intros Heq%app_inv_head%app_inv_head.
Qed.

End send.

Lemma next_ev_run2 st : exists e st', next_ev st = Ok e st' /\ kept st st' /\ pd_io st' = pd_io st /\ pd_fs st' = pd_fs st /\
  (forall x, x ∈ pd_ev st' -> x ∈ pd_ev st) /\ forall x, e = FErr x -> FErr x ∈ pd_ev st.
Proof.
  unfold next_ev. pstep. destruct (pd_ev st) as [|e ev] eqn:E; pstep; eexists _, _; (split; [done|]); (split; [done|]); (split; [done|]); (split; [done|]); rewrite ?E; split; try done.
  - intros x Hx. by right.
  - intros x ->. by left.
Qed.

Section rounds2.
Context {A : Type} (gai : bytes -> bytes -> A + Z) (canon : A -> option bytes) (conf : option bytes) (reread : bool) (cur : A * bytes).
Context (m : mem) (name : bytes) (evs : list cev) (D : gmap Z pjob) (jp : Z) (j : pjob) (l : list Z) (st : pd).
Context (Hjp : is_Some (D !! jp)) (H0 : jp <> 0) (Hl : jp ∉ l) (Hcfg : exists p, check_config gai canon conf reread cur = inl (p, name)).
Context (Hib : zlen (m_ibuf m) = IBUFSZ) (Hhb : zlen (m_hbuf m) = HBUFSZ) (Hname : nonul name).

(** A round that ends: what it has done and why, and the connection is
    closed; otherwise the files are as they were. *)
Definition round_end (res : Prelude.outcome pd outcome) : Prop :=
  match res with
  | Ok out st' =>
      round_post D jp j l st out st' /\ fate gai canon conf reread cur m evs st j (inl out) /\
      pd_closed st' = match out with Canceled => [] | _ => option_list (connection evs) end ++ pd_closed st
  | Abort why st' => pd_fs st' = saved st /\ fate gai canon conf reread cur m evs st j (inr why)
  end.

(** Before the connection nothing was sent. *)
Definition before (s : pd) : Prop :=
  holding D l st s /\ pd_io s = pd_io st /\ pd_closed s = pd_closed st /\ forall e, e ∈ pd_ev s -> e ∈ pd_ev st.

Lemma contact_end content s : before s -> pd_fs st !! data_path (jobid j) = Some content -> round_end (contact m name evs jp j content s).
Proof.
  intros (Hs & Hio & Hcl & Hev) Hfile. pose proof (fun out st' => contact_post m name evs D jp j l st Hjp H0 Hl content s out st' Hs) as Hpost.
  revert Hpost. unfold contact, errno. pstep. pose proof (connect_connection evs (w_errno (pd_io s))) as Hco.
  destruct (connect_retry evs (w_errno (pd_io s))) as [[[sock err] slept] evs']. cbn [fst] in Hco. subst sock. destruct (connection evs) as [fd|] eqn:Ec.
  2: { assert (on_io (put (set_errno err)) s = Ok tt (set_io (set_errno err (pd_io s)) s)) as Ee by done. rewrite (pbind_ok _ _ _ _ _ Ee).
    destruct (replace_holding D jp j l st Hjp H0 Hl (set_io (set_errno err (pd_io s)) s) Hs) as (d & Ed & Hp). rewrite (pbind_ok _ _ _ _ _ Ed).
    intros _. cbn. rewrite Ec. split; [exact Hp|]. split; [by left|done]. }
  assert (file_error s -> file_error st) as Hfe by (intros [e He]; exists e; by apply Hev).
  assert (forall out w, sent fd out (pd_io s) w -> out `prefix_of` request name j content -> attempt gai canon conf reread cur evs st j name fd content out w) as Hat by (intros out w Hx Hy; rewrite Hio in Hx; by split_and!).
  destruct (send_job_sent m name j content fd Hib Hhb Hname s) as [(why & E & Hnf)|(s1 & out & Hsent & Hpre & [[E Hwhy]|(Hk & Hf & -> & E)])].
  - rewrite (pbind_abort _ _ _ _ _ E). intros _. split; [apply Hs|]. right. left. exists name, fd, content. split; [|done]. rewrite <- Hio. apply Hat; [by apply sent_nil|apply prefix_nil].
  - rewrite (pbind_ok _ _ _ _ _ E). destruct (send_job_frames _ _ _ _ _ _ _ _ _ E) as [Hk Hf]. pstep.
    destruct (replace_holding D jp j l st Hjp H0 Hl (add_closed fd s1) (holding_kept D l st _ _ Hs Hk Hf)) as (d & Ed & Hp). rewrite (pbind_ok _ _ _ _ _ Ed).
    intros _. cbn. rewrite Ec. split; [exact Hp|]. split; [|destruct Hk as (_ & _ & _ & Hx); cbn; congruence]. right. right. exists name, fd, content, out, (pd_io s1). split; [by apply Hat|]. tauto.
  - pose proof (holding_kept D l st _ _ Hs Hk Hf) as Hs1. destruct (printer_status (m_junk m) (m_fuel m) fd (jobid j) (m_buf m) (pd_io s1)) as [v w'|why w'] eqn:Est.
    + rewrite (pbind_ok _ _ _ _ _ E).
      assert (answered gai canon conf reread cur m evs st j v) as Han.
      { exists name, fd, content, (pd_io s1), w'. split; [by apply Hat|]. split; [done|]. intros r h body sc Hr Hin. destruct Hsent as (Hin1 & _). rewrite Hio in Hin1.
        rewrite (answer_run m r h body fd (jobid j) (pd_io s1) sc Hr) in Est by (by rewrite Hin1). by injection Est as <- _. }
      destruct (Z.eqb_spec v 0) as [->|Hv]; cbn [negb].
      * pstep. destruct (replace_holding D jp j l st Hjp H0 Hl (add_closed fd (set_io w' s1)) Hs1) as (d & Ed & Hp). rewrite (pbind_ok _ _ _ _ _ Ed).
        intros _. cbn. rewrite Ec. split; [exact Hp|]. split; [|destruct Hk as (_ & _ & _ & Hx); cbn; congruence]. right. by left.
      * unfold sys_unlink. pstep. intros Hpost. cbn. rewrite Ec. split; [by apply Hpost|]. split; [by exists v|]. destruct Hk as (_ & _ & _ & Hx). cbn. congruence.
    + rewrite (pbind_abort _ _ _ _ _ E). intros _. split; [apply Hs1|]. right. right. by exists name, fd, content, (pd_io s1), w'; split; [apply Hat|].
Qed.

Lemma print_job_end s : before s -> round_end (print_job m name evs jp j s).
Proof.
  intros Hb. unfold print_job. destruct (next_ev_run2 s) as (e & s1 & E1 & Hk1 & Hi1 & Hf1 & He1 & Hx1). rewrite (pbind_ok _ _ _ _ _ E1). pstep.
  assert (forall s s1, before s -> kept s s1 -> pd_io s1 = pd_io s -> pd_fs s1 = pd_fs s -> (forall e, e ∈ pd_ev s1 -> e ∈ pd_ev s) -> before s1) as Hstep.
  { intros a b (H1 & H2 & H3 & H4) K I F V. split; [by eapply holding_kept|]. split; [congruence|]. split; [destruct K as (_ & _ & _ & K); congruence|auto]. }
  assert (forall s, before s -> (pd_fs st !! data_path (jobid j) = None \/ file_error st) -> round_end (cancel jp s)) as Hcan.
  { intros a (H1 & H2 & H3 & H4) Hw. cbn. split; [by eapply cancel_post|]. by split. }
  pose proof (Hstep s s1 Hb Hk1 Hi1 Hf1 He1) as Hb1.
  assert (pd_fs s1 !! data_path (jobid j) = pd_fs st !! data_path (jobid j)) as Hfile.
  { destruct Hb1 as ((_ & -> & _) & _). unfold saved. rewrite lookup_insert_ne; [done|]. unfold data_path, job_path. intros X. apply (f_equal (take 20)) in X. vm_compute in X. discriminate. }
  destruct (next_ev_run2 s1) as (e2 & s2 & E2 & Hk2 & Hi2 & Hf2 & He2 & Hx2). pose proof (Hstep s1 s2 Hb1 Hk2 Hi2 Hf2 He2) as Hb2.
  assert (forall x, e = FErr x -> file_error st) as He by (intros x Hx; exists x; apply Hb; by apply Hx1).
  assert (forall x, e2 = FErr x -> file_error st) as He' by (intros x Hx; exists x; apply Hb1; by apply Hx2).
  rewrite Hfile. destruct (pd_fs st !! data_path (jobid j)) as [content|] eqn:Ef; destruct e; try (apply Hcan; [done|]; by eauto);
    rewrite (pbind_ok _ _ _ _ _ E2); destruct e2; first [by apply contact_end|apply Hcan; [done|]; by eauto].
Qed.

End rounds2.

(** Every round. *)
Lemma round_result {A} gai canon conf reread (cur : A * bytes) m evs (D : gmap Z pjob) st l :
  dl_rep D (pd_jobs st) l -> zlen (m_ibuf m) = IBUFSZ -> zlen (m_hbuf m) = HBUFSZ ->
  (forall p name, check_config gai canon conf reread cur = inl (p, name) -> nonul name) ->
  match l with
  | [] => printer_round gai canon conf reread cur m evs st = Ok Waiting st
  | jp :: l => exists j, D !! jp = Some j /\ round_end gai canon conf reread cur m evs D jp j l st (printer_round gai canon conf reread cur m evs st)
  end.
Proof.
  intros Hr Hib Hhb Hnn. destruct l as [|jp l].
  - unfold printer_round. pstep. destruct Hr as [_ Hd%dlist_head]. by destruct Hd as [_ ->].
  - destruct (round_pick gai canon conf reread cur m evs D st jp l Hr) as (j & dj & Hj & Hdj & ->). exists j. split; [done|].
    destruct (rep_head _ _ _ _ Hr) as (_ & H0 & Hl & Hjp). destruct (check_config gai canon conf reread cur) as [[p name]|why] eqn:Ec; [|split; [done|by left]].
    apply (print_job_end gai canon conf reread cur m name evs D jp j l st Hjp H0 Hl); [by exists p|done|done|by eapply Hnn|]. by split_and!.
Qed.
