(* ===== verification/PrSubmit.v ===== *)
(** * The print command and the daemon (apue.3e/printer/print.c)

    What [submit_file] puts on the wire, and what it makes of the
    response. *)
From S2P Require Import Prelude CString Posix Chain IoFd IoReadn IoGather PrUtil PrReq PrJobs PrSpool PrSpoolThms PrIpp PrStat PrPrint PrPrintThms.

Open Scope prog_scope.

(** ** Strings in arrays *)
Lemma splice0_length (a b : bytes) : zlen b <= zlen a -> zlen (splice a 0 b) = zlen a.
Proof. intros H. rewrite splice_front by done. rewrite zlen_app, zlen_drop. unfold zlen in *. lia. Qed.

Lemma cstr_splice0 (a s : bytes) : zlen (cstr s) < zlen a -> cstr (splice a 0 (cstr s ++ [NUL])) = cstr s.
Proof. intros H. rewrite splice_front by zl. rewrite <- app_assoc. apply cstr_app_nul, cstr_nonul. Qed.

Lemma strcpy_run (a s : bytes) : zlen (cstr s) < zlen a -> zlen (strcpy a s) = zlen a /\ cstr (strcpy a s) = cstr s.
Proof. intros H. unfold strcpy. split; [apply splice0_length; zl|by apply cstr_splice0]. Qed.

(** [strncpy] with room for a null, which is stored then. *)
Lemma strncpy_run (a s : bytes) n :
  0 < n -> zlen a = n ->
  let r := splice (strncpy a s (n - 1)) (n - 1) [NUL] in zlen r = n /\ cstr r = take (Z.to_nat (n - 1)) (cstr s).
Proof.
  intros Hn Ha r. set (t := take (Z.to_nat (n - 1)) (cstr s)).
  set (p := t ++ replicate (Z.to_nat (n - 1) - length t) NUL).
  assert (length t <= Z.to_nat (n - 1))%nat as Ht by (unfold t; rewrite length_take; lia).
  assert (zlen p = n - 1) as Hp by (unfold p; rewrite zlen_app; unfold zlen; rewrite length_replicate; lia).
  assert (r = p ++ [NUL]) as Hr.
  { unfold r, strncpy. fold t. fold p. rewrite splice_front by lia. destruct (drop (length p) a) as [|c [|d tl]] eqn:E.
    - apply (f_equal length) in E. rewrite length_drop in E. unfold zlen in *. simpl in E. lia.
    - rewrite (splice_mid p [c] [] [NUL]) by (done || lia). done.
    - apply (f_equal length) in E. rewrite length_drop in E. unfold zlen in *. simpl in E. lia. }
  rewrite Hr. split; [zl|]. unfold p. rewrite <- app_assoc.
  assert (nonul t) as Hnt by (unfold t; apply Forall_take, cstr_nonul).
  destruct (Z.to_nat (n - 1) - length t)%nat; simpl; by apply cstr_app_nul.
Qed.

(** What [fname] becomes when it is too long: its last 251 bytes. *)
Definition job_name (fname : bytes) : bytes :=
  if JOBNM_MAX <=? zlen fname then lit "... " ++ drop (Z.to_nat (zlen fname - (JOBNM_MAX - 5))) fname else fname.

Definition user_name (pw_name : option bytes) : bytes :=
  match pw_name with None => lit "unknown" | Some n => take (Z.to_nat (USERNM_MAX - 1)) n end.

Section build.
Context (r : printreq) (pw : option bytes) (fname : bytes) (nbytes : Z) (text : bool).
Context (Hu : zlen (usernm r) = USERNM_MAX) (Hj : zlen (jobnm r) = JOBNM_MAX) (Hfn : nonul fname) (Hpw : forall n, pw = Some n -> nonul n).

Lemma build_user :
  let r' := build_req r pw fname nbytes text in zlen (usernm r') = USERNM_MAX /\ cstr (usernm r') = user_name pw.
Proof.
  unfold build_req. cbn [usernm]. destruct pw as [n|].
  - destruct (strncpy_run (usernm r) n USERNM_MAX ltac:(done) Hu) as [Hl Hc]. split; [done|]. rewrite Hc. simpl. by rewrite (cstr_id n) by (by apply Hpw).
  - destruct (strcpy_run (usernm r) (lit "unknown")) as [Hl Hc]; [rewrite Hu; done|]. rewrite Hl, Hc. done.
Qed.

Lemma build_job :
  let r' := build_req r pw fname nbytes text in zlen (jobnm r') = JOBNM_MAX /\ cstr (jobnm r') = job_name fname.
Proof.
  unfold build_req, job_name, strlen. cbn [jobnm]. rewrite (cstr_id fname) by done. destruct (Z.leb_spec JOBNM_MAX (zlen fname)) as [H|H].
  - replace (zlen fname - JOBNM_MAX + 5) with (zlen fname - (JOBNM_MAX - 5)) by lia. set (t := drop _ fname).
    assert (nonul t) as Hnt by (unfold t; by apply Forall_drop).
    assert (zlen t = 251) as Ht by (unfold t, JOBNM_MAX in *; rewrite zlen_drop; lia).
    destruct (strcpy_run (jobnm r) (lit "... ")) as [Hl Hc]; [rewrite Hj; done|]. unfold strncat, strlen. rewrite Hc. change (cstr (lit "... ")) with (lit "... ").
    change (zlen (lit "... ")) with 4. rewrite (cstr_id t), take_ge by (done || (unfold JOBNM_MAX, zlen in *; lia)).
    unfold strcpy. change (cstr (lit "... ")) with (lit "... "). rewrite splice_front by (rewrite Hj; done). change (length (lit "... " ++ [NUL])) with 5%nat.
    assert (zlen ([NUL] ++ drop 5 (jobnm r)) = 252) as Hd by (rewrite zlen_app, zlen_drop, Hj; done).
    rewrite <- app_assoc, <- (app_nil_r ([NUL] ++ drop 5 (jobnm r))).
    rewrite (splice_mid (lit "... ") _ [] (t ++ [NUL])) by (done || (rewrite zlen_app, Ht, Hd; done)). rewrite app_nil_r, app_assoc. split.
    + rewrite !zlen_app, Ht. done.
    + apply cstr_app_nul, nonul_app; [|done]. by repeat constructor.
  - destruct (strcpy_run (jobnm r) fname) as [Hl Hc]; [rewrite (cstr_id fname) by done; lia|]. rewrite (cstr_id fname) in Hc by done. rewrite Hl, Hc. done.
Qed.

Lemma build_ok : req_ok (build_req r pw fname nbytes text).
Proof.
  split_and!; [apply htonl_range..| | |apply build_user|apply build_job]; unfold build_req; cbn [flags];
    (destruct text; [apply htonl_range|done]).
Qed.

End build.

(** ** Sending *)
Section submit.
Context (fd sockfd : Z).

(** The file is read to its end and every byte is sent. *)
Lemma send_loop_run fuel w s o content :
  fd <> sockfd -> w_in w !! fd = Some s -> items false s = Byte <$> content -> (rweight s < fuel)%nat -> w_to w !! sockfd = Some ([], o) ->
  exists w', send_loop fuel fd sockfd w = Ok tt w' /\ w_to w' !! sockfd = Some ([], o ++ content) /\ w_in w' !! sockfd = w_in w !! sockfd.
Proof.
  intros Hne. revert w s o content. induction fuel as [|fuel IH]; intros w s o content Hs Hi Hf Hto; [lia|]. cbn [send_loop].
  destruct (sys_read_does false fd IOBUFSZ w s Hs ltac:(done)) as (r & w1 & s1 & E & Hw1 & Ht1 & _ & Hd & Hwt). rewrite (pbind_ok _ _ _ _ _ E).
  remember (w_errno w1) as e1. remember (items false s1) as l1 eqn:Hl1. rewrite Hi in Hd.
  destruct Hd as [?|e l' Hl Hx|l' Hl e|bs l' e Hbs Hlen Hl]; [done|by destruct content| |].
  - exists w1. destruct Hl as [[Hl _]|Hl]; [|by destruct content]. apply fmap_nil_inv in Hl. subst content.
    rewrite app_nil_r, Ht1, Hw1, lookup_insert_ne by done. done.
  - destruct bs as [|c bs0]; [done|]. set (bs := c :: bs0) in *. destruct Hwt as [?|Hwt]; [done|].
    destruct (apue_writen_run sockfd bs w1 [] o) as (n & out & w2 & E2 & (Hi2 & sa & sb & oa & H1 & H2 & k & Hk) & Hall & _); [congruence|].
    destruct (Hall eq_refl) as [-> ->]. rewrite (pbind_ok _ _ _ _ _ E2), Z.eqb_refl. cbn [negb]. rewrite pbind_guard by done.
    assert (exists c2, content = bs ++ c2 /\ items false s1 = Byte <$> c2) as (c2 & -> & Hc2).
    { apply fmap_app_inv in Hl as (x & y & Hx & Hy & ->). exists y. split; [|congruence]. f_equal.
      apply (list_fmap_eq_inj Byte) in Hx; [done|]. by intros ? ? [= ->]. }
    assert (sa = [] /\ oa = o) as [-> ->] by (rewrite Ht1, Hto in H1; by injection H1 as <- <-). assert (sb = []) as -> by (rewrite Hk; by destruct k).
    destruct (IH w2 s1 (o ++ bs) c2) as (w3 & E3 & Ht3 & Hi3); [by rewrite Hi2, Hw1, lookup_insert_eq|done|lia|by rewrite H2, lookup_insert_eq|].
    exists w3. rewrite app_assoc. split_and!; [done|done|]. rewrite Hi3, Hi2, Hw1, lookup_insert_ne by done. done.
Qed.

Context (r : printreq) (pw : option bytes) (fname : bytes) (nbytes : Z) (text : bool).
Context (Hu : zlen (usernm r) = USERNM_MAX) (Hj : zlen (jobnm r) = JOBNM_MAX) (Hfn : nonul fname) (Hpw : forall n, pw = Some n -> nonul n).

(** What the command sends. *)
Definition wire (content : bytes) : bytes := enc_req (build_req r pw fname nbytes text) ++ content.

Lemma submit_run w s content sr res more :
  fd <> sockfd -> w_in w !! fd = Some s -> items false s = Byte <$> content -> w_to w !! sockfd = Some ([], []) ->
  w_in w !! sockfd = Some sr -> items false sr = (Byte <$> enc_resp res) ++ more -> PrReq.resp_ok res ->
  exists w', submit_file r pw fd sockfd fname nbytes text w =
      Ok (if retcode res =? 0 then JobId (ntohl (r_jobid res)) else Rejected (cstr (msg res))) w' /\
    w_to w' !! sockfd = Some ([], wire content).
Proof.
  intros Hne Hs Hi Hto Hsr Hir Hres. unfold submit_file. pose proof (build_ok r pw fname nbytes text Hu Hj Hfn Hpw) as Hok.
  unfold wire. set (q := build_req _ _ _ _ _) in *.
  destruct (apue_writen_run sockfd (enc_req q) w [] []) as (n & out & w1 & E1 & (Hi1 & sa & sb & oa & H1 & H2 & k & Hk) & Hall & _); [done|].
  destruct (Hall eq_refl) as [-> ->]. rewrite (pbind_ok _ _ _ _ _ E1), enc_req_length, Z.eqb_refl by done. cbn [negb]. rewrite pbind_guard by done.
  rewrite Hto in H1. injection H1 as <- <-. assert (sb = []) as -> by (rewrite Hk; by destruct k). pstep.
  destruct (send_loop_run (rfuel fd w1) w1 s (enc_req q) content) as (w2 & E2 & Ht2 & Hi2); try done.
  { congruence. }
  { unfold rfuel. rewrite Hi1, Hs. change (default [] (Some s)) with s. lia. }
  { by rewrite H2, lookup_insert_eq. }
  rewrite (pbind_ok _ _ _ _ _ E2).
  pose proof (gather_run false sockfd sizeof_printresp w2 sr ltac:(congruence) ltac:(done)) as Hg. rewrite Hir in Hg.
  pose proof (enc_resp_length res Hres) as Hlen. assert (length (enc_resp res) = Z.to_nat sizeof_printresp) as Hln by (unfold zlen in Hlen; lia).
  rewrite ref_read_app, Hln, Nat.sub_diag in Hg by lia. cbn [ref_read] in Hg. destruct Hg as (w3 & E3 & _ & Ht3 & _).
  assert (Apue.readn sockfd sizeof_printresp w2 = Ok (sizeof_printresp, enc_resp res) w3) as E4.
  { unfold Apue.readn. pstep. rewrite apue_gather by (rewrite zlen_nil; lia). rewrite (pbind_ok _ _ _ _ _ E3). unfold pret, count_or_first_error. by rewrite app_nil_r, Hlen. }
  rewrite (pbind_ok _ _ _ _ _ E4). cbn beta iota. rewrite Z.eqb_refl. cbn [negb]. rewrite pbind_guard by done. rewrite dec_enc_resp by done.
  exists w3. rewrite Ht3. split; [by destruct (retcode res =? 0)|done].
Qed.

End submit.

(** ** Restarting the printer daemon

    [build_qonstart] finds in the spool directory the jobs that an earlier
    run accepted; the invariant of the daemon's data. *)
(** ** Directory entries *)

(** The name of a request file is a number. *)
Lemma entry_name id :
  1 <= id <= JOBMAX ->
  streq (fmt_d id) (lit ".") || streq (fmt_d id) (lit "..") = false /\ cstr (fmt_d id) = fmt_d id /\ zlen (fmt_d id) <= 10 /\
  wraps 32 (atol (fmt_d id)) = id.
Proof.
  intros Hid. unfold JOBMAX in Hid. rewrite fmt_d_dec by lia. pose proof (dec_nonul id ltac:(lia)) as Hn. pose proof (dec_digits id ltac:(lia)) as Hd.
  assert (cstr (dec id) = dec id) as Hc by (by apply cstr_id). split_and!.
  - unfold streq. rewrite Hc. destruct (dec id) as [|c l] eqn:E; [by destruct (dec_nonempty id)|]. apply Forall_cons in Hd as [Hd _]. unfold CH_0 in Hd.
    change (cstr (lit ".")) with [46]. change (cstr (lit "..")) with [46; 46].
    rewrite !bool_decide_false; [done|..]; intros X; injection X as -> _; lia.
  - done.
  - apply dec_length; lia.
  - rewrite atol_dec by lia. apply wraps32_small. lia.
Qed.

(** An entry with a request, and one that is too short for a request. *)
Lemma queue_entry_run (D : gmap Z pjob) st l id r jp more :
  dl_rep D (pd_jobs st) l -> D !! jp = None -> jp <> 0 -> pd_ev st = [] -> 1 <= id <= JOBMAX -> req_ok r ->
  pd_fs st !! req_path id = Some (enc_req r ++ more) ->
  exists d, queue_entry (fmt_d id) jp st = Ok tt (set_jobs d st) /\ dl_rep (<[jp := mkPjob id r]> D) d (l ++ [jp]).
Proof.
  intros Hr Hjp H0 Hev Hid Hok Hf. destruct (entry_name id Hid) as (Hdot & Hc & Hl & Ha). unfold queue_entry. rewrite Hdot, Hc. fold (req_path id).
  rewrite pbind_guard by (apply leb_false; unfold req_path; rewrite zlen_app; change (zlen (lit "/var/spool/printer/reqs/")) with 24; unfold FILENMSZ; lia).
  unfold sys_fread, next_ev. pstep. rewrite Hev. pstep. rewrite Hf. pstep. rewrite Hev. pstep.
  pose proof (enc_req_length r Hok) as Hlen. assert (take (Z.to_nat sizeof_printreq) (enc_req r ++ more) = enc_req r) as ->.
  { rewrite <- Hlen, to_nat_zlen. apply take_app_length. }
  rewrite Hlen, Z.eqb_refl. cbn [negb]. rewrite Ha. pose proof (dec_enc_req r [] Hok) as Hde. rewrite app_nil_r in Hde. rewrite Hde.
  destruct (add_job_run D (pd_jobs st) l jp r id Hr Hjp H0) as (d & E & Hd). exists d. split; [by apply zoom_ok|done].
Qed.

Lemma queue_entry_short st id jp content :
  pd_ev st = [] -> 1 <= id <= JOBMAX -> pd_fs st !! req_path id = Some content -> zlen content < sizeof_printreq ->
  queue_entry (fmt_d id) jp st = Ok tt (set_fs (delete (data_path id) (delete (req_path id) (pd_fs st))) st).
Proof.
  intros Hev Hid Hf Hs. destruct (entry_name id Hid) as (Hdot & Hc & Hl & Ha). unfold queue_entry. rewrite Hdot, Hc. fold (req_path id). fold (data_path id).
  rewrite pbind_guard by (apply leb_false; unfold req_path; rewrite zlen_app; change (zlen (lit "/var/spool/printer/reqs/")) with 24; unfold FILENMSZ; lia).
  unfold sys_fread, next_ev. pstep. rewrite Hev. pstep. rewrite Hf. pstep. rewrite Hev. pstep. rewrite eqb_false; [done|]. unfold zlen in *. rewrite length_take. unfold sizeof_printreq, USERNM_MAX, JOBNM_MAX in *. lia.
Qed.

(** ** The directory *)

(** Jobs with the memory they get. *)
Definition entry : Type := Z * printreq * Z.
Definition e_id (e : entry) : Z := e.1.1.
Definition e_req (e : entry) : printreq := e.1.2.
Definition e_jp (e : entry) : Z := e.2.

Definition loaded (D : gmap Z pjob) (es : list entry) : gmap Z pjob :=
  foldl (fun D e => <[e_jp e := mkPjob (e_id e) (e_req e)]> D) D es.

Definition entry_ok (fs : fsys) (e : entry) : Prop :=
  1 <= e_id e <= JOBMAX /\ req_ok (e_req e) /\ fs !! req_path (e_id e) = Some (enc_req (e_req e)) /\ e_jp e <> 0.

Lemma queue_entries_run es (D : gmap Z pjob) st l :
  dl_rep D (pd_jobs st) l -> pd_ev st = [] -> Forall (entry_ok (pd_fs st)) es -> NoDup (e_jp <$> es) -> Forall (fun e => D !! e_jp e = None) es ->
  exists d, queue_entries ((fun e => (fmt_d (e_id e), e_jp e)) <$> es) st = Ok tt (set_jobs d st) /\ dl_rep (loaded D es) d (l ++ (e_jp <$> es)).
Proof.
  intros Hr Hev Hes. revert D st l Hr Hev Hes. induction es as [|e es IH]; intros D st l Hr Hev Hes Hnd HD.
  - exists (pd_jobs st). rewrite app_nil_r. split; [by destruct st|done].
  - apply Forall_cons in Hes as [(Hid & Hok & Hf & H0) Hes]. csimpl in *. apply NoDup_cons in Hnd as [Hn Hnd]. apply Forall_cons in HD as [He HD].
    rewrite <- (app_nil_r (enc_req (e_req e))) in Hf.
    destruct (queue_entry_run D st l (e_id e) (e_req e) (e_jp e) [] Hr He H0 Hev Hid Hok Hf) as (d & E & Hd).
    cbn [queue_entries]. rewrite (pbind_ok _ _ _ _ _ E).
    destruct (IH (<[e_jp e := mkPjob (e_id e) (e_req e)]> D) (set_jobs d st) (l ++ [e_jp e]) Hd Hev Hes Hnd) as (d2 & E2 & Hd2).
    { apply Forall_forall. intros x Hx. rewrite lookup_insert_ne; [by eapply Forall_forall in HD|]. intros Heq. apply Hn. rewrite Heq. by apply list_elem_of_fmap_2. }
    exists d2. rewrite <- app_assoc in Hd2. split; [by rewrite E2|done].
Qed.

Lemma loaded_lookup es D e :
  NoDup (e_jp <$> es) -> e ∈ es -> loaded D es !! e_jp e = Some (mkPjob (e_id e) (e_req e)).
Proof.
  revert D. induction es as [|x es IH]; intros D Hnd He; [by apply not_elem_of_nil in He|]. csimpl in *. apply NoDup_cons in Hnd as [Hn Hnd].
  apply elem_of_cons in He as [->|He]; [|by apply IH]. clear IH.
  assert (forall D', D' !! e_jp x = Some (mkPjob (e_id x) (e_req x)) -> loaded D' es !! e_jp x = Some (mkPjob (e_id x) (e_req x))) as H.
  { induction es as [|y es IH]; intros D' HD'; [done|]. csimpl in *. apply not_elem_of_cons in Hn as [Hxy Hn]. apply NoDup_cons in Hnd as [_ Hnd].
    apply IH; [done|done|]. by rewrite lookup_insert_ne. }
  apply H. by rewrite lookup_insert_eq.
Qed.

(** ** The data of the daemon

    A job has the layout of [struct job]: a 32-bit number and arrays of the
    declared sizes. *)
Definition job_ok (j : pjob) : Prop :=
  - 2 ^ 31 <= jobid j < 2 ^ 31 /\ zlen (usernm (req j)) = USERNM_MAX /\ zlen (jobnm (req j)) = JOBNM_MAX.

Definition pd_wf (st : pd) : Prop :=
  1 <= pd_next st <= JOBMAX /\ exists D l, dl_rep D (pd_jobs st) l /\ map_Forall (fun _ j => job_ok j) D.

(** What the threads of the daemon do: a client is served while no other is,
    the printer thread makes a round, an entry of the directory is read. *)
Inductive pd_step (strerror : Z -> bytes) : pd -> pd -> Prop :=
| StClient st t fd wtp jp res buf wm s so c st' :
    pd_work st = mkDl 0 0 wm -> wtp <> 0 -> wm !! wtp = None -> jp <> 0 -> d_mem (pd_jobs st) !! jp = None ->
    w_in (pd_io st) !! fd = Some s -> w_to (pd_io st) !! fd = Some so ->
    client_thread strerror t fd wtp jp res buf st = Ok c st' -> pd_step strerror st st'
| StRound (A : Type) gai canon conf reread (cur : A * bytes) st m evs out st' : printer_round gai canon conf reread cur m evs st = Ok out st' -> pd_step strerror st st'
| StEntry st d_name jp st' :
    jp <> 0 -> d_mem (pd_jobs st) !! jp = None -> queue_entry d_name jp st = Ok tt st' -> pd_step strerror st st'.

Lemma wraps_range z : - 2 ^ 31 <= wraps 32 z < 2 ^ 31.
Proof. unfold wraps. pose proof (Z.mod_pos_bound (z + 2 ^ (32 - 1)) (2 ^ 32)). change (32 - 1) with 31 in *. lia. Qed.

Lemma fresh_datas (st : pd) D l jp : dl_rep D (pd_jobs st) l -> d_mem (pd_jobs st) !! jp = None -> D !! jp = None.
Proof. intros [<- _] H. unfold datas. by rewrite lookup_fmap, H. Qed.

Lemma client_wf strerror st t fd wtp jp res buf wm s so c st' :
  pd_wf st -> pd_work st = mkDl 0 0 wm -> wtp <> 0 -> wm !! wtp = None -> jp <> 0 -> d_mem (pd_jobs st) !! jp = None ->
  w_in (pd_io st) !! fd = Some s -> w_to (pd_io st) !! fd = Some so ->
  client_thread strerror t fd wtp jp res buf st = Ok c st' -> pd_wf st'.
Proof.
  intros (Hn & D & l & Hr & HD) Hw Hwtp Hwm Hjp Hmem Hin Hto E. destruct so as [so o].
  destruct (ref_read (Z.to_nat sizeof_printreq) (items false s)) as [[hdr x] rest] eqn:Href.
  destruct (client_run strerror t fd wtp jp res buf wm D l s st so o (pd_next st) hdr x rest) as (c' & st2 & E2 & _ & Hres & _); try done.
  { by eapply fresh_datas. }
  rewrite E in E2. injection E2 as <- <-. destruct Hres as [(_ & [Hj _] & Hn')|(_ & -> & (r & p & q & _ & Hd & Hu & Hjn & _) & Hn')].
  - split; [destruct Hn' as [-> | ->]; [done|apply nth_job_range]|]. exists D, l. by rewrite Hj.
  - unfold pd_wf. rewrite Hn'. split; [apply nth_job_range|]. exists (<[jp := mkPjob (pd_next st) r]> D), (l ++ [jp]). split; [done|].
    apply map_Forall_insert_2; [|done]. destruct (ref_read_full _ _ _ _ _ Href) as [[_ Hl]|[? _]]; [|done].
    assert (zlen hdr = sizeof_printreq) as Hz by (unfold zlen; rewrite Hl; done). destruct (host_req_ok hdr Hz) as (_ & _ & H1 & H2).
    unfold job_ok, JOBMAX in *. cbn [jobid req]. rewrite Hu, Hjn. split_and!; [lia|lia|done|done].
Qed.

Lemma round_wf {A} gai canon conf reread (cur : A * bytes) m evs st out st' : pd_wf st -> printer_round gai canon conf reread cur m evs st = Ok out st' -> pd_wf st'.
Proof.
  intros (Hn & D & l & Hr & HD) E. pose proof (round_run gai canon conf reread cur m evs D st l out st' Hr E) as H. destruct l as [|jp l].
  - destruct H as [_ ->]. split; [done|]. by exists D, [].
  - destruct H as (j & Hj & Hn' & _ & Hout). rewrite <- Hn' in Hn. split; [done|].
    destruct out; [done|destruct Hout as [Hd _]..]; eexists _, _; (split; [exact Hd|]); first [exact HD|by apply map_Forall_delete].
Qed.

Lemma entry_wf st d_name jp st' : pd_wf st -> jp <> 0 -> d_mem (pd_jobs st) !! jp = None -> queue_entry d_name jp st = Ok tt st' -> pd_wf st'.
Proof.
  intros (Hn & D & l & Hr & HD) H0 Hmem. unfold queue_entry. destruct (_ || _); [intros [= <-]; split; [done|by exists D, l]|].
  unfold guard_die. destruct (FILENMSZ <=? _); [done|]. unfold pbind at 1. cbn [pret].
  destruct (next_ev_run st) as (e & st1 & E1 & (Hj1 & Hn1 & Hw1 & _) & _ & _ & _). rewrite (pbind_ok _ _ _ _ _ E1). pstep.
  assert (pd_wf st1) as Hwf1 by (split; [by rewrite Hn1|]; exists D, l; by rewrite Hj1).
  assert (forall content, (do nr <- sys_fread (Z.to_nat sizeof_printreq) content;
      let got := match nr with Some b => b | None => [] end in
      if negb (zlen got =? sizeof_printreq) then
        run sys_unlink (lit "/var/spool/printer/reqs/" ++ cstr d_name); sys_unlink (lit "/var/spool/printer/data/" ++ cstr d_name)
      else on_jobs (add_job jp (dec_req got) (wraps 32 (atol d_name)))) st1 = Ok tt st' -> pd_wf st') as Hrd.
  2: { destruct (pd_fs st1 !! (lit "/var/spool/printer/reqs/" ++ cstr d_name)), e; try (by intros [= <-]); apply Hrd. }
  intros content. unfold pbind at 1. destruct (sys_fread (Z.to_nat sizeof_printreq) content st1) as [nr st2|] eqn:E2; [|done].
  destruct (fread_frames _ _ _ _ _ E2) as [(Hj2 & Hn2 & _) _]. cbv zeta. set (got := match nr with Some b => b | None => [] end).
  destruct (Z.eqb_spec (zlen got) sizeof_printreq) as [Hz|Hz]; cbn [negb].
  - destruct (add_job_run D (pd_jobs st2) l jp (dec_req got) (wraps 32 (atol d_name))) as (d & Ed & Hd);
      [by rewrite Hj2, Hj1|by eapply fresh_datas|done|].
    unfold on_jobs, zoom. rewrite Ed. intros [= <-]. split; [simpl; by rewrite Hn2, Hn1|]. eexists _, _. split; [exact Hd|].
    apply map_Forall_insert_2; [|done]. destruct (host_req_ok _ Hz) as (_ & _ & H1 & H2). split; [apply wraps_range|]. by split.
  - intros [= <-]. split; [simpl; by rewrite Hn2, Hn1|]. exists D, l. simpl. by rewrite Hj2, Hj1.
Qed.
