(* ===== verification/PrProps.v ===== *)
(** * The properties of the printer spooler (apue.3e/printer)

    From the print command over the spool directory to the printer. *)
From S2P Require Import Prelude Posix CString IoFd IoReadn IoGather Chain.
From S2P Require Import PrUtil PrReq PrJobs PrSpool PrSpoolThms PrIpp PrStat PrPrint PrPrintThms PrSubmit.

Open Scope prog_scope.

(** ** Accepting jobs *)

(** The daemon before a client with the socket 5: one job is waiting. *)
Definition demo_req : printreq := mkReq 3 0 (replicate 64 0) (replicate 256 0).
Definition demo_list : joblist := mkDl 100 100 {[100 := mkNode 0 0 (mkPjob 6 demo_req)]}.
Definition demo_pd (s : list revent) : pd :=
  mkPd (mkWorld {[5 := s]} {[5 := ([], [])]} 0) {[job_path := lit "7"]} [] demo_list 7 (mkDl 0 0 ∅) [].
Definition demo_res : printresp := mkResp 0 0 (replicate 512 0).
Definition demo_buf : bytes := replicate (Z.to_nat IOBUFSZ) 0.
Definition demo_sent : bytes := enc_req (mkReq (htonl 5) 0 (replicate 64 97) (replicate 256 98)) ++ lit "%!PS5".
Definition demo_pieces : list revent := [Data (hd 0 demo_sent) (take 200 (tl demo_sent)); Data (demo_sent !!! 201%nat) (drop 202 demo_sent)].

Lemma demo_list_rep : dl_rep {[100 := mkPjob 6 demo_req]} demo_list [100].
Proof.
  split; [vm_compute; reflexivity|]. split; [|unfold reverse|apply NoDup_singleton]; simpl; (split_and!; [done..|]); by exists 0.
Qed.

(** C18: a client is served whole or not at all.  Whatever the socket and
    the file system do, [client_thread] returns; it has closed the socket and
    left the list of workers; and either it has accepted the job, with the
    data file and the request file in the spool directory and the job at the
    end of the list under the number [n], or it has rejected it, the list is
    as before and neither file of [n] is new.  It accepts when the request
    header arrives whole and no call on a file fails, and sends the number.
    No other client is being served meanwhile. *)
Theorem client_atomic strerror t fd wtp jp res buf wm (D : gmap Z pjob) l s st so o hdr x rest :
  pd_work st = mkDl 0 0 wm -> wtp <> 0 -> wm !! wtp = None ->
  w_in (pd_io st) !! fd = Some s -> w_to (pd_io st) !! fd = Some (so, o) ->
  dl_rep D (pd_jobs st) l -> D !! jp = None -> jp <> 0 -> 1 <= pd_next st <= JOBMAX ->
  ref_read (Z.to_nat sizeof_printreq) (items false s) = (hdr, x, rest) ->
  let n := pd_next st in
  exists c st', client_thread strerror t fd wtp jp res buf st = Ok c st' /\ exited wm fd st st' /\
    (c = 1 /\ rejected n st st' \/
     c = 0 /\ x = Full /\ accepted n (host_req (dec_req hdr)) (until_end rest) D l jp buf st st' /\ pd_next st' = nth_job n 1) /\
    (x = Full -> pd_ev st = [] -> c = 0 /\ (so = [] -> exists so', w_to (pd_io st') !! fd = Some (so', o ++ enc_resp (accept_resp res n)))).
Proof.
  intros Hw Hwtp Hwm Hin Hto Hr Hjp Hjp0 Hn Href n.
  destruct (client_run strerror t fd wtp jp res buf wm D l s st so o n hdr x rest Hw Hwtp Hwm Hin Hto Hr Hjp Hjp0 eq_refl Hn Href) as (c & st' & E & Hx & Hres & Hev).
  exists c, st'. split_and!; try done. destruct Hres as [(-> & ? & _)|?]; auto.
Qed.

Lemma client_atomic_witness :
  exists c st', client_thread (fun _ => lit "error") 1 5 200 300 demo_res demo_buf (demo_pd demo_pieces) = Ok c st' /\
    c = 0 /\ accepted 7 (host_req (dec_req (take 328 demo_sent))) (until_end (Byte <$> lit "%!PS5")) {[100 := mkPjob 6 demo_req]} [100] 300 demo_buf (demo_pd demo_pieces) st'.
Proof.
  destruct (client_atomic (fun _ => lit "error") 1 5 200 300 demo_res demo_buf ∅ {[100 := mkPjob 6 demo_req]} [100] demo_pieces
    (demo_pd demo_pieces) [] [] (take 328 demo_sent) Full (Byte <$> lit "%!PS5")) as (c & st' & E & _ & Hres & Hev).
  1: reflexivity. 1: discriminate. 1-3: reflexivity. 1: exact demo_list_rep. 1: reflexivity. 1: discriminate. 1: split; discriminate.
  1: vm_compute; reflexivity.
  destruct (Hev eq_refl eq_refl) as [-> _]. exists 0, st'. split_and!; [exact E|reflexivity|].
  destruct Hres as [[Hc _]|(_ & _ & H & _)]; [lia|]. exact H.
Defined.

(** C19: the print command and the daemon together.  What [submit_file]
    writes, delivered to [client_thread] in pieces of any size and followed
    by silence, becomes a job with the content of the file, the name of the
    user (cut to 63 bytes), the name of the file (its last 251 bytes after
    dots when it is longer than 255) and its size in 32 bits; the option -t
    is kept.  The response, delivered to the command in pieces of any size,
    makes it print the number of that job. *)
Theorem submit_accepted r pw fname nbytes text content fd csock strerror t sfd wtp jp res buf wm (D : gmap Z pjob) l s l0 st :
  zlen (usernm r) = USERNM_MAX -> zlen (jobnm r) = JOBNM_MAX -> nonul fname -> (forall x, pw = Some x -> nonul x) -> fd <> csock ->
  pd_work st = mkDl 0 0 wm -> wtp <> 0 -> wm !! wtp = None -> w_in (pd_io st) !! sfd = Some s -> w_to (pd_io st) !! sfd = Some ([], []) ->
  dl_rep D (pd_jobs st) l -> D !! jp = None -> jp <> 0 -> 1 <= pd_next st <= JOBMAX -> pd_ev st = [] -> zlen (msg res) = MSGLEN_MAX ->
  items false s = (Byte <$> wire r pw fname nbytes text content) ++ Err ETIME :: l0 ->
  let n := pd_next st in
  exists st' so' q, client_thread strerror t sfd wtp jp res buf st = Ok 0 st' /\
    w_to (pd_io st') !! sfd = Some (so', enc_resp (accept_resp res n)) /\
    pd_fs st' !! data_path n = Some content /\ pd_fs st' !! req_path n = Some (enc_req q) /\ dl_rep (<[jp := mkPjob n q]> D) (pd_jobs st') (l ++ [jp]) /\
    cstr (usernm q) = user_name pw /\ cstr (jobnm q) = job_name fname /\ size q = wrapu 32 nbytes /\ (text = true -> is_text q = true) /\
    forall w sf sr more, w_in w !! fd = Some sf -> items false sf = Byte <$> content -> w_to w !! csock = Some ([], []) ->
      w_in w !! csock = Some sr -> items false sr = (Byte <$> enc_resp (accept_resp res n)) ++ more ->
      exists w', submit_file r pw fd csock fname nbytes text w = Ok (JobId n) w' /\ w_to w' !! csock = Some ([], wire r pw fname nbytes text content).
Proof.
  intros Hu Hj Hfn Hpw Hne Hw Hwtp Hwm Hin Hto Hr Hjp Hjp0 Hn Hev Hmsg Hi n.
  pose proof (build_ok r pw fname nbytes text Hu Hj Hfn Hpw) as Hok. set (R := build_req r pw fname nbytes text) in *.
  assert (length (enc_req R) = Z.to_nat sizeof_printreq) as Hlen by (pose proof (enc_req_length R Hok) as H; unfold zlen in H; lia).
  assert (ref_read (Z.to_nat sizeof_printreq) (items false s) = (enc_req R, Full, (Byte <$> content) ++ Err ETIME :: l0)) as Href.
  { rewrite Hi. unfold wire. fold R. rewrite fmap_app, <- app_assoc, ref_read_app, Hlen, Nat.sub_diag by lia. cbn [ref_read]. by rewrite app_nil_r. }
  destruct (client_run strerror t sfd wtp jp res buf wm D l s st [] [] n _ _ _ Hw Hwtp Hwm Hin Hto Hr Hjp Hjp0 eq_refl Hn Href) as (c & st' & E & _ & Hres & Hacc).
  destruct (Hacc eq_refl Hev) as [-> Hout]. destruct (Hout eq_refl) as (so' & Ht). clear Hacc Hout.
  destruct Hres as [[Hc _]|(_ & _ & (q & p & x & Hfs & Hd & Hqu & Hqj & Hqs & _ & _ & Hqf) & _)]; [lia|].
  rewrite until_end_app in Hfs. simpl in Hfs. rewrite app_nil_r in Hfs.
  pose proof (dec_enc_req R [] Hok) as Hde. rewrite app_nil_r in Hde. rewrite Hde in *. unfold host_req in *. cbn [usernm jobnm size flags] in *.
  destruct (build_user r pw fname nbytes text Hu Hpw) as [_ Hcu]. destruct (build_job r pw fname nbytes text Hj Hfn) as [_ Hcj].
  exists st', so', q. split_and!; try done.
  - rewrite Hfs, lookup_insert_ne, lookup_insert_eq by (intros X; symmetry in X; by apply paths_differ in X). done.
  - rewrite Hfs. apply lookup_insert_eq.
  - by rewrite Hqu.
  - by rewrite Hqj.
  - rewrite Hqs. unfold R, build_req. cbn [size]. apply ntohl_htonl. unfold wrapu. by apply Z.mod_pos_bound.
  - intros ->. assert (flags q = 1) as Hf; [|unfold is_text; by rewrite Hf]. rewrite Hqf. unfold R, build_req. cbn [flags].
    change (ntohl (htonl PR_TEXT)) with 1. unfold text_flags. destruct p; [done|]. by destruct (strneq _ _ _).
  - intros w sf sr more Hsf Hif Hcto Hcin Hsr.
    destruct (submit_run fd csock r pw fname nbytes text Hu Hj Hfn Hpw w sf content sr (accept_resp res n) more) as (w' & E' & Ht'); try done.
    + split_and!; try done; [apply htonl_range..|]. unfold accept_resp. cbn [msg].
      destruct (strcpy_run (msg res) (lit "request ID " ++ fmt_d n)) as [-> _]; [|done].
      destruct (entry_name n Hn) as (_ & _ & Hl & _). rewrite cstr_id; [rewrite zlen_app, Hmsg; change (zlen (lit "request ID ")) with 11; unfold MSGLEN_MAX; lia|].
      apply nonul_app; [by apply lit_nonul|]. rewrite fmt_d_dec by lia. apply dec_nonul. lia.
    + exists w'. split; [|done]. rewrite E'. unfold accept_resp. cbn [retcode r_jobid]. rewrite Z.eqb_refl. do 2 f_equal.
      unfold JOBMAX in Hn. unfold n, wrapu. rewrite Z.mod_small by lia. apply ntohl_htonl. lia.
Qed.

Definition demo_wire : bytes := wire (mkReq 0 0 (replicate 64 1) (replicate 256 1)) (Some (lit "ann")) (lit "a.ps") 5 true (lit "%!PS5").
Definition demo_script : list revent := [Data (hd 0 demo_wire) (take 9 (tl demo_wire)); Data (demo_wire !!! 10%nat) (drop 11 demo_wire); Fail ETIME].
Definition demo_reply : bytes := enc_resp (accept_resp demo_res 7).
Definition demo_client : world :=
  mkWorld {[3 := [Data 37 (lit "!PS5")]; 4 := [Data (hd 0 demo_reply) (tl demo_reply)]]} {[4 := ([], [])]} 0.

Lemma submit_accepted_witness :
  exists st' q w', client_thread (fun _ => lit "error") 1 5 200 300 demo_res demo_buf (demo_pd demo_script) = Ok 0 st' /\
    pd_fs st' !! data_path 7 = Some (lit "%!PS5") /\ cstr (usernm q) = lit "ann" /\
    submit_file (mkReq 0 0 (replicate 64 1) (replicate 256 1)) (Some (lit "ann")) 3 4 (lit "a.ps") 5 true demo_client = Ok (JobId 7) w'.
Proof.
  destruct (submit_accepted (mkReq 0 0 (replicate 64 1) (replicate 256 1)) (Some (lit "ann")) (lit "a.ps") 5 true (lit "%!PS5") 3 4
    (fun _ => lit "error") 1 5 200 300 demo_res demo_buf ∅ {[100 := mkPjob 6 demo_req]} [100] demo_script [] (demo_pd demo_script))
    as (st' & so' & q & E & _ & Hd & _ & _ & Hu & _ & _ & _ & Hc).
  1-2: reflexivity. 1: by apply lit_nonul. 1: intros x [= <-]; by apply lit_nonul. 1: discriminate. 1: reflexivity. 1: discriminate. 1-3: reflexivity.
  1: exact demo_list_rep. 1: reflexivity. 1: discriminate. 1: split; discriminate. 1-2: reflexivity. 1: vm_compute; reflexivity.
  destruct (Hc demo_client [Data 37 (lit "!PS5")] [Data (hd 0 demo_reply) (tl demo_reply)] []) as (w' & E' & _);
    [reflexivity|vm_compute; reflexivity|reflexivity|reflexivity|vm_compute; reflexivity|].
  exists st', q, w'. split_and!; [exact E|exact Hd|rewrite Hu; reflexivity|exact E'].
Defined.

(** ** Numbers, restarts and workers *)

(** C20: the data of the daemon keep their type.  However clients are served
    (one at a time), jobs printed, deferred and canceled, and entries of the
    spool directory read, the pending jobs stay a doubly linked list of
    allocated nodes, each with a 32-bit number and names in arrays of the
    declared sizes, and the next number is a positive 32-bit integer. *)
Theorem printd_wf strerror st st' : rtc (pd_step strerror) st st' -> pd_wf st -> pd_wf st'.
Proof.
  induction 1 as [|a b c Hab _ IH]; [done|]. intros Ha. apply IH. clear IH.
  destruct Hab; eauto using client_wf, round_wf, entry_wf.
Qed.

Lemma printd_wf_witness :
  exists c st', client_thread (fun _ => lit "error") 1 5 200 300 demo_res demo_buf (demo_pd demo_script) = Ok c st' /\ pd_wf st'.
Proof.
  destruct (client_thread (fun _ => lit "error") 1 5 200 300 demo_res demo_buf (demo_pd demo_script)) as [c st'|why st'] eqn:E.
  2: exfalso; revert E; vm_compute; discriminate.
  exists c, st'. split; [reflexivity|]. apply (printd_wf (fun _ => lit "error") (demo_pd demo_script)).
  - apply rtc_once. apply (StClient _ _ 1 5 200 300 demo_res demo_buf ∅ demo_script ([], []) c); first [exact E|reflexivity|discriminate].
  - split; [split; discriminate|]. exists {[100 := mkPjob 6 demo_req]}, [100]. split; [exact demo_list_rep|]. apply map_Forall_singleton.
    unfold job_ok, demo_req. cbn [jobid req usernm jobnm]. split; [lia|]. split; reflexivity.
Defined.

(** C21: a restart finds the jobs again.  When the spool directory has a
    request file for each of the jobs [es], [build_qonstart] of a daemon that
    starts puts exactly these jobs on the list, in the order of the directory,
    with the numbers and requests they were accepted with, and leaves the
    files as they are. *)
Theorem restart_restores es st dots :
  pd_jobs st = mkDl 0 0 ∅ -> pd_ev st = [] -> Forall (entry_ok (pd_fs st)) es -> NoDup (e_jp <$> es) ->
  Forall (fun d => d = lit "." \/ d = lit "..") dots ->
  exists st', build_qonstart (Some (((fun d => (d, 0)) <$> dots) ++ ((fun e => (fmt_d (e_id e), e_jp e)) <$> es))) st = Ok tt st' /\
    dl_rep (loaded ∅ es) (pd_jobs st') (e_jp <$> es) /\ pd_fs st' = pd_fs st /\
    forall e, e ∈ es -> loaded ∅ es !! e_jp e = Some (mkPjob (e_id e) (e_req e)).
Proof.
  intros Hj Hev Hes Hnd Hdots. unfold build_qonstart. induction Hdots as [|d dots Hd _ IH].
  - destruct (queue_entries_run es ∅ st [] ltac:(rewrite Hj; split; [apply rep_empty|apply dlist_nil]) Hev Hes Hnd) as (d & E & Hd).
    { by apply Forall_forall. }
    eexists. split; [exact E|]. split_and!; [done|done|]. intros e He. by apply loaded_lookup.
  - csimpl. assert (queue_entry d 0 st = Ok tt st) as E by (by destruct Hd as [-> | ->]).
    rewrite (pbind_ok _ _ _ _ _ E). exact IH.
Qed.

Definition demo_entries : list entry := [(12, demo_req, 500); (7, demo_req, 300)].

Lemma restart_restores_witness :
  let fs := <[req_path 7 := enc_req demo_req]> (<[req_path 12 := enc_req demo_req]> ∅) in
  let st := mkPd (mkWorld ∅ ∅ 0) fs [] (mkDl 0 0 ∅) 13 (mkDl 0 0 ∅) [] in
  exists st', build_qonstart (Some [(lit ".", 0); (lit "..", 0); (lit "12", 500); (lit "7", 300)]) st = Ok tt st' /\
    dl_rep (loaded ∅ demo_entries) (pd_jobs st') [500; 300].
Proof.
  intros fs st. destruct (restart_restores demo_entries st [lit "."; lit ".."]) as (st' & E & Hd & _); [reflexivity..| | | |].
  - repeat constructor; try (done || discriminate); vm_compute; (reflexivity || discriminate).
  - apply (@bool_decide_eq_true_1 _ (NoDup_dec _)). reflexivity.
  - apply Forall_cons_2; [by left|]. apply Forall_cons_2; [by right|done].
  - exists st'. split; [exact E|exact Hd].
Defined.

(** A restart can give the number of a pending job again.  The job file
    is written only when the printer thread takes a job, so when it has the
    number [n] and a client is accepted as job [n], the daemon that is
    started next reads [n] from the file and gives it to its first client,
    although the request file of the pending job [n] is there. *)
Theorem job_number_reused strerror t fd wtp jp res buf wm (D : gmap Z pjob) l s st so o hdr rest junk :
  pd_work st = mkDl 0 0 wm -> wtp <> 0 -> wm !! wtp = None ->
  w_in (pd_io st) !! fd = Some s -> w_to (pd_io st) !! fd = Some (so, o) ->
  dl_rep D (pd_jobs st) l -> D !! jp = None -> jp <> 0 -> 1 <= pd_next st <= JOBMAX -> pd_ev st = [] ->
  ref_read (Z.to_nat sizeof_printreq) (items false s) = (hdr, Full, rest) ->
  let n := pd_next st in
  pd_fs st !! job_path = Some (dec n) -> zlen junk = FILENMSZ ->
  exists st' n', client_thread strerror t fd wtp jp res buf st = Ok 0 st' /\
    pd_fs st' !! data_path n = Some (until_end rest) /\ is_Some (pd_fs st' !! req_path n) /\
    init_request junk (default [] (pd_fs st' !! job_path)) false = inl n' /\ get_newjobno n' = Ok n (nth_job n 1).
Proof.
  intros Hw Hwtp Hwm Hin Hto Hr Hjp Hjp0 Hn Hev Href n Hfile Hjunk.
  destruct (client_run strerror t fd wtp jp res buf wm D l s st so o n hdr Full rest Hw Hwtp Hwm Hin Hto Hr Hjp Hjp0 eq_refl Hn Href) as (c & st' & E & _ & Hres & Hacc).
  destruct (Hacc eq_refl Hev) as [-> _]. destruct Hres as [[Hc _]|(_ & _ & (q & p & x & Hfs & _) & _)]; [lia|].
  exists st', n. split_and!; [done|..].
  - rewrite Hfs, lookup_insert_ne, lookup_insert_eq by (intros X; symmetry in X; by apply paths_differ in X). done.
  - rewrite Hfs, lookup_insert_eq. eauto.
  - assert (forall i, req_path i <> job_path /\ data_path i <> job_path) as Hne.
    { intros i. split; intros X; apply (f_equal (take 20)) in X; vm_compute in X; discriminate. }
    rewrite Hfs, !lookup_insert_ne by apply Hne. rewrite Hfile. by apply init_request_dec.
  - pose proof (get_newjobno_run n 0) as H. by rewrite nth_job_0 in H.
Qed.

Lemma job_number_reused_witness :
  exists st' n', client_thread (fun _ => lit "error") 1 5 200 300 demo_res demo_buf (demo_pd demo_pieces) = Ok 0 st' /\
    is_Some (pd_fs st' !! req_path 7) /\ init_request (replicate 64 32) (default [] (pd_fs st' !! job_path)) false = inl n' /\
    get_newjobno n' = Ok 7 (nth_job 7 1).
Proof.
  destruct (job_number_reused (fun _ => lit "error") 1 5 200 300 demo_res demo_buf ∅ {[100 := mkPjob 6 demo_req]} [100] demo_pieces
    (demo_pd demo_pieces) [] [] (take 328 demo_sent) (Byte <$> lit "%!PS5") (replicate 64 32)) as (st' & n' & E & _ & Hq & Hi & Hg).
  1: reflexivity. 1: discriminate. 1-3: reflexivity. 1: exact demo_list_rep. 1: reflexivity. 1: discriminate. 1: split; discriminate. 1: reflexivity.
  1: vm_compute; reflexivity. 1: vm_compute; reflexivity. 1: reflexivity.
  exists st', n'. split_and!; [exact E|exact Hq|exact Hi|exact Hg].
Defined.

(** Workers are lost.  [add_worker] does not make a second worker the
    head of the list.  So when two clients are served, [kill_workers] cancels
    only the first, [client_cleanup] of the second does not find it and
    leaves its socket open; and when the first has exited [workers] points to
    its freed structure, which the next [kill_workers] and [add_worker]
    follow. *)
Theorem workers_lost mem a b c ta tb tc fa fb fc :
  a <> 0 -> b <> 0 -> c <> 0 -> a <> b -> c <> a -> ta <> tb ->
  exists d1 d2 d3, add_worker a ta fa (mkDl 0 0 mem) = Ok true d1 /\ add_worker b tb fb d1 = Ok true d2 /\
    kill_workers d2 = Ok [ta] d2 /\ client_cleanup tb d2 = Ok None d2 /\ client_cleanup ta d2 = Ok (Some fa) d3 /\
    kill_workers d3 = Abort "invalid pointer" d3 /\ exists d4, add_worker c tc fc d3 = Abort "invalid pointer" d4.
Proof.
  intros Ha Hb Hc Hab Hca Ht. exists (mkDl a 0 (one_mem mem a ta fa)), (mkDl a 0 (two_mem mem a b ta tb fa fb)).
  destruct (cleanup_first mem a b ta tb fa fb) as (d3 & E3 & Hh & Hm); [congruence..|]. exists d3.
  split_and!; [by apply add_first|by apply add_second; congruence|by apply kill_first|by apply cleanup_second|done| |].
  - apply dangling_kill; rewrite Hh; done.
  - apply dangling_add; rewrite ?Hh; congruence.
Qed.

Lemma workers_lost_witness :
  exists d1 d2 d3, add_worker 8 1 4 (mkDl 0 0 ∅) = Ok true d1 /\ add_worker 16 2 5 d1 = Ok true d2 /\
    kill_workers d2 = Ok [1] d2 /\ client_cleanup 2 d2 = Ok None d2 /\ client_cleanup 1 d2 = Ok (Some 4) d3 /\
    kill_workers d3 = Abort "invalid pointer" d3 /\ exists d4, add_worker 24 3 6 d3 = Abort "invalid pointer" d4.
Proof. apply (workers_lost ∅ 8 16 24 1 2 3 4 5 6); discriminate. Defined.

(** ** Printing *)

(** C22: every round of [printer_thread], whatever the network, the printer
    and the file system do.  With no job it waits and changes nothing.  Else
    the job at the head of the list is printed (it is taken off the list and
    both its files are removed) only if the whole request, that is the HTTP
    header with the right Content-Length, the IPP header with the number of
    the job, a backspace before plain text, and the data file, went to the
    connection that was made, and [printer_status] accepted the answer, which
    for a complete answer in one piece means a status of success for this
    job.  It is deferred (it stays at the head of the list, with its files)
    only if there was no connection, not all of the request was sent, the
    data file could not be read, or [printer_status] did not accept the
    answer.  It is canceled (it is taken off the list, and its files stay)
    only if the data file does not exist or an operation on it failed.  The
    other jobs and files stay, but for the file with the next number, and the
    connection is closed.  If the daemon ends in the round, because the
    configuration is wrong, the headers do not fit their buffers or
    [printer_status] does not return, all files are still there.  The buffers
    have their declared sizes and the name of the printer is a C string. *)
Theorem printer_round_safe {A} gai canon conf reread (cur : A * bytes) m evs (D : gmap Z pjob) st l :
  dl_rep D (pd_jobs st) l -> zlen (m_ibuf m) = IBUFSZ -> zlen (m_hbuf m) = HBUFSZ ->
  (forall p name, check_config gai canon conf reread cur = inl (p, name) -> nonul name) ->
  match l with
  | [] => printer_round gai canon conf reread cur m evs st = Ok Waiting st
  | jp :: l => exists j, D !! jp = Some j /\ round_end gai canon conf reread cur m evs D jp j l st (printer_round gai canon conf reread cur m evs st)
  end.
Proof. apply round_result. Qed.

(** A resolver that gives the name itself; the configuration names lp. *)
Definition demo_gai (host service : bytes) : bytes + Z := inl host.
Definition demo_conf : option bytes := Some (lit "printer lp" ++ [CH_NEWLINE]).
Definition demo_mem : mem := mkMem (replicate 512 0) (replicate 512 0) demo_buf demo_buf 300.
Definition demo_spool : pd :=
  mkPd (mkWorld ∅ ∅ 0) (<[data_path 6 := lit "abc"]> (<[req_path 6 := enc_req demo_req]> ∅)) [] demo_list 7 (mkDl 0 0 ∅) [].

(** A job is printed.  When the printer accepts the connection after at
    most seven refusals, takes every byte and answers in one piece, the round
    sends the HTTP header, the IPP header with the number of the job, a
    backspace before plain text, and the data file, where Content-Length is
    the number of bytes that follow the HTTP header; when the status of the
    answer is in the class of successes and its number is that of the job, the
    job is done and both files are gone, else it is deferred.  The headers
    have to fit their buffers and the name of the printer in [str]. *)
Theorem printer_round_prints {A} gai canon conf reread (cur : A * bytes) p m name j content fd r h body s st (D : gmap Z pjob) jp l rs evs :
  check_config gai canon conf reread cur = inl (p, name) -> zlen (m_ibuf m) = IBUFSZ -> zlen (m_hbuf m) = HBUFSZ -> nonul name -> zlen (printer_uri name) < 64 ->
  zlen (ipp_part name (jobid j) (req j)) <= IBUFSZ -> zlen (http_part name (jobid j) (req j) content) <= HBUFSZ -> reply_ok m r h body ->
  dl_rep D (pd_jobs st) (jp :: l) -> D !! jp = Some j -> pd_ev st = [] -> pd_fs st !! data_path (jobid j) = Some content ->
  w_to (pd_io st) !! fd = Some ([], []) -> w_in (pd_io st) !! fd = Some (script_of r s) ->
  (length rs <= 7)%nat -> Forall (fun e => exists f x, e = Refused f x) rs ->
  exists out st', printer_round gai canon conf reread cur m (rs ++ Connected fd :: evs) st = Ok out st' /\
    out = (if verdict (jobid j) body =? 0 then Deferred else Printed) /\ round_post D jp j l st out st' /\
    w_to (pd_io st') !! fd = Some ([],
      http_header name (zlen (ipp_part name (jobid j) (req j) ++ document (req j) content)) ++
      ipp_bytes (jobid j) name (cstr (usernm (req j))) (cstr (jobnm (req j))) (is_text (req j)) ++
      (if is_text (req j) then [8] else []) ++ content).
Proof. intros. by eapply round_prints_run. Qed.

Definition demo_body : bytes := [1; 1; 0; 0; 0; 0; 0; 6; 3].
Definition demo_resp (rest : bytes) : resp :=
  mkRs (lit "HTTP/1.1") (lit " ") (lit "200") 32 (lit "OK") 13 [10] (lit "Content-Length:") (lit " ") (lit "9") 13 rest.

Lemma demo_resp_ok rest : rs_ok (demo_resp rest).
Proof.
  constructor; try reflexivity; try (split; [|discriminate]); try (by repeat constructor).
  intros k Hk. simpl in Hk. destruct k as [|[|k]]; [| |lia]; intros [t Ht]; discriminate.
Qed.

Lemma demo_reply_ok : reply_ok demo_mem (demo_resp (TERM ++ demo_body)) [] demo_body.
Proof.
  constructor; try reflexivity; try (vm_compute; split; discriminate); try (vm_compute; discriminate).
  - apply demo_resp_ok.
  - intros k Hk. simpl in Hk. lia.
  - apply Nat.leb_le. reflexivity.
  - apply Nat.leb_le. vm_compute. reflexivity.
Qed.

Lemma printer_round_prints_witness :
  let st := set_io (mkWorld {[9 := script_of (demo_resp (TERM ++ demo_body)) []]} {[9 := ([], [])]} 0) demo_spool in
  exists out st', printer_round demo_gai Some demo_conf true ([], []) demo_mem [Refused 8 111; Connected 9] st = Ok out st' /\ out = Printed /\ pd_fs st' !! data_path 6 = None.
Proof.
  intros st. destruct (printer_round_prints demo_gai Some demo_conf true ([], []) (lit "lp") demo_mem (lit "lp") (mkPjob 6 demo_req) (lit "abc") 9 (demo_resp (TERM ++ demo_body)) [] demo_body [] st
    {[100 := mkPjob 6 demo_req]} 100 [] [Refused 8 111] []) as (out & st' & E & Ho & Hp & _).
  1: vm_compute; reflexivity. 1-2: reflexivity. 1: by apply lit_nonul. 1-3: vm_compute; (reflexivity || discriminate). 1: exact demo_reply_ok. 1: exact demo_list_rep.
  1-2: reflexivity. 1: vm_compute; reflexivity. 1-2: reflexivity. 1: apply Nat.leb_le; reflexivity. 1: repeat constructor; by exists 8, 111.
  exists out, st'. split; [exact E|]. assert (out = Printed) as Ho' by (rewrite Ho; vm_compute; reflexivity). split; [exact Ho'|].
  rewrite Ho' in Hp. destruct Hp as (_ & _ & _ & ->). rewrite lookup_delete_ne by (intros X; symmetry in X; by apply paths_differ in X). apply lookup_delete_eq.
Defined.

(** The printer refuses once, takes the request and reports success. *)
Definition demo_printing : pd := set_io (mkWorld {[9 := script_of (demo_resp (TERM ++ demo_body)) []]} {[9 := ([], [])]} 0) demo_spool.

Lemma printer_round_safe_witness :
  exists st', printer_round demo_gai Some demo_conf true ([], []) demo_mem [Refused 8 111; Connected 9] demo_printing = Ok Printed st' /\
    round_end demo_gai Some demo_conf true ([], []) demo_mem [Refused 8 111; Connected 9] {[100 := mkPjob 6 demo_req]} 100 (mkPjob 6 demo_req) [] demo_printing (Ok Printed st').
Proof.
  destruct (printer_round_safe demo_gai Some demo_conf true ([], []) demo_mem [Refused 8 111; Connected 9] {[100 := mkPjob 6 demo_req]} demo_printing [100]) as (j & Hj & He);
    [exact demo_list_rep|reflexivity|reflexivity|intros p name E; vm_compute in E; injection E as <- <-; by repeat constructor|].
  rewrite lookup_singleton_eq in Hj. injection Hj as <-.
  destruct (printer_round demo_gai Some demo_conf true ([], []) demo_mem [Refused 8 111; Connected 9] demo_printing) as [out st'|why st'] eqn:E; [|exfalso; revert E; vm_compute; discriminate].
  assert (out = Printed) as -> by (apply (f_equal out_val) in E; vm_compute in E; by injection E as <-). exists st'. split; [reflexivity|exact He].
Defined.

(** [printer_status] does not return when the end of the HTTP header is
    not in the first read.  The search for it stops two bytes before the end
    of the data, but reads more only when it has reached the end; so for a
    response of which the Content-Length has arrived and the empty line has
    not, no amount of fuel is enough, and nothing is read any more. *)
Theorem printer_status_spins junk fd jobid r w s buf c bs fuel :
  rs_ok r -> 200 <= atoi (rs_code r) <= 299 -> w_in w !! fd = Some (Data c bs :: s) -> c :: bs = rs_bytes r ->
  zlen buf = IOBUFSZ -> zlen (rs_bytes r) <= IOBUFSZ ->
  rs_rest r <> [] -> (forall k, ~ (TERM `prefix_of` drop k (rs_rest r))) -> (length (rs_bytes r) < fuel)%nat ->
  printer_status junk fuel fd jobid buf w = Abort "fuel" (set_in fd s w).
Proof. intros. by eapply printer_status_spins_run. Qed.

Lemma printer_status_spins_witness :
  let w := mkWorld {[9 := script_of (demo_resp [10]) [Data 13 [10]; Data 1 (tl demo_body)]]} ∅ 0 in
  printer_status demo_buf 1000 9 6 demo_buf w = Abort "fuel" (set_in 9 [Data 13 [10]; Data 1 (tl demo_body)] w).
Proof.
  intros w. apply (printer_status_spins demo_buf 9 6 (demo_resp [10]) w [Data 13 [10]; Data 1 (tl demo_body)] demo_buf 72 (tl (rs_bytes (demo_resp [10]))) 1000).
  1: apply demo_resp_ok. 1: vm_compute; split; discriminate. 1-3: reflexivity. 1: vm_compute; discriminate. 1: discriminate.
  - intros [|k] [t Ht]; [discriminate|]. by destruct k.
  - apply Nat.ltb_lt. vm_compute. reflexivity.
Defined.

(** The IPP header.  When the name of the printer fits in [str] and the
    header in [ibuf], [build_ipp] stores exactly the bytes of the request and
    returns their number, which is 160 and the lengths of the printer, the
    user, the job and the format; and a reader of attributes as the protocol
    defines them finds the six attributes with their values, and the document
    right after them. *)
Theorem ipp_header jobid name r buf doc :
  nonul name -> zlen buf = IBUFSZ -> zlen (printer_uri name) < 64 ->
  let out := ipp_bytes jobid name (cstr (usernm r)) (cstr (jobnm r)) (is_text r) in
  zlen out <= IBUFSZ ->
  exists buf', build_ipp jobid name r buf = Ok (zlen out) buf' /\ take (length out) buf' = out /\
    zlen out = 160 + zlen name + zlen (cstr (usernm r)) + zlen (cstr (jobnm r)) + (if is_text r then 10 else 22) /\
    parse_attrs 8 (drop 9 (take (length out) buf' ++ doc)) = Some (ipp_attrs name (cstr (usernm r)) (cstr (jobnm r)) (is_text r), doc).
Proof.
  intros Hn Hb Hu out Hfit. destruct (build_ipp_run jobid name r Hn buf Hb Hu Hfit) as (buf' & E & [Hw _] & _). fold out in E, Hw.
  exists buf'. rewrite Hw. pose proof (ipp_length jobid name (cstr (usernm r)) (cstr (jobnm r)) (is_text r)) as Hl. fold out in Hl. rewrite (cstr_id name) in Hl by done.
  split_and!; [done|done|done|]. unfold IBUFSZ in Hfit. pose proof (zlen_nonneg name). pose proof (zlen_nonneg (cstr (usernm r))). pose proof (zlen_nonneg (cstr (jobnm r))).
  apply parse_ipp; destruct (is_text r); lia.
Qed.

Lemma ipp_header_witness :
  exists buf', build_ipp 6 (lit "lp") demo_req (replicate 512 1) = Ok 184 buf' /\
    exists out, take 184 buf' = out /\ parse_attrs 8 (drop 9 (out ++ lit "%!PS")) = Some (ipp_attrs (lit "lp") [] [] false, lit "%!PS").
Proof.
  destruct (ipp_header 6 (lit "lp") demo_req (replicate 512 1) (lit "%!PS")) as (buf' & E & Ht & _ & Hp);
    [by apply lit_nonul|reflexivity|reflexivity|vm_compute; discriminate|].
  exists buf'. split; [exact E|]. eexists. split; [exact Ht|]. rewrite Ht in Hp. exact Hp.
Defined.

(** Names of the greatest length make the header longer than [ibuf]. *)
Definition long_req : printreq := mkReq 0 0 (replicate 63 97 ++ [NUL]) (replicate 255 98 ++ [NUL]).

Lemma ipp_overflow :
  exists buf', build_ipp 1 (replicate 52 99) long_req (replicate 512 0) = Abort "store past the end of the buffer" buf'.
Proof. eexists. vm_compute. reflexivity. Qed.
