(* ===== verification/Dtree.v ===== *)
(** * The directory watcher (tlpi-dist/inotify/inotify_dtree.c)

    The program keeps a cache of the directories below some roots, with the
    inotify watch of each, and follows the events of the kernel.  The kernel
    side of the state has the directories with their inodes, the watches of
    the inotify instance and its queue of events; [nftw] is a parameter.
    Log output is left out. *)
From S2P Require Import Prelude CString.

Open Scope prog_scope.

Definition PATH_MAX : Z := 4096.

(** ** The kernel *)

(** [struct inotify_event]; the name is the string in it, [e_len] the size
    of its field. *)
Record event := mkEv { e_wd : Z; e_mask : Z; e_cookie : Z; e_len : Z; e_name : bytes }.

Definition sizeof_event : Z := 16.
Definition NAME_MAX : Z := 255.
Definition INOTIFY_READ_BUF_LEN : Z := 100 * (sizeof_event + NAME_MAX + 1).

Definition IN_MOVED_FROM : Z := 64.
Definition IN_MOVED_TO : Z := 128.
Definition IN_CREATE : Z := 256.
Definition IN_DELETE_SELF : Z := 1024.
Definition IN_MOVE_SELF : Z := 2048.
Definition IN_UNMOUNT : Z := 8192.
Definition IN_Q_OVERFLOW : Z := 16384.
Definition IN_IGNORED : Z := 32768.
Definition IN_ONLYDIR : Z := 16777216.
Definition IN_ISDIR : Z := 1073741824.

Definition has (mask bit : Z) : bool := negb (Z.land mask bit =? 0).

(** Directories and other files by their paths; watches by the inode: the
    descriptor and the mask; descriptors are given in increasing order. *)
Record kern := mkK {
  k_dirs : gmap bytes Z; k_files : gset bytes; k_watch : gmap Z (Z * Z); k_next : Z; k_max : nat; k_queue : list event
}.

Definition set_watch (w : gmap Z (Z * Z)) (k : kern) : kern := mkK (k_dirs k) (k_files k) w (k_next k) (k_max k) (k_queue k).
Definition set_knext (n : Z) (k : kern) : kern := mkK (k_dirs k) (k_files k) (k_watch k) n (k_max k) (k_queue k).
Definition set_queue (q : list event) (k : kern) : kern := mkK (k_dirs k) (k_files k) (k_watch k) (k_next k) (k_max k) q.

(** ** The program *)

(** [struct watch]; [wd] is -1 in a slot that is not used. *)
Record watch := mkWatch { wd : Z; path : bytes }.

(** [cacheSize] is the length of [wlCache]. *)
Record dt := mkDt {
  wlCache : list watch; rootDirPaths : list (option bytes); ignoreRootDirs : Z; dirCnt : Z;
  abortOnCacheProblem : bool; checkCache : bool; dumpCache : bool; verboseMask : Z; dt_kern : kern
}.

Definition set_cache (c : list watch) (s : dt) : dt :=
  mkDt c (rootDirPaths s) (ignoreRootDirs s) (dirCnt s) (abortOnCacheProblem s) (checkCache s) (dumpCache s) (verboseMask s) (dt_kern s).
Definition set_roots (r : list (option bytes)) (s : dt) : dt :=
  mkDt (wlCache s) r (ignoreRootDirs s) (dirCnt s) (abortOnCacheProblem s) (checkCache s) (dumpCache s) (verboseMask s) (dt_kern s).
Definition set_ignored (n : Z) (s : dt) : dt :=
  mkDt (wlCache s) (rootDirPaths s) n (dirCnt s) (abortOnCacheProblem s) (checkCache s) (dumpCache s) (verboseMask s) (dt_kern s).
Definition set_dirCnt (n : Z) (s : dt) : dt :=
  mkDt (wlCache s) (rootDirPaths s) (ignoreRootDirs s) n (abortOnCacheProblem s) (checkCache s) (dumpCache s) (verboseMask s) (dt_kern s).
Definition set_flags (chk dump : bool) (v : Z) (s : dt) : dt :=
  mkDt (wlCache s) (rootDirPaths s) (ignoreRootDirs s) (dirCnt s) (abortOnCacheProblem s) chk dump v (dt_kern s).
Definition set_kern (k : kern) (s : dt) : dt :=
  mkDt (wlCache s) (rootDirPaths s) (ignoreRootDirs s) (dirCnt s) (abortOnCacheProblem s) (checkCache s) (dumpCache s) (verboseMask s) k.

Definition on_kern (f : kern -> kern) (s : dt) : dt := set_kern (f (dt_kern s)) s.

Abbreviation dtp := (Prog dt).

(** ** System calls *)

(** [None] is the error, else: is it a directory? *)
Definition lstat (p : bytes) : dtp (option bool) :=
  do k <- get dt_kern;
  pret (match k_dirs k !! p with
        | Some _ => Some true
        | None => if decide (p ∈ k_files k) then Some false else None
        end).

(** [inl] is the watch descriptor, [inr] the error number. *)
Definition ENOENT : Z := 2.
Definition ENOSPC : Z := 28.

Definition inotify_add_watch (p : bytes) (flags : Z) : dtp (Z + Z) :=
  do k <- get dt_kern;
  match k_dirs k !! p with
  | None => pret (inr ENOENT)
  | Some ino =>
      match k_watch k !! ino with
      | Some (w, _) => run put (on_kern (set_watch (<[ino := (w, flags)]> (k_watch k)))); pret (inl w)
      | None =>
          if (k_max k <=? size (k_watch k))%nat then pret (inr ENOSPC)
          else
            run put (on_kern (set_watch (<[ino := (k_next k, flags)]> (k_watch k))));
            run put (on_kern (set_knext (k_next k + 1)));
            pret (inl (k_next k))
      end
  end.

(** [rm_watch] sends IN_IGNORED for the watch. *)
Definition inotify_rm_watch (w : Z) : dtp bool :=
  do k <- get dt_kern;
  match List.find (fun x => x.2.1 =? w) (map_to_list (k_watch k)) with
  | None => pret false
  | Some (ino, _) =>
      run put (on_kern (set_watch (delete ino (k_watch k))));
      run put (on_kern (set_queue (k_queue k ++ [mkEv w IN_IGNORED 0 0 []])));
      pret true
  end.

(** Closing the old instance and making a new one: its watches and events
    are gone. *)
Definition inotify_init : dtp unit :=
  run put (on_kern (set_watch ∅));
  run put (on_kern (set_knext 1));
  put (on_kern (set_queue [])).

(** ** The cache *)

(** [for (j = 0; j < cacheSize; j++) if (P(wlCache[j])) return j; return -1;] *)
Fixpoint find_slot (P : watch -> bool) (j : Z) (c : list watch) : Z :=
  match c with
  | [] => -1
  | w :: c => if P w then j else find_slot P (j + 1) c
  end.

Definition findWatch (w : Z) : dtp Z := do c <- get wlCache; pret (find_slot (fun x => wd x =? w) 0 c).

Definition findWatchChecked (w : Z) : dtp Z :=
  do slot <- findWatch w;
  if 0 <=? slot then pret slot
  else
    do a <- get abortOnCacheProblem;
    if a : bool then die "abort" else pret (-1).

(** An access to [wlCache[slot]]. *)
Definition slot_at (slot : Z) : dtp watch :=
  do c <- get wlCache;
  if slot <? 0 then die "slot out of range"
  else match c !! Z.to_nat slot with Some w => pret w | None => die "slot out of range" end.

Definition store_slot (slot : Z) (w : watch) : dtp unit :=
  run slot_at slot;
  put (fun s => set_cache (<[Z.to_nat slot := w]> (wlCache s)) s).

Definition markCacheSlotEmpty (slot : Z) : dtp unit := store_slot slot (mkWatch (-1) []).

Definition ALLOC_INCR : nat := 200.

Definition findEmptyCacheSlot : dtp Z :=
  do c <- get wlCache;
  let j := find_slot (fun x => wd x =? -1) 0 c in
  if 0 <=? j then pret j
  else
    run put (set_cache (c ++ replicate ALLOC_INCR (mkWatch (-1) [])));
    pret (zlen c).

(** [strncpy] leaves the path without its null when it is too long. *)
Definition addWatchToCache (w : Z) (pathname : bytes) : dtp Z :=
  do slot <- findEmptyCacheSlot;
  run guard_die (PATH_MAX <=? zlen pathname) "path without a null";
  run store_slot slot (mkWatch w pathname);
  pret slot.

Definition pathnameToCacheSlot (pathname : bytes) : dtp Z :=
  do c <- get wlCache;
  pret (find_slot (fun x => (0 <=? wd x) && bool_decide (path x = pathname)) 0 c).

Definition pathnameInCache (pathname : bytes) : dtp bool :=
  do slot <- pathnameToCacheSlot pathname; pret (0 <=? slot).

(** The number of failures. *)
Fixpoint check_loop (c : list watch) (failures : Z) : dtp Z :=
  match c with
  | [] => pret failures
  | w :: c =>
      if 0 <=? wd w then
        do sb <- lstat (path w);
        match sb with
        | None => check_loop c (failures + 1)
        | Some false => die "not a directory"
        | Some true => check_loop c failures
        end
      else check_loop c failures
  end.

Definition checkCacheConsistency : dtp Z := do c <- get wlCache; check_loop c 0.

Definition freeCache : dtp unit := put (set_cache []).

(** ** The roots *)
Fixpoint root_index (p : bytes) (j : nat) (l : list (option bytes)) : option nat :=
  match l with
  | [] => None
  | Some r :: l => if bool_decide (p = r) then Some j else root_index p (S j) l
  | None :: l => root_index p (S j) l
  end.

Definition findRootDirPath (p : bytes) : dtp (option nat) := do l <- get rootDirPaths; pret (root_index p 0 l).

Definition isRootDirPath (p : bytes) : dtp bool := do r <- findRootDirPath p; pret (bool_decide (is_Some r)).

Definition zapRootDirPath (p : bytes) : dtp unit :=
  do r <- findRootDirPath p;
  match r with
  | None => die "path not found"
  | Some j =>
      run put (fun s => set_roots (<[j := None]> (rootDirPaths s)) s);
      run put (fun s => set_ignored (ignoreRootDirs s + 1) s);
      do n <- get ignoreRootDirs;
      do l <- get rootDirPaths;
      guard_die (n =? zlen l) "No more root paths left to monitor; bye!"
  end.

(** The checks of the arguments, and the inodes they stand for. *)
Fixpoint check_args (argv : list bytes) : dtp unit :=
  match argv with
  | [] => pret tt
  | p :: argv =>
      do sb <- lstat p;
      match sb with
      | None => die "lstat() failed"
      | Some false => die "not a directory"
      | Some true => check_args argv
      end
  end.

Fixpoint check_dups (argv : list bytes) (seen : list Z) : dtp unit :=
  match argv with
  | [] => pret tt
  | p :: argv =>
      do k <- get dt_kern;
      match k_dirs k !! p with
      | None => die "lstat"
      | Some ino => run guard_die (bool_decide (ino ∈ seen)) "Duplicate filesystem objects"; check_dups argv (seen ++ [ino])
      end
  end.

Definition copyRootDirPaths (argv : list bytes) : dtp unit :=
  run check_args argv;
  run check_dups argv [];
  run put (set_roots (Some <$> argv));
  put (set_ignored 0).

(** ** Trees *)

(** Is [q] the directory [p] or below it?  The test of [rewriteCachedPaths]
    and [zapSubtree]: [strncmp(p, q, len) == 0] and [q[len]] is a slash or
    the null. *)
Definition CH_SLASH : Z := 47.

Definition below (p q : bytes) : bool :=
  bool_decide (take (length p) q = p) && (zlen p <=? zlen q) &&
  match drop (length p) q with [] => true | c :: _ => c =? CH_SLASH end.

(** [snprintf(buf, PATH_MAX, "%s/%s", p, n)] *)
Definition snprintf_path (p n : bytes) : bytes := take (Z.to_nat (PATH_MAX - 1)) (p ++ CH_SLASH :: n).

(** The directories that [nftw] passes to its function, in its order; [None]
    when it fails. *)
Class Nftw := nftw : kern -> bytes -> option (list bytes).

Section tree.
Context {walk : Nftw}.

Definition traverseTree (pathname : bytes) : dtp unit :=
  let flags := Z.lor (Z.lor (Z.lor IN_CREATE IN_MOVED_FROM) IN_MOVED_TO) IN_DELETE_SELF in
  do root <- isRootDirPath pathname;
  let flags := if root then Z.lor flags IN_MOVE_SELF else flags in
  do w <- inotify_add_watch pathname (Z.lor flags IN_ONLYDIR);
  match w with
  | inr e => if e =? ENOENT then pret tt else die "exit"
  | inl w =>
      do slot <- findWatch w;
      if 0 <=? slot then pret tt
      else
        run put (fun s => set_dirCnt (dirCnt s + 1) s);
        do slot <- addWatchToCache w pathname;
        pret tt
  end.

Fixpoint traverse_all (l : list bytes) : dtp unit :=
  match l with [] => pret tt | p :: l => run traverseTree p; traverse_all l end.

Definition watchDir (pathname : bytes) : dtp Z :=
  run put (set_dirCnt 0);
  do k <- get dt_kern;
  run (match nftw k pathname with None => pret tt | Some l => traverse_all l end);
  get dirCnt.

Definition watchSubtree (pathname : bytes) : dtp unit := do cnt <- watchDir pathname; pret tt.

(** [for (j = 0; j < cacheSize; j++)] of [rewriteCachedPaths]. *)
Definition rewritten (fullPath newPrefix : bytes) (w : watch) : watch :=
  if below fullPath (path w) then mkWatch (wd w) (take (Z.to_nat (PATH_MAX - 1)) (newPrefix ++ drop (length fullPath) (path w))) else w.

Definition rewriteCachedPaths (oldPathPrefix oldName newPathPrefix newName : bytes) : dtp unit :=
  let fullPath := snprintf_path oldPathPrefix oldName in
  let newPrefix := snprintf_path newPathPrefix newName in
  put (fun s => set_cache (rewritten fullPath newPrefix <$> wlCache s) s).

(** The slots [j], [j + 1], ... of [zapSubtree], [n] of them. *)
Fixpoint zap_loop (n : nat) (pn : bytes) (j cnt : Z) : dtp Z :=
  match n with
  | O => pret cnt
  | S n =>
      do w <- slot_at j;
      if (0 <=? wd w) && below pn (path w) then
        do ok <- inotify_rm_watch (wd w);
        if negb ok then pret (-1)
        else
          run markCacheSlotEmpty j;
          zap_loop n pn (j + 1) (cnt + 1)
      else zap_loop n pn (j + 1) cnt
  end.

Definition zapSubtree (p : bytes) : dtp Z := do c <- get wlCache; zap_loop (length c) p 0 0.

Fixpoint watch_roots (l : list (option bytes)) : dtp unit :=
  match l with
  | [] => pret tt
  | Some r :: l => run watchSubtree r; watch_roots l
  | None :: l => watch_roots l
  end.

Definition reinitialize : dtp unit :=
  run inotify_init;
  run freeCache;
  do l <- get rootDirPaths;
  watch_roots l.

(** ** Events *)

(** The end of [processNextInotifyEvent]. *)
Definition after_event (evLen : Z) : dtp Z :=
  do chk <- get checkCache;
  run (if chk : bool then (do n <- checkCacheConsistency; pret tt) else pret tt);
  pret evLen.

(** IN_MOVED_FROM of a directory, in the directory [w]: the next event may be
    the IN_MOVED_TO that belongs to it. *)
Definition moved_from (ev : event) (rest : list event) (bufSize : Z) (firstTry : bool) (w : watch) : dtp Z :=
  let evLen := sizeof_event + e_len ev in
  let more := evLen <? bufSize in
  let moved_out :=
    do cnt <- zapSubtree (snprintf_path (path w) (e_name ev));
    if cnt =? -1 then run reinitialize; pret INOTIFY_READ_BUF_LEN else after_event evLen in
  if more then
    match rest with
    | [] => die "read past the events"
    | next :: _ =>
        if has (e_mask next) IN_MOVED_TO && (e_cookie next =? e_cookie ev) then
          do slot2 <- findWatchChecked (e_wd next);
          if slot2 =? -1 then run reinitialize; pret INOTIFY_READ_BUF_LEN
          else
            do w2 <- slot_at slot2;
            run rewriteCachedPaths (path w) (e_name ev) (path w2) (e_name next);
            after_event (evLen + sizeof_event + e_len next)
        else moved_out
    end
  else if negb firstTry then moved_out
  else pret (-1).

(** The events [ev :: rest] start at [buf], which has [bufSize] bytes; the
    result is the number of bytes that were consumed, or -1. *)
Definition process_slot (ev : event) (rest : list event) (bufSize : Z) (firstTry : bool) (slot : option Z) : dtp Z :=
  let evLen := sizeof_event + e_len ev in
  let mask := e_mask ev in
  let need := match slot with Some j => slot_at j | None => die "evCacheSlot is not set" end in
  if has mask IN_ISDIR && has mask (Z.lor IN_CREATE IN_MOVED_TO) then
    do w <- need;
    let fullPath := snprintf_path (path w) (e_name ev) in
    do hit <- pathnameInCache fullPath;
    run (if negb hit then watchSubtree fullPath else pret tt);
    after_event evLen
  else if has mask IN_DELETE_SELF then
    do w <- need;
    do root <- isRootDirPath (path w);
    run (if root : bool then zapRootDirPath (path w) else pret tt);
    run (match slot with Some j => markCacheSlotEmpty j | None => die "evCacheSlot is not set" end);
    after_event evLen
  else if Z.land mask (Z.lor IN_MOVED_FROM IN_ISDIR) =? Z.lor IN_MOVED_FROM IN_ISDIR then
    do w <- need; moved_from ev rest bufSize firstTry w
  else if has mask IN_Q_OVERFLOW then
    run reinitialize;
    after_event INOTIFY_READ_BUF_LEN
  else if has mask IN_UNMOUNT then
    run (match slot with Some j => markCacheSlotEmpty j | None => die "evCacheSlot is not set" end);
    after_event evLen
  else if has mask IN_MOVE_SELF then
    do w <- need;
    do root <- isRootDirPath (path w);
    if root : bool then
      run zapRootDirPath (path w);
      do cnt <- zapSubtree (path w);
      if cnt =? -1 then run reinitialize; pret INOTIFY_READ_BUF_LEN else after_event evLen
    else after_event evLen
  else after_event evLen.

Definition processNextInotifyEvent (ev : event) (rest : list event) (bufSize : Z) (firstTry : bool) : dtp Z :=
  if negb (e_wd ev =? -1) && negb (has (e_mask ev) IN_IGNORED) then
    do slot <- findWatchChecked (e_wd ev);
    if slot =? -1 then
      run reinitialize;
      pret INOTIFY_READ_BUF_LEN
    else process_slot ev rest bufSize firstTry (Some slot)
  else process_slot ev rest bufSize firstTry None.

(** ** Reading *)
Definition ev_size (ev : event) : Z := sizeof_event + e_len ev.
Fixpoint evs_size (l : list event) : Z := match l with [] => 0 | ev :: l => ev_size ev + evs_size l end.

(** What is left of the events after [n] bytes. *)
Fixpoint advance (n : Z) (l : list event) : list event :=
  match l with
  | [] => []
  | ev :: l' => if 0 <? n then advance (n - ev_size ev) l' else l
  end.

(** How many of the first [n] events fit into [space] bytes. *)
Fixpoint fitting (n : nat) (space : Z) (l : list event) : nat :=
  match n, l with
  | S n, ev :: l => if ev_size ev <=? space then S (fitting n (space - ev_size ev) l) else 0%nat
  | _, _ => 0%nat
  end.

(** A [read] with a buffer of [space] bytes, when [n] events are there. *)
Definition read_events (n : nat) (space : Z) : dtp (list event) :=
  do k <- get dt_kern;
  let m := fitting n space (k_queue k) in
  run put (on_kern (set_queue (drop m (k_queue k))));
  pret (take m (k_queue k)).

(** The loop over the buffer: [evs] are the events in it, [rem] is
    [buf + numRead - evp]; [reads] says how many events are there for each
    later [read], none when the timer interrupts it.  The test [errno != -1]
    is always true, so an interrupted [read] takes one byte off
    [numRead]. *)
Fixpoint process_loop (fuel : nat) (evs : list event) (rem : Z) (firstTry : bool) (reads : list nat) : dtp unit :=
  match fuel with
  | O => die "fuel"
  | S fuel =>
      if 0 <? rem then
        match evs with
        | [] => die "read past the events"
        | ev :: rest =>
            do evLen <- processNextInotifyEvent ev rest rem firstTry;
            if 0 <? evLen then process_loop fuel (advance evLen evs) (rem - evLen) true reads
            else
              do more <- read_events (hd 0%nat reads) (INOTIFY_READ_BUF_LEN - rem);
              let nr := match more with [] => -1 | _ => evs_size more end in
              process_loop fuel (evs ++ more) (rem + nr) false (tl reads)
        end
      else pret tt
  end.

(** [reads] starts with the first [read], which blocks until there are
    events.  A [readBufferSize] larger than the buffer lets [read] write
    behind it.  The loop makes at most two rounds for each event,
    and one more. *)
Definition processInotifyEvents (readBufferSize : Z) (reads : list nat) : dtp unit :=
  let cnt := if 0 <? readBufferSize then readBufferSize else INOTIFY_READ_BUF_LEN in
  do q <- get (fun s => k_queue (dt_kern s));
  run guard_die (match q with [] => true | _ => false end) "read blocks";
  do evs <- read_events (Nat.max 1 (hd 0%nat reads)) cnt;
  run guard_die (match evs with [] => true | _ => false end) "read";
  run guard_die (INOTIFY_READ_BUF_LEN <? evs_size evs) "read overruns the buffer";
  process_loop (2 + 2 * S (sum_list reads)) evs (evs_size evs) true (tl reads).

(** ** Commands *)

(** The word after the command letter, if there is one. *)
Fixpoint word (s : bytes) : bytes :=
  match s with c :: s => if isspace c then [] else c :: word s | [] => [] end.

Definition cmd_arg (line : bytes) : option bytes :=
  match word (skip_space (tail line)) with [] => None | w => Some w end.

(** [line] is what [read] gets, with the newline; a command without its
    argument uses the array as it is. *)
Definition executeCommand (line : bytes) : dtp unit :=
  match cstr (take (length line - 1) line) with
  | [] => match line with [] => die "exit" | _ => pret tt end
  | cmd :: _ as l =>
      let with_arg k := match cmd_arg l with Some arg => k arg | None => die "arg is not set" end in
      if cmd =? 97 then                                       (* a *)
        with_arg (fun arg => do cnt <- zapSubtree arg; watchSubtree arg)
      else if (cmd =? 99) || (cmd =? 67) then                 (* c, C *)
        do n <- checkCacheConsistency; pret tt
      else if cmd =? 108 then pret tt                         (* l *)
      else if cmd =? 113 then die "exit"                      (* q *)
      else if cmd =? 118 then                                 (* v *)
        put (fun s => set_flags (checkCache s) (dumpCache s)
          (match cmd_arg l with Some arg => atoi arg | None => if verboseMask s =? 0 then 1 else 0 end) s)
      else if cmd =? 100 then put (fun s => set_flags (checkCache s) (negb (dumpCache s)) (verboseMask s) s)   (* d *)
      else if cmd =? 120 then put (fun s => set_flags (negb (checkCache s)) (dumpCache s) (verboseMask s) s)   (* x *)
      else if cmd =? 119 then with_arg (fun arg => pret tt)   (* w *)
      else if cmd =? 122 then                                 (* z *)
        with_arg (fun arg => do cnt <- zapSubtree arg; pret tt)
      else if cmd =? 48 then reinitialize                     (* 0 *)
      else pret tt
  end.

(** ** The main program *)

(** The set-up of [main], after the options. *)
Definition dtree_start (argv : list bytes) : dtp unit :=
  run copyRootDirPaths argv;
  reinitialize.

(** One round of the loop of [main]: [select] says what can be read before
    the command runs. *)
Definition main_round (readBufferSize : Z) (line : option bytes) (reads : list nat) : dtp unit :=
  do q <- get (fun s => k_queue (dt_kern s));
  run (match line with Some l => executeCommand l | None => pret tt end);
  match q with [] => pret tt | _ => processInotifyEvents readBufferSize reads end.

(** Rounds without commands. *)
Fixpoint main_loop (readBufferSize : Z) (script : list (list nat)) : dtp unit :=
  match script with
  | [] => pret tt
  | reads :: script => run main_round readBufferSize None reads; main_loop readBufferSize script
  end.

End tree.
