(* ===== verification/DtreeCache.v ===== *)
(** * The cache of the directory watcher is a map

    The slots of [wlCache] represent a finite map from watch descriptors to
    paths; what each operation does to that map. *)
From S2P Require Import Prelude CString Dtree.

Open Scope prog_scope.

Definition free_slot : watch := mkWatch (-1) [].

Record crep (c : list watch) (M : gmap Z bytes) : Prop := {
  cr_slot : forall j w, c !! j = Some w -> w = free_slot \/ 0 <= wd w /\ M !! wd w = Some (path w);
  cr_map : forall x p, M !! x = Some p -> 0 <= x /\ exists j, c !! j = Some (mkWatch x p);
  cr_uniq : forall i j u v, c !! i = Some u -> c !! j = Some v -> wd u = wd v -> 0 <= wd u -> i = j
}.

Lemma crep_empty : crep [] ∅.
Proof. split; [done|intros x p H; by rewrite lookup_empty in H|done]. Qed.

(** ** Searching *)
Lemma find_slot_spec P k c :
  (find_slot P k c = -1 /\ forall j w, c !! j = Some w -> P w = false) \/
  exists j w, find_slot P k c = k + Z.of_nat j /\ c !! j = Some w /\ P w = true.
Proof.
  revert k. induction c as [|w c IH]; intros k; simpl; [by left|]. destruct (P w) eqn:E.
  - right. exists 0%nat, w. split_and!; [lia|done|done].
  - destruct (IH (k + 1)) as [[Hf Hn]|(j & v & Hf & Hj & Hv)].
    + left. split; [done|]. intros [|j] v; [by intros [= <-]|apply Hn].
    + right. exists (S j), v. rewrite Hf. split_and!; [lia|done|done].
Qed.

Section ops.
Context (s : dt) (M : gmap Z bytes) (Hc : crep (wlCache s) M).

(** A slot that the map knows. *)
Lemma slot_of j w : wlCache s !! j = Some w -> 0 <= wd w -> M !! wd w = Some (path w).
Proof. intros Hj Hw. destruct (cr_slot _ _ Hc j w Hj) as [->|[_ ?]]; [simpl in Hw; lia|done]. Qed.

Lemma findWatch_run x :
  0 <= x ->
  exists r, findWatch x s = Ok r s /\
    (M !! x = None /\ r = -1 \/ exists p j, M !! x = Some p /\ r = Z.of_nat j /\ wlCache s !! j = Some (mkWatch x p)).
Proof.
  intros Hx. unfold findWatch. pstep. eexists. split; [done|].
  destruct (find_slot_spec (fun y => wd y =? x) 0 (wlCache s)) as [[-> Hn]|(j & w & -> & Hj & Hw)].
  - left. split; [|done]. destruct (M !! x) as [p|] eqn:E; [|done]. destruct (cr_map _ _ Hc x p E) as (_ & j & Hj).
    specialize (Hn j _ Hj). simpl in Hn. by rewrite Z.eqb_refl in Hn.
  - apply Z.eqb_eq in Hw. right. destruct w as [y p]. simpl in Hw. subst y. exists p, j. split_and!; [|lia|done].
    by apply (slot_of j (mkWatch x p)).
Qed.

Lemma findWatchChecked_run x :
  0 <= x -> is_Some (M !! x) ->
  exists p j, M !! x = Some p /\ findWatchChecked x s = Ok (Z.of_nat j) s /\ wlCache s !! j = Some (mkWatch x p).
Proof.
  intros Hx [p0 Hp0]. destruct (findWatch_run x Hx) as (r & E & [[H _]|(p & j & Hp & -> & Hj)]); [congruence|].
  exists p, j. split_and!; [done| |done]. unfold findWatchChecked. rewrite (pbind_ok _ _ _ _ _ E), leb_true by lia. done.
Qed.

Lemma pathnameInCache_run p :
  exists b, pathnameInCache p s = Ok b s /\ (b = true <-> exists x, M !! x = Some p).
Proof.
  unfold pathnameInCache, pathnameToCacheSlot. pstep. eexists. split; [done|].
  destruct (find_slot_spec (fun y => (0 <=? wd y) && bool_decide (path y = p)) 0 (wlCache s)) as [[-> Hn]|(j & w & -> & Hj & Hw)].
  - split; [done|]. intros [x Hx]. destruct (cr_map _ _ Hc x p Hx) as (H0 & j & Hj). specialize (Hn j _ Hj). simpl in Hn.
    rewrite leb_true, bool_decide_true in Hn by done. done.
  - zbool. apply bool_decide_eq_true in H0. split; [|intros _; apply leb_true; lia]. intros _. exists (wd w). subst p. by apply (slot_of j).
Qed.

Lemma slot_at_run j w : wlCache s !! j = Some w -> slot_at (Z.of_nat j) s = Ok w s.
Proof. intros Hj. unfold slot_at. pstep. rewrite ltb_false by lia. rewrite Nat2Z.id, Hj. done. Qed.

Lemma store_slot_run j w v : wlCache s !! j = Some w -> store_slot (Z.of_nat j) v s = Ok tt (set_cache (<[j := v]> (wlCache s)) s).
Proof. intros Hj. unfold store_slot. rewrite (pbind_ok _ _ _ _ _ (slot_at_run j w Hj)). unfold put. by rewrite Nat2Z.id. Qed.

(** ** Changing a slot *)
Lemma mark_run j x p :
  wlCache s !! j = Some (mkWatch x p) -> 0 <= x ->
  exists c', markCacheSlotEmpty (Z.of_nat j) s = Ok tt (set_cache c' s) /\ c' = <[j := free_slot]> (wlCache s) /\ crep c' (delete x M).
Proof.
  intros Hj Hx. eexists. split; [by apply (store_slot_run j (mkWatch x p))|]. split; [done|]. fold free_slot.
  assert (forall i w, <[j := free_slot]> (wlCache s) !! i = Some w -> i = j /\ w = free_slot \/ i <> j /\ wlCache s !! i = Some w) as Hl.
  { intros i w Hi. destruct (decide (i = j)) as [->|Hne].
    - rewrite list_lookup_insert_eq in Hi by (by eapply lookup_lt_Some). left. split; [done|congruence].
    - rewrite list_lookup_insert_ne in Hi by done. by right. }
  split.
  - intros i w Hi. destruct (Hl i w Hi) as [[_ ->]|[Hne Hi']]; [by left|]. destruct (cr_slot _ _ Hc i w Hi') as [->|[H0 Hw]]; [by left|].
    right. split; [done|]. rewrite lookup_delete_ne; [done|]. intros ->. apply Hne. by eapply (cr_uniq _ _ Hc i j).
  - intros y q Hy. apply lookup_delete_Some in Hy as [Hne Hy]. destruct (cr_map _ _ Hc y q Hy) as (H0 & i & Hi). split; [done|].
    exists i. rewrite list_lookup_insert_ne; [done|]. intros ->. congruence.
  - intros i i' u v Hi Hi' He H0. destruct (Hl i u Hi) as [[_ ->]|[Hne H1]]; [simpl in H0; lia|].
    destruct (Hl i' v Hi') as [[_ ->]|[Hne' H2]]; [simpl in He; lia|]. by eapply (cr_uniq _ _ Hc).
Qed.

Lemma crep_insert c j x p :
  crep c M -> c !! j = Some free_slot -> 0 <= x -> M !! x = None -> crep (<[j := mkWatch x p]> c) (<[x := p]> M).
Proof.
  intros Hcr Hj Hx HM.
  assert (forall i w, <[j := mkWatch x p]> c !! i = Some w -> i = j /\ w = mkWatch x p \/ i <> j /\ c !! i = Some w) as Hl.
  { intros i w Hi. destruct (decide (i = j)) as [->|Hne].
    - rewrite list_lookup_insert_eq in Hi by (by eapply lookup_lt_Some). left. split; [done|congruence].
    - rewrite list_lookup_insert_ne in Hi by done. by right. }
  assert (forall i w, c !! i = Some w -> wd w <> x) as Hnx.
  { intros i w Hi E. destruct (cr_slot _ _ Hcr i w Hi) as [->|[_ Hw]]; [simpl in E; lia|]. congruence. }
  split.
  - intros i w Hi. destruct (Hl i w Hi) as [[_ ->]|[Hne Hi']]; [right; simpl; by rewrite lookup_insert_eq|].
    destruct (cr_slot _ _ Hcr i w Hi') as [->|[H0 Hw]]; [by left|]. right. split; [done|]. rewrite lookup_insert_ne; [done|].
    intros E. symmetry in E. by eapply Hnx.
  - intros y q Hy. destruct (decide (y = x)) as [->|Hne].
    + rewrite lookup_insert_eq in Hy. injection Hy as ->. split; [done|]. exists j. apply list_lookup_insert_eq. by eapply lookup_lt_Some.
    + rewrite lookup_insert_ne in Hy by done. destruct (cr_map _ _ Hcr y q Hy) as (H0 & i & Hi). split; [done|]. exists i.
      rewrite list_lookup_insert_ne; [done|]. intros ->. rewrite Hj in Hi. injection Hi as E _. lia.
  - intros i i' u v Hi Hi' He H0. destruct (Hl i u Hi) as [[-> ->]|[Hne H1]], (Hl i' v Hi') as [[-> ->]|[Hne' H2]]; try done.
    + exfalso. symmetry in He. by eapply Hnx.
    + exfalso. by eapply Hnx.
    + by eapply (cr_uniq _ _ Hcr).
Qed.

Lemma crep_grow n : crep (wlCache s ++ replicate n free_slot) M.
Proof.
  assert (forall i w, (wlCache s ++ replicate n free_slot) !! i = Some w -> w = free_slot \/ wlCache s !! i = Some w) as Hl.
  { intros i w. rewrite lookup_app_Some. intros [?|[_ H]]; [by right|left]. by apply lookup_replicate in H as [-> _]. }
  split.
  - intros j w Hj. destruct (Hl j w Hj) as [->|H]; [by left|]. by apply (cr_slot _ _ Hc j).
  - intros x p Hx. destruct (cr_map _ _ Hc x p Hx) as (H0 & j & Hj). split; [done|]. exists j. by apply lookup_app_l_Some.
  - intros i j u v Hi Hj He H0. destruct (Hl i u Hi) as [->|Hi']; [simpl in H0; lia|]. destruct (Hl j v Hj) as [->|Hj']; [simpl in He; lia|].
    by eapply (cr_uniq _ _ Hc).
Qed.

Lemma addWatch_run x p :
  0 <= x -> M !! x = None -> zlen p < PATH_MAX ->
  exists r c', addWatchToCache x p s = Ok r (set_cache c' s) /\ crep c' (<[x := p]> M).
Proof.
  intros Hx HM Hp. unfold addWatchToCache, findEmptyCacheSlot. pstep.
  destruct (find_slot_spec (fun y => wd y =? -1) 0 (wlCache s)) as [[-> Hn]|(j & w & -> & Hj & Hw)].
  - change (0 <=? -1) with false. cbn iota. pstep. rewrite pbind_guard by (by apply leb_false).
    assert ((wlCache s ++ replicate ALLOC_INCR free_slot) !! length (wlCache s) = Some free_slot) as Hnew.
    { rewrite lookup_app_r, Nat.sub_diag by lia. done. }
    unfold store_slot, slot_at. pstep. cbn [wlCache set_cache]. rewrite ltb_false by apply zlen_nonneg. rewrite to_nat_zlen.
    fold free_slot. rewrite Hnew. pstep. eexists _, _. split; [done|]. cbn [wlCache set_cache].
    apply crep_insert; [apply crep_grow|done|done|done].
  - rewrite leb_true by lia. pstep. rewrite pbind_guard by (by apply leb_false). rewrite Z.add_0_l.
    rewrite (pbind_ok _ _ _ _ _ (store_slot_run j w _ Hj)). eexists _, _. split; [done|]. apply crep_insert; try done.
    apply Z.eqb_eq in Hw. destruct (cr_slot _ _ Hc j w Hj) as [->|[H0 _]]; [done|lia].
Qed.

(** ** Renaming *)
Definition renamed (f n p : bytes) : bytes :=
  if below f p then take (Z.to_nat (PATH_MAX - 1)) (n ++ drop (length f) p) else p.

Lemma rewrite_crep f n : f <> [] -> crep (rewritten f n <$> wlCache s) (renamed f n <$> M).
Proof.
  intros Hf. assert (rewritten f n free_slot = free_slot) as Hfree.
  { unfold rewritten, below. cbn [path free_slot]. rewrite take_nil, bool_decide_false by congruence. done. }
  assert (forall w, wd (rewritten f n w) = wd w /\ path (rewritten f n w) = renamed f n (path w)) as Hrw.
  { intros [x p]. unfold rewritten, renamed. cbn [wd path]. by destruct (below f p). }
  split.
  - intros j w. rewrite list_lookup_fmap, fmap_Some. intros (v & Hv & ->). destruct (Hrw v) as [H1 H2].
    destruct (cr_slot _ _ Hc j v Hv) as [->|[H0 HM]]; [left; done|]. right. rewrite H1, H2, lookup_fmap, HM. done.
  - intros x p. rewrite lookup_fmap, fmap_Some. intros (q & Hq & ->). destruct (cr_map _ _ Hc x q Hq) as (H0 & j & Hj). split; [done|].
    exists j. rewrite list_lookup_fmap, Hj. simpl. f_equal. unfold rewritten, renamed. cbn [path wd]. by destruct (below f q).
  - intros i j u v. rewrite !list_lookup_fmap, !fmap_Some. intros (u' & Hu & ->) (v' & Hv & ->).
    destruct (Hrw u') as [-> _], (Hrw v') as [-> _]. intros He H0. by eapply (cr_uniq _ _ Hc).
Qed.

End ops.

(** ** The cache and the file system

    When the cache of the directory watcher agrees with the kernel, and what
    adding and removing watches does to that. *)
(** ** Paths *)
Lemma below_spec p q : below p q = true <-> exists t, q = p ++ t /\ forall c u, t = c :: u -> c = CH_SLASH.
Proof.
  unfold below. rewrite !andb_true_iff, bool_decide_eq_true, Z.leb_le. split.
  - intros [[Ht Hl] Hd]. exists (drop (length p) q). split; [rewrite <- Ht at 1; by rewrite take_drop|].
    intros c u E. rewrite E in Hd. by apply Z.eqb_eq.
  - intros (t & -> & Ht). rewrite take_app_length, drop_app_length. split_and!; [done|zl|]. destruct t as [|c u]; [done|].
    by rewrite (Ht c u eq_refl).
Qed.

Lemma below_refl p : below p p = true.
Proof. apply below_spec. exists []. by rewrite app_nil_r. Qed.

Lemma below_app p t : (forall c u, t = c :: u -> c = CH_SLASH) -> below p (p ++ t) = true.
Proof. intros Ht. apply below_spec. by exists t. Qed.

Lemma below_child p n : below p (p ++ CH_SLASH :: n) = true.
Proof. apply below_app. by intros c u [= <- _]. Qed.

Lemma below_trans p q r : below p q = true -> below q r = true -> below p r = true.
Proof.
  rewrite !below_spec. intros (t & -> & Ht) (u & -> & Hu). exists (t ++ u). split; [by rewrite app_assoc|].
  intros c v E. destruct t as [|d t]; [by apply (Hu c v)|]. injection E as -> _. by apply (Ht c t).
Qed.

(** Two directories above the same one. *)
Lemma below_common p q r : below p r = true -> below q r = true -> below p q = true \/ below q p = true.
Proof.
  rewrite !below_spec. intros (t & -> & Ht) (u & E & Hu). destruct (app_eq_inv _ _ _ _ E) as [(k & -> & ->)|(k & -> & ->)].
  - right. exists k. split; [done|]. intros c v ->. by apply (Hu c (v ++ t)).
  - left. exists k. split; [done|]. intros c v ->. by apply (Ht c (v ++ u)).
Qed.

(** ** The state of the kernel *)
Definition watch_flags (root : bool) : Z :=
  let flags := Z.lor (Z.lor (Z.lor IN_CREATE IN_MOVED_FROM) IN_MOVED_TO) IN_DELETE_SELF in
  Z.lor (if root then Z.lor flags IN_MOVE_SELF else flags) IN_ONLYDIR.

Definition inodes (k : kern) : gset Z := map_img (k_dirs k).

(** A file system: every directory has one path, shorter than [PATH_MAX],
    and there may be a watch for each. *)
Record fs_ok (k : kern) : Prop := {
  fs_ino : forall p q ino, k_dirs k !! p = Some ino -> k_dirs k !! q = Some ino -> p = q;
  fs_files : forall p ino, k_dirs k !! p = Some ino -> p ∉ k_files k;
  fs_len : forall p ino, k_dirs k !! p = Some ino -> zlen p < PATH_MAX;
  fs_max : (size (inodes k) <= k_max k)%nat
}.

Record kwf (k : kern) : Prop := {
  kw_fs : fs_ok k;
  kw_wd : forall i j x m n, k_watch k !! i = Some (x, m) -> k_watch k !! j = Some (x, n) -> i = j;
  kw_next : forall i x m, k_watch k !! i = Some (x, m) -> 1 <= x < k_next k;
  kw_live : forall i x m, k_watch k !! i = Some (x, m) -> exists p, k_dirs k !! p = Some i;
  kw_pos : 1 <= k_next k
}.

(** No root is below another. *)
Definition roots_ok (l : list (option bytes)) : Prop :=
  forall i j r t, l !! i = Some (Some r) -> l !! j = Some (Some t) -> below r t = true -> i = j.

(** Is the path monitored? *)
Definition under (l : list (option bytes)) (p : bytes) : Prop := exists r, Some r ∈ l /\ below r p = true.

Definition is_root (l : list (option bytes)) (p : bytes) : bool := bool_decide (Some p ∈ l).

Definition none : bytes -> Prop := fun _ => False.

(** With the roots [l], the map has every watch under the path of its
    directory, and every monitored directory has one, but for those in
    [todo]. *)
Record synced (l : list (option bytes)) (k : kern) (M : gmap Z bytes) (todo : bytes -> Prop) : Prop := {
  sy_map : forall x p, M !! x = Some p -> under l p /\
    exists ino, k_watch k !! ino = Some (x, watch_flags (is_root l p)) /\ k_dirs k !! p = Some ino;
  sy_watch : forall ino x m, k_watch k !! ino = Some (x, m) -> is_Some (M !! x);
  sy_all : forall p ino, k_dirs k !! p = Some ino -> under l p -> todo p \/ exists x m, k_watch k !! ino = Some (x, m)
}.

(** What [traverseTree] and the calls around it leave alone. *)
Definition same (s s' : dt) : Prop :=
  rootDirPaths s' = rootDirPaths s /\ ignoreRootDirs s' = ignoreRootDirs s /\ abortOnCacheProblem s' = abortOnCacheProblem s /\
  checkCache s' = checkCache s /\ k_dirs (dt_kern s') = k_dirs (dt_kern s) /\ k_files (dt_kern s') = k_files (dt_kern s) /\
  k_max (dt_kern s') = k_max (dt_kern s).

#[export] Instance same_preorder : PreOrder same.
Proof. split; [done|]. intros a b c (? & ? & ? & ? & ? & ? & ?) (? & ? & ? & ? & ? & ? & ?). split_and!; congruence. Qed.

(** ** Adding watches *)
Lemma root_index_spec p j l : is_Some (root_index p j l) <-> Some p ∈ l.
Proof.
  revert j. induction l as [|[r|] l IH]; intros j; simpl.
  - split; [by intros [? [=]]|]. by intros ?%not_elem_of_nil.
  - rewrite elem_of_cons. case_bool_decide as E; [subst; split; eauto|]. rewrite IH. split; [by right|]. intros [[= ->]|?]; done.
  - rewrite elem_of_cons, IH. split; [by right|]. by intros [[=]|?].
Qed.

Lemma isRoot_run p s : isRootDirPath p s = Ok (is_root (rootDirPaths s) p) s.
Proof.
  unfold isRootDirPath, findRootDirPath, is_root. pstep. unfold pret. f_equal. apply bool_decide_ext. apply root_index_spec.
Qed.

(** There is room for the watch of a directory that has none. *)
Lemma watch_room k ino p :
  kwf k -> k_dirs k !! p = Some ino -> k_watch k !! ino = None -> (size (k_watch k) < k_max k)%nat.
Proof.
  intros Hk Hp Hno. pose proof (fs_max _ (kw_fs _ Hk)) as Hmax. set (W := <[ino := (0, 0)]> (k_watch k)).
  assert (dom W ⊆ inodes k) as Hsub.
  { intros i. unfold inodes, W. rewrite elem_of_dom, elem_of_map_img. intros [[x m] Hi]. destruct (decide (i = ino)) as [->|Hne]; [by exists p|].
    rewrite lookup_insert_ne in Hi by done. by apply (kw_live _ Hk i x m). }
  apply subseteq_size in Hsub. rewrite size_dom in Hsub. unfold W in Hsub. rewrite map_size_insert_None in Hsub by done. lia.
Qed.

(** A watch of a directory belongs to it. *)
Lemma synced_path l k M todo p ino x m :
  kwf k -> synced l k M todo -> k_dirs k !! p = Some ino -> k_watch k !! ino = Some (x, m) ->
  M !! x = Some p /\ m = watch_flags (is_root l p).
Proof.
  intros Hk Hs Hp Hw. destruct (sy_watch _ _ _ _ Hs ino x m Hw) as [q Hq]. destruct (sy_map _ _ _ _ Hs x q Hq) as (_ & i & Hi & Hd).
  assert (i = ino) as -> by (by eapply (kw_wd _ Hk)). assert (q = p) as -> by (by eapply (fs_ino _ (kw_fs _ Hk))). split; [done|congruence].
Qed.

Lemma synced_next l k M todo : kwf k -> synced l k M todo -> M !! k_next k = None.
Proof.
  intros Hk Hs. destruct (M !! k_next k) as [q|] eqn:Hq; [|done]. destruct (sy_map _ _ _ _ Hs _ q Hq) as (_ & i & Hi & _).
  pose proof (kw_next _ Hk _ _ _ Hi). lia.
Qed.

(** A new watch for the directory [p]. *)
Lemma kwf_add k ino p fl :
  kwf k -> k_dirs k !! p = Some ino -> k_watch k !! ino = None ->
  kwf (set_knext (k_next k + 1) (set_watch (<[ino := (k_next k, fl)]> (k_watch k)) k)).
Proof.
  intros [[] Hwd Hnx Hlv] Hp Hw. split; cbn; [done|..].
  - intros i j x m n. rewrite !lookup_insert_Some. intros [[<- E1]|[Hi H1]] [[<- E2]|[Hj H2]]; try done.
    + injection E1 as <- <-. pose proof (Hnx _ _ _ H2). lia.
    + injection E2 as <- <-. pose proof (Hnx _ _ _ H1). lia.
    + by eapply Hwd.
  - intros i x m. rewrite lookup_insert_Some. intros [[<- [= <- <-]]|[Hi H1]]; [lia|]. pose proof (Hnx _ _ _ H1). lia.
  - intros i x m. rewrite lookup_insert_Some. intros [[<- _]|[Hi H1]]; [by exists p|]. by eapply Hlv.
  - lia.
Qed.

Lemma synced_add l k M (todo : bytes -> Prop) p ino :
  synced l k M todo -> k_dirs k !! p = Some ino -> under l p -> k_watch k !! ino = None ->
  let x := k_next k in
  M !! x = None ->
  synced l (set_knext (x + 1) (set_watch (<[ino := (x, watch_flags (is_root l p))]> (k_watch k)) k)) (<[x := p]> M) (fun q => todo q /\ q <> p).
Proof.
  intros Hs Hp Hu Hw x HM. split; cbn.
  - intros y q. rewrite lookup_insert_Some. intros [[<- <-]|[Hy Hq]].
    + split; [done|]. exists ino. by rewrite lookup_insert_eq.
    + destruct (sy_map _ _ _ _ Hs y q Hq) as (Hqu & i & Hi & Hd). split; [done|]. exists i. rewrite lookup_insert_ne; [done|]. intros ->. congruence.
  - intros i y m. rewrite lookup_insert_Some. intros [[<- [= <- <-]]|[Hi H1]]; [rewrite lookup_insert_eq; eauto|].
    destruct (sy_watch _ _ _ _ Hs i y m H1) as [q Hq]. rewrite lookup_insert_is_Some. destruct (decide (x = y)); [by left|right; eauto].
  - intros q i Hq Hqu. destruct (decide (q = p)) as [->|Hne].
    + right. exists x, (watch_flags (is_root l p)). assert (i = ino) as -> by congruence. by rewrite lookup_insert_eq.
    + destruct (sy_all _ _ _ _ Hs q i Hq Hqu) as [?|(y & m & Hy)]; [by left|]. right. exists y, m. rewrite lookup_insert_ne; [done|]. intros ->. congruence.
Qed.

(** The watches that have no directory to wait for. *)
Lemma synced_weaken l k M (P Q : bytes -> Prop) :
  synced l k M P -> (forall p ino, k_dirs k !! p = Some ino -> under l p -> P p -> Q p) -> synced l k M Q.
Proof. intros [Hm Hw Ha] H. split; [done|done|]. intros p ino Hp Hu. destruct (Ha p ino Hp Hu); [left; eauto|by right]. Qed.

(** The cache and the kernel agree but for [todo]. *)
Definition good (s : dt) (todo : bytes -> Prop) : Prop :=
  kwf (dt_kern s) /\ exists M, crep (wlCache s) M /\ synced (rootDirPaths s) (dt_kern s) M todo.

Lemma traverse_run s M (todo : bytes -> Prop) p ino :
  kwf (dt_kern s) -> crep (wlCache s) M -> synced (rootDirPaths s) (dt_kern s) M todo -> k_dirs (dt_kern s) !! p = Some ino -> under (rootDirPaths s) p ->
  exists s', traverseTree p s = Ok tt s' /\ good s' (fun q => todo q /\ q <> p) /\ same s s' /\ k_queue (dt_kern s') = k_queue (dt_kern s).
Proof.
  intros Hk Hc Ht Hp Hu. unfold traverseTree. rewrite (pbind_ok _ _ _ _ _ (isRoot_run p s)). unfold inotify_add_watch. pstep. rewrite Hp.
  fold (watch_flags (is_root (rootDirPaths s) p)). set (fl := watch_flags _).
  destruct (k_watch (dt_kern s) !! ino) as [[x m]|] eqn:Hw.
  - destruct (synced_path _ _ M todo p ino x m Hk Ht Hp Hw) as [HM Hm]. fold fl in Hm. subst m. pstep.
    assert (on_kern (set_watch (<[ino := (x, fl)]> (k_watch (dt_kern s)))) s = s) as Es.
    { destruct s as [? ? ? ? ? ? ? ? [? ? ? ? ? ?]]. unfold on_kern, set_kern, set_watch. simpl in *. by rewrite insert_id. }
    rewrite Es. destruct (findWatch_run s M Hc x) as (r & E & Hr); [pose proof (kw_next _ Hk ino x fl Hw); lia|].
    rewrite (pbind_ok _ _ _ _ _ E). destruct Hr as [[? _]|(q1 & j & _ & -> & _)]; [congruence|]. rewrite leb_true by lia.
    exists s. split_and!; [done| |done|done]. split; [done|]. exists M. split; [done|]. split; [apply Ht..|]. intros q i Hq Hqu.
    destruct (sy_all _ _ _ _ Ht q i Hq Hqu) as [Htd|?]; [|by right].
    destruct (decide (q = p)) as [->|]; [|by left]. right. exists x, fl. congruence.
  - rewrite (proj2 (Nat.leb_gt _ _)) by (by eapply watch_room). pstep.
    set (x := k_next (dt_kern s)). set (s1 := on_kern _ (on_kern _ s)).
    assert (crep (wlCache s1) M) as Hc1 by apply Hc.
    pose proof (synced_next _ _ _ _ Hk Ht) as Hx. pose proof (kw_pos _ Hk) as Hpos.
    destruct (findWatch_run s1 M Hc1 x) as (r & E & Hr); [unfold x; lia|].
    rewrite (pbind_ok _ _ _ _ _ E). destruct Hr as [[_ ->]|(q & j & ? & _)]; [|unfold x in *; congruence]. change (0 <=? -1) with false. cbn iota. pstep.
    set (s2 := set_dirCnt _ s1).
    destruct (addWatch_run s2 M Hc1 x p) as (r & c' & E2 & Hc'); [unfold x; lia|done|by eapply (fs_len _ (kw_fs _ Hk))|].
    rewrite (pbind_ok _ _ _ _ _ E2). exists (set_cache c' s2). cbn [dt_kern set_cache s2 set_dirCnt s1 on_kern set_kern].
    split_and!; [done| |done|done]. split; [apply (kwf_add (dt_kern s) ino p fl Hk Hp Hw)|]. exists (<[x := p]> M). split; [done|].
    by apply (synced_add _ (dt_kern s)).
Qed.
