(* ===== verification/DtreeWalk.v ===== *)
(** * Building and removing watches

    What [watchSubtree], [reinitialize] and [zapSubtree] of the directory
    watcher do to the agreement of the cache and the kernel. *)
From S2P Require Import Prelude CString Dtree DtreeCache.

Open Scope prog_scope.

(** [nftw] with FTW_PHYS visits the directory and all those below it. *)
Class NftwOk {walk : Nftw} : Prop :=
  nftw_dirs k p ino : k_dirs k !! p = Some ino ->
    exists l, nftw k p = Some l /\ forall q, q ∈ l <-> is_Some (k_dirs k !! q) /\ below p q = true.

Lemma under_below l p q : under l p -> below p q = true -> under l q.
Proof. intros (r & Hr & Hb) H. exists r. split; [done|]. by eapply below_trans. Qed.

Section walk.
Context {walk : Nftw} {Hwalk : NftwOk}.

Lemma good_weaken s (P Q : bytes -> Prop) :
  good s P -> (forall p ino, k_dirs (dt_kern s) !! p = Some ino -> P p -> Q p) -> good s Q.
Proof. intros (Hk & M & Hc & Hs) H. split; [done|]. exists M. split; [done|]. eapply synced_weaken; eauto. Qed.

Lemma traverse_all_run l s (todo : bytes -> Prop) :
  good s todo -> (forall q, q ∈ l -> is_Some (k_dirs (dt_kern s) !! q) /\ under (rootDirPaths s) q) ->
  exists s', traverse_all l s = Ok tt s' /\ good s' (fun q => todo q /\ (q ∉ l)) /\ same s s' /\ k_queue (dt_kern s') = k_queue (dt_kern s).
Proof.
  revert s todo. induction l as [|p l IH]; intros s todo Hg Hl; simpl.
  { exists s. split_and!; [done| |done|done]. eapply good_weaken; [done|]. intros q _ _ ?. split; [done|]. apply not_elem_of_nil. }
  destruct (Hl p) as [[ino Hp] Hu]; [by left|]. destruct Hg as (Hk & M & Hc & Hs).
  destruct (traverse_run s M todo p ino Hk Hc Hs Hp Hu) as (s1 & E & Hg1 & Hsame & Hq). rewrite (pbind_ok _ _ _ _ _ E).
  destruct Hsame as (Hr & Hi & Ha & Hch & Hd & Hf & Hm).
  destruct (IH s1 _ Hg1) as (s2 & E2 & Hg2 & Hsame2 & Hq2). { intros q Hql. rewrite Hd, Hr. apply Hl. by right. }
  exists s2. split_and!; [done| |by transitivity s1|congruence]. eapply good_weaken; [done|]. cbn. intros q _ _ [[? ?] ?]. split; [done|].
  rewrite elem_of_cons. naive_solver.
Qed.

Lemma watchSubtree_run p ino s (todo : bytes -> Prop) :
  good s todo -> k_dirs (dt_kern s) !! p = Some ino -> under (rootDirPaths s) p ->
  exists s', watchSubtree p s = Ok tt s' /\ good s' (fun q => todo q /\ below p q = false) /\ same s s' /\ k_queue (dt_kern s') = k_queue (dt_kern s).
Proof.
  intros Hg Hp Hu. unfold watchSubtree, watchDir. pstep. cbn [dt_kern set_dirCnt].
  destruct (nftw_dirs (dt_kern s) p ino Hp) as (l & El & Hl). rewrite El.
  destruct (traverse_all_run l (set_dirCnt 0 s) todo) as (s' & E & Hg' & Hsame & Hq); [done| |].
  { intros q Hq. apply Hl in Hq as [Hd Hb]. split; [done|]. by eapply under_below. }
  rewrite (pbind_ok _ _ _ _ _ E). pstep. exists s'. split_and!; [done| |done|done]. eapply good_weaken; [done|]. cbn. intros q i Hqi [? Hql].
  split; [done|]. destruct (below p q) eqn:Eb; [|done]. exfalso. apply Hql, Hl. split; [|done].
  destruct Hsame as (_ & _ & _ & _ & Hd & _). cbn in Hd. rewrite Hd in Hqi. eauto.
Qed.

Lemma watch_roots_run l s (todo : bytes -> Prop) :
  good s todo -> (forall r, Some r ∈ l -> is_Some (k_dirs (dt_kern s) !! r) /\ under (rootDirPaths s) r) ->
  exists s', watch_roots l s = Ok tt s' /\ good s' (fun q => todo q /\ ~ under l q) /\ same s s' /\ k_queue (dt_kern s') = k_queue (dt_kern s).
Proof.
  revert s todo. induction l as [|[r|] l IH]; intros s todo Hg Hl; simpl.
  - exists s. split_and!; [done| |done|done]. eapply good_weaken; [done|]. intros q _ _ ?. split; [done|]. intros (r & Hr & _). by apply not_elem_of_nil in Hr.
  - destruct (Hl r) as [[ino Hr] Hu]; [by left|]. destruct (watchSubtree_run r ino s todo Hg Hr Hu) as (s1 & E & Hg1 & Hsame & Hq).
    rewrite (pbind_ok _ _ _ _ _ E). pose proof Hsame as (Hrt & _ & _ & _ & Hd & _).
    destruct (IH s1 _ Hg1) as (s2 & E2 & Hg2 & Hsame2 & Hq2). { intros t Ht. rewrite Hd, Hrt. apply Hl. by right. }
    exists s2. split_and!; [done| |by transitivity s1|congruence]. eapply good_weaken; [done|]. cbn. intros q _ _ [[? Hb] Hn]. split; [done|].
    intros (t & Ht & Htb). apply elem_of_cons in Ht as [[= ->]|Ht]; [congruence|]. apply Hn. by exists t.
  - destruct (IH s todo Hg) as (s2 & E2 & Hg2 & Hsame2 & Hq2). { intros t Ht. apply Hl. by right. }
    exists s2. split_and!; [done| |done|done]. eapply good_weaken; [done|]. cbn. intros q _ _ [? Hn]. split; [done|].
    intros (t & Ht & Htb). apply elem_of_cons in Ht as [[=]|Ht]. apply Hn. by exists t.
Qed.

(** Whatever the cache, the watches and the queue were. *)
Lemma reinitialize_run s :
  fs_ok (dt_kern s) -> (forall r, Some r ∈ rootDirPaths s -> is_Some (k_dirs (dt_kern s) !! r)) ->
  exists s', reinitialize s = Ok tt s' /\ good s' none /\ same s s' /\ k_queue (dt_kern s') = [].
Proof.
  intros Hfs Hr. unfold reinitialize, inotify_init, freeCache. pstep. set (s0 := set_cache [] _).
  assert (good s0 (fun _ => True)) as Hg.
  { split; [split; cbn; [by destruct Hfs|..]|]; [intros i j x m n; by rewrite lookup_empty|intros i x m; by rewrite lookup_empty
    |intros i x m; by rewrite lookup_empty|lia|]. exists ∅. split; [apply crep_empty|]. split; cbn; [intros x p; by rewrite lookup_empty|intros x p m; by rewrite lookup_empty|by left]. }
  destruct (watch_roots_run (rootDirPaths s) s0 _ Hg) as (s' & E & Hg' & Hsame & Hq).
  { intros r Hin. split; [by apply Hr|]. exists r. split; [done|]. apply below_refl. }
  exists s'. split_and!; [done| |by transitivity s0|done]. destruct Hg' as (Hk & M & Hc & Hs). split; [done|]. exists M. split; [done|].
  eapply synced_weaken; [done|]. cbn. intros p ino _ Hu [_ Hn]. apply Hn. destruct Hsame as (Hrt & _). by rewrite Hrt in Hu.
Qed.

End walk.

(** ** Removing a subtree

    [zapSubtree] of the directory watcher takes the entries of a directory
    and of those below it out of the cache, with their watches. *)
Definition outside (p : bytes) (xt : Z * bytes) : Prop := below p xt.2 = false.

#[export] Instance outside_dec p xt : Decision (outside p xt).
Proof. unfold outside. apply _. Defined.

(** The map without the directories below [p], and the watches that are not
    theirs. *)
Definition cut (p : bytes) (M : gmap Z bytes) : gmap Z bytes := filter (outside p) M.

Definition goes (p : bytes) (M : gmap Z bytes) (x : Z) : bool := match M !! x with Some t => below p t | None => false end.

Definition stays (p : bytes) (M : gmap Z bytes) (w : Z * (Z * Z)) : Prop := goes p M w.2.1 = false.

#[export] Instance stays_dec p M w : Decision (stays p M w).
Proof. unfold stays. apply _. Defined.

Definition cutw (p : bytes) (M : gmap Z bytes) (W : gmap Z (Z * Z)) : gmap Z (Z * Z) := filter (stays p M) W.

Lemma cut_lookup p M x t : cut p M !! x = Some t <-> M !! x = Some t /\ below p t = false.
Proof. unfold cut. by rewrite map_lookup_filter_Some. Qed.

Lemma cutw_lookup p M W i w : cutw p M W !! i = Some w <-> W !! i = Some w /\ goes p M w.1 = false.
Proof. unfold cutw. by rewrite map_lookup_filter_Some. Qed.

Definition ignored (l : list event) : Prop := Forall (fun ev => exists x, ev = mkEv x IN_IGNORED 0 0 []) l.

(** The entry [x] goes first. *)
Lemma cut_delete p M x t : M !! x = Some t -> below p t = true -> cut p (delete x M) = cut p M.
Proof.
  intros Hx Hb. apply map_eq. intros y. apply option_eq. intros u. rewrite !cut_lookup, lookup_delete_Some. split; [tauto|].
  intros [Hy Hu]. split_and!; [|done|done]. intros ->. congruence.
Qed.

Lemma cutw_delete p M W x t i m :
  (forall i j x m n, W !! i = Some (x, m) -> W !! j = Some (x, n) -> i = j) ->
  M !! x = Some t -> below p t = true -> W !! i = Some (x, m) -> cutw p (delete x M) (delete i W) = cutw p M W.
Proof.
  intros Hu Hx Hb Hi. apply map_eq. intros j. apply option_eq. intros [y n]. rewrite !cutw_lookup, lookup_delete_Some. cbn [fst]. unfold goes.
  split.
  - intros [[Hij Hj] Hg]. split; [done|]. rewrite lookup_delete_ne in Hg; [done|]. intros ->. apply Hij. by eapply Hu.
  - intros [Hj Hg]. assert (y <> x) as Hyx by (intros ->; rewrite Hx in Hg; congruence). split; [|by rewrite lookup_delete_ne].
    split; [|done]. intros ->. congruence.
Qed.

Lemma find_watch (W : gmap Z (Z * Z)) i x m :
  W !! i = Some (x, m) -> exists j n, List.find (fun y => y.2.1 =? x) (map_to_list W) = Some (j, (x, n)) /\ W !! j = Some (x, n).
Proof.
  intros Hi. destruct (List.find _ _) as [[j [y n]]|] eqn:E.
  - apply List.find_some in E as [Hin Hy]. simpl in Hy. apply Z.eqb_eq in Hy as ->. apply list_elem_of_In, elem_of_map_to_list in Hin. by exists j, n.
  - exfalso. assert (In (i, (x, m)) (map_to_list W)) as Hin by (by apply list_elem_of_In, elem_of_map_to_list).
    apply (List.find_none _ _ E) in Hin. simpl in Hin. by rewrite Z.eqb_refl in Hin.
Qed.

(** Watches that go. *)
Lemma kwf_sub k W' : kwf k -> W' ⊆ k_watch k -> kwf (set_watch W' k).
Proof.
  intros [Hf Hwd Hnx Hlv Hp] Hs. assert (forall i w, W' !! i = Some w -> k_watch k !! i = Some w) as Hl by (intros i w ?; by eapply lookup_weaken).
  split; cbn; [by destruct Hf|..|done]; [intros i j x m n ? ?; by eapply Hwd; apply Hl|intros i x m ?; by eapply Hnx, Hl|intros i x m ?; by eapply Hlv, Hl].
Qed.

Lemma zap_loop_run n p : forall j cnt s M,
  crep (wlCache s) M -> length (wlCache s) = (j + n)%nat -> 0 <= cnt ->
  (forall i x t, (i < j)%nat -> wlCache s !! i = Some (mkWatch x t) -> 0 <= x -> below p t = false) ->
  (forall i j x m n, k_watch (dt_kern s) !! i = Some (x, m) -> k_watch (dt_kern s) !! j = Some (x, n) -> i = j) ->
  (forall x t, M !! x = Some t -> below p t = true -> exists i m, k_watch (dt_kern s) !! i = Some (x, m)) ->
  exists cnt' c' l, zap_loop n p (Z.of_nat j) cnt s =
      Ok cnt' (set_cache c' (on_kern (fun k => set_queue (k_queue k ++ l) (set_watch (cutw p M (k_watch k)) k)) s)) /\
    0 <= cnt' /\ crep c' (cut p M) /\ ignored l.
Proof.
  induction n as [|n IH]; intros j cnt s M Hc Hlen Hcnt Hdone Hu Hw; cbn [zap_loop].
  - assert (forall x t, M !! x = Some t -> below p t = false) as Hno.
    { intros x t Hx. destruct (cr_map _ _ Hc x t Hx) as (H0 & i & Hi). eapply (Hdone i x t); [|done|done]. apply lookup_lt_Some in Hi. lia. }
    exists cnt, (wlCache s), []. split_and!; [|done| |by constructor].
    + assert (cutw p M (k_watch (dt_kern s)) = k_watch (dt_kern s)) as Ew.
      { apply map_eq. intros i. apply option_eq. intros [x m]. rewrite cutw_lookup. unfold goes. cbn [fst]. split; [tauto|].
        intros Hi. split; [done|]. destruct (M !! x) eqn:E; [by eapply Hno|done]. }
      unfold pret. f_equal. destruct s as [? ? ? ? ? ? ? ? [? ? ? ? ? ?]]. unfold set_cache, on_kern, set_kern, set_watch, set_queue. simpl in *.
      by rewrite app_nil_r, Ew.
    + replace (cut p M) with M; [done|]. symmetry. apply map_eq. intros x. apply option_eq. intros t. rewrite cut_lookup. split; [tauto|]. eauto.
  - destruct (lookup_lt_is_Some_2 (wlCache s) j) as [[x t] Hj]; [lia|].
    rewrite (pbind_ok _ _ _ _ _ (slot_at_run s j _ Hj)). cbn [wd path].
    assert (forall b, (0 <=? x) && below p t = b -> b = false -> forall i y u, (i < S j)%nat -> wlCache s !! i = Some (mkWatch y u) -> 0 <= y -> below p u = false) as Hskip.
    { intros b Hb -> i y u Hi Hiu Hy. destruct (decide (i = j)) as [->|]; [|eapply (Hdone i y u); [lia|done|done]].
      rewrite Hj in Hiu. injection Hiu as <- <-. by rewrite leb_true in Hb. }
    destruct ((0 <=? x) && below p t) eqn:E.
    + zbool. rename H into Hx, H0 into Hb. pose proof (slot_of s M Hc j _ Hj Hx) as HM. cbn in HM.
      destruct (Hw x t HM Hb) as (i0 & m0 & Hi0). destruct (find_watch _ _ _ _ Hi0) as (i & m & Hf & Hi).
      unfold inotify_rm_watch. pstep. rewrite Hf. pstep. cbn [negb]. cbn iota. set (s1 := on_kern _ (on_kern _ s)).
      destruct (mark_run s1 M Hc j x t Hj Hx) as (c1 & Em & Ec & Hc1). rewrite (pbind_ok _ _ _ _ _ Em).
      replace (Z.of_nat j + 1) with (Z.of_nat (S j)) by lia. set (s2 := set_cache c1 s1).
      destruct (IH (S j) (cnt + 1) s2 (delete x M)) as (cnt' & c' & l & Er & Hcnt' & Hcr & Hl); cbn [s2 wlCache set_cache s1 dt_kern on_kern set_kern].
      * done.
      * rewrite Ec. rewrite length_insert. cbn. lia.
      * lia.
      * intros i' y u Hi' Hiu Hy. rewrite Ec in Hiu. cbn in Hiu. destruct (decide (i' = j)) as [->|].
        { rewrite list_lookup_insert_eq in Hiu by (by eapply lookup_lt_Some). unfold free_slot in Hiu. injection Hiu as <- <-. lia. }
        rewrite list_lookup_insert_ne in Hiu by done. eapply (Hdone i' y u); [lia|done|done].
      * intros a b y m1 m2. cbn. rewrite !lookup_delete_Some. intros [_ Ha] [_ Hb']. by eapply Hu.
      * intros y u. rewrite lookup_delete_Some. intros [Hxy Hy] Hyb. destruct (Hw y u Hy Hyb) as (a & ma & Ha). exists a, ma. cbn.
        rewrite lookup_delete_ne; [done|]. intros ->. congruence.
      * exists cnt', c', (mkEv x IN_IGNORED 0 0 [] :: l). rewrite Er. split_and!; [|done|by rewrite <- (cut_delete p M x t)|].
        { f_equal. unfold s2, s1, set_cache, on_kern, set_kern, set_queue, set_watch. simpl. rewrite <- app_assoc. simpl. f_equal. f_equal.
          by apply (cutw_delete p M _ x t i m). }
        constructor; [by exists x|done].
    + replace (Z.of_nat j + 1) with (Z.of_nat (S j)) by lia. apply IH; [done|lia|done| |done|done]. by apply (Hskip false).
Qed.

(** The entries below [p] have watches to remove. *)
Lemma zapSubtree_run p s M :
  crep (wlCache s) M -> kwf (dt_kern s) ->
  (forall x t, M !! x = Some t -> below p t = true -> exists i m, k_watch (dt_kern s) !! i = Some (x, m)) ->
  exists cnt c' l, zapSubtree p s =
      Ok cnt (set_cache c' (on_kern (fun k => set_queue (k_queue k ++ l) (set_watch (cutw p M (k_watch k)) k)) s)) /\
    0 <= cnt /\ crep c' (cut p M) /\ ignored l.
Proof.
  intros Hc Hk Hw. unfold zapSubtree. pstep. apply (zap_loop_run (length (wlCache s)) p 0 0 s M); [done|done|done|intros i x t Hi; lia|apply Hk|done].
Qed.
