(* ===== verification/DtreeEvents.v ===== *)
(** * Following the events

    The stages between a change of the file system and the events that tell
    of it, and how [processNextInotifyEvent] goes from one to the next. *)
From S2P Require Import Prelude CString Dtree DtreeCache DtreeWalk.

Open Scope prog_scope.

(** ** Roots *)
Fixpoint dead (l : list (option bytes)) : Z :=
  match l with [] => 0 | Some _ :: l => dead l | None :: l => 1 + dead l end.

Definition alive (l : list (option bytes)) (k : kern) : Prop := forall r, Some r ∈ l -> is_Some (k_dirs k !! r).

Definition self_mask (bit : Z) (dir : bool) : Z := if dir then Z.lor bit IN_ISDIR else bit.

(** Entries below [p] are to go, with their watches. *)
Definition gone (l : list (option bytes)) (k : kern) (M : gmap Z bytes) (p : bytes) (todo : bytes -> Prop) : Prop :=
  (forall x t, M !! x = Some t -> below p t = true -> exists i m, k_watch k !! i = Some (x, m)) /\
  synced l (set_watch (cutw p M (k_watch k)) k) (cut p M) todo.

(** The root [p] ceases to be one. *)
Definition zapped (p : bytes) (l l' : list (option bytes)) : Prop :=
  exists j, root_index p 0 l = Some j /\ l' = <[j := None]> l /\ dead l' < zlen l'.

Inductive stage (l : list (option bytes)) (k : kern) (M : gmap Z bytes) : list event -> Prop :=
  | St_quiet : alive l k -> synced l k M none -> stage l k M []
  | St_new x bit c len n a q :
      M !! x = Some a -> q = a ++ CH_SLASH :: n -> is_Some (k_dirs k !! q) -> (bit = IN_CREATE \/ bit = IN_MOVED_TO) ->
      (forall y t, M !! y = Some t -> below q t = false) -> alive l k -> synced l k M (fun t => below q t = true) ->
      stage l k M [mkEv x (Z.lor bit IN_ISDIR) c len n]
  | St_move x y c len len' n n' a b p q :
      M !! x = Some a -> M !! y = Some b -> p = a ++ CH_SLASH :: n -> q = b ++ CH_SLASH :: n' ->
      zlen p < PATH_MAX -> is_Some (k_dirs k !! q) -> below p b = false -> (forall y t, M !! y = Some t -> below q t = false) -> alive l k ->
      synced l k (renamed p q <$> M) none -> gone l k M p (fun t => below q t = true) ->
      stage l k M [mkEv x (Z.lor IN_MOVED_FROM IN_ISDIR) c len n; mkEv y (Z.lor IN_MOVED_TO IN_ISDIR) c len' n']
  | St_out x c len n a p :
      M !! x = Some a -> p = a ++ CH_SLASH :: n -> zlen p < PATH_MAX -> alive l k -> gone l k M p none ->
      stage l k M [mkEv x (Z.lor IN_MOVED_FROM IN_ISDIR) c len n]
  | St_self x d p l' :
      M !! x = Some p -> zapped p l l' -> alive l' k -> gone l' k M p none -> stage l k M [mkEv x (self_mask IN_MOVE_SELF d) 0 0 []]
  | St_del x d p l' :
      M !! x = Some p -> (if is_root l p then zapped p l l' else l' = l) -> alive l' k -> synced l' k (delete x M) none ->
      stage l k M [mkEv x (self_mask IN_DELETE_SELF d) 0 0 []].

(** The events [l] bring the cache back into agreement. *)
Record pend (s : dt) (l : list event) : Prop := {
  pd_len : Forall (fun ev => 0 <= e_len ev <= NAME_MAX + 1) l;
  pd_kwf : kwf (dt_kern s);
  pd_roots : roots_ok (rootDirPaths s);
  pd_dead : ignoreRootDirs s = dead (rootDirPaths s);
  pd_stage : exists M, crep (wlCache s) M /\ (forall x t, M !! x = Some t -> t ∉ k_files (dt_kern s)) /\
    exists pre mid post, l = pre ++ mid ++ post /\ ignored pre /\ ignored post /\ stage (rootDirPaths s) (dt_kern s) M mid
}.

(** ** Small steps *)
Lemma check_loop_run c s n :
  (forall w, w ∈ c -> 0 <= wd w -> path w ∉ k_files (dt_kern s)) -> exists m, check_loop c n s = Ok m s.
Proof.
  revert n. induction c as [|w c IH]; intros n Hc; simpl; [by eexists|].
  assert (forall n, exists m, check_loop c n s = Ok m s) as IH' by (intros n'; apply IH; intros; apply Hc; [by right|done]).
  destruct (0 <=? wd w) eqn:E; [|apply IH']. zbool. unfold lstat. pstep. destruct (k_dirs (dt_kern s) !! path w); [apply IH'|].
  rewrite decide_False; [apply IH'|]. apply Hc; [by left|done].
Qed.

Lemma after_event_run s M n :
  crep (wlCache s) M -> (forall x t, M !! x = Some t -> t ∉ k_files (dt_kern s)) -> after_event n s = Ok n s.
Proof.
  intros Hc Hf. unfold after_event. pstep. destruct (checkCache s); [|by pstep]. unfold checkCacheConsistency. pstep.
  destruct (check_loop_run (wlCache s) s 0) as [m E].
  { intros w Hw H0. apply list_elem_of_lookup in Hw as [j Hj]. eapply Hf. by apply (slot_of s M Hc j). }
  rewrite (pbind_ok _ _ _ _ _ E). by pstep.
Qed.

(** The cached directories are no files. *)
Lemma synced_nofile l k M todo x t : fs_ok k -> synced l k M todo -> M !! x = Some t -> t ∉ k_files k.
Proof. intros Hf Hs Hx. destruct (sy_map _ _ _ _ Hs x t Hx) as (_ & ino & _ & Hd). by eapply fs_files. Qed.

Lemma snprintf_fits a n : zlen (a ++ CH_SLASH :: n) < PATH_MAX -> snprintf_path a n = a ++ CH_SLASH :: n.
Proof. intros H. unfold snprintf_path. apply take_ge. unfold zlen, PATH_MAX in *. lia. Qed.

Lemma root_index_at p j l i : root_index p j l = Some i -> (j <= i)%nat /\ l !! (i - j)%nat = Some (Some p).
Proof.
  revert j. induction l as [|[r|] l IH]; intros j; simpl; [done| |].
  - case_bool_decide as E; [intros [= <-]; subst; by rewrite Nat.sub_diag|]. intros H%IH. destruct H as [H1 H2]. split; [lia|].
    by replace (i - j)%nat with (S (i - S j)) by lia.
  - intros H%IH. destruct H as [H1 H2]. split; [lia|]. by replace (i - j)%nat with (S (i - S j)) by lia.
Qed.

Lemma dead_insert l j r : l !! j = Some (Some r) -> dead (<[j := None]> l) = dead l + 1.
Proof.
  revert j. induction l as [|o l IH]; intros [|j] Hj; simpl in *; [done|done|injection Hj as ->; lia|]. rewrite (IH j Hj). destruct o; lia.
Qed.

Lemma roots_ok_sub l j : roots_ok l -> roots_ok (<[j := None]> l).
Proof.
  intros H i i' r t. rewrite !list_lookup_insert_Some. intros [(_ & [=] & _)|[_ Hi]] [(_ & [=] & _)|[_ Hi']]. by eapply H.
Qed.

Lemma zapRoot_run p l' s :
  zapped p (rootDirPaths s) l' -> ignoreRootDirs s = dead (rootDirPaths s) ->
  zapRootDirPath p s = Ok tt (set_ignored (dead l') (set_roots l' s)).
Proof.
  intros (j & Hj & -> & Hd) Hi. unfold zapRootDirPath, findRootDirPath. pstep. rewrite Hj. pstep.
  apply root_index_at in Hj as [_ Hj]. rewrite Nat.sub_0_r in Hj. cbn [ignoreRootDirs rootDirPaths set_ignored set_roots].
  unfold guard_die. rewrite (dead_insert _ j p) in * by done. rewrite Hi. replace (_ =? _) with false by (symmetry; apply Z.eqb_neq; lia). done.
Qed.

(** Evaluate the tests of a mask that is known. *)
Ltac masks :=
  repeat match goal with
  | |- context [has ?m ?b] => let v := eval vm_compute in (has m b) in change (has m b) with v
  | |- context [Z.land ?m ?b =? ?c] => let v := eval vm_compute in (Z.land m b =? c) in change (Z.land m b =? c) with v
  end; cbn [andb negb]; cbn iota.

Definition samefs (s s' : dt) : Prop :=
  k_dirs (dt_kern s') = k_dirs (dt_kern s) /\ k_files (dt_kern s') = k_files (dt_kern s) /\ k_max (dt_kern s') = k_max (dt_kern s).

#[export] Instance samefs_preorder : PreOrder samefs.
Proof. split; [done|]. intros a b c (? & ? & ?) (? & ? & ?). split_and!; congruence. Qed.

Lemma same_fs s s' : same s s' -> samefs s s'.
Proof. by intros (_ & _ & _ & _ & ? & ? & ?). Qed.

Lemma ignored_len l : ignored l -> Forall (fun ev => 0 <= e_len ev <= NAME_MAX + 1) l.
Proof. intros H. eapply Forall_impl; [done|]. intros ev [x ->]. unfold NAME_MAX. simpl. lia. Qed.

(** The subtree [p] is zapped. *)
Lemma zap_gone p s M todo :
  crep (wlCache s) M -> kwf (dt_kern s) -> gone (rootDirPaths s) (dt_kern s) M p todo ->
  exists cnt s' l, zapSubtree p s = Ok cnt s' /\ 0 <= cnt /\ kwf (dt_kern s') /\ crep (wlCache s') (cut p M) /\
    synced (rootDirPaths s') (dt_kern s') (cut p M) todo /\ same s s' /\ k_queue (dt_kern s') = k_queue (dt_kern s) ++ l /\ ignored l.
Proof.
  intros Hc Hk [Hw Hs]. destruct (zapSubtree_run p s M Hc Hk Hw) as (cnt & c' & l & E & H0 & Hc' & Hl).
  eexists cnt, _, l. split; [exact E|]. split_and!; [done| |done| |done|done|done].
  - assert (kwf (set_watch (cutw p M (k_watch (dt_kern s))) (dt_kern s))) as [[] ? ? ? ?] by (apply kwf_sub; [done|apply map_filter_subseteq]).
    by split.
  - destruct Hs. by split.
Qed.

Section walk.
Context {walk : Nftw} {Hwalk : NftwOk}.

Lemma proc_ignored s M x rest b ft :
  crep (wlCache s) M -> (forall x t, M !! x = Some t -> t ∉ k_files (dt_kern s)) ->
  processNextInotifyEvent (mkEv x IN_IGNORED 0 0 []) rest b ft s = Ok sizeof_event s.
Proof.
  intros Hc Hf. unfold processNextInotifyEvent. cbn [e_wd e_mask]. masks. rewrite andb_false_r. cbn iota.
  unfold process_slot. cbn [e_mask e_len]. masks. by apply (after_event_run s M).
Qed.

(** An event of a watch that the cache has. *)
Lemma proc_known s M ev p rest b ft :
  crep (wlCache s) M -> M !! e_wd ev = Some p -> has (e_mask ev) IN_IGNORED = false ->
  exists j, wlCache s !! j = Some (mkWatch (e_wd ev) p) /\
    processNextInotifyEvent ev rest b ft s = process_slot ev rest b ft (Some (Z.of_nat j)) s.
Proof.
  intros Hc Hx Hm. destruct (cr_map _ _ Hc _ _ Hx) as (H0 & _).
  destruct (findWatchChecked_run s M Hc (e_wd ev) H0) as (p' & j & Hp & E & Hj); [by eexists|]. assert (p' = p) as -> by congruence.
  exists j. split; [done|]. unfold processNextInotifyEvent. rewrite Hm. replace (e_wd ev =? -1) with false by (symmetry; apply Z.eqb_neq; lia).
  cbn [andb negb]. cbn iota. rewrite (pbind_ok _ _ _ _ _ E). replace (Z.of_nat j =? -1) with false by (symmetry; apply Z.eqb_neq; lia). done.
Qed.

(** A directory that is new in the tree. *)
Lemma proc_new s M x bit c len n a q rest b ft :
  kwf (dt_kern s) -> crep (wlCache s) M -> M !! x = Some a -> q = a ++ CH_SLASH :: n -> is_Some (k_dirs (dt_kern s) !! q) ->
  (bit = IN_CREATE \/ bit = IN_MOVED_TO) -> (forall y t, M !! y = Some t -> below q t = false) ->
  synced (rootDirPaths s) (dt_kern s) M (fun t => below q t = true) ->
  exists s', processNextInotifyEvent (mkEv x (Z.lor bit IN_ISDIR) c len n) rest b ft s = Ok (sizeof_event + len) s' /\
    good s' none /\ same s s' /\ k_queue (dt_kern s') = k_queue (dt_kern s).
Proof.
  intros Hk Hc Hx Hq [ino Hino] Hbit Hno Hs. set (ev := mkEv _ _ _ _ _).
  destruct (proc_known s M ev a rest b ft Hc Hx) as (j & Hj & E); [by destruct Hbit as [-> | ->]|]. rewrite E. clear E.
  unfold process_slot. cbn [ev e_mask e_len e_name].
  assert (has (Z.lor bit IN_ISDIR) IN_ISDIR && has (Z.lor bit IN_ISDIR) (Z.lor IN_CREATE IN_MOVED_TO) = true) as -> by (by destruct Hbit as [-> | ->]).
  rewrite (pbind_ok _ _ _ _ _ (slot_at_run s j _ Hj)). cbn [path].
  pose proof (fs_len _ (kw_fs _ Hk) q ino Hino) as Hlen. rewrite snprintf_fits by (by rewrite <- Hq). rewrite <- Hq.
  destruct (pathnameInCache_run s M Hc q) as (hit & E & Hhit). rewrite (pbind_ok _ _ _ _ _ E).
  assert (hit = false) as ->.
  { destruct hit; [|done]. destruct Hhit as [Hh _]. destruct (Hh eq_refl) as [y Hy]. pose proof (Hno y q Hy). rewrite below_refl in *. done. }
  cbn [negb]. cbn iota.
  destruct (watchSubtree_run q ino s (fun t => below q t = true)) as (s' & E' & Hg & Hsame & Hqu).
  - split; [done|]. by exists M.
  - done.
  - destruct (sy_map _ _ _ _ Hs x a Hx) as (Hu & _). eapply under_below; [done|]. rewrite Hq. apply below_child.
  - rewrite (pbind_ok _ _ _ _ _ E'). assert (good s' none) as Hg'. { eapply good_weaken; [done|]. cbn. intros t i _ [H1 H2]. congruence. }
    exists s'. split_and!; [|done|done|done]. destruct Hg' as (Hk' & M' & Hc' & Hs'). apply (after_event_run s' M'); [done|]. intros y t Hy.
    eapply synced_nofile; [by apply kw_fs|done|done].
Qed.

(** A directory that left, or seems to have left. *)
Lemma proc_out s M todo x c len n a p rest b ft :
  kwf (dt_kern s) -> crep (wlCache s) M -> M !! x = Some a -> p = a ++ CH_SLASH :: n -> zlen p < PATH_MAX ->
  gone (rootDirPaths s) (dt_kern s) M p todo ->
  ((sizeof_event + len <? b) = true -> exists ev rest', rest = ev :: rest' /\ has (e_mask ev) IN_MOVED_TO && (e_cookie ev =? c) = false) ->
  ((sizeof_event + len <? b) = false -> ft = false) ->
  exists s' l, processNextInotifyEvent (mkEv x (Z.lor IN_MOVED_FROM IN_ISDIR) c len n) rest b ft s = Ok (sizeof_event + len) s' /\
    kwf (dt_kern s') /\ crep (wlCache s') (cut p M) /\ synced (rootDirPaths s') (dt_kern s') (cut p M) todo /\ same s s' /\
    k_queue (dt_kern s') = k_queue (dt_kern s) ++ l /\ ignored l.
Proof.
  intros Hk Hc Hx Hp Hlen Hg Hmore Hft. set (ev := mkEv _ _ _ _ _).
  destruct (proc_known s M ev a rest b ft Hc Hx) as (j & Hj & E); [done|]. rewrite E. clear E.
  unfold process_slot, moved_from. cbn [ev e_mask e_len e_name e_cookie]. masks. rewrite (pbind_ok _ _ _ _ _ (slot_at_run s j _ Hj)). cbn [path].
  rewrite snprintf_fits by (by rewrite <- Hp). rewrite <- Hp.
  destruct (zap_gone p s M todo Hc Hk Hg) as (cnt & s' & l & E & H0 & Hk' & Hc' & Hs' & Hsame & Hq & Hl).
  assert ((do cnt <- zapSubtree p; if cnt =? -1 then run reinitialize; pret INOTIFY_READ_BUF_LEN else after_event (sizeof_event + len)) s
    = Ok (sizeof_event + len) s') as Hout.
  { rewrite (pbind_ok _ _ _ _ _ E). replace (cnt =? -1) with false by (symmetry; apply Z.eqb_neq; lia). apply (after_event_run s' (cut p M)); [done|].
    intros y t Hy. eapply synced_nofile; [by apply kw_fs|done|done]. }
  exists s', l. split; [|done]. destruct (sizeof_event + len <? b) eqn:Eb.
  - destruct (Hmore eq_refl) as (ev2 & rest' & -> & ->). done.
  - rewrite (Hft eq_refl). done.
Qed.

(** The last event of the buffer. *)
Lemma proc_hanging s M x c len n a rest b :
  crep (wlCache s) M -> M !! x = Some a -> (sizeof_event + len <? b) = false ->
  processNextInotifyEvent (mkEv x (Z.lor IN_MOVED_FROM IN_ISDIR) c len n) rest b true s = Ok (-1) s.
Proof.
  intros Hc Hx Hb. set (ev := mkEv _ _ _ _ _). destruct (proc_known s M ev a rest b true Hc Hx) as (j & Hj & E); [done|]. rewrite E. clear E.
  unfold process_slot, moved_from. cbn [ev e_mask e_len e_name e_cookie]. masks. rewrite (pbind_ok _ _ _ _ _ (slot_at_run s j _ Hj)). rewrite Hb. done.
Qed.

(** Both events of a rename. *)
Lemma proc_move s M x y c len len' n n' a b' p q rest b ft :
  kwf (dt_kern s) -> crep (wlCache s) M -> M !! x = Some a -> M !! y = Some b' -> p = a ++ CH_SLASH :: n -> q = b' ++ CH_SLASH :: n' ->
  zlen p < PATH_MAX -> is_Some (k_dirs (dt_kern s) !! q) -> synced (rootDirPaths s) (dt_kern s) (renamed p q <$> M) none ->
  (sizeof_event + len <? b) = true ->
  exists s', processNextInotifyEvent (mkEv x (Z.lor IN_MOVED_FROM IN_ISDIR) c len n) (mkEv y (Z.lor IN_MOVED_TO IN_ISDIR) c len' n' :: rest) b ft s
      = Ok (sizeof_event + len + (sizeof_event + len')) s' /\
    kwf (dt_kern s') /\ crep (wlCache s') (renamed p q <$> M) /\ synced (rootDirPaths s') (dt_kern s') (renamed p q <$> M) none /\
    same s s' /\ k_queue (dt_kern s') = k_queue (dt_kern s).
Proof.
  intros Hk Hc Hx Hy Hp Hq Hlen [ino Hino] Hs Hb. set (ev := mkEv x _ _ _ _). set (ev2 := mkEv y _ _ _ _).
  destruct (proc_known s M ev a (ev2 :: rest) b ft Hc Hx) as (j & Hj & E); [done|]. rewrite E. clear E.
  unfold process_slot, moved_from. cbn [ev ev2 e_mask e_len e_name e_cookie e_wd]. masks. rewrite (pbind_ok _ _ _ _ _ (slot_at_run s j _ Hj)).
  rewrite Hb. cbn iota. rewrite Z.eqb_refl. cbn [path]. destruct (cr_map _ _ Hc _ _ Hy) as (Hy0 & _).
  destruct (findWatchChecked_run s M Hc y Hy0) as (b2 & j2 & Hb2 & E & Hj2); [by eexists|]. assert (b2 = b') as -> by congruence.
  rewrite (pbind_ok _ _ _ _ _ E). replace (Z.of_nat j2 =? -1) with false by (symmetry; apply Z.eqb_neq; lia). cbn iota.
  rewrite (pbind_ok _ _ _ _ _ (slot_at_run s j2 _ Hj2)). cbn [path]. unfold rewriteCachedPaths. pstep.
  rewrite !snprintf_fits; [|rewrite <- Hq; by eapply (fs_len _ (kw_fs _ Hk))|by rewrite <- Hp]. rewrite <- Hp, <- Hq.
  assert (crep (rewritten p q <$> wlCache s) (renamed p q <$> M)) as Hc'. { apply (rewrite_crep s M Hc). rewrite Hp. by destruct a. }
  exists (set_cache (rewritten p q <$> wlCache s) s). split; [|done].
  rewrite (after_event_run _ (renamed p q <$> M)); [f_equal; lia|done|]. intros z t Hz. eapply synced_nofile; [by apply kw_fs|done|done].
Qed.

(** A root that was moved away. *)
Lemma proc_self s M x d p l' rest b ft :
  kwf (dt_kern s) -> crep (wlCache s) M -> ignoreRootDirs s = dead (rootDirPaths s) -> M !! x = Some p -> zapped p (rootDirPaths s) l' ->
  gone l' (dt_kern s) M p none ->
  exists s' l, processNextInotifyEvent (mkEv x (self_mask IN_MOVE_SELF d) 0 0 []) rest b ft s = Ok sizeof_event s' /\
    kwf (dt_kern s') /\ crep (wlCache s') (cut p M) /\ synced l' (dt_kern s') (cut p M) none /\ rootDirPaths s' = l' /\
    ignoreRootDirs s' = dead l' /\ samefs s s' /\ k_queue (dt_kern s') = k_queue (dt_kern s) ++ l /\ ignored l.
Proof.
  intros Hk Hc Hd Hx Hz Hg. set (ev := mkEv _ _ _ _ _).
  destruct (proc_known s M ev p rest b ft Hc Hx) as (j & Hj & E); [by destruct d|]. rewrite E. clear E.
  pose proof (zapRoot_run p l' s Hz Hd) as Ez. set (s1 := set_ignored _ _) in Ez.
  assert (is_root (rootDirPaths s) p = true) as Hr.
  { apply bool_decide_true, (root_index_spec p 0). destruct Hz as (i & -> & _). by eexists. }
  destruct (zap_gone p s1 M none Hc Hk Hg) as (cnt & s' & l & E & H0 & Hk' & Hc' & Hs' & Hsame & Hq & Hl).
  pose proof Hsame as (Hrt & Hig & _).
  unfold process_slot. cbn [ev e_mask e_len e_name e_cookie]. exists s', l. split_and!; try done; [|by rewrite Hrt in Hs'|by apply same_fs in Hsame].
  destruct d; cbn [self_mask]; masks; rewrite (pbind_ok _ _ _ _ _ (slot_at_run s j _ Hj)); cbn [path];
    rewrite (pbind_ok _ _ _ _ _ (isRoot_run p s)), Hr; cbn iota; rewrite (pbind_ok _ _ _ _ _ Ez), (pbind_ok _ _ _ _ _ E);
    (replace (cnt =? -1) with false by (symmetry; apply Z.eqb_neq; lia)); cbn iota; rewrite (after_event_run s' (cut p M)); try done;
    intros y t Hy; (eapply synced_nofile; [by apply kw_fs|done|done]).
Qed.

(** A directory that was removed. *)
Lemma proc_del s M x d p l' rest b ft :
  kwf (dt_kern s) -> crep (wlCache s) M -> ignoreRootDirs s = dead (rootDirPaths s) -> M !! x = Some p ->
  (if is_root (rootDirPaths s) p then zapped p (rootDirPaths s) l' else l' = rootDirPaths s) ->
  synced l' (dt_kern s) (delete x M) none ->
  exists s', processNextInotifyEvent (mkEv x (self_mask IN_DELETE_SELF d) 0 0 []) rest b ft s = Ok sizeof_event s' /\
    dt_kern s' = dt_kern s /\ crep (wlCache s') (delete x M) /\ rootDirPaths s' = l' /\ ignoreRootDirs s' = dead l'.
Proof.
  intros Hk Hc Hd Hx Hz Hs. set (ev := mkEv _ _ _ _ _).
  destruct (proc_known s M ev p rest b ft Hc Hx) as (j & Hj & E); [by destruct d|]. rewrite E. clear E.
  set (s1 := if is_root (rootDirPaths s) p then set_ignored (dead l') (set_roots l' s) else s).
  assert ((if is_root (rootDirPaths s) p then zapRootDirPath p else pret tt) s = Ok tt s1) as Ez.
  { unfold s1. destruct (is_root _ _); [|done]. by apply zapRoot_run. }
  assert (wlCache s1 = wlCache s /\ dt_kern s1 = dt_kern s /\ rootDirPaths s1 = l' /\ ignoreRootDirs s1 = dead l') as (Hc1 & Hk1 & Hr1 & Hi1).
  { unfold s1. destruct (is_root _ _); [done|]. subst l'. done. }
  destruct (cr_map _ _ Hc _ _ Hx) as (Hx0 & _). destruct (mark_run s1 M ltac:(by rewrite Hc1) j x p) as (c' & Em & _ & Hc'); [by rewrite Hc1|done|].
  unfold process_slot. cbn [ev e_mask e_len e_name e_cookie]. exists (set_cache c' s1). split_and!; try done.
  destruct d; cbn [self_mask]; masks; rewrite (pbind_ok _ _ _ _ _ (slot_at_run s j _ Hj)); cbn [path];
    rewrite (pbind_ok _ _ _ _ _ (isRoot_run p s)), (pbind_ok _ _ _ _ _ Ez), (pbind_ok _ _ _ _ _ Em);
    rewrite (after_event_run _ (delete x M)); try done;
    intros y t Hy; cbn [dt_kern set_cache]; rewrite Hk1; (eapply synced_nofile; [by apply kw_fs|done|done]).
Qed.

End walk.
