(* ===== verification/DtreeRun.v ===== *)
(** * Reading the events

    The loops of [processInotifyEvents]: whatever the reads get, the events
    that are left bring the cache back into agreement. *)
From S2P Require Import Prelude CString Dtree DtreeCache DtreeWalk DtreeEvents.

Open Scope prog_scope.

Section walk.
Context {walk : Nftw} {Hwalk : NftwOk}.

(** The events [mid] then say how the cache differs. *)
Lemma pend_stage s M todo l mid post :
  Forall (fun ev => 0 <= e_len ev <= NAME_MAX + 1) l -> kwf (dt_kern s) -> roots_ok (rootDirPaths s) -> ignoreRootDirs s = dead (rootDirPaths s) ->
  crep (wlCache s) M -> synced (rootDirPaths s) (dt_kern s) M todo -> stage (rootDirPaths s) (dt_kern s) M mid -> l = mid ++ post -> ignored post ->
  pend s l.
Proof.
  intros Hl Hk Hr Hd Hc Hs Hst El Hp. split; [done..|]. exists M. split; [done|]. split.
  - intros x t Hx. eapply synced_nofile; [by apply kw_fs|done|done].
  - exists [], mid, post. split_and!; [done|by constructor|done|done].
Qed.

Lemma pend_quiet s M l :
  kwf (dt_kern s) -> roots_ok (rootDirPaths s) -> ignoreRootDirs s = dead (rootDirPaths s) -> alive (rootDirPaths s) (dt_kern s) ->
  crep (wlCache s) M -> synced (rootDirPaths s) (dt_kern s) M none -> ignored l -> pend s l.
Proof.
  intros Hk Hr Hd Ha Hc Hs Hl. apply (pend_stage s M none l [] l); try done; [by apply ignored_len|by apply St_quiet].
Qed.

Lemma ignored_app l l' : ignored l -> ignored l' -> ignored (l ++ l').
Proof. apply Forall_app_2. Qed.

Lemma ignored_tail l l' : ignored (l ++ l') -> ignored l'.
Proof. unfold ignored. rewrite Forall_app. tauto. Qed.

(** The events that are not IN_IGNORED. *)
Fixpoint busy (l : list event) : nat :=
  match l with [] => 0%nat | ev :: l => if e_mask ev =? IN_IGNORED then busy l else S (busy l) end.

Lemma busy_ignored l : ignored l -> busy l = 0%nat.
Proof. induction 1 as [|ev l [x ->] _ IH]; [done|]. cbn. done. Qed.

Lemma busy_app l l' : busy (l ++ l') = (busy l + busy l')%nat.
Proof. induction l as [|ev l IH]; [done|]. cbn. rewrite IH. by destruct (_ =? _). Qed.

Lemma busy_stage l k M mid : stage l k M mid -> busy mid = length mid.
Proof. intros Hst. destruct Hst as [|? ? ? ? ? ? ? ? ? ? Hb| | |? d|? d]; try done; [by destruct Hb as [-> | ->]|by destruct d|by destruct d]. Qed.

(** There is less to do. *)
Definition less (l' l : list event) : Prop := (busy l' < busy l)%nat \/ busy l' = busy l /\ (length l' < length l)%nat.

(** What one call does with the first event and those that follow. *)
Definition consumed (s s' : dt) (ev : event) (rest : list event) (n : Z) : Prop :=
  samefs s s' /\ exists l', (n = ev_size ev /\ l' = rest \/ exists ev2, rest = ev2 :: l' /\ n = ev_size ev + ev_size ev2) /\
    pend s' (l' ++ k_queue (dt_kern s')) /\ less (l' ++ k_queue (dt_kern s')) (ev :: rest ++ k_queue (dt_kern s)).

Lemma alive_same l l' k k' : k_dirs k' = k_dirs k -> l' = l -> alive l k -> alive l' k'.
Proof. intros E -> H r Hr. rewrite E. by apply H. Qed.

(** The cache agrees again. *)
Lemma consumed_quiet s s' M ev rest n l' :
  samefs s s' -> (n = ev_size ev /\ l' = rest \/ exists ev2, rest = ev2 :: l' /\ n = ev_size ev + ev_size ev2) ->
  kwf (dt_kern s') -> roots_ok (rootDirPaths s') -> ignoreRootDirs s' = dead (rootDirPaths s') -> alive (rootDirPaths s') (dt_kern s') ->
  crep (wlCache s') M -> synced (rootDirPaths s') (dt_kern s') M none -> ignored (l' ++ k_queue (dt_kern s')) ->
  (0 < busy (ev :: rest ++ k_queue (dt_kern s)))%nat -> consumed s s' ev rest n.
Proof.
  intros Hf Hn Hk Hr Hd Ha Hc Hs Hi Hb. split; [done|]. exists l'. split; [done|]. split; [by apply (pend_quiet s' M)|]. left. by rewrite (busy_ignored _ Hi).
Qed.

(** The first event of a rename, when the second has not been read: the
    directory seems to have left, and is new when the second comes. *)
Lemma moved_apart s M x y c len len' n n' a b' p q post b :
  Forall (fun ev => 0 <= e_len ev <= NAME_MAX + 1) (mkEv y (Z.lor IN_MOVED_TO IN_ISDIR) c len' n' :: post) ->
  kwf (dt_kern s) -> roots_ok (rootDirPaths s) -> ignoreRootDirs s = dead (rootDirPaths s) -> crep (wlCache s) M ->
  (sizeof_event + len <? b) = false -> ignored post -> k_queue (dt_kern s) = mkEv y (Z.lor IN_MOVED_TO IN_ISDIR) c len' n' :: post ->
  M !! x = Some a -> M !! y = Some b' -> p = a ++ CH_SLASH :: n -> q = b' ++ CH_SLASH :: n' ->
  zlen p < PATH_MAX -> is_Some (k_dirs (dt_kern s) !! q) -> below p b' = false -> (forall y t, M !! y = Some t -> below q t = false) ->
  alive (rootDirPaths s) (dt_kern s) -> gone (rootDirPaths s) (dt_kern s) M p (fun t => below q t = true) ->
  exists r s', processNextInotifyEvent (mkEv x (Z.lor IN_MOVED_FROM IN_ISDIR) c len n) [] b false s = Ok r s' /\
    consumed s s' (mkEv x (Z.lor IN_MOVED_FROM IN_ISDIR) c len n) [] r.
Proof.
  intros Hl Hk Hr Hd Hc Hb Hpost El Hx Hy Hp Hq Hlen Hq' Hpb Hno Ha Hg.
  destruct (proc_out s M _ x c len n a p [] b false Hk Hc Hx Hp Hlen Hg) as (s' & l & E & Hk' & Hc' & Hs' & Hsame & Hqu & Hi); [by rewrite Hb|done|].
  pose proof Hsame as (Hrt & Hig & _ & _ & Hdd & _). eexists _, s'. split; [exact E|]. split; [by apply same_fs|]. exists []. split; [by left|].
  assert (ignored (post ++ l)) as Hpl by (by apply ignored_app). rewrite El in Hqu. cbn [app] in *. rewrite Hqu. split.
  - apply (pend_stage s' (cut p M) (fun t => below q t = true) _ [mkEv y (Z.lor IN_MOVED_TO IN_ISDIR) c len' n'] (post ++ l));
      [|done|by rewrite Hrt|by rewrite Hrt, Hig|done|done| |done|done].
    { apply Forall_cons in Hl as [Hy0 _]. constructor; [done|]. by apply ignored_len. }
    apply (St_new _ _ _ y IN_MOVED_TO c len' n' b' q); [by apply cut_lookup|done|by rewrite Hdd|by right| |by eapply alive_same|done].
    intros z t Hz. apply cut_lookup in Hz as [Hz _]. by eapply Hno.
  - left. rewrite El. cbn. rewrite (busy_ignored _ Hpl). vm_compute. lia.
Qed.

(** An event of the stage [mid]. *)
Lemma proc_stage s M ev rest post b ft :
  Forall (fun ev => 0 <= e_len ev <= NAME_MAX + 1) (ev :: rest ++ k_queue (dt_kern s)) ->
  kwf (dt_kern s) -> roots_ok (rootDirPaths s) -> ignoreRootDirs s = dead (rootDirPaths s) -> crep (wlCache s) M ->
  (ev_size ev <? b) = match rest with [] => false | _ => true end -> ignored post ->
  forall mid, stage (rootDirPaths s) (dt_kern s) M mid -> mid <> [] -> ev :: rest ++ k_queue (dt_kern s) = mid ++ post ->
  (exists n s', processNextInotifyEvent ev rest b ft s = Ok n s' /\ consumed s s' ev rest n) \/
  ft = true /\ rest = [] /\ processNextInotifyEvent ev rest b ft s = Ok (-1) s.
Proof.
  intros Hl Hk Hr Hd Hc Hb Hpost mid Hst Hmid El.
  assert (busy (ev :: rest ++ k_queue (dt_kern s)) = length mid) as Hbusy.
  { rewrite El, busy_app, (busy_ignored post Hpost). rewrite (busy_stage _ _ _ _ Hst). lia. }
  destruct Hst as
    [|x bit c len n a q Hx Hq Hq' Hbit Hno Ha Hs|x y c len len' n n' a b' p q Hx Hy Hp Hq Hlen Hq' Hpb Hno Ha Hs Hg
    |x c len n a p Hx Hp Hlen Ha Hg|x d p l' Hx Hz Ha Hg|x d p l' Hx Hz Ha Hs]; [done|..]; injection El as -> El.
  - left. destruct (proc_new s M x bit c len n a q rest b ft Hk Hc Hx Hq Hq' Hbit Hno Hs) as (s' & E & (Hk' & M' & Hc' & Hs') & Hsame & Hqu).
    pose proof Hsame as (Hrt & Hig & _ & _ & Hdd & _). eexists _, s'. split; [exact E|].
    apply (consumed_quiet _ _ M' _ _ _ rest); [by apply same_fs|by left|done|by rewrite Hrt|by rewrite Hrt, Hig|by eapply alive_same|done..|by rewrite Hqu, El|].
    rewrite Hbusy. simpl. lia.
  - destruct rest as [|ev2 rest].
    + destruct ft; [right; split_and!; [done..|]; by apply (proc_hanging s M x c len n a [] b)|]. left. cbn in El.
      apply (moved_apart s M x y c len len' n n' a b' p q post b); try done. apply Forall_cons in Hl as [_ Hl]. by rewrite <- El.
    + cbn in El. injection El as -> El. left. unfold ev_size in Hb. cbn in Hb.
      destruct (proc_move s M x y c len len' n n' a b' p q rest b ft) as (s' & E & Hk' & Hc' & Hs' & Hsame & Hqu); try done.
      pose proof Hsame as (Hrt & Hig & _ & _ & Hdd & _). eexists _, s'. split; [exact E|].
      apply (consumed_quiet _ _ (renamed p q <$> M) _ _ _ rest); [by apply same_fs|right; by eexists|done|by rewrite Hrt|by rewrite Hrt, Hig|by eapply alive_same|done..|by rewrite Hqu, El|].
      rewrite Hbusy. simpl. lia.
  - destruct (decide (ft = true /\ rest = [])) as [[-> ->]|Hnot]; [right; split_and!; [done..|]; by apply (proc_hanging s M x c len n a [] b)|]. left.
    destruct (proc_out s M _ x c len n a p rest b ft Hk Hc Hx Hp Hlen Hg) as (s' & l & E & Hk' & Hc' & Hs' & Hsame & Hqu & Hi).
    { unfold ev_size in Hb. cbn in Hb. rewrite Hb. destruct rest as [|ev2 rest]; [done|]. intros _. exists ev2, rest. split; [done|].
      cbn in El. rewrite <- El in Hpost. apply Forall_cons in Hpost as [[z ->] _]. done. }
    { unfold ev_size in Hb. cbn in Hb. rewrite Hb. destruct rest as [|ev2 rest]; [|done]. intros _. destruct ft; [|done]. by exfalso; apply Hnot. }
    pose proof Hsame as (Hrt & Hig & _ & _ & Hdd & _). eexists _, s'. split; [exact E|].
    apply (consumed_quiet _ _ (cut p M) _ _ _ rest); [by apply same_fs|by left|done|by rewrite Hrt|by rewrite Hrt, Hig|by eapply alive_same|done..| |].
    { rewrite Hqu, app_assoc, El. by apply ignored_app. }
    rewrite Hbusy. simpl. lia.
  - left. destruct (proc_self s M x d p l' rest b ft Hk Hc Hd Hx Hz Hg) as (s' & l & E & Hk' & Hc' & Hs' & Hrt & Hig & Hsame & Hqu & Hi).
    eexists _, s'. split; [exact E|]. pose proof Hsame as (Hdd & _). destruct Hz as (i & _ & Hl' & _).
    apply (consumed_quiet _ _ (cut p M) _ _ _ rest); [done|by left; destruct d|done| |congruence|by eapply alive_same|done|by rewrite Hrt| |].
    { rewrite Hrt, Hl'. by apply roots_ok_sub. }
    { rewrite Hqu, app_assoc, El. by apply ignored_app. }
    rewrite Hbusy. simpl. lia.
  - left. destruct (proc_del s M x d p l' rest b ft Hk Hc Hd Hx Hz Hs) as (s' & E & Hkk & Hc' & Hrt & Hig).
    eexists _, s'. split; [exact E|].
    apply (consumed_quiet _ _ (delete x M) _ _ _ rest); [unfold samefs; by rewrite Hkk|by left; destruct d|by rewrite Hkk| |congruence|by rewrite Hkk, Hrt|done|by rewrite Hkk, Hrt|by rewrite Hkk, El|].
    { rewrite Hrt. destruct (is_root _ _); [|by subst]. destruct Hz as (i & _ & -> & _). by apply roots_ok_sub. }
    rewrite Hbusy. simpl. lia.
Qed.

(** The first event of those that are pending. *)
Lemma proc_run s ev rest b ft :
  pend s (ev :: rest ++ k_queue (dt_kern s)) -> (ev_size ev <? b) = match rest with [] => false | _ => true end ->
  (exists n s', processNextInotifyEvent ev rest b ft s = Ok n s' /\ consumed s s' ev rest n) \/
  ft = true /\ rest = [] /\ processNextInotifyEvent ev rest b ft s = Ok (-1) s.
Proof.
  intros [Hl Hk Hr Hd (M & Hc & Hf & pre & mid & post & El & Hpre & Hpost & Hst)] Hb.
  assert (forall x pre' post', ev = mkEv x IN_IGNORED 0 0 [] -> rest ++ k_queue (dt_kern s) = pre' ++ mid ++ post' -> ignored pre' -> ignored post' ->
    exists n s', processNextInotifyEvent ev rest b ft s = Ok n s' /\ consumed s s' ev rest n) as Hign.
  { intros x pre' post' -> El' Hpre' Hpost'. exists sizeof_event, s. split; [by apply (proc_ignored s M)|]. split; [done|]. exists rest. split; [by left|].
    split; [|right; split; [done|simpl; lia]]. apply Forall_cons in Hl as [_ Hl]. split; [done..|]. exists M. split; [done|]. split; [done|].
    by exists pre', mid, post'. }
  destruct pre as [|e pre].
  - destruct mid as [|e mid]; [|eapply (proc_stage s M ev rest post b ft); try done]. left. destruct post as [|e post]; [done|].
    injection El as <- El. apply Forall_cons in Hpost as [[x Hx] Hpost]. by apply (Hign x [] post).
  - injection El as <- El. apply Forall_cons in Hpre as [[x Hx] Hpre]. left. by apply (Hign x pre post).
Qed.

End walk.

(** ** The loops of the directory watcher

    However the reads cut the queue, [processInotifyEvents] ends, uses up
    events, and leaves the rest pending; the rounds of [main] empty the
    queue. *)
(** ** Parts of the queue *)
Lemma synced_queue q l k M todo : synced l k M todo -> synced l (set_queue q k) M todo.
Proof. intros []. by split. Qed.

Lemma gone_queue q l k M p todo : gone l k M p todo -> gone l (set_queue q k) M p todo.
Proof. intros [Hw []]. split; [done|by split]. Qed.

Lemma stage_queue q l k M mid : stage l k M mid -> stage l (set_queue q k) M mid.
Proof.
  intros [].
  - apply St_quiet; [done|by apply synced_queue].
  - eapply St_new; try done; by apply synced_queue.
  - eapply St_move; try done; [by apply synced_queue|by apply gone_queue].
  - eapply St_out; try done; by apply gone_queue.
  - eapply St_self; try done; by apply gone_queue.
  - eapply St_del; try done; by apply synced_queue.
Qed.

Lemma pend_queue q s l : pend s l -> pend (on_kern (set_queue q) s) l.
Proof.
  intros [Hl [[] ? ? ? ?] Hr Hd (M & Hc & Hf & pre & mid & post & El & Hpre & Hpost & Hst)]. split; [done|by split|done|done|].
  exists M. split; [done|]. split; [done|]. exists pre, mid, post. split_and!; [done..|]. by apply stage_queue.
Qed.

Lemma fitting_le n space l : (fitting n space l <= n)%nat.
Proof. revert space l. induction n as [|n IH]; intros space [|ev l]; simpl; try lia. case_match; [|lia]. specialize (IH (space - ev_size ev) l). lia. Qed.

Lemma evs_size_app l l' : evs_size (l ++ l') = evs_size l + evs_size l'.
Proof. induction l as [|ev l IH]; [done|]. cbn [evs_size app]. rewrite IH. lia. Qed.

Lemma evs_size_pos l : Forall (fun ev => 0 <= e_len ev <= NAME_MAX + 1) l -> 0 <= evs_size l /\ (l <> [] -> 0 < evs_size l).
Proof.
  induction 1 as [|ev l He _ [IH _]]; [done|]. assert (0 < evs_size (ev :: l)); [|lia]. cbn [evs_size]. unfold ev_size, sizeof_event. lia.
Qed.

Lemma fitting_fits n space l :
  Forall (fun ev => 0 <= e_len ev <= NAME_MAX + 1) l -> 0 <= space -> evs_size (take (fitting n space l) l) <= space.
Proof.
  revert space l. induction n as [|n IH]; intros space [|ev l] Hl Hs; simpl; try done. apply Forall_cons in Hl as [He Hl].
  destruct (ev_size ev <=? space) eqn:E; simpl; [|lia]. zbool. specialize (IH (space - ev_size ev) l Hl). lia.
Qed.

Lemma advance_one ev l : 0 < ev_size ev -> advance (ev_size ev) (ev :: l) = l.
Proof. intros H. cbn. rewrite ltb_true by done. rewrite Z.sub_diag. by destruct l. Qed.

Lemma advance_two ev ev2 l : 0 < ev_size ev -> 0 < ev_size ev2 -> advance (ev_size ev + ev_size ev2) (ev :: ev2 :: l) = l.
Proof. intros H H2. cbn. rewrite !ltb_true by lia. replace (_ - _ - _) with 0 by lia. by destruct l. Qed.

Definition lesseq (l' l : list event) : Prop := l' = l \/ less l' l.

Lemma less_trans l1 l2 l3 : lesseq l1 l2 -> less l2 l3 -> less l1 l3.
Proof. unfold lesseq, less. intros [->|?] ?; [done|lia]. Qed.

Section walk.
Context {walk : Nftw} {Hwalk : NftwOk}.

(** [rem] is the size of the events in the buffer; after an interrupted
    [read] it is one less, and there is one event. *)
Definition rem_ok (evs : list event) (rem : Z) (ft : bool) : Prop :=
  rem = evs_size evs \/ rem = evs_size evs - 1 /\ (evs = [] \/ ft = false /\ length evs = 1%nat).

Lemma process_loop_run fuel : forall s evs rem ft reads,
  pend s (evs ++ k_queue (dt_kern s)) -> rem_ok evs rem ft ->
  (2 * length evs + 2 * sum_list reads + (if ft then 1 else 0) < fuel)%nat ->
  exists s', process_loop fuel evs rem ft reads s = Ok tt s' /\ pend s' (k_queue (dt_kern s')) /\ samefs s s' /\
    lesseq (k_queue (dt_kern s')) (evs ++ k_queue (dt_kern s)) /\ (evs <> [] -> less (k_queue (dt_kern s')) (evs ++ k_queue (dt_kern s))).
Proof.
  induction fuel as [|fuel IH]; intros s evs rem ft reads Hp Hrem Hfuel; [lia|]. cbn [process_loop].
  pose proof (pd_len _ _ Hp) as Hlen. apply Forall_app in Hlen as [Hlen _].
  destruct evs as [|ev rest].
  { rewrite ltb_false by (destruct Hrem as [->|[-> _]]; cbn [evs_size]; lia). exists s. split_and!; [done..|by left|done]. }
  apply Forall_cons in Hlen as [Hev Hrest]. destruct (evs_size_pos rest Hrest) as [Hr0 Hr1].
  assert (16 <= ev_size ev) as Hsz by (unfold ev_size, sizeof_event; lia).
  rewrite ltb_true by (destruct Hrem as [->|[-> _]]; cbn [evs_size]; lia).
  destruct (proc_run s ev rest rem ft Hp) as [(n & s' & E & Hfs & l' & Hn & Hp' & Hless)|(-> & -> & E)].
  { destruct rest as [|ev2 rest]; [apply ltb_false; destruct Hrem as [->|[-> _]]; cbn [evs_size]; lia|].
    destruct Hrem as [->|[_ [?|[_ ?]]]]; [|done|done]. apply ltb_true. specialize (Hr1 ltac:(done)). cbn [evs_size] in *. lia. }
  - rewrite (pbind_ok _ _ _ _ _ E).
    assert (0 < n /\ advance n (ev :: rest) = l' /\ rem_ok l' (rem - n) true /\ (length l' <= length rest)%nat) as (Hn0 & Hadv & Hrem' & Hll).
    { destruct Hn as [[-> ->]|(ev2 & -> & ->)].
      - split_and!; [lia|apply advance_one; lia| |done]. destruct Hrem as [->|[-> [?|[_ ?]]]]; [left; cbn [evs_size]; lia|done|right].
        destruct rest; [|done]. split; [cbn [evs_size]; lia|by left].
      - apply Forall_cons in Hrest as [He2 _]. assert (16 <= ev_size ev2) by (unfold ev_size, sizeof_event; lia).
        split_and!; [lia|apply advance_two; lia| |simpl; lia]. destruct Hrem as [->|[_ [?|[_ ?]]]]; [left; cbn [evs_size]; lia|done|done]. }
    rewrite ltb_true by done. rewrite Hadv.
    destruct (IH s' l' (rem - n) true reads Hp' Hrem') as (s2 & E2 & Hp2 & Hfs2 & Hle2 & _); [cbn [length] in Hfuel; destruct ft; lia|].
    assert (less (k_queue (dt_kern s2)) ((ev :: rest) ++ k_queue (dt_kern s))) as Hl by (by eapply less_trans).
    exists s2. split_and!; [done|done|by transitivity s'|by right|done].
  - rewrite (pbind_ok _ _ _ _ _ E). change (0 <? -1) with false. cbn iota. unfold read_events. pstep.
    destruct Hrem as [->|[_ [?|[? _]]]]; [|done|done].
    set (m := fitting _ _ _). pose proof (fitting_le (hd 0%nat reads) (INOTIFY_READ_BUF_LEN - evs_size [ev]) (k_queue (dt_kern s))) as Hm.
    fold m in Hm. set (s1 := on_kern _ s).
    assert (([ev] ++ take m (k_queue (dt_kern s))) ++ k_queue (dt_kern s1) = [ev] ++ k_queue (dt_kern s)) as Eq.
    { rewrite <- app_assoc. f_equal. apply take_drop. }
    destruct (IH s1 ([ev] ++ take m (k_queue (dt_kern s))) (evs_size [ev] + match take m (k_queue (dt_kern s)) with [] => -1 | _ :: _ => evs_size (take m (k_queue (dt_kern s))) end)
      false (tl reads)) as (s2 & E2 & Hp2 & Hfs2 & Hle2 & Hl2).
    + rewrite Eq. by apply pend_queue.
    + destruct (take m (k_queue (dt_kern s))) as [|e l]; [right|left; by rewrite <- evs_size_app]. split; [cbn; lia|by right].
    + rewrite length_app, length_take. cbn [length] in *. destruct reads as [|r reads]; cbn [sum_list tl hd] in *; unfold id in *; clearbody m; lia.
    + rewrite Eq in *. exists s2. split_and!; [|done|by transitivity s1|done|by intros _; apply Hl2]. destruct (take m _); exact E2.
Qed.

(** A buffer size with room for an event, and not larger than the buffer. *)
Definition size_ok (readBufferSize : Z) : Prop :=
  readBufferSize <= 0 \/ sizeof_event + NAME_MAX + 1 <= readBufferSize <= INOTIFY_READ_BUF_LEN.

(** The first [read] gets at least one event, and fits the buffer. *)
Lemma first_read rb reads s :
  size_ok rb -> k_queue (dt_kern s) <> [] -> Forall (fun ev => 0 <= e_len ev <= NAME_MAX + 1) (k_queue (dt_kern s)) ->
  exists ev evs q, k_queue (dt_kern s) = ev :: evs ++ q /\ evs_size (ev :: evs) <= INOTIFY_READ_BUF_LEN /\ (length evs < Nat.max 1 (hd 0%nat reads))%nat /\
    processInotifyEvents rb reads s = process_loop (2 + 2 * S (sum_list reads)) (ev :: evs) (evs_size (ev :: evs)) true (tl reads) (on_kern (set_queue q) s).
Proof.
  intros Hrb Hq Hlen. unfold processInotifyEvents. set (cnt := if 0 <? rb then rb else INOTIFY_READ_BUF_LEN).
  assert (sizeof_event + NAME_MAX + 1 <= cnt <= INOTIFY_READ_BUF_LEN) as Hcnt.
  { unfold cnt. destruct Hrb as [H|H]; [rewrite ltb_false by done; by vm_compute|]. rewrite ltb_true; [done|]. unfold sizeof_event, NAME_MAX in H. lia. }
  pstep. rewrite pbind_guard by (by destruct (k_queue (dt_kern s))). unfold read_events. pstep.
  set (n := Nat.max 1 _). set (m := fitting _ _ _). pose proof (fitting_le n cnt (k_queue (dt_kern s))) as Hm. fold m in Hm.
  assert (take m (k_queue (dt_kern s)) <> []) as Hne.
  { unfold m. destruct (k_queue (dt_kern s)) as [|ev l]; [done|]. apply Forall_cons in Hlen as [He _]. destruct n as [|n'] eqn:En; [unfold n in En; lia|].
    cbn [fitting]. rewrite leb_true; [done|]. unfold ev_size. lia. }
  pose proof (fitting_fits n cnt (k_queue (dt_kern s)) Hlen ltac:(unfold sizeof_event, NAME_MAX in Hcnt; lia)) as Hsz. fold m in Hsz.
  pose proof (take_drop m (k_queue (dt_kern s))) as Eq. pose proof (length_take (k_queue (dt_kern s)) m) as Hl.
  destruct (take m (k_queue (dt_kern s))) as [|ev evs]; [done|]. exists ev, evs, (drop m (k_queue (dt_kern s))).
  split_and!; [by rewrite <- Eq at 1|lia|cbn [length] in Hl; lia|]. rewrite pbind_guard by done. rewrite pbind_guard by (apply ltb_false; lia). done.
Qed.

Lemma processInotifyEvents_run rb reads s :
  pend s (k_queue (dt_kern s)) -> k_queue (dt_kern s) <> [] -> size_ok rb ->
  exists s', processInotifyEvents rb reads s = Ok tt s' /\ pend s' (k_queue (dt_kern s')) /\ samefs s s' /\
    less (k_queue (dt_kern s')) (k_queue (dt_kern s)).
Proof.
  intros Hp Hq Hrb. destruct (first_read rb reads s Hrb Hq (pd_len _ _ Hp)) as (ev & evs & q & Eq & _ & Hm & ->). set (s1 := on_kern _ s).
  destruct (process_loop_run (2 + 2 * S (sum_list reads)) s1 (ev :: evs) (evs_size (ev :: evs)) true (tl reads)) as (s' & E & Hp' & Hfs & _ & Hl).
  - cbn [s1 dt_kern on_kern set_kern k_queue set_queue app]. rewrite <- Eq. by apply pend_queue.
  - by left.
  - destruct reads as [|r reads]; cbn [sum_list tl hd length] in *; unfold id in *; lia.
  - exists s'. split_and!; [exact E|done|by transitivity s1|]. rewrite Eq. by apply Hl.
Qed.

(** ** Rounds *)
Lemma main_round_run rb reads s :
  pend s (k_queue (dt_kern s)) -> size_ok rb ->
  exists s', main_round rb None reads s = Ok tt s' /\ pend s' (k_queue (dt_kern s')) /\ samefs s s' /\
    (k_queue (dt_kern s) <> [] -> less (k_queue (dt_kern s')) (k_queue (dt_kern s))) /\ (k_queue (dt_kern s) = [] -> s' = s).
Proof.
  intros Hp Hrb. unfold main_round. pstep. destruct (k_queue (dt_kern s)) as [|ev l] eqn:Eq.
  - exists s. rewrite Eq. by split_and!.
  - rewrite <- Eq in *. destruct (processInotifyEvents_run rb reads s Hp) as (s' & E & Hp' & Hfs & Hl); [by rewrite Eq|done|].
    exists s'. split_and!; [done..|]. congruence.
Qed.

Lemma less_wf : well_founded less.
Proof.
  intros l. remember (busy l) as b eqn:Eb. revert l Eb. induction (lt_wf b) as [b _ IHb]. intros l ->.
  remember (length l) as n eqn:En. revert l En IHb. induction (lt_wf n) as [n _ IHn]. intros l -> IHb. constructor. intros l' [H|[H1 H2]].
  - by apply (IHb (busy l')).
  - apply (IHn (length l')); [done|done|]. by rewrite H1.
Qed.

(** Enough rounds empty the queue, whatever the reads get. *)
Lemma main_loop_run rb : forall l s (script : nat -> list nat),
  size_ok rb -> pend s (k_queue (dt_kern s)) -> k_queue (dt_kern s) = l ->
  exists n s', main_loop rb (script <$> seq 0 n) s = Ok tt s' /\ pend s' [] /\ k_queue (dt_kern s') = [] /\ samefs s s'.
Proof.
  intros l. induction (less_wf l) as [l _ IH]. intros s script Hrb Hp El. destruct l as [|ev l0].
  { exists 0%nat, s. split; [done|]. split; [by rewrite El in Hp|]. done. }
  destruct (main_round_run rb (script 0%nat) s Hp Hrb) as (s1 & E & Hp1 & Hfs & Hl & _). rewrite El in Hl.
  destruct (IH (k_queue (dt_kern s1)) ltac:(by apply Hl) s1 (fun n => script (S n)) Hrb Hp1 eq_refl) as (n & s2 & E2 & Hp2 & Hq & Hfs2).
  exists (S n), s2. split_and!; [|done|done|by transitivity s1]. cbn [seq fmap list_fmap main_loop]. rewrite (pbind_ok _ _ _ _ _ E). rewrite <- E2.
  f_equal. rewrite <- seq_shift. rewrite <- list_fmap_compose. done.
Qed.

End walk.
