(* ===== verification/DtreeFs.v ===== *)
(** * Changes of the file system

    Making, renaming and removing directories, with the events that the
    kernel queues for the watches of the directories concerned. *)
From S2P Require Import Prelude CString Dtree DtreeCache DtreeWalk DtreeEvents.

Open Scope prog_scope.

Definition child (a n : bytes) : bytes := a ++ CH_SLASH :: n.

(** The size of the name in the event, a multiple of that of the header. *)
Definition name_len (n : bytes) : Z :=
  match n with [] => 0 | _ => (zlen n + sizeof_event) / sizeof_event * sizeof_event end.

Definition push (ev : event) (k : kern) : kern := set_queue (k_queue k ++ [ev]) k.

Definition set_fs (d : gmap bytes Z) (f : gset bytes) (k : kern) : kern := mkK d f (k_watch k) (k_next k) (k_max k) (k_queue k).

(** An event for the directory [p], when its watch asks for [bit]. *)
Definition notify (p : bytes) (bit mask cookie : Z) (name : bytes) (k : kern) : kern :=
  match k_dirs k !! p with
  | None => k
  | Some ino =>
      match k_watch k !! ino with
      | None => k
      | Some (x, m) => if has m bit then push (mkEv x mask cookie (name_len name) name) k else k
      end
  end.

(** [mkdir], of [a/n] and then of those below it: the new directories are
    [T], with the files [F]. *)
Definition fs_mkdir (a n : bytes) (T : gmap bytes Z) (F : gset bytes) (k : kern) : kern :=
  set_fs (T ∪ k_dirs k) (F ∪ k_files k) (notify a IN_CREATE (Z.lor IN_CREATE IN_ISDIR) 0 n k).

Definition moved (p q t : bytes) : bytes := if below p t then q ++ drop (length p) t else t.

Definition move_dirs (p q : bytes) (d : gmap bytes Z) : gmap bytes Z :=
  list_to_map ((fun ti => (moved p q ti.1, ti.2)) <$> map_to_list d).

(** [rename] of [a/n] to [b/n']. *)
Definition fs_rename (a n b n' : bytes) (cookie : Z) (dir : bool) (k : kern) : kern :=
  let p := child a n in
  let q := child b n' in
  let k1 := notify a IN_MOVED_FROM (Z.lor IN_MOVED_FROM IN_ISDIR) cookie n k in
  let k2 := notify b IN_MOVED_TO (Z.lor IN_MOVED_TO IN_ISDIR) cookie n' k1 in
  let k3 := notify p IN_MOVE_SELF (self_mask IN_MOVE_SELF dir) 0 [] k2 in
  set_fs (move_dirs p q (k_dirs k)) (set_map (moved p q) (k_files k)) k3.

(** [rmdir]; the watch goes with the directory. *)
Definition fs_rmdir (p : bytes) (dir : bool) (k : kern) : kern :=
  let k1 := notify p IN_DELETE_SELF (self_mask IN_DELETE_SELF dir) 0 [] k in
  let k2 := match k_dirs k !! p with
            | None => k1
            | Some ino =>
                match k_watch k !! ino with
                | None => k1
                | Some (x, _) => set_watch (delete ino (k_watch k1)) (push (mkEv x IN_IGNORED 0 0 []) k1)
                end
            end in
  set_fs (delete p (k_dirs k)) (k_files k) k2.

(** ** When they are possible *)
Definition nothing_at (q : bytes) (k : kern) : Prop := forall t, below q t = true -> k_dirs k !! t = None /\ (t ∉ k_files k).

Definition name_ok (n : bytes) : Prop := (CH_SLASH ∉ n) /\ zlen n <= NAME_MAX.

(** With the roots [l]: a change of the tree below them, of a directory that
    is not above a root, and of a root only when others are left; a root is
    not moved to where it is monitored. *)
Inductive fs_op (l : list (option bytes)) (k : kern) : kern -> Prop :=
  | Op_mkdir a n T F :
      is_Some (k_dirs k !! a) -> name_ok n -> nothing_at (child a n) k -> is_Some (T !! child a n) ->
      (forall t i, T !! t = Some i -> below (child a n) t = true /\ i ∉ inodes k) ->
      (forall t, t ∈ F -> below (child a n) t = true) ->
      fs_ok (fs_mkdir a n T F k) -> fs_op l k (fs_mkdir a n T F k)
  | Op_rename a n b n' c d :
      is_Some (k_dirs k !! a) -> is_Some (k_dirs k !! b) -> is_Some (k_dirs k !! child a n) -> name_ok n -> name_ok n' ->
      nothing_at (child b n') k -> below (child a n) (child b n') = false ->
      (forall r, Some r ∈ l -> below (child a n) r = true -> r = child a n) ->
      (Some (child a n) ∈ l -> dead l + 1 < zlen l /\ ~ under l b) ->
      fs_ok (fs_rename a n b n' c d k) -> fs_op l k (fs_rename a n b n' c d k)
  | Op_rmdir p d :
      is_Some (k_dirs k !! p) -> (forall t, is_Some (k_dirs k !! t) -> below p t = true -> t = p) ->
      (Some p ∈ l -> dead l + 1 < zlen l) ->
      fs_ok (fs_rmdir p d k) -> fs_op l k (fs_rmdir p d k).

(** ** Paths *)
Lemma below_parent r a n : (CH_SLASH ∉ n) -> below r (child a n) = true -> r = child a n \/ below r a = true.
Proof.
  intros Hn. unfold child. rewrite !below_spec. intros (t & E & Ht). destruct t as [|c t]; [left; by rewrite app_nil_r in E|]. right.
  specialize (Ht c t eq_refl). subst c. apply app_eq_inv in E as [(k & -> & E)|(k & -> & E)].
  - exists k. split; [done|]. destruct k as [|c k]; [done|]. injection E as <- _. by intros c' u [= <- _].
  - destruct k as [|c k]; [exists []; by rewrite !app_nil_r|]. injection E as <- ->. exfalso. apply Hn, elem_of_app. right. by left.
Qed.

Lemma child_not_above a n : below (child a n) a = false.
Proof.
  destruct (below _ _) eqn:E; [|done]. apply below_spec in E as (t & E & _). apply (f_equal length) in E. unfold child in E.
  rewrite !length_app in E. simpl in E. lia.
Qed.

Lemma moved_below p q t : below p t = true -> moved p q t = q ++ drop (length p) t /\ below q (moved p q t) = true /\ t = p ++ drop (length p) t.
Proof.
  intros Hb. unfold moved. rewrite Hb. apply below_spec in Hb as (u & -> & Hu). rewrite drop_app_length. split_and!; [done| |done]. by apply below_app.
Qed.

Lemma moved_other p q t : below p t = false -> moved p q t = t.
Proof. unfold moved. by intros ->. Qed.

(** The directories after a rename. *)
Lemma move_dirs_lookup p q k u i :
  nothing_at q k -> move_dirs p q (k_dirs k) !! u = Some i <-> exists t, k_dirs k !! t = Some i /\ moved p q t = u.
Proof.
  intros Hq. unfold move_dirs. rewrite <- elem_of_list_to_map.
  - rewrite list_elem_of_fmap. split.
    + intros ([t j] & E & Hin). injection E as -> ->. exists t. by apply elem_of_map_to_list in Hin.
    + intros (t & Ht & <-). exists (t, i). split; [done|]. by apply elem_of_map_to_list.
  - rewrite <- list_fmap_compose. rewrite (list_fmap_ext _ (moved p q ∘ fst)) by done. rewrite list_fmap_compose.
    apply NoDup_fmap_2_strong; [|apply NoDup_fst_map_to_list]. intros t1 t2 H1 H2 E.
    apply list_elem_of_fmap in H1 as ([u1 i1] & -> & H1%elem_of_map_to_list). apply list_elem_of_fmap in H2 as ([u2 i2] & -> & H2%elem_of_map_to_list).
    cbn [fst] in *. destruct (below p u1) eqn:B1, (below p u2) eqn:B2.
    + destruct (moved_below p q _ B1) as (E1 & _ & ->), (moved_below p q _ B2) as (E2 & _ & ->). rewrite E1, E2 in E. by apply app_inv_head in E as ->.
    + destruct (moved_below p q _ B1) as (_ & Hb & _). rewrite E, (moved_other _ _ _ B2) in Hb. destruct (Hq _ Hb). congruence.
    + destruct (moved_below p q _ B2) as (_ & Hb & _). rewrite <- E, (moved_other _ _ _ B1) in Hb. destruct (Hq _ Hb). congruence.
    + by rewrite !moved_other in E.
Qed.

(** ** Changes and their events

    After a change of the file system, the events that the kernel queued say
    how to bring the cache back into agreement. *)
(** ** Events of a directory *)
Lemma name_len_bound n : zlen n <= NAME_MAX -> 0 <= name_len n <= NAME_MAX + 1.
Proof.
  intros H. pose proof (zlen_nonneg n). unfold name_len, NAME_MAX, sizeof_event in *. destruct n as [|c n]; [lia|].
  pose proof (Z.div_pos (zlen (c :: n) + 16) 16). assert ((zlen (c :: n) + 16) / 16 < 17) by (apply Z.div_lt_upper_bound; lia). lia.
Qed.

Section ops.
Context (l : list (option bytes)) (k : kern) (M : gmap Z bytes).
Context (Hk : kwf k) (Hroots : roots_ok l) (Halive : alive l k) (Hs : synced l k M none).

(** The directory has a watch exactly when it is monitored. *)
Lemma watched_or p ino :
  k_dirs k !! p = Some ino ->
  (exists x, M !! x = Some p /\ k_watch k !! ino = Some (x, watch_flags (is_root l p)) /\ under l p) \/
  k_watch k !! ino = None /\ ~ under l p.
Proof.
  intros Hp. destruct (k_watch k !! ino) as [[x m]|] eqn:E.
  - left. destruct (synced_path l k M none p ino x m Hk Hs Hp E) as [Hx ->]. exists x. destruct (sy_map _ _ _ _ Hs x p Hx) as [? _]. done.
  - right. split; [done|]. intros Hu. destruct (sy_all _ _ _ _ Hs p ino Hp Hu) as [[]|(x & m & ?)]. congruence.
Qed.

Lemma notify_on p ino x k1 bit mask c n :
  k_dirs k !! p = Some ino -> k_watch k !! ino = Some (x, watch_flags (is_root l p)) -> k_dirs k1 = k_dirs k -> k_watch k1 = k_watch k ->
  has (watch_flags (is_root l p)) bit = true -> notify p bit mask c n k1 = push (mkEv x mask c (name_len n) n) k1.
Proof. intros Hp Hw Ed Ew Hb. unfold notify. by rewrite Ed, Hp, Ew, Hw, Hb. Qed.

Lemma notify_off p ino k1 bit mask c n :
  k_dirs k !! p = Some ino -> (k_watch k !! ino = None \/ exists x m, k_watch k !! ino = Some (x, m) /\ has m bit = false) ->
  k_dirs k1 = k_dirs k -> k_watch k1 = k_watch k -> notify p bit mask c n k1 = k1.
Proof. intros Hp Hw Ed Ew. unfold notify. rewrite Ed, Hp, Ew. by destruct Hw as [->|(x & m & -> & ->)]. Qed.

(** What stands above a new path. *)
Lemma not_under_child b n t :
  (CH_SLASH ∉ n) -> nothing_at (child b n) k -> ~ under l b -> below (child b n) t = true -> ~ under l t.
Proof.
  intros Hn Hno Hb Ht (r & Hr & Hrt). destruct (Halive r Hr) as [i Hi]. destruct (below_common r (child b n) t Hrt Ht) as [H|H].
  - destruct (below_parent r b n Hn H) as [->|H']; [|apply Hb; by exists r]. destruct (Hno _ (below_refl _)). congruence.
  - destruct (Hno _ H). congruence.
Qed.

(** ** New directories *)
Section mkdir.
Context (a n : bytes) (T : gmap bytes Z) (F : gset bytes) (Hn : CH_SLASH ∉ n).
Context (Hno : nothing_at (child a n) k) (HT : forall t i, T !! t = Some i -> below (child a n) t = true /\ i ∉ inodes k).

Lemma mkdir_dirs p i : k_dirs k !! p = Some i -> (T ∪ k_dirs k) !! p = Some i.
Proof.
  intros Hp. rewrite lookup_union_r; [done|]. destruct (T !! p) as [j|] eqn:E; [|done]. destruct (HT p j E) as [Hb _]. destruct (Hno p Hb). congruence.
Qed.

Lemma mkdir_synced k' : k_dirs k' = T ∪ k_dirs k -> k_watch k' = k_watch k -> synced l k' M (fun t => below (child a n) t = true).
Proof.
  intros Ed Ew. split; rewrite ?Ed, ?Ew.
  - intros x p Hx. destruct (sy_map _ _ _ _ Hs x p Hx) as (Hu & i & Hw & Hd). split; [done|]. exists i. split; [done|]. by apply mkdir_dirs.
  - apply Hs.
  - intros p i Hp Hu. apply lookup_union_Some_raw in Hp as [Hp|[_ Hp]]; [left; by apply (HT p i)|]. right.
    destruct (sy_all _ _ _ _ Hs p i Hp Hu) as [[]|?]; done.
Qed.

Lemma mkdir_kwf k' :
  fs_ok k' -> k_dirs k' = T ∪ k_dirs k -> k_watch k' = k_watch k -> k_next k' = k_next k -> kwf k'.
Proof.
  intros Hf Ed Ew En. split; rewrite ?Ed, ?Ew, ?En; try apply Hk; [done|]. intros i x m Hi. destruct (kw_live _ Hk i x m Hi) as [p Hp].
  exists p. by apply mkdir_dirs.
Qed.

Lemma mkdir_stage :
  is_Some (k_dirs k !! a) -> is_Some (T !! child a n) ->
  exists mid, k_queue (fs_mkdir a n T F k) = k_queue k ++ mid /\ stage l (fs_mkdir a n T F k) M mid /\
    (zlen n <= NAME_MAX -> Forall (fun ev => 0 <= e_len ev <= NAME_MAX + 1) mid) /\
    k_watch (fs_mkdir a n T F k) = k_watch k /\ k_next (fs_mkdir a n T F k) = k_next k.
Proof.
  intros [ia Ha] [iq Hq]. unfold fs_mkdir. destruct (watched_or a ia Ha) as [(x & Hx & Hw & Hu)|[Hw Hu]].
  - rewrite (notify_on a ia x k) by (done || by destruct (is_root l a)).
    eexists. split; [done|]. split_and!; [|intros H; repeat constructor; by apply name_len_bound|done|done].
    apply (St_new _ _ _ x IN_CREATE 0 _ n a (child a n)); [done|done| |by left| | |by apply mkdir_synced].
    + cbn. rewrite (lookup_union_Some_l _ _ _ _ Hq). by eexists.
    + intros y t Hy. destruct (below _ t) eqn:E; [|done]. destruct (sy_map _ _ _ _ Hs y t Hy) as (_ & i & _ & Hd). destruct (Hno t E). congruence.
    + intros r Hr. cbn. destruct (Halive r Hr) as [i Hi]. exists i. by apply mkdir_dirs.
  - rewrite (notify_off a ia k) by (try done; by left). exists []. split; [by rewrite app_nil_r|]. split_and!; [|by constructor|done|done].
    apply St_quiet; [intros r Hr; cbn; destruct (Halive r Hr) as [i Hi]; exists i; by apply mkdir_dirs|].
    eapply synced_weaken; [by apply mkdir_synced|]. cbn. intros t i _ Hut Ht. by eapply (not_under_child a n t).
Qed.

End mkdir.

(** ** Roots that go *)
Definition without (p : bytes) (l' : list (option bytes)) : Prop := if is_root l p then zapped p l l' else l' = l.

Lemma without_in p l' : without p l' -> forall r, Some r ∈ l' <-> Some r ∈ l /\ r <> p.
Proof.
  unfold without, is_root. case_bool_decide as Hp.
  - intros (j & Hj & -> & _) r. apply root_index_at in Hj as [_ Hj]. rewrite Nat.sub_0_r in Hj. rewrite !list_elem_of_lookup. split.
    + intros [i Hi]. apply list_lookup_insert_Some in Hi as [(_ & [=] & _)|[Hne Hi]]. split; [by exists i|]. intros ->. apply Hne.
      by apply (Hroots j i p p); [..|apply below_refl].
    + intros [[i Hi] Hne]. exists i. rewrite list_lookup_insert_ne; [done|]. intros ->. congruence.
  - intros -> r. split; [|tauto]. intros Hr. split; [done|]. by intros ->.
Qed.

Lemma without_ex p : (Some p ∈ l -> dead l + 1 < zlen l) -> exists l', without p l'.
Proof.
  intros Hd. unfold without, is_root. case_bool_decide as Hp; [|by exists l]. destruct (proj2 (root_index_spec p 0 l) Hp) as [j Hj].
  exists (<[j := None]> l), j. split_and!; [done|done|]. apply root_index_at in Hj as [_ Hj]. rewrite Nat.sub_0_r in Hj.
  rewrite (dead_insert l j p Hj). unfold zlen. rewrite length_insert. by apply Hd.
Qed.

Lemma without_root p l' t : without p l' -> t <> p -> is_root l' t = is_root l t.
Proof. intros Hw Ht. unfold is_root. apply bool_decide_ext. rewrite (without_in p l' Hw). tauto. Qed.

(** ** Removed directories *)
Section rmdir.
Context (p : bytes) (ino : Z) (d : bool) (Hp : k_dirs k !! p = Some ino).
Context (Hempty : forall t, is_Some (k_dirs k !! t) -> below p t = true -> t = p).

Lemma rmdir_stage l' :
  without p l' -> fs_ok (fs_rmdir p d k) ->
  exists mid post, k_queue (fs_rmdir p d k) = k_queue k ++ mid ++ post /\ ignored post /\ stage l (fs_rmdir p d k) M mid /\ kwf (fs_rmdir p d k) /\
    Forall (fun ev => 0 <= e_len ev <= NAME_MAX + 1) mid.
Proof.
  intros Hl' Hf. assert (forall t, k_dirs k !! t = Some ino -> t = p) as Hone by (intros t Ht; by eapply (fs_ino _ (kw_fs _ Hk))).
  assert (alive l' (fs_rmdir p d k)) as Hal.
  { intros r Hr. apply (without_in p l' Hl') in Hr as [Hr Hne]. unfold fs_rmdir. cbn. rewrite lookup_delete_ne by done. by apply Halive. }
  revert Hf Hal. unfold fs_rmdir. rewrite Hp. destruct (watched_or p ino Hp) as [(x & Hx & Hw & Hu)|[Hw Hu]]; rewrite Hw; intros Hf Hal.
  - rewrite (notify_on p ino x k) in * by (done || by destruct (is_root l p)).
    exists [mkEv x (self_mask IN_DELETE_SELF d) 0 0 []], [mkEv x IN_IGNORED 0 0 []]. cbn.
    split_and!; [by rewrite <- app_assoc|by repeat constructor; eexists| |split; cbn; [done|..]|by repeat constructor].
    + apply (St_del _ _ _ x d p l'); [done|done|done|]. split; cbn.
      * intros y t Hy. apply lookup_delete_Some in Hy as [Hxy Hy]. destruct (sy_map _ _ _ _ Hs y t Hy) as ((r & Hr & Hrt) & i & Hi & Hd).
        assert (t <> p) as Htp. { intros ->. assert (i = ino) as -> by congruence. congruence. }
        split.
        { exists r. split; [|done]. apply (without_in p l' Hl'). split; [done|]. intros ->. apply Htp, Hempty; [by eexists|done]. }
        exists i. rewrite (without_root p l' t Hl' Htp). rewrite lookup_delete_ne by (intros ->; by apply Htp, Hone). by rewrite lookup_delete_ne by done.
      * intros i y m Hi. apply lookup_delete_Some in Hi as [Hne Hi]. rewrite lookup_delete_ne; [by apply (sy_watch _ _ _ _ Hs i y m)|].
        intros ->. apply Hne. by eapply (kw_wd _ Hk).
      * intros t i Ht (r & Hr & Hrt). right. apply lookup_delete_Some in Ht as [Htp Ht]. apply (without_in p l' Hl') in Hr as [Hr _].
        destruct (sy_all _ _ _ _ Hs t i Ht) as [[]|(y & m & Hi)]; [by exists r|]. exists y, m. rewrite lookup_delete_ne; [done|]. intros ->. by apply Htp, eq_sym, Hone.
    + intros i j y m m'. rewrite !lookup_delete_Some. intros [_ ?] [_ ?]. by eapply (kw_wd _ Hk).
    + intros i y m. rewrite lookup_delete_Some. intros [_ ?]. by eapply (kw_next _ Hk).
    + intros i y m. rewrite lookup_delete_Some. intros [Hne Hi]. destruct (kw_live _ Hk i y m Hi) as [t Ht]. exists t.
      rewrite lookup_delete_ne; [done|]. intros ->. congruence.
    + apply Hk.
  - rewrite (notify_off p ino k) in * by (try done; by left). exists [], []. cbn. rewrite app_nil_r. split_and!; [done|by constructor| |split; cbn; [done|apply Hk..|idtac|apply Hk]|by constructor].
    + assert (l' = l) as ->.
      { unfold without, is_root in Hl'. case_bool_decide as Hr; [|done]. exfalso. apply Hu. exists p. split; [done|]. apply below_refl. }
      apply St_quiet; [done|]. split; cbn; [|apply Hs|].
      * intros y t Hy. destruct (sy_map _ _ _ _ Hs y t Hy) as (Hut & i & Hi & Hd). split; [done|]. exists i. split; [done|]. rewrite lookup_delete_ne; [done|]. by intros ->.
      * intros t i Ht Hut. apply lookup_delete_Some in Ht as [_ Ht]. apply (sy_all _ _ _ _ Hs t i Ht Hut).
    + intros i y m Hi. destruct (kw_live _ Hk i y m Hi) as [t Ht]. exists t. rewrite lookup_delete_ne; [done|]. intros ->. congruence.
Qed.

End rmdir.
End ops.

(** ** Renamed directories

    The four kinds of [rename], by whether the old and the new parent are
    monitored, and the renaming of a root. *)
Section rename.
Context (l : list (option bytes)) (k : kern) (M : gmap Z bytes).
Context (Hk : kwf k) (Hroots : roots_ok l) (Halive : alive l k) (Hs : synced l k M none).
Context (a n b n' : bytes) (c : Z) (d : bool) (ia ib ip : Z).
Context (Ha : k_dirs k !! a = Some ia) (Hb : k_dirs k !! b = Some ib) (Hn : CH_SLASH ∉ n) (Hn' : CH_SLASH ∉ n').

Let p := child a n.
Let q := child b n'.
Let k' := fs_rename a n b n' c d k.

Context (Hp : k_dirs k !! p = Some ip) (Hno : nothing_at q k) (Hpq : below p q = false).
Context (Hdeep : forall r, Some r ∈ l -> below p r = true -> r = p) (Hf : fs_ok k').

Lemma notify_fs t bit mask ck nm k1 :
  k_dirs (notify t bit mask ck nm k1) = k_dirs k1 /\ k_watch (notify t bit mask ck nm k1) = k_watch k1 /\ k_next (notify t bit mask ck nm k1) = k_next k1.
Proof. unfold notify. destruct (k_dirs k1 !! t); [|done]. destruct (k_watch k1 !! z) as [[x m]|]; [|done]. by destruct (has m bit). Qed.

Lemma rename_watch : k_watch k' = k_watch k /\ k_next k' = k_next k.
Proof.
  unfold k', fs_rename. cbn. destruct (notify_fs (child a n) IN_MOVE_SELF (self_mask IN_MOVE_SELF d) 0 []
    (notify b IN_MOVED_TO (Z.lor IN_MOVED_TO IN_ISDIR) c n' (notify a IN_MOVED_FROM (Z.lor IN_MOVED_FROM IN_ISDIR) c n k))) as (_ & -> & ->).
  destruct (notify_fs b IN_MOVED_TO (Z.lor IN_MOVED_TO IN_ISDIR) c n' (notify a IN_MOVED_FROM (Z.lor IN_MOVED_FROM IN_ISDIR) c n k)) as (_ & -> & ->).
  destruct (notify_fs a IN_MOVED_FROM (Z.lor IN_MOVED_FROM IN_ISDIR) c n k) as (_ & -> & ->). done.
Qed.

Lemma rename_dirs u i : k_dirs k' !! u = Some i <-> exists t, k_dirs k !! t = Some i /\ moved p q t = u.
Proof. unfold k', fs_rename. cbn. by apply move_dirs_lookup. Qed.

Lemma rename_kwf : kwf k'.
Proof.
  destruct rename_watch as [Ew En]. split; rewrite ?Ew, ?En; try apply Hk; [done|]. intros i x m Hi. destruct (kw_live _ Hk i x m Hi) as [t Ht].
  exists (moved p q t). apply rename_dirs. by exists t.
Qed.

Lemma rename_q : k_dirs k' !! q = Some ip.
Proof.
  apply rename_dirs. exists p. split; [done|]. destruct (moved_below p q p (below_refl p)) as (-> & _). by rewrite drop_all, app_nil_r.
Qed.

(** A monitored directory is not at the new path. *)
Lemma old_not_q t i : k_dirs k !! t = Some i -> below q t = false.
Proof. intros Ht. destruct (below q t) eqn:E; [|done]. destruct (Hno t E). congruence. Qed.

Lemma rename_nofile x t : M !! x = Some t -> t ∉ k_files k'.
Proof.
  intros Hx. destruct (sy_map _ _ _ _ Hs x t Hx) as (_ & i & _ & Ht). unfold k', fs_rename. cbn. rewrite elem_of_map. intros (f & E & Hin).
  fold p q in E. destruct (below p f) eqn:B.
  - destruct (moved_below p q f B) as (_ & Hq & _). rewrite <- E in Hq. rewrite (old_not_q t i Ht) in Hq. done.
  - rewrite (moved_other _ _ _ B) in E. subst f. by apply (fs_files _ (kw_fs _ Hk) t i).
Qed.

Lemma rename_alive l' : without l p l' -> alive l' k'.
Proof.
  intros Hl' r Hr. apply (without_in l Hroots p l' Hl') in Hr as [Hr Hne]. destruct (Halive r Hr) as [i Hi]. exists i. apply rename_dirs.
  exists r. split; [done|]. apply moved_other. destruct (below p r) eqn:E; [|done]. by apply Hdeep in E.
Qed.

(** The entries below [p] can be taken away; the rest agrees, but for the
    directories at the new place. *)
Lemma rename_gone l' : without l p l' -> gone l' k' M p (fun t => below q t = true).
Proof.
  intros Hl'. destruct rename_watch as [Ew _]. pose proof rename_dirs as Hrd. clearbody k'. split.
  { intros x t Hx _. destruct (sy_map _ _ _ _ Hs x t Hx) as (_ & i & Hi & _). rewrite Ew. eauto. }
  split; cbn; rewrite ?Ew.
  - intros x t Hx. apply cut_lookup in Hx as [Hx Ht]. destruct (sy_map _ _ _ _ Hs x t Hx) as ((r & Hr & Hrt) & i & Hi & Hd).
    assert (t <> p) as Htp by (intros ->; by rewrite below_refl in Ht). split.
    + exists r. split; [|done]. apply (without_in l Hroots p l' Hl'). split; [done|]. intros ->. congruence.
    + exists i. rewrite (without_root l Hroots p l' t Hl' Htp), cutw_lookup. cbn. unfold goes. rewrite Hx. split; [by split|].
      apply Hrd. exists t. split; [done|]. by apply moved_other.
  - intros i x m Hi. apply cutw_lookup in Hi as [Hi Hg]. cbn in Hg. unfold goes in Hg. destruct (sy_watch _ _ _ _ Hs i x m Hi) as [t Ht].
    rewrite Ht in Hg. exists t. by apply cut_lookup.
  - intros u i Hu (r & Hr & Hru). apply Hrd in Hu as (t & Ht & <-). destruct (below p t) eqn:B; [left; by apply moved_below|right].
    rewrite (moved_other _ _ _ B) in Hru. apply (without_in l Hroots p l' Hl') in Hr as [Hr _].
    destruct (sy_all _ _ _ _ Hs t i Ht) as [[]|(x & m & Hi)]; [by exists r|]. exists x, m. apply cutw_lookup. split; [done|]. cbn. unfold goes.
    destruct (synced_path l k M none t i x m Hk Hs Ht Hi) as [-> _]. done.
Qed.

(** When the new parent is not monitored. *)
Lemma rename_gone_out l' : without l p l' -> ~ under l b -> gone l' k' M p none.
Proof.
  intros Hl' Hnb. destruct (rename_gone l' Hl') as [Hw Hg]. split; [done|]. eapply synced_weaken; [done|]. cbn. intros t i _ (r & Hr & Hrt) Ht.
  apply (without_in l Hroots p l' Hl') in Hr as [Hr _]. eapply (not_under_child l k Halive b n' t); [done|done|done|done|by exists r].
Qed.

(** When the old parent is not monitored, the cache has nothing to lose. *)
Lemma rename_in_keeps : is_root l p = false -> ~ under l a -> cut p M = M /\ cutw p M (k_watch k') = k_watch k'.
Proof.
  intros Hr Hna. assert (forall x t, M !! x = Some t -> below p t = false) as Hnot.
  { intros x t Hx. destruct (below p t) eqn:E; [|done]. destruct (sy_map _ _ _ _ Hs x t Hx) as ((r & Hrl & Hrt) & _).
    assert (r <> p) as Hrp. { intros ->. unfold is_root in Hr. by rewrite bool_decide_true in Hr. }
    destruct (below_common r p t Hrt E) as [H|H]; [|by apply Hdeep in H].
    destruct (below_parent r a n Hn H) as [?|H']; [done|]. exfalso. apply Hna. by exists r. }
  split; apply map_eq; intros i; apply option_eq.
  - intros t. rewrite cut_lookup. split; [tauto|]. eauto.
  - intros [x m]. rewrite cutw_lookup. cbn. unfold goes. split; [tauto|]. intros Hi. split; [done|]. destruct (M !! x) eqn:E; [by eapply Hnot|done].
Qed.

(** The renamed entries agree. *)
Lemma rename_synced : is_root l p = false -> under l a -> under l b -> synced l k' (renamed p q <$> M) none.
Proof.
  intros Hr Hua Hub. destruct rename_watch as [Ew _].
  assert (forall t i, k_dirs k !! t = Some i -> renamed p q t = moved p q t) as Hren.
  { intros t i Ht. unfold renamed, moved. destruct (below p t) eqn:B; [|done]. apply take_ge.
    assert (k_dirs k' !! moved p q t = Some i) as Hm by (apply rename_dirs; by exists t). apply (fs_len _ Hf) in Hm. unfold moved in Hm. rewrite B in Hm.
    unfold zlen, PATH_MAX in *. lia. }
  split; rewrite ?Ew.
  - intros x u Hx. rewrite lookup_fmap, fmap_Some in Hx. destruct Hx as (t & Hx & ->). destruct (sy_map _ _ _ _ Hs x t Hx) as (Hut & i & Hi & Ht).
    rewrite (Hren t i Ht). assert (k_dirs k' !! moved p q t = Some i) as Hd by (apply rename_dirs; by exists t).
    destruct (below p t) eqn:B; [|rewrite (moved_other _ _ _ B) in *; split; [done|by exists i]].
    destruct (moved_below p q t B) as (_ & Hq & _). split.
    { eapply under_below; [|done]. apply (under_below l b); [done|]. apply below_child. }
    exists i. split; [|done]. rewrite Hi. do 3 f_equal. unfold is_root in *. rewrite !bool_decide_false; [done| |].
    + intros H. destruct (Halive _ H) as [j Hj]. by rewrite (old_not_q _ j Hj) in Hq.
    + intros H. pose proof (Hdeep t H B) as ->. by rewrite bool_decide_true in Hr.
  - intros i x m Hi. destruct (sy_watch _ _ _ _ Hs i x m Hi) as [t Ht]. rewrite lookup_fmap, Ht. by eexists.
  - intros u i Hu Huu. right. apply rename_dirs in Hu as (t & Ht & <-). destruct (sy_all _ _ _ _ Hs t i Ht) as [[]|?]; [|done].
    destruct (below p t) eqn:B; [|by rewrite (moved_other _ _ _ B) in Huu]. eapply under_below; [|done]. apply (under_below l a); [done|]. apply below_child.
Qed.

(** The events of the three directories. *)
Definition rename_events (ea eb ep : list event) : Prop := k_queue k' = k_queue k ++ ea ++ eb ++ ep.

Lemma rename_queue ka kb kp ea eb ep :
  notify a IN_MOVED_FROM (Z.lor IN_MOVED_FROM IN_ISDIR) c n k = ka -> k_queue ka = k_queue k ++ ea ->
  notify b IN_MOVED_TO (Z.lor IN_MOVED_TO IN_ISDIR) c n' ka = kb -> k_queue kb = k_queue ka ++ eb ->
  notify p IN_MOVE_SELF (self_mask IN_MOVE_SELF d) 0 [] kb = kp -> k_queue kp = k_queue kb ++ ep -> rename_events ea eb ep.
Proof.
  intros Ea Qa Eb Qb Ep Qp. unfold rename_events, k', fs_rename. cbn. fold p. rewrite Ea, Eb, Ep, Qp, Qb, Qa. by rewrite <- !app_assoc.
Qed.

(** A root. *)
Lemma rename_root l' :
  is_root l p = true -> without l p l' -> ~ under l b ->
  exists mid, k_queue k' = k_queue k ++ mid /\ stage l k' M mid /\ Forall (fun ev => 0 <= e_len ev <= NAME_MAX + 1) mid.
Proof.
  intros Hr Hl' Hnb. assert (Some p ∈ l) as Hpl by (by apply bool_decide_eq_true in Hr).
  destruct (watched_or l k M Hk Hs p ip Hp) as [(x & Hx & Hw & _)|[_ Hu]]; [|exfalso; apply Hu; exists p; split; [done|apply below_refl]].
  destruct (watched_or l k M Hk Hs b ib Hb) as [(? & _ & _ & ?)|[Hwb _]]; [done|].
  destruct (watched_or l k M Hk Hs a ia Ha) as [(? & _ & _ & (r & Hrl & Hra))|[Hwa _]].
  { exfalso. apply list_elem_of_lookup in Hrl as [i Hi]. apply list_elem_of_lookup in Hpl as [j Hj].
    assert (i = j) as -> by (apply (Hroots i j r p Hi Hj); eapply below_trans; [done|apply below_child]).
    assert (r = p) as -> by congruence. unfold p in Hra. by rewrite child_not_above in Hra. }
  exists [mkEv x (self_mask IN_MOVE_SELF d) 0 0 []]. split_and!; [|apply (St_self _ _ _ x d p l'); try done|by repeat constructor].
  - eapply (rename_queue k k _ [] []); [by eapply (notify_off k a ia k); try done; left|by rewrite app_nil_r|by eapply (notify_off k b ib k); try done; left|by rewrite app_nil_r| |].
    + eapply (notify_on l k p ip x k); try done. by rewrite Hr.
    + done.
  - unfold without in Hl'. by rewrite Hr in Hl'.
  - by apply rename_alive.
  - by apply rename_gone_out.
Qed.

(** Not a root. *)
Lemma rename_other :
  is_root l p = false -> zlen n <= NAME_MAX -> zlen n' <= NAME_MAX ->
  exists mid, k_queue k' = k_queue k ++ mid /\ stage l k' M mid /\ Forall (fun ev => 0 <= e_len ev <= NAME_MAX + 1) mid.
Proof.
  intros Hr Hln Hln'. assert (without l p l) as Hl' by (unfold without; by rewrite Hr).
  assert (forall k1, k_dirs k1 = k_dirs k -> k_watch k1 = k_watch k -> notify p IN_MOVE_SELF (self_mask IN_MOVE_SELF d) 0 [] k1 = k1) as Hself.
  { intros k1 Ed Ew. eapply (notify_off k p ip k1); try done. destruct (watched_or l k M Hk Hs p ip Hp) as [(x & _ & Hw & _)|[Hw _]]; [|by left].
    right. eexists _, _. split; [done|]. by rewrite Hr. }
  pose proof (rename_alive l Hl') as Hal. pose proof (rename_q) as Hq. pose proof (name_len_bound n Hln). pose proof (name_len_bound n' Hln').
  assert (forall y t, M !! y = Some t -> below q t = false) as Hnoq.
  { intros y t Hy. destruct (sy_map _ _ _ _ Hs y t Hy) as (_ & i & _ & Ht). by apply (old_not_q t i). }
  pose proof (fs_len _ (kw_fs _ Hk) p ip Hp) as Hplen.
  assert (below p b = false) as Hpb. { destruct (below p b) eqn:E; [|done]. rewrite (below_trans p b q E) in Hpq; [done|]. apply below_child. }
  set (ea x := mkEv x (Z.lor IN_MOVED_FROM IN_ISDIR) c (name_len n) n). set (eb x := mkEv x (Z.lor IN_MOVED_TO IN_ISDIR) c (name_len n') n').
  destruct (watched_or l k M Hk Hs a ia Ha) as [(x & Hx & Hwa & Hua)|[Hwa Hua]], (watched_or l k M Hk Hs b ib Hb) as [(y & Hy & Hwb & Hub)|[Hwb Hub]].
  - exists [ea x; eb y]. split_and!; [|eapply (St_move _ _ _ x y c _ _ n n' a b p q); try done|by rewrite ?Forall_cons, Forall_nil].
    + eapply (rename_queue (push (ea x) k) (push (eb y) (push (ea x) k)) _ [ea x] [eb y] []); [|done| |done|by apply Hself|by rewrite app_nil_r].
      * apply (notify_on l k a ia x k); try done. by destruct (is_root l a).
      * apply (notify_on l k b ib y (push (ea x) k)); try done. by destruct (is_root l b).
    + by apply rename_synced.
    + by apply rename_gone.
  - exists [ea x]. split_and!; [|eapply (St_out _ _ _ x c _ n a p); try done; by apply rename_gone_out|by rewrite ?Forall_cons, Forall_nil].
    eapply (rename_queue (push (ea x) k) (push (ea x) k) _ [ea x] [] []); [|done| |by rewrite app_nil_r|by apply Hself|by rewrite app_nil_r].
    + apply (notify_on l k a ia x k); try done. by destruct (is_root l a).
    + apply (notify_off k b ib (push (ea x) k)); try done. by left.
  - destruct (rename_in_keeps Hr Hua) as [EM EW]. destruct (rename_gone l Hl') as [_ Hg]. rewrite EM, EW in Hg.
    exists [eb y]. split_and!; [|eapply (St_new _ _ _ y IN_MOVED_TO c _ n' b q); try done|by rewrite ?Forall_cons, Forall_nil].
    + eapply (rename_queue k (push (eb y) k) _ [] [eb y] []); [|by rewrite app_nil_r| |done|by apply Hself|by rewrite app_nil_r].
      * apply (notify_off k a ia k); try done. by left.
      * apply (notify_on l k b ib y k); try done. by destruct (is_root l b).
    + by right.
  - destruct (rename_in_keeps Hr Hua) as [EM EW]. destruct (rename_gone_out l Hl' Hub) as [_ Hg]. rewrite EM, EW in Hg.
    exists []. split_and!; [|apply St_quiet; [done|destruct Hg; by split]|by constructor].
    eapply (rename_queue k k _ [] [] []); [|by rewrite app_nil_r| |by rewrite app_nil_r|by apply Hself|by rewrite app_nil_r].
    + apply (notify_off k a ia k); try done. by left.
    + apply (notify_off k b ib k); try done. by left.
Qed.

End rename.
