(* ===== verification/DtreeProps.v ===== *)
(** * Properties of the directory watcher (tlpi-dist/inotify/inotify_dtree.c)

    The cache follows the directory trees, whatever the [read] calls return;
    it is rebuilt when events were lost; a root that is moved into another
    tree is lost. *)
From S2P Require Import Prelude CString Dtree DtreeCache DtreeWalk DtreeEvents DtreeRun DtreeFs.

Open Scope prog_scope.

(** ** What the cache promises *)

(** The cache has a slot for a path exactly when it is a monitored
    directory. *)
Definition tracked (s : dt) : Prop :=
  forall p, (exists w, w ∈ wlCache s /\ 0 <= wd w /\ path w = p) <-> is_Some (k_dirs (dt_kern s) !! p) /\ under (rootDirPaths s) p.

Lemma synced_tracked s M :
  crep (wlCache s) M -> synced (rootDirPaths s) (dt_kern s) M none -> kwf (dt_kern s) -> tracked s.
Proof.
  intros Hc Hs Hk p. split.
  - intros (w & Hw & H0 & <-). apply list_elem_of_lookup in Hw as [j Hj]. pose proof (slot_of s M Hc j w Hj H0) as HM.
    destruct (sy_map _ _ _ _ Hs _ _ HM) as (Hu & i & _ & Hd). split; [by eexists|done].
  - intros [[i Hi] Hu]. destruct (sy_all _ _ _ _ Hs p i Hi Hu) as [[]|(x & m & Hw)].
    destruct (synced_path _ _ M none p i x m Hk Hs Hi Hw) as [HM _]. destruct (cr_map _ _ Hc x p HM) as (H0 & j & Hj).
    exists (mkWatch x p). split; [by eapply list_elem_of_lookup_2|done].
Qed.

(** Events that are all IN_IGNORED say nothing. *)
Lemma pend_ignored s l :
  pend s l -> ignored l ->
  exists M, crep (wlCache s) M /\ alive (rootDirPaths s) (dt_kern s) /\ synced (rootDirPaths s) (dt_kern s) M none.
Proof.
  intros [_ _ _ _ (M & Hc & _ & pre & mid & post & -> & _ & _ & Hst)] Hi. exists M. split; [done|].
  assert (mid = []) as ->; [|inversion Hst; done]. apply length_zero_iff_nil. rewrite <- (busy_stage _ _ _ _ Hst).
  pose proof (busy_ignored _ Hi) as Hb. rewrite !busy_app in Hb. lia.
Qed.

Lemma pend_tracked s : pend s [] -> tracked s.
Proof.
  intros Hp. destruct (pend_ignored s [] Hp) as (M & Hc & _ & Hs); [by constructor|]. by apply (synced_tracked s M Hc Hs), (pd_kwf _ _ Hp).
Qed.

(** ** The system *)

(** Changes of the file system wait until the program has followed the one
    before; the program runs at any time, and its reads return any number of
    events. *)
Inductive sys_step (rb : Z) : dt -> dt -> Prop :=
  | Sys_fs s k' : ignored (k_queue (dt_kern s)) -> fs_op (rootDirPaths s) (dt_kern s) k' -> sys_step rb s (set_kern k' s)
  | Sys_round {walk : Nftw} s s' reads : NftwOk -> main_round rb None reads s = Ok tt s' -> sys_step rb s s'.

Lemma fs_pend s k' :
  pend s (k_queue (dt_kern s)) -> ignored (k_queue (dt_kern s)) -> fs_op (rootDirPaths s) (dt_kern s) k' -> pend (set_kern k' s) (k_queue k').
Proof.
  intros Hp Hi Hop. destruct (pend_ignored s _ Hp Hi) as (M & Hc & Hal & Hs). destruct Hp as [Hlen Hk Hr Hd _].
  set (l := rootDirPaths s) in *. set (k := dt_kern s) in *.
  assert (forall mid post, kwf k' -> (forall x t, M !! x = Some t -> t ∉ k_files k') -> k_queue k' = k_queue k ++ mid ++ post -> ignored post ->
    stage l k' M mid -> Forall (fun ev => 0 <= e_len ev <= NAME_MAX + 1) mid -> pend (set_kern k' s) (k_queue k')) as Hfin.
  { intros mid post Hk' Hf Eq Hpost Hst Hl. rewrite Eq. split; [|done..|].
    - apply Forall_app_2; [done|]. apply Forall_app_2; [done|]. by apply ignored_len.
    - exists M. split; [done|]. split; [done|]. by exists (k_queue k), mid, post. }
  destruct Hop as [a n T F Ha [Hn Hn2] Hno HTq HT HF Hfs|a n b n' c d [ia Ha] [ib Hb] [ip Hpp] [Hn Hn2] [Hn' Hn2'] Hno Hpq Hdeep Hroot Hfs|p d [i Hpp] Hempty Hroot Hfs].
  - destruct (mkdir_stage l k M Hk Hal Hs a n T F Hn Hno HT Ha HTq) as (mid & Eq & Hst & Hl & Ew & En).
    apply (Hfin mid []); [by apply (mkdir_kwf k Hk a n T Hno HT)| |by rewrite app_nil_r|by constructor|done|by apply Hl].
    intros x t Hx. destruct (sy_map _ _ _ _ Hs x t Hx) as (_ & i & _ & Ht). cbn. rewrite elem_of_union. intros [H|H].
    + destruct (Hno t (HF t H)). congruence.
    + by apply (fs_files _ (kw_fs _ Hk) t i Ht).
  - destruct (without_ex l (child a n)) as [l' Hl']; [intros H; by apply Hroot|].
    assert (exists mid, k_queue (fs_rename a n b n' c d k) = k_queue k ++ mid /\ stage l (fs_rename a n b n' c d k) M mid /\
      Forall (fun ev => 0 <= e_len ev <= NAME_MAX + 1) mid) as (mid & Eq & Hst & Hl).
    { destruct (is_root l (child a n)) eqn:Er.
      - apply (rename_root l k M Hk Hr Hal Hs a n b n' c d ia ib ip Ha Hb Hn' Hpp Hno Hdeep l'); [done|done|]. apply Hroot. by apply bool_decide_eq_true in Er.
      - by apply (rename_other l k M Hk Hr Hal Hs a n b n' c d ia ib ip). }
    apply (Hfin mid []); [by apply (rename_kwf k Hk a n b n' c d)| |by rewrite app_nil_r|by constructor|done|done].
    intros x t Hx. by apply (rename_nofile l k M Hk Hs a n b n' c d Hno x).
  - destruct (without_ex l p Hroot) as [l' Hl'].
    destruct (rmdir_stage l k M Hk Hr Hal Hs p i d Hpp Hempty l' Hl' Hfs) as (mid & post & Eq & Hpost & Hst & Hk' & Hl).
    apply (Hfin mid post); [done| |done..]. intros x t Hx. cbn. apply (synced_nofile l k M none x t); [by apply kw_fs|done|done].
Qed.

Lemma step_pend rb s s' : size_ok rb -> pend s (k_queue (dt_kern s)) -> sys_step rb s s' -> pend s' (k_queue (dt_kern s')).
Proof.
  intros Hrb Hp Hst. destruct Hst as [s0 k' Hi Hop|walk s0 s1 reads Hw E]; [apply (fs_pend s0 k' Hp Hi Hop)|].
  destruct (main_round_run rb reads s0 Hp Hrb) as (s2 & E2 & Hp2 & _). assert (s1 = s2) as -> by congruence. done.
Qed.

(** ** The start *)
Record start_ok (argv : list bytes) (s : dt) : Prop := {
  so_fs : fs_ok (dt_kern s);
  so_dirs : forall p, p ∈ argv -> is_Some (k_dirs (dt_kern s) !! p);
  so_roots : roots_ok (Some <$> argv)
}.





(** A cache that was just built. *)
Lemma good_pend s :
  good s none -> roots_ok (rootDirPaths s) -> ignoreRootDirs s = dead (rootDirPaths s) -> alive (rootDirPaths s) (dt_kern s) -> pend s [].
Proof. intros (Hk & M & Hc & Hs) Hr Hd Ha. apply (pend_quiet s M); try done. by constructor. Qed.


(** ** From then on *)

(** No round fails, and whenever the queue is empty the cache has exactly the
    monitored directories. *)
Definition follows (rb : Z) (s : dt) : Prop :=
  forall s', rtc (sys_step rb) s s' ->
    (forall (walk : Nftw) reads, NftwOk -> exists s'', main_round rb None reads s' = Ok tt s'') /\ (k_queue (dt_kern s') = [] -> tracked s').

Lemma steps_pend rb s s' : size_ok rb -> pend s (k_queue (dt_kern s)) -> rtc (sys_step rb) s s' -> pend s' (k_queue (dt_kern s')).
Proof. intros Hrb Hp Hst. induction Hst as [|s1 s2 s3 Hst _ IH]; [done|]. apply IH. by eapply step_pend. Qed.

Lemma pend_follows rb s : size_ok rb -> pend s (k_queue (dt_kern s)) -> follows rb s.
Proof.
  intros Hrb Hp s' Hst. pose proof (steps_pend rb s s' Hrb Hp Hst) as Hp'. split.
  - intros walk reads Hw. destruct (main_round_run rb reads s' Hp' Hrb) as (s2 & E & _). by exists s2.
  - intros Hq. rewrite Hq in Hp'. by apply pend_tracked.
Qed.

(** ** Lost events *)

(** The queue has overflowed, or the event is of a watch that the cache does
    not have. *)
Definition lost_event (s : dt) (ev : event) : Prop :=
  e_wd ev = -1 /\ e_mask ev = IN_Q_OVERFLOW \/
  0 <= e_wd ev /\ has (e_mask ev) IN_IGNORED = false /\ abortOnCacheProblem s = false /\ forall w, w ∈ wlCache s -> wd w <> e_wd ev.

Lemma proc_lost {walk : Nftw} {Hw : NftwOk} s ev rest b ft :
  lost_event s ev -> fs_ok (dt_kern s) -> alive (rootDirPaths s) (dt_kern s) ->
  exists s', processNextInotifyEvent ev rest b ft s = Ok INOTIFY_READ_BUF_LEN s' /\ good s' none /\ same s s' /\ k_queue (dt_kern s') = [].
Proof.
  intros Hl Hf Ha. destruct (reinitialize_run s Hf Ha) as (s' & E & Hg & Hsame & Hq). exists s'. split; [|done]. destruct Hl as [[Hx Hm]|(Hx & Hm & Hab & Hn)].
  - unfold processNextInotifyEvent. rewrite Hx. change (-1 =? -1) with true. cbn [negb andb]. cbn iota.
    unfold process_slot. rewrite Hm. cbn zeta. masks. rewrite (pbind_ok _ _ _ _ _ E).
    destruct Hg as (Hk & M & Hc & Hs). apply (after_event_run s' M); [done|]. intros x t. apply (synced_nofile (rootDirPaths s') (dt_kern s') M none x t); [by apply kw_fs|done].
  - unfold processNextInotifyEvent. rewrite Hm. replace (e_wd ev =? -1) with false by (symmetry; apply Z.eqb_neq; lia). cbn [negb andb]. cbn iota.
    unfold findWatchChecked, findWatch. pstep.
    destruct (find_slot_spec (fun y => wd y =? e_wd ev) 0 (wlCache s)) as [[-> _]|(j & w & _ & Hj & Hwd)].
    + change (0 <=? -1) with false. cbn iota. pstep. rewrite Hab. cbn iota. pstep. change (-1 =? -1) with true. cbn iota. by rewrite (pbind_ok _ _ _ _ _ E).
    + exfalso. apply Z.eqb_eq in Hwd. apply (Hn w); [by eapply list_elem_of_lookup_2|done].
Qed.

(** ** The theorems *)



(** C25: when the queue overflowed, or an event has a watch descriptor that is
    not in the cache, whatever the cache, the watches and the rest of the
    queue are, the call drops the rest of the buffer and builds the cache
    anew: it has exactly the monitored directories, and follows further
    changes.  Every root that is still listed must exist at that time (a
    root that was removed, and whose event was lost, would stay listed
    without a watch), no root may be inside another, [ignoreRootDirs] must
    count the roots that are no longer listed, paths must be shorter than
    [PATH_MAX], watches must suffice for all directories, and the buffer
    must have room for an event. *)
Theorem dtree_recovers {walk : Nftw} (Hw : NftwOk) rb reads s ev rest :
  size_ok rb -> fs_ok (dt_kern s) -> roots_ok (rootDirPaths s) -> ignoreRootDirs s = dead (rootDirPaths s) -> alive (rootDirPaths s) (dt_kern s) ->
  k_queue (dt_kern s) = ev :: rest -> Forall (fun ev => 0 <= e_len ev <= NAME_MAX + 1) (ev :: rest) -> lost_event s ev ->
  exists s', processInotifyEvents rb reads s = Ok tt s' /\ k_queue (dt_kern s') = [] /\ samefs s s' /\ rootDirPaths s' = rootDirPaths s /\
    tracked s' /\ follows rb s'.
Proof.
  intros Hrb Hf Hr Hd Ha Hq Hlen Hlost. destruct (first_read rb reads s) as (ev' & evs & q & Eq & Hsz & _ & Hrun); [done|by rewrite Hq|by rewrite Hq|].
  assert (ev' = ev) as -> by congruence. rewrite Hrun. set (s1 := on_kern _ s).
  destruct (proc_lost s1 ev evs (evs_size (ev :: evs)) true Hlost) as (s' & E & Hg & Hsame & Hq'); [by destruct Hf|done|].
  pose proof Hsame as (Hrt & Hig & _ & _ & Hdd & _).
  assert (pend s' []) as Hp by (apply good_pend; [done|by rewrite Hrt|by rewrite Hrt, Hig|by eapply alive_same]).
  exists s'. split_and!; [|done|by apply same_fs in Hsame|done|by apply pend_tracked|apply pend_follows; [done|by rewrite Hq']].
  rewrite Hq in Eq. injection Eq as Er. rewrite Er in Hlen. apply Forall_cons in Hlen as [He Hlen]. apply Forall_app in Hlen as [Hlen _].
  destruct (evs_size_pos evs Hlen) as [H0 _]. cbn [process_loop Nat.add]. rewrite ltb_true by (cbn [evs_size]; unfold ev_size, sizeof_event; lia).
  rewrite (pbind_ok _ _ _ _ _ E). change (0 <? INOTIFY_READ_BUF_LEN) with true. cbn iota. by rewrite ltb_false by lia.
Qed.

(** ** Runs *)

(** A walk over the directories of the kernel. *)
#[export] Instance walk_dirs : Nftw := fun k p =>
  match k_dirs k !! p with
  | None => None
  | Some _ => Some (filter (fun q => below p q = true) (fst <$> map_to_list (k_dirs k)))
  end.

#[export] Instance walk_dirs_ok : NftwOk.
Proof.
  intros k p ino Hp. unfold nftw, walk_dirs. rewrite Hp. eexists. split; [done|]. intros q. rewrite list_elem_of_filter, list_elem_of_fmap. split.
  - intros (Hb & [t i] & -> & Hin%elem_of_map_to_list). split; [by eexists|done].
  - intros [[i Hi] Hb]. split; [done|]. exists (q, i). split; [done|]. by apply elem_of_map_to_list.
Qed.

Lemma fs_ok_check k :
  NoDup (snd <$> map_to_list (k_dirs k)) -> map_Forall (fun p _ => zlen p < PATH_MAX /\ (p ∉ k_files k)) (k_dirs k) ->
  (size (inodes k) <= k_max k)%nat -> fs_ok k.
Proof.
  intros Hn Hf Hm. split; [|by intros p i Hp; apply (Hf p i Hp)|by intros p i Hp; apply (Hf p i Hp)|done].
  intros p q i Hp Hq. apply elem_of_map_to_list, list_elem_of_lookup in Hp as [j Hj], Hq as [j' Hj'].
  assert (j = j') as ->; [|congruence]. eapply (proj1 (NoDup_alt _) Hn j j' i); rewrite list_lookup_fmap; [by rewrite Hj|by rewrite Hj'].
Qed.



(** Two trees with a subdirectory in the first. *)
Definition demo_kern : kern :=
  mkK (list_to_map [(lit "/t", 9); (lit "/t/a", 1); (lit "/t/a/x", 3); (lit "/t/b", 2)]) ∅ ∅ 1 100 [].

Definition demo : dt := mkDt [] [] 0 0 false true false 0 demo_kern.

Definition demo_argv : list bytes := [lit "/t/a"; lit "/t/b"].

Lemma demo_start_ok : start_ok demo_argv demo.
Proof.
  split.
  - apply fs_ok_check; [apply (bool_decide_unpack _); by vm_compute|apply (bool_decide_unpack _); by vm_compute|vm_compute; lia].
  - intros p Hp. apply elem_of_cons in Hp as [->|Hp]; [by vm_compute; eexists|]. apply list_elem_of_singleton in Hp as ->. by vm_compute; eexists.
  - intros [|[|i]] [|[|j]] r t Hi Hj; try done; cbn in Hi, Hj; simplify_eq; by vm_compute.
Qed.

(** The state after the start. *)
Definition demo1 : dt := match dtree_start demo_argv demo with Ok _ s => s | Abort _ s => s end.

Lemma demo1_start : dtree_start demo_argv demo = Ok tt demo1.
Proof. by vm_compute. Qed.




(** The queue has overflowed, and the cache has a directory that is not
    there. *)
Definition demo_lost : dt := set_cache [mkWatch 5 (lit "/gone")] (on_kern (set_queue [mkEv (-1) IN_Q_OVERFLOW 0 0 []; mkEv 5 IN_DELETE_SELF 0 0 []]) demo1).

Lemma dtree_recovers_witness :
  exists s', processInotifyEvents 0 [] demo_lost = Ok tt s' /\ k_queue (dt_kern s') = [] /\ samefs demo_lost s' /\
    rootDirPaths s' = rootDirPaths demo_lost /\ tracked s' /\ follows 0 s'.
Proof.
  apply (dtree_recovers walk_dirs_ok 0 [] demo_lost (mkEv (-1) IN_Q_OVERFLOW 0 0 []) [mkEv 5 IN_DELETE_SELF 0 0 []]).
  - left. lia.
  - apply fs_ok_check; [apply (bool_decide_unpack _); by vm_compute|apply (bool_decide_unpack _); by vm_compute|vm_compute; lia].
  - apply demo_start_ok.
  - by vm_compute.
  - intros r Hr. change (rootDirPaths demo_lost) with [Some (lit "/t/a"); Some (lit "/t/b")] in Hr.
    apply elem_of_cons in Hr as [[= ->]|Hr]; [|apply list_elem_of_singleton in Hr as [= ->]]; apply (bool_decide_unpack _); by vm_compute.
  - by vm_compute.
  - apply (bool_decide_unpack _). by vm_compute.
  - by left.
Defined.

(** ** A root that is moved into another tree *)

Definition cached (p : bytes) (s : dt) : bool := existsb (fun w => (0 <=? wd w) && bool_decide (path w = p)) (wlCache s).

Lemma cached_spec p s : cached p s = true <-> exists w, w ∈ wlCache s /\ 0 <= wd w /\ path w = p.
Proof.
  unfold cached. rewrite existsb_exists. split.
  - intros (w & Hin%list_elem_of_In & Hb). zbool. apply bool_decide_eq_true in H0. by exists w.
  - intros (w & Hin%list_elem_of_In & H0 & Hp). exists w. split; [done|]. by rewrite leb_true, bool_decide_true.
Qed.

(** When a root is renamed to a place inside the tree of another root, its
    directories are watched no longer: IN_MOVED_TO finds the watch already in
    the cache, under the old path, and IN_MOVE_SELF then zaps it.  Here /t/a
    with its subdirectory is moved to /t/b/c; all events are processed, and
    the two directories are below the root /t/b, but not in the cache. *)
Theorem root_move_lost :
  exists s2 s3, s2 = set_kern (fs_rename (lit "/t") (lit "a") (lit "/t/b") (lit "c") 7 true (dt_kern demo1)) demo1 /\
    dtree_start demo_argv demo = Ok tt demo1 /\ main_loop 0 (replicate 3 [100%nat]) s2 = Ok tt s3 /\ k_queue (dt_kern s3) = [] /\
    Some (lit "/t/b") ∈ rootDirPaths s3 /\ k_dirs (dt_kern s3) !! lit "/t/b/c" = Some 1 /\ k_dirs (dt_kern s3) !! lit "/t/b/c/x" = Some 3 /\
    cached (lit "/t/b") s3 = true /\ cached (lit "/t/b/c") s3 = false /\ cached (lit "/t/b/c/x") s3 = false /\ ~ tracked s3.
Proof.
  set (s2 := set_kern _ demo1). set (o := main_loop 0 (replicate 3 [100%nat]) s2). set (s3 := match o with Ok _ s => s | Abort _ s => s end).
  exists s2, s3. split; [done|]. split; [apply demo1_start|]. split; [by vm_compute|]. split; [by vm_compute|].
  assert (Some (lit "/t/b") ∈ rootDirPaths s3) as Hr by (apply (bool_decide_unpack _); by vm_compute).
  assert (k_dirs (dt_kern s3) !! lit "/t/b/c" = Some 1) as Hd by (by vm_compute).
  assert (cached (lit "/t/b/c") s3 = false) as Hc by (by vm_compute).
  split; [done|]. split; [done|]. split; [by vm_compute|]. split; [by vm_compute|]. split; [done|]. split; [by vm_compute|].
  intros Ht. destruct (Ht (lit "/t/b/c")) as [_ H]. apply not_true_iff_false in Hc. apply Hc, cached_spec, H. split; [by eexists|].
  exists (lit "/t/b"). split; [done|by vm_compute].
Qed.

(** ** Rebuilding on command *)

(** The command 0, when events are pending: [select] has said that the old
    descriptor can be read; the new one takes its place, has no events, and
    the program stops reading commands until one comes. *)
Lemma rebuild_blocks {walk : Nftw} (Hw : NftwOk) rb reads s :
  fs_ok (dt_kern s) -> alive (rootDirPaths s) (dt_kern s) -> k_queue (dt_kern s) <> [] ->
  exists s', main_round rb (Some (lit "0" ++ [10])) reads s = Abort "read blocks" s' /\ good s' none.
Proof.
  intros Hf Ha Hq. destruct (reinitialize_run s Hf Ha) as (s' & E & Hg & _ & Hq'). exists s'. split; [|done]. unfold main_round. pstep.
  rewrite (pbind_ok (executeCommand _) _ s tt s') by exact E. destruct (k_queue (dt_kern s)) as [|ev q]; [done|].
  unfold processInotifyEvents. pstep. rewrite Hq'. done.
Qed.
