(* ===== verification/Sh.v ===== *)
(** * A shell with pipelines (Advanced_Unix_Programming/c6/sh3.c, c5/builtin.c)

    The tokens, the commands with their redirections, the pipelines, and the
    main loop.  The state has the input that is left, the descriptors of the
    shell, the processes it has started, and which system calls are to
    fail. *)
From S2P Require Import Prelude CString Posix.

Open Scope prog_scope.

Definition MAXARG : Z := 50.
Definition MAXFNAME : Z := 500.
Definition MAXWORD : Z := 500.

(** ** Tokens *)
Inductive TOKEN := T_WORD | T_BAR | T_AMP | T_SEMI | T_GT | T_GTGT | T_LT | T_NL | T_EOF | T_ERROR.

#[export] Instance TOKEN_eq_dec : EqDecision TOKEN.
Proof. solve_decision. Defined.

Inductive gt_state := NEUTRAL | GTGT | INQUOTE | INWORD.

Definition CH_TAB : Z := 9.
Definition CH_QUOTE : Z := 34.
Definition CH_AMP : Z := 38.
Definition CH_SEMI : Z := 59.
Definition CH_LT : Z := 60.
Definition CH_GT : Z := 62.
Definition CH_BSLASH : Z := 92.
Definition CH_BAR : Z := 124.

(** The characters that end a word. *)
Definition word_end (c : Z) : bool :=
  (c =? CH_SEMI) || (c =? CH_AMP) || (c =? CH_BAR) || (c =? CH_LT) || (c =? CH_GT) || (c =? CH_NEWLINE) || (c =? CH_SPACE) || (c =? CH_TAB).

(** [word] is what has been stored; the result is the token, what was stored
    and the rest of the input. *)
Definition store_char (word : bytes) (maxword c : Z) : option bytes :=
  if zlen word <? maxword then Some (word ++ [c]) else None.

Section gettoken.
Context (maxword : Z) (ferror : bool).

Fixpoint gettoken (state : gt_state) (word inp : bytes) : TOKEN * bytes * bytes :=
  match inp with
  | [] => (if ferror then T_ERROR else T_EOF, word, [])
  | c :: inp' =>
      match state with
      | NEUTRAL =>
          if c =? CH_SEMI then (T_SEMI, word, inp')
          else if c =? CH_AMP then (T_AMP, word, inp')
          else if c =? CH_BAR then (T_BAR, word, inp')
          else if c =? CH_LT then (T_LT, word, inp')
          else if c =? CH_NEWLINE then (T_NL, word, inp')
          else if (c =? CH_SPACE) || (c =? CH_TAB) then gettoken NEUTRAL word inp'
          else if c =? CH_GT then gettoken GTGT word inp'
          else if c =? CH_QUOTE then gettoken INQUOTE word inp'
          else
            match store_char word maxword c with
            | None => (T_ERROR, word, inp')
            | Some word => gettoken INWORD word inp'
            end
      | GTGT => if c =? CH_GT then (T_GTGT, word, inp') else (T_GT, word, inp)
      | INQUOTE =>
          if c =? CH_BSLASH then
            match inp' with
            | [] =>
                match store_char word maxword CH_BSLASH with
                | None => (T_ERROR, word, [])
                | Some word => (if ferror then T_ERROR else T_EOF, word, [])
                end
            | c2 :: inp2 =>
                match store_char word maxword c2 with
                | None => (T_ERROR, word, inp2)
                | Some word => gettoken INQUOTE word inp2
                end
            end
          else if c =? CH_QUOTE then
            match store_char word maxword NUL with
            | None => (T_ERROR, word, inp')
            | Some word => (T_WORD, word, inp')
            end
          else
            match store_char word maxword c with
            | None => (T_ERROR, word, inp')
            | Some word => gettoken INQUOTE word inp'
            end
      | INWORD =>
          if word_end c then
            match store_char word maxword NUL with
            | None => (T_ERROR, word, inp)
            | Some word => (T_WORD, word, inp)
            end
          else
            match store_char word maxword c with
            | None => (T_ERROR, word, inp')
            | Some word => gettoken INWORD word inp'
            end
      end
  end.

End gettoken.

(** ** Processes and descriptors *)

(** What a descriptor refers to. *)
Inductive ofile :=
  | Inherited (fd : Z)
  | PipeR (id : Z)
  | PipeW (id : Z)
  | Opened (path : bytes) (flags : Z).

#[export] Instance ofile_eq_dec : EqDecision ofile.
Proof. solve_decision. Defined.

(** How a child ends what the shell wrote for it: with [execvp], whose
    environment is given by its descriptors and whether SIGINT and SIGQUIT
    are ignored, or with [_exit]. *)
Inductive child_end :=
  | Execvp (file : bytes) (argv : list bytes) (fds : gmap Z ofile) (ignored : bool)
  | Exited (why : string).

Record proc := mkProc { p_pid : Z; p_end : child_end }.

(** [sys_ok] says which of the calls that can fail succeed; when it is used
    up they all do.  [exits] chooses the child that [waitpid] reports. *)
Record shell := mkSh {
  inp : bytes; ferr : bool; fds : gmap Z ofile; npipe : Z; npid : Z; procs : list proc; live : list Z;
  wpid : option Z; environ : list (bytes * bytes); cwd : bytes; msgs : list string; sigs_ignored : bool;
  sys_ok : list bool; exits : list nat
}.

Definition set_inp (x : bytes) (s : shell) : shell :=
  mkSh x (ferr s) (fds s) (npipe s) (npid s) (procs s) (live s) (wpid s) (environ s) (cwd s) (msgs s) (sigs_ignored s) (sys_ok s) (exits s).
Definition set_fds (x : gmap Z ofile) (s : shell) : shell :=
  mkSh (inp s) (ferr s) x (npipe s) (npid s) (procs s) (live s) (wpid s) (environ s) (cwd s) (msgs s) (sigs_ignored s) (sys_ok s) (exits s).
Definition set_npipe (x : Z) (s : shell) : shell :=
  mkSh (inp s) (ferr s) (fds s) x (npid s) (procs s) (live s) (wpid s) (environ s) (cwd s) (msgs s) (sigs_ignored s) (sys_ok s) (exits s).
Definition add_proc (p : proc) (s : shell) : shell :=
  mkSh (inp s) (ferr s) (fds s) (npipe s) (npid s + 1) (procs s ++ [p]) (live s ++ [p_pid p]) (wpid s) (environ s) (cwd s) (msgs s) (sigs_ignored s) (sys_ok s) (exits s).
Definition set_live (x : list Z) (s : shell) : shell :=
  mkSh (inp s) (ferr s) (fds s) (npipe s) (npid s) (procs s) x (wpid s) (environ s) (cwd s) (msgs s) (sigs_ignored s) (sys_ok s) (exits s).
Definition set_wpid (x : option Z) (s : shell) : shell :=
  mkSh (inp s) (ferr s) (fds s) (npipe s) (npid s) (procs s) (live s) x (environ s) (cwd s) (msgs s) (sigs_ignored s) (sys_ok s) (exits s).
Definition set_environ (x : list (bytes * bytes)) (s : shell) : shell :=
  mkSh (inp s) (ferr s) (fds s) (npipe s) (npid s) (procs s) (live s) (wpid s) x (cwd s) (msgs s) (sigs_ignored s) (sys_ok s) (exits s).
Definition set_cwd (x : bytes) (s : shell) : shell :=
  mkSh (inp s) (ferr s) (fds s) (npipe s) (npid s) (procs s) (live s) (wpid s) (environ s) x (msgs s) (sigs_ignored s) (sys_ok s) (exits s).
Definition add_msg (m : string) (s : shell) : shell :=
  mkSh (inp s) (ferr s) (fds s) (npipe s) (npid s) (procs s) (live s) (wpid s) (environ s) (cwd s) (msgs s ++ [m]) (sigs_ignored s) (sys_ok s) (exits s).
Definition set_sigs (x : bool) (s : shell) : shell :=
  mkSh (inp s) (ferr s) (fds s) (npipe s) (npid s) (procs s) (live s) (wpid s) (environ s) (cwd s) (msgs s) x (sys_ok s) (exits s).
Definition set_sys_ok (x : list bool) (s : shell) : shell :=
  mkSh (inp s) (ferr s) (fds s) (npipe s) (npid s) (procs s) (live s) (wpid s) (environ s) (cwd s) (msgs s) (sigs_ignored s) x (exits s).
Definition set_exits (x : list nat) (s : shell) : shell :=
  mkSh (inp s) (ferr s) (fds s) (npipe s) (npid s) (procs s) (live s) (wpid s) (environ s) (cwd s) (msgs s) (sigs_ignored s) (sys_ok s) x.

Abbreviation shp := (Prog shell).

Definition STDIN_FILENO : Z := 0.
Definition STDOUT_FILENO : Z := 1.

Definition msg (m : string) : shp unit := put (add_msg m).

(** Does the next system call succeed? *)
Definition sys : shp bool :=
  do l <- get sys_ok;
  match l with
  | [] => pret true
  | b :: l => run put (set_sys_ok l); pret b
  end.

(** The lowest descriptor from [fd] on that is free. *)
Fixpoint lowest (fuel : nat) (fd : Z) (m : gmap Z ofile) : Z :=
  match fuel with
  | O => fd
  | S fuel => match m !! fd with None => fd | Some _ => lowest fuel (fd + 1) m end
  end.

Definition free_fd (m : gmap Z ofile) : Z := lowest (S (size m)) 0 m.

(** The results of the calls are those of C; -1 is an error. *)
Definition sys_open (path : bytes) (flags : Z) : shp Z :=
  do ok <- sys;
  if negb ok then pret (-1)
  else
    do m <- get fds;
    let fd := free_fd m in
    run put (set_fds (<[fd := Opened path flags]> m));
    pret fd.

Definition sys_close (fd : Z) : shp Z :=
  do m <- get fds;
  match m !! fd with
  | None => pret (-1)
  | Some _ => run put (set_fds (delete fd m)); pret 0
  end.

Definition sys_dup2 (fd fd2 : Z) : shp Z :=
  do m <- get fds;
  match m !! fd with
  | None => pret (-1)
  | Some f => run put (set_fds (<[fd2 := f]> m)); pret fd2
  end.

(** [None] is the error. *)
Definition sys_pipe : shp (option (Z * Z)) :=
  do ok <- sys;
  if negb ok then pret None
  else
    do m <- get fds;
    do id <- get npipe;
    let r := free_fd m in
    let m := <[r := PipeR id]> m in
    let w := free_fd m in
    run put (set_fds (<[w := PipeW id]> m));
    run put (set_npipe (id + 1));
    pret (Some (r, w)).

(** [waitpid(-1, &status, 0)] *)
Definition sys_waitpid : shp Z :=
  do l <- get live;
  do e <- get exits;
  match l with
  | [] => pret (-1)
  | p :: _ =>
      let i := (hd 0%nat e mod length l)%nat in
      let w := match l !! i with Some w => w | None => p end in
      run put (set_exits (tl e));
      run put (set_live (List.filter (fun x => negb (x =? w)) l));
      pret w
  end.

(** ** The functions *)
Definition fd_check : shp unit :=
  do m <- get fds;
  guard_die (existsb (fun fd => bool_decide (is_Some (m !! Z.of_nat fd))) (seq 3 17)) "fd is open".

(** [strtok(s, "=")], and what is left for [strtok(NULL, "")]. *)
Definition CH_EQUALS : Z := 61.

Fixpoint skip_equals (s : bytes) : bytes :=
  match s with c :: s' => if c =? CH_EQUALS then skip_equals s' else s | [] => [] end.

Fixpoint upto_equals (s : bytes) : bytes * bytes :=
  match s with
  | [] => ([], [])
  | c :: s => if c =? CH_EQUALS then ([], s) else let '(a, b) := upto_equals s in (c :: a, b)
  end.

(** [setenv(name, val, true)] *)
Fixpoint setenv (name val : bytes) (env : list (bytes * bytes)) : list (bytes * bytes) :=
  match env with
  | [] => [(name, val)]
  | (n, v) :: env => if bool_decide (n = name) then (name, val) :: env else (n, v) :: setenv name val env
  end.

Definition asg (argv : list bytes) : shp unit :=
  match argv with
  | [a] =>
      let '(name, val) := upto_equals (skip_equals a) in
      match name, val with
      | [], _ | _, [] => msg "Bad command"
      | _, _ =>
          do ok <- sys;
          if negb ok then msg "asg" else put (fun s => set_environ (setenv name val (environ s)) s)
      end
  | _ => msg "Extra args"
  end.

(** The variables are printed; the output is left out. *)
Definition set_cmd (argv : list bytes) : shp unit :=
  match argv with [_] => pret tt | _ => msg "Extra args" end.

Definition getenv (name : bytes) (env : list (bytes * bytes)) : option bytes :=
  snd <$> List.find (fun nv => bool_decide (nv.1 = name)) env.

Definition builtin (argv : list bytes) (srcfd dstfd : Z) : shp bool :=
  let finish :=
    run (if negb (srcfd =? STDIN_FILENO) || negb (dstfd =? STDOUT_FILENO) then msg "Illegal redirection or pipeline" else pret tt);
    pret true in
  match argv with
  | [] => die "argv[0] is null"
  | a :: rest =>
      match strchr a CH_EQUALS with
      | Some _ => run asg argv; finish
      | None =>
          if streq a (lit "set") then run set_cmd argv; finish
          else if streq a (lit "cd") then
            do env <- get environ;
            let path := match rest with p :: _ => p | [] => match getenv (lit "HOME") env with Some h => h | None => lit "." end end in
            do ok <- sys;
            run (if negb ok then msg "bad directory" else put (set_cwd path));
            finish
          else pret false
      end
  end.

Definition ignore_sig : shp unit := put (set_sigs true).

(** The disposition at entry is taken to be the default. *)
Definition entry_sig : shp unit := put (set_sigs false).

(** The loop ends with an error when no child is left. *)
Fixpoint wait_and_display (fuel : nat) (pid : Z) : shp bool :=
  match fuel with
  | O => die "fuel"
  | S fuel =>
      do w <- sys_waitpid;
      if w =? -1 then pret false
      else if w =? pid then pret true
      else wait_and_display fuel pid
  end.

Definition O_RDONLY : Z := 0.
Definition O_APPEND : Z := 1024.

(** [ec_neg1] in a child that has not called [execvp]. *)
Definition or_exit (m : shp Z) : shp Z := do r <- m; if r =? -1 then die "_exit(EXIT_FAILURE)" else pret r.

(** A file name is empty when its array starts with a null. *)
Definition redirect (srcfd : Z) (srcfile : bytes) (dstfd : Z) (dstfile : bytes) (append bckgrnd : bool) : shp unit :=
  let '(srcfile, srcfd) := if (srcfd =? STDIN_FILENO) && bckgrnd then (lit "/dev/null", -1) else (srcfile, srcfd) in
  do srcfd <- (match srcfile with [] => pret srcfd | _ => or_exit (sys_open srcfile O_RDONLY) end);
  run or_exit (sys_dup2 srcfd STDIN_FILENO);
  run (if negb (srcfd =? STDIN_FILENO) then or_exit (sys_close srcfd) else pret 0);
  do dstfd <- (match dstfile with
               | [] => pret dstfd
               | _ => or_exit (sys_open dstfile (Z.lor (Z.lor O_WRONLY O_CREAT) (if append then O_APPEND else O_TRUNC)))
               end);
  run or_exit (sys_dup2 dstfd STDOUT_FILENO);
  run (if negb (dstfd =? STDOUT_FILENO) then or_exit (sys_close dstfd) else pret 0);
  fd_check.

(** The child of [invoke]. *)
Definition child_run (argv : list bytes) (srcfd : Z) (srcfile : bytes) (dstfd : Z) (dstfile : bytes) (append bckgrnd : bool) (closefd : Z) : shp child_end :=
  run (if negb (closefd =? -1) then or_exit (sys_close closefd) else pret 0);
  run (if negb bckgrnd then entry_sig else pret tt);
  run redirect srcfd srcfile dstfd dstfile append bckgrnd;
  do m <- get fds;
  do ign <- get sigs_ignored;
  match argv with
  | [] => die "argv[0] is null"
  | a :: rest =>
      let cmdname := match strchr a 47 with None => a | Some i => drop (Z.to_nat (i + 1)) a end in
      pret (Execvp a (cmdname :: rest) m ign)
  end.

Definition invoke (argv : list bytes) (srcfd : Z) (srcfile : bytes) (dstfd : Z) (dstfile : bytes) (append bckgrnd : bool) (closefd : Z) : shp Z :=
  do b <- (match argv with [] => pret true | _ => builtin argv srcfd dstfd end);
  if b : bool then pret 0
  else
    do ok <- sys;
    if negb ok then run msg "Can't create new process"; pret 0
    else
      do s <- get (fun s => s);
      do pid <- get npid;
      let e := match child_run argv srcfd srcfile dstfd dstfile append bckgrnd closefd s with Ok e _ => e | Abort why _ => Exited why end in
      run put (add_proc (mkProc pid e));
      do r <- (if STDOUT_FILENO <? srcfd then sys_close srcfd else pret 0);
      if r =? -1 then pret (-1)
      else
        do r <- (if STDOUT_FILENO <? dstfd then sys_close dstfd else pret 0);
        if r =? -1 then pret (-1) else pret pid.

(** ** Commands *)

(** The variables of [command]; the file names are arrays. *)
Record cmd := mkCmd { c_argv : list bytes; c_srcfd : Z; c_srcfile : bytes; c_dstfd : Z; c_dstfile : bytes; c_append : bool }.

Definition cmd0 : cmd :=
  mkCmd [] STDIN_FILENO (replicate (Z.to_nat MAXFNAME) NUL) STDOUT_FILENO (replicate (Z.to_nat MAXFNAME) NUL) false.

Definition add_arg (w : bytes) (c : cmd) : cmd := mkCmd (c_argv c ++ [w]) (c_srcfd c) (c_srcfile c) (c_dstfd c) (c_dstfile c) (c_append c).
Definition set_src (fd : Z) (f : bytes) (c : cmd) : cmd := mkCmd (c_argv c) fd f (c_dstfd c) (c_dstfile c) (c_append c).
Definition set_dst (fd : Z) (f : bytes) (a : bool) (c : cmd) : cmd := mkCmd (c_argv c) (c_srcfd c) (c_srcfile c) fd f a.

(** What [gettoken] stored in an array. *)
Definition stored (w arr : bytes) : bytes := w ++ drop (length w) arr.

Definition next_token (maxword : Z) : shp (TOKEN * bytes) :=
  do s <- get (fun s => s);
  let '(t, w, rest) := gettoken maxword (ferr s) NEUTRAL [] (inp s) in
  run put (set_inp rest);
  pret (t, w).

(** A string that is read from an array has its null there. *)
Definition arr_str (a : bytes) : shp bytes := run guard_die (negb (bool_decide (NUL ∈ a))) "no null in the array"; pret (cstr a).

(** The end of the command, after the recursive call for a pipeline. *)
Definition finish_command (makepipe : bool) (c : cmd) (token term : TOKEN) (dstfd : Z) : shp (TOKEN * Z) :=
  do p <- (if makepipe then (do p <- sys_pipe; pret (match p with None => inr tt | Some p => inl (Some p) end)) else pret (inl None));
  match p with
  | inr _ => pret (T_ERROR, STDOUT_FILENO)
  | inl pfd =>
      let pipefd := match pfd with Some (_, w) => w | None => STDOUT_FILENO end in
      let srcfd := match pfd with Some (r, _) => r | None => c_srcfd c end in
      let closefd := match pfd with Some (_, w) => w | None => -1 end in
      do srcfile <- arr_str (c_srcfile c);
      do dstfile <- arr_str (c_dstfile c);
      do pid <- invoke (c_argv c) srcfd srcfile dstfd dstfile (c_append c) (bool_decide (term = T_AMP)) closefd;
      if pid =? -1 then pret (T_ERROR, pipefd)
      else
        run (if bool_decide (token = T_BAR) then pret tt else put (set_wpid (Some pid)));
        run (if bool_decide (c_argv c = []) && (negb (bool_decide (token = T_NL)) || (1 <? srcfd)) then msg "Missing command" else pret tt);
        pret (term, pipefd)
  end.

(** The result is the token that ended the pipeline, and the descriptor
    stored through [pipefdp].  A [break] in the switch goes on with the
    loop.  Every round takes a token off the input, so its length is enough
    fuel. *)
Fixpoint command (fuel : nat) (makepipe : bool) (c : cmd) : shp (TOKEN * Z) :=
  match fuel with
  | O => die "fuel"
  | S fuel =>
      do '(token, word) <- next_token MAXWORD;
      match token with
      | T_WORD =>
          if MAXARG - 1 <=? zlen (c_argv c) then run msg "Too many args"; command fuel makepipe c
          else
            do ok <- sys;
            if negb ok then run msg "Out of arg memory"; command fuel makepipe c
            else command fuel makepipe (add_arg (cstr word) c)
      | T_LT =>
          if makepipe then run msg "Extra <"; command fuel makepipe c
          else
            do '(t2, w2) <- next_token MAXFNAME;
            let f := stored w2 (c_srcfile c) in
            if bool_decide (t2 = T_WORD) then command fuel makepipe (set_src (-1) f c)
            else run msg "Illegal <"; command fuel makepipe (set_src (c_srcfd c) f c)
      | T_GT | T_GTGT =>
          if negb (c_dstfd c =? STDOUT_FILENO) then run msg "Extra > or >>"; command fuel makepipe c
          else
            do '(t2, w2) <- next_token MAXFNAME;
            let f := stored w2 (c_dstfile c) in
            if bool_decide (t2 = T_WORD) then command fuel makepipe (set_dst (-1) f (bool_decide (token = T_GTGT)) c)
            else run msg "Illegal > or >>"; command fuel makepipe (set_dst (c_dstfd c) f (c_append c) c)
      | T_BAR =>
          if negb (c_dstfd c =? STDOUT_FILENO) then run msg "> or >> conflicts with |"; command fuel makepipe c
          else
            do '(term, dstfd) <- command fuel true cmd0;
            if bool_decide (term = T_ERROR) then pret (T_ERROR, STDOUT_FILENO)
            else finish_command makepipe c T_BAR term dstfd
      | T_AMP | T_SEMI | T_NL => finish_command makepipe c token token (c_dstfd c)
      | T_EOF => die "exit"
      | T_ERROR => pret (T_ERROR, STDOUT_FILENO)
      end
  end.

(** One round of [main]; the prompt is left out. *)
Definition sh_round : shp unit :=
  do n <- get (fun s => length (inp s));
  do '(term, _) <- command (S n) false cmd0;
  run (if bool_decide (term = T_ERROR) then msg "Bad command" else pret tt);
  let term := if bool_decide (term = T_ERROR) then T_NL else term in
  run (if bool_decide (term = T_AMP) then pret tt
       else
         do w <- get wpid;
         match w with
         | None => die "pid is not set"
         | Some pid => if 0 <? pid then (do n <- get (fun s => length (live s)); do r <- wait_and_display (S n) pid; pret tt) else pret tt
         end);
  fd_check.

Fixpoint sh_rounds (fuel : nat) : shp unit :=
  match fuel with O => die "fuel" | S fuel => run sh_round; sh_rounds fuel end.

Definition sh_main (fuel : nat) : shp unit := run ignore_sig; sh_rounds fuel.
