(* ===== verification/ShThms.v ===== *)
(** * Reading commands

    The text of tokens and of pipelines, and what the shell makes of it. *)
From S2P Require Import Prelude CString Posix Sh.

Open Scope prog_scope.

(** ** The text of words *)

(** In quotes, a quote and a backslash are escaped. *)
Definition needs_escape (c : Z) : bool := (c =? CH_QUOTE) || (c =? CH_BSLASH).

Fixpoint escape (w : bytes) : bytes :=
  match w with
  | [] => []
  | c :: w => if needs_escape c then CH_BSLASH :: c :: escape w else c :: escape w
  end.

(** A word in quotes, or bare. *)
Inductive wtext := Quoted (w : bytes) | Bare (w : bytes).

Definition w_val (x : wtext) : bytes := match x with Quoted w | Bare w => w end.

Definition show_word (x : wtext) : bytes :=
  match x with Quoted w => CH_QUOTE :: escape w ++ [CH_QUOTE] | Bare w => w end.

(** A string that fits, and that can stand as it is when it is bare. *)
Definition word_ok (max : Z) (x : wtext) : Prop :=
  nonul (w_val x) /\ zlen (w_val x) < max /\
  match x with
  | Quoted _ => True
  | Bare w => exists c u, w = c :: u /\ c <> CH_QUOTE /\ Forall (fun c => word_end c = false) w
  end.

(** The input goes on with a character that ends a word. *)
Definition at_end (rest : bytes) : Prop := exists c u, rest = c :: u /\ word_end c = true.

Section tokens.
Context (max : Z) (fe : bool).

Lemma store_ok word c : zlen word < max -> store_char word max c = Some (word ++ [c]).
Proof. intros H. unfold store_char. by rewrite ltb_true. Qed.

Lemma quoted_token w word rest :
  zlen word + zlen w < max -> gettoken max fe INQUOTE word (escape w ++ CH_QUOTE :: rest) = (T_WORD, word ++ w ++ [NUL], rest).
Proof.
  revert word. induction w as [|c w IH]; intros word H; cbn [escape app].
  - cbn [gettoken]. change (CH_QUOTE =? CH_BSLASH) with false. change (CH_QUOTE =? CH_QUOTE) with true. cbn iota. by rewrite store_ok by zl.
  - assert (gettoken max fe INQUOTE (word ++ [c]) (escape w ++ CH_QUOTE :: rest) = (T_WORD, word ++ (c :: w) ++ [NUL], rest)) as Hnext.
    { rewrite IH by zl. by rewrite <- !app_assoc. }
    unfold needs_escape. destruct (c =? CH_QUOTE) eqn:E1, (c =? CH_BSLASH) eqn:E2; cbn [orb app gettoken]; rewrite ?E1, ?E2, ?store_ok by zl; try done.
    all: change (CH_BSLASH =? CH_BSLASH) with true; cbn iota; by rewrite store_ok by zl.
Qed.

Lemma bare_token w word rest :
  Forall (fun c => word_end c = false) w -> at_end rest -> zlen word + zlen w < max ->
  gettoken max fe INWORD word (w ++ rest) = (T_WORD, word ++ w ++ [NUL], rest).
Proof.
  intros Hw (c & u & -> & Hc). revert word. induction Hw as [|x w Hx Hw IH]; intros word H; cbn [app gettoken].
  - rewrite Hc. by rewrite store_ok by zl.
  - rewrite Hx, store_ok by zl. rewrite IH by zl. by rewrite <- !app_assoc.
Qed.

(** The first character of a word. *)
Lemma word_end_no c :
  word_end c = false ->
  (c =? CH_SEMI) = false /\ (c =? CH_AMP) = false /\ (c =? CH_BAR) = false /\ (c =? CH_LT) = false /\ (c =? CH_GT) = false /\
  (c =? CH_NEWLINE) = false /\ (c =? CH_SPACE) = false /\ (c =? CH_TAB) = false.
Proof. unfold word_end. rewrite !orb_false_iff. tauto. Qed.

Lemma gettoken_word x rest :
  word_ok max x -> at_end rest -> gettoken max fe NEUTRAL [] (show_word x ++ rest) = (T_WORD, w_val x ++ [NUL], rest).
Proof.
  intros (Hn & Hl & Hx) Hr. destruct x as [w|w]; cbn [w_val show_word] in *.
  - rewrite <- app_comm_cons, <- app_assoc. cbn [gettoken app]. change (CH_QUOTE =? CH_SEMI) with false. vm_compute (CH_QUOTE =? _). cbn.
    by rewrite quoted_token by zl.
  - destruct Hx as (c & u & -> & Hc & Hf). apply Forall_cons in Hf as [Hce Hf].
    destruct (word_end_no c Hce) as (E1 & E2 & E3 & E4 & E5 & E6 & E7 & E8). cbn [app gettoken]. rewrite E1, E2, E3, E4, E6, E7, E8, E5. cbn [orb].
    rewrite (proj2 (Z.eqb_neq _ _) Hc). pose proof (zlen_nonneg u). rewrite store_ok by zl. by rewrite bare_token by (done || zl).
Qed.

Lemma gettoken_space inp : gettoken max fe NEUTRAL [] (CH_SPACE :: inp) = gettoken max fe NEUTRAL [] inp.
Proof. done. Qed.

End tokens.

(** ** All tokens *)
Inductive atok := AWord (x : wtext) | AOp (t : TOKEN).

Definition op_text (t : TOKEN) : bytes :=
  match t with
  | T_BAR => [CH_BAR] | T_AMP => [CH_AMP] | T_SEMI => [CH_SEMI] | T_NL => [CH_NEWLINE] | T_LT => [CH_LT]
  | T_GT => [CH_GT] | T_GTGT => [CH_GT; CH_GT] | _ => []
  end.

Definition tok_text (t : atok) : bytes := match t with AWord x => show_word x | AOp t => op_text t end.

Definition tok_val (t : atok) : TOKEN * bytes := match t with AWord x => (T_WORD, w_val x ++ [NUL]) | AOp t => (t, []) end.

Definition tok_ok (t : atok) : Prop := match t with AWord x => word_ok MAXWORD x | AOp t => op_text t <> [] end.

(** The tokens up to the end of the input. *)
Fixpoint tokenize (fuel : nat) (inp : bytes) : list (TOKEN * bytes) :=
  match fuel with
  | O => []
  | S fuel =>
      match gettoken MAXWORD false NEUTRAL [] inp with
      | (T_EOF, _, _) => []
      | (t, w, rest) => (t, w) :: tokenize fuel rest
      end
  end.

Lemma at_end_space rest : at_end (CH_SPACE :: rest).
Proof. by exists CH_SPACE, rest. Qed.

Lemma gettoken_tok max fe t rest :
  match t with AWord x => word_ok max x | AOp t => op_text t <> [] end ->
  gettoken max fe NEUTRAL [] (tok_text t ++ CH_SPACE :: rest) = (tok_val t, CH_SPACE :: rest).
Proof.
  destruct t as [x|t]; intros H; cbn [tok_text tok_val].
  - rewrite (gettoken_word max fe x _ H (at_end_space rest)). done.
  - by destruct t.
Qed.

Lemma tokenize_run l :
  Forall tok_ok l -> tokenize (S (length l)) (concat ((fun t => tok_text t ++ [CH_SPACE]) <$> l)) = tok_val <$> l /\
    forall f, (length l < f)%nat -> tokenize f (CH_SPACE :: concat ((fun t => tok_text t ++ [CH_SPACE]) <$> l)) = tok_val <$> l.
Proof.
  induction 1 as [|t l Ht Hl [_ IH]].
  - split; [done|]. intros [|f] Hf; [simpl in Hf; lia|done].
  - assert (forall f, (S (length l) < f)%nat -> tokenize f (concat ((fun t => tok_text t ++ [CH_SPACE]) <$> t :: l)) = tok_val <$> t :: l) as Hall.
    { intros [|f] Hf; [lia|]. rewrite fmap_cons. cbn [concat tokenize]. rewrite <- app_assoc. change ([CH_SPACE] ++ ?r) with (CH_SPACE :: r).
      rewrite gettoken_tok by (destruct t; done). rewrite fmap_cons. destruct (tok_val t) as [k w] eqn:E.
      destruct k; try (rewrite IH by lia; done). exfalso. by destruct t as [x|[]]. }
    split; [apply Hall; simpl; lia|]. intros [|f] Hf; [simpl in Hf; lia|]. rewrite <- (Hall (S f)) by (simpl in Hf; lia). done.
Qed.

(** ** The input gets shorter *)
Lemma gettoken_le max fe st word inp t w rest :
  gettoken max fe st word inp = (t, w, rest) -> (length rest <= length inp)%nat.
Proof.
  revert st word. induction inp as [inp IH] using (induction_ltof1 _ length). unfold ltof in IH. intros st word.
  destruct inp as [|c inp']; cbn [gettoken]; [by intros [= _ _ <-]|].
  assert (forall st word, gettoken max fe st word inp' = (t, w, rest) -> (length rest <= S (length inp'))%nat) as IH1.
  { intros st' word' H. apply IH in H; simpl; lia. }
  destruct st.
  - repeat case_match; intros E; simplify_eq; simpl; eauto with lia.
  - case_match; intros E; simplify_eq; simpl; lia.
  - destruct (c =? CH_BSLASH).
    + destruct inp' as [|c2 inp2]; [repeat case_match; intros E; simplify_eq; simpl; lia|].
      destruct (store_char _ _ _); [|intros E; simplify_eq; simpl; lia]. intros E. apply IH in E; simpl in *; lia.
    + repeat case_match; intros E; simplify_eq; simpl; eauto with lia.
  - repeat case_match; intros E; simplify_eq; simpl; eauto with lia.
Qed.

(** A token takes at least one character; so does an error that is not one
    of the input. *)
Lemma gettoken_lt max fe inp t w rest :
  gettoken max fe NEUTRAL [] inp = (t, w, rest) -> t <> T_EOF -> (t <> T_ERROR \/ fe = false) -> (length rest < length inp)%nat.
Proof.
  destruct inp as [|c inp]; cbn [gettoken]; [intros [= <- _ _]; destruct fe; intuition congruence|].
  assert (forall st word, gettoken max fe st word inp = (t, w, rest) -> (length rest < S (length inp))%nat) as H.
  { intros st word E. apply gettoken_le in E. lia. }
  repeat case_match; intros E; simplify_eq; simpl; eauto with lia.
Qed.

(** Programs that leave the input alone, and do not stop for lack of
    fuel. *)
Definition quiet {A} (m : shp A) : Prop := forall s, match m s with Ok _ s' => inp s' = inp s /\ ferr s' = ferr s | Abort why _ => why <> "fuel"%string end.

Lemma quiet_bind {A B} (m : shp A) (k : A -> shp B) : quiet m -> (forall a, quiet (k a)) -> quiet (pbind m k).
Proof.
  intros Hm Hk s. unfold pbind. specialize (Hm s). destruct (m s) as [a s'|]; [|done]. specialize (Hk a s'). destruct (k a s'); intuition congruence.
Qed.

Lemma quiet_ret {A} (a : A) : quiet (pret a).
Proof. done. Qed.

Lemma quiet_get {A} (f : shell -> A) : quiet (get f).
Proof. done. Qed.

Lemma quiet_put f : (forall s, inp (f s) = inp s /\ ferr (f s) = ferr s) -> quiet (put f).
Proof. intros H s. apply H. Qed.

Lemma quiet_die {A} why : why <> "fuel"%string -> quiet (die (A := A) why).
Proof. by intros H s. Qed.

Create HintDb quiet.
#[export] Hint Resolve quiet_ret quiet_get : quiet.
#[export] Hint Extern 1 (quiet (put _)) => (apply quiet_put; split; reflexivity) : quiet.
#[export] Hint Extern 1 (quiet (die _)) => (apply quiet_die; discriminate) : quiet.
#[export] Hint Extern 2 (quiet (pbind _ _)) => (apply quiet_bind; [|intros ?]) : quiet.
#[export] Hint Extern 3 (quiet (match ?x with _ => _ end)) => destruct x : quiet.
#[export] Hint Extern 3 (quiet (if ?x then _ else _)) => destruct x : quiet.

Lemma quiet_msg m : quiet (msg m).
Proof. unfold msg. auto with quiet. Qed.

Lemma quiet_sys : quiet sys.
Proof. unfold sys. auto 8 with quiet. Qed.
#[export] Hint Resolve quiet_msg quiet_sys : quiet.

Lemma quiet_open p f : quiet (sys_open p f).
Proof. unfold sys_open. auto 12 with quiet. Qed.

Lemma quiet_close fd : quiet (sys_close fd).
Proof. unfold sys_close. auto 12 with quiet. Qed.

Lemma quiet_pipe : quiet sys_pipe.
Proof. unfold sys_pipe. auto 12 with quiet. Qed.
#[export] Hint Resolve quiet_open quiet_close quiet_pipe : quiet.

Lemma quiet_builtin argv a b : quiet (builtin argv a b).
Proof. unfold builtin, asg, set_cmd. auto 30 with quiet. Qed.
#[export] Hint Resolve quiet_builtin : quiet.

Lemma quiet_invoke argv a f b g ap bg cl : quiet (invoke argv a f b g ap bg cl).
Proof. unfold invoke. auto 30 with quiet. Qed.
#[export] Hint Resolve quiet_invoke : quiet.

Lemma quiet_finish mp c tok term dst : quiet (finish_command mp c tok term dst).
Proof. unfold finish_command, arr_str, guard_die. auto 40 with quiet. Qed.

(** The input is shorter in the end, when it can be read. *)
Definition ends {A} (n : nat) (fe : bool) (o : outcome shell A) : Prop :=
  match o with
  | Ok _ s => ferr s = fe /\ (length (inp s) <= n)%nat /\ (fe = false -> (length (inp s) < n)%nat)
  | Abort why _ => why <> "fuel"%string
  end.

Lemma ends_quiet {A B} (m : shp A) (k : A -> shp B) s n fe :
  quiet m -> (forall a s', inp s' = inp s -> ferr s' = ferr s -> ends n fe (k a s')) -> ends n fe (pbind m k s).
Proof. intros Hm Hk. unfold pbind. specialize (Hm s). destruct (m s) as [a s'|]; [|done]. destruct Hm. by apply Hk. Qed.

Lemma ends_finish mp c tok term dst s n : (length (inp s) < n)%nat -> ends n (ferr s) (finish_command mp c tok term dst s).
Proof. intros H. pose proof (quiet_finish mp c tok term dst s) as Hq. unfold ends. destruct (finish_command _ _ _ _ _ _); [|done]. destruct Hq as [-> ->]. split_and!; lia || done. Qed.

Lemma ends_mono {A} n m fe (o : outcome shell A) : ends n fe o -> (n < m)%nat -> ends m fe o.
Proof. destruct o; simpl; [|done]. intros (H1 & H2 & H3) H. split_and!; lia || done. Qed.

(** [command] ends: each round takes a token off the input. *)
Lemma command_ends fuel : forall mp c s, (length (inp s) < fuel)%nat -> ends (length (inp s)) (ferr s) (command fuel mp c s).
Proof.
  induction fuel as [|fuel IH]; intros mp c s Hf; [lia|]. cbn [command]. unfold next_token at 1. pstep.
  destruct (gettoken MAXWORD (ferr s) NEUTRAL [] (inp s)) as [[tok w] rest] eqn:E. pstep.
  assert (length rest <= length (inp s))%nat as Hle by (by eapply gettoken_le).
  set (n := length (inp s)) in *. set (fe := ferr s) in *.
  assert (forall mp c s', (length (inp s') < n)%nat -> ferr s' = fe -> ends n fe (command fuel mp c s')) as Hrec.
  { intros mp' c' s' Hlt <-. eapply ends_mono; [apply IH; lia|lia]. }
  assert (forall m c s', (length (inp s') < n)%nat -> ferr s' = fe -> ends n fe ((run msg m; command fuel mp c) s')) as Hmsg.
  { intros m c' s' Hlt Hfe. apply ends_quiet; [auto with quiet|]. intros _ s2 E2 E3. apply Hrec; congruence. }
  assert (tok <> T_EOF -> (tok <> T_ERROR \/ fe = false) -> (length rest < n)%nat) as Hlt by (by eapply gettoken_lt).
  set (s1 := set_inp rest s).
  assert (forall (mx : Z) (k : TOKEN * bytes -> shp (TOKEN * Z)), (forall tw s', (length (inp s') <= length rest)%nat -> ferr s' = fe -> ends n fe (k tw s')) -> ends n fe (pbind (next_token mx) k s1)) as Hnext.
  { intros mx k Hk. unfold next_token. pstep. destruct (gettoken mx _ _ _ _) as [[t2 w2] rest2] eqn:E2. pstep. apply Hk; [|done]. cbn. by eapply gettoken_le. }
  assert (forall tok term dst, (length rest < n)%nat -> ends n fe (finish_command mp c tok term dst s1)) as Hfin by (intros ??? Hl; by apply (ends_finish mp c _ _ _ s1)).
  destruct tok; try specialize (Hlt ltac:(done) ltac:(by left)).
  - case_match; [by apply Hmsg|]. apply ends_quiet; [auto with quiet|]. intros ok s2 E2 E3.
    assert (length (inp s2) < n)%nat by (by rewrite E2). destruct ok; cbn [negb]; [by apply Hrec|by apply Hmsg].
  - case_match; [by apply Hmsg|]. pose proof (IH true cmd0 s1 ltac:(cbn; lia)) as H1. unfold pbind.
    destruct (command fuel true cmd0 s1) as [[term dst] s2|]; [|done]. cbn in H1. destruct H1 as (H1 & H2 & H3).
    case_match; [simpl; split_and!; lia || done|]. fold fe in H1. rewrite <- H1. apply ends_finish. lia.
  - by apply Hfin.
  - by apply Hfin.
  - case_match; [by apply Hmsg|]. apply Hnext. intros [t2 w2] s2 H2 H3. case_match; [apply Hrec; lia || done|apply Hmsg; lia || done].
  - case_match; [by apply Hmsg|]. apply Hnext. intros [t2 w2] s2 H2 H3. case_match; [apply Hrec; lia || done|apply Hmsg; lia || done].
  - case_match; [by apply Hmsg|]. apply Hnext. intros [t2 w2] s2 H2 H3. case_match; [apply Hrec; lia || done|apply Hmsg; lia || done].
  - by apply Hfin.
  - done.
  - simpl. split_and!; [done|lia|]. intros Hfe. apply Hlt; [done|by right].
Qed.

(** ** Waiting *)
Lemma waitpid_run s : live s <> [] ->
  exists w s', sys_waitpid s = Ok w s' /\ w ∈ live s /\ live s' = List.filter (fun x => negb (x =? w)) (live s) /\ (length (live s') < length (live s))%nat /\
    inp s' = inp s /\ fds s' = fds s /\ procs s' = procs s /\ wpid s' = wpid s /\ ferr s' = ferr s.
Proof.
  intros Hl. unfold sys_waitpid. pstep. destruct (live s) as [|p l] eqn:E; [done|]. rewrite <- E in *. pstep.
  set (i := (hd 0 (exits s) mod length (live s))%nat). assert (i < length (live s))%nat as Hi by (apply Nat.mod_upper_bound; by destruct (live s)).
  destruct (lookup_lt_is_Some_2 (live s) i Hi) as [w Hw]. rewrite Hw. eexists _, _. split; [done|].
  assert (w ∈ live s) as Hin by (by eapply list_elem_of_lookup_2). split_and!; try done. cbn.
  clear -Hin. revert w Hin. induction (live s) as [|x l IH]; intros w Hin; [by apply not_elem_of_nil in Hin|]. cbn.
  assert (forall l : bytes, (length (List.filter (fun x => negb (x =? w)%Z) l) <= length l)%nat) as Hle by apply List.filter_length_le.
  destruct (x =? w) eqn:Ex; cbn; [specialize (Hle l); lia|]. apply elem_of_cons in Hin as [->|Hin]; [by rewrite Z.eqb_refl in Ex|].
  specialize (IH w Hin). lia.
Qed.

(** The child is reported, or there are none left. *)
Lemma wait_run fuel pid : forall s,
  (length (live s) < fuel)%nat -> (-1 ∉ live s) ->
  exists r s', wait_and_display fuel pid s = Ok r s' /\ inp s' = inp s /\ fds s' = fds s /\ procs s' = procs s /\ wpid s' = wpid s /\
    (pid ∈ live s -> r = true) /\ (pid ∉ live s') /\ (forall x, x ∈ live s' -> x ∈ live s).
Proof.
  induction fuel as [|fuel IH]; intros s Hf Hn; [lia|]. cbn [wait_and_display]. destruct (live s) as [|x l] eqn:E.
  - unfold sys_waitpid. pstep. rewrite E. pstep. eexists _, s. split; [done|]. split_and!; try done; rewrite ?E; first [by intros ?%not_elem_of_nil|apply not_elem_of_nil|done].
  - rewrite <- E in *. destruct (waitpid_run s) as (w & s1 & E1 & Hw & Hl & Hlt & Hi & Hfd & Hp & Hwp & _); [by rewrite E|].
    rewrite (pbind_ok _ _ _ _ _ E1). rewrite eqb_false by (intros ->; done).
    assert (forall y, y ∈ live s1 <-> y ∈ live s /\ y <> w) as Hin.
    { intros y. rewrite Hl, !list_elem_of_In, filter_In, negb_true_iff, Z.eqb_neq. done. }
    destruct (w =? pid) eqn:Ep.
    + apply Z.eqb_eq in Ep as ->. eexists _, s1. split; [done|]. split_and!; try done; [rewrite Hin; tauto|intros y; rewrite Hin; tauto].
    + apply Z.eqb_neq in Ep. destruct (IH s1) as (r & s2 & E2 & H1 & H2 & H3 & H4 & H5 & H6 & H7); [lia|rewrite Hin; tauto|].
      exists r, s2. split; [done|]. split_and!; try done; try congruence; [intros H; apply H5, Hin; split; congruence|intros y Hy; by apply Hin, H7].
Qed.

(** The loop ends, whatever children there are. *)
Lemma wait_ends fuel pid : forall s,
  (length (live s) < fuel)%nat -> exists r s', wait_and_display fuel pid s = Ok r s' /\ inp s' = inp s /\ ferr s' = ferr s.
Proof.
  induction fuel as [|fuel IH]; intros s Hf; [lia|]. cbn [wait_and_display]. destruct (live s) as [|x l] eqn:E.
  - unfold sys_waitpid. pstep. rewrite E. pstep. by eexists _, s.
  - rewrite <- E in *. destruct (waitpid_run s) as (w & s1 & E1 & _ & _ & Hlt & Hi & _ & _ & _ & Hfe); [by rewrite E|].
    rewrite (pbind_ok _ _ _ _ _ E1). case_match; [by eexists _, s1|]. case_match; [by eexists _, s1|].
    destruct (IH s1) as (r & s2 & E2 & H1 & H2); [lia|]. exists r, s2. split; [done|]. by rewrite H1, H2.
Qed.

(** A round takes something off the input. *)
Lemma round_ends s : ends (length (inp s)) (ferr s) (sh_round s).
Proof.
  unfold sh_round. pstep. pose proof (command_ends (S (length (inp s))) false cmd0 s ltac:(lia)) as Hc. unfold pbind at 1.
  destruct (command _ _ _ s) as [[term dst] s1|]; [|done]. cbn in Hc. destruct Hc as (H1 & H2 & H3).
  assert (forall s2 : shell, ferr s2 = ferr s1 -> inp s2 = inp s1 -> ends (length (inp s)) (ferr s) (fd_check s2)) as Hfd.
  { intros s2 E1 E2. unfold fd_check, guard_die. pstep. case_match; cbn; [done|]. rewrite E1, E2. by split_and!. }
  apply ends_quiet; [case_bool_decide; auto with quiet|]. intros _ s2 E1 E2. set (t := if bool_decide (term = T_ERROR) then T_NL else term). clearbody t.
  case_bool_decide; pstep; [by apply Hfd|]. destruct (wpid s2) as [pid|]; [|done]. case_match; pstep; [|by apply Hfd].
  destruct (wait_ends (S (length (live s2))) pid s2) as (r & s3 & E3 & H4 & H5); [lia|]. rewrite (pbind_ok _ _ _ _ _ E3). pstep. apply Hfd; congruence.
Qed.

(** The shell ends when the input can be read. *)
Lemma rounds_end fuel : forall s, ferr s = false -> (length (inp s) < fuel)%nat -> exists why s', sh_rounds fuel s = Abort why s' /\ why <> "fuel"%string.
Proof.
  induction fuel as [|fuel IH]; intros s Hfe Hf; [lia|]. cbn [sh_rounds]. pose proof (round_ends s) as He. unfold pbind.
  destruct (sh_round s) as [[] s1|why s1]; [|by eexists _, _]. destruct He as (H1 & _ & H3). apply IH; [congruence|]. specialize (H3 Hfe). lia.
Qed.

(** When it cannot, the shell reports a bad command for ever. *)
Lemma rounds_spin fuel : forall s, ferr s = true -> inp s = [] -> live s = [] -> is_Some (wpid s) -> fd_check s = Ok tt s -> exists s', sh_rounds fuel s = Abort "fuel" s'.
Proof.
  induction fuel as [|fuel IH]; intros s Hfe Hi Hl [pid Hp] Hfd; [by eexists|]. cbn [sh_rounds].
  assert (sh_round s = Ok tt (add_msg "Bad command" s)) as E; [|rewrite (pbind_ok _ _ _ _ _ E); apply IH; try done].
  - unfold sh_round. pstep. rewrite Hi. cbn [length command]. unfold next_token. pstep. rewrite Hi, Hfe. cbn [gettoken]. pstep.
    change (bool_decide (T_ERROR = T_ERROR)) with true. cbn iota. change (bool_decide (T_NL = T_AMP)) with false. cbn iota. unfold msg. pstep. cbn [wpid add_msg set_inp]. rewrite Hp.
    assert (fd_check (add_msg "Bad command" s) = Ok tt (add_msg "Bad command" s)) as Hfd2.
    { revert Hfd. unfold fd_check, guard_die. pstep. cbn [fds add_msg]. case_match; done. }
    replace (set_inp [] s) with s by (rewrite <- Hi; by destruct s).
    case_match; pstep; [|done]. cbn [live add_msg]. rewrite Hl. cbn [length wait_and_display]. unfold sys_waitpid. pstep. cbn [live add_msg]. rewrite Hl. pstep. done.
  - revert Hfd. unfold fd_check, guard_die. pstep. cbn [fds add_msg]. case_match; done.
Qed.
