(* ===== verification/ShPipe.v ===== *)
(** * Pipelines

    What the shell does with the text of a pipeline when the system calls
    succeed: which processes it starts, how they are connected, and which
    descriptors it has in the end. *)
From S2P Require Import Prelude CString Posix Sh ShThms.

Open Scope prog_scope.

(** ** Free descriptors *)
Lemma lowest_spec n fd m :
  fd <= lowest n fd m <= fd + Z.of_nat n /\ (forall y, fd <= y < lowest n fd m -> is_Some (m !! y)) /\
  (m !! lowest n fd m = None \/ lowest n fd m = fd + Z.of_nat n).
Proof.
  revert fd. induction n as [|n IH]; intros fd; cbn [lowest]; [split_and!; [lia|lia|lia|right; lia]|].
  destruct (m !! fd) as [f|] eqn:E; [|split_and!; [lia|lia|lia|by left]]. destruct (IH (fd + 1)) as (H1 & H2 & H3). split_and!; [lia|lia| |].
  - intros y Hy. destruct (decide (y = fd)) as [->|]; [by eexists|]. apply H2. lia.
  - destruct H3 as [?|H3]; [by left|right; lia].
Qed.

Lemma free_fd_free m : m !! free_fd m = None /\ (forall k, 0 <= k <= 2 -> is_Some (m !! k)) -> m !! free_fd m = None /\ 3 <= free_fd m.
Proof.
  intros [Hf Hstd]. split; [done|]. unfold free_fd in *. destruct (lowest_spec (S (size m)) 0 m) as ([H0 _] & _).
  destruct (decide (lowest (S (size m)) 0 m <= 2)) as [H|H]; [|lia]. destruct (Hstd _ (conj H0 H)). congruence.
Qed.

Lemma free_fd_none m : m !! free_fd m = None.
Proof.
  unfold free_fd. destruct (lowest_spec (S (size m)) 0 m) as (_ & Hall & [?|He]); [done|]. exfalso.
  assert (list_to_set (Z.of_nat <$> seq 0 (S (size m))) ⊆ dom m) as Hsub.
  { intros y. rewrite elem_of_list_to_set, list_elem_of_fmap. intros (i & -> & Hi%elem_of_seq). apply elem_of_dom, Hall. lia. }
  apply subseteq_size in Hsub. rewrite size_dom, size_list_to_set in Hsub; [rewrite length_fmap, length_seq in Hsub; lia|].
  apply (NoDup_fmap_2 Z.of_nat), NoDup_seq.
Qed.

(** The three standard descriptors. *)
Definition std (a b e : ofile) : gmap Z ofile := <[0 := a]> (<[1 := b]> {[2 := e]}).

Definition has_std (m : gmap Z ofile) : Prop := forall k, 0 <= k <= 2 -> is_Some (m !! k).

Lemma free_fd_high m : has_std m -> m !! free_fd m = None /\ 3 <= free_fd m.
Proof. intros H. apply free_fd_free. split; [apply free_fd_none|done]. Qed.

Lemma has_std_std a b e : has_std (std a b e).
Proof.
  intros k Hk. unfold std. destruct (decide (k = 0)) as [->|]; [by rewrite lookup_insert_eq|]. destruct (decide (k = 1)) as [->|]; [by rewrite lookup_insert_ne, lookup_insert_eq|].
  assert (k = 2) as -> by lia. by rewrite !lookup_insert_ne, lookup_singleton_eq.
Qed.

Lemma has_std_insert k f m : has_std m -> has_std (<[k := f]> m).
Proof. intros H x Hx. apply lookup_insert_is_Some. destruct (decide (k = x)); [by left|right; auto]. Qed.

Lemma std_high a b e k : 3 <= k -> std a b e !! k = None.
Proof. intros Hk. unfold std. by rewrite !lookup_insert_ne, lookup_singleton_ne by lia. Qed.

Lemma std_0 a b e : std a b e !! 0 = Some a.
Proof. done. Qed.

Lemma std_1 a b e : std a b e !! 1 = Some b.
Proof. done. Qed.

Lemma std_set0 a b e x : <[0 := x]> (std a b e) = std x b e.
Proof. unfold std. by rewrite insert_insert_eq. Qed.

Lemma std_set1 a b e x : <[1 := x]> (std a b e) = std a x e.
Proof. unfold std. rewrite insert_insert_ne by done. by rewrite insert_insert_eq. Qed.

Lemma fd_check_std a b e s : fds s = std a b e -> fd_check s = Ok tt s.
Proof.
  intros H. unfold fd_check. pstep. rewrite H. unfold guard_die. replace (existsb _ _) with false; [done|]. symmetry. apply not_true_iff_false. intros Hx.
  apply existsb_exists in Hx as (fd & Hin & Hb). apply in_seq in Hin. apply bool_decide_eq_true in Hb. rewrite std_high in Hb by lia. by destruct Hb.
Qed.

(** A temporary descriptor that is copied and closed. *)
Lemma dup_close {A} (x k : Z) (v v' : A) (m : gmap Z A) : m !! x = None -> x <> k -> delete x (<[k := v]> (<[x := v']> m)) = <[k := v]> m.
Proof. intros Hx Hne. rewrite delete_insert_ne by done. by rewrite delete_insert_id. Qed.

(** ** A child *)

(** Where a command reads from and writes to. *)
Inductive srct := SStd | SFile (f : bytes) | SPipe (r w id : Z).
Inductive dstt := DStd | DFile (append : bool) (f : bytes) | DPipe (w id : Z).

Section child.
Context (E0 E1 E2 : ofile).

Definition dst_fds (d : dstt) : gmap Z ofile := match d with DPipe w id => <[w := PipeW id]> (std E0 E1 E2) | _ => std E0 E1 E2 end.

(** The descriptors of the shell when it starts the command. *)
Definition cmd_fds (x : srct) (d : dstt) : gmap Z ofile :=
  match x with SPipe r w id => <[w := PipeW id]> (<[r := PipeR id]> (dst_fds d)) | _ => dst_fds d end.

Definition src_fd (x : srct) : Z := match x with SStd => STDIN_FILENO | SFile _ => -1 | SPipe r _ _ => r end.
Definition src_file (x : srct) : bytes := match x with SFile f => f | _ => [] end.
Definition src_close (x : srct) : Z := match x with SPipe _ w _ => w | _ => -1 end.
Definition dst_fd (d : dstt) : Z := match d with DStd => STDOUT_FILENO | DFile _ _ => -1 | DPipe w _ => w end.
Definition dst_file (d : dstt) : bytes := match d with DFile _ f => f | _ => [] end.
Definition dst_append (d : dstt) : bool := match d with DFile a _ => a | _ => false end.

Definition src_target (bg : bool) (x : srct) : ofile :=
  match x with
  | SStd => if bg then Opened (lit "/dev/null") O_RDONLY else E0
  | SFile f => Opened f O_RDONLY
  | SPipe _ _ id => PipeR id
  end.

Definition dst_target (d : dstt) : ofile :=
  match d with
  | DStd => E1
  | DFile a f => Opened f (Z.lor (Z.lor O_WRONLY O_CREAT) (if a then O_APPEND else O_TRUNC))
  | DPipe _ id => PipeW id
  end.

Definition plumb_ok (x : srct) (d : dstt) : Prop :=
  match d with DPipe w _ => 3 <= w | DFile _ f => f <> [] | DStd => True end /\
  match x with
  | SPipe r w _ => 3 <= r /\ 3 <= w /\ r <> w /\ dst_fds d !! r = None /\ dst_fds d !! w = None
  | SFile f => f <> []
  | SStd => True
  end.

Lemma has_std_dst d : has_std (dst_fds d).
Proof. destruct d; cbn; [apply has_std_std..|apply has_std_insert, has_std_std]. Qed.

Lemma open_run p fl s :
  sys_ok s = [] -> sys_open p fl s = Ok (free_fd (fds s)) (set_fds (<[free_fd (fds s) := Opened p fl]> (fds s)) s).
Proof. intros H. unfold sys_open, sys. pstep. rewrite H. by pstep. Qed.

Lemma dup2_run fd fd2 f s : fds s !! fd = Some f -> sys_dup2 fd fd2 s = Ok fd2 (set_fds (<[fd2 := f]> (fds s)) s).
Proof. intros H. unfold sys_dup2. pstep. by rewrite H. Qed.

Lemma close_run fd f s : fds s !! fd = Some f -> sys_close fd s = Ok 0 (set_fds (delete fd (fds s)) s).
Proof. intros H. unfold sys_close. pstep. by rewrite H. Qed.

Lemma or_exit_run m s r s' : m s = Ok r s' -> 0 <= r -> or_exit m s = Ok r s'.
Proof. intros H Hr. unfold or_exit. rewrite (pbind_ok _ _ _ _ _ H). by rewrite eqb_false by lia. Qed.

(** Open a file, copy it to [k], close it. *)
Lemma open_dup_close p fl k s :
  sys_ok s = [] -> has_std (fds s) -> 0 <= k <= 2 ->
  exists x, 3 <= x /\ or_exit (sys_open p fl) s = Ok x (set_fds (<[x := Opened p fl]> (fds s)) s) /\
    (forall s1, fds s1 = <[x := Opened p fl]> (fds s) ->
      or_exit (sys_dup2 x k) s1 = Ok k (set_fds (<[k := Opened p fl]> (fds s1)) s1) /\
      or_exit (sys_close x) (set_fds (<[k := Opened p fl]> (fds s1)) s1) = Ok 0 (set_fds (<[k := Opened p fl]> (fds s)) s1)).
Proof.
  intros Hok Hstd Hk. destruct (free_fd_high _ Hstd) as [Hf Hx]. exists (free_fd (fds s)). split; [done|]. split; [apply or_exit_run; [by apply open_run|lia]|].
  intros s1 H1. split.
  - apply or_exit_run; [|lia]. apply dup2_run. by rewrite H1, lookup_insert_eq.
  - apply or_exit_run; [|lia]. erewrite close_run by (cbn [fds set_fds]; rewrite lookup_insert_ne by lia; by rewrite H1, lookup_insert_eq).
    cbn [fds set_fds]. rewrite H1, dup_close by (done || lia). done.
Qed.

Lemma set_fds_id s : set_fds (fds s) s = s.
Proof. by destruct s. Qed.

(** The first half of [redirect]. *)
Lemma redirect_src x d bg (K : shp unit) s :
  fds s = match x with SPipe r _ id => <[r := PipeR id]> (dst_fds d) | _ => dst_fds d end -> sys_ok s = [] -> plumb_ok x d ->
  (let '(srcfile, srcfd) := if (src_fd x =? STDIN_FILENO) && bg then (lit "/dev/null", -1) else (src_file x, src_fd x) in
   do srcfd <- (match srcfile with [] => pret srcfd | _ => or_exit (sys_open srcfile O_RDONLY) end);
   run or_exit (sys_dup2 srcfd STDIN_FILENO);
   run (if negb (srcfd =? STDIN_FILENO) then or_exit (sys_close srcfd) else pret 0); K) s =
  K (set_fds (<[0 := src_target bg x]> (dst_fds d)) s).
Proof.
  intros Hs Hok [Hd Hx].
  assert (forall f (K : Z -> shp unit), f <> [] -> fds s = dst_fds d -> exists y, 3 <= y /\
    (do srcfd <- (match f with [] => pret (-1) | _ => or_exit (sys_open f O_RDONLY) end); K srcfd) s = K y (set_fds (<[y := Opened f O_RDONLY]> (fds s)) s) /\
    forall K2 : shp unit, (run or_exit (sys_dup2 y STDIN_FILENO); run or_exit (sys_close y); K2) (set_fds (<[y := Opened f O_RDONLY]> (fds s)) s) =
      K2 (set_fds (<[0 := Opened f O_RDONLY]> (dst_fds d)) s)) as Hfile.
  { intros f K0 Hf Hsd. destruct (open_dup_close f O_RDONLY 0 s Hok) as (y & Hy & Eo & Hdc); [rewrite Hsd; apply has_std_dst|lia|].
    exists y. split; [done|]. split; [destruct f; [done|]; by rewrite (pbind_ok _ _ _ _ _ Eo)|]. intros K2.
    destruct (Hdc (set_fds (<[y := Opened f O_RDONLY]> (fds s)) s) eq_refl) as [E1' E2']. rewrite (pbind_ok _ _ _ _ _ E1'), (pbind_ok _ _ _ _ _ E2'). by rewrite Hsd. }
  destruct x as [|f|r w id]; cbn [src_fd src_file src_target] in *.
  - change (STDIN_FILENO =? STDIN_FILENO) with true. destruct bg; cbn [andb].
    + destruct (Hfile (lit "/dev/null") (fun srcfd => run or_exit (sys_dup2 srcfd STDIN_FILENO); run (if negb (srcfd =? STDIN_FILENO) then or_exit (sys_close srcfd) else pret 0); K) ltac:(done) Hs) as (y & Hy & E & Hr).
      etransitivity; [exact E|]. cbv beta. rewrite eqb_false by (unfold STDIN_FILENO; lia). cbn [negb]. apply Hr.
    + pstep. assert (fds s !! 0 = Some E0) as H0 by (rewrite Hs; destruct d; cbn in *; [done..|]; by rewrite lookup_insert_ne by lia).
      unfold STDIN_FILENO. rewrite (pbind_ok _ _ _ _ _ (or_exit_run _ _ _ _ (dup2_run 0 0 E0 s H0) ltac:(lia))). cbn [negb Z.eqb]. pstep. by rewrite Hs.
  - change ((-1 =? STDIN_FILENO) && bg) with false. cbn iota.
    destruct (Hfile f (fun srcfd => run or_exit (sys_dup2 srcfd STDIN_FILENO); run (if negb (srcfd =? STDIN_FILENO) then or_exit (sys_close srcfd) else pret 0); K) Hx Hs) as (y & Hy & E & Hr).
    etransitivity; [exact E|]. cbv beta. rewrite eqb_false by (unfold STDIN_FILENO; lia). cbn [negb]. apply Hr.
  - destruct Hx as (Hr & Hw & Hne & Hdr & Hdw). unfold STDIN_FILENO. rewrite eqb_false by lia. cbn [andb]. pstep.
    rewrite (pbind_ok _ _ _ _ _ (or_exit_run _ _ _ _ (dup2_run r 0 (PipeR id) s ltac:(by rewrite Hs, lookup_insert_eq)) ltac:(lia))). rewrite eqb_false by lia. cbn [negb].
    erewrite (pbind_ok (or_exit (sys_close r))); [|apply or_exit_run; [|done]; apply (close_run r (PipeR id)); cbn [fds set_fds]; rewrite lookup_insert_ne by lia; by rewrite Hs, lookup_insert_eq].
    cbn [fds set_fds]. by rewrite Hs, dup_close by (done || lia).
Qed.

(** The second half. *)
Lemma redirect_dst d T (K : shp unit) s :
  fds s = <[0 := T]> (dst_fds d) -> sys_ok s = [] -> match d with DPipe w _ => 3 <= w | DFile _ f => f <> [] | DStd => True end ->
  (do dstfd <- (match dst_file d with
                | [] => pret (dst_fd d)
                | _ => or_exit (sys_open (dst_file d) (Z.lor (Z.lor O_WRONLY O_CREAT) (if dst_append d then O_APPEND else O_TRUNC)))
                end);
   run or_exit (sys_dup2 dstfd STDOUT_FILENO);
   run (if negb (dstfd =? STDOUT_FILENO) then or_exit (sys_close dstfd) else pret 0); K) s =
  K (set_fds (std T (dst_target d) E2) s).
Proof.
  intros Hs Hok Hd. unfold STDOUT_FILENO. destruct d as [|a f|w id]; cbn [dst_file dst_fd dst_append dst_target dst_fds] in *.
  - pstep. rewrite std_set0 in Hs.
    rewrite (pbind_ok _ _ _ _ _ (or_exit_run _ _ _ _ (dup2_run 1 1 E1 s ltac:(by rewrite Hs)) ltac:(lia))). cbn [negb Z.eqb Pos.eqb]. pstep. by rewrite Hs, std_set1.
  - rewrite std_set0 in Hs. set (fl := Z.lor _ _). destruct (open_dup_close f fl 1 s Hok) as (y & Hy & Eo & Hdc); [rewrite Hs; apply has_std_std|lia|].
    destruct f as [|c f]; [done|]. rewrite (pbind_ok _ _ _ _ _ Eo).
    destruct (Hdc (set_fds (<[y := Opened (c :: f) fl]> (fds s)) s) eq_refl) as [E1' E2']. rewrite (pbind_ok _ _ _ _ _ E1'). rewrite eqb_false by lia. cbn [negb].
    rewrite (pbind_ok _ _ _ _ _ E2'). by rewrite Hs, std_set1.
  - pstep. rewrite insert_insert_ne in Hs by lia. rewrite std_set0 in Hs.
    rewrite (pbind_ok _ _ _ _ _ (or_exit_run _ _ _ _ (dup2_run w 1 (PipeW id) s ltac:(by rewrite Hs, lookup_insert_eq)) ltac:(lia))). rewrite eqb_false by lia. cbn [negb].
    erewrite (pbind_ok (or_exit (sys_close w))); [|apply or_exit_run; [|done]; apply (close_run w (PipeW id)); cbn [fds set_fds]; rewrite lookup_insert_ne by lia; by rewrite Hs, lookup_insert_eq].
    cbn [fds set_fds]. rewrite Hs, dup_close by (lia || (apply std_high; lia)). by rewrite std_set1.
Qed.

(** The name that the command gets. *)
Definition cmdname (a : bytes) : bytes := match strchr a 47 with None => a | Some i => drop (Z.to_nat (i + 1)) a end.

Lemma child_spec a rest x d bg s :
  fds s = cmd_fds x d -> sys_ok s = [] -> plumb_ok x d ->
  exists s', child_run (a :: rest) (src_fd x) (src_file x) (dst_fd d) (dst_file d) (dst_append d) bg (src_close x) s =
    Ok (Execvp a (cmdname a :: rest) (std (src_target bg x) (dst_target d) E2) (if bg then sigs_ignored s else false)) s'.
Proof.
  intros Hs Hok Hp. unfold child_run.
  set (m1 := match x with SPipe r _ id => <[r := PipeR id]> (dst_fds d) | _ => dst_fds d end).
  rewrite (pbind_ok (if negb (src_close x =? -1) then or_exit (sys_close (src_close x)) else pret 0) _ s 0 (set_fds m1 s)).
  2: { destruct x as [|f|r w id]; cbn [src_close]; [unfold m1; cbn [cmd_fds] in Hs; rewrite <- Hs, set_fds_id; done..|].
    destruct Hp as (_ & Hr & Hw & Hne & Hdr & Hdw). rewrite eqb_false by lia. cbn [negb]. apply or_exit_run; [|done].
    rewrite (close_run w (PipeW id)) by (rewrite Hs; cbn; by rewrite lookup_insert_eq). rewrite Hs. cbn [cmd_fds].
    rewrite delete_insert_id; [done|]. rewrite lookup_insert_ne by lia. done. }
  set (ign := if bg then sigs_ignored s else false).
  rewrite (pbind_ok (if negb bg then entry_sig else pret tt) _ (set_fds m1 s) tt (set_fds m1 (set_sigs ign s))).
  2: { unfold ign. destruct bg; cbn [negb]; [|done]. by destruct s. }
  erewrite (pbind_ok (redirect _ _ _ _ _ _)); [|].
  2: { unfold redirect. rewrite (redirect_src x d bg) by done. rewrite (redirect_dst d (src_target bg x)) by (done || apply Hp).
    eapply fd_check_std. done. }
  pstep. eexists. done.
Qed.

End child.

(** ** Running a pipeline

    The text of a pipeline, the processes that it stands for, and that the
    shell starts them. *)
(** ** Starting one command *)

(** Not a command of the shell itself. *)
Definition external (a : bytes) : bool :=
  bool_decide (strchr a CH_EQUALS = None) && negb (streq a (lit "set")) && negb (streq a (lit "cd")).

Lemma builtin_external a rest x d s : external a = true -> builtin (a :: rest) x d s = Ok false s.
Proof.
  unfold external. rewrite !andb_true_iff, !negb_true_iff, bool_decide_eq_true. intros [[H1 H2] H3]. unfold builtin. by rewrite H1, H2, H3.
Qed.

(** The shell after it has started [ps] and made some pipes. *)
Definition launched (m : gmap Z ofile) (pipes : Z) (ps : list proc) (w : option Z) (s : shell) : shell :=
  mkSh (inp s) (ferr s) m (npipe s + pipes) (npid s + zlen ps) (procs s ++ ps) (live s ++ (p_pid <$> ps)) w
    (environ s) (cwd s) (msgs s) (sigs_ignored s) (sys_ok s) (exits s).

Lemma launched_launched m1 m2 n1 n2 ps1 ps2 w1 w2 s :
  launched m2 n2 ps2 w2 (launched m1 n1 ps1 w1 s) = launched m2 (n1 + n2) (ps1 ++ ps2) w2 s.
Proof. unfold launched. cbn. rewrite fmap_app, !app_assoc. f_equal; zl. Qed.

Section starting.
Context (E0 E1 E2 : ofile).

Abbreviation std0 := (std E0 E1 E2).

(** What the shell keeps: the end of the pipe to write into. *)
Definition left_fds (x : srct) : gmap Z ofile := match x with SPipe _ w id => <[w := PipeW id]> std0 | _ => std0 end.

Definition started (pid : Z) (a : bytes) (rest : list bytes) (x : srct) (d : dstt) (bg ign : bool) : proc :=
  mkProc pid (Execvp a (cmdname a :: rest) (std (src_target E0 bg x) (dst_target E1 d) E2) (bg && ign)).

Lemma close_src_parent x d s :
  fds s = cmd_fds E0 E1 E2 x d -> plumb_ok E0 E1 E2 x d ->
  (if STDOUT_FILENO <? src_fd x then sys_close (src_fd x) else pret 0) s =
    Ok 0 (set_fds (match x with SPipe _ w id => <[w := PipeW id]> (dst_fds E0 E1 E2 d) | _ => dst_fds E0 E1 E2 d end) s).
Proof.
  intros Hs [_ Hx]. unfold STDOUT_FILENO. destruct x as [|f|r w id]; cbn [src_fd cmd_fds] in *.
  - change (1 <? STDIN_FILENO) with false. cbn iota. by rewrite <- Hs, set_fds_id.
  - change (1 <? -1) with false. cbn iota. by rewrite <- Hs, set_fds_id.
  - destruct Hx as (Hr & Hw & Hne & Hdr & Hdw). rewrite ltb_true by lia.
    rewrite (close_run r (PipeR id)) by (rewrite Hs, lookup_insert_ne by lia; by rewrite lookup_insert_eq).
    rewrite Hs, dup_close by (done || lia). done.
Qed.

Lemma close_dst_parent x d s :
  fds s = match x with SPipe _ w id => <[w := PipeW id]> (dst_fds E0 E1 E2 d) | _ => dst_fds E0 E1 E2 d end -> plumb_ok E0 E1 E2 x d ->
  (if STDOUT_FILENO <? dst_fd d then sys_close (dst_fd d) else pret 0) s = Ok 0 (set_fds (left_fds x) s).
Proof.
  intros Hs [Hd Hx]. unfold STDOUT_FILENO. destruct d as [|ap f|w' id']; cbn [dst_fd dst_fds] in *.
  - change (1 <? STDOUT_FILENO) with false. cbn iota. destruct x; cbn [left_fds]; by rewrite <- Hs, set_fds_id.
  - change (1 <? -1) with false. cbn iota. destruct x; cbn [left_fds]; by rewrite <- Hs, set_fds_id.
  - rewrite ltb_true by lia. destruct x as [|f|r w id]; cbn [left_fds].
    + rewrite (close_run w' (PipeW id')) by (by rewrite Hs, lookup_insert_eq). rewrite Hs, delete_insert_id by (apply std_high; lia). done.
    + rewrite (close_run w' (PipeW id')) by (by rewrite Hs, lookup_insert_eq). rewrite Hs, delete_insert_id by (apply std_high; lia). done.
    + destruct Hx as (Hr & Hw & Hne & Hdr & Hdw). assert (w <> w') as Hww by (intros ->; by rewrite lookup_insert_eq in Hdw).
      rewrite (close_run w' (PipeW id')) by (rewrite Hs, lookup_insert_ne by done; by rewrite lookup_insert_eq).
      rewrite Hs, dup_close by (done || (apply std_high; lia)). done.
Qed.

Lemma invoke_run a rest x d bg s :
  external a = true -> fds s = cmd_fds E0 E1 E2 x d -> sys_ok s = [] -> plumb_ok E0 E1 E2 x d ->
  invoke (a :: rest) (src_fd x) (src_file x) (dst_fd d) (dst_file d) (dst_append d) bg (src_close x) s =
    Ok (npid s) (launched (left_fds x) 0 [started (npid s) a rest x d bg (sigs_ignored s)] (wpid s) s).
Proof.
  intros Ha Hs Hok Hp. unfold invoke. rewrite (pbind_ok _ _ _ _ _ (builtin_external a rest _ _ s Ha)). unfold sys. pstep. rewrite Hok. pstep. cbn [negb]. pstep.
  destruct (child_spec E0 E1 E2 a rest x d bg s Hs Hok Hp) as [s1 E]. rewrite E. clear E.
  set (p := mkProc _ _). set (s2 := add_proc p s).
  rewrite (pbind_ok _ _ _ _ _ (close_src_parent x d s2 Hs Hp)). change (0 =? -1) with false. cbn iota.
  erewrite pbind_ok; [|apply close_dst_parent; [reflexivity|done]]. change (0 =? -1) with false. cbn iota.
  unfold pret. f_equal. unfold launched, s2, p, started. cbn. rewrite Z.add_0_r. by destruct bg.
Qed.

End starting.

(** ** Simple commands *)
Record scmd := mkScmd { sc_words : list wtext; sc_in : option wtext; sc_out : option (bool * wtext) }.

(** A word after a space. *)
Definition sp (x : bytes) : bytes := CH_SPACE :: x.

Definition sc_text (c : scmd) : bytes :=
  concat ((fun x => sp (show_word x)) <$> sc_words c) ++
  match sc_in c with None => [] | Some x => sp [CH_LT] ++ sp (show_word x) end ++
  match sc_out c with None => [] | Some (a, x) => sp (op_text (if a : bool then T_GTGT else T_GT)) ++ sp (show_word x) end.

Definition opt_ok {A} (P : A -> Prop) (o : option A) : Prop := match o with None => True | Some x => P x end.

(** A file name is not empty. *)
Definition fname_ok (x : wtext) : Prop := word_ok MAXFNAME x /\ w_val x <> [].

Definition sc_ok (c : scmd) : Prop :=
  Forall (word_ok MAXWORD) (sc_words c) /\ 1 <= zlen (sc_words c) <= MAXARG - 1 /\
  (exists a, head (sc_words c) = Some a /\ external (w_val a) = true) /\
  opt_ok fname_ok (sc_in c) /\ opt_ok (fun ax => fname_ok ax.2) (sc_out c).

Definition one {A} (o : option A) : nat := match o with None => 0 | Some _ => 1 end.

Definition arr0 : bytes := replicate (Z.to_nat MAXFNAME) NUL.

Definition add_words (ws : list wtext) (c : cmd) : cmd := foldl (fun c x => add_arg (w_val x) c) c ws.
Definition add_in (o : option wtext) (c : cmd) : cmd := match o with None => c | Some x => set_src (-1) (stored (w_val x ++ [NUL]) (c_srcfile c)) c end.
Definition add_out (o : option (bool * wtext)) (c : cmd) : cmd :=
  match o with None => c | Some (a, x) => set_dst (-1) (stored (w_val x ++ [NUL]) (c_dstfile c)) a c end.

Lemma next_token_word max x rest s :
  word_ok max x -> at_end rest -> inp s = sp (show_word x) ++ rest -> next_token max s = Ok (T_WORD, w_val x ++ [NUL]) (set_inp rest s).
Proof. intros Hx Hr Hi. unfold next_token. pstep. rewrite Hi. unfold sp. rewrite <- app_comm_cons, gettoken_space, gettoken_word by done. by pstep. Qed.

(** An operator and then a space. *)
Lemma next_token_op max t rest s :
  op_text t <> [] -> inp s = sp (op_text t) ++ CH_SPACE :: rest -> next_token max s = Ok (t, []) (set_inp (CH_SPACE :: rest) s).
Proof. intros Ht Hi. unfold next_token. pstep. rewrite Hi. unfold sp. rewrite <- app_comm_cons, gettoken_space. rewrite (gettoken_tok max _ (AOp t) rest Ht). by pstep. Qed.

Lemma cstr_word max x : word_ok max x -> cstr (w_val x ++ [NUL]) = w_val x.
Proof. intros [Hn _]. by apply cstr_app_nul. Qed.

Lemma sys_run s : sys_ok s = [] -> sys s = Ok true s.
Proof. intros H. unfold sys. pstep. by rewrite H. Qed.

Lemma words_run ws rest mp f : forall c s,
  Forall (word_ok MAXWORD) ws -> zlen (c_argv c) + zlen ws <= MAXARG - 1 -> at_end rest -> sys_ok s = [] ->
  inp s = concat ((fun x => sp (show_word x)) <$> ws) ++ rest ->
  command (length ws + f) mp c s = command f mp (add_words ws c) (set_inp rest s).
Proof.
  induction ws as [|x ws IH]; intros c s Hw Hl Hr Hok Hi; cbn [length Nat.add].
  - cbn in Hi. rewrite <- Hi. by destruct s.
  - apply Forall_cons in Hw as [Hx Hw]. rewrite fmap_cons in Hi. cbn [concat] in Hi. rewrite <- app_assoc in Hi. cbn [command].
    erewrite pbind_ok; [|eapply next_token_word; [done| |done]; destruct ws; [done|by eexists _, _]].
    cbn iota beta. rewrite leb_false by zl. erewrite (pbind_ok sys); [|apply sys_run; exact Hok]. cbn [negb]. rewrite (cstr_word _ _ Hx).
    rewrite (IH _ (set_inp _ s)); try done; cbn [c_argv add_arg]; zl.
Qed.

Lemma in_run o rest f c s :
  opt_ok fname_ok o -> at_end rest -> inp s = match o with None => [] | Some x => sp [CH_LT] ++ sp (show_word x) end ++ rest ->
  command (one o + f) false c s = command f false (add_in o c) (set_inp rest s).
Proof.
  destruct o as [x|]; intros Hx Hr Hi; cbn [add_in one Nat.add].
  - destruct Hx as [Hx _]. cbn [command]. rewrite <- app_assoc in Hi. erewrite pbind_ok; [|eapply (next_token_op _ T_LT); [done|exact Hi]]. cbn iota beta.
    by erewrite pbind_ok; [|by eapply next_token_word].
  - cbn in Hi. rewrite <- Hi. by destruct s.
Qed.

Lemma out_run o rest mp f c s :
  opt_ok (fun ax => fname_ok ax.2) o -> at_end rest -> c_dstfd c = STDOUT_FILENO ->
  inp s = match o with None => [] | Some (a, x) => sp (op_text (if a : bool then T_GTGT else T_GT)) ++ sp (show_word x) end ++ rest ->
  command (one o + f) mp c s = command f mp (add_out o c) (set_inp rest s).
Proof.
  destruct o as [[a x]|]; intros Hx Hr Hc Hi; cbn [add_out one Nat.add].
  - destruct Hx as [Hx _]. cbn [command]. rewrite <- app_assoc in Hi. erewrite pbind_ok; [|eapply (next_token_op _ (if a then T_GTGT else T_GT)); [by destruct a|exact Hi]].
    destruct a; cbn iota beta; rewrite Hc; change (STDOUT_FILENO =? STDOUT_FILENO) with true; cbn [negb]; by erewrite pbind_ok; [|by eapply next_token_word].
  - cbn in Hi. rewrite <- Hi. by destruct s.
Qed.

(** What has been read of a simple command. *)
Definition sc_cmd (c : scmd) : cmd := add_out (sc_out c) (add_in (sc_in c) (add_words (sc_words c) cmd0)).
Definition sc_tokens (c : scmd) : nat := length (sc_words c) + (one (sc_in c) + one (sc_out c)).

Lemma at_end_opt {A} (o : option A) (g : A -> bytes) rest : at_end rest -> (forall x, at_end (g x)) -> at_end (match o with None => [] | Some x => g x end ++ rest).
Proof. intros Hr Hg. destruct o as [x|]; [|done]. destruct (Hg x) as (c & u & -> & Hc). by exists c, (u ++ rest). Qed.

Lemma add_words_fields ws : forall c, c_argv (add_words ws c) = c_argv c ++ (w_val <$> ws) /\ c_srcfd (add_words ws c) = c_srcfd c /\ c_srcfile (add_words ws c) = c_srcfile c /\
  c_dstfd (add_words ws c) = c_dstfd c /\ c_dstfile (add_words ws c) = c_dstfile c /\ c_append (add_words ws c) = c_append c.
Proof.
  induction ws as [|x ws IH]; intros c; [by rewrite app_nil_r|]. destruct (IH (add_arg (w_val x) c)) as (H1 & H2 & H3 & H4 & H5 & H6).
  unfold add_words in *. cbn [foldl]. rewrite H1, H2, H3, H4, H5, H6. cbn. by rewrite <- app_assoc.
Qed.

Lemma simple_run c rest mp f s :
  sc_ok c -> (mp = true -> sc_in c = None) -> at_end rest -> sys_ok s = [] -> inp s = sc_text c ++ rest ->
  command (sc_tokens c + f) mp cmd0 s = command f mp (sc_cmd c) (set_inp rest s).
Proof.
  intros (Hw & Hl & _ & Hi & Ho) Hmp Hr Hok Hs. unfold sc_text in Hs. rewrite <- !app_assoc in Hs. unfold sc_tokens. rewrite <- !Nat.add_assoc.
  rewrite (words_run (sc_words c) (match sc_in c with None => [] | Some x => sp [CH_LT] ++ sp (show_word x) end ++
    match sc_out c with None => [] | Some (a, x) => sp (op_text (if a : bool then T_GTGT else T_GT)) ++ sp (show_word x) end ++ rest)); try done.
  2: { change (c_argv cmd0) with (@nil bytes). zl. }
  2: { apply at_end_opt; [|intros x; apply at_end_space]. apply at_end_opt; [done|intros [? ?]; apply at_end_space]. }
  destruct (add_words_fields (sc_words c) cmd0) as (_ & _ & _ & Hd & _).
  destruct mp; [rewrite (Hmp eq_refl)|].
  - cbn [one Nat.add app]. rewrite (out_run (sc_out c) rest) by done. unfold sc_cmd. by rewrite (Hmp eq_refl).
  - rewrite in_run with (rest := match sc_out c with None => [] | Some (a, x) => sp (op_text (if a : bool then T_GTGT else T_GT)) ++ sp (show_word x) end ++ rest); try done.
    2: { apply at_end_opt; [done|intros [? ?]; apply at_end_space]. }
    rewrite (out_run (sc_out c) rest); try done. by destruct (sc_in c).
Qed.

(** ** The end of a command *)

(** Where a simple command reads from and writes to. *)
Definition sc_src (c : scmd) : srct := match sc_in c with None => SStd | Some x => SFile (w_val x) end.
Definition sc_dst (c : scmd) : dstt := match sc_out c with None => DStd | Some (a, x) => DFile a (w_val x) end.

Lemma arr0_str s : arr_str arr0 s = Ok [] s.
Proof. done. Qed.

Lemma stored_str x s : word_ok MAXFNAME x -> arr_str (stored (w_val x ++ [NUL]) arr0) s = Ok (w_val x) s.
Proof.
  intros Hx. destruct Hx as [Hn _]. unfold arr_str, stored. rewrite pbind_guard.
  - rewrite <- app_assoc. cbn [app]. by rewrite cstr_app_nul.
  - rewrite bool_decide_eq_true_2; [done|]. rewrite !elem_of_app. left. right. by apply list_elem_of_singleton.
Qed.

(** The fields of a command that has been read. *)
Lemma sc_cmd_argv c : c_argv (sc_cmd c) = w_val <$> sc_words c.
Proof. unfold sc_cmd. destruct (add_words_fields (sc_words c) cmd0) as (H & _). by destruct (sc_out c) as [[]|], (sc_in c). Qed.

Lemma sc_cmd_src c : c_srcfd (sc_cmd c) = src_fd (sc_src c).
Proof. unfold sc_cmd, sc_src. destruct (add_words_fields (sc_words c) cmd0) as (_ & H & _). by destruct (sc_out c) as [[]|], (sc_in c). Qed.

Lemma sc_cmd_dst c : c_dstfd (sc_cmd c) = dst_fd (sc_dst c) /\ c_append (sc_cmd c) = dst_append (sc_dst c).
Proof. unfold sc_cmd, sc_dst. destruct (add_words_fields (sc_words c) cmd0) as (_ & _ & _ & H & _ & H'). by destruct (sc_out c) as [[]|], (sc_in c). Qed.

Lemma sc_cmd_srcfile c s : sc_ok c -> arr_str (c_srcfile (sc_cmd c)) s = Ok (src_file (sc_src c)) s.
Proof.
  intros (_ & _ & _ & Hi & _). unfold sc_cmd, sc_src. destruct (add_words_fields (sc_words c) cmd0) as (_ & _ & H & _).
  assert (arr_str (c_srcfile (add_in (sc_in c) (add_words (sc_words c) cmd0))) s = Ok (src_file match sc_in c with None => SStd | Some x => SFile (w_val x) end) s) as Hs.
  { destruct (sc_in c) as [x|]; cbn [add_in set_src c_srcfile src_file]; rewrite H; [apply stored_str, Hi|apply arr0_str]. }
  by destruct (sc_out c) as [[]|].
Qed.

Lemma sc_cmd_dstfile c s : sc_ok c -> arr_str (c_dstfile (sc_cmd c)) s = Ok (dst_file (sc_dst c)) s.
Proof.
  intros (_ & _ & _ & _ & Ho). unfold sc_cmd, sc_dst. destruct (add_words_fields (sc_words c) cmd0) as (_ & _ & _ & _ & H & _).
  assert (c_dstfile (add_in (sc_in c) (add_words (sc_words c) cmd0)) = arr0) as Hd by (by destruct (sc_in c)).
  destruct (sc_out c) as [[a x]|]; cbn [add_out set_dst c_dstfile dst_file]; rewrite Hd; [apply stored_str, Ho|apply arr0_str].
Qed.

Section pipelines.
Context (E0 E1 E2 : ofile).

(** The output is the one of the command, or the pipe to the next one. *)
Definition dst_ok (c : scmd) (d : dstt) : Prop := d = sc_dst c \/ (sc_out c = None /\ exists w id, d = DPipe w id /\ 3 <= w).

(** The process of a command whose standard input and output are given. *)
Definition stage (pid : Z) (c : scmd) (src dst : ofile) (bg ign : bool) : proc :=
  mkProc pid (match w_val <$> sc_words c with
              | [] => Exited "no command"
              | a :: rest => Execvp a (cmdname a :: rest) (std src dst E2) (bg && ign)
              end).

Lemma pipe_run d s :
  fds s = dst_fds E0 E1 E2 d -> sys_ok s = [] -> match d with DPipe w _ => 3 <= w | DFile _ f => f <> [] | DStd => True end ->
  exists r w, sys_pipe s = Ok (Some (r, w)) (set_npipe (npipe s + 1) (set_fds (cmd_fds E0 E1 E2 (SPipe r w (npipe s)) d) s)) /\ plumb_ok E0 E1 E2 (SPipe r w (npipe s)) d.
Proof.
  intros Hs Hok Hd. unfold sys_pipe. pstep. rewrite (pbind_ok _ _ _ _ _ (sys_run _ Hok)). cbn [negb]. pstep.
  set (r := free_fd (fds s)). set (w := free_fd (<[r := PipeR (npipe s)]> (fds s))). exists r, w.
  assert (has_std (fds s)) as Hstd by (rewrite Hs; apply has_std_dst). destruct (free_fd_high _ Hstd) as [Hr1 Hr2].
  destruct (free_fd_high (<[r := PipeR (npipe s)]> (fds s))) as [Hw1 Hw2]; [by apply has_std_insert|]. fold r in Hr1, Hr2. fold w in Hw1, Hw2.
  apply lookup_insert_None in Hw1 as [Hw1 Hne]. split; [cbn [cmd_fds]; by rewrite <- Hs|]. split; [done|]. rewrite <- Hs. by split_and!.
Qed.

Lemma plumb_src c d : sc_ok c -> dst_ok c d -> plumb_ok E0 E1 E2 (sc_src c) d.
Proof.
  intros (_ & _ & _ & Hi & Ho) Hd. split.
  - destruct Hd as [->|(_ & w & id & -> & ?)]; [|done]. unfold sc_dst. destruct (sc_out c) as [[a x]|]; [|done]. apply Ho.
  - unfold sc_src. destruct (sc_in c) as [x|]; [|done]. apply Hi.
Qed.

Lemma dst_ok_same c d : dst_ok c d -> dst_file (sc_dst c) = dst_file d /\ dst_append (sc_dst c) = dst_append d.
Proof. intros [->|(H & w & id & -> & _)]; [done|]. unfold sc_dst. by rewrite H. Qed.

Lemma cmd_fds_src c d : cmd_fds E0 E1 E2 (sc_src c) d = dst_fds E0 E1 E2 d.
Proof. unfold sc_src. by destruct (sc_in c). Qed.

(** The call of [invoke] and what follows it. *)
Lemma invoke_finish (pfd : Z) c x d token term s :
  sc_ok c -> dst_ok c d -> src_file x = src_file (sc_src c) -> fds s = cmd_fds E0 E1 E2 x d -> sys_ok s = [] -> plumb_ok E0 E1 E2 x d -> 0 < npid s ->
  (do srcfile <- arr_str (c_srcfile (sc_cmd c));
   do dstfile <- arr_str (c_dstfile (sc_cmd c));
   do pid <- invoke (c_argv (sc_cmd c)) (src_fd x) srcfile (dst_fd d) dstfile (c_append (sc_cmd c)) (bool_decide (term = T_AMP)) (src_close x);
   if pid =? -1 then pret (T_ERROR, pfd)
   else
     run (if bool_decide (token = T_BAR) then pret tt else put (set_wpid (Some pid)));
     run (if bool_decide (c_argv (sc_cmd c) = []) && (negb (bool_decide (token = T_NL)) || (1 <? src_fd x)) then msg "Missing command" else pret tt);
     pret (term, pfd)) s =
  Ok (term, pfd) (launched (left_fds E0 E1 E2 x) 0 [stage (npid s) c (src_target E0 (bool_decide (term = T_AMP)) x) (dst_target E1 d) (bool_decide (term = T_AMP)) (sigs_ignored s)]
    (if bool_decide (token = T_BAR) then wpid s else Some (npid s)) s).
Proof.
  intros Hc Hd Hsf Hs Hok Hp Hpid. destruct (dst_ok_same _ _ Hd) as [Hdf Hda]. destruct (sc_cmd_dst c) as [_ Hap].
  rewrite (pbind_ok _ _ _ _ _ (sc_cmd_srcfile c s Hc)), (pbind_ok _ _ _ _ _ (sc_cmd_dstfile c s Hc)), Hap, Hda, Hdf, <- Hsf, sc_cmd_argv.
  destruct Hc as (_ & _ & (a & Ha & Hext) & _). destruct (sc_words c) as [|a' ws] eqn:Ew; [done|]. injection Ha as ->. rewrite fmap_cons.
  rewrite (pbind_ok _ _ _ _ _ (invoke_run E0 E1 E2 (w_val a) (w_val <$> ws) x d _ s Hext Hs Hok Hp)). rewrite eqb_false by lia.
  rewrite (bool_decide_eq_false_2 (_ :: _ = [])) by done. cbn [andb]. unfold stage. rewrite Ew, fmap_cons. case_bool_decide; pstep; done.
Qed.

Lemma finish_run mp c token term d s :
  sc_ok c -> (mp = true -> sc_in c = None) -> dst_ok c d -> fds s = dst_fds E0 E1 E2 d -> sys_ok s = [] -> 0 < npid s ->
  exists w, 3 <= w /\
    finish_command mp (sc_cmd c) token term (dst_fd d) s =
      Ok (term, if mp then w else STDOUT_FILENO)
        (launched (if mp then <[w := PipeW (npipe s)]> (std E0 E1 E2) else std E0 E1 E2) (if mp then 1 else 0)
          [stage (npid s) c (if mp then PipeR (npipe s) else src_target E0 (bool_decide (term = T_AMP)) (sc_src c)) (dst_target E1 d) (bool_decide (term = T_AMP)) (sigs_ignored s)]
          (if bool_decide (token = T_BAR) then wpid s else Some (npid s)) s).
Proof.
  intros Hc Hin Hd Hs Hok Hpid. pose proof (plumb_src c d Hc Hd) as Hp. unfold finish_command. destruct mp.
  - destruct (pipe_run d s Hs Hok (proj1 Hp)) as (r & w & E & Hp2). exists w. split; [apply Hp2|]. pstep. rewrite (pbind_ok _ _ _ _ _ E). pstep. cbn iota.
    assert (sc_src c = SStd) as Hsrc by (unfold sc_src; by rewrite Hin).
    rewrite (invoke_finish w c (SPipe r w (npipe s)) d); try done.
    2: { by rewrite Hsrc. }
    unfold launched. cbn. by rewrite Z.add_0_r.
  - exists 3. split; [done|]. pstep. cbn iota. rewrite sc_cmd_src.
    pose proof (invoke_finish STDOUT_FILENO c (sc_src c) d token term s Hc Hd eq_refl (eq_trans Hs (eq_sym (cmd_fds_src c d))) Hok Hp Hpid) as H.
    replace (src_close (sc_src c)) with (-1) in H by (unfold sc_src; by destruct (sc_in c)).
    replace (left_fds E0 E1 E2 (sc_src c)) with (std E0 E1 E2) in H by (unfold sc_src; by destruct (sc_in c)). exact H.
Qed.

(** ** Pipelines *)
Fixpoint pl_text (cs : list scmd) : bytes :=
  match cs with
  | [] => []
  | [c] => sc_text c
  | c :: cs => sc_text c ++ sp [CH_BAR] ++ pl_text cs
  end.

(** Only the first command reads from a file, and only the last one writes
    to one. *)
Fixpoint pl_ok (mp : bool) (cs : list scmd) : Prop :=
  match cs with
  | [] => False
  | c :: cs =>
      sc_ok c /\ (mp = true -> sc_in c = None) /\
      match cs with [] => True | _ => sc_out c = None /\ pl_ok true cs end
  end.

(** Process [i] of [n]: it reads from the pipe [pp + (n - 1 - i)] and writes
    to the one before, but for the ends of the pipeline. *)
Definition pl_proc (n : nat) (mp bg ign : bool) (pp pid : Z) (i : nat) (c : scmd) : proc :=
  let k := Z.of_nat (n - 1 - i) in
  stage (pid + k) c
    (if (i =? 0)%nat && negb mp then src_target E0 bg (sc_src c) else PipeR (pp + k))
    (if (i =? n - 1)%nat then dst_target E1 (sc_dst c) else PipeW (pp + k - 1)) bg ign.

(** The last one is started first. *)
Definition pl_procs (mp bg ign : bool) (pp pid : Z) (cs : list scmd) : list proc :=
  reverse (imap (pl_proc (length cs) mp bg ign pp pid) cs).

Lemma pl_procs_one mp bg ign pp pid c :
  pl_procs mp bg ign pp pid [c] = [stage pid c (if mp then PipeR pp else src_target E0 bg (sc_src c)) (dst_target E1 (sc_dst c)) bg ign].
Proof. unfold pl_procs, pl_proc. cbn. rewrite !Z.add_0_r. by destruct mp. Qed.

Lemma pl_procs_cons mp bg ign pp pid c cs :
  cs <> [] ->
  pl_procs mp bg ign pp pid (c :: cs) =
    pl_procs true bg ign pp pid cs ++
    [stage (pid + zlen cs) c (if mp then PipeR (pp + zlen cs) else src_target E0 bg (sc_src c)) (PipeW (pp + zlen cs - 1)) bg ign].
Proof.
  intros Hcs. unfold pl_procs. rewrite imap_cons, reverse_cons. f_equal.
  - f_equal. apply imap_ext. intros i x Hi. apply lookup_lt_Some in Hi. unfold compose, pl_proc. cbn [length].
    replace (S (length cs) - 1 - S i)%nat with (length cs - 1 - i)%nat by lia. replace (S i =? S (length cs) - 1)%nat with (i =? length cs - 1)%nat by (apply eq_bool_prop_intro; rewrite !Is_true_true, !Nat.eqb_eq; lia).
    by rewrite !andb_false_r.
  - unfold pl_proc. cbn [length]. replace (S (length cs) - 1 - 0)%nat with (length cs) by lia. rewrite of_nat_length. f_equal.
    rewrite (proj2 (Nat.eqb_neq 0 (S (length cs) - 1))) by (destruct cs; [done|simpl; lia]). by destruct mp.
Qed.

Definition is_term (t : TOKEN) : Prop := t = T_AMP \/ t = T_SEMI \/ t = T_NL.

Fixpoint pl_tokens (cs : list scmd) : nat := match cs with [] => 0 | c :: cs => S (sc_tokens c) + pl_tokens cs end.

Lemma next_token_end max t rest s : is_term t -> inp s = sp (op_text t) ++ rest -> next_token max s = Ok (t, []) (set_inp rest s).
Proof. intros Ht Hi. unfold next_token. pstep. rewrite Hi. by destruct Ht as [->|[->| ->]]. Qed.

Lemma sc_text_space c : sc_ok c -> exists u, sc_text c = CH_SPACE :: u.
Proof. intros (_ & Hl & _). unfold sc_text. destruct (sc_words c); [rewrite zlen_nil in Hl; lia|]. by eexists. Qed.

Lemma pl_text_space mp cs : pl_ok mp cs -> exists u, pl_text cs = CH_SPACE :: u.
Proof. destruct cs as [|c cs]; [done|]. intros (Hc & _). destruct (sc_text_space c Hc) as [u E]. destruct cs; cbn [pl_text]; rewrite E; by eexists. Qed.

(** What [command] does with the text of a pipeline. *)
Lemma pipeline_run cs : forall mp term rest s f,
  pl_ok mp cs -> is_term term -> inp s = pl_text cs ++ sp (op_text term) ++ rest -> sys_ok s = [] -> fds s = std E0 E1 E2 -> 0 < npid s ->
  exists w, 3 <= w /\
    command (pl_tokens cs + f) mp cmd0 s =
      Ok (term, if mp then w else STDOUT_FILENO)
        (launched (if mp then <[w := PipeW (npipe s + zlen cs - 1)]> (std E0 E1 E2) else std E0 E1 E2) (zlen cs - if mp then 0 else 1)
          (pl_procs mp (bool_decide (term = T_AMP)) (sigs_ignored s) (npipe s) (npid s) cs) (Some (npid s)) (set_inp rest s)).
Proof.
  induction cs as [|c cs IH]; [done|]. intros mp term rest s f (Hc & Hin & Hcs) Ht Hi Hok Hfd Hpid. cbn [pl_tokens].
  replace (S (sc_tokens c) + pl_tokens cs + f)%nat with (sc_tokens c + S (pl_tokens cs + f))%nat by lia.
  destruct cs as [|c2 cs].
  - cbn [pl_text] in Hi. rewrite (simple_run c (sp (op_text term) ++ rest)); [|done..|apply at_end_space|done|done]. cbn [command].
    erewrite pbind_ok; [|eapply (next_token_end _ term rest); done]. cbn iota beta.
    destruct (sc_cmd_dst c) as [Hd _].
    destruct (finish_run mp c term term (sc_dst c) (set_inp rest s) Hc Hin (or_introl eq_refl)) as (w & Hw & E); [|done..|].
    { cbn [fds set_inp]. rewrite Hfd. unfold sc_dst. by destruct (sc_out c) as [[]|]. }
    exists w. split; [done|]. rewrite pl_procs_one. rewrite <- Hd in E. cbn [length pl_tokens].
    replace (npipe s + zlen [c] - 1) with (npipe s) by (unfold zlen; cbn [length]; lia). replace (zlen [c] - if mp then 0 else 1) with (if mp then 1 else 0) by (by destruct mp).
    replace (bool_decide (term = T_BAR)) with false in E by (by destruct Ht as [->|[->| ->]]).
    destruct Ht as [->|[->| ->]]; exact E.
  - destruct Hcs as [Hout Hcs]. set (l := c2 :: cs) in *. change (pl_text (c :: l)) with (sc_text c ++ sp [CH_BAR] ++ pl_text l) in Hi. rewrite <- !app_assoc in Hi.
    rewrite (simple_run c (sp [CH_BAR] ++ pl_text l ++ sp (op_text term) ++ rest)); [|done..|apply at_end_space|done|done]. cbn [command].
    destruct (pl_text_space _ _ Hcs) as [u Hu].
    erewrite pbind_ok; [|eapply (next_token_op _ T_BAR (u ++ sp (op_text term) ++ rest)); [done|]; cbn [inp set_inp]; by rewrite Hu]. cbn iota beta.
    destruct (sc_cmd_dst c) as [Hd _]. replace (c_dstfd (sc_cmd c) =? STDOUT_FILENO) with true by (rewrite Hd; unfold sc_dst; by rewrite Hout). cbn [negb].
    set (s1 := set_inp _ (set_inp _ s)).
    destruct (IH true term rest s1 f Hcs Ht) as (w & Hw & E); [cbn [inp s1 set_inp]; by rewrite Hu|done..|].
    rewrite (pbind_ok _ _ _ _ _ E). cbn iota beta. rewrite bool_decide_eq_false_2 by (destruct Ht as [->|[->| ->]]; done).
    set (s2 := launched _ _ _ _ _).
    destruct (finish_run mp c T_BAR term (DPipe w (npipe s + zlen l - 1)) s2 Hc Hin) as (w' & Hw' & E'); try done.
    { right. split; [done|]. by eexists _, _. }
    { cbn. zl. }
    exists w'. split; [done|]. etransitivity; [exact E'|]. unfold s2. rewrite launched_launched. cbn [npipe npid wpid sigs_ignored launched].
    rewrite pl_procs_cons by done.
    assert (zlen (pl_procs true (bool_decide (term = T_AMP)) (sigs_ignored s1) (npipe s1) (npid s1) l) = zlen l) as Hlen.
    { unfold pl_procs, zlen. by rewrite length_reverse, length_imap. }
    rewrite Hlen, Z.sub_0_r. cbn [npipe npid sigs_ignored set_inp s1 dst_target].
    replace (npipe s + zlen (c :: l) - 1) with (npipe s + zlen l) by zl.
    replace (zlen (c :: l) - if mp then 0 else 1) with (zlen l + if mp then 1 else 0) by (destruct mp; zl). done.
Qed.

End pipelines.
