(* ===== verification/ShProps.v ===== *)
(** * Properties of the shell

    Tokens, pipelines and the end of the program; the ways in which the
    shell goes wrong. *)
From S2P Require Import Prelude CString Posix Sh ShThms ShPipe.

Open Scope prog_scope.

(** ** A round of the main loop *)
Lemma words_tokens ws : (length ws <= length (concat ((fun x => sp (show_word x)) <$> ws)))%nat.
Proof. induction ws as [|x ws IH]; [done|]. rewrite fmap_cons. cbn [concat length]. rewrite length_app. unfold sp at 1. cbn [length]. lia. Qed.

Lemma sc_tokens_text c : (sc_tokens c <= length (sc_text c))%nat.
Proof.
  unfold sc_tokens, sc_text. rewrite !length_app. pose proof (words_tokens (sc_words c)).
  destruct (sc_in c), (sc_out c) as [[[] ?]|]; unfold sp in *; cbn [one length app op_text] in *; lia.
Qed.

Lemma pl_tokens_text cs : (pl_tokens cs <= S (length (pl_text cs)))%nat.
Proof.
  induction cs as [|c cs IH]; [simpl; lia|]. cbn [pl_tokens]. pose proof (sc_tokens_text c). destruct cs as [|c2 cs]; [cbn [pl_tokens pl_text]; lia|].
  change (pl_text (c :: c2 :: cs)) with (sc_text c ++ sp [CH_BAR] ++ pl_text (c2 :: cs)). rewrite !length_app. unfold sp. cbn [length]. lia.
Qed.

Lemma sh_round_run E0 E1 E2 cs term rest s :
  pl_ok false cs -> is_term term -> inp s = pl_text cs ++ sp (op_text term) ++ rest -> sys_ok s = [] -> fds s = std E0 E1 E2 -> 0 < npid s -> (-1 ∉ live s) ->
  exists s', sh_round s = Ok tt s' /\ fds s' = std E0 E1 E2 /\ inp s' = rest /\
    procs s' = procs s ++ pl_procs E0 E1 E2 false (bool_decide (term = T_AMP)) (sigs_ignored s) (npipe s) (npid s) cs /\
    (if bool_decide (term = T_AMP) then live s' = live s ++ (p_pid <$> pl_procs E0 E1 E2 false true (sigs_ignored s) (npipe s) (npid s) cs) else npid s ∉ live s').
Proof.
  intros Hpl Ht Hi Hok Hfd Hpid Hl. unfold sh_round. pstep.
  assert (exists f, S (length (inp s)) = pl_tokens cs + f)%nat as [f ->].
  { exists (S (length (inp s)) - pl_tokens cs)%nat. pose proof (pl_tokens_text cs). rewrite Hi, length_app. lia. }
  destruct (pipeline_run E0 E1 E2 cs false term rest s f Hpl Ht Hi Hok Hfd Hpid) as (w & _ & E). rewrite (pbind_ok _ _ _ _ _ E). cbn iota beta.
  rewrite (bool_decide_eq_false_2 (term = T_ERROR)) by (by destruct Ht as [->|[->| ->]]). pstep. set (s1 := launched _ _ _ _ _).
  assert (Forall (fun p => 0 < p_pid p) (pl_procs E0 E1 E2 false (bool_decide (term = T_AMP)) (sigs_ignored s) (npipe s) (npid s) cs)) as Hpos.
  { unfold pl_procs. apply Forall_reverse, Forall_lookup_2. intros i p Hp. rewrite list_lookup_imap in Hp. apply fmap_Some in Hp as (c & _ & ->). cbn. lia. }
  case_bool_decide as Hterm.
  - pstep. rewrite (fd_check_std E0 E1 E2 s1) by done. exists s1. subst term. done.
  - pstep. cbn [wpid launched s1]. rewrite ltb_true by lia. pstep.
    destruct (wait_run (S (length (live s1))) (npid s) s1) as (r & s2 & E2' & H1 & H2 & H3 & _ & _ & H6 & _); [lia| |].
    { cbn. rewrite not_elem_of_app. split; [done|]. intros Hm. apply list_elem_of_fmap in Hm as (p & Ep & Hp). rewrite Forall_forall in Hpos. specialize (Hpos p Hp). lia. }
    rewrite (pbind_ok _ _ _ _ _ E2'). pstep. rewrite (fd_check_std E0 E1 E2 s2) by (by rewrite H2). exists s2. by rewrite H1, H2, H3.
Qed.

(** ** The properties *)

(** C27: words and operators are read back as they were written: bare words
    and quoted ones, in which quotes and backslashes are escaped, of less
    than 500 characters, and all seven operators. *)
Theorem shell_tokens l :
  Forall tok_ok l -> tokenize (S (length l)) (concat ((fun t => tok_text t ++ [CH_SPACE]) <$> l)) = tok_val <$> l.
Proof. intros H. apply (tokenize_run l H). Qed.

Lemma bare_ok max w : zlen w < max -> bool_decide (nonul w) = true -> match w with [] => false | c :: _ => negb (c =? CH_QUOTE) && forallb (fun c => negb (word_end c)) w end = true -> word_ok max (Bare w).
Proof.
  intros H1 H2 H3. split; [by apply bool_decide_eq_true in H2|]. split; [done|]. destruct w as [|c u]; [done|]. apply andb_true_iff in H3 as [H3 H4]. exists c, u. split; [done|]. split; [by apply negb_true_iff, Z.eqb_neq in H3|].
  apply Forall_forall. intros x Hx. rewrite forallb_forall in H4. apply negb_true_iff, H4. by apply list_elem_of_In.
Qed.

Lemma quoted_ok max w : zlen w < max -> bool_decide (nonul w) = true -> word_ok max (Quoted w).
Proof. intros H1 H2. split; [by apply bool_decide_eq_true in H2|]. done. Qed.

Ltac words_ok := repeat first [by apply bare_ok | by apply quoted_ok | apply Forall_nil_2 | apply Forall_cons_2 | done | split].

Definition ex_toks : list atok := [AWord (Bare (lit "echo")); AWord (Quoted (CH_QUOTE :: lit "a b|" ++ [CH_BSLASH])); AOp T_GTGT; AWord (Bare (lit "f")); AOp T_AMP].

Lemma ex_toks_ok : Forall tok_ok ex_toks.
Proof. unfold ex_toks. words_ok. Qed.

Lemma shell_tokens_witness : Forall tok_ok ex_toks /\ tokenize 6 (concat ((fun t => tok_text t ++ [CH_SPACE]) <$> ex_toks)) = tok_val <$> ex_toks.
Proof. split; [apply ex_toks_ok|apply (shell_tokens ex_toks ex_toks_ok)]. Defined.

(** C26: the text of a pipeline of external commands, whose first one may
    have its input and whose last one its output redirected, makes the shell
    start exactly the processes of the pipeline.  Process [i] of [n] reads
    from the pipe that process [i - 1] writes to; no process has another end
    of a pipe; in the background the input is /dev/null and the signals stay
    ignored.  The shell has closed all descriptors but the standard ones, and
    has waited for the last command, unless it is in the background. *)
Theorem shell_pipeline E0 E1 E2 cs term rest s :
  pl_ok false cs -> is_term term -> inp s = pl_text cs ++ sp (op_text term) ++ rest ->
  sys_ok s = [] -> fds s = std E0 E1 E2 -> 0 < npid s -> (-1 ∉ live s) ->
  let bg := bool_decide (term = T_AMP) in
  exists s', sh_round s = Ok tt s' /\ fds s' = std E0 E1 E2 /\ inp s' = rest /\
    procs s' = procs s ++ reverse (imap (pl_proc E0 E1 E2 (length cs) false bg (sigs_ignored s) (npipe s) (npid s)) cs) /\
    (if bg then forall p, p ∈ pl_procs E0 E1 E2 false bg (sigs_ignored s) (npipe s) (npid s) cs -> p_pid p ∈ live s' else npid s ∉ live s').
Proof.
  intros Hpl Ht Hi Hok Hfd Hpid Hl bg. destruct (sh_round_run E0 E1 E2 cs term rest s Hpl Ht Hi Hok Hfd Hpid Hl) as (s' & H1 & H2 & H3 & H4 & H5).
  exists s'. split_and!; try done. unfold bg in *. case_bool_decide; [|done]. intros p Hp. rewrite H5. apply elem_of_app. right. by apply list_elem_of_fmap_2.
Qed.

Definition sh0 (input : bytes) : shell :=
  mkSh input false (std (Inherited 0) (Inherited 1) (Inherited 2)) 0 100 [] [] None [] (lit "/") [] true [] [].

Definition ex_pl : list scmd :=
  [mkScmd [Bare (lit "sort"); Bare (lit "-u")] (Some (Bare (lit "in"))) None; mkScmd [Bare (lit "/bin/wc")] None None; mkScmd [Bare (lit "tee")] None (Some (true, Quoted (lit "a b")))].

Lemma ex_pl_ok : pl_ok false ex_pl.
Proof.
  assert (forall c, Forall (word_ok MAXWORD) (sc_words c) -> bool_decide (1 <= zlen (sc_words c) <= MAXARG - 1) = true ->
    match sc_words c with [] => false | a :: _ => external (w_val a) end = true -> opt_ok fname_ok (sc_in c) -> opt_ok (fun ax => fname_ok ax.2) (sc_out c) -> sc_ok c) as Hsc.
  { intros c H1 H2 H3 H4 H5. split; [done|]. split; [by apply bool_decide_eq_true in H2|]. split; [|done]. destruct (sc_words c) as [|a l]; [done|]. by exists a. }
  unfold ex_pl. cbn [pl_ok]. split_and!; try done; apply Hsc; try done; cbn [sc_words sc_in sc_out opt_ok snd]; words_ok.
Qed.

Lemma shell_pipeline_witness :
  pl_ok false ex_pl /\ exists s', sh_round (sh0 (pl_text ex_pl ++ sp [CH_NEWLINE])) = Ok tt s' /\ fds s' = std (Inherited 0) (Inherited 1) (Inherited 2) /\
    procs s' = [mkProc 100 (Execvp (lit "tee") [lit "tee"] (std (PipeR 0) (Opened (lit "a b") 1089) (Inherited 2)) false);
                mkProc 101 (Execvp (lit "/bin/wc") [lit "bin/wc"] (std (PipeR 1) (PipeW 0) (Inherited 2)) false);
                mkProc 102 (Execvp (lit "sort") [lit "sort"; lit "-u"] (std (Opened (lit "in") 0) (PipeW 1) (Inherited 2)) false)].
Proof.
  split; [apply ex_pl_ok|].
  destruct (shell_pipeline (Inherited 0) (Inherited 1) (Inherited 2) ex_pl T_NL [] (sh0 (pl_text ex_pl ++ sp [CH_NEWLINE])) ex_pl_ok ltac:(by right; right) ltac:(done) ltac:(done) ltac:(done) ltac:(done) ltac:(apply not_elem_of_nil))
    as (s' & H1 & H2 & _ & H4 & _).
  exists s'. split; [exact H1|]. split; [exact H2|]. rewrite H4. vm_compute. reflexivity.
Defined.

(** The shell comes to an end on every input that can be read, whatever
    system calls fail and in whatever order the children end; every round
    takes something off the input. *)
Theorem shell_terminates s :
  ferr s = false -> exists why s', sh_main (S (length (inp s))) s = Abort why s' /\ why <> "fuel"%string.
Proof. intros H. unfold sh_main, ignore_sig. pstep. apply rounds_end; [done|cbn; lia]. Qed.

Lemma shell_terminates_witness : exists why s', sh_main 13 (sh0 (lit "a|b>f&c;d|" ++ [34; 10])) = Abort why s' /\ why <> "fuel"%string.
Proof. apply (shell_terminates (sh0 (lit "a|b>f&c;d|" ++ [34; 10]))). reflexivity. Defined.

(** ** What goes wrong *)

(** When reading fails, the shell reports bad commands and never ends. *)
Theorem shell_read_error_spins fuel s :
  ferr s = true -> inp s = [] -> live s = [] -> is_Some (wpid s) -> fd_check s = Ok tt s -> exists s', sh_rounds fuel s = Abort "fuel" s'.
Proof. apply rounds_spin. Qed.

(** A command of the shell itself at the end of a pipeline leaves both ends
    of its pipe open, so the check after the round ends the shell. *)
Theorem shell_builtin_in_pipe : out_val (sh_round (sh0 (lit "a|cd" ++ [CH_NEWLINE]))) = inr "fd is open"%string.
Proof. vm_compute. reflexivity. Qed.

(** So does a missing command. *)
Theorem shell_missing_in_pipe : out_val (sh_round (sh0 (lit "a|" ++ [CH_NEWLINE]))) = inr "fd is open"%string.
Proof. vm_compute. reflexivity. Qed.

(** A line without a newline at the end of the input is not run. *)
Theorem shell_last_line_dropped : exists s', sh_round (sh0 (lit "a b")) = Abort "exit" s' /\ procs s' = [].
Proof. eexists. split; [vm_compute; reflexivity|done]. Qed.
