(* ===== verification/Bufio.v ===== *)
(** * Buffered input and output (Advanced_Unix_Programming/c2/bufio.c, bufio.h)

    The functions on [BUFIO] objects, and two programs of c2/x2.c that copy a
    file: [copy2] with [read] and [write], [copy3] with the buffers. *)
From S2P Require Import Prelude CString Posix IoFd.

Open Scope prog_scope.

Record BUFIO := mkBUFIO {
  b_fd : Z; b_dir : Z; b_total : Z; b_next : Z; b_buf : bytes; b_fdopen : bool; b_timeout : Z * Z
}.

Definition set_total (t : Z) (b : BUFIO) : BUFIO := mkBUFIO (b_fd b) (b_dir b) t (b_next b) (b_buf b) (b_fdopen b) (b_timeout b).
Definition set_next (n : Z) (b : BUFIO) : BUFIO := mkBUFIO (b_fd b) (b_dir b) (b_total b) n (b_buf b) (b_fdopen b) (b_timeout b).
Definition set_buf (x : bytes) (b : BUFIO) : BUFIO := mkBUFIO (b_fd b) (b_dir b) (b_total b) (b_next b) x (b_fdopen b) (b_timeout b).
Definition set_timeout (t : Z * Z) (b : BUFIO) : BUFIO := mkBUFIO (b_fd b) (b_dir b) (b_total b) (b_next b) (b_buf b) (b_fdopen b) t.

(** What [select] does with one descriptor; it can change the time that is
    left. *)
Inductive selres := SReady (left : Z * Z) | STimeout (left : Z * Z) | SErr (e : Z).

(** The objects by their addresses; [oks] says which calls of [calloc] and
    [close] succeed (when it is used up, they all do), [sels] what [select]
    does (when it is used up, it reports the descriptor), [closed] has the
    descriptors that have been closed. *)
Record bio := mkBio { bheap : gmap Z BUFIO; bworld : world; oks : list bool; sels : list selres; closed : list Z }.

Definition set_heap (h : gmap Z BUFIO) (s : bio) : bio := mkBio h (bworld s) (oks s) (sels s) (closed s).
Definition set_world (w : world) (s : bio) : bio := mkBio (bheap s) w (oks s) (sels s) (closed s).
Definition set_oks (l : list bool) (s : bio) : bio := mkBio (bheap s) (bworld s) l (sels s) (closed s).
Definition set_sels (l : list selres) (s : bio) : bio := mkBio (bheap s) (bworld s) (oks s) l (closed s).
Definition add_closed (fd : Z) (s : bio) : bio := mkBio (bheap s) (bworld s) (oks s) (sels s) (closed s ++ [fd]).

Abbreviation bp := (Prog bio).

(** A program on descriptors. *)
Definition lift {A} (m : io A) : bp A :=
  fun s => match m (bworld s) with Ok a w => Ok a (set_world w s) | Abort why w => Abort why (set_world w s) end.

Definition errno : bp Z := get (fun s => w_errno (bworld s)).
Definition set_err (e : Z) : bp unit := lift (put (IoFd.set_errno e)).

(** The object at an address. *)
Definition obj (p : Z) : bp BUFIO :=
  do h <- get bheap;
  match h !! p with Some b => pret b | None => die "bad pointer" end.

Definition upd (p : Z) (f : BUFIO -> BUFIO) : bp unit := put (fun s => set_heap (alter f p (bheap s)) s).

Definition next_ok : bp bool :=
  do l <- get oks;
  match l with [] => pret true | x :: l => run put (set_oks l); pret x end.

Definition NULL : Z := 0.
Definition O_RDONLY : Z := 0.
Definition CH_r : Z := 114.
Definition CH_w : Z := 119.

Section bufio.

(** The size of the buffer, and the descriptors that [open] returns. *)
Context (BUFSIZ : Z) (open : bytes -> Z -> Z).

(** A new address. *)
Definition new_addr (h : gmap Z BUFIO) : Z := 1 + set_fold Z.max 0 (dom h).

Definition Bopen_internal (fd : Z) (path : option bytes) (dir : bytes) : bp Z :=
  let flags := if hd NUL dir =? CH_r then Some O_RDONLY
               else if hd NUL dir =? CH_w then Some (Z.lor (Z.lor O_WRONLY O_CREAT) O_TRUNC)
               else None in
  match flags with
  | None => run set_err EINVAL; pret NULL
  | Some flags =>
      do ok <- next_ok;
      if negb ok then pret NULL
      else
        let bfd := match path with None => fd | Some path => open path flags end in
        if bfd =? -1 then pret NULL
        else
          do h <- get bheap;
          let p := new_addr h in
          run put (set_heap (<[p := mkBUFIO bfd (hd NUL dir) 0 0 (replicate (Z.to_nat BUFSIZ) NUL) (bool_decide (path = None)) (0, 0)]> h));
          pret p
  end.

Definition Bfdopen (fd : Z) (dir : bytes) : bp Z := Bopen_internal fd None dir.

Definition Bopen (path : bytes) (dir : bytes) : bp Z := Bopen_internal (-1) (Some path) dir.

(** [select] on the descriptor of the object: -1, or was it ready? *)
Definition do_select (p : Z) : bp (option bool) :=
  do l <- get sels;
  match l with
  | [] => pret (Some true)
  | SReady t :: l => run put (set_sels l); run upd p (set_timeout t); pret (Some true)
  | STimeout t :: l => run put (set_sels l); run upd p (set_timeout t); pret (Some false)
  | SErr e :: l => run put (set_sels l); run set_err e; pret None
  end.

Definition readbuf (p : Z) : bp bool :=
  do b <- obj p;
  do r <- (if negb ((b_timeout b).1 =? 0) || negb ((b_timeout b).2 =? 0) then do_select p else pret (Some true));
  match r with
  | None => pret false
  | Some false => run set_err ETIMEDOUT; pret false
  | Some true =>
      do got <- lift (sys_read (b_fd b) BUFSIZ);
      match got with
      | None => run upd p (set_total (-1)); pret false
      | Some bs =>
          run upd p (fun b => set_total (zlen bs) (set_buf (bs ++ drop (length bs) (b_buf b)) b));
          if zlen bs =? 0 then run set_err 0; pret false
          else run upd p (set_next 0); pret true
      end
  end.

Fixpoint writebuf_loop (fuel : nat) (p total : Z) : bp bool :=
  match fuel with
  | O => die "fuel"
  | S fuel =>
      do b <- obj p;
      if total <? b_next b then
        do n <- lift (sys_write (b_fd b) (slice (b_buf b) total (b_next b - total)));
        if n =? -1 then pret false else writebuf_loop fuel p (total + n)
      else run upd p (set_next 0); pret true
  end.

Definition writebuf (p : Z) : bp bool :=
  do b <- obj p;
  do f <- get (fun s => wfuel (b_fd b) (bworld s));
  writebuf_loop f p 0.

Definition Bgetc (p : Z) : bp Z :=
  do b <- obj p;
  do ok <- (if b_total b <=? b_next b then readbuf p else pret true);
  if negb ok then pret (-1)
  else
    do b <- obj p;
    match (if 0 <=? b_next b then b_buf b !! Z.to_nat (b_next b) else None) with
    | None => die "read behind buf"
    | Some c => run upd p (set_next (b_next b + 1)); pret c
    end.

Definition Bputc (p c : Z) : bp bool :=
  do b <- obj p;
  run guard_die (negb ((0 <=? b_next b) && (b_next b <? zlen (b_buf b)))) "write behind buf";
  run upd p (fun b => set_next (b_next b + 1) (set_buf (<[Z.to_nat (b_next b) := wrapu 8 c]> (b_buf b)) b));
  if BUFSIZ <=? b_next b + 1 then writebuf p else pret true.

Definition sys_close (fd : Z) : bp Z := do ok <- next_ok; run put (add_closed fd); pret (if ok then 0 else -1).

Definition Bclose (p : Z) : bp bool :=
  if p =? NULL then pret true
  else
    do b <- obj p;
    do ok <- (if b_dir b =? CH_w then writebuf p else pret true);
    if negb ok then pret false
    else
      do r <- (if b_fdopen b then pret 0 else sys_close (b_fd b));
      if r =? -1 then pret false
      else run put (fun s => set_heap (delete p (bheap s)) s); pret true.

(** [i] stays below the length of the array [s]. *)
Fixpoint Bgets_loop (fuel : nat) (p : Z) (s : bytes) (smax i : Z) : bp (bool * bytes) :=
  match fuel with
  | O => die "fuel"
  | S fuel =>
      let finish ok := run guard_die (negb (i <? zlen s)) "write behind s"; pret (ok, <[Z.to_nat i := NUL]> s) in
      if i <? wrapu 64 (smax - 1) then
        do c <- Bgetc p;
        if c =? CH_NEWLINE then finish true
        else if c =? -1 then finish (0 <? i)
        else
          run guard_die (negb (i <? zlen s)) "write behind s";
          Bgets_loop fuel p (<[Z.to_nat i := wrapu 8 c]> s) smax (i + 1)
      else finish true
  end.

Definition Bgets (p : Z) (s : bytes) (smax : Z) : bp (bool * bytes) := Bgets_loop (S (length s)) p s smax 0.

Definition Bsettimeout (p : Z) (t : Z * Z) : bp unit := run obj p; upd p (set_timeout t).

(** ** Copying a file *)

(** The end of [copy3] after an error; the addresses are [None] where the
    variable has no value. *)
Definition copy3_cleanup (stfrom stto : option Z) : bp bool :=
  match stfrom, stto with
  | Some p, Some q => run Bclose p; run Bclose q; pret false
  | Some p, None => run Bclose p; die "stto has no value"
  | None, _ => die "stfrom has no value"
  end.

(** Did the loop end with the end of the input or an error? *)
Fixpoint copy3_loop (fuel : nat) (p q : Z) : bp bool :=
  match fuel with
  | O => die "fuel"
  | S fuel =>
      do c <- Bgetc p;
      if c =? -1 then (do e <- errno; pret (e =? 0))
      else
        do ok <- Bputc q c;
        if ok : bool then copy3_loop fuel p q else pret false
  end.

Definition copy3 (from to : bytes) : bp bool :=
  do p <- Bopen from [CH_r];
  if p =? NULL then copy3_cleanup (Some p) None
  else
    do q <- Bopen to [CH_w];
    if q =? NULL then copy3_cleanup (Some p) (Some q)
    else
      do f <- (do b <- obj p; get (fun s => rfuel (b_fd b) (bworld s)));
      do ok <- copy3_loop f p q;
      if negb ok then copy3_cleanup (Some p) (Some q)
      else
        do ok <- Bclose p;
        if negb ok then copy3_cleanup (Some p) (Some q)
        else
          do ok <- Bclose q;
          if negb ok then copy3_cleanup (Some p) (Some q) else pret true.

Definition BUFSIZE : Z := 1024.

(** The loop that writes what has been read; -1 is an error. *)
Fixpoint copy2_write (fuel : nat) (tofd : Z) (buf : bytes) (nwrite : Z) : bp Z :=
  match fuel with
  | O => die "fuel"
  | S fuel =>
      do n <- lift (sys_write tofd (drop (Z.to_nat nwrite) buf));
      if n =? -1 then pret (-1)
      else if nwrite + n <? zlen buf then copy2_write fuel tofd buf (nwrite + n) else pret 0
  end.

Fixpoint copy2_loop (fuel : nat) (fromfd tofd : Z) : bp bool :=
  match fuel with
  | O => die "fuel"
  | S fuel =>
      do got <- lift (sys_read fromfd BUFSIZE);
      match got with
      | None => pret false
      | Some [] => pret true
      | Some buf =>
          do f <- get (fun s => wfuel tofd (bworld s));
          do r <- copy2_write f tofd buf 0;
          if r =? -1 then pret false else copy2_loop fuel fromfd tofd
      end
  end.

(** [-1] is not open, and closing it does nothing. *)
Definition close_quietly (fd : Z) : bp unit := if fd =? -1 then pret tt else (do r <- sys_close fd; pret tt).

Definition copy2_cleanup (fromfd tofd : Z) : bp bool := run close_quietly fromfd; run close_quietly tofd; pret false.

Definition copy2 (from to : bytes) : bp bool :=
  let fromfd := open from O_RDONLY in
  if fromfd =? -1 then copy2_cleanup (-1) (-1)
  else
    let tofd := open to (Z.lor (Z.lor O_WRONLY O_CREAT) O_TRUNC) in
    if tofd =? -1 then copy2_cleanup fromfd (-1)
    else
      do f <- get (fun s => rfuel fromfd (bworld s));
      do ok <- copy2_loop f fromfd tofd;
      if negb ok then copy2_cleanup fromfd tofd
      else
        do r <- sys_close fromfd;
        if r =? -1 then copy2_cleanup fromfd tofd
        else
          do r <- sys_close tofd;
          if r =? -1 then copy2_cleanup fromfd tofd else pret true.

End bufio.
