(* ===== verification/BufioThms.v ===== *)
(** * The buffers and the streams behind them

    Reading through a buffer is reading the stream of the descriptor;
    writing through a buffer delays what is written. *)
From S2P Require Import Prelude CString Posix IoFd IoReadn IoGather Bufio.

Open Scope prog_scope.

(** ** Steps *)
Lemma lift_run {A} (m : io A) s a w : m (bworld s) = Ok a w -> lift m s = Ok a (set_world w s).
Proof. intros H. unfold lift. by rewrite H. Qed.

Lemma obj_run p b s : bheap s !! p = Some b -> obj p s = Ok b s.
Proof. intros H. unfold obj. pstep. by rewrite H. Qed.

Lemma upd_run p f b s : bheap s !! p = Some b -> upd p f s = Ok tt (set_heap (<[p := f b]> (bheap s)) s).
Proof. intros H. unfold upd, put. do 2 f_equal. apply map_eq. intros k. destruct (decide (k = p)) as [->|]; [by rewrite lookup_alter_eq, lookup_insert_eq, H|by rewrite lookup_alter_ne, lookup_insert_ne by done]. Qed.

(** A state with another object at [p] and another world. *)
Definition bset (p : Z) (b : BUFIO) (w : world) (s : bio) : bio := mkBio (<[p := b]> (bheap s)) w (oks s) (sels s) (closed s).

Lemma bset_bset p b b' w w' s : bset p b' w' (bset p b w s) = bset p b' w' s.
Proof. unfold bset. cbn. by rewrite insert_insert_eq. Qed.

Lemma bset_id p b s : bheap s !! p = Some b -> bset p b (bworld s) s = s.
Proof. intros H. unfold bset. rewrite insert_id by done. by destruct s. Qed.

Lemma upd_bset p f b w s : upd p f (bset p b w s) = Ok tt (bset p (f b) w s).
Proof. rewrite (upd_run p f b) by apply lookup_insert_eq. unfold bset, set_heap. cbn. by rewrite insert_insert_eq. Qed.

Lemma obj_bset p b w s : obj p (bset p b w s) = Ok b (bset p b w s).
Proof. apply obj_run, lookup_insert_eq. Qed.

(** ** Reading *)

(** One character of a stream, and the error number after it. *)
Definition ref_getc (l : list item) : Z * list item :=
  match l with Byte c :: l => (c, l) | [] => (-1, []) | _ :: l => (-1, l) end.

Definition ref_errno (l : list item) (e : Z) : Z := match l with Byte _ :: _ => e | Err e :: _ => e | _ => 0 end.

Definition same_file (b b' : BUFIO) : Prop := b_fd b' = b_fd b /\ b_dir b' = b_dir b /\ b_fdopen b' = b_fdopen b.

Section reading.
Context (BUFSIZ : Z) (HB : 0 < BUFSIZ).

Definition rd_ok (b : BUFIO) : Prop := zlen (b_buf b) = BUFSIZ /\ 0 <= b_next b /\ b_total b <= BUFSIZ /\ b_timeout b = (0, 0).

(** What has been read but not handed out, and what is still to come. *)
Definition pend (b : BUFIO) : bytes := slice (b_buf b) (b_next b) (b_total b - b_next b).
Definition stream (b : BUFIO) (s : list revent) : list item := (Byte <$> pend b) ++ items false s.

Lemma pend_nil b : b_total b <= b_next b -> pend b = [].
Proof. intros H. unfold pend, slice. by replace (Z.to_nat (b_total b - b_next b)) with 0%nat by lia. Qed.

Lemma pend_cons b : rd_ok b -> b_next b < b_total b ->
  exists c, b_buf b !! Z.to_nat (b_next b) = Some c /\ pend b = c :: pend (set_next (b_next b + 1) b).
Proof.
  intros (H1 & H2 & H3 & _) Hlt. unfold zlen in H1. destruct (lookup_lt_is_Some_2 (b_buf b) (Z.to_nat (b_next b))) as [c Hc]; [lia|].
  exists c. split; [done|]. unfold pend, slice. cbn [b_next b_total b_buf set_next].
  replace (Z.to_nat (b_total b - b_next b)) with (S (Z.to_nat (b_total b - (b_next b + 1)))) by lia.
  rewrite (drop_S _ _ _ Hc). cbn [take]. do 3 f_equal. lia.
Qed.

(** [readbuf] when the buffer is used up. *)
Lemma readbuf_run p b s st :
  bheap st !! p = Some b -> rd_ok b -> b_total b <= b_next b -> w_in (bworld st) !! b_fd b = Some s ->
  exists ok b' s' w', readbuf BUFSIZ p st = Ok ok (bset p b' w' st) /\ same_file b b' /\ rd_ok b' /\
    w_in w' = <[b_fd b := s']> (w_in (bworld st)) /\ w_to w' = w_to (bworld st) /\
    if ok : bool then stream b' s' = items false s /\ b_next b' < b_total b' /\ w_errno w' = w_errno (bworld st)
    else stream b' s' = (ref_getc (items false s)).2 /\ (ref_getc (items false s)).1 = -1 /\ w_errno w' = ref_errno (items false s) (w_errno (bworld st)).
Proof.
  intros Hp (H1 & H2 & H3 & H4) Hu Hs. unfold readbuf. rewrite (pbind_ok _ _ _ _ _ (obj_run _ _ _ Hp)), H4.
  change (negb ((0, 0).1 =? 0) || negb ((0, 0).2 =? 0)) with false. cbn iota. pstep.
  destruct (sys_read_does false (b_fd b) BUFSIZ (bworld st) s Hs HB) as (r & w1 & s1 & E & Hi & Ht & Herr & Hd & _).
  rewrite (pbind_ok _ _ _ _ _ (lift_run _ _ _ _ E)).
  assert (forall f, upd p f (set_world w1 st) = Ok tt (bset p (f b) w1 st)) as Hupd by (intros f; by rewrite (upd_run p f b)).
  remember (w_errno w1) as e1 eqn:He1. remember (items false s1) as l1 eqn:Hl1.
  destruct Hd as [?|e l' Hl _|l' Hl e|bs l' e Hne Hlen Hl]; [done|..].
  - rewrite (pbind_ok _ _ _ _ _ (Hupd _)). exists false, (set_total (-1) b), s1, w1. split; [done|]. split; [done|]. split; [unfold rd_ok; split_and!; done || (cbn; lia)|].
    split; [done|]. split; [done|]. unfold stream. rewrite pend_nil by (cbn; lia). by rewrite Hl, <- Hl1, He1.
  - rewrite (pbind_ok _ _ _ _ _ (Hupd _)). cbn [zlen length]. change (Z.of_nat 0 =? 0) with true. cbn iota. unfold set_err, lift. cbn.
    eexists false, _, s1, (IoFd.set_errno 0 w1). split; [done|]. split; [done|]. split; [unfold rd_ok; split_and!; first [exact H1 | exact H4 | exact H2 | cbn; unfold zlen; cbn; lia]|]. split; [done|]. split; [done|].
    unfold stream. rewrite pend_nil by (cbn; rewrite ?zlen_nil; lia). rewrite <- Hl1. by destruct Hl as [[-> ->]| ->].
  - rewrite (pbind_ok _ _ _ _ _ (Hupd _)). assert (0 < zlen bs <= BUFSIZ) as Hb by (unfold zlen; destruct bs; [done|]; cbn [length] in *; lia).
    rewrite eqb_false by lia. rewrite (pbind_ok _ _ _ _ _ (upd_bset _ _ _ _ _)). eexists true, _, s1, w1. split; [done|]. split; [done|].
    assert (zlen (bs ++ drop (length bs) (b_buf b)) = BUFSIZ) as Hlb by (unfold zlen in *; rewrite length_app, length_drop; lia).
    split; [unfold rd_ok; split_and!; done || (cbn; lia)|]. split; [done|]. split; [done|]. split; [|split; [cbn; lia|rewrite <- He1; by apply Herr]].
    unfold stream, pend, slice. cbn [b_total b_next b_buf set_next set_total set_buf]. rewrite Z.sub_0_r. unfold zlen. rewrite Nat2Z.id. change (Z.to_nat 0) with 0%nat. rewrite drop_0, take_app_length. by rewrite Hl, <- Hl1.
Qed.

(** [Bgetc] takes a character off the stream. *)
Lemma Bgetc_run p b s st :
  bheap st !! p = Some b -> rd_ok b -> w_in (bworld st) !! b_fd b = Some s ->
  exists b' s' w', Bgetc BUFSIZ p st = Ok (ref_getc (stream b s)).1 (bset p b' w' st) /\ same_file b b' /\ rd_ok b' /\
    w_in w' = <[b_fd b := s']> (w_in (bworld st)) /\ w_to w' = w_to (bworld st) /\
    stream b' s' = (ref_getc (stream b s)).2 /\ w_errno w' = ref_errno (stream b s) (w_errno (bworld st)).
Proof.
  intros Hp Hok Hs. unfold Bgetc. rewrite (pbind_ok _ _ _ _ _ (obj_run _ _ _ Hp)).
  assert (forall (b1 : BUFIO) (s1 : list revent) w1, rd_ok b1 -> same_file b b1 -> b_next b1 < b_total b1 -> w_in w1 = <[b_fd b := s1]> (w_in (bworld st)) -> w_to w1 = w_to (bworld st) -> w_errno w1 = w_errno (bworld st) -> stream b1 s1 = stream b s ->
    exists b' s' w', (do b <- obj p; match (if 0 <=? b_next b then b_buf b !! Z.to_nat (b_next b) else None) with
        | None => die "read behind buf" | Some c => run upd p (set_next (b_next b + 1)); pret c end) (bset p b1 w1 st) =
      Ok (ref_getc (stream b s)).1 (bset p b' w' st) /\ same_file b b' /\ rd_ok b' /\
    w_in w' = <[b_fd b := s']> (w_in (bworld st)) /\ w_to w' = w_to (bworld st) /\
    stream b' s' = (ref_getc (stream b s)).2 /\ w_errno w' = ref_errno (stream b s) (w_errno (bworld st))) as Hget.
  { intros b1 s1 w1 Hok1 Hsame Hlt Hi Ht He Hst. rewrite (pbind_ok _ _ _ _ _ (obj_bset _ _ _ _)). destruct (pend_cons b1 Hok1 Hlt) as (c & Hc & Hpe).
    destruct Hok1 as (H1 & H2 & H3 & H4). rewrite leb_true by lia. rewrite Hc, (pbind_ok _ _ _ _ _ (upd_bset _ _ _ _ _)). rewrite <- Hst. unfold stream at 1 3 4. rewrite Hpe.
    eexists _, s1, w1. split; [done|]. split; [done|]. split; [unfold rd_ok; split_and!; done || (cbn; lia)|]. done. }
  destruct (Z.leb_spec (b_total b) (b_next b)) as [Hle|Hlt].
  - destruct (readbuf_run p b s st Hp Hok Hle Hs) as (ok & b1 & s1 & w1 & E & Hsame & Hok1 & Hi & Ht & H). rewrite (pbind_ok _ _ _ _ _ E).
    assert (stream b s = items false s) as Hst by (unfold stream; by rewrite pend_nil). destruct ok; cbn [negb].
    + destruct H as (H1 & H2 & H3). apply (Hget b1 s1 w1); congruence || done.
    + destruct H as (H1 & H2 & H3). rewrite Hst. exists b1, s1, w1. rewrite H2. by split_and!.
  - pstep. cbn [negb]. specialize (Hget b s (bworld st) Hok ltac:(done) Hlt ltac:(by rewrite insert_id) eq_refl eq_refl eq_refl). rewrite (bset_id p b st Hp) in Hget. exact Hget.
Qed.

(** ** Lines *)

(** At most [n] characters of a line; did the stream end or fail there? *)
Fixpoint ref_gets (n : nat) (l : list item) : bytes * bool * list item :=
  match n with
  | O => ([], false, l)
  | S n =>
      match l with
      | Byte c :: l => if c =? CH_NEWLINE then ([], false, l) else let '(bs, e, l') := ref_gets n l in (c :: bs, e, l')
      | [] => ([], true, [])
      | _ :: l => ([], true, l)
      end
  end.

(** The items that descriptors have: bytes, and errors with a number. *)
Definition item_ok (x : item) : Prop := match x with Byte c => 0 <= c < 256 | Err e => e <> 0 | End => True end.

Lemma ref_getc_cases l : Forall item_ok l ->
  match l with Byte c :: l' => ref_getc l = (c, l') /\ 0 <= c < 256 /\ Forall item_ok l' | [] => ref_getc l = (-1, []) | _ :: l' => ref_getc l = (-1, l') end.
Proof. destruct 1 as [|[c|e|] l Hx Hl]; done. Qed.

Lemma insert_inside {A} (l : list A) i x y r : (i < length l)%nat ->
  take (S i) (<[i := x]> l) ++ y ++ drop (S i + r) (<[i := x]> l) = take i l ++ (x :: y) ++ drop (S i + r) l.
Proof.
  intros Hi. rewrite drop_insert_lt by lia. rewrite (take_S_r _ _ x) by (by apply list_lookup_insert_eq). rewrite take_insert_ge by lia. by rewrite <- app_assoc.
Qed.

Lemma Bgets_loop_run p smax n : forall fuel i arr b s st bs e l',
  bheap st !! p = Some b -> rd_ok b -> w_in (bworld st) !! b_fd b = Some s -> Forall item_ok (stream b s) ->
  0 <= i -> i + Z.of_nat n = smax - 1 -> smax <= zlen arr -> smax < 2 ^ 63 -> (n < fuel)%nat -> ref_gets n (stream b s) = (bs, e, l') ->
  exists b' s' w', Bgets_loop BUFSIZ fuel p arr smax i st =
      Ok (negb e || (0 <? i + zlen bs), take (Z.to_nat i) arr ++ (bs ++ [NUL]) ++ drop (S (Z.to_nat i) + length bs) arr) (bset p b' w' st) /\
    same_file b b' /\ rd_ok b' /\ w_in w' = <[b_fd b := s']> (w_in (bworld st)) /\ w_to w' = w_to (bworld st) /\ stream b' s' = l'.
Proof.
  assert (forall i (arr : bytes), 0 <= i < zlen arr -> <[Z.to_nat i := NUL]> arr = take (Z.to_nat i) arr ++ ([] ++ [NUL]) ++ drop (S (Z.to_nat i) + 0) arr) as Hnul.
  { intros i arr Hi. unfold zlen in Hi. rewrite Nat.add_0_r. apply insert_take_drop. lia. }
  assert (wrapu 64 (smax - 1) = smax - 1 \/ smax < 1 \/ 2 ^ 63 <= smax) as Hw.
  { destruct (decide (1 <= smax < 2 ^ 63)); [left; apply Z.mod_small; lia|lia]. }
  induction n as [|n IH]; intros fuel i arr b s st bs e l' Hp Hok Hs Hit Hi Hn Hsm Hmax Hf Hr; (destruct fuel as [|fuel]; [lia|]); cbn [Bgets_loop];
    destruct Hw as [Hw|Hw]; try lia; rewrite Hw.
  - injection Hr as <- <- <-. rewrite ltb_false by lia. rewrite pbind_guard by (rewrite ltb_true by lia; done). rewrite Hnul by lia.
    exists b, s, (bworld st). rewrite bset_id by done. split; [done|]. split; [done|]. split; [done|]. split; [by rewrite insert_id|done].
  - rewrite ltb_true by lia. destruct (Bgetc_run p b s st Hp Hok Hs) as (b1 & s1 & w1 & E & Hsame & Hok1 & Hi1 & Ht1 & Hst1 & _). rewrite (pbind_ok _ _ _ _ _ E).
    pose proof (ref_getc_cases _ Hit) as Hc. cbn [ref_gets] in Hr.
    assert ((i <? zlen arr) = true) as Hlt by (apply Z.ltb_lt; lia).
    assert (forall ok : bool, (ref_getc (stream b s)).2 = l' -> bs = [] -> ok = negb e || (0 <? i + zlen bs) -> exists b' s' w',
      (run guard_die (negb (i <? zlen arr)) "write behind s"; pret (ok, <[Z.to_nat i := NUL]> arr)) (bset p b1 w1 st) =
        Ok (negb e || (0 <? i + zlen bs), take (Z.to_nat i) arr ++ (bs ++ [NUL]) ++ drop (S (Z.to_nat i) + length bs) arr) (bset p b' w' st) /\
      same_file b b' /\ rd_ok b' /\ w_in w' = <[b_fd b := s']> (w_in (bworld st)) /\ w_to w' = w_to (bworld st) /\ stream b' s' = l') as Hfin.
    { intros ok Hl Hbs ->. rewrite Hlt. pstep. exists b1, s1, w1. rewrite pbind_guard by done. subst bs. rewrite Hnul by lia. split; [done|]. split_and!; try done. congruence. }
    destruct (stream b s) as [|[c|er|] l] eqn:Est; cycle 1.
    + destruct Hc as (Hc & Hrange & Hitl). rewrite Hc in *. cbn [fst snd] in *. destruct (c =? CH_NEWLINE); [injection Hr as <- <- <-; by apply Hfin|].
      rewrite eqb_false by lia. rewrite pbind_guard by (by rewrite Hlt). destruct (ref_gets n l) as [[bs1 e1] l1] eqn:Er. injection Hr as <- <- <-.
      replace (wrapu 8 c) with c by (unfold wrapu; change (2 ^ 8) with 256; by rewrite Z.mod_small).
      destruct Hsame as (Hf1 & Hf2 & Hf3).
      destruct (IH fuel (i + 1) (<[Z.to_nat i := c]> arr) b1 s1 (bset p b1 w1 st) bs1 e1 l1) as (b' & s' & w' & E' & Hsame' & Hok' & Hi' & Ht' & Hst'); try done; try lia.
      * cbn. by rewrite lookup_insert_eq.
      * cbn. by rewrite Hf1, Hi1, lookup_insert_eq.
      * by rewrite Hst1.
      * unfold zlen in *. rewrite length_insert. lia.
      * by rewrite Hst1.
      * exists b', s', w'. rewrite E', bset_bset. split.
        { f_equal. f_equal; [by replace (i + 1 + zlen bs1) with (i + zlen (c :: bs1)) by zl|]. replace (Z.to_nat (i + 1)) with (S (Z.to_nat i)) by lia.
          replace (S (S (Z.to_nat i)) + length bs1)%nat with (S (Z.to_nat i) + S (length bs1))%nat by lia. apply insert_inside. unfold zlen in Hsm. lia. }
        destruct Hsame' as (? & ? & ?). split; [split_and!; congruence|]. split; [done|]. cbn in Hi', Ht'. split; [by rewrite Hi', Hf1, Hi1, insert_insert_eq|]. by rewrite Ht', Ht1.
    + rewrite Hc in *. cbn [fst snd] in *. injection Hr as <- <- <-. change (-1 =? CH_NEWLINE) with false. change (-1 =? -1) with true. cbn iota. apply Hfin; try done. cbn [negb orb]. f_equal. unfold zlen. cbn [length]. lia.
    + rewrite Hc in *. cbn [fst snd] in *. injection Hr as <- <- <-. change (-1 =? CH_NEWLINE) with false. change (-1 =? -1) with true. cbn iota. apply Hfin; try done. cbn [negb orb]. f_equal. unfold zlen. cbn [length]. lia.
    + rewrite Hc in *. cbn [fst snd] in *. injection Hr as <- <- <-. change (-1 =? CH_NEWLINE) with false. change (-1 =? -1) with true. cbn iota. apply Hfin; try done. cbn [negb orb]. f_equal. unfold zlen. cbn [length]. lia.
Qed.

End reading.

(** ** Writing *)
Definition if_zero (n errno : Z) : bool := n =? 0.

Section writing.
Context (BUFSIZ : Z) (HB : 0 < BUFSIZ).

Definition wr_ok (b : BUFIO) : Prop := zlen (b_buf b) = BUFSIZ /\ 0 <= b_next b < BUFSIZ.

(** What has been put but not written. *)
Definition held (b : BUFIO) : bytes := take (Z.to_nat (b_next b)) (b_buf b).

Lemma writebuf_scatter fuel p b : forall total st,
  bheap st !! p = Some b -> 0 <= total <= b_next b -> b_next b <= zlen (b_buf b) ->
  writebuf_loop fuel p total st =
    match scatter if_zero fuel (b_fd b) (slice (b_buf b) total (b_next b - total)) (bworld st) with
    | Ok (r, _) w => if r =? 1 then Ok true (bset p (set_next 0 b) w st) else Ok false (set_world w st)
    | Abort why w => Abort why (set_world w st)
    end.
Proof.
  induction fuel as [|fuel IH]; intros total st Hp Ht Hn; [by destruct st|]. cbn [writebuf_loop scatter]. rewrite (pbind_ok _ _ _ _ _ (obj_run _ _ _ Hp)).
  set (ptr := slice _ _ _). assert (zlen ptr = b_next b - total) as Hl.
  { unfold ptr, slice, zlen in *. rewrite length_take, length_drop. lia. }
  destruct (Z.ltb_spec total (b_next b)) as [Hlt|Hge].
  - destruct ptr as [|c u] eqn:Eptr; [rewrite zlen_nil in Hl; lia|]. rewrite <- Eptr in *. unfold pbind at 1 2. unfold lift.
    destruct (sys_write (b_fd b) ptr (bworld st)) as [n w1|] eqn:E; [|done]. apply sys_write_le in E. unfold get, pbind.
    assert (0 <= n -> slice (b_buf b) (total + n) (b_next b - (total + n)) = drop (Z.to_nat n) ptr) as Hdrop.
    { intros H0. unfold ptr, slice. replace (Z.to_nat (b_next b - total)) with (Z.to_nat n + Z.to_nat (b_next b - (total + n)))%nat by lia.
      rewrite <- take_drop_commute, drop_drop. do 2 f_equal. lia. }
    unfold if_zero at 1. destruct (Z.eqb_spec n (-1)) as [->|Hne]; [done|].
    rewrite (IH (total + n) (set_world w1 st)) by (done || lia). cbn [bworld set_world]. rewrite Hdrop by lia.
    destruct (Z.leb_spec n 0) as [Hle|Hgt]; [assert (n = 0) as -> by lia; change (0 =? 0) with true; by rewrite drop_0|done].
  - destruct ptr as [|c u] eqn:Eptr; [|rewrite zlen_cons in Hl; pose proof (zlen_nonneg u); lia]. rewrite (pbind_ok _ _ _ _ _ (upd_run p (set_next 0) _ _ Hp)). by destruct st.
Qed.

(** Writing out the buffer when no write fails. *)
Lemma writebuf_run p b st ws o :
  bheap st !! p = Some b -> 0 <= b_next b <= zlen (b_buf b) -> w_to (bworld st) !! b_fd b = Some (ws, o) -> Forall (passes if_zero) ws ->
  exists w' ws', writebuf p st = Ok true (bset p (set_next 0 b) w' st) /\ w_in w' = w_in (bworld st) /\
    w_to w' = <[b_fd b := (ws', o ++ held b)]> (w_to (bworld st)) /\ Forall (passes if_zero) ws'.
Proof.
  intros Hp Hn Hw HF. unfold writebuf. rewrite (pbind_ok _ _ _ _ _ (obj_run _ _ _ Hp)). pstep. rewrite (writebuf_scatter _ p b) by (done || lia).
  rewrite Z.sub_0_r. change (slice (b_buf b) 0 (b_next b)) with (held b).
  destruct (scatter_spec if_zero (wfuel (b_fd b) (bworld st)) (b_fd b) (held b) (bworld st) ws o Hw) as (r & out & left & w' & E & Hb & Hpost & Hl & _ & _ & HF').
  { unfold wfuel. rewrite Hw. change (default ([], []) (Some (ws, o))) with (ws, o). cbn [fst]. lia. }
  specialize (HF' HF). apply Hl in HF' as Hle. subst left r. rewrite app_nil_r in Hb. subst out. rewrite E. change (1 =? 1) with true. cbn iota.
  destruct Hpost as (Hi & s1 & s2 & o1 & Hs1 & Ht & k & Hk). rewrite Hw in Hs1. injection Hs1 as <- <-. exists w', s2. split_and!; try done. subst s2. by apply Forall_drop.
Qed.

(** The bytes that have been written or are held back. *)
Definition puts (b : BUFIO) (w : world) (all : bytes) : Prop :=
  exists ws o, w_to w !! b_fd b = Some (ws, o) /\ Forall (passes if_zero) ws /\ o ++ held b = all.

Lemma Bputc_run p b c st all :
  bheap st !! p = Some b -> wr_ok b -> puts b (bworld st) all -> 0 <= c < 256 ->
  exists b' w', Bputc BUFSIZ p c st = Ok true (bset p b' w' st) /\ same_file b b' /\ wr_ok b' /\ w_in w' = w_in (bworld st) /\
    (exists x, w_to w' = <[b_fd b := x]> (w_to (bworld st))) /\ puts b' w' (all ++ [c]).
Proof.
  intros Hp (Hl & Hn) (ws & o & Hw & HF & Hall) Hc. unfold Bputc. rewrite (pbind_ok _ _ _ _ _ (obj_run _ _ _ Hp)).
  rewrite pbind_guard by (rewrite leb_true, ltb_true by lia; done). rewrite (pbind_ok _ _ _ _ _ (upd_run _ _ _ _ Hp)).
  replace (wrapu 8 c) with c by (unfold wrapu; change (2 ^ 8) with 256; by rewrite Z.mod_small).
  set (b1 := set_next _ _). assert (held b1 = held b ++ [c]) as Hheld.
  { unfold b1, held. cbn. unfold zlen in Hl. replace (Z.to_nat (b_next b + 1)) with (S (Z.to_nat (b_next b))) by lia.
    rewrite (take_S_r _ _ c) by (apply list_lookup_insert_eq; lia). by rewrite take_insert_ge by lia. }
  assert (zlen (b_buf b1) = BUFSIZ) as Hl1 by (cbn; unfold zlen in *; by rewrite length_insert).
  destruct (Z.leb_spec BUFSIZ (b_next b + 1)) as [Hfull|Hroom].
  - set (st1 := set_heap _ st).
    destruct (writebuf_run p b1 st1 ws o) as (w' & ws' & E & Hi & Ht & HF'); [apply lookup_insert_eq|rewrite Hl1; cbn; lia|done|done|].
    exists (set_next 0 b1), w'. split; [rewrite E; unfold bset, st1; cbn; by rewrite insert_insert_eq|]. split; [done|]. split; [split; [done|cbn; lia]|]. split; [done|].
    split; [by eexists|]. exists ws', (o ++ held b1). split; [rewrite Ht; apply lookup_insert_eq|]. split; [done|]. unfold held at 2. cbn. rewrite app_nil_r, Hheld, app_assoc. by rewrite Hall.
  - exists b1, (bworld st). split; [by destruct st|]. split; [done|]. split; [split; [done|cbn; lia]|]. split; [done|]. split; [exists (ws, o); by rewrite insert_id|].
    exists ws, o. split; [done|]. split; [done|]. by rewrite Hheld, app_assoc, Hall.
Qed.

End writing.

(** ** Properties of the buffered input and output

    Both ways of copying a file give the same result; lines; what is lost
    when writing fails. *)
(** ** Closing *)
Lemma next_ok_run st : oks st = [] -> next_ok st = Ok true st.
Proof. intros H. unfold next_ok. pstep. by rewrite H. Qed.

Lemma close_fd_run fd st : oks st = [] -> sys_close fd st = Ok 0 (add_closed fd st).
Proof. intros H. unfold sys_close. by rewrite (pbind_ok _ _ _ _ _ (next_ok_run _ H)). Qed.

(** The state without an object whose descriptor is closed. *)
Definition gone (p fd : Z) (w : world) (st : bio) : bio := mkBio (delete p (bheap st)) w (oks st) (sels st) (closed st ++ [fd]).

Lemma Bclose_reader p b st :
  bheap st !! p = Some b -> p <> NULL -> b_dir b = CH_r -> b_fdopen b = false -> oks st = [] -> Bclose p st = Ok true (gone p (b_fd b) (bworld st) st).
Proof.
  intros Hp Hn Hd Hf Ho. unfold Bclose. rewrite eqb_false by done. rewrite (pbind_ok _ _ _ _ _ (obj_run _ _ _ Hp)), Hd, Hf. change (CH_r =? CH_w) with false. cbn iota. pstep. cbn [negb].
  by rewrite (pbind_ok _ _ _ _ _ (close_fd_run _ _ Ho)).
Qed.

Lemma Bclose_writer BUFSIZ p b st all :
  bheap st !! p = Some b -> p <> NULL -> b_dir b = CH_w -> b_fdopen b = false -> oks st = [] -> wr_ok BUFSIZ b -> puts b (bworld st) all ->
  exists w' ws', Bclose p st = Ok true (gone p (b_fd b) w' st) /\ w_in w' = w_in (bworld st) /\ w_to w' = <[b_fd b := (ws', all)]> (w_to (bworld st)).
Proof.
  intros Hp Hn Hd Hf Ho (Hl & Hnx) (ws & o & Hw & HF & Hall). unfold Bclose. rewrite eqb_false by done. rewrite (pbind_ok _ _ _ _ _ (obj_run _ _ _ Hp)), Hd, Hf. change (CH_w =? CH_w) with true. cbn iota.
  destruct (writebuf_run p b st ws o Hp ltac:(lia) Hw HF) as (w' & ws' & E & Hi & Ht & _). exists w', ws'. rewrite (pbind_ok _ _ _ _ _ E). cbn [negb].
  erewrite pbind_ok; [|apply close_fd_run; done]. rewrite Ht, Hall. split; [|done]. unfold gone, bset. cbn. by rewrite delete_insert_eq.
Qed.

(** ** [copy3] *)

(** Does the stream end without an error? *)
Fixpoint no_error (l : list item) : bool :=
  match l with Byte _ :: l => no_error l | Err _ :: _ => false | _ => true end.

Section copying.
Context (BUFSIZ : Z) (HB : 0 < BUFSIZ).

Lemma bset_swap p q b1 b2 w1 w2 st : p <> q -> bset p b1 w1 (bset q b2 w2 st) = bset q b2 w1 (bset p b1 w1 st).
Proof. intros H. unfold bset. cbn. by rewrite insert_insert_ne. Qed.

Lemma copy3_loop_run p q : p <> q -> forall fuel b1 b2 s st all,
  bheap st !! p = Some b1 -> bheap st !! q = Some b2 -> rd_ok BUFSIZ b1 -> wr_ok BUFSIZ b2 ->
  w_in (bworld st) !! b_fd b1 = Some s -> puts b2 (bworld st) all -> Forall item_ok (stream b1 s) -> (length (until_end (stream b1 s)) < fuel)%nat ->
  exists b1' b2' w', copy3_loop BUFSIZ fuel p q st = Ok (no_error (stream b1 s)) (bset q b2' w' (bset p b1' w' st)) /\
    same_file b1 b1' /\ same_file b2 b2' /\ wr_ok BUFSIZ b2' /\ (exists x, w_to w' = <[b_fd b2 := x]> (w_to (bworld st))) /\ puts b2' w' (all ++ until_end (stream b1 s)).
Proof.
  intros Hpq. induction fuel as [|fuel IH]; intros b1 b2 s st all Hp Hq H1 H2 Hs Hputs Hit Hf; [lia|]. cbn [copy3_loop].
  destruct (Bgetc_run BUFSIZ HB p b1 s st Hp H1 Hs) as (b1' & s' & w' & E & Hsame & Hok & Hi & Ht & Hst & Herr). rewrite (pbind_ok _ _ _ _ _ E).
  assert (puts b2 w' all) as Hputs' by (unfold puts in *; by rewrite Ht).
  pose proof (ref_getc_cases _ Hit) as Hc.
  assert (exists b1'' b2' w2, (do e <- errno; pret (e =? 0)) (bset p b1' w' st) = Ok (w_errno w' =? 0) (bset q b2' w2 (bset p b1'' w2 st)) /\
    same_file b1 b1'' /\ same_file b2 b2' /\ wr_ok BUFSIZ b2' /\ (exists x, w_to w2 = <[b_fd b2 := x]> (w_to (bworld st))) /\ puts b2' w2 (all ++ [])) as Hend.
  { exists b1', b2, w'. unfold errno. pstep. rewrite app_nil_r.
    split; [unfold pret; f_equal; symmetry; apply bset_id; cbn; by rewrite lookup_insert_ne|]. split_and!; try done.
    destruct Hputs as (ws & o & Hw & _). exists (ws, o). by rewrite Ht, insert_id. }
  rewrite Herr in Hend. destruct (stream b1 s) as [|[c|e|] l] eqn:Est; cycle 1.
  - destruct Hc as (Hc & Hrange & Hitl). rewrite Hc in *. cbn [fst snd until_end no_error length] in *. rewrite eqb_false by lia.
    destruct (Bputc_run BUFSIZ HB q b2 c (bset p b1' w' st) all) as (b2' & w2 & E2 & Hsame2 & Hok2 & Hi2 & [x Ht2] & Hputs2); try done; [cbn; by rewrite lookup_insert_ne|].
    rewrite (pbind_ok _ _ _ _ _ E2). cbn [bworld bset] in Hi2, Ht2. destruct Hsame as (Hf1 & Hf2 & Hf3), Hsame2 as (Hg1 & Hg2 & Hg3).
    destruct (IH b1' b2' s' (bset q b2' w2 (bset p b1' w' st)) (all ++ [c])) as (b1'' & b2'' & w3 & E3 & Hsame3 & Hsame4 & Hok3 & [y Ht3] & Hputs3); try done.
    + cbn. by rewrite lookup_insert_ne, lookup_insert_eq by done.
    + cbn. by rewrite lookup_insert_eq.
    + cbn. by rewrite Hi2, Hi, Hf1, lookup_insert_eq.
    + by rewrite Hst.
    + rewrite Hst. lia.
    + exists b1'', b2'', w3. rewrite E3, Hst. split; [f_equal; rewrite (bset_swap p q) by done; rewrite bset_bset; by rewrite bset_bset|].
      destruct Hsame3 as (? & ? & ?), Hsame4 as (? & ? & ?). split; [split_and!; congruence|]. split; [split_and!; congruence|]. split; [done|].
      split; [exists y; cbn in Ht3; by rewrite Ht3, Ht2, Ht, Hg1, insert_insert_eq|]. rewrite <- app_assoc in Hputs3. by rewrite Hst in Hputs3.
  - rewrite Hc in *. cbn [fst until_end no_error ref_errno] in *. change (-1 =? -1) with true. cbn iota. apply Forall_cons in Hit as [He _].
    rewrite (proj2 (Z.eqb_neq e 0) He) in Hend. exact Hend.
  - rewrite Hc in *. exact Hend.
  - rewrite Hc in *. exact Hend.
Qed.

Lemma new_addr_fresh h : h !! new_addr h = None /\ new_addr h <> NULL.
Proof.
  assert (forall X : gset Z, 0 <= set_fold Z.max 0 X /\ forall k, k ∈ X -> k <= set_fold Z.max 0 X) as Hmax.
  { apply (set_fold_ind_L (fun r X => 0 <= r /\ forall k, k ∈ X -> k <= r)); [split; [done|set_solver]|].
    intros x X r Hx [H0 Hr]. split; [lia|]. intros k [->%elem_of_singleton|Hk]%elem_of_union; [lia|]. specialize (Hr k Hk). lia. }
  destruct (Hmax (dom h)) as [H0 Hk]. unfold new_addr, NULL. split; [|lia]. apply not_elem_of_dom. intros Hin. specialize (Hk _ Hin). lia.
Qed.

Context (open : bytes -> Z -> Z).

Definition wflags : Z := Z.lor (Z.lor O_WRONLY O_CREAT) O_TRUNC.

Definition fresh_buf (fd dir : Z) : BUFIO := mkBUFIO fd dir 0 0 (replicate (Z.to_nat BUFSIZ) NUL) false (0, 0).

Lemma Bopen_run path dir st :
  (dir = CH_r \/ dir = CH_w) -> oks st = [] -> open path (if dir =? CH_r then O_RDONLY else wflags) <> -1 ->
  Bopen BUFSIZ open path [dir] st =
    Ok (new_addr (bheap st)) (bset (new_addr (bheap st)) (fresh_buf (open path (if dir =? CH_r then O_RDONLY else wflags)) dir) (bworld st) st).
Proof.
  intros Hd Ho Hopen. unfold Bopen, Bopen_internal. cbn [hd]. destruct Hd as [->| ->].
  - change (CH_r =? CH_r) with true in *. cbn iota in *. rewrite (pbind_ok _ _ _ _ _ (next_ok_run _ Ho)). cbn [negb]. rewrite eqb_false by done. pstep. by destruct st.
  - change (CH_w =? CH_r) with false in *. change (CH_w =? CH_w) with true. cbn iota in *. rewrite (pbind_ok _ _ _ _ _ (next_ok_run _ Ho)). cbn [negb]. fold wflags. rewrite eqb_false by done. pstep. by destruct st.
Qed.

Lemma until_end_weight s : (length (until_end (items false s)) <= rweight s)%nat.
Proof.
  induction s as [|[c bs| |e|] s IH]; cbn [rweight]; rewrite ?items_cons; try (cbn; lia).
  cbn [event_items]. rewrite until_end_app, length_app. cbn [length]. lia.
Qed.

Lemma copy3_run from to fd1 fd2 st s ws o :
  open from O_RDONLY = fd1 -> open to wflags = fd2 -> fd1 <> -1 -> fd2 <> -1 -> oks st = [] ->
  w_in (bworld st) !! fd1 = Some s -> w_to (bworld st) !! fd2 = Some (ws, o) -> Forall (passes if_zero) ws -> Forall item_ok (items false s) ->
  exists st', copy3 BUFSIZ open from to st = Ok (no_error (items false s)) st' /\ bheap st' = bheap st /\ closed st' = closed st ++ [fd1; fd2] /\
    exists ws', w_to (bworld st') = <[fd2 := (ws', o ++ until_end (items false s))]> (w_to (bworld st)).
Proof.
  intros <- <- Hn1 Hn2 Ho Hs Hw HF Hit. unfold copy3. rewrite (pbind_ok _ _ _ _ _ (Bopen_run from CH_r st (or_introl eq_refl) Ho Hn1)).
  change (CH_r =? CH_r) with true. cbn iota. set (p := new_addr (bheap st)). set (b1 := fresh_buf _ _). set (st1 := bset p b1 _ st).
  destruct (new_addr_fresh (bheap st)) as [Hp0 Hp]. fold p in Hp0, Hp. rewrite eqb_false by done.
  erewrite pbind_ok; [|apply (Bopen_run to CH_w st1); [by right|done|done]]. change (CH_w =? CH_r) with false. cbn iota. set (q := new_addr (bheap st1)). set (b2 := fresh_buf _ _). set (st2 := bset q b2 _ st1).
  destruct (new_addr_fresh (bheap st1)) as [Hq0 Hq]. fold q in Hq0, Hq. cbn [bheap bset st1] in Hq0. apply lookup_insert_None in Hq0 as [Hq0 Hpq].
  rewrite eqb_false by done. assert (bheap st2 !! p = Some b1) as Hb1 by (cbn; by rewrite lookup_insert_ne, lookup_insert_eq by done).
  rewrite !pbind_assoc. rewrite (pbind_ok _ _ _ _ _ (obj_run _ _ _ Hb1)). pstep.
  assert (zlen (replicate (Z.to_nat BUFSIZ) NUL) = BUFSIZ) as Hlen by (unfold zlen; rewrite length_replicate; lia).
  assert (stream b1 s = items false s) as Hst by (unfold stream; by rewrite pend_nil).
  destruct (copy3_loop_run p q Hpq (rfuel (b_fd b1) (bworld st2)) b1 b2 s st2 o Hb1) as (b1' & b2' & w' & E & Hsame1 & Hsame2 & Hok2 & [x Ht] & Hputs); try done.
  { apply lookup_insert_eq. }
  { split; [done|]. split; cbn; [lia|]. split; [lia|done]. }
  { exists ws, o. split; [done|]. split; [done|]. unfold held. cbn. by rewrite app_nil_r. }
  { rewrite Hst. unfold rfuel. cbn [bworld bset b_fd b1 fresh_buf st1 st2]. rewrite Hs. cbn [default]. pose proof (until_end_weight s). simpl. lia. }
  rewrite (pbind_ok _ _ _ _ _ E), Hst in *. set (st3 := bset q b2' w' (bset p b1' w' st2)).
  destruct Hsame1 as (Hf1 & Hd1 & Ho1), Hsame2 as (Hf2 & Hd2 & Ho2).
  assert (bheap st3 !! p = Some b1') as Hb1' by (cbn; by rewrite lookup_insert_ne, lookup_insert_eq by done).
  pose proof (Bclose_reader p b1' st3 Hb1' Hp Hd1 Ho1 Ho) as Ec1. set (st4 := gone _ _ _ _) in Ec1.
  destruct (Bclose_writer BUFSIZ q b2' st4 (o ++ until_end (items false s))) as (w5 & ws5 & Ec2 & _ & Ht5); try done.
  { cbn. rewrite lookup_delete_ne by done. by rewrite lookup_insert_eq. }
  set (st5 := gone q _ _ _) in Ec2. exists st5. split.
  - destruct (no_error (items false s)); cbn [negb]; [|unfold copy3_cleanup]; rewrite (pbind_ok _ _ _ _ _ Ec1); cbn [negb]; by rewrite (pbind_ok _ _ _ _ _ Ec2).
  - split; [|split].
    + unfold st5, st4, st3, st2, st1, gone, bset. cbn. apply map_eq. intros k.
      destruct (decide (k = q)) as [->|]; [by rewrite lookup_delete_eq|]. destruct (decide (k = p)) as [->|]; [by rewrite lookup_delete_ne, lookup_delete_eq by done|].
      rewrite !lookup_delete_ne, !lookup_insert_ne by done. done.
    + cbn. rewrite <- app_assoc. rewrite Hf1, Hf2. done.
    + exists ws5. cbn [bworld st5 gone]. rewrite Ht5. cbn [bworld st4 gone st3 bset]. rewrite Ht, Hf2. cbn [b_fd b2 fresh_buf]. by rewrite insert_insert_eq.
Qed.

(** ** [copy2] *)
Lemma copy2_write_run tofd buf : forall fuel nwrite st ws o,
  w_to (bworld st) !! tofd = Some (ws, o) -> Forall (passes if_zero) ws -> (length ws < fuel)%nat -> 0 <= nwrite < zlen buf ->
  exists w' ws', copy2_write fuel tofd buf nwrite st = Ok 0 (set_world w' st) /\ w_in w' = w_in (bworld st) /\
    w_to w' = <[tofd := (ws', o ++ drop (Z.to_nat nwrite) buf)]> (w_to (bworld st)) /\ Forall (passes if_zero) ws'.
Proof.
  induction fuel as [|fuel IH]; intros nwrite st ws o Hw HF Hf Hn; [lia|]. cbn [copy2_write]. set (ptr := drop (Z.to_nat nwrite) buf).
  assert (zlen ptr = zlen buf - nwrite) as Hl by (unfold ptr, zlen in *; rewrite length_drop; lia).
  assert (ptr <> []) as Hne by (intros E; rewrite E, zlen_nil in Hl; lia).
  destruct (sys_write_does tofd ptr (bworld st) ws o Hw Hne) as (n & w1 & E & Hi & Ht & Hle & Hneg & Hnil). rewrite (pbind_ok _ _ _ _ _ (lift_run _ _ _ _ E)).
  assert (Forall (passes if_zero) (tail ws)) as HFt by (destruct HF; done).
  assert (0 <= n) as H0.
  { destruct (decide (n <= 0)) as [H|]; [|lia]. specialize (Hneg H). destruct HF as [|v ws Hv HF]; [done|]. by destruct v; try destruct Hneg; cbn in Hv; lia || done. }
  rewrite eqb_false by lia. destruct (Z.ltb_spec (nwrite + n) (zlen buf)) as [Hlt|Hge].
  - destruct (IH (nwrite + n) (set_world w1 st) (tail ws) (o ++ take (Z.to_nat n) ptr)) as (w2 & ws2 & E2 & Hi2 & Ht2 & HF2); [cbn; by rewrite Ht, lookup_insert_eq|done| |lia|].
    { destruct ws as [|v ws]; cbn in *; [rewrite (Hnil eq_refl) in Hlt; lia|lia]. }
    exists w2, ws2. cbn [bworld set_world] in *. split; [rewrite E2; by destruct st|]. split; [congruence|]. split; [|done]. rewrite Ht2, Ht, insert_insert_eq. do 2 f_equal.
    rewrite <- app_assoc. f_equal. replace (Z.to_nat (nwrite + n)) with (Z.to_nat nwrite + Z.to_nat n)%nat by lia. rewrite <- drop_drop. apply take_drop.
  - exists w1, (tail ws). split; [done|]. split; [done|]. split; [|done]. rewrite Ht. do 3 f_equal. apply firstn_all2. unfold zlen in *. lia.
Qed.

Lemma copy2_loop_run fromfd tofd : forall fuel st s ws o,
  w_in (bworld st) !! fromfd = Some s -> (rweight s < fuel)%nat -> w_to (bworld st) !! tofd = Some (ws, o) -> Forall (passes if_zero) ws ->
  exists w' ws', copy2_loop fuel fromfd tofd st = Ok (no_error (items false s)) (set_world w' st) /\
    w_to w' = <[tofd := (ws', o ++ until_end (items false s))]> (w_to (bworld st)).
Proof.
  induction fuel as [|fuel IH]; intros st s ws o Hs Hf Hw HF; [lia|]. cbn [copy2_loop].
  destruct (sys_read_does false fromfd BUFSIZE (bworld st) s Hs ltac:(done)) as (r & w1 & s1 & E & Hi & Ht & _ & Hd & Hwt). rewrite (pbind_ok _ _ _ _ _ (lift_run _ _ _ _ E)).
  assert (exists ws', w_to w1 = <[tofd := (ws', o ++ [])]> (w_to (bworld st))) as [ws0 Hw0] by (exists ws; by rewrite app_nil_r, insert_id).
  remember (items false s1) as l1 eqn:Hl1. remember (w_errno w1) as e1. destruct Hd as [?|e l' Hl _|l' Hl e|bs l' e Hne Hlen Hl]; [done|..].
  - exists w1, ws0. by rewrite Hl.
  - exists w1, ws0. by destruct Hl as [[-> _]| ->].
  - destruct bs as [|c bs]; [done|]. pstep. destruct Hwt as [?|Hwt]; [done|]. set (buf := c :: bs) in *.
    destruct (copy2_write_run tofd buf (wfuel tofd w1) 0 (set_world w1 st) ws o) as (w2 & ws2 & E2 & Hi2 & Ht2 & HF2); [cbn; by rewrite Ht|done| |unfold buf; zl|].
    { unfold wfuel. rewrite Ht, Hw. change (default ([], []) (Some (ws, o))) with (ws, o). cbn [fst]. lia. }
    cbn [bworld set_world] in *. rewrite (pbind_ok _ _ _ _ _ E2). change (0 =? -1) with false. cbn iota.
    destruct (IH (set_world w2 (set_world w1 st)) s1 ws2 (o ++ buf)) as (w3 & ws3 & E3 & Ht3); [cbn; by rewrite Hi2, Hi, lookup_insert_eq|lia|cbn; by rewrite Ht2, lookup_insert_eq|done|].
    exists w3, ws3. rewrite Hl, <- Hl1 in *. rewrite until_end_app. cbn [bworld set_world] in *. rewrite E3. split.
    + f_equal. clear. by induction buf.
    + rewrite Ht3, Ht2, Ht, insert_insert_eq. by rewrite app_assoc.
Qed.

Lemma copy2_run from to fd1 fd2 st s ws o :
  open from O_RDONLY = fd1 -> open to wflags = fd2 -> fd1 <> -1 -> fd2 <> -1 -> oks st = [] ->
  w_in (bworld st) !! fd1 = Some s -> w_to (bworld st) !! fd2 = Some (ws, o) -> Forall (passes if_zero) ws ->
  exists st', copy2 open from to st = Ok (no_error (items false s)) st' /\ bheap st' = bheap st /\ closed st' = closed st ++ [fd1; fd2] /\
    exists ws', w_to (bworld st') = <[fd2 := (ws', o ++ until_end (items false s))]> (w_to (bworld st)).
Proof.
  intros <- <- Hn1 Hn2 Ho Hs Hw HF. unfold copy2. rewrite eqb_false by done. fold wflags. rewrite eqb_false by done. pstep.
  destruct (copy2_loop_run (open from O_RDONLY) (open to wflags) (rfuel (open from O_RDONLY) (bworld st)) st s ws o) as (w' & ws' & E & Ht); try done.
  { unfold rfuel. rewrite Hs. cbn [default]. simpl. lia. }
  rewrite (pbind_ok _ _ _ _ _ E). set (st1 := set_world w' st).
  pose proof (close_fd_run (open from O_RDONLY) st1 Ho) as E1. pose proof (close_fd_run (open to wflags) (add_closed (open from O_RDONLY) st1) Ho) as E2.
  exists (add_closed (open to wflags) (add_closed (open from O_RDONLY) st1)). split.
  - destruct (no_error (items false s)); cbn [negb].
    + rewrite (pbind_ok _ _ _ _ _ E1). change (0 =? -1) with false. cbn iota. by rewrite (pbind_ok _ _ _ _ _ E2).
    + unfold copy2_cleanup, close_quietly. rewrite !eqb_false by done. rewrite pbind_assoc, (pbind_ok _ _ _ _ _ E1). pstep. by rewrite (pbind_ok _ _ _ _ _ E2).
  - split; [done|]. split; [cbn; by rewrite <- app_assoc|]. by exists ws'.
Qed.

End copying.

(** ** The properties *)

(** C28: copying with buffers and copying with [read] and [write] do the
    same, for every size of the buffer, however reads and writes are cut
    into pieces, when no write fails: the output gets the input up to its
    end or the first error, the result tells which one it was, both files
    are closed and no object is left. *)
Theorem copies_agree BUFSIZ open from to fd1 fd2 st s ws o :
  0 < BUFSIZ -> open from O_RDONLY = fd1 -> open to wflags = fd2 -> fd1 <> -1 -> fd2 <> -1 -> oks st = [] ->
  w_in (bworld st) !! fd1 = Some s -> w_to (bworld st) !! fd2 = Some (ws, o) -> Forall (passes if_zero) ws -> Forall item_ok (items false s) ->
  let copied st' := bheap st' = bheap st /\ closed st' = closed st ++ [fd1; fd2] /\
    exists ws', w_to (bworld st') = <[fd2 := (ws', o ++ until_end (items false s))]> (w_to (bworld st)) in
  (exists st', copy3 BUFSIZ open from to st = Ok (no_error (items false s)) st' /\ copied st') /\
  (exists st', copy2 open from to st = Ok (no_error (items false s)) st' /\ copied st').
Proof. intros HB H1 H2 H3 H4 H5 H6 H7 H8 H9. split; [by eapply copy3_run|by eapply copy2_run]. Qed.

Definition ex_open (path : bytes) (flags : Z) : Z := if flags =? O_RDONLY then 3 else 4.

Definition ex_bio (ins : list revent) (outs : list wevent) : bio :=
  mkBio ∅ (mkWorld {[3 := ins]} {[4 := (outs, [])]} 0) [] [] [].

Lemma copies_agree_witness :
  let st := ex_bio [Data 1 [2; 255]; Data 0 [7]; Eof; Data 9 []] [Room 1; Zero; Room 0] in
  (exists st', copy3 2 ex_open [1] [2] st = Ok true st' /\ exists ws, w_to (bworld st') = {[4 := (ws, [1; 2; 255; 0; 7])]}) /\
  (exists st', copy2 ex_open [1] [2] st = Ok true st' /\ exists ws, w_to (bworld st') = {[4 := (ws, [1; 2; 255; 0; 7])]}).
Proof.
  intros st.
  destruct (copies_agree 2 ex_open [1] [2] 3 4 st [Data 1 [2; 255]; Data 0 [7]; Eof; Data 9 []] [Room 1; Zero; Room 0] []
    ltac:(done) ltac:(done) ltac:(done) ltac:(done) ltac:(done) ltac:(done) ltac:(done) ltac:(done) ltac:(by repeat constructor) ltac:(repeat constructor; cbn; lia))
    as [(s3 & E3 & _ & _ & ws3 & H3) (s2 & E2 & _ & _ & ws2 & H2)].
  split; [exists s3; split; [exact E3|exists ws3; exact H3]|exists s2; split; [exact E2|exists ws2; exact H2]].
Defined.

(** [Bgets] takes a line off the stream behind the buffer, the newline
    with it, at most [smax - 1] characters and what is left for the next
    call; the string is null-terminated within the array; it fails only at
    the end of the stream or an error with no character before it. *)
Theorem Bgets_line BUFSIZ p b s st arr smax bs e l' :
  0 < BUFSIZ -> bheap st !! p = Some b -> rd_ok BUFSIZ b -> w_in (bworld st) !! b_fd b = Some s -> Forall item_ok (stream b s) ->
  1 <= smax <= zlen arr -> smax < 2 ^ 63 -> ref_gets (Z.to_nat (smax - 1)) (stream b s) = (bs, e, l') ->
  exists b' s' w', Bgets BUFSIZ p arr smax st = Ok (negb e || (0 <? zlen bs), bs ++ NUL :: drop (S (length bs)) arr) (bset p b' w' st) /\
    rd_ok BUFSIZ b' /\ b_fd b' = b_fd b /\ w_in w' !! b_fd b = Some s' /\ stream b' s' = l'.
Proof.
  intros HB Hp Hok Hs Hit Hsm Hmax Hr. unfold Bgets.
  destruct (Bgets_loop_run BUFSIZ HB p smax (Z.to_nat (smax - 1)) (S (length arr)) 0 arr b s st bs e l') as (b' & s' & w' & E & Hsame & Hok' & Hi & _ & Hst); try done; try lia.
  { unfold zlen in Hsm. lia. }
  exists b', s', w'. split; [rewrite E; f_equal; f_equal; cbn [app take]; by rewrite <- app_assoc|]. split; [done|]. split; [apply Hsame|]. split; [by rewrite Hi, lookup_insert_eq|done].
Qed.

Definition ex_line : bio :=
  mkBio {[1 := mkBUFIO 3 CH_r 4 1 [65; 66; 67; 68] false (0, 0)]} (mkWorld {[3 := [Data 69 [10; 70]]]} ∅ 0) [] [] [].

Lemma Bgets_line_witness :
  exists b' s' w', Bgets 4 1 (replicate 8 7) 8 ex_line = Ok (true, [66; 67; 68; 69; 0; 7; 7; 7]) (bset 1 b' w' ex_line) /\ stream b' s' = [Byte 70].
Proof.
  destruct (Bgets_line 4 1 (mkBUFIO 3 CH_r 4 1 [65; 66; 67; 68] false (0, 0)) [Data 69 [10; 70]] ex_line (replicate 8 7) 8 [66; 67; 68; 69] false [Byte 70])
    as (b' & s' & w' & E & _ & _ & _ & Hst); try done; [repeat constructor; cbn; lia|]. exists b', s', w'. split; [exact E|exact Hst].
Defined.

(** ** What goes wrong *)

(** When a write fails after part of the buffer has been written, [Bclose]
    in the cleanup writes the buffer from its start: the output has 100
    bytes twice. *)
Theorem copy3_repeats :
  exists st', copy3 256 ex_open [1] [2] (ex_bio [Data 7 (replicate 255 7)] [Room 99; WFail 5]) = Ok false st' /\
    written 4 (bworld st') = replicate 356 7.
Proof. eexists. split; [vm_compute; reflexivity|vm_compute; reflexivity]. Qed.

(** [Bputc] after a failure stores behind the buffer. *)
Theorem Bputc_overflows :
  out_val ((do q <- Bopen 4 ex_open [2] [CH_w]; run Bputc 4 q 1; run Bputc 4 q 2; run Bputc 4 q 3; run Bputc 4 q 4; Bputc 4 q 5) (ex_bio [] [WFail 5]))
    = inr "write behind buf"%string.
Proof. vm_compute. reflexivity. Qed.

(** When the last write fails, the input is closed and freed twice. *)
Theorem copy3_frees_twice : out_val (copy3 256 ex_open [1] [2] (ex_bio [Data 7 []] [WFail 5])) = inr "bad pointer"%string.
Proof. vm_compute. reflexivity. Qed.

(** When the input cannot be opened, the other pointer is used without a
    value. *)
Theorem copy3_no_value : out_val (copy3 256 (fun _ _ => -1) [1] [2] (ex_bio [] [])) = inr "stto has no value"%string.
Proof. vm_compute. reflexivity. Qed.

(** A [select] that stores the time that is left switches the time-out off
    for good once it has expired. *)
Theorem timeout_once t :
  let st := mkBio {[1 := mkBUFIO 3 CH_r 0 0 (replicate 256 0) true t]} (mkWorld {[3 := []]} ∅ 0) [] [STimeout (0, 0)] [] in
  t <> (0, 0) -> exists st', Bgetc 256 1 st = Ok (-1) st' /\ w_errno (bworld st') = ETIMEDOUT /\ exists b, bheap st' !! 1 = Some b /\ b_timeout b = (0, 0).
Proof.
  intros st Ht. unfold Bgetc, readbuf. rewrite (pbind_ok _ _ _ _ _ (obj_run 1 (mkBUFIO 3 CH_r 0 0 (replicate 256 0) true t) st eq_refl)). cbn [b_total b_next Z.leb Z.compare]. pstep.
  rewrite (pbind_ok _ _ _ _ _ (obj_run 1 (mkBUFIO 3 CH_r 0 0 (replicate 256 0) true t) st eq_refl)). cbn [b_timeout].
  replace (negb (t.1 =? 0) || negb (t.2 =? 0)) with true.
  2: { symmetry. destruct t as [a c]. cbn. destruct (Z.eqb_spec a 0) as [->|], (Z.eqb_spec c 0) as [->|]; done. }
  eexists. split; [reflexivity|]. split; [done|]. eexists. by split.
Qed.
