(* ===== verification/StrCli.v ===== *)
(** * A client with nonblocking descriptors (unpv13e/nonblock/strclinonb.c)

    [str_cli] copies the standard input to a socket and the socket to the
    standard output, with a buffer for each direction.  Which descriptors
    [select] reports and what each call does are given by scripts. *)
From S2P Require Import Prelude Posix IoFd IoLine.

Open Scope prog_scope.

Definition EWOULDBLOCK : Z := EAGAIN.

(** A buffer with the pointers to its next free and its next unsent byte. *)
Record nbuf := mkNbuf { iptr : Z; optr : Z; arr : bytes }.

Definition nbuf0 : nbuf := mkNbuf 0 0 (replicate (Z.to_nat MAXLINE) 0).

(** [ready] has the answers of [select]: the standard input and the socket
    to read, the socket and the standard output to write; when they are used
    up, all descriptors are ready.  [fins] counts the calls of [shutdown]. *)
Record nbst := mkNb {
  to : nbuf; fr : nbuf; stdineof : bool; fins : Z; ready : list (bool * bool * (bool * bool)); nbw : world
}.

Definition set_to_buf (b : nbuf) (s : nbst) : nbst := mkNb b (fr s) (stdineof s) (fins s) (ready s) (nbw s).
Definition set_fr_buf (b : nbuf) (s : nbst) : nbst := mkNb (to s) b (stdineof s) (fins s) (ready s) (nbw s).
Definition set_eof (s : nbst) : nbst := mkNb (to s) (fr s) true (fins s) (ready s) (nbw s).
Definition Shutdown (s : nbst) : nbst := mkNb (to s) (fr s) (stdineof s) (fins s + 1) (ready s) (nbw s).
Definition set_ready (l : list (bool * bool * (bool * bool))) (s : nbst) : nbst := mkNb (to s) (fr s) (stdineof s) (fins s) l (nbw s).
Definition set_nbw (w : world) (s : nbst) : nbst := mkNb (to s) (fr s) (stdineof s) (fins s) (ready s) w.

Abbreviation nbp := (Prog nbst).

Definition on_fds {A} (m : io A) : nbp A :=
  fun s => match m (nbw s) with Ok a w => Ok a (set_nbw w s) | Abort why w => Abort why (set_nbw w s) end.

Definition IN : Z := 0.
Definition OUT : Z := 1.

Section str_cli.
Context (sockfd : Z).

(** [n = read(fd, iptr, &buf[MAXLINE] - iptr)]: -1, or the buffer with
    [iptr] moved behind what was read, and [n]. *)
Definition nb_read (fd : Z) (b : nbuf) : nbp (option (Z * nbuf)) :=
  do got <- on_fds (sys_read fd (MAXLINE - iptr b));
  match got with
  | None => pret None
  | Some bs =>
      run guard_die (MAXLINE <? iptr b + zlen bs) "read behind the buffer";
      pret (Some (zlen bs, mkNbuf (iptr b + zlen bs) (optr b) (splice (arr b) (iptr b) bs)))
  end.

(** [nwritten = write(fd, optr, iptr - optr)]: -1, or the buffer with [optr]
    moved, both pointers back at the start when all is written. *)
Definition nb_write (fd : Z) (b : nbuf) : nbp (option nbuf) :=
  do n <- on_fds (sys_write fd (slice (arr b) (optr b) (iptr b - optr b)));
  if n <? 0 then pret None
  else pret (Some (if optr b + n =? iptr b then mkNbuf 0 0 (arr b) else mkNbuf (iptr b) (optr b + n) (arr b))).

Definition unless_wouldblock (why : string) : nbp unit :=
  do e <- get (fun s => w_errno (nbw s));
  if negb (e =? EWOULDBLOCK) then die why else pret tt.

(** The sets after [Select]. *)
Definition nb_select : nbp (bool * bool * (bool * bool)) :=
  do s <- get (fun s => s);
  let rin := negb (stdineof s) && (iptr (to s) <? MAXLINE) in
  let rsock := iptr (fr s) <? MAXLINE in
  let wsock := negb (optr (to s) =? iptr (to s)) in
  let wout := negb (optr (fr s) =? iptr (fr s)) in
  match ready s with
  | [] => pret (rin, rsock, (wsock, wout))
  | (a, b, (c, d)) :: l => run put (set_ready l); pret (rin && a, rsock && b, (wsock && c, wout && d))
  end.

(** Reading from the standard input; the result is whether the socket is in
    [wset]. *)
Definition read_stdin (rin wsock : bool) : nbp bool :=
  if rin then
    do b <- get to;
    do r <- nb_read IN b;
    match r with
    | None => run unless_wouldblock "read error on stdin"; pret wsock
    | Some (n, b') =>
        if n =? 0 then
          run put set_eof;
          run (if optr b =? iptr b then put Shutdown else pret tt);
          pret wsock
        else run put (set_to_buf b'); pret true
    end
  else pret wsock.

(** Reading from the socket; [None] is the return from the function. *)
Definition read_sock (rsock wout : bool) : nbp (option bool) :=
  if rsock then
    do b <- get fr;
    do r <- nb_read sockfd b;
    match r with
    | None => run unless_wouldblock "read error on socket"; pret (Some wout)
    | Some (n, b') =>
        if n =? 0 then
          do e <- get stdineof;
          if e : bool then pret None else die "str_cli: server terminated prematurely"
        else run put (set_fr_buf b'); pret (Some true)
    end
  else pret (Some wout).

Definition write_stdout (wout : bool) : nbp unit :=
  do b <- get fr;
  if wout && (0 <? iptr b - optr b) then
    do r <- nb_write OUT b;
    match r with
    | None => unless_wouldblock "write error to stdout"
    | Some b' => put (set_fr_buf b')
    end
  else pret tt.

Definition write_sock (wsock : bool) : nbp unit :=
  do b <- get to;
  if wsock && (0 <? iptr b - optr b) then
    do r <- nb_write sockfd b;
    match r with
    | None => unless_wouldblock "write error to socket"
    | Some b' =>
        run put (set_to_buf b');
        do e <- get stdineof;
        if (iptr b' =? optr b') && e then put Shutdown else pret tt
    end
  else pret tt.

(** Has the function returned? *)
Definition str_cli_round : nbp bool :=
  do '(rin, rsock, (wsock, wout)) <- nb_select;
  do wsock <- read_stdin rin wsock;
  do r <- read_sock rsock wout;
  match r with
  | None => pret true
  | Some wout => run write_stdout wout; run write_sock wsock; pret false
  end.

Fixpoint str_cli (fuel : nat) : nbp unit :=
  match fuel with
  | O => die "fuel"
  | S fuel => do r <- str_cli_round; if r : bool then pret tt else str_cli fuel
  end.

End str_cli.

(** The start of the function. *)
Definition nb_start (r : list (bool * bool * (bool * bool))) (w : world) : nbst := mkNb nbuf0 nbuf0 false 0 r w.
