(* ===== verification/StrCliThms.v ===== *)
(** * What the client sends and prints

    The invariant of the two buffers, and a measure for the rounds. *)
From S2P Require Import Prelude Posix IoFd IoGather IoLine StrCli.

Open Scope prog_scope.

(** ** Buffers *)
Definition buf_ok (b : nbuf) : Prop :=
  zlen (arr b) = MAXLINE /\ 0 <= optr b <= iptr b /\ iptr b <= MAXLINE /\ (optr b = iptr b -> iptr b = 0).

(** The bytes between the pointers. *)
Definition inside (b : nbuf) : bytes := slice (arr b) (optr b) (iptr b - optr b).

Lemma inside_len b : buf_ok b -> zlen (inside b) = iptr b - optr b.
Proof. intros (H1 & H2 & H3 & _). unfold inside, slice, zlen in *. rewrite length_take, length_drop. lia. Qed.

Lemma inside_nil b : buf_ok b -> (optr b = iptr b <-> inside b = []).
Proof. intros H. pose proof (inside_len b H) as Hl. split; [|intros E; rewrite E, zlen_nil in Hl; lia]. intros E. apply nil_length_inv. unfold zlen in Hl. lia. Qed.

(** Storing behind the bytes. *)
Lemma inside_splice b bs :
  buf_ok b -> iptr b + zlen bs <= MAXLINE -> bs <> [] ->
  let b' := mkNbuf (iptr b + zlen bs) (optr b) (splice (arr b) (iptr b) bs) in buf_ok b' /\ inside b' = inside b ++ bs.
Proof.
  intros (H1 & H2 & H3 & H4) Hle Hne b'. assert (0 < zlen bs) as Hpos by (destruct bs; [done|zl]). unfold zlen in *.
  assert (splice (arr b) (iptr b) bs = take (Z.to_nat (iptr b)) (arr b) ++ bs ++ drop (Z.to_nat (iptr b) + length bs) (arr b)) as Hs.
  { unfold splice. replace (Z.to_nat (iptr b) - length (arr b))%nat with 0%nat by lia. done. }
  split.
  - unfold buf_ok, b', zlen. cbn [arr iptr optr]. split; [|lia]. rewrite Hs, !length_app, length_take, length_drop. lia.
  - unfold inside, slice, b'. cbn [arr iptr optr]. rewrite Hs.
    rewrite drop_app_le by (rewrite length_take; lia). rewrite app_assoc, take_app_le by (rewrite length_app, length_drop, length_take; lia).
    replace (Z.to_nat (iptr b + Z.of_nat (length bs) - optr b)) with (length (drop (Z.to_nat (optr b)) (take (Z.to_nat (iptr b)) (arr b)) ++ bs)) by (rewrite length_app, length_drop, length_take; lia).
    rewrite firstn_all. f_equal. rewrite skipn_firstn_comm. f_equal. lia.
Qed.

(** Moving the other pointer. *)
Lemma inside_advance b n :
  buf_ok b -> optr b < iptr b -> 0 <= n <= iptr b - optr b ->
  let b' := if optr b + n =? iptr b then mkNbuf 0 0 (arr b) else mkNbuf (iptr b) (optr b + n) (arr b) in
  buf_ok b' /\ inside b = take (Z.to_nat n) (inside b) ++ inside b' /\ (iptr b' = optr b' <-> n = iptr b - optr b).
Proof.
  intros (H1 & H2 & H3 & H4) Hlt Hn b'. unfold b'. destruct (Z.eqb_spec (optr b + n) (iptr b)) as [E|E].
  - split; [unfold buf_ok; cbn; unfold MAXLINE in *; lia|]. split; [|cbn; lia]. assert (inside (mkNbuf 0 0 (arr b)) = []) as -> by done.
    rewrite app_nil_r. symmetry. apply firstn_all2. pose proof (inside_len b ltac:(done)) as Hl. unfold zlen in Hl. lia.
  - split; [unfold buf_ok; cbn; lia|]. split; [|cbn; lia]. rewrite <- (take_drop (Z.to_nat n) (inside b)) at 1. f_equal.
    unfold inside, slice. cbn [arr iptr optr]. replace (Z.to_nat (iptr b - optr b)) with (Z.to_nat n + Z.to_nat (iptr b - (optr b + n)))%nat by lia.
    rewrite <- take_drop_commute, drop_drop. do 2 f_equal. lia.
Qed.

(** ** Scripts *)

(** Errors other than EWOULDBLOCK end the process. *)
Definition rev_ok (v : revent) : Prop := match v with Data _ _ | Eof => True | Fail e => e = EWOULDBLOCK | Intr => False end.
Definition wev_ok (v : wevent) : Prop := match v with Room _ | Zero => True | WFail e => e = EWOULDBLOCK | WIntr => False end.

(** The bytes before the end of file. *)
Fixpoint sdata (s : list revent) : bytes :=
  match s with
  | [] | Eof :: _ => []
  | Data c bs :: s => c :: bs ++ sdata s
  | _ :: s => sdata s
  end.

Lemma on_fds_run {A} (m : io A) st a w : m (nbw st) = Ok a w -> on_fds m st = Ok a (set_nbw w st).
Proof. intros H. unfold on_fds. by rewrite H. Qed.

Lemma nb_read_run fd b st s :
  buf_ok b -> iptr b < MAXLINE -> w_in (nbw st) !! fd = Some s -> Forall rev_ok s ->
  exists r w' s', nb_read fd b st = Ok r (set_nbw w' st) /\ w_in w' = <[fd := s']> (w_in (nbw st)) /\ w_to w' = w_to (nbw st) /\ Forall rev_ok s' /\
    match r with
    | None => w_errno w' = EWOULDBLOCK /\ sdata s' = sdata s /\ (rweight s' < rweight s)%nat
    | Some (n, b') =>
        (n = 0 /\ sdata s = [] /\ (rweight s' <= rweight s)%nat) \/
        (0 < n /\ buf_ok b' /\ optr b' <> iptr b' /\ exists bs, inside b' = inside b ++ bs /\ sdata s = bs ++ sdata s' /\ (rweight s' < rweight s)%nat)
    end.
Proof.
  intros Hb Hlt Hs HF. unfold nb_read. pose proof Hb as (H1 & H2 & H3 & H4).
  assert (exists r w', sys_read fd (MAXLINE - iptr b) (nbw st) = Ok r w') as (r & w' & E).
  { destruct (sys_read_does false fd (MAXLINE - iptr b) (nbw st) s Hs ltac:(lia)) as (r & w' & _ & E & _). by exists r, w'. }
  rewrite (pbind_ok _ _ _ _ _ (on_fds_run _ _ _ _ E)). unfold sys_read, pbind, get in E. rewrite Hs in E.
  destruct HF as [|v s Hv HF].
  - injection E as <- <-. pstep. rewrite pbind_guard by (rewrite ltb_false by (rewrite zlen_nil; lia); done). eexists _, (nbw st), []. split; [done|].
    split; [by rewrite insert_id|]. split; [done|]. split; [by constructor|]. left. done.
  - destruct v as [c bs| |e|].
    + injection E as <- <-. set (got := take _ _). set (s' := match drop _ _ with [] => s | c' :: bs' => Data c' bs' :: s end).
      assert (got <> []) as Hne by (unfold got; destruct (Z.to_nat (MAXLINE - iptr b)) eqn:En; [lia|done]).
      assert (zlen got <= MAXLINE - iptr b) as Hgl by (unfold got, zlen; rewrite length_take; lia).
      rewrite pbind_guard by (rewrite ltb_false by lia; done). destruct (inside_splice b got Hb ltac:(lia) Hne) as [Hb' Hin].
      eexists _, _, s'. split; [done|]. split; [done|]. split; [done|].
      split; [unfold s'; destruct (drop _ _); [done|by constructor]|]. right. assert (0 < zlen got) by (destruct got; [done|zl]). split; [done|]. split; [done|].
      split; [cbn; lia|]. exists got. split; [done|].
      assert (c :: bs = got ++ drop (Z.to_nat (MAXLINE - iptr b)) (c :: bs)) as Hsplit by (unfold got; by rewrite take_drop).
      split; [|unfold s'; pose proof (f_equal length Hsplit) as Hlen; rewrite length_app in Hlen; unfold zlen in *; destruct (drop _ _); cbn in *; lia].
      cbn [sdata]. rewrite app_comm_cons, Hsplit at 1. rewrite <- app_assoc. f_equal. unfold s'. by destruct (drop _ _).
    + done.
    + injection E as <- <-. cbn in Hv. subst e. eexists None, _, s. split; [done|]. split; [done|]. split; [done|]. split; [done|]. cbn. split_and!; [done..|lia].
    + injection E as <- <-. rewrite pbind_guard by (rewrite ltb_false by (rewrite zlen_nil; lia); done). eexists (Some (0, _)), _, s. split; [done|]. split; [done|]. split; [done|]. split; [done|]. left. cbn. split_and!; [done..|lia].
Qed.

Lemma nb_write_run fd b st ws o :
  buf_ok b -> optr b < iptr b -> w_to (nbw st) !! fd = Some (ws, o) -> Forall wev_ok ws ->
  exists r w' ws' sent, nb_write fd b st = Ok r (set_nbw w' st) /\ w_in w' = w_in (nbw st) /\ w_to w' = <[fd := (ws', o ++ sent)]> (w_to (nbw st)) /\ Forall wev_ok ws' /\
    match r with
    | None => w_errno w' = EWOULDBLOCK /\ sent = [] /\ (length ws' < length ws)%nat
    | Some b' => buf_ok b' /\ inside b = sent ++ inside b' /\ ((length ws' < length ws)%nat \/ (ws = [] /\ ws' = [] /\ iptr b' = optr b'))
    end.
Proof.
  intros Hb Hlt Hw HF. unfold nb_write. fold (inside b). pose proof (inside_len b Hb) as Hl.
  assert (inside b <> []) as Hne by (intros E; rewrite E, zlen_nil in Hl; lia).
  destruct (sys_write_does fd (inside b) (nbw st) ws o Hw Hne) as (n & w' & E & Hi & Ht & Hle & Hneg & Hnil). rewrite (pbind_ok _ _ _ _ _ (on_fds_run _ _ _ _ E)).
  pose proof (sys_write_le _ _ _ _ _ E) as Hrange. assert (Forall wev_ok (tail ws)) as HFt by (destruct HF; done).
  destruct (Z.ltb_spec n 0) as [H0|H0].
  - specialize (Hneg ltac:(lia)). destruct HF as [|v ws Hv HF]; [done|]. exists None, w', ws, []. split; [done|]. split; [done|].
    replace (take (Z.to_nat n) (inside b)) with (@nil Z) in Ht by (by replace (Z.to_nat n) with 0%nat by lia). split; [done|]. split; [done|].
    destruct v; try lia; try done. destruct Hneg as [_ ->]. cbn in Hv |- *. split_and!; [done..|lia].
  - destruct (inside_advance b n Hb Hlt ltac:(lia)) as (Hb' & Hin & Hend). eexists (Some _), w', (tail ws), (take (Z.to_nat n) (inside b)). split; [done|]. split; [done|]. split; [done|].
    split; [done|]. split; [done|]. split; [done|]. destruct ws as [|v ws]; [|left; cbn; lia]. right. split; [done|]. split; [done|]. apply Hend. rewrite (Hnil eq_refl). lia.
Qed.

(** ** The invariant *)
Definition flag (b : nbuf) : nat := if optr b =? iptr b then 0 else 1.

Lemma flag_le b : (flag b <= 1)%nat.
Proof. unfold flag. destruct (_ =? _); lia. Qed.

Section inv.
Context (sockfd : Z) (Hin : sockfd <> IN) (Hout : sockfd <> OUT).

(** The data of the two directions. *)
Context (S0 R0 : bytes).

(** What has been sent and printed, what the buffers hold and what is to
    come make up the data; [m] bounds the rounds. *)
Record inv (m : nat) (st : nbst) (si rs : list revent) (ws wo : list wevent) (o oo : bytes) : Prop := mkInv {
  i_stdin : w_in (nbw st) !! IN = Some si;
  i_sock : w_in (nbw st) !! sockfd = Some rs;
  i_wsock : w_to (nbw st) !! sockfd = Some (ws, o);
  i_wout : w_to (nbw st) !! OUT = Some (wo, oo);
  i_ok : Forall rev_ok si /\ Forall rev_ok rs /\ Forall wev_ok ws /\ Forall wev_ok wo;
  i_to : buf_ok (to st);
  i_fr : buf_ok (fr st);
  i_sent : S0 = o ++ inside (to st) ++ (if stdineof st then [] else sdata si);
  i_printed : R0 = oo ++ inside (fr st) ++ sdata rs;
  i_fins : fins st = if stdineof st && (optr (to st) =? iptr (to st)) then 1 else 0;
  i_m : m = (2 * rweight si + 2 * rweight rs + length ws + length wo + flag (to st) + flag (fr st) + (if stdineof st then 0 else 1))%nat
}.

Lemma read_stdin_run m st si rs ws wo o oo rin wsock :
  inv m st si rs ws wo o oo -> (rin = true -> stdineof st = false /\ iptr (to st) < MAXLINE) ->
  exists wsock' st' m' si', read_stdin rin wsock st = Ok wsock' st' /\ inv m' st' si' rs ws wo o oo /\ ready st' = ready st /\ fr st' = fr st /\
    (m' <= m)%nat /\ (rin = true -> (m' < m)%nat).
Proof.
  intros [E1 E2 E3 E4 (F1 & F2 & F3 & F4) Bt Bf Hs Hr Hf Hm] Hc. unfold read_stdin. destruct rin; [|exists wsock, st, m, si; split; [done|]; split_and!; done || lia].
  destruct (Hc eq_refl) as [He Hi]. pstep. destruct (nb_read_run IN (to st) st si Bt Hi E1 F1) as (r & w' & si' & E & Hwi & Hwt & F1' & H). rewrite (pbind_ok _ _ _ _ _ E).
  rewrite He in *. assert (w_in w' !! IN = Some si') as E1' by (by rewrite Hwi, lookup_insert_eq). assert (w_in w' !! sockfd = Some rs) as E2' by (by rewrite Hwi, lookup_insert_ne by done).
  destruct r as [[n b']|].
  - destruct H as [(-> & Hd & Hw)|(Hn & Bt' & Hne & bs & Hb & Hd & Hw)].
    + change (0 =? 0) with true. cbn iota. pstep. set (st1 := set_eof (set_nbw w' st)). set (emp := optr (to st) =? iptr (to st)).
      set (st2 := if emp then Shutdown st1 else st1). exists wsock, st2, (2 * rweight si' + 2 * rweight rs + length ws + length wo + flag (to st) + flag (fr st) + 0)%nat, si'.
      split; [unfold st2; by destruct emp|]. split; [|unfold st2; destruct emp; split_and!; done || lia].
      assert (to st2 = to st /\ fr st2 = fr st /\ stdineof st2 = true /\ nbw st2 = w' /\ fins st2 = if emp then 1 else 0) as (T1 & T2 & T3 & T4 & T5).
      { unfold st2. destruct emp; cbn; rewrite ?Hf; done. }
      constructor; rewrite ?T1, ?T2, ?T3, ?T4, ?Hwt; try done. by rewrite Hs, Hd.
    + rewrite eqb_false by lia. pstep. eexists true, _, _, si'. split; [done|]. split; [constructor; cbn; rewrite ?Hwt, ?He; try done|].
      * by rewrite Hs, Hb, Hd, <- !app_assoc.
      * split; [done|]. split; [done|]. pose proof (flag_le b'). subst m. cbn. lia.
  - destruct H as (He' & Hd & Hw). unfold unless_wouldblock. pstep. cbn [nbw set_nbw]. rewrite He', Z.eqb_refl. cbn [negb]. pstep.
    eexists wsock, _, _, si'. split; [done|]. split; [constructor; cbn; rewrite ?Hwt, ?He; try done; by rewrite ?Hd|]. split; [done|]. split; [done|]. subst m. cbn. lia.
Qed.

Lemma read_sock_run m st si rs ws wo o oo rsock wout :
  inv m st si rs ws wo o oo -> (rsock = true -> iptr (fr st) < MAXLINE) ->
  match read_sock sockfd rsock wout st with
  | Ok (Some wout') st' => exists m' rs', inv m' st' si rs' ws wo o oo /\ ready st' = ready st /\ (m' <= m)%nat /\ (rsock = true -> (m' < m)%nat) /\ (rsock = false -> wout' = wout /\ st' = st)
  | Ok None st' => stdineof st = true /\ stdineof st' = true /\ to st' = to st /\ fr st' = fr st /\ fins st' = fins st /\ w_to (nbw st') = w_to (nbw st) /\ sdata rs = []
  | Abort why st' => why = "str_cli: server terminated prematurely"%string /\ stdineof st = false /\ stdineof st' = false /\ to st' = to st /\ fr st' = fr st /\ fins st' = fins st /\ w_to (nbw st') = w_to (nbw st) /\ sdata rs = []
  end.
Proof.
  intros [E1 E2 E3 E4 (F1 & F2 & F3 & F4) Bt Bf Hs Hr Hf Hm] Hc. unfold read_sock. destruct rsock; [|exists m, rs; split_and!; done || lia].
  pstep. destruct (nb_read_run sockfd (fr st) st rs Bf (Hc eq_refl) E2 F2) as (r & w' & rs' & E & Hwi & Hwt & F2' & H). rewrite (pbind_ok _ _ _ _ _ E).
  assert (w_in w' !! sockfd = Some rs') as E2' by (by rewrite Hwi, lookup_insert_eq). assert (w_in w' !! IN = Some si) as E1' by (by rewrite Hwi, lookup_insert_ne by done).
  destruct r as [[n b']|].
  - destruct H as [(-> & Hd & Hw)|(Hn & Bf' & Hne & bs & Hb & Hd & Hw)].
    + change (0 =? 0) with true. cbn iota. pstep. cbn [stdineof set_nbw]. destruct (stdineof st) eqn:He; cbn; by rewrite Hwt.
    + rewrite eqb_false by lia. pstep. cbn. eexists _, rs'. split; [constructor; cbn; rewrite ?Hwt; try done; by rewrite Hr, Hb, Hd, <- !app_assoc|].
      pose proof (flag_le b'). subst m. cbn. split_and!; done || lia.
  - destruct H as (He' & Hd & Hw). unfold unless_wouldblock. pstep. cbn [nbw set_nbw]. rewrite He', Z.eqb_refl. cbn [negb]. pstep.
    eexists _, rs'. split; [constructor; cbn; rewrite ?Hwt; try done; by rewrite ?Hd|]. subst m. cbn. split_and!; done || lia.
Qed.

Lemma write_stdout_run m st si rs ws wo o oo wout :
  inv m st si rs ws wo o oo ->
  exists st' m' wo' oo', write_stdout wout st = Ok tt st' /\ inv m' st' si rs ws wo' o oo' /\ ready st' = ready st /\ (m' <= m)%nat /\ (wout = true -> optr (fr st) <> iptr (fr st) -> (m' < m)%nat).
Proof.
  intros I. pose proof I as [E1 E2 E3 E4 (F1 & F2 & F3 & F4) Bt Bf Hs Hr Hf Hm]. unfold write_stdout. pstep. pose proof Bf as (_ & Hp & _).
  destruct wout; [|exists st, m, wo, oo; split_and!; done || lia]. destruct (Z.ltb_spec 0 (iptr (fr st) - optr (fr st))) as [Hlt|Hge]; cbn [andb].
  2: { exists st, m, wo, oo. split_and!; done || lia. }
  destruct (nb_write_run OUT (fr st) st wo oo Bf ltac:(lia) E4 F4) as (r & w' & wo' & sent & E & Hwi & Hwt & F4' & H). rewrite (pbind_ok _ _ _ _ _ E).
  assert (w_to w' !! OUT = Some (wo', oo ++ sent)) as E4' by (by rewrite Hwt, lookup_insert_eq). assert (w_to w' !! sockfd = Some (ws, o)) as E3' by (by rewrite Hwt, lookup_insert_ne by done).
  assert (flag (fr st) = 1%nat) as Hfl by (unfold flag; by rewrite eqb_false by lia).
  destruct r as [b'|].
  - destruct H as (Bf' & Hb & Hlen). eexists _, _, wo', (oo ++ sent). split; [done|]. split; [constructor; cbn; rewrite ?Hwi; try done; by rewrite Hr, Hb, <- !app_assoc|].
    split; [done|]. subst m. pose proof (flag_le b'). cbn. destruct Hlen as [Hlen|(-> & -> & Hz)]; [lia|]. assert (flag b' = 0%nat) by (unfold flag; by rewrite Hz, Z.eqb_refl). cbn [length]. lia.
  - destruct H as (He' & -> & Hlen). rewrite app_nil_r in *. unfold unless_wouldblock. pstep. cbn [nbw set_nbw]. rewrite He', Z.eqb_refl. cbn [negb].
    eexists _, _, wo', oo. split; [done|]. split; [constructor; cbn; rewrite ?Hwi; done|]. split; [done|]. subst m. cbn. lia.
Qed.

Lemma write_sock_run m st si rs ws wo o oo wsock :
  inv m st si rs ws wo o oo ->
  exists st' m' ws' o', write_sock sockfd wsock st = Ok tt st' /\ inv m' st' si rs ws' wo o' oo /\ ready st' = ready st /\ (m' <= m)%nat /\ (wsock = true -> optr (to st) <> iptr (to st) -> (m' < m)%nat).
Proof.
  intros I. pose proof I as [E1 E2 E3 E4 (F1 & F2 & F3 & F4) Bt Bf Hs Hr Hf Hm]. unfold write_sock. pstep. pose proof Bt as (_ & Hp & _).
  destruct wsock; [|exists st, m, ws, o; split_and!; done || lia]. destruct (Z.ltb_spec 0 (iptr (to st) - optr (to st))) as [Hlt|Hge]; cbn [andb].
  2: { exists st, m, ws, o. split_and!; done || lia. }
  destruct (nb_write_run sockfd (to st) st ws o Bt ltac:(lia) E3 F3) as (r & w' & ws' & sent & E & Hwi & Hwt & F3' & H). rewrite (pbind_ok _ _ _ _ _ E).
  assert (w_to w' !! sockfd = Some (ws', o ++ sent)) as E3' by (by rewrite Hwt, lookup_insert_eq). assert (w_to w' !! OUT = Some (wo, oo)) as E4' by (by rewrite Hwt, lookup_insert_ne by done).
  assert (flag (to st) = 1%nat) as Hfl by (unfold flag; by rewrite eqb_false by lia). rewrite (eqb_false (optr (to st))) in Hf by lia. rewrite andb_false_r in Hf.
  destruct r as [b'|].
  - destruct H as (Bt' & Hb & Hlen). pstep. cbn [stdineof set_to_buf set_nbw]. set (e := (iptr b' =? optr b') && stdineof st). set (st1 := set_to_buf b' (set_nbw w' st)).
    set (st2 := if e then Shutdown st1 else st1). exists st2, (2 * rweight si + 2 * rweight rs + length ws' + length wo + flag b' + flag (fr st) + (if stdineof st then 0 else 1))%nat, ws', (o ++ sent).
    split; [unfold st2; by destruct e|].
    assert (to st2 = b' /\ fr st2 = fr st /\ stdineof st2 = stdineof st /\ nbw st2 = w' /\ ready st2 = ready st /\ fins st2 = if e then 1 else 0) as (T1 & T2 & T3 & T4 & T5 & T6).
    { unfold st2. destruct e; cbn; rewrite ?Hf; done. }
    split; [constructor; rewrite ?T1, ?T2, ?T3, ?T4, ?Hwi; try done; [by rewrite Hs, Hb, <- !app_assoc|rewrite T6; unfold e; by rewrite Z.eqb_sym, andb_comm]|].
    split; [done|]. subst m. pose proof (flag_le b'). destruct Hlen as [Hlen|(-> & -> & Hz)]; [lia|]. assert (flag b' = 0%nat) by (unfold flag; by rewrite Hz, Z.eqb_refl). cbn [length]. lia.
  - destruct H as (He' & -> & Hlen). rewrite app_nil_r in *. unfold unless_wouldblock. pstep. cbn [nbw set_nbw]. rewrite He', Z.eqb_refl. cbn [negb].
    eexists _, _, ws', o. split; [done|]. split; [constructor; cbn; rewrite ?Hwi; try done|]. 2: { split; [done|]. subst m. cbn. lia. }
    rewrite Hf, (eqb_false (optr (to st))) by lia. by rewrite andb_false_r.
Qed.

(** ** Rounds *)

(** How the function ends: what was sent and what was printed are beginnings
    of the data, and the rest is in the buffers. *)
Definition final (returned : bool) (st : nbst) : Prop :=
  stdineof st = returned /\ exists ws wo sent printed, w_to (nbw st) !! sockfd = Some (ws, sent) /\ w_to (nbw st) !! OUT = Some (wo, printed) /\
    R0 = printed ++ inside (fr st) /\
    (if returned then S0 = sent ++ inside (to st) /\ (fins st = if bool_decide (inside (to st) = []) then 1 else 0) else (sent ++ inside (to st)) `prefix_of` S0).

Lemma inv_final m st si rs ws wo o oo st' :
  inv m st si rs ws wo o oo -> sdata rs = [] -> to st' = to st -> fr st' = fr st -> stdineof st' = stdineof st -> w_to (nbw st') = w_to (nbw st) -> fins st' = fins st ->
  final (stdineof st) st'.
Proof.
  intros [E1 E2 E3 E4 _ Bt Bf Hs Hr Hf _] Hd T1 T2 T3 T4 T5. split; [done|]. exists ws, wo, o, oo. rewrite T1, T2, T4, T5. split; [done|]. split; [done|].
  split; [by rewrite Hr, Hd, app_nil_r|]. destruct (stdineof st) eqn:He; [|rewrite Hs, app_assoc; by apply prefix_app_r]. split; [by rewrite Hs, app_nil_r|]. rewrite Hf. cbn [andb].
  pose proof (inside_nil (to st) Bt) as Hn. case_bool_decide; [by rewrite (proj2 (Z.eqb_eq _ _) (proj2 Hn ltac:(done)))|]. rewrite eqb_false; [done|]. tauto.
Qed.

Lemma select_run st : exists rin rsock wsock wout st1, nb_select st = Ok (rin, rsock, (wsock, wout)) st1 /\ st1 = set_ready (tail (ready st)) st /\
  (rin = true -> stdineof st = false /\ iptr (to st) < MAXLINE) /\ (rsock = true -> iptr (fr st) < MAXLINE) /\
  (ready st = [] -> rsock = (iptr (fr st) <? MAXLINE) /\ wout = negb (optr (fr st) =? iptr (fr st))).
Proof.
  unfold nb_select. pstep. destruct (ready st) as [|[[a b] [c d]] l] eqn:E; pstep; eexists _, _, _, _, _; (split; [done|]).
  - split; [destruct st; cbn in E; by subst|]. split; [|split; [|done]].
    + intros [H1 H2]%andb_true_iff. split; [by apply negb_true_iff in H1|by apply Z.ltb_lt in H2].
    + intros H. by apply Z.ltb_lt in H.
  - split; [done|]. split; [|split; [|done]].
    + intros [[H1 H2]%andb_true_iff _]%andb_true_iff. split; [by apply negb_true_iff in H1|by apply Z.ltb_lt in H2].
    + intros [H _]%andb_true_iff. by apply Z.ltb_lt in H.
Qed.

Lemma inv_ready m st si rs ws wo o oo l : inv m st si rs ws wo o oo -> inv m (set_ready l st) si rs ws wo o oo.
Proof. by intros []. Qed.

Lemma nb_round_run m st si rs ws wo o oo :
  inv m st si rs ws wo o oo ->
  match str_cli_round sockfd st with
  | Ok false st' => exists m' si' rs' ws' wo' o' oo', inv m' st' si' rs' ws' wo' o' oo' /\ (m' + length (ready st') < m + length (ready st))%nat
  | Ok true st' => final true st'
  | Abort why st' => why = "str_cli: server terminated prematurely"%string /\ final false st'
  end.
Proof.
  intros I. unfold str_cli_round. destruct (select_run st) as (rin & rsock & wsock & wout & st1 & E & Hst1 & Hrin & Hrsock & Hall). rewrite (pbind_ok _ _ _ _ _ E). cbn iota beta.
  assert (inv m st1 si rs ws wo o oo) as I1 by (subst st1; by apply inv_ready).
  destruct (read_stdin_run m st1 si rs ws wo o oo rin wsock I1) as (wsock' & st2 & m2 & si2 & E2 & I2 & Hr2 & Hfr2 & Hle2 & _); [by subst st1|]. rewrite (pbind_ok _ _ _ _ _ E2).
  pose proof (read_sock_run m2 st2 si2 rs ws wo o oo rsock wout I2) as H3. rewrite Hfr2 in H3. specialize (H3 ltac:(subst st1; done)). unfold pbind at 1.
  destruct (read_sock sockfd rsock wout st2) as [[wout3|] st3|why st3].
  - destruct H3 as (m3 & rs3 & I3 & Hr3 & Hle3 & Hlt3 & Hsame).
    destruct (write_stdout_run m3 st3 si2 rs3 ws wo o oo wout3 I3) as (st4 & m4 & wo4 & oo4 & E4 & I4 & Hr4 & Hle4 & Hlt4). rewrite (pbind_ok _ _ _ _ _ E4).
    destruct (write_sock_run m4 st4 si2 rs3 ws wo4 o oo4 wsock' I4) as (st5 & m5 & ws5 & o5 & E5 & I5 & Hr5 & Hle5 & _). rewrite (pbind_ok _ _ _ _ _ E5).
    exists m5, si2, rs3, ws5, wo4, o5, oo4. split; [done|].
    assert (ready st5 = tail (ready st)) as -> by (rewrite Hr5, Hr4, Hr3, Hr2; by subst st1). destruct (ready st) as [|x l] eqn:Er; [|cbn; lia].
    destruct (Hall eq_refl) as [Hrs Hwo]. cbn. destruct rsock; [specialize (Hlt3 eq_refl); lia|]. symmetry in Hrs. apply Z.ltb_ge in Hrs.
    destruct (Hsame eq_refl) as [-> ->]. destruct I as [_ _ _ _ _ _ (B1 & B2 & B3 & B4) _ _ _ _].
    assert (fr st2 = fr st) as Hf by (rewrite Hfr2; by subst st1). assert (optr (fr st) <> iptr (fr st)) as Hne by (intros Hx; specialize (B4 Hx); unfold MAXLINE in *; lia).
    rewrite (eqb_false _ _ Hne) in Hwo. specialize (Hlt4 Hwo). rewrite Hf in Hlt4. specialize (Hlt4 Hne). lia.
  - destruct H3 as (H1 & H2 & H3 & H4 & H5 & H6 & H7). cbn. rewrite <- H1. apply (inv_final m2 st2 si2 rs ws wo o oo st3); congruence || done.
  - destruct H3 as (-> & H1 & H2 & H3 & H4 & H5 & H6 & H7). split; [done|]. rewrite <- H1. apply (inv_final m2 st2 si2 rs ws wo o oo st3); congruence || done.
Qed.

Lemma str_cli_run fuel : forall m st si rs ws wo o oo,
  inv m st si rs ws wo o oo -> (m + length (ready st) < fuel)%nat ->
  match str_cli sockfd fuel st with
  | Ok _ st' => final true st'
  | Abort why st' => why = "str_cli: server terminated prematurely"%string /\ final false st'
  end.
Proof.
  induction fuel as [|fuel IH]; intros m st si rs ws wo o oo I Hf; [lia|]. cbn [str_cli]. pose proof (nb_round_run m st si rs ws wo o oo I) as H. unfold pbind.
  destruct (str_cli_round sockfd st) as [[|] st1|why st1]; [done| |done]. destruct H as (m1 & si1 & rs1 & ws1 & wo1 & o1 & oo1 & I1 & Hlt). eapply IH; [done|lia].
Qed.

End inv.

(** ** The properties *)

(** C29: whatever [select] reports and however reads and writes are cut into
    pieces or would block, the function ends, and no access is outside the
    buffers.  When it returns, the standard input has been read to its end,
    what was sent and what is in the buffer make up its data, the end has
    been sent exactly when nothing is left, and what was printed is a
    beginning of what the server sent, the rest being in the buffer.
    Otherwise the server has ended the connection early. *)
Theorem str_cli_copies sockfd si rs ws wo r w :
  sockfd <> IN -> sockfd <> OUT ->
  w_in w !! IN = Some si -> w_in w !! sockfd = Some rs -> w_to w !! sockfd = Some (ws, []) -> w_to w !! OUT = Some (wo, []) ->
  Forall rev_ok si -> Forall rev_ok rs -> Forall wev_ok ws -> Forall wev_ok wo ->
  match str_cli sockfd (2 * rweight si + 2 * rweight rs + length ws + length wo + length r + 2)%nat (nb_start r w) with
  | Ok _ st => final sockfd (sdata si) (sdata rs) true st
  | Abort why st => why = "str_cli: server terminated prematurely"%string /\ final sockfd (sdata si) (sdata rs) false st
  end.
Proof.
  intros H1 H2 E1 E2 E3 E4 F1 F2 F3 F4.
  assert (buf_ok nbuf0) as Hb by (unfold buf_ok, nbuf0, MAXLINE; cbn [arr iptr optr]; rewrite zlen_replicate; lia).
  eapply (str_cli_run sockfd H1 H2 (sdata si) (sdata rs) _ _ (nb_start r w) si rs ws wo [] []); [by constructor|]. cbn. lia.
Qed.

Definition ex_nb : world := mkWorld {[0 := [Data 1 [2; 3]; Eof]; 5 := [Fail EWOULDBLOCK; Data 9 [8]; Eof]]} {[5 := ([Room 1; WFail EWOULDBLOCK], []); 1 := ([Room 0], [])]} 0.

Lemma str_cli_copies_witness :
  match str_cli 5 26 (nb_start [(true, false, (false, false))] ex_nb) with
  | Ok _ st => final 5 [1; 2; 3] [9; 8] true st
  | Abort why st => why = "str_cli: server terminated prematurely"%string /\ final 5 [1; 2; 3] [9; 8] false st
  end.
Proof.
  apply (str_cli_copies 5 [Data 1 [2; 3]; Eof] [Fail EWOULDBLOCK; Data 9 [8]; Eof] [Room 1; WFail EWOULDBLOCK] [Room 0] [(true, false, (false, false))] ex_nb); try done; by repeat constructor.
Defined.

(** At the end of the connection the function returns although what was
    received last has not been printed. *)
Theorem str_cli_loses :
  exists st, str_cli 5 9 (nb_start [] (mkWorld {[0 := []; 5 := [Data 9 [8]]]} {[5 := ([], []); 1 := ([WFail EWOULDBLOCK], [])]} 0)) = Ok tt st /\
    w_to (nbw st) !! OUT = Some ([], []) /\ inside (fr st) = [9; 8].
Proof. eexists. split; [vm_compute; reflexivity|]. split; vm_compute; reflexivity. Qed.
