(* ===== verification/Semaph.v ===== *)
(** * Semaphores that know their users (apue.3e/lib/semaph.c)

    A set of three System V semaphores for a key: the value, a counter of the
    processes that use it, and a lock.  The functions are divided into their
    system calls; any process can exit between two of them, and the kernel
    then takes back what it did with SEM_UNDO. *)
From S2P Require Import Prelude Posix Threads.

Definition BIGCOUNT : Z := 10000.

(** ** The kernel *)

(** One operation: the member, the amount, and whether it is undone. *)
Record sembuf := mkSembuf { sem_num : nat; sem_op_ : Z; sem_undo : bool }.

Definition op_lock : list sembuf := [mkSembuf 2 0 false; mkSembuf 2 1 true].
Definition op_endcreate : list sembuf := [mkSembuf 1 (-1) true; mkSembuf 2 (-1) true].
Definition op_open : list sembuf := [mkSembuf 1 (-1) true].
Definition op_close : list sembuf := [mkSembuf 2 0 false; mkSembuf 2 1 true; mkSembuf 1 1 true].
Definition op_unlock : list sembuf := [mkSembuf 2 (-1) true].
Definition op_op (value : Z) : list sembuf := [mkSembuf 0 value true].

(** The values of the three members. *)
Abbreviation vals := (list Z).

Definition val (v : vals) (n : nat) : Z := default 0 (v !! n).

(** The largest value of a member; what is to be undone for a member is a
    [short], too. *)
Definition SEMVMX : Z := 32767.

Definition adj_fits (x : Z) : bool := (- SEMVMX - 1 <=? x) && (x <=? SEMVMX).

(** The operations are done together or not at all: the new values and the
    new undo values of the process, or it sleeps, or a value leaves its
    range. *)
Inductive outcome := Done (v a : vals) | Sleeps | OutOfRange.

Fixpoint do_ops (ops : list sembuf) (v a : vals) : outcome :=
  match ops with
  | [] => Done v a
  | o :: ops =>
      let x := val v (sem_num o) in
      if (sem_op_ o =? 0) && negb (x =? 0) then Sleeps
      else if x + sem_op_ o <? 0 then Sleeps
      else if SEMVMX <? x + sem_op_ o then OutOfRange
      else
        let v' := <[sem_num o := x + sem_op_ o]> v in
        if sem_undo o then
          let u := val a (sem_num o) - sem_op_ o in
          if adj_fits u then do_ops ops v' (<[sem_num o := u]> a) else OutOfRange
        else do_ops ops v' a
  end.

(** What the exit of a process does: the values stay in their range. *)
Definition undo (v a : vals) : vals := zip_with (fun x y => Z.min SEMVMX (Z.max 0 (x + y))) v a.

Definition EIDRM : Z := 43.
Definition ERANGE : Z := 34.

(** ** Processes *)

(** The next system call of a process.  [slept]: it has been asleep in
    [semop], so that a removal of the set shows as EIDRM.  [Failed why c]: it
    is in [err_sys] or [err_dump], on its way to [exit], after the call [c]. *)
Inductive spc :=
  | Idle
  | Create_get (initval : Z) | Create_lock (initval id : Z) (slept : bool) | Create_getval (initval id : Z)
  | Create_set0 (initval id : Z) | Create_set1 (id : Z) | Create_end (id : Z)
  | Open_get | Open_op (id : Z) (slept : bool)
  | Using (id : Z) | Op (id value : Z)
  | Close_lock (id : Z) | Close_getval (id : Z) | Close_rm (id : Z) | Close_unlock (id : Z)
  | Failed (why : string) (c : spc) | Gone.

Record sproc := mkSproc { pc : spc; adj : vals }.

Definition zeros : vals := [0; 0; 0].

(** The set of the key, the next identifier, and the processes. *)
Record ssys := mkSsys { cur : option (Z * vals); next_id : Z; sprocs : gmap nat sproc }.

Definition lookup_set (s : ssys) (id : Z) : option vals :=
  match cur s with Some (i, v) => if i =? id then Some v else None | None => None end.

Definition goto (t : nat) (c : spc) (s : ssys) : ssys :=
  mkSsys (cur s) (next_id s) (alter (fun p => mkSproc c (adj p)) t (sprocs s)).

Definition adj_of (t : nat) (s : ssys) : vals := match sprocs s !! t with Some p => adj p | None => zeros end.

(** [semop] by process [t]: where it goes when it is done, when it sleeps,
    and for the [errno] of a failure. *)
Definition semop (t : nat) (id : Z) (ops : list sembuf) (slept : bool) (done sleep : spc) (fail : Z -> spc) (s : ssys) : ssys :=
  match lookup_set s id with
  | None => goto t (fail (if slept then EIDRM else EINVAL)) s
  | Some v =>
      match do_ops ops v (adj_of t s) with
      | Sleeps => goto t sleep s
      | OutOfRange => goto t (fail ERANGE) s
      | Done v' a' => mkSsys (Some (id, v')) (next_id s) (<[t := mkSproc done a']> (sprocs s))
      end
  end.

(** [semget] with and without [IPC_CREAT]. *)
Definition semget (t : nat) (create : bool) (next : Z -> spc) (fail : spc) (s : ssys) : ssys :=
  match cur s with
  | Some (id, _) => goto t (next id) s
  | None =>
      if create then goto t (next (next_id s)) (mkSsys (Some (next_id s, zeros)) (next_id s + 1) (sprocs s))
      else goto t fail s
  end.

(** [semctl] with GETVAL, SETVAL and IPC_RMID; setting a value, which must
    be in its range, forgets what was to be undone for the member, removing
    the set forgets it all. *)
Definition getval (t : nat) (id : Z) (n : nat) (next : Z -> spc) (fail : spc) (s : ssys) : ssys :=
  match lookup_set s id with None => goto t fail s | Some v => goto t (next (val v n)) s end.

Definition setval (t : nat) (id : Z) (n : nat) (x : Z) (next fail : spc) (s : ssys) : ssys :=
  match lookup_set s id with
  | None => goto t fail s
  | Some v =>
      if (x <? 0) || (SEMVMX <? x) then goto t fail s
      else goto t next (mkSsys (Some (id, <[n := x]> v)) (next_id s) ((fun p => mkSproc (pc p) (<[n := 0]> (adj p))) <$> sprocs s))
  end.

Definition rmid (t : nat) (id : Z) (next fail : spc) (s : ssys) : ssys :=
  match lookup_set s id with
  | None => goto t fail s
  | Some _ => goto t next (mkSsys None (next_id s) ((fun p => mkSproc (pc p) zeros) <$> sprocs s))
  end.

(** ** The functions *)
Definition IPC_PRIVATE : Z := 0.

(** The call of [sem_create]. *)
Definition sem_create (key initval : Z) : spc :=
  if (key =? IPC_PRIVATE) || (key =? -1) then Idle else Create_get initval.

(** Its system calls. *)
Definition create_step (t : nat) (c : spc) (s : ssys) : ssys :=
  match c with
  | Create_get iv => semget t true (fun id => Create_lock iv id false) Idle s
  | Create_lock iv id slept =>
      semop t id op_lock slept (Create_getval iv id) (Create_lock iv id true) (fun errno => if errno =? EINVAL then Create_get iv else Failed "can't lock" c) s
  | Create_getval iv id => getval t id 1 (fun semval => if semval =? 0 then Create_set0 iv id else Create_end id) (Failed "can't GETVAL" c) s
  | Create_set0 iv id => setval t id 0 iv (Create_set1 id) (Failed "can SETVAL[0]" c) s
  | Create_set1 id => setval t id 1 BIGCOUNT (Create_end id) (Failed "can SETVAL[1]" c) s
  | Create_end id => semop t id op_endcreate false (Using id) c (fun _ => Failed "can't end create" c) s
  | _ => s
  end.

Definition sem_open (key : Z) : spc := if (key =? IPC_PRIVATE) || (key =? -1) then Idle else Open_get.

Definition open_step (t : nat) (c : spc) (s : ssys) : ssys :=
  match c with
  | Open_get => semget t false (fun id => Open_op id false) Idle s
  | Open_op id slept => semop t id op_open slept (Using id) (Open_op id true) (fun _ => Failed "can't open" c) s
  | _ => s
  end.

Definition sem_rm (t : nat) (id : Z) (c : spc) (s : ssys) : ssys := rmid t id Idle (Failed "can't IPC_RMID" c) s.

Definition close_step (t : nat) (c : spc) (s : ssys) : ssys :=
  match c with
  | Close_lock id => semop t id op_close false (Close_getval id) c (fun _ => Failed "can't semop" c) s
  | Close_getval id =>
      getval t id 1 (fun semval => if BIGCOUNT <? semval then Failed "sem[1] > BIGCOUNT" c else if semval =? BIGCOUNT then Close_rm id else Close_unlock id)
        (Failed "can't GETVAL" c) s
  | Close_rm id => sem_rm t id c s
  | Close_unlock id => semop t id op_unlock false Idle c (fun _ => Failed "can't unlock" c) s
  | _ => s
  end.

(** The call of [sem_op]: the value becomes a [short] before it is tested.
    [sem_wait] and [sem_signal] use it. *)
Definition sem_op (id value : Z) : spc :=
  let op := wraps 16 value in
  if op =? 0 then Failed "can't have value == 0" (Using id) else Op id op.

Definition sem_wait (id : Z) : spc := sem_op id (-1).
Definition sem_signal (id : Z) : spc := sem_op id 1.

Definition op_step (t : nat) (c : spc) (s : ssys) : ssys :=
  match c with
  | Op id value => semop t id (op_op value) false (Using id) c (fun _ => Failed "sem_op error" c) s
  | _ => s
  end.

(** The next system call of process [t]. *)
Definition sem_step (t : nat) (c : spc) (s : ssys) : ssys :=
  match c with
  | Create_get _ | Create_lock _ _ _ | Create_getval _ _ | Create_set0 _ _ | Create_set1 _ | Create_end _ => create_step t c s
  | Open_get | Open_op _ _ => open_step t c s
  | Op _ _ => op_step t c s
  | Close_lock _ | Close_getval _ | Close_rm _ | Close_unlock _ => close_step t c s
  | _ => s
  end.

(** The process exits, wherever it is. *)
Definition exit_step (t : nat) (s : ssys) : ssys :=
  match sprocs s !! t with
  | None => s
  | Some p =>
      mkSsys (match cur s with Some (id, v) => Some (id, undo v (adj p)) | None => None end) (next_id s)
        (<[t := mkSproc Gone zeros]> (sprocs s))
  end.

(** [opens]: may the processes call [sem_open]? *)
Inductive sstep (opens : bool) : ssys -> ssys -> Prop :=
| StCreate s t p key iv : sprocs s !! t = Some p -> pc p = Idle -> sstep opens s (goto t (sem_create key iv) s)
| StOpen s t p key : opens = true -> sprocs s !! t = Some p -> pc p = Idle -> sstep opens s (goto t (sem_open key) s)
| StOp s t p id value : sprocs s !! t = Some p -> pc p = Using id -> sstep opens s (goto t (sem_op id value) s)
| StClose s t p id : sprocs s !! t = Some p -> pc p = Using id -> sstep opens s (goto t (Close_lock id) s)
| StRun s t p : sprocs s !! t = Some p -> sstep opens s (sem_step t (pc p) s)
| StExit s t p : sprocs s !! t = Some p -> pc p <> Gone -> sstep opens s (exit_step t s).

(** [n] processes, and no set. *)
Definition sem_start (n : nat) : ssys := mkSsys None 1 (gset_to_gmap (mkSproc Idle zeros) (set_seq 0 n)).
