(* ===== verification/SemaphThms.v ===== *)
(** * The users of a semaphore

    The invariant of the three members under every interleaving of system
    calls and exits. *)
From S2P Require Import Prelude Posix Threads Semaph.

(** The process uses the semaphore; it holds the lock.  A process that ends
    with an error keeps what it has until it exits. *)
Fixpoint uses (c : spc) : bool :=
  match c with Using _ | Op _ _ | Close_lock _ => true | Failed _ c => uses c | _ => false end.

Fixpoint locks (c : spc) : bool :=
  match c with
  | Create_getval _ _ | Create_set0 _ _ | Create_set1 _ | Create_end _ | Close_getval _ | Close_rm _ | Close_unlock _ => true
  | Failed _ c => locks c
  | _ => false
  end.

Definition user (p : sproc) : bool := uses (pc p).

Definition locker (p : sproc) : bool := locks (pc p).

(** The set it works with. *)
Fixpoint works_on (c : spc) : option Z :=
  match c with
  | Using id | Op id _ | Close_lock id | Create_getval _ id | Create_set0 _ id | Create_set1 id | Create_end id
  | Close_getval id | Close_rm id | Close_unlock id => Some id
  | Failed _ c => works_on c
  | _ => None
  end.

Definition in_range (x : Z) : bool := (0 <=? x) && (x <=? SEMVMX).

(** The error of the next system call of a process, if there is one:
    [sem_create] has been asleep while the set was removed, its initial value
    is out of range, or an operation takes the value or what is to be undone
    out of range. *)
Definition error_of (s : ssys) (p : sproc) : option string :=
  match pc p with
  | Create_lock _ id true => match lookup_set s id with None => Some "can't lock"%string | Some _ => None end
  | Create_set0 iv _ => if in_range iv then None else Some "can SETVAL[0]"%string
  | Op id value =>
      v ← lookup_set s id;
      let x := val v 0 + value in
      if (0 <=? x) && negb ((x <=? SEMVMX) && adj_fits (val (adj p) 0 - value)) then Some "sem_op error"%string else None
  | _ => None
  end.

Definition failed (c : spc) : bool := match c with Failed _ _ => true | _ => false end.

(** What can fail, and what is not called. *)
Definition pc_ok (c : spc) : Prop :=
  match c with
  | Failed why c =>
      match c with
      | Create_lock _ _ slept => why = "can't lock"%string /\ slept = true
      | Create_set0 iv _ => why = "can SETVAL[0]"%string /\ in_range iv = false
      | Using _ => why = "can't have value == 0"%string
      | Op _ value => why = "sem_op error"%string
      | _ => False
      end
  | Open_get | Open_op _ _ => False
  | Op _ value => value <> 0
  | _ => True
  end.

(** The user counter during initialisation and closing. *)
Fixpoint phase_ok (v1 users : Z) (c : spc) : Prop :=
  match c with
  | Failed _ c => phase_ok v1 users c
  | Create_set0 _ _ | Create_set1 _ => v1 = 0
  | Create_end _ | Close_getval _ | Close_unlock _ => v1 = BIGCOUNT - users
  | Close_rm _ => v1 = BIGCOUNT /\ users = 0
  | _ => True
  end.

Definition proc_ok (id : option Z) (p : sproc) : Prop :=
  (exists a0, adj p = [a0; Z.b2z (user p); - Z.b2z (locker p)]) /\ pc_ok (pc p) /\ (works_on (pc p) <> None -> works_on (pc p) = id).

(** The members of the set. *)
Definition set_ok (users lockers : Z) (v : vals) : Prop :=
  exists v0 v1, v = [v0; v1; lockers] /\ 0 <= v0 <= SEMVMX /\ lockers <= 1 /\ (v1 = 0 /\ users = 0 \/ v1 = BIGCOUNT - users).

Abbreviation users := (count_if user).
Abbreviation lockers := (count_if locker).

Record sinv (s : ssys) : Prop := mkSinv {
  si_size : Z.of_nat (size (sprocs s)) < BIGCOUNT;
  si_procs : forall t p, sprocs s !! t = Some p -> proc_ok (fst <$> cur s) p;
  si_set : match cur s with
           | None => True
           | Some (id, v) => set_ok (users (sprocs s)) (lockers (sprocs s)) v /\
               forall t p, sprocs s !! t = Some p -> phase_ok (val v 1) (users (sprocs s)) (pc p)
           end
}.

(** ** Counting *)
Lemma works_on_some c a : works_on c = None <-> user (mkSproc c a) = false /\ locker (mkSproc c a) = false.
Proof. unfold user, locker. cbn [pc]. induction c; cbn; try done; split; (done || (intros [? ?]; done)). Qed.

Lemma locks_uses c : locks c = true -> uses c = false.
Proof. by induction c. Qed.

Lemma count_le {X} (f : X -> bool) m : count_if f m <= Z.of_nat (size m).
Proof. unfold count_if. apply inj_le. rewrite <- !size_dom. apply subseteq_size, dom_filter_subseteq. Qed.

(** With at most one such process, the others are not. *)
Lemma count_unique {X} (f : X -> bool) (m : gmap nat X) t t' x y (z : X) :
  f z = false -> count_if f m <= 1 -> m !! t = Some x -> f x = true -> m !! t' = Some y -> t <> t' -> f y = false.
Proof.
  intros Hz Hle Ht Hx Ht' Hne. pose proof (count_insert f m t x z Ht) as H. rewrite Hx, Hz in H. cbn in H.
  assert (<[t := z]> m !! t' = Some y) as Hl by (by rewrite lookup_insert_ne). pose proof (count_nonneg f (<[t := z]> m)).
  apply (count_zero f (<[t := z]> m) t' y); [lia|done].
Qed.

Lemma phase_trivial v1 u c a : locker (mkSproc c a) = false -> phase_ok v1 u c.
Proof. unfold locker. cbn [pc]. by induction c. Qed.

Lemma no_set_no_user s : sinv s -> cur s = None -> users (sprocs s) = 0 /\ lockers (sprocs s) = 0.
Proof.
  intros [_ Hp _] Hc. rewrite Hc in Hp. cbn in Hp.
  assert (forall f : sproc -> bool, (forall c a, works_on c = None -> f (mkSproc c a) = false) -> count_if f (sprocs s) = 0) as H.
  { intros f Hf. pose proof (count_nonneg f (sprocs s)). destruct (decide (0 < count_if f (sprocs s))) as [Hx|]; [|lia].
    apply count_exists in Hx as (t & [c a] & Ht & Hx). destruct (Hp _ _ Ht) as (_ & _ & Hw). rewrite Hf in Hx; [done|]. cbn in Hw. destruct (works_on c); [|done]. by specialize (Hw ltac:(done)). }
  split; apply H; intros c a Hw; by apply (works_on_some c a) in Hw as [? ?].
Qed.

(** ** Steps *)
Lemma goto_eq t c s p : sprocs s !! t = Some p -> goto t c s = mkSsys (cur s) (next_id s) (<[t := mkSproc c (adj p)]> (sprocs s)).
Proof.
  intros H. unfold goto. f_equal. apply map_eq. intros k. destruct (decide (k = t)) as [->|].
  - by rewrite lookup_alter_eq, lookup_insert_eq, H.
  - by rewrite lookup_alter_ne, lookup_insert_ne by done.
Qed.

Lemma alter_eq {X} (f : X -> X) (m : gmap nat X) t x : m !! t = Some x -> alter f t m = <[t := f x]> m.
Proof. intros H. apply map_eq. intros k. destruct (decide (k = t)) as [->|]; [by rewrite lookup_alter_eq, lookup_insert_eq, H|by rewrite lookup_alter_ne, lookup_insert_ne by done]. Qed.

(** A process goes from [p] to [p'], and the set to [v']. *)
Lemma sinv_update s t p p' id v' nid :
  sinv s -> sprocs s !! t = Some p -> fst <$> cur s = Some id ->
  let u := users (sprocs s) - Z.b2z (user p) + Z.b2z (user p') in
  let l := lockers (sprocs s) - Z.b2z (locker p) + Z.b2z (locker p') in
  proc_ok (Some id) p' -> set_ok u l v' -> phase_ok (val v' 1) u (pc p') ->
  (forall t' q, t' <> t -> sprocs s !! t' = Some q -> phase_ok (val v' 1) u (pc q)) ->
  sinv (mkSsys (Some (id, v')) nid (<[t := p']> (sprocs s))).
Proof.
  intros [H1 H2 _] Ht Hc u l Hp Hset Hph Hoth. constructor; cbn [sprocs cur].
  - by rewrite map_size_insert_Some by (by eexists).
  - intros t' q [[<- <-]|[Hne Hq]]%lookup_insert_Some; [done|]. change (fst <$> Some (id, v')) with (Some id). rewrite <- Hc. by eapply H2.
  - rewrite !(count_insert _ _ _ _ _ Ht). split; [done|]. intros t' q [[<- <-]|[Hne Hq]]%lookup_insert_Some; [done|]. by eapply Hoth.
Qed.

(** The set does not change. *)
Lemma sinv_goto s t p c :
  sinv s -> sprocs s !! t = Some p -> user (mkSproc c (adj p)) = user p -> locker (mkSproc c (adj p)) = locker p -> pc_ok c ->
  (works_on c = works_on (pc p)) ->
  (forall id v, cur s = Some (id, v) -> phase_ok (val v 1) (users (sprocs s)) c) ->
  sinv (goto t c s).
Proof.
  intros [H1 H2 H3] Ht Hu Hl Hc Hw Hph. rewrite (goto_eq t c s p Ht). pose proof (H2 _ _ Ht) as ([a0 Ha] & _ & Hid). constructor; cbn [sprocs cur].
  - by rewrite map_size_insert_Some by (by eexists).
  - intros t' q [[<- <-]|[Hne Hq]]%lookup_insert_Some; [|by eapply H2]. split; [exists a0; cbn [adj]; by rewrite Hu, Hl|]. split; [done|]. cbn. by rewrite Hw.
  - destruct (cur s) as [[id v]|] eqn:E; [|done]. rewrite !(count_insert _ _ _ _ _ Ht), Hu, Hl, !Z.sub_add. destruct H3 as [H3 H4]. split; [done|].
    intros t' q [[<- <-]|[Hne Hq]]%lookup_insert_Some; [|by eapply H4]. by eapply Hph.
Qed.

(** The set of a process that uses one. *)
Lemma works_set s t p id :
  sinv s -> sprocs s !! t = Some p -> works_on (pc p) = Some id ->
  exists v0 v1, cur s = Some (id, [v0; v1; lockers (sprocs s)]) /\ 0 <= v0 <= SEMVMX /\ lockers (sprocs s) <= 1 /\
    (v1 = 0 /\ users (sprocs s) = 0 \/ v1 = BIGCOUNT - users (sprocs s)) /\ phase_ok v1 (users (sprocs s)) (pc p) /\
    forall t' q, sprocs s !! t' = Some q -> phase_ok v1 (users (sprocs s)) (pc q).
Proof.
  intros [_ H2 H3] Ht Hw. destruct (H2 _ _ Ht) as (_ & _ & Hid). rewrite Hw in Hid. specialize (Hid ltac:(done)).
  destruct (cur s) as [[i v]|]; [|done]. injection Hid as ->. destruct H3 as [(v0 & v1 & -> & H0 & Hl & Hv) Hph]. exists v0, v1. repeat (split; [done|]). split; [by eapply Hph|done].
Qed.

Lemma lookup_cur s id v : cur s = Some (id, v) -> lookup_set s id = Some v.
Proof. intros H. unfold lookup_set. by rewrite H, Z.eqb_refl. Qed.

Lemma found_set s id v : sinv s -> lookup_set s id = Some v -> cur s = Some (id, v) /\ set_ok (users (sprocs s)) (lockers (sprocs s)) v.
Proof.
  intros I Es. pose proof (si_set s I) as Hset. unfold lookup_set in Es. destruct (cur s) as [[i w]|]; [|done].
  destruct (Z.eqb_spec i id) as [->|]; [|done]. injection Es as ->. by destruct Hset.
Qed.

(** [semop] of a process that finds the set. *)
Lemma semop_found t id ops b d sl f s p v :
  sprocs s !! t = Some p -> lookup_set s id = Some v ->
  semop t id ops b d sl f s =
    match do_ops ops v (adj p) with
    | Done v' a' => mkSsys (Some (id, v')) (next_id s) (<[t := mkSproc d a']> (sprocs s))
    | Sleeps => goto t sl s
    | OutOfRange => goto t (f ERANGE) s
    end.
Proof. intros Ht Hs. unfold semop, adj_of. by rewrite Hs, Ht. Qed.

(** One operation, and the wait for zero. *)
Lemma do_ops_step o ops v a :
  0 <= val v (sem_num o) + sem_op_ o <= SEMVMX -> (sem_op_ o = 0 -> val v (sem_num o) = 0) ->
  (sem_undo o = true -> - SEMVMX - 1 <= val a (sem_num o) - sem_op_ o <= SEMVMX) ->
  do_ops (o :: ops) v a =
    do_ops ops (<[sem_num o := val v (sem_num o) + sem_op_ o]> v) (if sem_undo o then <[sem_num o := val a (sem_num o) - sem_op_ o]> a else a).
Proof.
  intros H1 H2 H3. cbn [do_ops]. rewrite (ltb_false (_ + _)), (ltb_false SEMVMX) by lia.
  destruct (Z.eqb_spec (sem_op_ o) 0) as [E|]; [rewrite H2 at 1 by done|]; cbn [andb negb Z.eqb]; (destruct (sem_undo o); [|done]);
    specialize (H3 eq_refl); unfold adj_fits; by rewrite !leb_true by lia.
Qed.

Lemma do_ops_wait n b ops v a : val v n <> 0 -> do_ops (mkSembuf n 0 b :: ops) v a = Sleeps.
Proof. intros H. cbn [do_ops sem_num sem_op_]. by rewrite (eqb_false (val v n)) by done. Qed.

(** The operations of the library. *)
Lemma do_lock v0 v1 a0 a1 : do_ops op_lock [v0; v1; 0] [a0; a1; 0] = Done [v0; v1; 1] [a0; a1; -1].
Proof. done. Qed.

Lemma do_unlock v0 v1 a0 a1 : do_ops op_unlock [v0; v1; 1] [a0; a1; -1] = Done [v0; v1; 0] [a0; a1; 0].
Proof. done. Qed.

Lemma do_endcreate v0 v1 a0 : 0 < v1 <= BIGCOUNT -> do_ops op_endcreate [v0; v1; 1] [a0; 0; -1] = Done [v0; v1 + -1; 0] [a0; 1; 0].
Proof. intros H. unfold BIGCOUNT in H. unfold op_endcreate. by rewrite do_ops_step by (cbn; unfold SEMVMX; lia). Qed.

Lemma do_close v0 v1 a0 : 0 <= v1 < BIGCOUNT -> do_ops op_close [v0; v1; 0] [a0; 1; 0] = Done [v0; v1 + 1; 1] [a0; 0; -1].
Proof. intros H. unfold BIGCOUNT in H. unfold op_close. by rewrite !do_ops_step by (cbn; unfold SEMVMX; lia). Qed.

Lemma do_op value v0 v1 v2 a0 a1 a2 :
  value <> 0 ->
  do_ops (op_op value) [v0; v1; v2] [a0; a1; a2] =
    if v0 + value <? 0 then Sleeps
    else if (v0 + value <=? SEMVMX) && adj_fits (a0 - value) then Done [v0 + value; v1; v2] [a0 - value; a1; a2] else OutOfRange.
Proof.
  intros Hv. cbn -[SEMVMX]. rewrite eqb_false by done. cbn -[SEMVMX]. case_match; [done|].
  destruct (Z.ltb_spec SEMVMX (v0 + value)); [by rewrite leb_false by lia|rewrite leb_true by lia; cbn]. by destruct (adj_fits (a0 - value)).
Qed.

Lemma in_range_spec x : in_range x = true <-> 0 <= x <= SEMVMX.
Proof. unfold in_range. rewrite andb_true_iff, !Z.leb_le. done. Qed.

Lemma out_of_range x : (x <? 0) || (SEMVMX <? x) = negb (in_range x).
Proof. unfold in_range. by rewrite negb_andb, !Z.ltb_antisym. Qed.

(** The other processes when there is no lock holder, or [t] is it. *)
Lemma others_phase s t p v1 u t' q :
  (lockers (sprocs s) = 0 \/ lockers (sprocs s) <= 1 /\ locker p = true) -> sprocs s !! t = Some p -> t' <> t -> sprocs s !! t' = Some q -> phase_ok v1 u (pc q).
Proof.
  intros Hl Ht Hne Hq. destruct q as [c a]. apply (phase_trivial v1 u c a). destruct Hl as [H0|[Hle Hp]]; [by eapply count_zero|].
  eapply (count_unique locker (sprocs s) t t' p (mkSproc c a) (mkSproc Idle zeros)); done.
Qed.

Lemma users_lt s : sinv s -> users (sprocs s) < BIGCOUNT.
Proof. intros [H _ _]. pose proof (count_le user (sprocs s)). lia. Qed.

(** Only what a process does to its own set of undo values and to its
    program counter matters. *)
Lemma sinv_fmap c nid m (g : sproc -> sproc) :
  sinv (mkSsys c nid m) -> (forall p, pc (g p) = pc p) -> (forall t p, m !! t = Some p -> proc_ok (fst <$> c) (g p)) -> sinv (mkSsys c nid (g <$> m)).
Proof.
  intros [H1 H2 H3] Hpc Hok. cbn [sprocs cur] in *.
  assert (forall f : sproc -> bool, (forall p q, pc p = pc q -> f p = f q) -> count_if f (g <$> m) = count_if f m) as Hc by (intros f Hf; apply count_fmap; intros x; by apply Hf).
  constructor; cbn [sprocs cur].
  - by rewrite map_size_fmap.
  - intros t p. rewrite lookup_fmap, fmap_Some. intros (q & Hq & ->). by eapply Hok.
  - destruct c as [[id v]|]; [|done]. rewrite !Hc by (intros [c1 a1] [c2 a2] E; cbn in E; by subst). destruct H3 as [H3 H4]. split; [done|].
    intros t p. rewrite lookup_fmap, fmap_Some. intros (q & Hq & ->). rewrite Hpc. by eapply H4.
Qed.

Lemma val_3 v0 v1 v2 n : val [v0; v1; v2] n = match n with 0%nat => v0 | 1%nat => v1 | 2%nat => v2 | _ => 0 end.
Proof. destruct n as [|[|[|n]]]; done. Qed.

(** SETVAL by the holder of the lock. *)
Lemma sinv_setval s t p n c id v v' :
  sinv s -> sprocs s !! t = Some p -> locker p = true -> works_on (pc p) = Some id -> cur s = Some (id, v) ->
  (n = 0%nat \/ n = 1%nat /\ users (sprocs s) = 0) ->
  locker (mkSproc c (adj p)) = true -> user (mkSproc c (adj p)) = false -> works_on c = Some id -> pc_ok c ->
  set_ok (users (sprocs s)) (lockers (sprocs s)) v' -> phase_ok (val v' 1) (users (sprocs s)) c ->
  sinv (goto t c (mkSsys (Some (id, v')) (next_id s) ((fun q => mkSproc (pc q) (<[n := 0]> (adj q))) <$> sprocs s))).
Proof.
  intros I Ht Hlp Hw Ec Hn Hlc Huc Hwc Hok Hset Hph. set (g := fun q => mkSproc (pc q) (<[n := 0]> (adj q))).
  assert (user p = false) as Hup by (by apply locks_uses).
  assert (lockers (sprocs s) <= 1) as Hl1 by (destruct Hset as (? & ? & _ & _ & ? & _); done).
  assert (forall q, user (g q) = user q /\ locker (g q) = locker q) as Hg by (intros [c' a']; done).
  assert (sinv (mkSsys (cur s) (next_id s) (g <$> sprocs s))) as I2.
  { apply sinv_fmap; [by destruct s|done|]. intros t' q Hq. destruct (si_procs s I t' q Hq) as ([a0 Ha] & H2 & H3). split; [|done]. rewrite !(proj1 (Hg q)), (proj2 (Hg q)).
    cbn [adj g]. rewrite Ha. destruct Hn as [->|[-> Hu]]; [by exists 0|]. exists a0. cbn. by rewrite (count_zero user (sprocs s) t' q Hu Hq). }
  assert (forall f : sproc -> bool, (forall p q, pc p = pc q -> f p = f q) -> count_if f (g <$> sprocs s) = count_if f (sprocs s)) as Hc by (intros f Hf; apply count_fmap; intros x; by apply Hf).
  assert ((g <$> sprocs s) !! t = Some (g p)) as Htg by (by rewrite lookup_fmap, Ht).
  rewrite (goto_eq t c _ (g p)) by done. cbn [cur next_id sprocs].
  pose proof (si_procs _ I2 t (g p) Htg) as ([a0 Ha] & _ & _).
  apply (sinv_update (mkSsys (cur s) (next_id s) (g <$> sprocs s)) t (g p) _ id v' _ I2 Htg); cbn [cur sprocs]; rewrite ?Hc by (intros [c1 a1] [c2 a2] E; cbn in E; by subst).
  - by rewrite Ec.
  - split; [|split; [done|cbn [pc]; by rewrite Hwc]]. exists a0. cbn [adj]. rewrite Ha, (proj1 (Hg p)), (proj2 (Hg p)), Hlp, Hup. unfold user, locker in *. cbn [pc] in *. by rewrite Hlc, Huc.
  - rewrite (proj1 (Hg p)), (proj2 (Hg p)), Hlp, Hup. unfold user, locker in *. cbn [pc] in *. rewrite Hlc, Huc. cbn. by rewrite Z.sub_0_r, Z.add_0_r, Z.sub_add.
  - rewrite (proj1 (Hg p)), Hup. unfold user in *. cbn [pc] in *. rewrite Huc. cbn. by rewrite Z.sub_0_r, Z.add_0_r.
  - intros t' q Hne Hq. apply lookup_fmap_Some in Hq as (q' & <- & Hq'). cbn [pc g]. eapply (others_phase s t p); [by right|done..].
Qed.

(** [set_ok] for given members. *)
Ltac members := split_and!; cbn; first [done | lia | repeat (f_equal; try lia)].

Lemma create_inv s t p : sinv s -> sprocs s !! t = Some p -> sinv (create_step t (pc p) s).
Proof.
  intros I Ht. pose proof (si_procs s I t p Ht) as ([a0 Ha] & Hok & _). pose proof (users_lt s I) as Hu. pose proof (count_nonneg user (sprocs s)) as Hu0. destruct p as [c a]. cbn [pc adj] in *. destruct c; cbn [create_step]; try done.
  - (* semget *)
    unfold semget. destruct (cur s) as [[id v]|] eqn:Ec; [by apply (sinv_goto s t _ _ I Ht)|].
    destruct (no_set_no_user s I Ec) as [Hus Hl0]. apply (sinv_goto _ t (mkSproc (Create_get initval) a)); try done.
    destruct I as [H1 H2 _]. rewrite Ec in H2. constructor; cbn [sprocs cur]; [done| |].
    + intros t' q Hq. destruct (H2 _ _ Hq) as (Hq1 & Hq2 & Hq3). split; [done|]. split; [done|]. intros Hw. by specialize (Hq3 Hw).
    + rewrite Hus, Hl0. split; [by exists 0, 0; split_and!; try done; left|]. intros t' [c' a'] Hq. destruct (H2 _ _ Hq) as (_ & _ & Hq3). apply (phase_trivial _ _ c' a'). cbn in Hq3.
      destruct (works_on c') eqn:Ew; [by specialize (Hq3 ltac:(done))|]. by apply (works_on_some c' a') in Ew as [? ?].
  - (* op_lock *)
    destruct (lookup_set s id) as [v|] eqn:Es; [|unfold semop; rewrite Es; destruct slept; by apply (sinv_goto s t _ _ I Ht)].
    destruct (found_set s id v I Es) as [Ec (v0 & v1 & -> & H0 & Hl & Hv)].
    rewrite (semop_found _ _ _ _ _ _ _ _ _ _ Ht Es). cbn [adj]. rewrite Ha.
    destruct (Z.eq_dec (lockers (sprocs s)) 0) as [H00|H00]; [|unfold op_lock; rewrite do_ops_wait by done; by apply (sinv_goto s t _ _ I Ht)].
    rewrite H00. cbn [Z.b2z Z.opp]. rewrite do_lock. eapply (sinv_update s t _ _ _ _ _ I Ht); try done.
    + by rewrite Ec.
    + split; [by exists a0|done].
    + rewrite H00. exists v0, v1. members.
    + intros t' q Hne Hq. eapply (others_phase s t); [by left|done..].
  - (* GETVAL *)
    destruct (works_set s t _ id I Ht eq_refl) as (v0 & v1 & Ec & H0 & Hl & Hv & _ & _). unfold getval. rewrite (lookup_cur _ _ _ Ec), val_3.
    destruct (Z.eqb_spec v1 0) as [->|]; (apply (sinv_goto s t _ _ I Ht); try done); intros i w E; rewrite Ec in E; injection E as <- <-; [done|]. cbn. lia.
  - (* SETVAL 0 *)
    destruct (works_set s t _ id I Ht eq_refl) as (v0 & v1 & Ec & H0 & Hl & Hv & Hph & Hall). cbn in Hph. subst v1. unfold setval. rewrite (lookup_cur _ _ _ Ec), out_of_range. cbn [insert list_insert].
    destruct (in_range initval) eqn:Er; cbn [negb]; [|apply (sinv_goto s t _ _ I Ht); try done; intros i w E; rewrite Ec in E; by injection E as <- <-].
    apply in_range_spec in Er. apply (sinv_setval s t _ 0 (Create_set1 id) id _ _ I Ht eq_refl eq_refl Ec); try done; [by left|]. exists initval, 0. members.
  - (* SETVAL 1 *)
    destruct (works_set s t _ id I Ht eq_refl) as (v0 & v1 & Ec & H0 & Hl & Hv & Hph & Hall). cbn in Hph. subst v1. unfold setval. rewrite (lookup_cur _ _ _ Ec). cbn [insert list_insert].
    assert (users (sprocs s) = 0) as Hus by lia.
    apply (sinv_setval s t _ 1 (Create_end id) id _ _ I Ht eq_refl eq_refl Ec); try done; [by right|exists v0, BIGCOUNT; members|cbn; lia].
  - (* op_endcreate *)
    destruct (works_set s t _ id I Ht eq_refl) as (v0 & v1 & Ec & H0 & Hl & Hv & Hph & Hall). cbn in Hph. pose proof (count_pos locker _ _ _ Ht eq_refl) as Hpos.
    assert (lockers (sprocs s) = 1) as Hl1 by lia. rewrite Hl1 in Ec.
    rewrite (semop_found _ _ _ _ _ _ _ _ _ _ Ht (lookup_cur _ _ _ Ec)). cbn [adj]. rewrite Ha, do_endcreate by lia. eapply (sinv_update s t _ _ _ _ _ I Ht); try done.
    + by rewrite Ec.
    + split; [by exists a0|done].
    + rewrite Hl1. exists v0, (v1 + -1). members.
    + intros t' q Hne Hq. eapply (others_phase s t _ _ _ _ _ _ Ht); done.
      Unshelve. by right.
Qed.

Lemma op_inv s t p : sinv s -> sprocs s !! t = Some p -> sinv (op_step t (pc p) s).
Proof.
  intros I Ht. pose proof (si_procs s I t p Ht) as ([a0 Ha] & Hok & _). destruct p as [c a]. cbn [pc adj] in *. destruct c; cbn [op_step]; try done.
  destruct (works_set s t _ id I Ht eq_refl) as (v0 & v1 & Ec & H0 & Hl & Hv & _ & Hall). cbn in Hok.
  rewrite (semop_found _ _ _ _ _ _ _ _ _ _ Ht (lookup_cur _ _ _ Ec)). cbn [adj]. rewrite Ha, do_op by done.
  destruct (Z.ltb_spec (v0 + value) 0); [by apply (sinv_goto s t _ _ I Ht)|].
  destruct (Z.leb_spec (v0 + value) SEMVMX); [|by apply (sinv_goto s t _ _ I Ht)]. cbn [andb].
  destruct (adj_fits (a0 - value)); [|by apply (sinv_goto s t _ _ I Ht)]. eapply (sinv_update s t _ _ _ _ _ I Ht); try done.
  - by rewrite Ec.
  - split; [by exists (a0 - value)|done].
  - exists (v0 + value), v1. members.
  - intros t' q Hne Hq. cbn. rewrite Z.sub_add. by eapply Hall.
Qed.

Lemma close_inv s t p : sinv s -> sprocs s !! t = Some p -> sinv (close_step t (pc p) s).
Proof.
  intros I Ht. pose proof (si_procs s I t p Ht) as ([a0 Ha] & Hok & _). pose proof (users_lt s I) as Hu. pose proof (count_nonneg user (sprocs s)) as Hu0. destruct p as [c a]. cbn [pc adj] in *. destruct c; cbn [close_step]; try done.
  all: destruct (works_set s t _ id I Ht eq_refl) as (v0 & v1 & Ec & H0 & Hl & Hv & Hph & Hall).
  - (* op_close *)
    pose proof (count_pos user _ _ _ Ht eq_refl) as Hpos.
    rewrite (semop_found _ _ _ _ _ _ _ _ _ _ Ht (lookup_cur _ _ _ Ec)). cbn [adj]. rewrite Ha.
    destruct (Z.eq_dec (lockers (sprocs s)) 0) as [H00|H00]; [|unfold op_close; rewrite do_ops_wait by done; by apply (sinv_goto s t _ _ I Ht)].
    rewrite H00, do_close by lia. eapply (sinv_update s t _ _ _ _ _ I Ht); try done.
    + by rewrite Ec.
    + split; [by exists a0|done].
    + rewrite H00. exists v0, (v1 + 1). members.
    + cbn. lia.
    + intros t' q Hne Hq. eapply (others_phase s t); [by left|done..].
  - (* GETVAL *)
    cbn in Hph. unfold getval. rewrite (lookup_cur _ _ _ Ec), val_3. rewrite ltb_false by lia.
    destruct (Z.eqb_spec v1 BIGCOUNT); (apply (sinv_goto s t _ _ I Ht); try done); intros i w E; rewrite Ec in E; injection E as <- <-; cbn; lia.
  - (* IPC_RMID *)
    cbn in Hph. destruct Hph as [Hv1 Hus]. unfold sem_rm, rmid. rewrite (lookup_cur _ _ _ Ec).
    rewrite (goto_eq t Idle _ (mkSproc (Close_rm id) zeros)) by (cbn; by rewrite lookup_fmap, Ht). cbn [cur next_id sprocs adj]. constructor; cbn [cur sprocs].
    + rewrite map_size_insert_Some by (rewrite lookup_fmap, Ht; by eexists). rewrite map_size_fmap. apply I.
    + intros t' q [[<- <-]|[Hne Hq]]%lookup_insert_Some; [by split; [exists 0|]|]. apply lookup_fmap_Some in Hq as ([c' a'] & <- & Hq). cbn [pc].
      assert (locker (mkSproc c' a') = false) as Hlq by (eapply (count_unique locker (sprocs s) t t' _ _ (mkSproc Idle zeros)); done).
      assert (user (mkSproc c' a') = false) as Huq by (by eapply count_zero).
      destruct (si_procs s I t' _ Hq) as (_ & Hpc & _). assert (works_on c' = None) as Hw by (by apply (works_on_some c' a')). split; [exists 0|split; [done|cbn; by rewrite Hw]].
      cbn [adj]. unfold user, locker in *. cbn [pc] in *. by rewrite Hlq, Huq.
    + done.
  - (* op_unlock *)
    cbn in Hph. pose proof (count_pos locker _ _ _ Ht eq_refl) as Hpos. assert (lockers (sprocs s) = 1) as Hl1 by lia. rewrite Hl1 in Ec.
    rewrite (semop_found _ _ _ _ _ _ _ _ _ _ Ht (lookup_cur _ _ _ Ec)). cbn [adj]. rewrite Ha, do_unlock. eapply (sinv_update s t _ _ _ _ _ I Ht); try done.
    + by rewrite Ec.
    + split; [by exists a0|done].
    + rewrite Hl1. exists v0, v1. members.
    + intros t' q Hne Hq. eapply (others_phase s t _ _ _ _ _ _ Ht); done.
      Unshelve. by right.
Qed.

(** A user exits. *)
Lemma phase_leave v1 u c : 0 < u < BIGCOUNT -> v1 = BIGCOUNT - u -> phase_ok v1 u c -> phase_ok (v1 + 1) (u - 1 + 0) c.
Proof. intros Hu Hv. induction c; cbn; try done; lia. Qed.

Lemma exit_inv s t p : sinv s -> sprocs s !! t = Some p -> sinv (exit_step t s).
Proof.
  intros I Ht. unfold exit_step. rewrite Ht. pose proof (users_lt s I) as Hu. pose proof (si_procs s I t p Ht) as ([a0 Ha] & _ & _).
  assert (proc_ok (fst <$> cur s) (mkSproc Gone zeros)) as Hg by (by split; [exists 0|]).
  destruct (cur s) as [[id v]|] eqn:Ec.
  - pose proof (si_set s I) as Hset. rewrite Ec in Hset. destruct Hset as [(v0 & v1 & -> & H0 & Hl & Hv) Hall].
    assert (locker p = true -> 0 < lockers (sprocs s)) as Hlp by (by apply (count_pos locker _ t)). assert (user p = true -> 0 < users (sprocs s)) as Hup by (by apply (count_pos user _ t)).
    pose proof (count_nonneg locker (sprocs s)) as Hl0. rewrite Ha. cbn [undo zip_with].
    pose proof (count_nonneg user (sprocs s)) as Hu0.
    assert (Z.min SEMVMX (Z.max 0 (v1 + Z.b2z (user p))) = v1 + Z.b2z (user p)) as Hm1 by (unfold BIGCOUNT, SEMVMX in *; destruct (user p); cbn; specialize (Hup eq_refl) || idtac; lia).
    assert (Z.min SEMVMX (Z.max 0 (lockers (sprocs s) + - Z.b2z (locker p))) = lockers (sprocs s) - Z.b2z (locker p)) as Hm2 by (unfold SEMVMX; destruct (locker p); cbn; specialize (Hlp eq_refl) || idtac; lia).
    assert (exists w0, Z.min SEMVMX (Z.max 0 (v0 + a0)) = w0 /\ 0 <= w0 <= SEMVMX) as (w0 & Hw0 & Hw) by (eexists; split; [done|unfold SEMVMX; lia]).
    rewrite Hm1, Hm2, Hw0. eapply (sinv_update s t p _ id _ _ I Ht); try done.
    + by rewrite Ec.
    + exists w0, (v1 + Z.b2z (user p)). change (user (mkSproc Gone zeros)) with false. change (locker (mkSproc Gone zeros)) with false. cbn [Z.b2z]. rewrite !Z.add_0_r.
      destruct (user p), (locker p); cbn [Z.b2z]; try specialize (Hup eq_refl); members.
    + intros t' q Hne Hq. specialize (Hall _ _ Hq). change (user (mkSproc Gone zeros)) with false. cbn [Z.b2z]. rewrite val_3 in *. destruct (user p); cbn [Z.b2z]; [specialize (Hup eq_refl)|by rewrite Z.add_0_r, Z.sub_0_r, Z.add_0_r].
      apply phase_leave; [lia|lia|done].
  - destruct I as [H1 H2 _]. rewrite Ec in H2. constructor; cbn [cur sprocs]; [by rewrite map_size_insert_Some by (by eexists)| |done].
    intros t' q [[<- <-]|[Hne Hq]]%lookup_insert_Some; [done|]. by eapply H2.
Qed.

Lemma sstep_inv s s' : sstep false s s' -> sinv s -> sinv s'.
Proof.
  destruct 1 as [s t p key iv Ht Hc|s t p key Ho Ht Hc|s t p id value Ht Hc|s t p id Ht Hc|s t p Ht|s t p Ht Hc]; intros I.
  - destruct p as [c a]. cbn in Hc. subst c. unfold sem_create. by case_match; apply (sinv_goto s t _ _ I Ht).
  - done.
  - destruct p as [c a]. cbn in Hc. subst c. unfold sem_op. destruct (Z.eqb_spec (wraps 16 value) 0); by apply (sinv_goto s t _ _ I Ht).
  - destruct p as [c a]. cbn in Hc. subst c. by apply (sinv_goto s t _ _ I Ht).
  - pose proof (create_inv s t p I Ht) as Hcr. pose proof (op_inv s t p I Ht) as Hop. pose proof (close_inv s t p I Ht) as Hcl.
    destruct (si_procs s I t p Ht) as (_ & Hpc & _). unfold sem_step. by destruct (pc p).
  - by eapply exit_inv.
Qed.

Lemma sinv_start n : Z.of_nat n < BIGCOUNT -> sinv (sem_start n).
Proof.
  intros Hn. constructor; cbn [cur sprocs sem_start]; [| |done].
  - rewrite <- size_dom, dom_gset_to_gmap, size_set_seq. done.
  - intros t p Hp. apply lookup_gset_to_gmap_Some in Hp as [_ <-]. by split; [exists 0|].
Qed.

Lemma reach_inv s s' : rtc (sstep false) s s' -> sinv s -> sinv s'.
Proof. induction 1; [done|]. intros I. by eauto using sstep_inv. Qed.

(** Process [t] is at [c]. *)
Definition at_pc (t : nat) (c : spc) (s : ssys) : Prop := exists p, sprocs s !! t = Some p /\ pc p = c.

Lemma goto_pc t c s p : sprocs s !! t = Some p -> at_pc t c (goto t c s).
Proof. intros H. rewrite (goto_eq t c s p H). eexists. split; [apply lookup_insert_eq|done]. Qed.

Lemma goto_pc_fmap t c cu nid s (g : sproc -> sproc) p : sprocs s !! t = Some p -> at_pc t c (goto t c (mkSsys cu nid (g <$> sprocs s))).
Proof. intros H. apply (goto_pc t c _ (g p)). cbn. by rewrite lookup_fmap, H. Qed.

Lemma insert_pc t c cu nid a s : at_pc t c (mkSsys cu nid (<[t := mkSproc c a]> (sprocs s))).
Proof. eexists. split; [apply lookup_insert_eq|done]. Qed.

(** Where a system call leads. *)
Definition lands (s : ssys) (t : nat) (p : sproc) (s' : ssys) : Prop :=
  exists c, at_pc t c s' /\ (locker p = true -> c <> pc p) /\
    match error_of s p with Some why => c = Failed why (pc p) | None => failed c = false end.

(** Calls of a process that has no set, and of one that waits for the lock. *)
Lemma lands_free s t p :
  sinv s -> sprocs s !! t = Some p -> works_on (pc p) = None -> failed (pc p) = false -> pc_ok (pc p) -> lands s t p (sem_step t (pc p) s).
Proof.
  intros I Ht Hw Hf Hok. unfold lands, locker, error_of. destruct p as [c a]. destruct c; try done; cbn [pc sem_step create_step locks].
  - exists Idle. split; [by eexists|done].
  - unfold semget. destruct (cur s) as [[id v]|]; eexists; (split; [by eapply goto_pc|done]).
  - destruct (lookup_set s id) as [v|] eqn:Es; [|unfold semop; rewrite Es; by destruct slept; eexists; (split; [by eapply goto_pc|done])].
    destruct (si_procs s I t _ Ht) as ([a0 Ha] & _). destruct (found_set s id v I Es) as [_ (v0 & v1 & -> & _)].
    rewrite (semop_found _ _ _ _ _ _ _ _ _ _ Ht Es), Ha. cbn [user locker pc uses locks Z.b2z Z.opp].
    destruct (Z.eq_dec (lockers (sprocs s)) 0) as [->|]; [rewrite do_lock|unfold op_lock; rewrite do_ops_wait by done]; eexists; (split; [apply insert_pc || by eapply goto_pc|by destruct slept]).
  - exists Gone. split; [by eexists|done].
Qed.

(** Calls of the others: the lock holder never sleeps. *)
Lemma lands_set s t p id :
  sinv s -> sprocs s !! t = Some p -> works_on (pc p) = Some id -> failed (pc p) = false -> pc_ok (pc p) -> lands s t p (sem_step t (pc p) s).
Proof.
  intros I Ht Hw Hf Hok. pose proof (users_lt s I) as Hu. pose proof (count_nonneg user (sprocs s)) as Hu0.
  assert (locks (pc p) = true -> 0 < lockers (sprocs s)) as Hpos by (by apply (count_pos locker _ t)). assert (uses (pc p) = true -> 0 < users (sprocs s)) as Hup by (by apply (count_pos user _ t)).
  destruct (works_set s t p id I Ht Hw) as (v0 & v1 & Ec & H0 & Hl & Hv & Hph & _). pose proof (lookup_cur _ _ _ Ec) as Es. destruct (si_procs s I t p Ht) as ([a0 Ha] & _).
  unfold user, locker in Ha. unfold lands, error_of, locker. destruct p as [c a]. destruct c; try done; injection Hw as ->;
    cbn [pc adj sem_step create_step op_step close_step locks uses] in *; subst a; try specialize (Hpos eq_refl); try specialize (Hup eq_refl);
    rewrite ?(semop_found _ _ _ _ _ _ _ _ _ _ Ht Es); unfold sem_rm, getval, setval, rmid; rewrite ?Es, ?val_3, ?out_of_range; cbn [adj Z.b2z Z.opp phase_ok] in *.
  - eexists. split; [by eapply goto_pc|by case_match].
  - destruct (in_range initval); cbn [negb]; eexists; (split; [by eapply goto_pc_fmap || by eapply goto_pc|done]).
  - eexists. split; [by eapply goto_pc_fmap|done].
  - replace (lockers (sprocs s)) with 1 by lia. rewrite do_endcreate by lia. eexists. split; [apply insert_pc|done].
  - exists (Using id). split; [by eexists|done].
  - cbn [mbind option_bind]. rewrite do_op, val_3, Z.ltb_antisym by done.
    destruct (0 <=? v0 + value); [|by eexists; split; [by eapply goto_pc|]]. cbn [negb andb].
    destruct ((v0 + value <=? SEMVMX) && adj_fits (a0 - value)) eqn:E; eexists; (split; [apply insert_pc || by eapply goto_pc|done]).
  - destruct (Z.eq_dec (lockers (sprocs s)) 0) as [->|]; [rewrite do_close by lia|unfold op_close; rewrite do_ops_wait by done]; eexists; (split; [apply insert_pc || by eapply goto_pc|done]).
  - rewrite ltb_false by lia. eexists. split; [by eapply goto_pc|by case_match].
  - eexists. split; [by eapply goto_pc_fmap|done].
  - replace (lockers (sprocs s)) with 1 by lia. rewrite do_unlock. eexists. split; [apply insert_pc|done].
Qed.

(** ** The properties *)

(** C30: for processes that use [sem_create], [sem_op], [sem_wait],
    [sem_signal] and [sem_close] with any initial values and amounts, in
    every interleaving of their system calls, and when processes exit at any
    point; there are fewer than [BIGCOUNT] processes, the kernel has room for
    the set and what is to be undone and permits its use, and no signal
    interrupts a sleep. Every user has the set of the key, its value is in
    the kernel's range and the counter shows how many users there are; at
    most one process holds the lock, and it never sleeps; a set is
    initialised or removed only when nobody uses it. A system call ends in an
    error exactly when [error_of] says so: in [sem_create] when it has slept
    while the set was removed or when the initial value is not in 0..32767,
    and in [sem_op] when the new value is above 32767 or what is to be undone
    leaves the range of a short; besides these, [sem_op] gives up when its
    amount is zero as a short. *)
Theorem semaph_safe n s :
  Z.of_nat n < BIGCOUNT -> rtc (sstep false) (sem_start n) s ->
  (forall t p id, sprocs s !! t = Some p -> works_on (pc p) = Some id ->
     exists v0 v1, cur s = Some (id, [v0; v1; count_if locker (sprocs s)]) /\ 0 <= v0 <= SEMVMX /\
       (user p = true -> v1 = BIGCOUNT - count_if user (sprocs s)) /\
       match pc p with
       | Create_end _ => v1 = BIGCOUNT - count_if user (sprocs s)
       | Create_set0 _ _ | Create_set1 _ | Close_rm _ => count_if user (sprocs s) = 0
       | _ => True
       end) /\
  count_if locker (sprocs s) <= 1 /\
  (forall t p, sprocs s !! t = Some p -> failed (pc p) = false ->
     exists p', sprocs (sem_step t (pc p) s) !! t = Some p' /\ (locker p = true -> pc p' <> pc p) /\
       match error_of s p with Some why => pc p' = Failed why (pc p) | None => failed (pc p') = false end) /\
  (forall t p why c, sprocs s !! t = Some p -> pc p = Failed why c ->
     match c with
     | Create_lock _ _ slept => why = "can't lock"%string /\ slept = true
     | Create_set0 iv _ => why = "can SETVAL[0]"%string /\ ~ (0 <= iv <= SEMVMX)
     | Using _ => why = "can't have value == 0"%string
     | Op _ _ => why = "sem_op error"%string
     | _ => False
     end).
Proof.
  intros Hn Hr. assert (sinv s) as I by (by eapply reach_inv; [|apply sinv_start]).
  pose proof (users_lt s I) as Hu. split; [|split; [|split]].
  - intros t p id Ht Hw. destruct (works_set s t p id I Ht Hw) as (v0 & v1 & Ec & H0 & Hl & Hv & Hph & _). exists v0, v1. split; [done|]. split; [done|].
    assert (user p = true -> 0 < users (sprocs s)) as Hup by (by apply (count_pos user _ t)). split; [intros Hx; specialize (Hup Hx); lia|].
    destruct (pc p); cbn [phase_ok] in Hph; try done; lia.
  - pose proof (si_set s I) as Hset. destruct (cur s) as [[id v]|] eqn:Ec; [|by destruct (no_set_no_user s I Ec); lia]. destruct Hset as [(v0 & v1 & _ & _ & Hl & _) _]. done.
  - intros t p Ht Hf. destruct (si_procs s I t p Ht) as (_ & Hok & _).
    assert (lands s t p (sem_step t (pc p) s)) as (c & (p' & Hp & <-) & Hl & He) by (destruct (works_on (pc p)) eqn:Ew; [by eapply lands_set|by apply lands_free]).
    by exists p'.
  - intros t p why c Ht Hc. destruct (si_procs s I t p Ht) as (_ & Hpc & _). rewrite Hc in Hpc. cbn in Hpc. destruct c; try done. destruct Hpc as [? Hr']. split; [done|].
    rewrite <- in_range_spec. by rewrite Hr'.
Qed.

(** ** Examples

    A run that is given by the moves of the processes. *)
Inductive move := MCreate (t : nat) (iv : Z) | MOpen (t : nat) | MOp (t : nat) (value : Z) | MClose (t : nat) | MRun (t : nat) | MExit (t : nat).

Definition do_move (m : move) (s : ssys) : option ssys :=
  match m with
  | MCreate t iv => p ← sprocs s !! t; match pc p with Idle => Some (goto t (sem_create 7 iv) s) | _ => None end
  | MOpen t => p ← sprocs s !! t; match pc p with Idle => Some (goto t (sem_open 7) s) | _ => None end
  | MOp t value => p ← sprocs s !! t; match pc p with Using id => Some (goto t (sem_op id value) s) | _ => None end
  | MClose t => p ← sprocs s !! t; match pc p with Using id => Some (goto t (Close_lock id) s) | _ => None end
  | MRun t => p ← sprocs s !! t; Some (sem_step t (pc p) s)
  | MExit t => p ← sprocs s !! t; match pc p with Gone => None | _ => Some (exit_step t s) end
  end.

Definition is_open (m : move) : bool := match m with MOpen _ => true | _ => false end.

Lemma do_move_step opens m s s' : (is_open m = true -> opens = true) -> do_move m s = Some s' -> sstep opens s s'.
Proof.
  intros Ho H. destruct m; unfold do_move in H; apply bind_Some in H as (p & Hp & H).
  - destruct (pc p) eqn:E; try done. injection H as <-. by eapply StCreate.
  - destruct (pc p) eqn:E; try done. injection H as <-. by eapply StOpen; [apply Ho|..].
  - destruct (pc p) eqn:E; try done. injection H as <-. by eapply StOp.
  - destruct (pc p) eqn:E; try done. injection H as <-. by eapply StClose.
  - injection H as <-. by apply StRun.
  - assert (pc p <> Gone /\ s' = exit_step t s) as [? ->] by (destruct (pc p); by simplify_eq). by eapply StExit.
Qed.

Fixpoint do_moves (l : list move) (s : ssys) : option ssys :=
  match l with [] => Some s | m :: l => s' ← do_move m s; do_moves l s' end.

Lemma do_moves_steps opens l : forall s s', (existsb is_open l = true -> opens = true) -> do_moves l s = Some s' -> rtc (sstep opens) s s'.
Proof.
  induction l as [|m l IH]; intros s s' Ho H; cbn in H; [injection H as <-; apply rtc_refl|]. apply bind_Some in H as (s1 & H1 & H2). cbn in Ho.
  eapply rtc_l; [eapply do_move_step; [|done]|apply IH; [|done]]; intros E; apply Ho; rewrite E; by rewrite ?orb_true_r.
Qed.

(** The first process creates the set, the second one joins, the first one
    dies while it holds the lock to close; an operation of the second one
    would take the value out of its range. *)
Definition ex_moves : list move :=
  [MCreate 0 5; MRun 0; MRun 0; MCreate 1 9; MRun 1; MRun 0; MRun 0; MRun 1; MRun 0; MRun 0; MRun 1; MRun 1; MRun 1; MClose 0; MRun 0; MExit 0;
   MOp 1 32764].

Definition ex_end : ssys := default (sem_start 2) (do_moves ex_moves (sem_start 2)).

Lemma semaph_safe_witness :
  Z.of_nat 2 < BIGCOUNT /\ rtc (sstep false) (sem_start 2) ex_end /\ cur ex_end = Some (1, [5; 9999; 0]) /\ count_if locker (sprocs ex_end) <= 1 /\
  exists p', sprocs (sem_step 1 (Op 1 32764) ex_end) !! 1%nat = Some p' /\ pc p' = Failed "sem_op error" (Op 1 32764).
Proof.
  assert (rtc (sstep false) (sem_start 2) ex_end) as Hr by (apply (do_moves_steps false ex_moves); [done|vm_compute; reflexivity]).
  split; [done|]. split; [exact Hr|]. split; [vm_compute; reflexivity|]. destruct (semaph_safe 2 ex_end eq_refl Hr) as (_ & H & H2 & _).
  split; [exact H|]. destruct (H2 1%nat (mkSproc (Op 1 32764) [0; 1; 0]) ltac:(vm_compute; reflexivity) eq_refl) as (p' & Hp & _ & Hf).
  exists p'. split; [exact Hp|]. exact Hf.
Defined.

(** ** What goes wrong *)

(** [sem_open] takes no lock: the last user finds the counter full and
    removes the set, in between another process becomes a user; its next
    operation fails. *)
Theorem sem_open_race :
  exists s, rtc (sstep true) (sem_start 2) s /\ cur s = None /\ exists p, sprocs s !! 1%nat = Some p /\ pc p = Using 1.
Proof.
  set (l := [MCreate 0 1; MRun 0; MRun 0; MRun 0; MRun 0; MRun 0; MRun 0; MOpen 1; MRun 1; MClose 0; MRun 0; MRun 0; MRun 1; MRun 0]).
  destruct (do_moves l (sem_start 2)) as [s|] eqn:E; [|by vm_compute in E]. exists s. split; [by apply (do_moves_steps true l)|].
  vm_compute in E. injection E as <-. split; [done|]. eexists. split; [vm_compute; reflexivity|done].
Qed.

(** [sem_create] expects EINVAL when the set is removed, but a process that
    sleeps in [semop] gets EIDRM. *)
Theorem sem_create_dies :
  exists s, rtc (sstep false) (sem_start 2) s /\ exists p, sprocs s !! 1%nat = Some p /\ pc p = Failed "can't lock" (Create_lock 1 1 true).
Proof.
  set (l := [MCreate 0 1; MRun 0; MRun 0; MRun 0; MRun 0; MRun 0; MRun 0; MCreate 1 1; MRun 1; MClose 0; MRun 0; MRun 1; MRun 0; MRun 0; MRun 1]).
  destruct (do_moves l (sem_start 2)) as [s|] eqn:E; [|by vm_compute in E]. exists s. split; [by apply (do_moves_steps false l)|].
  vm_compute in E. injection E as <-. eexists. split; [vm_compute; reflexivity|done].
Qed.

(** The comment of [sem_op] says that only the amount zero is refused; the
    amount becomes a [short] first, so a multiple of 65536 is refused, too,
    and other large amounts are changed. *)
Theorem sem_op_short id k :
  sem_op id (65536 * k) = Failed "can't have value == 0" (Using id) /\ sem_op id (65536 * k - 1) = sem_wait id.
Proof.
  assert (forall v, wraps 16 (65536 * k + v) = wraps 16 v) as H by (intros v; unfold wraps; change (2 ^ 16) with 65536; rewrite <- Z.add_assoc, (Z.mul_comm 65536), Z.add_comm, Z_mod_plus_full; done).
  unfold sem_wait, sem_op. split; [specialize (H 0); rewrite Z.add_0_r in H|specialize (H (-1)); change (65536 * k + -1) with (65536 * k - 1) in H]; by rewrite H.
Qed.
