(* ===== verification/OpenServ.v ===== *)
(** * The open server (apue.3e/ipc2/opend, ipc2/open, lib/bufargs.c,
      lib/sendfd.c, lib/senderr.c, lib/recvfd.c)

    Clients send the name of a file and flags; the server opens the file and
    sends the descriptor back, or an error message.  What arrives at the
    receiver of a descriptor is given in pieces. *)
From S2P Require Import Prelude CString Posix.

Open Scope prog_scope.

Definition MAXLINE : Z := 4096.

(** ** Arguments *)
Definition MAXARGC : Z := 50.

(** [WHITE] *)
Definition is_white (c : Z) : bool := (c =? CH_SPACE) || (c =? 9) || (c =? CH_NEWLINE).

Fixpoint skip_white (s : bytes) : bytes * bytes :=
  match s with
  | c :: s' => if is_white c then let '(a, b) := skip_white s' in (c :: a, b) else ([], s)
  | [] => ([], [])
  end.

Fixpoint upto_white (s : bytes) : bytes * bytes :=
  match s with
  | [] => ([], [])
  | c :: s' => if is_white c then ([], s') else let '(a, b) := upto_white s' in (c :: a, b)
  end.

(** [strtok] on what is left: what it skips, the token, and the rest. *)
Definition strtok (s : bytes) : option (bytes * bytes * bytes) :=
  let '(sk, s) := skip_white s in
  match s with [] => None | _ => let '(t, rest) := upto_white s in Some (sk, t, rest) end.

(** The loop for the other arguments; [argc] is the index of the last one. *)
Fixpoint buf_args_loop (fuel : nat) (argc : Z) (argv : list bytes) (s : bytes) : option (list bytes) :=
  match fuel with
  | O => None
  | S fuel =>
      match strtok s with
      | None => Some argv
      | Some (_, t, rest) => if MAXARGC - 1 <=? argc + 1 then None else buf_args_loop fuel (argc + 1) (argv ++ [t]) rest
      end
  end.

(** [argv[0]] is the start of the buffer, with what [strtok] has skipped.
    [None] is the return of -1 without a call of [optfunc]. *)
Definition buf_args (buf : bytes) : option (list bytes) :=
  match strtok (cstr buf) with
  | None => None
  | Some (sk, t, rest) => buf_args_loop (S (length rest)) 0 [sk ++ t] rest
  end.

Definition CL_OPEN : bytes := lit "open".

Definition usage : bytes := lit "usage: <pathname> <oflag>" ++ [CH_NEWLINE].

(** [pathname] and [oflag], or the error. *)
Definition cli_args (argv : list bytes) : option (bytes * Z) :=
  match argv with
  | [a; path; flags] => if streq a CL_OPEN then Some (path, atoi flags) else None
  | _ => None
  end.

(** ** The server *)

(** [errmsg]; the array [client] with descriptors and user IDs; what was
    sent to whom, with a descriptor or without; what was closed; and the
    calls of [handle_request], with the user ID each is given. *)
Record osv := mkOsv { errmsg : bytes; client : list (Z * Z); outbox : list (Z * (bytes * option Z)); oclosed : list Z; olog : list (Z * Z) }.

Definition set_errmsg (m : bytes) (s : osv) : osv := mkOsv m (client s) (outbox s) (oclosed s) (olog s).
Definition set_client (c : list (Z * Z)) (s : osv) : osv := mkOsv (errmsg s) c (outbox s) (oclosed s) (olog s).
Definition send (fd : Z) (bs : bytes) (d : option Z) (s : osv) : osv := mkOsv (errmsg s) (client s) (outbox s ++ [(fd, (bs, d))]) (oclosed s) (olog s).
Definition close (fd : Z) (s : osv) : osv := mkOsv (errmsg s) (client s) (outbox s) (oclosed s ++ [fd]) (olog s).
Definition add_log (fd uid : Z) (s : osv) : osv := mkOsv (errmsg s) (client s) (outbox s) (oclosed s) (olog s ++ [(fd, uid)]).

Abbreviation sp := (Prog osv).

Definition send_fd (fd fd_to_send : Z) : sp Z :=
  if fd_to_send <? 0 then
    let st := wrapu 8 (- fd_to_send) in
    run put (send fd [0; if st =? 0 then 1 else st] None);
    pret 0
  else run put (send fd [0; 0] (Some fd_to_send)); pret 0.

Definition send_err (fd errcode : Z) (msg : bytes) : sp Z :=
  run (if 0 <? zlen msg then put (send fd msg None) else pret tt);
  run send_fd fd (if 0 <=? errcode then -1 else errcode);
  pret 0.

(** [snprintf] into [errmsg] with size MAXLINE-1. *)
Definition snprintf_errmsg (m : bytes) : sp unit := put (set_errmsg (take (Z.to_nat (MAXLINE - 2)) m)).

Definition pad_left (n : Z) (s : bytes) : bytes := replicate (Z.to_nat (n - zlen s)) CH_SPACE ++ s.

Section server.

(** [open] returns a descriptor or an error number. *)
Context (open : bytes -> Z -> Z + Z) (strerror : Z -> bytes).

Definition not_terminated (uid nread : Z) (buf : bytes) : bytes :=
  lit "request from uid " ++ fmt_d (wraps 32 uid) ++ lit " not null terminated: " ++ pad_left nread (cstr (take (Z.to_nat nread) buf)) ++ [CH_NEWLINE].

Definition cant_open (path : bytes) (e : Z) : bytes := lit "can't open " ++ path ++ lit ": " ++ strerror e ++ [CH_NEWLINE].

(** [buf] holds the [nread] bytes that were read. *)
Definition handle_request (buf : bytes) (clifd uid : Z) : sp unit :=
  run put (add_log clifd uid);
  let nread := zlen buf in
  if negb (bool_decide (last buf = Some NUL)) then
    run snprintf_errmsg (not_terminated uid nread buf);
    do m <- get errmsg;
    run send_err clifd (-1) m; pret tt
  else
    match buf_args buf with
    | None => do m <- get errmsg; run send_err clifd (-1) m; pret tt
    | Some argv =>
        match cli_args argv with
        | None =>
            run put (set_errmsg usage);
            do m <- get errmsg;
            run send_err clifd (-1) m; pret tt
        | Some (pathname, oflag) =>
            match open pathname oflag with
            | inr e =>
                run snprintf_errmsg (cant_open pathname e);
                do m <- get errmsg;
                run send_err clifd (-1) m; pret tt
            | inl newfd => run send_fd clifd newfd; put (close newfd)
            end
        end
    end.

(** ** The table of clients *)
Definition NALLOC : Z := 10.

Definition client_alloc : sp unit := put (fun s => set_client (client s ++ replicate (Z.to_nat NALLOC) (-1, 0)) s).

Fixpoint find_entry (l : list (Z * Z)) (fd : Z) (i : nat) : option nat :=
  match l with
  | [] => None
  | (f, _) :: l => if f =? fd then Some i else find_entry l fd (S i)
  end.

(** A second search always succeeds. *)
Definition client_add (fd uid : Z) : sp Z :=
  do c <- get client;
  run (match c with [] => client_alloc | _ => pret tt end);
  do c <- get client;
  match find_entry c (-1) 0 with
  | Some i => run put (fun s => set_client (<[i := (fd, uid)]> (client s)) s); pret (Z.of_nat i)
  | None =>
      run client_alloc;
      do c <- get client;
      match find_entry c (-1) 0 with
      | Some i => run put (fun s => set_client (<[i := (fd, uid)]> (client s)) s); pret (Z.of_nat i)
      | None => die "no entry"
      end
  end.

Definition client_del (fd : Z) : sp unit :=
  do c <- get client;
  match find_entry c fd 0 with
  | Some i => put (fun s => set_client (alter (fun e => (-1, e.2)) i (client s)) s)
  | None => die "can't find client entry"
  end.

(** ** The loop with [poll] *)
Record pollfd := mkPollfd { pf_fd : Z; pf_in : bool; pf_hup : bool }.

Record lp := mkLp { lsv : osv; parr : list pollfd; numfd : Z }.

Definition set_lsv (s : osv) (l : lp) : lp := mkLp s (parr l) (numfd l).
Definition set_parr (a : list pollfd) (l : lp) : lp := mkLp (lsv l) a (numfd l).
Definition set_numfd (n : Z) (l : lp) : lp := mkLp (lsv l) (parr l) n.

Abbreviation lpp := (Prog lp).

Definition on_srv {A} (m : sp A) : lpp A :=
  fun l => match m (lsv l) with Ok a s => Ok a (set_lsv s l) | Abort why s => Abort why (set_lsv s l) end.

Definition grow_pollfd : lpp unit := put (fun l => set_parr (parr l ++ replicate (Z.to_nat NALLOC) (mkPollfd (-1) false false)) l).

(** What [poll] reports for a descriptor, what [read] on it returns
    ([None]: an error), and a connection that is accepted. *)
Context (revents : Z -> bool * bool) (rd : Z -> option bytes).

Definition poll : lpp unit :=
  put (fun l => set_parr (((fun p => mkPollfd (pf_fd p) (revents (pf_fd p)).1 (revents (pf_fd p)).2) <$> take (Z.to_nat (numfd l)) (parr l)) ++ drop (Z.to_nat (numfd l)) (parr l)) l).

Definition accept_poll (acc : option (Z * Z)) : lpp unit :=
  match acc with
  | None => pret tt
  | Some (clifd, uid) =>
      run on_srv (client_add clifd uid);
      do l <- get (fun l => l);
      run (if numfd l =? zlen (parr l) then grow_pollfd else pret tt);
      run put (fun l => set_parr (<[Z.to_nat (numfd l) := mkPollfd clifd false false]> (parr l)) l);
      put (fun l => set_numfd (numfd l + 1) l)
  end.

(** The client at place [i] has gone; the last one takes its place. *)
Definition hungup (i : Z) (e : pollfd) : lpp unit :=
  run on_srv (client_del (pf_fd e));
  run on_srv (put (close (pf_fd e)));
  do l <- get (fun l => l);
  run (if i <? numfd l - 1 then
         match parr l !! Z.to_nat (numfd l - 1) with
         | Some x => put (set_parr (<[Z.to_nat i := x]> (parr l)))
         | None => die "read behind pollfd"
         end
       else pret tt);
  put (set_numfd (numfd l - 1)).

Fixpoint poll_for (fuel : nat) (i : Z) : lpp unit :=
  match fuel with
  | O => die "fuel"
  | S fuel =>
      do l <- get (fun l => l);
      if i <? numfd l then
        match parr l !! Z.to_nat i with
        | None => die "read behind pollfd"
        | Some e =>
            let gone := run hungup i e; poll_for fuel (if i <? numfd l - 1 then i else i + 1) in
            if pf_hup e then gone
            else if pf_in e then
              match rd (pf_fd e) with
              | None => die "read error"
              | Some [] => gone
              | Some buf =>
                  match client (lsv l) !! Z.to_nat i with
                  | None => die "read behind client"
                  | Some (_, uid) => run on_srv (handle_request buf (pf_fd e) uid); poll_for fuel (i + 1)
                  end
              end
            else poll_for fuel (i + 1)
        end
      else pret tt
  end.

(** One round of [loop]; a connection is accepted when [poll] reports the
    first descriptor. *)
Definition poll_round (acc : option (Z * Z)) : lpp unit :=
  run poll;
  run accept_poll acc;
  do n <- get numfd;
  poll_for (Z.to_nat n) 1.

(** Before the loop. *)
Definition poll_start (listenfd : Z) : lpp unit :=
  run on_srv (client_add listenfd 0);
  run put (set_parr (<[0%nat := mkPollfd listenfd false false]> (replicate (Z.to_nat NALLOC) (mkPollfd (-1) false false))));
  put (set_numfd 1).

(** ** The loop with [select] *)
Record ls := mkLs { ssv : osv; allset : gset Z; maxfd : Z; maxi : Z }.

Abbreviation lsp := (Prog ls).

Definition on_ssv {A} (m : sp A) : lsp A :=
  fun l => match m (ssv l) with Ok a s => Ok a (mkLs s (allset l) (maxfd l) (maxi l)) | Abort why s => Abort why (mkLs s (allset l) (maxfd l) (maxi l)) end.

Definition accept_select (clifd uid : Z) : lsp unit :=
  do i <- on_ssv (client_add clifd uid);
  put (fun l => mkLs (ssv l) ({[clifd]} ∪ allset l) (Z.max (maxfd l) clifd) (Z.max (maxi l) i)).

(** [rset] is what [select] has left of [allset]; [n] entries are to be
    looked at. *)
Fixpoint select_for (rset : gset Z) (n : nat) (i : Z) : lsp unit :=
  match n with
  | O => pret tt
  | S n =>
      do c <- get (fun l => client (ssv l));
      match c !! Z.to_nat i with
      | None => die "read behind client"
      | Some (clifd, uid) =>
          if clifd <? 0 then select_for rset n (i + 1)
          else if bool_decide (clifd ∈ rset) then
            match rd clifd with
            | None => die "read error"
            | Some [] =>
                run on_ssv (client_del clifd);
                run put (fun l => mkLs (ssv l) (allset l ∖ {[clifd]}) (maxfd l) (maxi l));
                run on_ssv (put (close clifd));
                select_for rset n (i + 1)
            | Some buf => run on_ssv (handle_request buf clifd uid); select_for rset n (i + 1)
            end
          else select_for rset n (i + 1)
      end
  end.

(** One round; with a connection to accept, nothing else is done. *)
Definition select_round (acc : option (Z * Z)) : lsp unit :=
  match acc with
  | Some (clifd, uid) => accept_select clifd uid
  | None =>
      do l <- get (fun l => l);
      let rset := filter (fun fd => ((revents fd).1 || (revents fd).2) = true) (allset l) in
      select_for rset (Z.to_nat (maxi l + 1)) 0
  end.

Definition select_start (listenfd : Z) (s : osv) : ls := mkLs s {[listenfd]} listenfd (-1).

End server.

(** ** The client *)

(** Where the first null is. *)
Fixpoint find_nul (buf : bytes) : option nat :=
  match buf with [] => None | c :: buf => if c =? 0 then Some O else S <$> find_nul buf end.

Inductive rres := Got (fd : Z) | Lost | Dump (why : string).

(** [pieces] are the results of [recvmsg], with a descriptor or without;
    [userfunc] is given the text, its result tells whether it took it all.
    The second component is the text. *)
Fixpoint recv_fd (userfunc : bytes -> bool) (pieces : list (bytes * option Z)) : rres * bytes :=
  match pieces with
  | [] => (Lost, [])
  | (buf, d) :: pieces =>
      match buf with
      | [] => (Lost, [])
      | _ =>
          let final :=
            match find_nul buf with
            | None => inl None
            | Some j =>
                if negb (Z.of_nat j + 1 =? zlen buf - 1) then inr "message format error"%string
                else
                  let status := default 0 (last buf) in
                  if status =? 0 then match d with None => inr "status = 0 but no fd"%string | Some fd => inl (Some fd) end
                  else inl (Some (- status))
            end in
          match final with
          | inr why => (Dump why, [])
          | inl newfd =>
              let text := match newfd with Some _ => take (length buf - 2) buf | None => buf end in
              if (0 <? zlen text) && negb (userfunc text) then (Lost, text)
              else match newfd with
                   | Some fd => (Got fd, text)
                   | None => let '(r, more) := recv_fd userfunc pieces in (r, text ++ more)
                   end
          end
      end
  end.

(** What [csopen] writes; the string for the flags has room for 12 bytes. *)
Definition csopen_request (name : bytes) (oflag : Z) : option bytes :=
  let buf := CH_SPACE :: fmt_d oflag in
  if 12 <? zlen buf + 1 then None else Some (CL_OPEN ++ [CH_SPACE] ++ name ++ buf ++ [NUL]).
