(* ===== verification/OpenServThms.v ===== *)
(** * Requests and answers of the open server

    A request that [csopen] builds is parsed back, and the answer reaches
    the client however it is cut into pieces; the two loops serve every
    client. *)
From S2P Require Import Prelude CString Posix OpenServ.

Open Scope prog_scope.

(** ** Parsing a request *)
Definition word (w : bytes) : Prop := w <> [] /\ nonul w /\ Forall (fun c => is_white c = false) w.

Lemma upto_white_word w rest : Forall (fun c => is_white c = false) w -> upto_white (w ++ CH_SPACE :: rest) = (w, rest).
Proof. induction 1 as [|c w Hc Hw IH]; [done|]. cbn. by rewrite Hc, IH. Qed.

Lemma upto_white_end w : Forall (fun c => is_white c = false) w -> upto_white w = (w, []).
Proof. induction 1 as [|c w Hc Hw IH]; [done|]. cbn. by rewrite Hc, IH. Qed.

Lemma strtok_word w rest : word w -> strtok (w ++ CH_SPACE :: rest) = Some ([], w, rest).
Proof.
  intros (Hne & _ & Hw). unfold strtok. destruct Hw as [|c w Hc Hw]; [done|]. cbn [app skip_white]. rewrite Hc.
  pose proof (upto_white_word (c :: w) rest ltac:(by constructor)) as Hu. cbn [app] in Hu. by rewrite Hu.
Qed.

Lemma strtok_last w : word w -> strtok w = Some ([], w, []).
Proof.
  intros (Hne & _ & Hw). unfold strtok. destruct Hw as [|c w Hc Hw]; [done|]. cbn [skip_white]. rewrite Hc.
  by rewrite (upto_white_end (c :: w)) by (by constructor).
Qed.

Lemma dec_word n : 0 <= n -> word (dec n).
Proof.
  intros Hn. split; [apply dec_nonempty|]. split; [by apply dec_nonul|]. pose proof (dec_digits n Hn) as Hd. eapply Forall_impl; [exact Hd|].
  intros c Hc. unfold is_white, CH_SPACE, CH_NEWLINE, CH_0 in *. rewrite !eqb_false by lia. done.
Qed.

Lemma open_word : word CL_OPEN.
Proof. split; [done|]. split; [by apply (bool_decide_unpack (nonul CL_OPEN))|]. by apply (bool_decide_unpack (Forall (fun c => is_white c = false) CL_OPEN)). Qed.

Lemma request_args name oflag req :
  word name -> 0 <= oflag < 2 ^ 31 -> csopen_request name oflag = Some req -> last req = Some NUL /\ (do_args ← buf_args req; cli_args do_args) = Some (name, oflag).
Proof.
  intros Hn Ho Hr. unfold csopen_request in Hr. rewrite fmt_d_dec in Hr by lia. destruct (12 <? _); [done|]. apply (inj Some) in Hr. subst req.
  split; [rewrite !app_assoc; by rewrite last_snoc|]. pose proof (dec_word oflag ltac:(lia)) as Hd. pose proof open_word as Hopen.
  assert (cstr (CL_OPEN ++ [CH_SPACE] ++ name ++ (CH_SPACE :: dec oflag) ++ [NUL]) = CL_OPEN ++ CH_SPACE :: name ++ CH_SPACE :: dec oflag) as Hcs.
  { rewrite (app_assoc name), (app_assoc [CH_SPACE]), (app_assoc CL_OPEN). rewrite cstr_app_nul; [done|]. destruct Hn as (_ & Hn & _), Hd as (_ & Hd & _), Hopen as (_ & Hopen & _). unfold nonul in *. rewrite !Forall_app, Forall_cons, !Forall_singleton || rewrite !Forall_app, !Forall_cons. split_and!; done || by constructor. }
  unfold buf_args. rewrite Hcs, strtok_word by done. cbn [app]. rewrite length_app. cbn [length]. rewrite Nat.add_succ_r. cbn [buf_args_loop].
  rewrite strtok_word by done. change (MAXARGC - 1 <=? 0 + 1) with false. cbn iota. destruct (length name + length (dec oflag))%nat as [|k] eqn:Ek.
  { destruct Hn as (Hn & _). destruct name; [done|]. simpl in Ek. lia. }
  cbn [buf_args_loop]. rewrite strtok_last by done. change (MAXARGC - 1 <=? 0 + 1 + 1) with false. cbn iota. destruct k as [|k].
  { destruct Hn as (Hn & _), Hd as (Hd & _). destruct name, (dec oflag); simpl in Ek; done || lia. }
  cbn [buf_args_loop strtok skip_white app mbind option_bind cli_args]. change (streq CL_OPEN CL_OPEN) with true. cbn iota. f_equal. f_equal. unfold atoi. rewrite atol_dec by lia. by apply wraps32_small.
Qed.

(** ** Receiving *)
Lemma find_nul_none t : nonul t -> find_nul t = None.
Proof. induction 1 as [|c t Hc Ht IH]; [done|]. cbn. rewrite eqb_false by done. by rewrite IH. Qed.

Lemma find_nul_some t rest : nonul t -> find_nul (t ++ 0 :: rest) = Some (length t).
Proof. induction 1 as [|c t Hc Ht IH]; [done|]. cbn. rewrite eqb_false by done. by rewrite IH. Qed.

(** The receiver gets the bytes in pieces; the two bytes at the end, which
    are sent with one call, stay together, and the descriptor comes with
    them. *)
Definition delivered (sent pieces : list (bytes * option Z)) : Prop :=
  concat (fst <$> pieces) = concat (fst <$> sent) /\ Forall (fun p => p.1 <> []) pieces /\
  exists init fin, pieces = init ++ [fin] /\ (2 <= length fin.1)%nat /\ fin.2 = (last sent) ≫= snd /\ Forall (fun p => p.2 = None) init.

Lemma recv_text text init t st d fd :
  nonul (concat (fst <$> init) ++ t) -> Forall (fun p => p.1 <> []) init -> text = concat (fst <$> init) ++ t ->
  (if st =? 0 then d = Some fd else fd = - st) ->
  recv_fd (fun _ => true) (init ++ [(t ++ [0; st], d)]) = (Got fd, text).
Proof.
  intros Hn HF -> Hst. induction init as [|[b d'] init IH]; cbn [app recv_fd].
  - destruct (t ++ [0; st]) as [|x l] eqn:E; [by destruct t|]. rewrite <- E. cbn in Hn. rewrite find_nul_some by done. unfold zlen. rewrite length_app. cbn [length].
    replace (Z.of_nat (length t) + 1 =? Z.of_nat (length t + 2) - 1) with true by (symmetry; apply Z.eqb_eq; lia). cbn [negb].
    replace (last (t ++ [0; st])) with (Some st) by (symmetry; change [0; st] with ([0] ++ [st]); by rewrite app_assoc, last_snoc). cbn [default]. replace (length t + 2 - 2)%nat with (length t) by lia. rewrite take_app_length.
    cbn [fmap list_fmap concat app]. unfold id. destruct (st =? 0); [subst d|subst fd]; cbn [negb]; cbn iota; rewrite andb_false_r; done.
  - rewrite fmap_cons in Hn. cbn [concat] in Hn. rewrite <- app_assoc in Hn. apply Forall_app in Hn as [Hb Hn]. apply Forall_cons in HF as [Hne HF]. cbn in Hne, Hb.
    destruct b as [|x b]; [done|]. rewrite find_nul_none by done. rewrite andb_false_r. rewrite IH by done. rewrite fmap_cons. cbn [concat fst]. by rewrite <- app_assoc.
Qed.

Lemma recv_delivered sent pieces text st d fd :
  delivered sent pieces -> concat (fst <$> sent) = text ++ [0; st] -> (last sent) ≫= snd = d -> nonul text -> (if st =? 0 then d = Some fd else fd = - st) ->
  recv_fd (fun _ => true) pieces = (Got fd, text).
Proof.
  intros (Hc & HF & init & [fb fd'] & -> & Hlen & Hd & _) Hs Hl Hn Hst. rewrite Hs in Hc. cbn in Hd, Hlen. rewrite fmap_app, concat_app in Hc. cbn in Hc. rewrite app_nil_r in Hc.
  assert (exists t, fb = t ++ [0; st] /\ text = concat (fst <$> init) ++ t) as (t & -> & ->).
  { exists (take (length fb - 2) fb). pose proof (f_equal length Hc) as Hl2. rewrite !length_app in Hl2. cbn [length] in Hl2.
    rewrite <- (take_drop (length fb - 2) fb) in Hc. rewrite app_assoc in Hc. apply app_inj_2 in Hc as [H1 H2]; [|rewrite length_drop; cbn [length]; lia].
    split; [|done]. rewrite <- H2. by rewrite take_drop. }
  apply Forall_app in HF as [HF _]. rewrite Hl in Hd. subst fd'. by eapply recv_text.
Qed.

(** ** The answer *)
Section answers.
Context (open : bytes -> Z -> Z + Z) (strerror : Z -> bytes).

Lemma send_err_run fd m s : send_err fd (-1) m s = Ok 0 (foldl (fun s x => send fd x.1 x.2 s) s ((if 0 <? zlen m then [(m, None)] else []) ++ [([0; 1], None)])).
Proof. unfold send_err, send_fd. pstep. cbn. by destruct (0 <? zlen m). Qed.

Lemma outbox_sends fd l s : outbox (foldl (fun s x => send fd x.1 x.2 s) s l) = outbox s ++ ((fd,.) <$> l).
Proof.
  revert s. induction l as [|[b d] l IH]; intros s; cbn [foldl]; [by rewrite app_nil_r|]. rewrite IH. cbn. by rewrite <- app_assoc.
Qed.

Lemma sends_rest fd l s : let s' := foldl (fun s x => send fd x.1 x.2 s) s l in client s' = client s /\ oclosed s' = oclosed s /\ olog s' = olog s.
Proof. cbn. revert s. induction l as [|x l IH]; intros s; cbn [foldl]; [done|]. by destruct (IH (send fd x.1 x.2 s)) as (-> & -> & ->). Qed.

(** Every request is answered. *)
Lemma handle_ok buf clifd uid s :
  exists s', handle_request open strerror buf clifd uid s = Ok tt s' /\ client s' = client s /\ olog s' = olog s ++ [(clifd, uid)].
Proof.
  unfold handle_request, snprintf_errmsg. pstep.
  assert (forall s1 : osv, client s1 = client s -> olog s1 = olog s ++ [(clifd, uid)] -> exists s', (do m <- get errmsg; run send_err clifd (-1) m; pret tt) s1 = Ok tt s' /\ client s' = client s /\ olog s' = olog s ++ [(clifd, uid)]) as Herr.
  { intros s1 H1 H2. pstep. rewrite (pbind_ok _ _ _ _ _ (send_err_run clifd (errmsg s1) s1)). eexists. split; [done|].
    destruct (sends_rest clifd ((if 0 <? zlen (errmsg s1) then [(errmsg s1, None)] else []) ++ [([0; 1], None)]) s1) as (-> & _ & ->). done. }
  case_bool_decide; cbn [negb]; [|pstep; by apply Herr]. destruct (buf_args buf) as [argv|]; [|by apply Herr].
  destruct (cli_args argv) as [[path fl]|]; [|pstep; by apply Herr]. destruct (open path fl) as [newfd|e]; [|pstep; by apply Herr].
  unfold send_fd. destruct (newfd <? 0); pstep; by eexists.
Qed.

(** What the client gets for a name and flags. *)
Lemma open_answer name oflag req clifd uid s :
  word name -> 0 <= oflag < 2 ^ 31 -> csopen_request name oflag = Some req -> (forall e, nonul (strerror e)) -> (forall fd, open name oflag = inl fd -> 0 <= fd) ->
  exists s' sent, handle_request open strerror req clifd uid s = Ok tt s' /\ outbox s' = outbox s ++ ((clifd,.) <$> sent) /\
    oclosed s' = oclosed s ++ (match open name oflag with inl fd => [fd] | inr _ => [] end) /\
    forall pieces, delivered sent pieces ->
      recv_fd (fun _ => true) pieces = match open name oflag with inl fd => (Got fd, []) | inr e => (Got (-1), take (Z.to_nat (MAXLINE - 2)) (cant_open strerror name e)) end.
Proof.
  intros Hn Ho Hr Hse Hfd. destruct (request_args name oflag req Hn Ho Hr) as [Hlast Hargs]. apply bind_Some in Hargs as (argv & Hba & Hca).
  unfold handle_request, snprintf_errmsg. pstep. rewrite bool_decide_eq_true_2 by done. cbn [negb]. rewrite Hba, Hca. destruct (open name oflag) as [fd|e] eqn:Eo.
  - unfold send_fd. rewrite ltb_false by (by apply Hfd). pstep. eexists _, [([0; 0], Some fd)]. split; [done|]. split; [done|]. split; [done|].
    intros pieces Hd. eapply (recv_delivered _ _ [] 0 (Some fd) fd Hd); done || by constructor.
  - pstep. set (m := take _ _). set (s1 := set_errmsg _ _).
    assert (nonul m) as Hm.
    { unfold m, nonul. apply Forall_take. unfold cant_open. destruct Hn as (_ & Hn & _). specialize (Hse e). unfold nonul in *. rewrite !Forall_app. split_and!; try done; by apply (bool_decide_unpack (nonul _)) || by repeat constructor. }
    assert (0 < zlen m) as Hpos by (unfold m, cant_open, zlen; rewrite length_take, !length_app; unfold MAXLINE; cbn [length]; lia).
    rewrite (pbind_ok _ _ _ _ _ (send_err_run clifd (errmsg s1) s1)). change (errmsg s1) with m. rewrite ltb_true by done.
    eexists _, ([(m, None)] ++ [([0; 1], None)]). split; [done|]. split; [by rewrite outbox_sends|]. split; [rewrite (proj1 (proj2 (sends_rest clifd _ s1))); by rewrite app_nil_r|].
    intros pieces Hd. by eapply (recv_delivered _ _ m 1 None (-1) Hd).
Qed.

End answers.

(** ** The table of clients *)
Definition cfds (c : list (Z * Z)) : list Z := List.filter (fun x => negb (x =? -1)) (fst <$> c).

Lemma cfds_app a b : cfds (a ++ b) = cfds a ++ cfds b.
Proof. unfold cfds. by rewrite fmap_app, List.filter_app. Qed.

Lemma find_entry_some l fd i j : find_entry l fd i = Some j -> exists l1 u l2, l = l1 ++ (fd, u) :: l2 /\ j = (i + length l1)%nat.
Proof.
  revert i. induction l as [|[f u] l IH]; intros i; cbn; [done|]. destruct (Z.eqb_spec f fd) as [->|].
  - intros [= <-]. exists [], u, l. by rewrite Nat.add_0_r.
  - intros (l1 & v & l2 & -> & ->)%IH. exists ((f, u) :: l1), v, l2. split; [done|]. cbn. lia.
Qed.

Lemma find_entry_none l fd i : find_entry l fd i = None -> fd ∉ fst <$> l.
Proof.
  revert i. induction l as [|[f u] l IH]; intros i; cbn; [intros _; apply not_elem_of_nil|]. destruct (Z.eqb_spec f fd) as [->|]; [done|].
  intros H%IH. rewrite not_elem_of_cons. by split; [congruence|].
Qed.

(** A free place, at once or after the table has grown. *)
Lemma client_add_run fd uid s : fd <> -1 ->
  exists l1 u l2 k, client s ++ replicate k (-1, 0) = l1 ++ (-1, u) :: l2 /\
    client_add fd uid s = Ok (zlen l1) (set_client (l1 ++ (fd, uid) :: l2) s).
Proof.
  intros Hfd. unfold client_add, client_alloc. pstep.
  assert (forall k c', client s ++ replicate k (-1, 0) = c' -> forall i, find_entry c' (-1) 0 = Some i ->
    exists l1 u l2 k, client s ++ replicate k (-1, 0) = l1 ++ (-1, u) :: l2 /\
      (run put (fun s => set_client (<[i := (fd, uid)]> (client s)) s); pret (Z.of_nat i)) (set_client c' s) = Ok (zlen l1) (set_client (l1 ++ (fd, uid) :: l2) s)) as Hfound.
  { intros k c' Hc i Hi. apply find_entry_some in Hi as (l1 & u & l2 & -> & ->). exists l1, u, l2, k. split; [done|]. pstep. cbn [client set_client Nat.add].
    unfold pret. f_equal. rewrite insert_app_r_alt by lia. rewrite Nat.sub_diag. done. }
  assert (set_client (client s) s = s) as Hid by (by destruct s).
  assert (forall c : list (Z * Z), exists i, find_entry (c ++ replicate (Z.to_nat NALLOC) (-1, 0)) (-1) 0 = Some i) as Hgrow.
  { intros c. destruct (find_entry _ _ _) as [i|] eqn:E; [by exists i|]. apply find_entry_none in E. exfalso. apply E. rewrite fmap_app, elem_of_app. right. vm_compute. by left. }
  destruct (client s) as [|x c] eqn:Ec.
  - pstep. cbn [client set_client]. rewrite Ec. destruct (Hgrow []) as [i Hi]. rewrite Hi. apply (Hfound (Z.to_nat NALLOC)); done.
  - rewrite <- Ec in *. pstep. destruct (find_entry (client s) (-1) 0) as [i|] eqn:E.
    + specialize (Hfound O (client s) ltac:(by rewrite app_nil_r) i E). rewrite Hid in Hfound. exact Hfound.
    + pstep. cbn [client set_client]. destruct (Hgrow (client s)) as [i Hi]. rewrite Hi. by apply (Hfound (Z.to_nat NALLOC)).
Qed.

Lemma cfds_grow c k : cfds (c ++ replicate k (-1, 0)) = cfds c.
Proof. rewrite cfds_app. replace (cfds (replicate k (-1, 0))) with (@nil Z); [by rewrite app_nil_r|]. induction k; [done|]. done. Qed.

Lemma cfds_mid l1 fd u l2 : fd <> -1 -> cfds (l1 ++ (fd, u) :: l2) ≡ₚ fd :: cfds (l1 ++ l2).
Proof. intros H. rewrite !cfds_app. unfold cfds at 2. cbn. rewrite eqb_false by done. cbn. by rewrite Permutation_middle. Qed.

Lemma cfds_free l1 u l2 : cfds (l1 ++ (-1, u) :: l2) = cfds (l1 ++ l2).
Proof. by rewrite !cfds_app. Qed.

Lemma client_del_run fd s : fd ∈ cfds (client s) ->
  exists l1 u l2, client s = l1 ++ (fd, u) :: l2 /\ client_del fd s = Ok tt (set_client (l1 ++ (-1, u) :: l2) s) /\ fd <> -1.
Proof.
  intros Hin. unfold cfds in Hin. apply list_elem_of_In, filter_In in Hin as [Hin Hne%negb_true_iff%Z.eqb_neq]. apply list_elem_of_In in Hin.
  unfold client_del. pstep. destruct (find_entry (client s) fd 0) as [i|] eqn:E; [|by apply find_entry_none in E].
  apply find_entry_some in E as (l1 & u & l2 & Ec & ->). exists l1, u, l2. split; [done|]. split; [|done]. unfold put. rewrite Ec. cbn [Nat.add].
  do 2 f_equal. rewrite alter_app_r_alt by lia. by rewrite Nat.sub_diag.
Qed.

Lemma cfds_le c : (length (cfds c) <= length c)%nat.
Proof. unfold cfds. etransitivity; [apply List.filter_length_le|]. by rewrite length_fmap. Qed.

(** ** The loop with [poll] *)
Section polling.
Context (open : bytes -> Z -> Z + Z) (strerror : Z -> bytes) (rd : Z -> option bytes).

(** The client has gone; it has sent a request. *)
Definition gone (e : pollfd) : bool := pf_hup e || (pf_in e && match rd (pf_fd e) with Some [] => true | _ => false end).
Definition served (e : pollfd) : bool := negb (pf_hup e) && pf_in e && match rd (pf_fd e) with Some (_ :: _) => true | _ => false end.
Definition readable (e : pollfd) : Prop := pf_fd e <> -1 /\ (pf_hup e = false -> pf_in e = true -> rd (pf_fd e) <> None).

(** The array is [pre ++ todo ++ ext], the place is the first one of
    [todo]. *)
Definition at_place (l : lp) (pre todo ext : list pollfd) : Prop :=
  parr l = pre ++ todo ++ ext /\ numfd l = zlen pre + zlen todo /\ cfds (client (lsv l)) ≡ₚ pf_fd <$> pre ++ todo /\ Forall readable todo.

Lemma hungup_run l pre e todo ext :
  at_place l pre (e :: todo) ext ->
  exists l' todo' ext', hungup (zlen pre) e l = Ok tt l' /\ at_place l' pre todo' ext' /\ todo' ≡ₚ todo /\ olog (lsv l') = olog (lsv l) /\
    (zlen pre <? numfd l - 1) = negb (bool_decide (todo = [])).
Proof.
  intros (Hp & Hn & Hc & HF). unfold hungup. assert (pf_fd e ∈ cfds (client (lsv l))) as Hin.
  { rewrite Hc, fmap_app, elem_of_app, fmap_cons. right. by left. }
  destruct (client_del_run _ _ Hin) as (l1 & u & l2 & Ec & Ed & Hne). unfold on_srv at 1. unfold pbind at 1. rewrite Ed. set (s1 := set_client _ _).
  unfold on_srv, pbind at 1, put. cbn [lsv set_lsv]. pstep. cbn [numfd set_lsv parr]. rewrite Hp, Hn, zlen_cons.
  assert (cfds (client s1) ≡ₚ pf_fd <$> pre ++ todo) as Hc'.
  { cbn [client set_client s1]. rewrite cfds_free. rewrite Ec, (cfds_mid _ _ _ _ Hne) in Hc. rewrite fmap_app, fmap_cons, <- Permutation_middle, <- fmap_app in Hc. by apply Permutation_cons_inv in Hc. }
  apply Forall_cons in HF as [_ HF].
  destruct todo as [|x m _] using rev_ind.
  - rewrite zlen_nil, ltb_false by lia. pstep. exists (mkLp (close (pf_fd e) s1) (pre ++ [e] ++ ext) (zlen pre + (1 + 0) - 1)), [], (e :: ext). split; [by unfold set_numfd, set_lsv, put; cbn; rewrite ?Hp|].
    split; [split; [done|]; split; [cbn [numfd]; unfold zlen; cbn [length]; lia|done]|]. done.
  - rewrite zlen_app, ltb_true by zl.
    assert ((pre ++ (e :: m ++ [x]) ++ ext) !! Z.to_nat (zlen pre + (1 + (zlen m + zlen [x])) - 1) = Some x) as Hx.
    { rewrite lookup_app_r by (unfold zlen; cbn [length]; lia). replace (Z.to_nat (zlen pre + (1 + (zlen m + zlen [x])) - 1) - length pre)%nat with (S (length m)) by (unfold zlen; cbn [length]; lia).
      cbn. rewrite <- app_assoc. by apply list_lookup_middle. }
    rewrite Hx. pstep. exists (mkLp (close (pf_fd e) s1) (pre ++ (x :: m) ++ (x :: ext)) (zlen pre + (1 + (zlen m + zlen [x])) - 1)), (x :: m), (x :: ext). split.
    + unfold put. f_equal. unfold set_numfd, set_parr, set_lsv. cbn. f_equal. rewrite insert_app_r_alt by (unfold zlen; lia). unfold zlen. rewrite Nat2Z.id, Nat.sub_diag. cbn. by rewrite <- app_assoc.
    + assert (x :: m ≡ₚ m ++ [x]) as Hperm by apply Permutation_cons_append. split; [|split; [done|]; split; [done|by rewrite bool_decide_eq_false_2 by (by destruct m)]].
      split; [done|]. split; [cbn; zl|]. split; [|by rewrite Hperm]. cbn [lsv client close]. by rewrite Hc', Hperm.
Qed.

Abbreviation keep := (fun e => negb (gone e)).

Lemma filter_perm {A} (f : A -> bool) l l' : l ≡ₚ l' -> List.filter f l ≡ₚ List.filter f l'.
Proof. induction 1; cbn; repeat case_match; try done; [by constructor|constructor|by etransitivity]. Qed.

Lemma at_place_client l pre todo ext e : at_place l pre (e :: todo) ext -> is_Some (client (lsv l) !! Z.to_nat (zlen pre)).
Proof.
  intros (_ & _ & Hc & _). apply lookup_lt_is_Some. apply Permutation_length in Hc. pose proof (cfds_le (client (lsv l))). rewrite length_fmap, length_app in Hc. unfold zlen. cbn [length] in Hc. lia.
Qed.

Lemma poll_for_run fuel : forall l pre todo ext,
  at_place l pre todo ext -> (length todo < fuel)%nat ->
  exists l' rest ext' new, poll_for open strerror rd fuel (zlen pre) l = Ok tt l' /\ at_place l' pre rest ext' /\ rest ≡ₚ List.filter keep todo /\
    olog (lsv l') = olog (lsv l) ++ new /\ (fst <$> new) ≡ₚ pf_fd <$> List.filter served todo.
Proof.
  induction fuel as [|fuel IH]; intros l pre todo ext Hat Hf; [lia|]. cbn [poll_for]. pstep. pose proof Hat as (Hp & Hn & Hc & HF).
  destruct todo as [|e todo].
  - rewrite zlen_nil in Hn. rewrite ltb_false by lia. exists l, [], ext, []. split; [done|]. split; [done|]. split; [done|]. by rewrite app_nil_r.
  - rewrite ltb_true by zl. assert (parr l !! Z.to_nat (zlen pre) = Some e) as He by (rewrite Hp; unfold zlen; rewrite Nat2Z.id; by apply list_lookup_middle). rewrite He.
    assert (gone e = true -> exists l' rest ext' new, (run hungup (zlen pre) e; poll_for open strerror rd fuel (if zlen pre <? numfd l - 1 then zlen pre else zlen pre + 1)) l = Ok tt l' /\
      at_place l' pre rest ext' /\ rest ≡ₚ List.filter keep (e :: todo) /\ olog (lsv l') = olog (lsv l) ++ new /\ (fst <$> new) ≡ₚ pf_fd <$> List.filter served (e :: todo)) as Hgone.
    { intros Hg. destruct (hungup_run l pre e todo ext Hat) as (l1 & todo1 & ext1 & E & Hat1 & Hperm & Hlog & Hlt). rewrite (pbind_ok _ _ _ _ _ E), Hlt.
      assert (served e = false) as Hse by (unfold gone, served in *; destruct (pf_hup e), (pf_in e); cbn in *; try done; by destruct (rd (pf_fd e)) as [[]|]).
      cbn [List.filter]. rewrite Hg, Hse. cbn [negb]. case_bool_decide as Hnil; cbn [negb].
      - subst todo. apply Permutation_nil_r in Hperm as ->. destruct fuel as [|fuel]; [cbn in Hf; lia|]. cbn [poll_for]. pstep. pose proof Hat1 as (_ & Hn1 & _). rewrite Hn1, zlen_nil, ltb_false by lia.
        exists l1, [], ext1, []. split; [done|]. split; [done|]. split; [done|]. by rewrite app_nil_r.
      - destruct (IH l1 pre todo1 ext1 Hat1) as (l' & rest & ext' & new & E' & Hat' & Hrest & Hlog' & Hnew); [apply Permutation_length in Hperm; cbn in Hf; lia|].
        exists l', rest, ext', new. split; [done|]. split; [done|]. split; [by rewrite Hrest; apply filter_perm|]. split; [by rewrite Hlog', Hlog|]. rewrite Hnew. by rewrite (filter_perm served _ _ Hperm). }
    assert (forall l1, at_place l1 (pre ++ [e]) todo ext -> forall new0, olog (lsv l1) = olog (lsv l) ++ new0 -> gone e = false -> (fst <$> new0) ≡ₚ pf_fd <$> List.filter served [e] ->
      exists l' rest ext' new, poll_for open strerror rd fuel (zlen pre + 1) l1 = Ok tt l' /\
      at_place l' pre rest ext' /\ rest ≡ₚ List.filter keep (e :: todo) /\ olog (lsv l') = olog (lsv l) ++ new /\ (fst <$> new) ≡ₚ pf_fd <$> List.filter served (e :: todo)) as Hnext.
    { intros l1 Hat1 new0 Hlog Hg Hnew0. destruct (IH l1 (pre ++ [e]) todo ext Hat1) as (l' & rest & ext' & new & E' & Hat' & Hrest & Hlog' & Hnew); [cbn in Hf; lia|].
      replace (zlen pre + 1) with (zlen (pre ++ [e])) by zl. exists l', (e :: rest), ext', (new0 ++ new). split; [done|].
      destruct Hat' as (Hp' & Hn' & Hc' & HF'). split; [|split; [|split]].
      - split; [by rewrite Hp', <- app_assoc|]. split; [rewrite Hn'; zl|]. split; [by rewrite Hc', <- app_assoc|]. constructor; [|done]. by apply Forall_cons in HF as [? _].
      - cbn [List.filter]. rewrite Hg. cbn [negb]. by rewrite Hrest.
      - by rewrite Hlog', Hlog, <- app_assoc.
      - rewrite fmap_app, Hnew0, Hnew. cbn [List.filter]. destruct (served e); done. }
    apply Forall_cons in HF as [Hre HF']. destruct Hre as [_ Hre].
    assert (at_place l (pre ++ [e]) todo ext) as Hat1 by (split; [by rewrite Hp, <- app_assoc|]; split; [rewrite Hn; zl|]; split; [by rewrite Hc, <- app_assoc|done]).
    destruct (pf_hup e) eqn:Eh; [apply Hgone; unfold gone; by rewrite Eh|]. destruct (pf_in e) eqn:Ei.
    + destruct (rd (pf_fd e)) as [[|b0 buf]|] eqn:Er; [apply Hgone; unfold gone; by rewrite Ei, Er, orb_true_r| |by specialize (Hre eq_refl eq_refl)].
      destruct (at_place_client l pre todo ext e Hat) as [[f uid] Hcl]. rewrite Hcl.
      destruct (handle_ok open strerror (b0 :: buf) (pf_fd e) uid (lsv l)) as (s1 & E1 & Hc1 & Hl1).
      erewrite pbind_ok; [|unfold on_srv; rewrite E1; reflexivity]. apply (Hnext (set_lsv s1 l)) with (new0 := [(pf_fd e, uid)]); try done.
      * destruct Hat1 as (A1 & A2 & A3 & A4). split; [done|]. split; [done|]. split; [by cbn [lsv set_lsv]; rewrite Hc1|done].
      * unfold gone. by rewrite Eh, Ei, Er.
      * cbn. unfold served. by rewrite Eh, Ei, Er.
    + apply (Hnext l Hat1 []); [by rewrite app_nil_r|unfold gone; by rewrite Eh, Ei|]. cbn. unfold served. by rewrite Eh, Ei.
Qed.

Context (revents : Z -> bool * bool).

(** The entry of a descriptor after [poll]. *)
Definition ev (fd : Z) : pollfd := mkPollfd fd (revents fd).1 (revents fd).2.

(** The state between two rounds: the listening descriptor is first, the
    table has it and the clients. *)
Definition pl_ok (l : lp) (listenfd : Z) (clients : list Z) : Prop :=
  exists e0 todo ext, parr l = e0 :: todo ++ ext /\ numfd l = 1 + zlen todo /\ pf_fd e0 = listenfd /\ pf_fd <$> todo = clients /\
    cfds (client (lsv l)) ≡ₚ listenfd :: clients /\ Forall (fun fd => fd <> -1) clients.

Lemma filter_ev (f : pollfd -> bool) clients : pf_fd <$> List.filter f (ev <$> clients) = List.filter (fun fd => f (ev fd)) clients.
Proof. induction clients as [|c l IH]; [done|]. cbn. destruct (f (ev c)); cbn; [by rewrite <- IH|done]. Qed.

Lemma poll_run l listenfd clients :
  pl_ok l listenfd clients -> Forall (fun fd => (revents fd).2 = false -> (revents fd).1 = true -> rd fd <> None) clients ->
  exists l' ext, poll revents l = Ok tt l' /\ lsv l' = lsv l /\ at_place l' [ev listenfd] (ev <$> clients) ext.
Proof.
  intros (e0 & todo & ext & Hp & Hn & H0 & Hf & Hc & HF) Hrd. unfold poll. eexists _, ext. split; [done|]. split; [done|]. split; [|split; [|split]]; cbn [parr numfd lsv set_parr].
  - assert (Z.to_nat (numfd l) = S (length todo)) as -> by (rewrite Hn; unfold zlen; lia). rewrite Hp. cbn [take drop]. rewrite take_app_length, drop_app_length. cbn. subst listenfd clients. f_equal. f_equal.
    by rewrite <- list_fmap_compose.
  - rewrite Hn. subst clients. unfold zlen. rewrite !length_fmap. cbn [length]. lia.
  - rewrite Hc. cbn. by rewrite <- list_fmap_compose, list_fmap_id.
  - apply Forall_fmap. apply Forall_forall. intros fd Hin. rewrite Forall_forall in HF, Hrd. split; [by apply HF|]. intros Hh Hi. by apply Hrd.
Qed.

Lemma accept_run l pre todo ext fd uid :
  at_place l pre todo ext -> fd <> -1 ->
  exists l' ext', accept_poll (Some (fd, uid)) l = Ok tt l' /\ at_place l' pre (todo ++ [mkPollfd fd false false]) ext' /\ olog (lsv l') = olog (lsv l).
Proof.
  intros (Hp & Hn & Hc & HF) Hfd. unfold accept_poll. destruct (client_add_run fd uid (lsv l) Hfd) as (l1 & u & l2 & k & Ec & Ea).
  erewrite pbind_ok; [|unfold on_srv; rewrite Ea; reflexivity]. set (s1 := set_client _ _). pstep. cbn [numfd parr set_lsv].
  assert (exists x ext1 l3, (if numfd l =? zlen (parr l) then grow_pollfd else pret tt) (set_lsv s1 l) = Ok tt l3 /\ parr l3 = pre ++ todo ++ x :: ext1 /\ numfd l3 = numfd l /\ lsv l3 = s1) as (x & ext1 & l3 & E3 & P3 & N3 & S3).
  { destruct (Z.eqb_spec (numfd l) (zlen (parr l))) as [He|Hne].
    - exists (mkPollfd (-1) false false), (replicate 9 (mkPollfd (-1) false false)). eexists. split; [done|]. split; [|done]. cbn [parr set_parr set_lsv]. rewrite Hp, Hn in *.
      assert (ext = []) as -> by (apply nil_length_inv; unfold zlen in He; rewrite !length_app in He; lia). by rewrite app_nil_r, <- app_assoc.
    - destruct ext as [|x ext1]; [exfalso; apply Hne; rewrite Hn, Hp, app_nil_r; zl|]. exists x, ext1, (set_lsv s1 l). done. }
  rewrite (pbind_ok _ _ _ _ _ E3). pstep. eexists _, ext1. split; [done|]. split; [|cbn; by rewrite S3]. split; [|split; [|split]]; cbn [parr numfd lsv set_parr set_numfd].
  - rewrite P3, N3, Hn. rewrite app_assoc, insert_app_r_alt by (rewrite length_app; unfold zlen; lia). replace (Z.to_nat (zlen pre + zlen todo) - length (pre ++ todo))%nat with 0%nat by (rewrite length_app; unfold zlen; lia).
    cbn. by rewrite <- !app_assoc.
  - rewrite N3, Hn. zl.
  - rewrite S3. cbn [client set_client s1]. rewrite (cfds_mid _ _ _ _ Hfd). rewrite <- (cfds_free l1 u l2), <- Ec, cfds_grow, Hc. rewrite app_assoc, (fmap_app _ (pre ++ todo)). cbn. apply Permutation_cons_append.
  - apply Forall_app. split; [done|]. by repeat constructor.
Qed.

(** A round of the loop. *)
Lemma poll_round_run l listenfd clients acc :
  pl_ok l listenfd clients -> Forall (fun fd => (revents fd).2 = false -> (revents fd).1 = true -> rd fd <> None) clients ->
  (match acc with Some (fd, _) => fd <> -1 | None => True end) ->
  exists l' clients' new, poll_round open strerror revents rd acc l = Ok tt l' /\ pl_ok l' listenfd clients' /\
    clients' ≡ₚ List.filter (fun fd => negb (gone (ev fd))) clients ++ (match acc with Some (fd, _) => [fd] | None => [] end) /\
    olog (lsv l') = olog (lsv l) ++ new /\ (fst <$> new) ≡ₚ List.filter (fun fd => served (ev fd)) clients.
Proof.
  intros Hok Hrd Hacc. unfold poll_round. destruct (poll_run l listenfd clients Hok Hrd) as (l1 & ext1 & E1 & L1 & Hat1). rewrite (pbind_ok _ _ _ _ _ E1).
  set (new1 := match acc with Some (fd, _) => [mkPollfd fd false false] | None => [] end).
  assert (exists l2 ext2, accept_poll acc l1 = Ok tt l2 /\ at_place l2 [ev listenfd] ((ev <$> clients) ++ new1) ext2 /\ olog (lsv l2) = olog (lsv l)) as (l2 & ext2 & E2 & Hat2 & L2).
  { unfold new1. destruct acc as [[fd uid]|]; [|exists l1, ext1; rewrite app_nil_r, L1; done]. destruct (accept_run l1 _ _ _ fd uid Hat1 Hacc) as (l2 & ext2 & E2 & Hat2 & L2). exists l2, ext2. by rewrite L2, L1. }
  rewrite (pbind_ok _ _ _ _ _ E2). pstep.
  destruct (poll_for_run (Z.to_nat (numfd l2)) l2 [ev listenfd] _ ext2 Hat2) as (l3 & rest & ext3 & new & E3 & Hat3 & Hrest & Hlog & Hnew).
  { destruct Hat2 as (_ & -> & _). unfold zlen. cbn [length]. lia. }
  change (zlen [ev listenfd]) with 1 in E3. rewrite E3. assert (Forall (fun x => gone x = false /\ served x = false) new1) as Hnew1 by (unfold new1; destruct acc as [[fd uid]|]; by repeat constructor).
  assert (List.filter keep new1 = new1 /\ List.filter served new1 = []) as [Hk1 Hs1] by (unfold new1; by destruct acc as [[fd uid]|]).
  rewrite List.filter_app, Hk1 in Hrest. rewrite List.filter_app, Hs1, app_nil_r, filter_ev in Hnew.
  exists l3, (pf_fd <$> rest), new. split; [done|]. destruct Hat3 as (P3 & N3 & C3 & F3). split; [|split; [|split; [by rewrite Hlog, L2|done]]].
  - exists (ev listenfd), rest, ext3. split; [done|]. split; [by rewrite N3|]. split; [done|]. split; [done|]. split; [done|]. apply Forall_fmap. eapply Forall_impl; [exact F3|]. by intros x [? _].
  - rewrite Hrest, fmap_app, filter_ev. unfold new1. by destruct acc as [[fd uid]|].
Qed.

End polling.

(** ** The loop with [select] *)
Section selecting.
Context (open : bytes -> Z -> Z + Z) (strerror : Z -> bytes) (rd : Z -> option bytes).

Lemma find_entry_at pre fd u rest : forall i, fd ∉ fst <$> pre -> find_entry (pre ++ (fd, u) :: rest) fd i = Some (i + length pre)%nat.
Proof.
  induction pre as [|[f v] pre IH]; intros i Hn; cbn; [rewrite Z.eqb_refl; by rewrite Nat.add_0_r|]. rewrite fmap_cons, not_elem_of_cons in Hn. destruct Hn as [H1 H2]. cbn in H1.
  rewrite eqb_false by done. rewrite IH by done. f_equal. lia.
Qed.

(** The client has gone; it has sent a request. *)
Definition sgone (rset : gset Z) (e : Z * Z) : bool := (0 <=? e.1) && bool_decide (e.1 ∈ rset) && match rd e.1 with Some [] => true | _ => false end.
Definition sserved (rset : gset Z) (e : Z * Z) : bool := (0 <=? e.1) && bool_decide (e.1 ∈ rset) && match rd e.1 with Some (_ :: _) => true | _ => false end.

Definition after (rset : gset Z) (e : Z * Z) : Z * Z := if sgone rset e then (-1, e.2) else e.

Definition entry_ok (e : Z * Z) : Prop := -1 <= e.1.

Lemma select_for_run rset : forall todo pre ext l,
  client (ssv l) = pre ++ todo ++ ext -> NoDup (cfds (client (ssv l))) -> Forall (fun e => 0 <= e.1 -> e.1 ∈ rset -> rd e.1 <> None) todo ->
  exists l', select_for open strerror rd rset (length todo) (zlen pre) l = Ok tt l' /\ client (ssv l') = pre ++ (after rset <$> todo) ++ ext /\
    olog (ssv l') = olog (ssv l) ++ List.filter (sserved rset) todo /\
    allset l' = allset l ∖ list_to_set (fst <$> List.filter (sgone rset) todo) /\ maxi l' = maxi l.
Proof.
  induction todo as [|[fd u] todo IH]; intros pre ext l Hc Hnd HF.
  { exists l. cbn. rewrite app_nil_r. split_and!; try done. set_solver. }
  apply Forall_cons in HF as [Hrd HF]. cbn in Hrd. cbn [length select_for]. pstep.
  assert (client (ssv l) !! Z.to_nat (zlen pre) = Some (fd, u)) as Hl by (rewrite Hc; unfold zlen; rewrite Nat2Z.id; by apply list_lookup_middle). rewrite Hl.
  assert (forall l1 x, client (ssv l1) = pre ++ x :: todo ++ ext -> NoDup (cfds (client (ssv l1))) -> x = after rset (fd, u) ->
    olog (ssv l1) = olog (ssv l) ++ List.filter (sserved rset) [(fd, u)] -> allset l1 = allset l ∖ list_to_set (fst <$> List.filter (sgone rset) [(fd, u)]) -> maxi l1 = maxi l ->
    exists l', select_for open strerror rd rset (length todo) (zlen pre + 1) l1 = Ok tt l' /\ client (ssv l') = pre ++ (after rset <$> (fd, u) :: todo) ++ ext /\
    olog (ssv l') = olog (ssv l) ++ List.filter (sserved rset) ((fd, u) :: todo) /\ allset l' = allset l ∖ list_to_set (fst <$> List.filter (sgone rset) ((fd, u) :: todo)) /\ maxi l' = maxi l) as Hnext.
  { intros l1 x Hc1 Hnd1 -> Hlog1 Hall1 Hm1. destruct (IH (pre ++ [after rset (fd, u)]) ext l1) as (l' & E & Hc' & Hlog & Hall & Hm); [by rewrite Hc1, <- app_assoc|done..|].
    replace (zlen pre + 1) with (zlen (pre ++ [after rset (fd, u)])) by zl. exists l'. split; [done|]. split; [by rewrite Hc', <- app_assoc|].
    split; [rewrite Hlog, Hlog1, <- app_assoc; f_equal; cbn; by destruct (sserved rset (fd, u))|]. split; [|congruence]. rewrite Hall, Hall1. cbn. destruct (sgone rset (fd, u)); cbn; set_solver. }
  destruct (Z.ltb_spec fd 0) as [Hneg|Hpos].
  { assert (sgone rset (fd, u) = false /\ sserved rset (fd, u) = false) as [Hg Hs] by (unfold sgone, sserved; cbn; by rewrite leb_false by lia).
    apply (Hnext l (fd, u)); unfold after; rewrite ?Hg; try done; cbn; rewrite ?Hg, ?Hs; [by rewrite app_nil_r|set_solver]. }
  case_bool_decide as Hin.
  - destruct (rd fd) as [[|b0 buf]|] eqn:Er; [| |by apply Hrd in Hpos].
    + assert (sgone rset (fd, u) = true /\ sserved rset (fd, u) = false) as [Hg Hs] by (unfold sgone, sserved; cbn; by rewrite leb_true, bool_decide_eq_true_2, Er by done).
      assert (fd ∉ fst <$> pre) as Hnin.
      { rewrite Hc, cfds_app in Hnd. unfold cfds in Hnd. cbn in Hnd. rewrite eqb_false in Hnd by lia. cbn in Hnd. apply NoDup_app in Hnd as (_ & Hd & _). intros Hx. apply (Hd fd); [|by left].
        apply list_elem_of_In, filter_In. split; [by apply list_elem_of_In|]. by rewrite eqb_false by lia. }
      assert (client_del fd (ssv l) = Ok tt (set_client (pre ++ (-1, u) :: todo ++ ext) (ssv l))) as Ed.
      { unfold client_del. pstep. rewrite Hc. cbn [app]. rewrite find_entry_at by done. unfold put. rewrite Hc. cbn [Nat.add]. do 2 f_equal. rewrite alter_app_r_alt by lia. by rewrite Nat.sub_diag. }
      erewrite pbind_ok; [|unfold on_ssv; rewrite Ed; reflexivity]. pstep. unfold on_ssv at 1. unfold pbind at 1. cbn [put ssv allset maxfd maxi].
      apply (Hnext _ (-1, u)); try done; unfold after; rewrite ?Hg; try done.
      * cbn [ssv client close set_client]. rewrite Hc in Hnd. cbn [app] in Hnd. rewrite (cfds_mid pre fd u (todo ++ ext)) in Hnd by lia. rewrite cfds_free. by apply NoDup_cons in Hnd as [_ ?].
      * cbn. rewrite Hs. by rewrite app_nil_r.
      * cbn. rewrite Hg. cbn. set_solver.
    + assert (sgone rset (fd, u) = false /\ sserved rset (fd, u) = true) as [Hg Hs] by (unfold sgone, sserved; cbn; by rewrite leb_true, bool_decide_eq_true_2, Er by done).
      destruct (handle_ok open strerror (b0 :: buf) fd u (ssv l)) as (s1 & E1 & Hc1 & Hl1).
      erewrite pbind_ok; [|unfold on_ssv; rewrite E1; reflexivity]. apply (Hnext _ (fd, u)); cbn [ssv allset maxi]; try done; unfold after; rewrite ?Hg; try done.
      * by rewrite Hc1, Hc.
      * by rewrite Hc1.
      * cbn. by rewrite Hs.
      * cbn. rewrite Hg. set_solver.
  - assert (sgone rset (fd, u) = false /\ sserved rset (fd, u) = false) as [Hg Hs] by (unfold sgone, sserved; cbn; by rewrite (bool_decide_eq_false_2 _ Hin), andb_false_r).
    apply (Hnext l (fd, u)); unfold after; rewrite ?Hg; try done; cbn; rewrite ?Hg, ?Hs; [by rewrite app_nil_r|set_solver].
Qed.

Context (revents : Z -> bool * bool).

Definition ready (fd : Z) : bool := (revents fd).1 || (revents fd).2.

(** The state between two rounds. *)
Record sl_ok (l : ls) (listenfd : Z) : Prop := mkSlOk {
  sl_nodup : NoDup (cfds (client (ssv l)));
  sl_fds : Forall entry_ok (client (ssv l));
  sl_all : allset l = {[listenfd]} ∪ list_to_set (cfds (client (ssv l)));
  sl_listen : listenfd ∉ cfds (client (ssv l));
  sl_maxi : -1 <= maxi l < zlen (client (ssv l)) \/ maxi l = -1;
  sl_beyond : cfds (drop (Z.to_nat (maxi l + 1)) (client (ssv l))) = []
}.

Lemma cfds_elem c fd : fd ∈ cfds c <-> fd ∈ fst <$> c /\ fd <> -1.
Proof. unfold cfds. rewrite list_elem_of_In, filter_In, negb_true_iff, Z.eqb_neq, list_elem_of_In. done. Qed.

Lemma filter_ext_elem {A} (f g : A -> bool) l : (forall x, x ∈ l -> f x = g x) -> List.filter f l = List.filter g l.
Proof. intros H. apply List.filter_ext_in. intros x Hx. apply H. by apply list_elem_of_In. Qed.

Lemma cfds_after rset c : cfds (after rset <$> c) = List.filter (fun fd => negb ((0 <=? fd) && bool_decide (fd ∈ rset) && match rd fd with Some [] => true | _ => false end)) (cfds c).
Proof.
  induction c as [|[fd u] c IH]; [done|]. rewrite fmap_cons. unfold cfds in *. cbn [fmap list_fmap List.filter fst].
  set (g := (0 <=? fd) && bool_decide (fd ∈ rset) && match rd fd with Some [] => true | _ => false end).
  change (after rset (fd, u)) with (if g then (-1, u) else (fd, u)). destruct (Z.eqb_spec fd (-1)) as [E|Hne]; cbn [negb].
  - unfold g. rewrite E. exact IH.
  - cbn [List.filter]. fold g. destruct g; cbn [negb fst]; [exact IH|]. rewrite eqb_false by done. cbn [negb]. f_equal. exact IH.
Qed.

(** The entries in use. *)
Definition lives (c : list (Z * Z)) : list (Z * Z) := List.filter (fun e => negb (e.1 =? -1)) c.

Lemma lives_app a b : lives (a ++ b) = lives a ++ lives b.
Proof. apply List.filter_app. Qed.

Lemma cfds_lives c : cfds c = fst <$> lives c.
Proof. unfold cfds, lives. induction c as [|[f u] c IH]; [done|]. cbn. destruct (f =? -1); cbn; [done|]. by rewrite <- IH. Qed.

Lemma lives_after rset c : lives (after rset <$> c) = List.filter (fun e => negb (sgone rset e)) (lives c).
Proof.
  induction c as [|e c IH]; [done|]. rewrite fmap_cons. change (e :: c) with ([e] ++ c). change (after rset e :: (after rset <$> c)) with ([after rset e] ++ (after rset <$> c)).
  rewrite !lives_app, List.filter_app, IH. f_equal. unfold lives, after. cbn. destruct (sgone rset e) eqn:Eg; cbn.
  - destruct (e.1 =? -1); cbn; [done|]. by rewrite Eg.
  - destruct (e.1 =? -1); cbn; [done|]. by rewrite Eg.
Qed.

Lemma cfds_nil_filter c (f : Z * Z -> bool) : cfds c = [] -> (forall u, f (-1, u) = false) -> List.filter f c = [].
Proof.
  intros Hc Hf. induction c as [|[fd u] c IH]; [done|]. unfold cfds in *. cbn in Hc |- *. destruct (Z.eqb_spec fd (-1)) as [->|]; cbn in Hc; [|done]. rewrite Hf. by apply IH.
Qed.

(** A round without a connection to accept. *)
Lemma select_round_run l listenfd :
  sl_ok l listenfd -> Forall (fun fd => ready fd = true -> rd fd <> None) (cfds (client (ssv l))) ->
  let served e := (0 <=? e.1) && ready e.1 && match rd e.1 with Some (_ :: _) => true | _ => false end in
  let gone fd := ready fd && match rd fd with Some [] => true | _ => false end in
  exists l', select_round open strerror revents rd None l = Ok tt l' /\ sl_ok l' listenfd /\
    olog (ssv l') = olog (ssv l) ++ List.filter served (client (ssv l)) /\
    lives (client (ssv l')) = List.filter (fun e => negb (gone e.1)) (lives (client (ssv l))).
Proof.
  intros [H1 H2 H3 H4 H5 H6] Hrd served gone. unfold select_round. pstep. set (rset := filter _ _). set (c := client (ssv l)) in *. set (k := Z.to_nat (maxi l + 1)) in *.
  assert (length (take k c) = k) as Hk by (rewrite length_take; unfold k, zlen in *; lia).
  assert (forall fd, fd ∈ cfds c -> bool_decide (fd ∈ rset) = ready fd) as Hrset.
  { intros fd Hin. unfold rset. destruct (ready fd) eqn:E; [apply bool_decide_eq_true_2; apply elem_of_filter; split; [done|]; rewrite H3; set_solver|].
    apply bool_decide_eq_false_2. intros Hx. apply elem_of_filter in Hx as [Hx _]. unfold ready in E. congruence. }
  assert (forall e, e ∈ c -> 0 <= e.1 -> e.1 ∈ cfds c) as Hcf by (intros e He H0; apply cfds_elem; split; [by apply list_elem_of_fmap_2|lia]).
  destruct (select_for_run rset (take k c) [] (drop k c) l) as (l' & E & Hc' & Hlog & Hall & Hm).
  { by rewrite app_nil_l, take_drop. }
  { done. }
  { apply Forall_forall. intros e He H0 Hin. assert (e ∈ c) as Hec by (rewrite <- (take_drop k c); apply elem_of_app; by left). rewrite Forall_forall in Hrd. apply Hrd; [by apply Hcf|].
    rewrite <- Hrset by (by apply Hcf). by apply bool_decide_eq_true_2. }
  rewrite Hk in E. change (zlen []) with 0 in E. exists l'. split; [done|]. cbn [app] in Hc'.
  assert (forall fd, fd ∈ cfds c -> negb ((0 <=? fd) && bool_decide (fd ∈ rset) && match rd fd with Some [] => true | _ => false end) = negb (gone fd)) as Hgone.
  { intros fd Hin. rewrite Hrset by done. apply cfds_elem in Hin as [(e & -> & He)%list_elem_of_fmap Hne]. rewrite Forall_forall in H2. specialize (H2 e He). unfold entry_ok in H2. by rewrite leb_true by lia. }
  assert (cfds (client (ssv l')) = List.filter (fun fd => negb (gone fd)) (cfds c)) as Hcf'.
  { rewrite Hc', cfds_app, cfds_after, H6, app_nil_r. rewrite <- (take_drop k c) at 2. rewrite cfds_app, H6, app_nil_r. apply filter_ext_elem. intros fd Hin. apply Hgone. rewrite <- (take_drop k c), cfds_app. apply elem_of_app. by left. }
  assert (forall fd, fd ∈ cfds (client (ssv l')) <-> fd ∈ cfds c /\ gone fd = false) as Hel by (intros fd; rewrite Hcf', list_elem_of_In, filter_In, negb_true_iff, list_elem_of_In; done).
  split; [|split].
  - constructor.
    + rewrite Hcf'. apply NoDup_ListNoDup, List.NoDup_filter, NoDup_ListNoDup. done.
    + rewrite Hc'. apply Forall_app. split; [|by apply Forall_drop]. apply Forall_fmap. apply Forall_forall. intros e He. unfold compose, after. destruct (sgone rset e); [done|]. rewrite Forall_forall in H2. apply H2. rewrite <- (take_drop k c). apply elem_of_app. by left.
    + rewrite Hall, H3. apply set_eq. intros fd. rewrite elem_of_difference, elem_of_union, elem_of_union, elem_of_singleton, !elem_of_list_to_set, Hel, list_elem_of_fmap.
      assert (forall e, e ∈ List.filter (sgone rset) (take k c) <-> e ∈ take k c /\ sgone rset e = true) as Hfe by (intros e; rewrite list_elem_of_In, filter_In, list_elem_of_In; done).
      split.
      * intros [[->|Hin] Hno]; [by left|]. right. split; [done|]. apply not_true_iff_false. intros Hg. apply Hno. pose proof Hin as Hin'. apply cfds_elem in Hin as [(e & -> & He)%list_elem_of_fmap Hne].
        assert (e ∈ take k c) as Het.
        { rewrite <- (take_drop k c) in He. apply elem_of_app in He as [?|He]; [done|]. exfalso. assert (e.1 ∈ cfds (drop k c)) as Hx by (apply cfds_elem; split; [by apply list_elem_of_fmap_2|done]). rewrite H6 in Hx. by apply not_elem_of_nil in Hx. }
        exists e. split; [done|]. apply Hfe. split; [done|]. specialize (Hgone e.1 Hin'). rewrite Hg in Hgone. unfold sgone. by apply negb_false_iff in Hgone.
      * assert (forall e, e ∈ List.filter (sgone rset) (take k c) -> e.1 ∈ cfds c /\ gone e.1 = true) as Hge.
        { intros e [He Hs]%Hfe. assert (e ∈ c) as Hec by (rewrite <- (take_drop k c); apply elem_of_app; by left). unfold sgone in Hs. pose proof Hs as Hs0. rewrite !andb_true_iff in Hs. destruct Hs as [[H0 _] _]. apply Z.leb_le in H0.
          split; [by apply Hcf|]. specialize (Hgone e.1 (Hcf e Hec H0)). rewrite Hs0 in Hgone. cbn in Hgone. symmetry in Hgone. by apply negb_false_iff in Hgone. }
        intros [->|[Hin Hg]].
        -- split; [by left|]. intros (e & -> & He). apply Hge in He as [He _]. done.
        -- split; [by right|]. intros (e & -> & He). apply Hge in He as [_ He]. congruence.
    + rewrite Hel. tauto.
    + rewrite Hm, Hc'. unfold zlen in *. rewrite length_app, length_fmap, length_take, length_drop. lia.
    + rewrite Hm, Hc'. fold k. replace k with (length (after rset <$> take k c)) at 1 by (by rewrite length_fmap). by rewrite drop_app_length.
  - rewrite Hlog. f_equal. rewrite <- (take_drop k c) at 2. rewrite List.filter_app. replace (List.filter served (drop k c)) with (@nil (Z * Z)).
    + rewrite app_nil_r. apply filter_ext_elem. intros e He. unfold sserved, served. destruct (Z.leb_spec 0 e.1) as [H0|]; [|done]. cbn [andb]. rewrite Hrset; [done|]. apply Hcf; [|done]. rewrite <- (take_drop k c). apply elem_of_app. by left.
    + symmetry. by apply cfds_nil_filter.
  - rewrite Hc', lives_app, lives_after. rewrite cfds_lives in H6. apply fmap_nil_inv in H6. rewrite H6, app_nil_r. rewrite <- (take_drop k c) at 2. rewrite lives_app, H6, app_nil_r.
    apply filter_ext_elem. intros e He. specialize (Hgone e.1). unfold sgone. apply Hgone. rewrite <- (take_drop k c), cfds_app, (cfds_lives (take k c)). apply elem_of_app. left. by apply list_elem_of_fmap_2.
Qed.

(** A round with a connection to accept. *)
Lemma select_accept_run l listenfd fd uid :
  sl_ok l listenfd -> 0 <= fd -> fd ∉ cfds (client (ssv l)) -> fd <> listenfd ->
  exists l', select_round open strerror revents rd (Some (fd, uid)) l = Ok tt l' /\ sl_ok l' listenfd /\
    olog (ssv l') = olog (ssv l) /\ lives (client (ssv l')) ≡ₚ (fd, uid) :: lives (client (ssv l)).
Proof.
  intros [H1 H2 H3 H4 H5 H6] H0 Hnin Hne. unfold select_round, accept_select. destruct (client_add_run fd uid (ssv l) ltac:(lia)) as (l1 & u & l2 & k & Ec & Ea).
  erewrite pbind_ok; [|unfold on_ssv; rewrite Ea; reflexivity]. eexists. split; [done|]. cbn [ssv allset maxfd maxi].
  assert (cfds (l1 ++ (fd, uid) :: l2) ≡ₚ fd :: cfds (client (ssv l))) as Hperm by (rewrite cfds_mid by lia; rewrite <- (cfds_free l1 u l2), <- Ec; by rewrite cfds_grow).
  split; [|split; [done|]].
  2: { cbn [client set_client]. apply (f_equal lives) in Ec. rewrite !lives_app in Ec. rewrite lives_app. rewrite (lives_app [(fd, uid)] l2 : lives ((fd, uid) :: l2) = _). change (lives ((-1, u) :: l2)) with (lives l2) in Ec.
       replace (lives (replicate k (-1, 0))) with (@nil (Z * Z)) in Ec by (clear; induction k; done). rewrite app_nil_r in Ec. rewrite Ec.
       replace (lives [(fd, uid)]) with [(fd, uid)] by (unfold lives; cbn; by rewrite eqb_false by lia). cbn [app]. by rewrite Permutation_middle. }
  constructor; cbn [ssv client set_client allset maxi].
  - rewrite Hperm. by constructor.
  - assert (Forall entry_ok (l1 ++ (-1, u) :: l2)) as HF by (rewrite <- Ec; apply Forall_app; split; [done|]; by apply Forall_replicate).
    apply Forall_app in HF as [HF1 HF2]. apply Forall_cons in HF2 as [_ HF2]. apply Forall_app. split; [done|]. constructor; [unfold entry_ok; cbn; lia|done].
  - rewrite H3. apply set_eq. intros x. rewrite !elem_of_union, !elem_of_singleton, !elem_of_list_to_set, Hperm, elem_of_cons. tauto.
  - rewrite Hperm, not_elem_of_cons. by split.
  - left. pose proof (f_equal length Ec) as Hlen. rewrite !length_app, length_replicate in Hlen. unfold zlen in *. rewrite length_app. cbn [length] in *. lia.
  - set (m := Z.to_nat (Z.max (maxi l) (zlen l1) + 1)). assert (S (length l1) <= m)%nat as Hm by (unfold m, zlen; lia).
    rewrite drop_app_ge by lia. replace (m - length l1)%nat with (S (m - S (length l1))) by lia. cbn [drop].
    assert (cfds (drop m (client (ssv l) ++ replicate k (-1, 0))) = []) as Hd.
    { rewrite drop_app, cfds_app. assert (cfds (drop m (client (ssv l))) = []) as ->.
      { replace m with (Z.to_nat (maxi l + 1) + (m - Z.to_nat (maxi l + 1)))%nat by (unfold m; lia). rewrite <- drop_drop. set (d := drop (Z.to_nat (maxi l + 1)) (client (ssv l))) in *. clearbody d.
        rewrite <- (take_drop (m - Z.to_nat (maxi l + 1)) d), cfds_app in H6. by apply app_eq_nil in H6 as [_ ?]. }
      cbn. rewrite drop_replicate. apply (cfds_grow []). }
    rewrite Ec, drop_app_ge in Hd by lia. replace (m - length l1)%nat with (S (m - S (length l1))) in Hd by lia. exact Hd.
Qed.

End selecting.

(** ** Any number of rounds *)

(** What a round meets: the events, what [read] gives, and a connection. *)
Record round := mkRound { rv : Z -> bool * bool; rrd : Z -> option bytes; racc : option (Z * Z) }.

(** What the clients expect of a server: the clients are those that were
    accepted and have not gone, and whoever has sent a request is served. *)
Section rounds_spec.
Context (gone served : round -> Z -> bool).

Definition spec_clients (r : round) (cs : list (Z * Z)) : list (Z * Z) := List.filter (fun e => negb (gone r e.1)) cs ++ option_list (racc r).

Fixpoint spec_rounds (cs : list (Z * Z)) (rs : list round) : list (Z * Z) * list (Z * Z) :=
  match rs with
  | [] => (cs, [])
  | r :: rs => let '(c, s) := spec_rounds (spec_clients r cs) rs in (c, List.filter (fun e => served r e.1) cs ++ s)
  end.

(** No error of [read], and a new descriptor for a connection. *)
Definition round_ok (listenfd : Z) (cs : list (Z * Z)) (r : round) : bool :=
  forallb (fun e => negb ((rv r e.1).1 || (rv r e.1).2) || bool_decide (is_Some (rrd r e.1))) cs &&
  match racc r with Some (fd, _) => (0 <=? fd) && bool_decide (fd ∉ fst <$> cs) && negb (fd =? listenfd) | None => true end.

Fixpoint rounds_ok (listenfd : Z) (cs : list (Z * Z)) (rs : list round) : bool :=
  match rs with [] => true | r :: rs => round_ok listenfd cs r && rounds_ok listenfd (spec_clients r cs) rs end.

Lemma round_ok_elim listenfd cs r : round_ok listenfd cs r = true ->
  Forall (fun e => ready (rv r) e.1 = true -> rrd r e.1 <> None) cs /\
  forall fd uid, racc r = Some (fd, uid) -> 0 <= fd /\ (fd ∉ fst <$> cs) /\ fd <> listenfd.
Proof.
  unfold round_ok. rewrite andb_true_iff. intros [H1 H2]. split.
  - apply Forall_forall. intros e He Hev. rewrite List.forallb_forall in H1. specialize (H1 e (proj1 (list_elem_of_In _ _) He)). unfold ready in Hev. rewrite Hev in H1. cbn in H1.
    apply bool_decide_eq_true in H1. destruct H1 as [x ->]. done.
  - intros fd uid E. rewrite E, !andb_true_iff in H2. destruct H2 as [[H0 Hn] Hl]. apply bool_decide_eq_true in Hn. apply negb_true_iff, Z.eqb_neq in Hl. apply Z.leb_le in H0. done.
Qed.

End rounds_spec.

Lemma filter_fst (f : Z -> bool) (l : list (Z * Z)) : fst <$> List.filter (fun e => f e.1) l = List.filter f (fst <$> l).
Proof. induction l as [|e l IH]; [done|]. cbn. destruct (f e.1); cbn; by rewrite <- IH. Qed.

Lemma filter_lives (f : Z -> bool) c : Forall entry_ok c -> List.filter (fun e => (0 <=? e.1) && f e.1) c = List.filter (fun e => f e.1) (lives c).
Proof.
  unfold lives, entry_ok. induction 1 as [|e c He Hc IH]; [done|]. cbn. destruct (Z.eqb_spec e.1 (-1)) as [->|Hne]; cbn; [done|]. rewrite leb_true by lia. cbn. by rewrite IH.
Qed.

(** [poll] tells of the end of a connection by itself; [select] only that
    [read] does not block, and it does nothing else when it accepts. *)
Definition poll_gone (r : round) (fd : Z) : bool := (rv r fd).2 || ((rv r fd).1 && match rrd r fd with Some [] => true | _ => false end).
Definition poll_served (r : round) (fd : Z) : bool := negb (rv r fd).2 && (rv r fd).1 && match rrd r fd with Some (_ :: _) => true | _ => false end.
Definition select_looks (r : round) (fd : Z) : bool := match racc r with None => ready (rv r) fd | Some _ => false end.
Definition select_gone (r : round) (fd : Z) : bool := select_looks r fd && match rrd r fd with Some [] => true | _ => false end.
Definition select_served (r : round) (fd : Z) : bool := select_looks r fd && match rrd r fd with Some (_ :: _) => true | _ => false end.

Section loops.
Context (open : bytes -> Z -> Z + Z) (strerror : Z -> bytes) (listenfd : Z).

Fixpoint poll_rounds (rs : list round) : Prog lp unit :=
  match rs with [] => pret tt | r :: rs => run poll_round open strerror (rv r) (rrd r) (racc r); poll_rounds rs end.

Fixpoint select_rounds (rs : list round) : Prog ls unit :=
  match rs with [] => pret tt | r :: rs => run select_round open strerror (rv r) (rrd r) (racc r); select_rounds rs end.

Lemma poll_rounds_run rs : forall l cs fds,
  pl_ok l listenfd fds -> fds ≡ₚ fst <$> cs -> rounds_ok poll_gone listenfd cs rs = true ->
  exists l' fds', poll_rounds rs l = Ok tt l' /\ pl_ok l' listenfd fds' /\ fds' ≡ₚ fst <$> (spec_rounds poll_gone poll_served cs rs).1 /\
    fst <$> olog (lsv l') ≡ₚ (fst <$> olog (lsv l)) ++ (fst <$> (spec_rounds poll_gone poll_served cs rs).2).
Proof.
  induction rs as [|r rs IH]; intros l cs fds Hok Hp Hr; cbn [rounds_ok poll_rounds spec_rounds] in *.
  { exists l, fds. cbn. by rewrite app_nil_r. }
  apply andb_true_iff in Hr as [Hr Hrs]. apply round_ok_elim in Hr as [Hrd Hacc].
  destruct (poll_round_run open strerror (rrd r) (rv r) l listenfd fds (racc r) Hok) as (l1 & fds1 & new & E & Hok1 & Hf & Hlog & Hnew).
  { rewrite Hp. apply Forall_fmap. eapply Forall_impl; [exact Hrd|]. intros e He _ Hin. apply He. unfold ready. by rewrite Hin. }
  { destruct (racc r) as [[fd uid]|]; [|done]. destruct (Hacc fd uid eq_refl). lia. }
  rewrite (pbind_ok _ _ _ _ _ E). destruct (IH l1 (spec_clients poll_gone r cs) fds1 Hok1) as (l' & fds' & E' & Hok' & Hf' & Hlog'); [|done|].
  - rewrite Hf. unfold spec_clients. rewrite fmap_app, (filter_fst (fun fd => negb (poll_gone r fd))), (filter_perm _ _ _ Hp). apply Permutation_app; [done|]. by destruct (racc r) as [[fd uid]|].
  - exists l', fds'. destruct (spec_rounds _ _ (spec_clients poll_gone r cs) rs) as [c s]. cbn in *. split; [done|]. split; [done|]. split; [done|].
    rewrite Hlog', Hlog, fmap_app, Hnew, fmap_app, (filter_fst (poll_served r)), (filter_perm _ _ _ Hp). by rewrite <- app_assoc.
Qed.

Lemma select_rounds_run rs : forall l cs,
  sl_ok l listenfd -> lives (client (ssv l)) ≡ₚ cs -> rounds_ok select_gone listenfd cs rs = true ->
  exists l', select_rounds rs l = Ok tt l' /\ sl_ok l' listenfd /\ lives (client (ssv l')) ≡ₚ (spec_rounds select_gone select_served cs rs).1 /\
    olog (ssv l') ≡ₚ olog (ssv l) ++ (spec_rounds select_gone select_served cs rs).2.
Proof.
  induction rs as [|r rs IH]; intros l cs Hok Hp Hr; cbn [rounds_ok select_rounds spec_rounds] in *.
  { exists l. cbn. by rewrite app_nil_r. }
  apply andb_true_iff in Hr as [Hr Hrs]. apply round_ok_elim in Hr as [Hrd Hacc].
  assert (exists l1, select_round open strerror (rv r) (rrd r) (racc r) l = Ok tt l1 /\ sl_ok l1 listenfd /\ lives (client (ssv l1)) ≡ₚ spec_clients select_gone r cs /\
    olog (ssv l1) ≡ₚ olog (ssv l) ++ List.filter (fun e => select_served r e.1) cs) as (l1 & E & Hok1 & Hp1 & Hlog1).
  { unfold spec_clients, select_gone, select_served, select_looks. destruct (racc r) as [[fd uid]|] eqn:Ea.
    - destruct (Hacc fd uid eq_refl) as (H0 & Hn & Hl). destruct (select_accept_run open strerror (rrd r) (rv r) l listenfd fd uid Hok H0) as (l1 & E & Hok1 & Hlog & Hperm); [by rewrite cfds_lives, Hp|done|].
      exists l1. split; [done|]. split; [done|]. cbn. rewrite Hperm, Hlog, Hp. replace (List.filter (fun _ => true) cs) with cs by (clear; induction cs; cbn; congruence).
      replace (List.filter (fun _ => false) cs) with (@nil (Z * Z)) by (clear; induction cs; done). rewrite app_nil_r. split; [apply Permutation_cons_append|done].
    - destruct (select_round_run open strerror (rrd r) (rv r) l listenfd Hok) as (l1 & E & Hok1 & Hlog & Hl1).
      { rewrite cfds_lives. apply Forall_fmap. rewrite Hp. exact Hrd. }
      exists l1. split; [done|]. split; [done|]. cbn. rewrite app_nil_r, Hl1. split; [by apply filter_perm|]. rewrite Hlog. apply Permutation_app; [done|].
      rewrite <- (filter_perm _ _ _ Hp). rewrite <- (filter_lives (fun fd => ready (rv r) fd && match rrd r fd with Some (_ :: _) => true | _ => false end)) by apply Hok.
      erewrite List.filter_ext; [done|]. intros e. cbn. by rewrite andb_assoc. }
  rewrite (pbind_ok _ _ _ _ _ E). destruct (IH l1 (spec_clients select_gone r cs) Hok1 Hp1 Hrs) as (l' & E' & Hok' & Hp' & Hlog'). exists l'.
  destruct (spec_rounds _ _ (spec_clients select_gone r cs) rs) as [c s]. cbn in *. split; [done|]. split; [done|]. split; [done|]. rewrite Hlog', Hlog1. by rewrite <- app_assoc.
Qed.

End loops.

Lemma poll_start_run listenfd m : 0 <= listenfd ->
  exists l, poll_start listenfd (mkLp (mkOsv m [] [] [] []) [] 0) = Ok tt l /\ pl_ok l listenfd [] /\ olog (lsv l) = [].
Proof.
  intros H. eexists. split; [done|]. split; [|done]. exists (mkPollfd listenfd false false), [], (replicate 9 (mkPollfd (-1) false false)).
  split; [done|]. split; [done|]. split; [done|]. split; [done|]. split; [|done]. change (cfds ([] ++ (listenfd, 0) :: replicate 9 (-1, 0)) ≡ₚ [listenfd]). rewrite cfds_mid by lia. done.
Qed.

Lemma select_start_ok listenfd m : sl_ok (select_start listenfd (mkOsv m [] [] [] [])) listenfd.
Proof. constructor; cbn; try done; try constructor; try set_solver. Qed.

(** C31: For a name without white space and flags that are not negative,
    what [csopen] writes is handled by [handle_request] so that [recv_fd],
    however the answer is cut in front of its last two bytes, returns the
    descriptor that the server's [open] has given, without text, or -1 with
    the message of the error; the server has closed its own copy.  The
    request comes to [handle_request] whole: the loops read at most [MAXLINE]
    bytes at a time. *)
Theorem open_server_answers open strerror name oflag req clifd uid s :
  word name -> 0 <= oflag < 2 ^ 31 -> csopen_request name oflag = Some req -> (forall e, nonul (strerror e)) -> (forall fd, open name oflag = inl fd -> 0 <= fd) ->
  exists s' sent, handle_request open strerror req clifd uid s = Ok tt s' /\ outbox s' = outbox s ++ ((clifd,.) <$> sent) /\
    oclosed s' = oclosed s ++ (match open name oflag with inl fd => [fd] | inr _ => [] end) /\
    forall pieces, delivered sent pieces ->
      recv_fd (fun _ => true) pieces = match open name oflag with inl fd => (Got fd, []) | inr e => (Got (-1), take (Z.to_nat (MAXLINE - 2)) (cant_open strerror name e)) end.
Proof. apply open_answer. Qed.

Definition no_file (path : bytes) (oflag : Z) : Z + Z := inr 2.
Definition no_entry (e : Z) : bytes := lit "no".

Lemma open_server_answers_witness :
  exists req s' sent, csopen_request (lit "f") 66 = Some req /\ handle_request no_file no_entry req 5 100 (mkOsv [] [] [] [] []) = Ok tt s' /\ outbox s' = (5,.) <$> sent /\
    forall pieces, delivered sent pieces -> recv_fd (fun _ => true) pieces = (Got (-1), lit "can't open f: no" ++ [CH_NEWLINE]).
Proof.
  destruct (open_server_answers no_file no_entry (lit "f") 66 (lit "open f 66" ++ [NUL]) 5 100 (mkOsv [] [] [] [] [])) as (s' & sent & E & Ho & _ & Hr).
  - split; [done|]. split; [by apply (bool_decide_unpack (nonul (lit "f")))|by repeat constructor].
  - lia.
  - by vm_compute.
  - intros e. by apply (bool_decide_unpack (nonul (lit "no"))).
  - done.
  - exists (lit "open f 66" ++ [NUL]), s', sent. split; [by vm_compute|]. split; [exact E|]. split; [exact Ho|]. intros pieces Hp. rewrite (Hr pieces Hp). by vm_compute.
Defined.

(** C32: In any number of rounds of the loop with [poll] and of the loop
    with [select], if [read] does not fail and a connection has a new
    descriptor, the loop does not stop, it never leaves its arrays, its
    table holds exactly the clients that were accepted and have not gone,
    and every request that was read is handled once, with [select] for the
    user ID of the client. *)
Theorem open_loops_serve open strerror listenfd rs m :
  0 <= listenfd -> rounds_ok poll_gone listenfd [] rs = true -> rounds_ok select_gone listenfd [] rs = true ->
  (exists l fds, (run poll_start listenfd; poll_rounds open strerror rs) (mkLp (mkOsv m [] [] [] []) [] 0) = Ok tt l /\ pl_ok l listenfd fds /\
    fds ≡ₚ fst <$> (spec_rounds poll_gone poll_served [] rs).1 /\ fst <$> olog (lsv l) ≡ₚ fst <$> (spec_rounds poll_gone poll_served [] rs).2) /\
  (exists l, select_rounds open strerror rs (select_start listenfd (mkOsv m [] [] [] [])) = Ok tt l /\ sl_ok l listenfd /\
    lives (client (ssv l)) ≡ₚ (spec_rounds select_gone select_served [] rs).1 /\ olog (ssv l) ≡ₚ (spec_rounds select_gone select_served [] rs).2).
Proof.
  intros H0 Hp Hs. split.
  - destruct (poll_start_run listenfd m H0) as (l0 & E0 & Hok & Hl). rewrite (pbind_ok _ _ _ _ _ E0). destruct (poll_rounds_run open strerror listenfd rs l0 [] [] Hok) as (l & fds & E & Hok' & Hf & Hlog); [done..|].
    exists l, fds. by rewrite Hl in Hlog.
  - by destruct (select_rounds_run open strerror listenfd rs _ [] (select_start_ok listenfd m)) as (l & E & Hok & Hf & Hlog); [done..|exists l].
Qed.

Definition quiet : Z -> bool * bool := fun _ => (false, false).
Definition demo_rounds : list round :=
  [ mkRound quiet (fun _ => None) (Some (4, 11)); mkRound quiet (fun _ => None) (Some (5, 12)); mkRound quiet (fun _ => None) (Some (6, 13));
    mkRound (fun fd => (bool_decide (fd ∈ [4; 6]), false)) (fun fd => if fd =? 6 then Some (lit "open f 0" ++ [NUL]) else Some []) None ].

Lemma open_loops_serve_witness :
  (exists l fds, (run poll_start 3; poll_rounds no_file no_entry demo_rounds) (mkLp (mkOsv [] [] [] [] []) [] 0) = Ok tt l /\ pl_ok l 3 fds /\ fds ≡ₚ [5; 6] /\ fst <$> olog (lsv l) ≡ₚ [6]) /\
  (exists l, select_rounds no_file no_entry demo_rounds (select_start 3 (mkOsv [] [] [] [] [])) = Ok tt l /\ lives (client (ssv l)) ≡ₚ [(5, 12); (6, 13)] /\ olog (ssv l) ≡ₚ [(6, 13)]).
Proof.
  destruct (open_loops_serve no_file no_entry 3 demo_rounds [] ltac:(lia) ltac:(by vm_compute) ltac:(by vm_compute)) as [(l & fds & E & Hok & Hf & Hl) (l2 & E2 & _ & Hc2 & Hl2)].
  split; [by exists l, fds|by exists l2].
Defined.

(** ** What the server does not do *)

(** With [poll] a request is logged for the user at the same place of the
    other array: here for the user 11, who has gone, not for 13. *)
Theorem poll_wrong_uid :
  exists l, (run poll_start 3; poll_rounds no_file no_entry demo_rounds) (mkLp (mkOsv [] [] [] [] []) [] 0) = Ok tt l /\ olog (lsv l) = [(6, 11)] /\ (6, 13) ∈ client (lsv l).
Proof. eexists. split; [by vm_compute|]. split; [done|]. cbn. by repeat (left || right). Qed.

(** An empty request is answered with the last error message of some other
    client. *)
Theorem stale_errmsg :
  exists s, handle_request no_file no_entry [NUL] 5 100 (mkOsv (lit "can't open /secret") [] [] [] []) = Ok tt s /\ outbox s = [(5, (lit "can't open /secret", None)); (5, ([0; 1], None))].
Proof. eexists. split; [by vm_compute|]. by vm_compute. Qed.

(** White space in front of the command becomes part of it. *)
Theorem leading_blank_rejected : buf_args (lit " open f 0") = Some [lit " open"; lit "f"; lit "0"] /\ cli_args [lit " open"; lit "f"; lit "0"] = None.
Proof. by vm_compute. Qed.

(** The smallest number does not fit into the 12 bytes of [csopen]. *)
Theorem csopen_overflow : csopen_request (lit "f") (- 2 ^ 31) = None.
Proof. by vm_compute. Qed.

(** A client that has sent a request and closed the connection is not
    served when [poll] reports both. *)
Theorem hangup_loses_request :
  exists l, (run poll_start 3; poll_rounds no_file no_entry [mkRound quiet (fun _ => None) (Some (4, 11)); mkRound (fun _ => (true, true)) (fun _ => Some (lit "open f 64" ++ [NUL])) None]) (mkLp (mkOsv [] [] [] [] []) [] 0) = Ok tt l /\
    olog (lsv l) = [] /\ oclosed (lsv l) = [4].
Proof. eexists. split; [by vm_compute|]. done. Qed.

(** The two last bytes apart. *)
Theorem status_bytes_split fd : recv_fd (fun _ => true) [([0], None); ([0], Some fd)] = (Dump "message format error", []).
Proof. done. Qed.
