(* ===== verification/Inet.v ===== *)
(** * Conversion of addresses (unpv13e/libfree: inet_pton.c, inet_ntop.c,
      inet_aton.c, inet_pton_ipv4.c, inet_ntop_ipv4.c, in_cksum.c)

    The arrays of the functions are lists; a store outside of one is an
    outcome of its own. *)
From S2P Require Import Prelude CString.

Definition FAM_INET : Z := 2.
Definition FAM_INET6 : Z := 10.

Definition CH_DOT : Z := 46.

(** A store outside of an array, 0, -1, or 1 with the address. *)
Inductive conv := Overrun | Invalid | Unsupported | Valid (a : bytes).

(** [l[i] = v] *)
Definition poke (l : bytes) (i : nat) (v : Z) : option bytes := if bool_decide (i < length l)%nat then Some (<[i := v]> l) else None.

(** ** From strings *)
Definition INADDRSZ : nat := 4.
Definition IN6ADDRSZ : nat := 16.
Definition INT16SZ : nat := 2.

Definition digits : bytes := lit "0123456789".
Definition xdigits_l : bytes := lit "0123456789abcdef".
Definition xdigits_u : bytes := lit "0123456789ABCDEF".

#[global] Arguments digits : simpl never.
#[global] Arguments xdigits_l : simpl never.
#[global] Arguments xdigits_u : simpl never.

(** The loop of [inet_pton4], and what follows it. *)
Fixpoint pton4_loop (src tmp : bytes) (tp : nat) (saw_digit : bool) (octets : Z) : conv :=
  match src with
  | [] => if octets <? 4 then Invalid else Valid tmp
  | ch :: src =>
      match strchr digits ch with
      | Some d =>
          match tmp !! tp with
          | None => Overrun
          | Some x =>
              let new := x * 10 + d in
              if 255 <? new then Invalid
              else
                let tmp := <[tp := new]> tmp in
                if negb saw_digit then
                  let octets := octets + 1 in
                  if 4 <? octets then Invalid else pton4_loop src tmp tp true octets
                else pton4_loop src tmp tp saw_digit octets
          end
      | None =>
          if (ch =? CH_DOT) && saw_digit then
            if octets =? 4 then Invalid
            else match poke tmp (S tp) 0 with Some tmp => pton4_loop src tmp (S tp) false octets | None => Overrun end
          else Invalid
      end
  end.

(** [tmp] is not initialised; an octet is set before it is used. *)
Definition inet_pton4 (src : bytes) : conv := pton4_loop (cstr src) (replicate INADDRSZ 0) 0 false 0.

(** [*tp++ = val >> 8; *tp++ = val] *)
Definition put_word (tmp : bytes) (tp : nat) (val : Z) : option bytes :=
  tmp ← poke tmp tp (Z.land (Z.shiftr val 8) 255);
  poke tmp (tp + 1) (Z.land val 255).

(** The loop that moves what follows the two colons to the end; [k] rounds
    are left. *)
Fixpoint shift_loop (k n colonp : nat) (tmp : bytes) : option bytes :=
  match k with
  | O => Some tmp
  | S k =>
      let i := (n - k)%nat in
      x ← tmp !! (colonp + (n - i))%nat;
      tmp ← poke tmp (IN6ADDRSZ - i) x;
      tmp ← poke tmp (colonp + (n - i)) 0;
      shift_loop k n colonp tmp
  end.

Definition or_overrun {A} (o : option A) (k : A -> conv) : conv := match o with Some a => k a | None => Overrun end.

(** After the loop of [inet_pton6]. *)
Definition pton6_end (tmp : bytes) (tp : nat) (colonp : option nat) (saw_xdigit : bool) (val : Z) : conv :=
  let fin tmp tp :=
    match colonp with
    | Some c => or_overrun (shift_loop (tp - c) (tp - c) c tmp) Valid
    | None => if bool_decide (tp <> IN6ADDRSZ) then Invalid else Valid tmp
    end in
  if saw_xdigit then
    if bool_decide (IN6ADDRSZ < tp + INT16SZ)%nat then Invalid
    else or_overrun (put_word tmp tp val) (fun tmp => fin tmp (tp + INT16SZ)%nat)
  else fin tmp tp.

Definition xdigit (ch : Z) : option Z := match strchr xdigits_l ch with Some d => Some d | None => strchr xdigits_u ch end.

Fixpoint pton6_loop (src curtok tmp : bytes) (tp : nat) (colonp : option nat) (saw_xdigit : bool) (val : Z) : conv :=
  match src with
  | [] => pton6_end tmp tp colonp saw_xdigit val
  | ch :: src =>
      match xdigit ch with
      | Some d =>
          let val := Z.lor (wrapu 32 (Z.shiftl val 4)) d in
          if 65535 <? val then Invalid else pton6_loop src curtok tmp tp colonp true val
      | None =>
          if ch =? CH_COLON then
            if negb saw_xdigit then
              match colonp with Some _ => Invalid | None => pton6_loop src src tmp tp (Some tp) saw_xdigit val end
            else if bool_decide (IN6ADDRSZ < tp + INT16SZ)%nat then Invalid
            else or_overrun (put_word tmp tp val) (fun tmp => pton6_loop src src tmp (tp + INT16SZ) colonp false 0)
          else if (ch =? CH_DOT) && bool_decide (tp + INADDRSZ <= IN6ADDRSZ)%nat then
            match inet_pton4 curtok with
            | Valid a => or_overrun (if bool_decide (tp + length a <= length tmp)%nat then Some (list_inserts tp a tmp) else None) (fun tmp => pton6_end tmp (tp + INADDRSZ) colonp false val)
            | Overrun => Overrun
            | _ => Invalid
            end
          else Invalid
      end
  end.

Definition inet_pton6 (src : bytes) : conv :=
  let start src := pton6_loop src src (replicate IN6ADDRSZ 0) 0 None false 0 in
  match cstr src with
  | c :: rest => if c =? CH_COLON then (if negb (nth 0 rest NUL =? CH_COLON) then Invalid else start rest) else start (c :: rest)
  | [] => start []
  end.

Definition inet_pton (af : Z) (src : bytes) : conv :=
  if af =? FAM_INET then inet_pton4 src else if af =? FAM_INET6 then inet_pton6 src else Unsupported.

(** ** To strings *)

(** [%x] *)
Definition xdig (d : Z) : Z := if d <? 10 then CH_0 + d else 87 + d.

Fixpoint hex_go (fuel : nat) (n : Z) (acc : bytes) : bytes :=
  match fuel with
  | O => acc
  | S f => if n <? 16 then xdig n :: acc else hex_go f (n / 16) (xdig (n mod 16) :: acc)
  end.

Definition fmt_x (n : Z) : bytes := hex_go (S (Z.to_nat (Z.log2 n))) n [].

(** [None] is a null pointer; the strings are without the final null. *)
Definition quad (src : bytes) : bytes := dec (nth 0 src 0) ++ CH_DOT :: dec (nth 1 src 0) ++ CH_DOT :: dec (nth 2 src 0) ++ CH_DOT :: dec (nth 3 src 0).

Definition inet_ntop4 (src : bytes) (size : Z) : option bytes :=
  let tmp := quad src in
  if size <? zlen tmp then None else Some tmp.

Fixpoint words_loop (i : nat) (src : bytes) (words : list Z) : list Z :=
  match src with
  | [] => words
  | x :: src => words_loop (S i) src (alter (fun w => Z.lor w (Z.shiftl x ((1 - Z.of_nat i mod 2) * 8))) (Nat.div i 2) words)
  end.

Definition words_of (src : bytes) : list Z := words_loop 0 src (replicate 8 0).

(** [base] and [len]; [None] when [base] is -1. *)
Definition zrun := option (nat * nat).

Definition better (cur best : zrun) : zrun :=
  match cur, best with
  | Some (_, l), Some (_, m) => if bool_decide (m < l)%nat then cur else best
  | Some _, None => cur
  | None, _ => best
  end.

Fixpoint best_loop (ws : list Z) (i : nat) (cur best : zrun) : zrun :=
  match ws with
  | [] => better cur best
  | w :: ws =>
      if w =? 0 then best_loop ws (S i) (match cur with None => Some (i, 1%nat) | Some (b, l) => Some (b, S l) end) best
      else best_loop ws (S i) None (better cur best)
  end.

Definition best_run (ws : list Z) : zrun := match best_loop ws 0 None None with Some (b, l) => if bool_decide (l < 2)%nat then None else Some (b, l) | None => None end.

(** The size of the array of [inet_ntop6]. *)
Definition TMPSZ : Z := 46.

(** The loop that writes the words; [words] is what is left from [i] on,
    [tp] what has been written. *)
Fixpoint ntop6_loop (words : list Z) (i : nat) (src : bytes) (best : zrun) (w5 : Z) (tp : bytes) : option bytes :=
  match words with
  | [] => Some tp
  | w :: words =>
      let inside := match best with Some (b, l) => bool_decide (b <= i < b + l)%nat | None => false end in
      if inside then
        ntop6_loop words (S i) src best w5 (tp ++ match best with Some (b, _) => if bool_decide (i = b) then [CH_COLON] else [] | None => [] end)
      else
        let tp := tp ++ (if bool_decide (i = 0%nat) then [] else [CH_COLON]) in
        if bool_decide (i = 6%nat) && match best with Some (b, l) => bool_decide (b = 0%nat) && (bool_decide (l = 6%nat) || (bool_decide (l = 5%nat) && (w5 =? 65535))) | None => false end
        then (fun s => tp ++ s) <$> inet_ntop4 (drop 12 src) (TMPSZ - zlen tp)
        else ntop6_loop words (S i) src best w5 (tp ++ fmt_x w)
  end.

Definition inet_ntop6 (src : bytes) (size : Z) : option bytes :=
  let words := words_of src in
  let best := best_run words in
  match ntop6_loop words 0 src best (nth 5 words 0) [] with
  | None => None
  | Some tp =>
      let tp := tp ++ match best with Some (b, l) => if bool_decide (b + l = 8)%nat then [CH_COLON] else [] | None => [] end in
      if size <? zlen tp + 1 then None else Some tp
  end.

Definition inet_ntop (af : Z) (src : bytes) (size : Z) : option bytes :=
  if af =? FAM_INET then inet_ntop4 src size else if af =? FAM_INET6 then inet_ntop6 src size else None.

(** ** IPv4 only *)

(** The four bytes of [htonl]. *)
Definition htonl_bytes (x : Z) : bytes := [Z.land (Z.shiftr x 24) 255; Z.land (Z.shiftr x 16) 255; Z.land (Z.shiftr x 8) 255; Z.land x 255].

(** The end of the string is handled as a dot is. *)
Fixpoint aton_loop (cp : bytes) (dots acc addr : Z) : option bytes :=
  match cp with
  | [] =>
      if 255 <? acc then None
      else
        let addr := Z.lor (wrapu 64 (Z.shiftl addr 8)) acc in
        let addr := if dots <? 3 then wrapu 64 (Z.shiftl addr (8 * (3 - dots))) else addr in
        Some (htonl_bytes (wrapu 32 addr))
  | cc :: cp =>
      if isdigit cc then aton_loop cp dots (wrapu 64 (acc * 10 + (cc - CH_0))) addr
      else if cc =? CH_DOT then
        if 3 <? dots + 1 then None
        else if 255 <? acc then None
        else aton_loop cp (dots + 1) 0 (Z.lor (wrapu 64 (Z.shiftl addr 8)) acc)
      else None
  end.

Definition inet_aton (cp : bytes) : option bytes := aton_loop (cstr cp) 0 0 0.

Definition inet_pton_ipv4 (family : Z) (strptr : bytes) : conv :=
  if family =? FAM_INET then match inet_aton strptr with Some a => Valid a | None => Invalid end else Unsupported.

Definition inet_ntop_ipv4 (family : Z) (addr : bytes) (len : Z) : option bytes :=
  if family =? FAM_INET then
    let temp := take 15 (quad addr) in
    if len <=? zlen temp then None else Some temp
  else None.

(** ** The checksum *)

(** 16-bit words of a little-endian machine; an odd byte is the low half of
    a word. *)
Fixpoint sum_loop (l : bytes) (sum : Z) : Z :=
  match l with
  | a :: b :: l => sum_loop l (wrapu 32 (sum + (a + 256 * b)))
  | [a] => wrapu 32 (sum + a)
  | [] => sum
  end.

Definition fold_sum (sum : Z) : Z :=
  let sum := wrapu 32 (Z.shiftr sum 16 + Z.land sum 65535) in
  wrapu 32 (sum + Z.shiftr sum 16).

Definition in_cksum (l : bytes) : Z := wrapu 16 (Z.lnot (fold_sum (sum_loop l 0))).
