(* ===== verification/InetThms.v ===== *)
(** * Conversion of addresses: what the functions accept and write, and the
      round trip *)
From S2P Require Import Prelude CString Inet.

Definition octet (x : Z) : Prop := 0 <= x <= 255.

(** An address of [n] bytes. *)
Definition address (n : nat) (a : bytes) : Prop := length a = n /\ Forall octet a.

(** The function returns; when it accepts, with an address of [n] bytes. *)
Definition conv_ok (n : nat) (c : conv) : Prop := match c with Overrun => False | Invalid | Unsupported => True | Valid a => address n a end.

#[local] Hint Extern 0 (conv_ok _ _) => exact I : core.

(** ** Stores *)
Lemma poke_ok n l i v : address n l -> (i < n)%nat -> octet v -> exists l', poke l i v = Some l' /\ address n l' /\ l' = <[i := v]> l.
Proof.
  intros [Hl Ho] Hi Hv. unfold poke. rewrite bool_decide_eq_true_2 by lia. eexists. split; [done|]. split; [|done]. split; [by rewrite length_insert|]. by apply Forall_insert.
Qed.

Lemma octet_land x : octet (Z.land x 255).
Proof. unfold octet. change 255 with (Z.ones 8) at 1 2. rewrite Z.land_ones by lia. pose proof (Z.mod_pos_bound x (2 ^ 8)). lia. Qed.

Lemma strchr_range l c d : strchr l c = Some d -> 0 <= d < zlen l.
Proof.
  revert d. induction l as [|x l IH]; intros d; simpl; [done|]. destruct (x =? NUL); [done|]. destruct (x =? c); [intros [= <-]; zl|].
  destruct (strchr l c) as [e|]; [|done]. simpl. intros [= <-]. specialize (IH e eq_refl). zl.
Qed.

(** ** inet_pton4 *)
Lemma pton4_safe src : forall tmp tp saw octets,
  address 4 tmp -> (tp <= 3)%nat -> octets = Z.of_nat tp + (if saw : bool then 1 else 0) -> conv_ok 4 (pton4_loop src tmp tp saw octets).
Proof.
  induction src as [|ch src IH]; intros tmp tp saw octets Ht Htp Ho; cbn [pton4_loop]; [destruct (octets <? 4); [done|exact Ht]|]. destruct Ht as [Hl HF].
  destruct (strchr digits ch) as [d|] eqn:Ed.
  - destruct (lookup_lt_is_Some_2 tmp tp) as [x Hx]; [lia|]. rewrite Hx. apply strchr_range in Ed. change (zlen digits) with 10 in Ed.
    destruct (Z.ltb_spec 255 (x * 10 + d)); [done|]. pose proof (Forall_lookup_1 _ _ _ _ HF Hx) as Hox. unfold octet in Hox.
    assert (address 4 (<[tp := x * 10 + d]> tmp)) as Ha by (split; [by rewrite length_insert|apply Forall_insert; [done|unfold octet; lia]]).
    destruct saw; cbn [negb]; [by apply IH|]. destruct (4 <? octets + 1); [done|]. apply IH; [done|done|lia].
  - destruct (ch =? CH_DOT), saw; try done. cbn [andb]. destruct (Z.eqb_spec octets 4); [done|].
    destruct (poke_ok 4 tmp (S tp) 0) as (l' & -> & Ha & _); [done|lia|done|]. apply IH; [done|lia|lia].
Qed.

Lemma inet_pton4_safe src : conv_ok 4 (inet_pton4 src).
Proof. apply pton4_safe; [|lia|done]. split; [done|]. by repeat constructor. Qed.

(** ** inet_pton6 *)
Lemma put_word_ok n tmp tp v : address n tmp -> (tp + 2 <= n)%nat -> exists tmp', put_word tmp tp v = Some tmp' /\ address n tmp'.
Proof.
  intros Ha Htp. unfold put_word. destruct (poke_ok n tmp tp (Z.land (Z.shiftr v 8) 255) Ha) as (t1 & -> & Ha1 & _); [lia|apply octet_land|]. simpl.
  destruct (poke_ok n t1 (tp + 1) (Z.land v 255) Ha1) as (t2 & E & Ha2 & _); [lia|apply octet_land|]. by exists t2.
Qed.

Lemma shift_loop_ok k : forall n c tmp, (k <= n)%nat -> (c + n <= 16)%nat -> address 16 tmp -> exists tmp', shift_loop k n c tmp = Some tmp' /\ address 16 tmp'.
Proof.
  induction k as [|k IH]; intros n c tmp Hk Hc Ha; cbn [shift_loop]; [by exists tmp|]. destruct (lookup_lt_is_Some_2 tmp (c + (n - (n - k)))) as [x Hx]; [destruct Ha; lia|]. rewrite Hx. cbn [mbind option_bind].
  destruct (poke_ok 16 tmp (IN6ADDRSZ - (n - k)) x Ha) as (t1 & -> & Ha1 & _); [unfold IN6ADDRSZ; lia|by apply (Forall_lookup_1 _ _ _ _ (proj2 Ha) Hx)|]. cbn [mbind option_bind].
  destruct (poke_ok 16 t1 (c + (n - (n - k))) 0 Ha1) as (t2 & -> & Ha2 & _); [lia|done|]. cbn [mbind option_bind]. apply IH; [lia|lia|done].
Qed.

Lemma pton6_end_ok tmp tp colonp saw v : address 16 tmp -> (tp <= 16)%nat -> (forall c, colonp = Some c -> (c <= tp)%nat) -> conv_ok 16 (pton6_end tmp tp colonp saw v).
Proof.
  intros Ha Htp Hc.
  assert (forall t q, address 16 t -> (q <= 16)%nat -> (forall c, colonp = Some c -> (c <= q)%nat) ->
    conv_ok 16 (match colonp with Some c => or_overrun (shift_loop (q - c) (q - c) c t) Valid | None => if bool_decide (q <> IN6ADDRSZ) then Invalid else Valid t end)) as Hfin.
  { intros t q Ht Hq Hcq. destruct colonp as [c|]; [|case_bool_decide; [done|exact Ht]]. specialize (Hcq c eq_refl). destruct (shift_loop_ok (q - c) (q - c) c t) as (t' & -> & Ht'); [lia|lia|done|]. done. }
  unfold pton6_end. destruct saw; [|by apply Hfin]. case_bool_decide as Hlt; [done|]. unfold IN6ADDRSZ, INT16SZ in Hlt. destruct (put_word_ok 16 tmp tp v Ha) as (t & -> & Ht); [lia|]. simpl. apply Hfin; [done|unfold INT16SZ; lia|].
  intros c E. specialize (Hc c E). unfold INT16SZ. lia.
Qed.

Lemma address_inserts n tmp tp a : address n tmp -> Forall octet a -> address n (list_inserts tp a tmp).
Proof. intros [Hl Ho] Ha. split; [by rewrite length_inserts|]. revert tp. induction Ha as [|x a Hx Ha IH]; intros tp; simpl; [done|]. apply Forall_insert; [apply IH|done]. Qed.

Lemma pton6_safe src : forall cur tmp tp colonp saw v,
  address 16 tmp -> (tp <= 16)%nat -> (forall c, colonp = Some c -> (c <= tp)%nat) -> conv_ok 16 (pton6_loop src cur tmp tp colonp saw v).
Proof.
  induction src as [|ch src IH]; intros cur tmp tp colonp saw v Ha Htp Hc; cbn [pton6_loop]; [by apply pton6_end_ok|].
  destruct (xdigit ch) as [d|]; [destruct (_ <? _); [done|by apply IH]|]. destruct (ch =? CH_COLON).
  - destruct saw; simpl.
    + case_bool_decide as Hlt; [done|]. unfold IN6ADDRSZ, INT16SZ in Hlt. destruct (put_word_ok 16 tmp tp v Ha) as (t & -> & Ht); [lia|]. simpl. apply IH; [done|unfold INT16SZ; lia|]. intros c E. specialize (Hc c E). unfold INT16SZ. lia.
    + destruct colonp; [done|]. apply IH; [done|done|]. by intros c [= <-].
  - destruct (ch =? CH_DOT); [|done]. cbn [andb]. case_bool_decide as Hle; [|done]. unfold INADDRSZ, IN6ADDRSZ in Hle. pose proof (inet_pton4_safe cur) as H4. destruct (inet_pton4 cur) as [| | |a]; try done. simpl in H4.
    destruct Ha as [Hl Ho]. destruct H4 as [Hla Hoa]. rewrite bool_decide_eq_true_2 by lia. cbn [or_overrun]. apply pton6_end_ok; [by apply address_inserts|unfold INADDRSZ; lia|]. intros c E. specialize (Hc c E). unfold INADDRSZ. lia.
Qed.

Lemma inet_pton6_safe src : conv_ok 16 (inet_pton6 src).
Proof.
  assert (address 16 (replicate IN6ADDRSZ 0)) as Ha by (split; [done|by repeat constructor]). unfold inet_pton6.
  destruct (cstr src) as [|c rest]; [by apply pton6_safe; [|lia|]|]. destruct (c =? CH_COLON); [destruct (negb _); [done|]|]; by apply pton6_safe; [|lia|].
Qed.

(** ** Digits *)
Lemma strchr_digit d : 0 <= d < 10 -> strchr digits (CH_0 + d) = Some d.
Proof. intros H. assert (d = 0 \/ d = 1 \/ d = 2 \/ d = 3 \/ d = 4 \/ d = 5 \/ d = 6 \/ d = 7 \/ d = 8 \/ d = 9) as Hd by lia. by repeat (destruct Hd as [->|Hd]; [done|]); subst. Qed.

Lemma digit_strchr c : CH_0 <= c <= 57 -> strchr digits c = Some (c - CH_0).
Proof. intros H. rewrite <- (strchr_digit (c - CH_0)) by (unfold CH_0 in *; lia). f_equal. lia. Qed.

(** [P] holds for the values of a hexadecimal digit. *)
Lemma xdig_cases (P : Z -> Prop) : Forall P (seqZ 0 16) -> forall d, 0 <= d < 16 -> P d.
Proof. intros H d Hd. rewrite Forall_forall in H. apply H. by apply elem_of_seqZ. Qed.

Lemma xdigit_xdig d : 0 <= d < 16 -> xdigit (xdig d) = Some d.
Proof. revert d. apply xdig_cases. repeat constructor. Qed.

Lemma num_go_digits c s x : CH_0 <= c <= 57 -> num_go x (c :: s) = num_go (x * 10 + (c - CH_0)) s.
Proof. intros H. simpl. unfold isdigit. by rewrite !leb_true by (unfold CH_0 in *; lia). Qed.

Lemma num_go_ge s : forall x, 0 <= x -> Forall (fun c => CH_0 <= c <= 57) s -> x <= num_go x s.
Proof.
  induction s as [|c s IH]; intros x Hx HF; [done|]. apply Forall_cons in HF as [Hc HF]. rewrite num_go_digits by done. pose proof (IH (x * 10 + (c - CH_0)) ltac:(lia) HF). lia.
Qed.

(** ** The round trip of IPv4 *)
Lemma pton4_more s : forall rest tmp tp octets x,
  tmp !! tp = Some x -> 0 <= x -> Forall (fun c => CH_0 <= c <= 57) s -> num_go x s <= 255 ->
  pton4_loop (s ++ rest) tmp tp true octets = pton4_loop rest (<[tp := num_go x s]> tmp) tp true octets.
Proof.
  induction s as [|c s IH]; intros rest tmp tp octets x Hx H0 HF Hn; [by rewrite list_insert_id by done|]. apply Forall_cons in HF as [Hc HF]. cbn [app pton4_loop]. rewrite digit_strchr, Hx by done.
  rewrite num_go_digits in Hn by done. pose proof (num_go_ge s (x * 10 + (c - CH_0)) ltac:(lia) HF). rewrite ltb_false by lia. cbn [negb].
  rewrite (IH rest _ tp octets (x * 10 + (c - CH_0))); [|by apply list_lookup_insert_eq, (lookup_lt_Some _ _ _ Hx)|lia|done|done]. rewrite num_go_digits by done. by rewrite list_insert_insert_eq.
Qed.

(** A number of one octet. *)
Lemma pton4_dec n rest tmp tp octets :
  octet n -> tmp !! tp = Some 0 -> octets <= 3 -> pton4_loop (dec n ++ rest) tmp tp false octets = pton4_loop rest (<[tp := n]> tmp) tp true (octets + 1).
Proof.
  intros Hn Ht Ho. unfold octet in Hn. pose proof (dec_digits n ltac:(lia)) as HF. pose proof (dec_nonempty n) as Hne. pose proof (dec_num n [] ltac:(lia)) as Hnum. rewrite app_nil_r in Hnum. cbn [num_go] in Hnum. destruct (dec n) as [|c s]; [done|].
  apply Forall_cons in HF as [Hc HF]. rewrite num_go_digits in Hnum by done. cbn [app pton4_loop]. rewrite digit_strchr, Ht by done. pose proof (num_go_ge s (0 * 10 + (c - CH_0)) ltac:(lia) HF). rewrite ltb_false by lia. cbn [negb]. rewrite ltb_false by lia.
  rewrite (pton4_more s rest _ tp (octets + 1) (0 * 10 + (c - CH_0))); [|by apply list_lookup_insert_eq, (lookup_lt_Some _ _ _ Ht)|lia|done|lia]. by rewrite Hnum, list_insert_insert_eq.
Qed.

Lemma pton4_dot rest tmp tp octets : octets <> 4 -> (S tp < length tmp)%nat -> pton4_loop (CH_DOT :: rest) tmp tp true octets = pton4_loop rest (<[S tp := 0]> tmp) (S tp) false octets.
Proof. intros Ho Ht. cbn [pton4_loop]. change (strchr digits CH_DOT) with (@None Z). rewrite Z.eqb_refl. cbn [andb]. rewrite eqb_false by done. unfold poke. by rewrite bool_decide_eq_true_2 by done. Qed.

Lemma pton4_quad a : address 4 a -> pton4_loop (quad a) (replicate INADDRSZ 0) 0 false 0 = Valid a.
Proof.
  intros [Hl HF]. destruct a as [|a [|b [|c [|d [|? ?]]]]]; try done. clear Hl. apply Forall_cons in HF as [Ha HF]. apply Forall_cons in HF as [Hb HF]. apply Forall_cons in HF as [Hc HF]. apply Forall_cons in HF as [Hd _]. unfold quad. cbn [nth].
  do 3 (rewrite pton4_dec by done; rewrite pton4_dot by (cbn; lia)).
  rewrite <- (app_nil_r (dec d)), pton4_dec by done. done.
Qed.

Lemma quad_nonul a : address 4 a -> nonul (quad a).
Proof.
  intros [Hl HF]. destruct a as [|a [|b [|c [|d [|? ?]]]]]; try done. unfold quad, octet in *. cbn [nth]. decompose_Forall_hyps. repeat (apply nonul_app; [apply dec_nonul; lia|constructor; [done|]]). apply dec_nonul. lia.
Qed.

Lemma quad_length a : address 4 a -> 7 <= zlen (quad a) <= 15.
Proof.
  intros [Hl HF]. destruct a as [|a [|b [|c [|d [|? ?]]]]]; try done. unfold quad, octet in *. cbn [nth]. decompose_Forall_hyps.
  pose proof (dec_length a 3). pose proof (dec_length b 3). pose proof (dec_length c 3). pose proof (dec_length d 3). pose proof (dec_length_pos a). pose proof (dec_length_pos b). pose proof (dec_length_pos c). pose proof (dec_length_pos d). zl.
Qed.

Lemma ntop4_pton4 a size : address 4 a -> 15 <= size -> inet_ntop4 a size = Some (quad a) /\ inet_pton4 (quad a) = Valid a.
Proof.
  intros Ha Hs. unfold inet_ntop4, inet_pton4. pose proof (quad_length a Ha). rewrite ltb_false by lia. split; [done|]. rewrite cstr_id by (by apply quad_nonul). by apply pton4_quad.
Qed.

(** ** Hexadecimal words *)
Definition hexval (v : Z) (ds : list Z) : Z := foldl (fun v d => v * 16 + d) v ds.

Lemma hexval_ge ds : forall v, 0 <= v -> Forall (fun d => 0 <= d < 16) ds -> v <= hexval v ds.
Proof. induction ds as [|d ds IH]; intros v Hv HF; [done|]. apply Forall_cons in HF as [Hd HF]. specialize (IH (v * 16 + d) ltac:(lia) HF). unfold hexval in *. cbn [foldl]. lia. Qed.

Lemma hex_go_digits f : forall n k acc, 0 <= n < 2 ^ Z.of_nat f -> (1 <= f)%nat -> 1 <= k -> n < 16 ^ k ->
  exists ds, hex_go f n acc = (xdig <$> ds) ++ acc /\ ds <> [] /\ Forall (fun d => 0 <= d < 16) ds /\ hexval 0 ds = n /\ zlen ds <= k.
Proof.
  induction f as [|f IH]; intros n k acc Hn Hf Hk Hnk; [lia|]. cbn [hex_go]. destruct (Z.ltb_spec n 16).
  - exists [n]. split; [done|]. split; [done|]. split; [constructor; [lia|done]|]. done.
  - assert (2 <= k) by (destruct (Z.eq_dec k 1) as [->|]; [rewrite Z.pow_1_r in Hnk; lia|lia]).
    assert (n / 16 < 2 ^ Z.of_nat f) by (apply Z.div_lt_upper_bound; [lia|]; rewrite Nat2Z.inj_succ, Z.pow_succ_r in Hn by lia; lia).
    assert (n / 16 < 16 ^ (k - 1)) by (apply Z.div_lt_upper_bound; [lia|]; rewrite <- Z.pow_succ_r by lia; by replace (Z.succ (k - 1)) with k by lia).
    assert (0 < n / 16) by (apply Z.div_str_pos; lia). assert (1 <= f)%nat by (destruct f; [simpl in *; lia|lia]).
    destruct (IH (n / 16) (k - 1) (xdig (n mod 16) :: acc)) as (ds & -> & Hne & HF & Hv & Hl); [lia|done|lia|done|].
    pose proof (Z.mod_pos_bound n 16). exists (ds ++ [n mod 16]). split; [by rewrite fmap_app, <- app_assoc|]. split; [by destruct ds|]. split; [apply Forall_app; split; [done|constructor; [lia|done]]|].
    split; [|zl]. unfold hexval in *. rewrite foldl_app, Hv. simpl. pose proof (Z.div_mod n 16). lia.
Qed.

Definition word16 (w : Z) : Prop := 0 <= w <= 65535.

Lemma fmt_x_digits w : word16 w -> exists ds, fmt_x w = xdig <$> ds /\ ds <> [] /\ Forall (fun d => 0 <= d < 16) ds /\ hexval 0 ds = w /\ zlen ds <= 4.
Proof.
  intros Hw. unfold word16 in Hw. destruct (hex_go_digits (S (Z.to_nat (Z.log2 w))) w 4 []) as (ds & E & H); [|lia|lia|change (16 ^ 4) with 65536; lia|].
  - split; [lia|]. apply dec_fuel. lia.
  - exists ds. by rewrite app_nil_r in E.
Qed.

Lemma lor_shiftl v d k : 0 <= k -> 0 <= d < 2 ^ k -> Z.lor (Z.shiftl v k) d = v * 2 ^ k + d.
Proof.
  intros Hk Hd.
  assert (Z.land (Z.shiftl v k) d = 0) as E.
  { apply Z.bits_inj'. intros n Hn. rewrite Z.land_spec, Z.bits_0. destruct (Z.ltb_spec n k); [by rewrite Z.shiftl_spec_low|]. rewrite <- (Z.mod_small d (2 ^ k)) by done. rewrite Z.mod_pow2_bits_high by lia. apply andb_false_r. }
  rewrite <- Z.lxor_lor, <- Z.add_nocarry_lxor by done. by rewrite Z.shiftl_mul_pow2.
Qed.

(** Digits up to a word. *)
Lemma pton6_digits ds : forall rest cur tmp tp c saw v,
  Forall (fun d => 0 <= d < 16) ds -> 0 <= v -> hexval v ds <= 65535 -> (ds = [] -> saw = true) ->
  pton6_loop ((xdig <$> ds) ++ rest) cur tmp tp c saw v = pton6_loop rest cur tmp tp c true (hexval v ds).
Proof.
  induction ds as [|d ds IH]; intros rest cur tmp tp c saw v HF Hv Hn Hs; [by rewrite Hs|]. apply Forall_cons in HF as [Hd HF]. rewrite fmap_cons. cbn [app pton6_loop]. rewrite xdigit_xdig by done.
  change (hexval v (d :: ds)) with (hexval (v * 16 + d) ds) in *. pose proof (hexval_ge ds (v * 16 + d) ltac:(lia) HF).
  assert (wrapu 32 (Z.shiftl v 4) = Z.shiftl v 4) as -> by (unfold wrapu; rewrite Z.shiftl_mul_pow2 by lia; apply Z.mod_small; change (2 ^ 4) with 16; lia).
  rewrite lor_shiftl by (change (2 ^ 4) with 16; lia). change (2 ^ 4) with 16. rewrite ltb_false by lia. apply IH; [done|lia|done|done].
Qed.

Lemma pton6_word w rest cur tmp tp c : word16 w -> pton6_loop (fmt_x w ++ rest) cur tmp tp c false 0 = pton6_loop rest cur tmp tp c true w.
Proof.
  intros Hw. destruct (fmt_x_digits w Hw) as (ds & -> & Hne & HF & Hv & _). unfold word16 in Hw. rewrite pton6_digits by (done || lia). by rewrite Hv.
Qed.

(** ** The array of inet_pton6 *)
Definition word_bytes (w : Z) : bytes := [Z.land (Z.shiftr w 8) 255; Z.land w 255].

Definition bytes_of (ws : list Z) : bytes := ws ≫= word_bytes.

(** What has been stored, and zeros up to the end. *)
Definition pad (out : bytes) : bytes := out ++ replicate (16 - length out) 0.

Lemma poke_app l x y r : poke (l ++ x :: r) (length l) y = Some (l ++ y :: r).
Proof. unfold poke. rewrite bool_decide_eq_true_2 by (rewrite length_app; simpl; lia). f_equal. rewrite insert_app_r_alt by lia. by rewrite Nat.sub_diag. Qed.

Lemma put_word_pad out v : (length out + 2 <= 16)%nat -> put_word (pad out) (length out) v = Some (pad (out ++ word_bytes v)).
Proof.
  intros H. unfold put_word, pad. destruct (16 - length out)%nat as [|[|n]] eqn:En; [lia|lia|]. cbn [replicate]. rewrite poke_app. cbn [mbind option_bind].
  replace (length out + 1)%nat with (length (out ++ [Z.land (Z.shiftr v 8) 255])) by (by rewrite length_app). rewrite (cons_middle _ out), app_assoc, poke_app. f_equal.
  rewrite <- !app_assoc. rewrite length_app. cbn [word_bytes length app]. by replace (16 - (length out + 2))%nat with n by lia.
Qed.

Lemma shift_loop_run k : forall n c p q g r, length p = c -> length q = k -> (k + length r = n)%nat -> (c + n + g = 16)%nat -> (1 <= g)%nat ->
  shift_loop k n c (p ++ q ++ replicate g 0 ++ r) = Some (p ++ replicate g 0 ++ q ++ r).
Proof.
  induction k as [|k IH]; intros n c p q g r Hp Hq Hr Hg H1; cbn [shift_loop]; [by destruct q|].
  destruct q as [|x q _] using rev_ind; [done|]. rewrite length_app in Hq. simpl in Hq. destruct g as [|g]; [lia|].
  replace (n - (n - k))%nat with k by lia. rewrite <- !app_assoc. rewrite lookup_app_r by lia. rewrite lookup_app_r by lia. replace (c + k - length p - length q)%nat with 0%nat by lia. cbn [app lookup list_lookup mbind option_bind].
  assert (forall A, p ++ q ++ x :: replicate (S g) 0 ++ A = (p ++ q ++ x :: replicate g 0) ++ 0 :: A) as -> by (intros A; rewrite <- !app_assoc; cbn [app]; rewrite replicate_S_end; by rewrite <- app_assoc).
  replace (IN6ADDRSZ - (n - k))%nat with (length (p ++ q ++ x :: replicate g 0)) by (rewrite !length_app; cbn [length]; rewrite length_replicate; unfold IN6ADDRSZ; lia). rewrite poke_app. cbn [mbind option_bind].
  rewrite <- !app_assoc. cbn [app]. rewrite (app_assoc p q). replace (c + k)%nat with (length (p ++ q)) by (rewrite length_app; lia). rewrite poke_app. cbn [mbind option_bind].
  rewrite <- !app_assoc. change (0 :: replicate g 0 ++ x :: r) with (replicate (S g) 0 ++ x :: r). rewrite IH; [done|done|lia|simpl; lia|lia|lia].
Qed.

(** The end of the string, with and without a pending word. *)
Lemma pton6_fin_gap p q v : (length p + length q < 16)%nat -> pton6_end (pad (p ++ q)) (length (p ++ q)) (Some (length p)) false v = Valid (p ++ replicate (16 - length p - length q) 0 ++ q).
Proof.
  intros H. unfold pton6_end, pad. rewrite length_app. replace (length p + length q - length p)%nat with (length q) by lia. rewrite <- app_assoc. rewrite <- (app_nil_r (replicate (16 - (length p + length q)) 0)).
  rewrite shift_loop_run by (done || simpl; lia). cbn [or_overrun]. rewrite app_nil_r. by replace (16 - (length p + length q))%nat with (16 - length p - length q)%nat by lia.
Qed.

Lemma pton6_end_word out v c : (length out + 2 <= 16)%nat -> pton6_end (pad out) (length out) c true v = pton6_end (pad (out ++ word_bytes v)) (length (out ++ word_bytes v)) c false v.
Proof.
  intros H. unfold pton6_end. rewrite bool_decide_eq_false_2 by (unfold IN6ADDRSZ, INT16SZ; lia). rewrite put_word_pad by done. cbn [or_overrun]. by rewrite length_app.
Qed.

Lemma pton6_fin_full out v : length out = 16%nat -> pton6_end (pad out) (length out) None false v = Valid out.
Proof. intros H. unfold pton6_end, pad. rewrite H. cbn. by rewrite app_nil_r. Qed.

(** ** Words with colons *)
Definition segs (ws : list Z) : bytes := ws ≫= (fun w => CH_COLON :: fmt_x w).

Lemma segs_app a b : segs (a ++ b) = segs a ++ segs b.
Proof. apply bind_app. Qed.

Lemma bytes_of_app a b : bytes_of (a ++ b) = bytes_of a ++ bytes_of b.
Proof. apply bind_app. Qed.

Lemma bytes_of_length ws : length (bytes_of ws) = (2 * length ws)%nat.
Proof. unfold bytes_of. induction ws as [|w ws IH]; [done|]. cbn [mbind list_bind]. rewrite length_app, IH. simpl. lia. Qed.

Lemma bytes_of_zeros n : bytes_of (replicate n 0) = replicate (2 * n) 0.
Proof. unfold bytes_of. induction n as [|n IH]; [done|]. cbn [replicate mbind list_bind]. rewrite IH. by replace (2 * S n)%nat with (S (S (2 * n))) by lia. Qed.

Lemma pton6_colon_word out v rest cur c : (length out + 2 <= 16)%nat ->
  pton6_loop (CH_COLON :: rest) cur (pad out) (length out) c true v = pton6_loop rest rest (pad (out ++ word_bytes v)) (length (out ++ word_bytes v)) c false 0.
Proof.
  intros H. cbn [pton6_loop]. change (xdigit CH_COLON) with (@None Z). rewrite Z.eqb_refl. cbn [negb]. rewrite bool_decide_eq_false_2 by (unfold IN6ADDRSZ, INT16SZ; lia). rewrite put_word_pad by done. cbn [or_overrun]. by rewrite length_app.
Qed.

Lemma pton6_colon_gap rest cur tmp tp v : pton6_loop (CH_COLON :: rest) cur tmp tp None false v = pton6_loop rest rest tmp tp (Some tp) false v.
Proof. done. Qed.

(** After a word, more of them. *)
Lemma pton6_segs ws : forall rest cur out v c, Forall word16 ws -> (length out + 2 + 2 * length ws <= 16)%nat ->
  exists cur' out' v', pton6_loop (segs ws ++ rest) cur (pad out) (length out) c true v = pton6_loop rest cur' (pad out') (length out') c true v' /\ out' ++ word_bytes v' = out ++ word_bytes v ++ bytes_of ws.
Proof.
  induction ws as [|w ws IH]; intros rest cur out v c HF Hl; [exists cur, out, v; split; [done|]; by rewrite app_nil_r|]. apply Forall_cons in HF as [Hw HF]. simpl in Hl.
  change (segs (w :: ws)) with (CH_COLON :: fmt_x w ++ segs ws). cbn [app]. rewrite <- app_assoc, pton6_colon_word, pton6_word by (done || lia).
  edestruct (IH rest (fmt_x w ++ segs ws ++ rest) (out ++ word_bytes v) w c) as (cur' & out' & v' & -> & E); [done|rewrite length_app; simpl; lia|]. exists cur', out', v'. split; [done|]. rewrite E. by rewrite <- app_assoc.
Qed.

Lemma out_length out v out' v' x : out' ++ word_bytes v' = out ++ word_bytes v ++ x -> length out' = (length out + length x)%nat.
Proof. intros E. apply (f_equal length) in E. rewrite !length_app in E. cbn [word_bytes length] in E. lia. Qed.

(** Words up to two colons, and the rest after them. *)
Lemma pton6_gap w pre rest cur : word16 w -> Forall word16 pre -> (2 + 2 * length pre <= 16)%nat ->
  pton6_loop (fmt_x w ++ segs pre ++ CH_COLON :: CH_COLON :: rest) cur (pad []) 0 None false 0 = pton6_loop rest rest (pad (bytes_of (w :: pre))) (length (bytes_of (w :: pre))) (Some (length (bytes_of (w :: pre)))) false 0.
Proof.
  intros Hw HF Hl. rewrite pton6_word by done. change 0%nat with (length (@nil Z)) at 1. destruct (pton6_segs pre (CH_COLON :: CH_COLON :: rest) cur [] w None HF Hl) as (cur' & out' & v' & -> & E). pose proof (out_length _ _ _ _ _ E) as Hlen. rewrite bytes_of_length in Hlen. simpl in Hlen.
  rewrite pton6_colon_word by lia. rewrite pton6_colon_gap. rewrite E. done.
Qed.

(** What follows the two colons. *)
Definition after_gap (post : list Z) : bytes := match post with [] => [] | w :: post => fmt_x w ++ segs post end.

Lemma pton6_after p post cur : Forall word16 post -> (length p + 2 * length post < 16)%nat ->
  pton6_loop (after_gap post) cur (pad p) (length p) (Some (length p)) false 0 = Valid (p ++ replicate (16 - length p - 2 * length post) 0 ++ bytes_of post).
Proof.
  intros HF Hl. destruct post as [|w post]; cbn [after_gap].
  - cbn [pton6_loop]. rewrite <- (app_nil_r p) at 1 2. simpl in Hl. rewrite pton6_fin_gap by (simpl; lia). simpl. done.
  - apply Forall_cons in HF as [Hw HF]. simpl in Hl. rewrite pton6_word by done. destruct (pton6_segs post [] cur p w (Some (length p)) HF ltac:(lia)) as (cur' & out' & v' & E1 & E). rewrite app_nil_r in E1. rewrite E1. clear E1.
    pose proof (out_length _ _ _ _ _ E) as Hlen. rewrite bytes_of_length in Hlen. cbn [pton6_loop]. rewrite pton6_end_word by lia. rewrite E. change (word_bytes w ++ bytes_of post) with (bytes_of (w :: post)).
    rewrite pton6_fin_gap; rewrite bytes_of_length; [done|simpl; lia].
Qed.

(** ** The longest run of zeros *)
Definition is_run (ws : list Z) (r : zrun) : Prop := forall b l, r = Some (b, l) -> (1 <= l)%nat /\ exists pre post, ws = pre ++ replicate l 0 ++ post /\ length pre = b.

Definition ends_run (ws : list Z) (r : zrun) : Prop := forall b l, r = Some (b, l) -> (1 <= l)%nat /\ exists pre, ws = pre ++ replicate l 0 /\ length pre = b.

Lemma is_run_app ws ws' r : is_run ws r -> is_run (ws ++ ws') r.
Proof. intros H b l E. destruct (H b l E) as (Hl & pre & post & -> & Hp). split; [done|]. exists pre, (post ++ ws'). by rewrite <- !app_assoc. Qed.

Lemma ends_is_run ws r : ends_run ws r -> is_run ws r.
Proof. intros H b l E. destruct (H b l E) as (Hl & pre & -> & Hp). split; [done|]. exists pre, []. by rewrite app_nil_r. Qed.

Lemma better_run ws cur best : is_run ws cur -> is_run ws best -> is_run ws (better cur best).
Proof. intros Hc Hb. unfold better. destruct cur as [[b l]|]; [|done]. destruct best as [[b' l']|]; [|done]. by case_bool_decide. Qed.

Lemma best_loop_run ws : forall dn cur best, ends_run dn cur -> is_run dn best -> is_run (dn ++ ws) (best_loop ws (length dn) cur best).
Proof.
  induction ws as [|w ws IH]; intros dn cur best Hc Hb; cbn [best_loop]; [rewrite app_nil_r; apply better_run; [by apply ends_is_run|done]|].
  rewrite cons_middle, app_assoc. replace (S (length dn)) with (length (dn ++ [w])) by (rewrite length_app; simpl; lia). destruct (Z.eqb_spec w 0) as [->|Hw]; apply IH.
  - destruct cur as [[b l]|]; intros b' l' [= <- <-]; (split; [lia|]).
    + destruct (Hc b l eq_refl) as (_ & pre & -> & Hp). exists pre. split; [|done]. rewrite <- app_assoc. by rewrite <- replicate_S_end.
    + exists dn. done.
  - by apply is_run_app.
  - done.
  - apply is_run_app, better_run; [by apply ends_is_run|done].
Qed.

Lemma best_run_spec ws b l : best_run ws = Some (b, l) -> (2 <= l)%nat /\ exists pre post, ws = pre ++ replicate l 0 ++ post /\ length pre = b.
Proof.
  unfold best_run. pose proof (best_loop_run ws [] None None) as H. cbn [app length] in H. destruct (best_loop ws 0 None None) as [[b' l']|]; [|done]. case_bool_decide; [done|]. intros [= -> ->].
  assert (is_run ws (Some (b, l))) as Hr by (by apply H). destruct (Hr b l eq_refl) as [_ H']. split; [lia|done].
Qed.

(** ** The text of inet_ntop6 *)
Lemma segs_cons w ws : segs (w :: ws) = CH_COLON :: fmt_x w ++ segs ws.
Proof. done. Qed.

Lemma ntop6_none ws : forall i src w5 tp, (1 <= i)%nat -> ntop6_loop ws i src None w5 tp = Some (tp ++ segs ws).
Proof.
  induction ws as [|w ws IH]; intros i src w5 tp Hi; cbn [ntop6_loop]; [by rewrite app_nil_r|]. rewrite andb_false_r, (bool_decide_eq_false_2 (i = 0%nat)) by lia. rewrite IH by lia. by rewrite segs_cons, <- !app_assoc.
Qed.

Lemma ntop6_before pre : forall rest i src b l w5 tp, (1 <= i)%nat -> (i + length pre <= b)%nat ->
  ntop6_loop (pre ++ rest) i src (Some (b, l)) w5 tp = ntop6_loop rest (i + length pre) src (Some (b, l)) w5 (tp ++ segs pre).
Proof.
  induction pre as [|w pre IH]; intros rest i src b l w5 tp Hi Hb; [cbn [app length segs]; by rewrite app_nil_r, Nat.add_0_r|]. simpl in Hb. cbn [app ntop6_loop].
  rewrite (bool_decide_eq_false_2 (b <= i < b + l)%nat), (bool_decide_eq_false_2 (i = 0%nat)), (bool_decide_eq_false_2 (b = 0%nat)) by lia. cbn [andb]. rewrite andb_false_r. rewrite IH by lia. cbn [length]. rewrite Nat.add_succ_r. by rewrite segs_cons, <- !app_assoc.
Qed.

Lemma ntop6_inside k : forall rest i src b l w5 tp, (b < i)%nat -> (i + k = b + l)%nat ->
  ntop6_loop (replicate k 0 ++ rest) i src (Some (b, l)) w5 tp = ntop6_loop rest (b + l) src (Some (b, l)) w5 tp.
Proof.
  induction k as [|k IH]; intros rest i src b l w5 tp Hi Hk; [by replace i with (b + l)%nat by lia|]. cbn [replicate app ntop6_loop].
  rewrite (bool_decide_eq_true_2 (b <= i < b + l)%nat), (bool_decide_eq_false_2 (i = b)) by lia. rewrite app_nil_r. apply IH; lia.
Qed.

Lemma ntop6_run rest src b l w5 tp : (1 <= l)%nat -> ntop6_loop (replicate l 0 ++ rest) b src (Some (b, l)) w5 tp = ntop6_loop rest (b + l) src (Some (b, l)) w5 (tp ++ [CH_COLON]).
Proof.
  intros Hl. destruct l as [|l]; [lia|]. cbn [replicate app ntop6_loop]. rewrite (bool_decide_eq_true_2 (b <= b < b + S l)%nat), (bool_decide_eq_true_2 (b = b)) by lia. apply ntop6_inside; lia.
Qed.

(** The last words are an address of IPv4. *)
Definition is_v4 (b l : nat) (w5 : Z) : bool := bool_decide (b = 0%nat) && (bool_decide (l = 6%nat) || (bool_decide (l = 5%nat) && (w5 =? 65535))).

Lemma ntop6_after post : forall i src b l w5 tp, (b + l <= i)%nat -> (1 <= i)%nat -> is_v4 b l w5 = false -> ntop6_loop post i src (Some (b, l)) w5 tp = Some (tp ++ segs post).
Proof.
  induction post as [|w post IH]; intros i src b l w5 tp Hb Hi Hv; cbn [ntop6_loop]; [by rewrite app_nil_r|]. rewrite (bool_decide_eq_false_2 (b <= i < b + l)%nat), (bool_decide_eq_false_2 (i = 0%nat)) by lia. fold (is_v4 b l w5). rewrite Hv, andb_false_r.
  rewrite IH by (done || lia). by rewrite segs_cons, <- !app_assoc.
Qed.

Lemma ntop6_v4 w post src b l w5 tp : (b + l <= 6)%nat -> is_v4 b l w5 = true -> ntop6_loop (w :: post) 6 src (Some (b, l)) w5 tp = (fun s => (tp ++ [CH_COLON]) ++ s) <$> inet_ntop4 (drop 12 src) (TMPSZ - zlen (tp ++ [CH_COLON])).
Proof. intros Hb Hv. cbn [ntop6_loop]. rewrite (bool_decide_eq_false_2 (b <= 6 < b + l)%nat), (bool_decide_eq_false_2 (6 = 0)%nat) by lia. fold (is_v4 b l w5). by rewrite Hv. Qed.

Lemma ntop6_step w ws i src b l w5 tp : (b + l <= i)%nat -> i <> 0%nat -> i <> 6%nat -> ntop6_loop (w :: ws) i src (Some (b, l)) w5 tp = ntop6_loop ws (S i) src (Some (b, l)) w5 ((tp ++ [CH_COLON]) ++ fmt_x w).
Proof. intros Hb H0 H6. cbn [ntop6_loop]. by rewrite (bool_decide_eq_false_2 (b <= i < b + l)%nat), (bool_decide_eq_false_2 (i = 0%nat)), (bool_decide_eq_false_2 (i = 6%nat)) by lia. Qed.

(** ** The words of an address *)
Lemma word_join x y : octet x -> octet y -> word16 (x * 256 + y) /\ word_bytes (x * 256 + y) = [x; y].
Proof.
  unfold octet, word16, word_bytes. intros Hx Hy. split; [lia|]. rewrite Z.shiftr_div_pow2 by lia. change 255 with (Z.ones 8). rewrite !Z.land_ones by lia. change (2 ^ 8) with 256.
  rewrite Z.div_add_l, (Z.div_small y), Z.add_0_r, (Z.mod_small x) by lia. rewrite Z.add_comm, Z.mod_add, Z.mod_small by lia. done.
Qed.

Lemma word_lor x y : octet x -> octet y -> Z.lor (Z.lor 0 (Z.shiftl x 8)) (Z.shiftl y 0) = x * 256 + y.
Proof. unfold octet. intros Hx Hy. rewrite Z.lor_0_l, Z.shiftl_0_r. by rewrite lor_shiftl by (change (2 ^ 8) with 256; lia). Qed.

(** Pairs of bytes. *)
Fixpoint pairs (a : bytes) : list Z := match a with x :: y :: a => (x * 256 + y) :: pairs a | _ => [] end.

Lemma words_pairs a : address 16 a -> words_of a = pairs a.
Proof.
  intros [Hl HF]. do 16 (destruct a as [|? a]; [done|]). destruct a; [|done]. decompose_Forall_hyps. unfold words_of. cbn [words_loop replicate pairs].
  cbn [Nat.div Nat.divmod fst alter list_alter]. cbn -[Z.lor Z.shiftl Z.mul Z.add]. rewrite !word_lor by done. done.
Qed.

Lemma pairs_ok n : forall a, address (2 * n) a -> length (pairs a) = n /\ Forall word16 (pairs a) /\ bytes_of (pairs a) = a.
Proof.
  induction n as [|n IH]; intros a [Hl HF]; [by destruct a|]. destruct a as [|x [|y a]]; [done|simpl in Hl; lia|]. apply Forall_cons in HF as [Hx HF]. apply Forall_cons in HF as [Hy HF].
  destruct (IH a) as (H1 & H2 & H3); [split; [simpl in Hl; lia|done]|]. destruct (word_join x y Hx Hy) as [Hw Hb]. cbn [pairs]. split; [simpl; lia|]. split; [by constructor|]. unfold bytes_of in *. cbn [mbind list_bind]. by rewrite Hb, H3.
Qed.

(** ** Four bytes at the end *)
Lemma hexval_lt ds : forall v, 0 <= v -> Forall (fun d => 0 <= d < 16) ds -> hexval v ds < (v + 1) * 16 ^ zlen ds.
Proof.
  induction ds as [|d ds IH]; intros v Hv HF; [change (16 ^ zlen []) with 1; simpl; lia|]. apply Forall_cons in HF as [Hd HF]. specialize (IH (v * 16 + d) ltac:(lia) HF). change (hexval v (d :: ds)) with (hexval (v * 16 + d) ds).
  rewrite zlen_cons, Z.pow_add_r, Z.pow_1_r by (pose proof (zlen_nonneg ds); lia). pose proof (Z.pow_pos_nonneg 16 (zlen ds) ltac:(lia) (zlen_nonneg ds)). nia.
Qed.

(** A decimal number read as a hexadecimal one. *)
Lemma dec_xdig n : octet n -> exists ds, dec n = xdig <$> ds /\ ds <> [] /\ Forall (fun d => 0 <= d < 16) ds /\ hexval 0 ds <= 65535.
Proof.
  unfold octet. intros Hn. pose proof (dec_digits n ltac:(lia)) as HF. pose proof (dec_length n 3 ltac:(lia) ltac:(lia)) as Hl. exists ((fun c => c - CH_0) <$> dec n).
  assert (Forall (fun d => 0 <= d < 16) ((fun c => c - CH_0) <$> dec n)) as HF' by (apply Forall_fmap; eapply Forall_impl; [exact HF|]; unfold CH_0, compose; simpl; intros c Hc; lia).
  split; [|split; [intros E; apply fmap_nil_inv in E; by apply (dec_nonempty n)|split; [done|]]].
  - rewrite <- list_fmap_compose. rewrite <- list_fmap_id at 1. apply list_fmap_ext. intros i c Hc. pose proof (Forall_lookup_1 _ _ _ _ HF Hc) as Hcr. unfold compose, xdig. cbv beta in Hcr. rewrite ltb_true by (unfold CH_0 in *; lia). simpl. lia.
  - pose proof (hexval_lt _ 0 ltac:(lia) HF') as Hlt. unfold zlen in Hlt, Hl. rewrite length_fmap in Hlt. pose proof (Z.pow_le_mono_r 16 (Z.of_nat (length (dec n))) 3 ltac:(lia) ltac:(lia)). change (16 ^ 3) with 4096 in *. lia.
Qed.

Lemma inserts_pad out q : (length out + length q <= 16)%nat -> list_inserts (length out) q (pad out) = pad (out ++ q).
Proof.
  revert out. induction q as [|x q IH]; intros out H; cbn [list_inserts]; [by rewrite app_nil_r|]. simpl in H.
  assert (pad out = pad (out ++ [0])) as Hp by (unfold pad; rewrite length_app, <- app_assoc; simpl; f_equal; by replace (16 - length out)%nat with (S (16 - (length out + 1))) by lia).
  assert (forall y, pad (out ++ y :: q) = out ++ y :: q ++ replicate (16 - length (out ++ x :: q)) 0) as Hy by (intros y; unfold pad; rewrite <- app_assoc; by rewrite !length_app).
  rewrite Hp. replace (S (length out)) with (length (out ++ [0])) by (rewrite length_app; simpl; lia). rewrite IH by (rewrite length_app; simpl; lia). rewrite <- app_assoc. cbn [app]. rewrite !Hy. rewrite insert_app_r_alt by lia. by rewrite Nat.sub_diag.
Qed.

Lemma pton6_quad q out c : address 4 q -> (length out + 4 <= 16)%nat -> exists v, pton6_loop (quad q) (quad q) (pad out) (length out) c false 0 = pton6_end (pad (out ++ q)) (length (out ++ q)) c false v.
Proof.
  intros Hq Ho. destruct (ntop4_pton4 q 15 Hq ltac:(lia)) as [_ Hp]. pose proof (inet_pton4_safe (quad q)) as Hs. rewrite Hp in Hs. destruct Hs as [Hl HF].
  assert (octet (nth 0 q 0)) as Hn by (destruct q; [done|]; by apply Forall_cons in HF as [? _]). destruct (dec_xdig _ Hn) as (ds & E & Hne & HFd & Hv). exists (hexval 0 ds).
  unfold quad at 1. rewrite E, pton6_digits by (done || lia). cbn [pton6_loop app]. change (xdigit CH_DOT) with (@None Z). change (CH_DOT =? CH_COLON) with false. rewrite Z.eqb_refl. cbn [andb]. rewrite bool_decide_eq_true_2 by (unfold INADDRSZ, IN6ADDRSZ; lia).
  rewrite Hp. rewrite bool_decide_eq_true_2 by (unfold pad; rewrite length_app, length_replicate; lia). cbn [or_overrun]. rewrite inserts_pad by lia. rewrite length_app, Hl. done.
Qed.

(** ** The round trip of IPv6 *)
Lemma fmt_x_length w : word16 w -> 1 <= zlen (fmt_x w) <= 4.
Proof. intros Hw. destruct (fmt_x_digits w Hw) as (ds & -> & Hne & _ & _ & Hl). unfold zlen in *. rewrite length_fmap. destruct ds; [done|]. simpl in *. lia. Qed.

Lemma segs_length ws : Forall word16 ws -> zlen (segs ws) <= 5 * zlen ws.
Proof. induction 1 as [|w ws Hw HF IH]; [done|]. rewrite segs_cons. pose proof (fmt_x_length w Hw). zl. Qed.

(** Characters of addresses: digits, colons and dots. *)
Definition addr_char (c : Z) : Prop := CH_0 <= c <= 57 \/ 97 <= c <= 102 \/ c = CH_COLON \/ c = CH_DOT.

Lemma fmt_x_chars w : word16 w -> Forall addr_char (fmt_x w).
Proof.
  intros Hw. destruct (fmt_x_digits w Hw) as (ds & -> & _ & HF & _). apply Forall_fmap. eapply Forall_impl; [exact HF|]. intros d Hd. unfold compose, addr_char, xdig, CH_0. cbv beta in Hd. destruct (Z.ltb_spec d 10); lia.
Qed.

Lemma segs_chars ws : Forall word16 ws -> Forall addr_char (segs ws).
Proof. induction 1 as [|w ws Hw HF IH]; [constructor|]. rewrite segs_cons. constructor; [unfold addr_char; auto|]. apply Forall_app. split; [by apply fmt_x_chars|done]. Qed.

Lemma quad_chars q : address 4 q -> Forall addr_char (quad q).
Proof.
  intros [Hl HF]. destruct q as [|a [|b [|c [|d [|? ?]]]]]; try done. unfold quad, octet in *. cbn [nth]. decompose_Forall_hyps.
  assert (forall n, 0 <= n <= 255 -> Forall addr_char (dec n)) as Hd by (intros n Hn; eapply Forall_impl; [apply dec_digits; lia|]; unfold addr_char; auto).
  assert (addr_char CH_DOT) by (unfold addr_char; auto). repeat (apply Forall_app; split; [by apply Hd|constructor; [done|]]). by apply Hd.
Qed.

Lemma chars_nonul s : Forall addr_char s -> nonul s.
Proof. intros H. eapply Forall_impl; [exact H|]. unfold addr_char, NUL, CH_0, CH_COLON, CH_DOT. intros c Hc. lia. Qed.

Definition gap_text (pre post : list Z) : bytes := after_gap pre ++ CH_COLON :: CH_COLON :: after_gap post.

Lemma after_gap_segs post : CH_COLON :: after_gap post = segs post ++ (if bool_decide (post = []) then [CH_COLON] else []).
Proof. destruct post as [|w post]; [done|]. cbn [after_gap]. rewrite bool_decide_eq_false_2 by done. by rewrite app_nil_r. Qed.

Lemma ntop6_first ws src w5 best : (forall b l, best = Some (b, l) -> (1 <= b)%nat) -> forall w, ntop6_loop (w :: ws) 0 src best w5 [] = ntop6_loop ws 1 src best w5 (fmt_x w).
Proof. intros Hb w. cbn [ntop6_loop]. destruct best as [[b l]|]; [|done]. specialize (Hb b l eq_refl). by rewrite (bool_decide_eq_false_2 (b <= 0 < b + l)%nat) by lia. Qed.

(** The words before the run, and the colon of the run. *)
Lemma ntop6_to_gap pre l rest src w5 : (1 <= l)%nat ->
  ntop6_loop (pre ++ replicate l 0 ++ rest) 0 src (Some (length pre, l)) w5 [] = ntop6_loop rest (length pre + l) src (Some (length pre, l)) w5 (after_gap pre ++ [CH_COLON]).
Proof.
  intros Hl. destruct pre as [|w pre]; [cbn [app length after_gap]; by rewrite ntop6_run|]. cbn [app]. rewrite ntop6_first by (intros b l' [= <- <-]; simpl; lia). rewrite ntop6_before by (simpl; lia). change (1 + length pre)%nat with (length (w :: pre)). by rewrite ntop6_run.
Qed.

Lemma ntop6_gap pre l post src w5 : (1 <= l)%nat -> (length pre + l + length post = 8)%nat -> is_v4 (length pre) l w5 = false ->
  exists t, ntop6_loop (pre ++ replicate l 0 ++ post) 0 src (Some (length pre, l)) w5 [] = Some t /\ t ++ (if bool_decide (length pre + l = 8)%nat then [CH_COLON] else []) = gap_text pre post.
Proof.
  intros Hl H8 Hv. rewrite ntop6_to_gap, ntop6_after by (done || lia). eexists. split; [done|]. unfold gap_text. rewrite <- !app_assoc. cbn [app]. rewrite after_gap_segs. do 3 f_equal.
  destruct post as [|w post]; [by rewrite bool_decide_eq_true_2 by (simpl in *; lia)|]. by rewrite !bool_decide_eq_false_2 by (done || (simpl in *; lia)).
Qed.

Lemma fmt_x_head w : word16 w -> exists c r, fmt_x w = c :: r /\ c <> CH_COLON /\ c <> CH_DOT /\ addr_char c.
Proof.
  intros Hw. destruct (fmt_x_digits w Hw) as (ds & -> & Hne & HF & _). destruct ds as [|d ds]; [done|]. apply Forall_cons in HF as [Hd _]. exists (xdig d), (xdig <$> ds). split; [done|].
  unfold addr_char, xdig, CH_0, CH_COLON, CH_DOT. destruct (Z.ltb_spec d 10); lia.
Qed.

Lemma pton6_start_word w rest : word16 w -> nonul (fmt_x w ++ rest) -> inet_pton6 (fmt_x w ++ rest) = pton6_loop (fmt_x w ++ rest) (fmt_x w ++ rest) (pad []) 0 None false 0.
Proof. intros Hw Hn. unfold inet_pton6. rewrite cstr_id by done. destruct (fmt_x_head w Hw) as (c & r & -> & Hc & _). cbn [app]. by rewrite eqb_false. Qed.

Lemma pton6_start_colons rest : nonul rest -> inet_pton6 (CH_COLON :: CH_COLON :: rest) = pton6_loop rest rest (pad []) 0 (Some 0%nat) false 0.
Proof. intros Hn. unfold inet_pton6. rewrite cstr_id by (by repeat constructor). done. Qed.

Lemma after_gap_chars ws : Forall word16 ws -> Forall addr_char (after_gap ws).
Proof. intros HF. destruct ws as [|w ws]; [constructor|]. apply Forall_cons in HF as [Hw HF]. apply Forall_app. split; [by apply fmt_x_chars|by apply segs_chars]. Qed.

(** Eight words, and words with a gap. *)
Lemma pton6_full w ws : Forall word16 (w :: ws) -> length ws = 7%nat -> inet_pton6 (after_gap (w :: ws)) = Valid (bytes_of (w :: ws)).
Proof.
  intros HF Hl. pose proof (chars_nonul _ (after_gap_chars _ HF)) as Hn. apply Forall_cons in HF as [Hw HF]. cbn [after_gap] in *. rewrite pton6_start_word, pton6_word by done. set (cur := fmt_x w ++ segs ws). change 0%nat with (length (@nil Z)).
  destruct (pton6_segs ws [] cur [] w None HF ltac:(simpl; lia)) as (cur' & out' & v' & E1 & E). rewrite app_nil_r in E1. rewrite E1. pose proof (out_length _ _ _ _ _ E) as Hlen. rewrite bytes_of_length in Hlen. simpl in Hlen. cbn [pton6_loop].
  rewrite pton6_end_word by lia. rewrite E. change ([] ++ word_bytes w ++ bytes_of ws) with (bytes_of (w :: ws)). apply pton6_fin_full. rewrite bytes_of_length. simpl. lia.
Qed.

Lemma pton6_gap_text pre l post : Forall word16 pre -> Forall word16 post -> (length pre + l + length post = 8)%nat -> (1 <= l)%nat -> inet_pton6 (gap_text pre post) = Valid (bytes_of (pre ++ replicate l 0 ++ post)).
Proof.
  intros Hpre Hpost H8 Hl. pose proof (chars_nonul _ (after_gap_chars _ Hpost)) as Hn.
  assert (inet_pton6 (gap_text pre post) = pton6_loop (after_gap post) (after_gap post) (pad (bytes_of pre)) (length (bytes_of pre)) (Some (length (bytes_of pre))) false 0) as ->.
  { unfold gap_text. destruct pre as [|w pre]; [cbn [after_gap app]; by rewrite pton6_start_colons|]. pose proof (chars_nonul _ (after_gap_chars _ Hpre)) as Hn'. apply Forall_cons in Hpre as [Hw Hpre]. cbn [after_gap] in *. rewrite <- app_assoc. simpl in H8.
    rewrite pton6_start_word; [|done|rewrite app_assoc; apply nonul_app; [done|by repeat constructor]]. rewrite pton6_gap by (done || lia). done. }
  rewrite pton6_after by (rewrite ?bytes_of_length; done || lia). f_equal. rewrite !bytes_of_app, bytes_of_zeros, bytes_of_length. by replace (16 - 2 * length pre - 2 * length post)%nat with (2 * l)%nat by lia.
Qed.

(** The address of IPv4 after two colons, or after [::ffff:]. *)
Lemma pton6_v4_text mid q : mid = [] \/ mid = [65535] -> address 4 q -> inet_pton6 (CH_COLON :: CH_COLON :: concat ((fun w => fmt_x w ++ [CH_COLON]) <$> mid) ++ quad q) = Valid (replicate (12 - 2 * length mid) 0 ++ bytes_of mid ++ q).
Proof.
  intros Hm Hq. pose proof (quad_nonul q Hq) as Hn. destruct Hq as [Hl HF]. destruct Hm as [->| ->].
  - cbn [fmap list_fmap concat app]. rewrite pton6_start_colons by done. change 0%nat with (length (@nil Z)) at 1. destruct (pton6_quad q [] (Some 0%nat) (conj Hl HF) ltac:(simpl; lia)) as [v ->]. change (Some 0%nat) with (Some (length (@nil Z))).
    rewrite pton6_fin_gap by (simpl; lia). cbn [app length]. by replace (16 - 0 - length q)%nat with 12%nat by lia.
  - cbn [fmap list_fmap concat]. rewrite app_nil_r. rewrite pton6_start_colons by (apply nonul_app; [by apply chars_nonul, Forall_app; split; [apply fmt_x_chars; unfold word16; lia|repeat constructor; unfold addr_char; auto]|done]). rewrite <- app_assoc. cbn [app].
    rewrite pton6_word by (unfold word16; lia). change 0%nat with (length (@nil Z)) at 1. rewrite pton6_colon_word by (simpl; lia). destruct (pton6_quad q ([] ++ word_bytes 65535) (Some 0%nat) (conj Hl HF) ltac:(simpl; lia)) as [v ->].
    change (Some 0%nat) with (Some (length (@nil Z))). cbn [app]. change (255 :: 255 :: q) with ([] ++ 255 :: 255 :: q).  change (word_bytes 65535 ++ q) with ([] ++ 255 :: 255 :: q). rewrite pton6_fin_gap by (simpl; lia). cbn [app length]. by replace (16 - 0 - S (S (length q)))%nat with 10%nat by lia.
Qed.

(** A text for an address. *)
Record text_ok (a s : bytes) : Prop := mkText {
  text_chars : Forall addr_char s;
  text_length : zlen s <= 39;
  text_colon : CH_COLON ∈ s;
  text_head : nth 0 s NUL <> CH_DOT /\ s <> [];
  text_parse : inet_pton6 s = Valid a }.

Lemma colon_char : addr_char CH_COLON.
Proof. unfold addr_char. auto. Qed.

Lemma after_gap_length ws : Forall word16 ws -> zlen (after_gap ws) <= Z.max 0 (5 * zlen ws - 1).
Proof. intros HF. destruct ws as [|w ws]; [done|]. apply Forall_cons in HF as [Hw HF]. cbn [after_gap]. pose proof (fmt_x_length w Hw). pose proof (segs_length ws HF). zl. Qed.

Lemma after_gap_head w ws rest : word16 w -> nth 0 (after_gap (w :: ws) ++ rest) NUL <> CH_DOT /\ after_gap (w :: ws) ++ rest <> [].
Proof. intros Hw. cbn [after_gap]. destruct (fmt_x_head w Hw) as (c & r & -> & _ & Hc & _). by split. Qed.

Lemma full_ok w ws : Forall word16 (w :: ws) -> length ws = 7%nat -> text_ok (bytes_of (w :: ws)) (after_gap (w :: ws)).
Proof.
  intros HF Hl. constructor; [by apply after_gap_chars| | | |by apply pton6_full].
  - pose proof (after_gap_length _ HF). unfold zlen in *. simpl length in *. lia.
  - destruct ws as [|x ws]; [done|]. cbn [after_gap]. rewrite segs_cons. set_solver.
  - rewrite <- (app_nil_r (after_gap _)). apply after_gap_head. by apply Forall_cons in HF as [? _].
Qed.

Lemma gap_ok pre l post : Forall word16 pre -> Forall word16 post -> (length pre + l + length post = 8)%nat -> (2 <= l)%nat -> text_ok (bytes_of (pre ++ replicate l 0 ++ post)) (gap_text pre post).
Proof.
  intros Hpre Hpost H8 Hl. constructor; [| | | |by apply pton6_gap_text; [..|lia]].
  - unfold gap_text. apply Forall_app. split; [by apply after_gap_chars|]. constructor; [apply colon_char|]. constructor; [apply colon_char|by apply after_gap_chars].
  - unfold gap_text. pose proof (after_gap_length pre Hpre). pose proof (after_gap_length post Hpost). autorewrite with zlen. assert (zlen pre + zlen post <= 6) by (unfold zlen; lia). pose proof (zlen_nonneg pre). pose proof (zlen_nonneg post). lia.
  - unfold gap_text. set_solver.
  - unfold gap_text. destruct pre as [|w pre]; [by split|]. apply after_gap_head. by apply Forall_cons in Hpre as [? _].
Qed.

Lemma v4_ok mid q : mid = [] \/ mid = [65535] -> address 4 q -> text_ok (replicate (12 - 2 * length mid) 0 ++ bytes_of mid ++ q) (CH_COLON :: CH_COLON :: concat ((fun w => fmt_x w ++ [CH_COLON]) <$> mid) ++ quad q).
Proof.
  intros Hm Hq. assert (Forall addr_char (concat ((fun w => fmt_x w ++ [CH_COLON]) <$> mid)) /\ zlen (concat ((fun w => fmt_x w ++ [CH_COLON]) <$> mid)) <= 5) as [Hc Hl].
  { destruct Hm as [->| ->]; [done|]. split; [|done]. cbn. repeat constructor; unfold addr_char; auto; vm_compute; intuition congruence. }
  constructor; [| |by constructor|done|by apply pton6_v4_text].
  - constructor; [apply colon_char|]. constructor; [apply colon_char|]. apply Forall_app. split; [done|by apply quad_chars].
  - pose proof (quad_length q Hq). zl.
Qed.

Lemma address_split n l r : address n (l ++ r) -> address (length r) r.
Proof. intros [_ HF]. apply Forall_app in HF as [_ HF]. done. Qed.

(** The text [inet_ntop6] writes. *)
Lemma ntop6_text a : address 16 a -> exists s, (forall size, inet_ntop6 a size = if size <? zlen s + 1 then None else Some s) /\ text_ok a s.
Proof.
  intros Ha. unfold inet_ntop6. rewrite words_pairs by done. destruct (pairs_ok 8 a Ha) as (Hl & HF & Hb). set (ws := pairs a) in *. clearbody ws. destruct (best_run ws) as [[b l]|] eqn:Eb.
  2: { destruct ws as [|w ws]; [done|]. rewrite ntop6_first, ntop6_none by (done || lia). exists (after_gap (w :: ws)). split; [intros size; by rewrite app_nil_r|]. rewrite <- Hb. apply full_ok; [done|by injection Hl]. }
  destruct (best_run_spec _ _ _ Eb) as (H2 & pre & post & E & <-). clear Eb. subst ws. rewrite !length_app, length_replicate in Hl. apply Forall_app in HF as [Hpre HF]. apply Forall_app in HF as [_ Hpost].
  destruct (is_v4 (length pre) l (nth 5 (pre ++ replicate l 0 ++ post) 0)) eqn:Ev.
  - unfold is_v4 in Ev. apply andb_true_iff in Ev as [Ep Ev]. apply bool_decide_eq_true in Ep. destruct pre; [|done]. clear Ep. cbn [app length] in *. rewrite bytes_of_app, bytes_of_zeros in Hb.
    assert (exists mid w post', post = mid ++ w :: post' /\ (mid = [] \/ mid = [65535]) /\ (l + length mid = 6)%nat) as (mid & w & post' & -> & Hm & Hlm).
    { apply orb_true_iff in Ev as [Ev|Ev]; [apply bool_decide_eq_true in Ev as ->; destruct post as [|w post]; [simpl in Hl; lia|]; exists [], w, post; by auto|].
      apply andb_true_iff in Ev as [El Ew]. apply bool_decide_eq_true in El as ->. destruct post as [|x [|w post]]; [simpl in Hl; lia|simpl in Hl; lia|]. cbn in Ew. apply Z.eqb_eq in Ew as ->. exists [65535], w, post. auto. }
    rewrite length_app in Hl. rewrite bytes_of_app in Hb. set (q := bytes_of (w :: post')) in *. assert (length q = 4%nat) as Hq by (unfold q; rewrite bytes_of_length; simpl in *; lia).
    assert (address 4 q) as Haq by (rewrite <- Hq; apply (address_split 16 (replicate (2 * l) 0 ++ bytes_of mid)); rewrite <- app_assoc, Hb; done).
    assert (drop 12 a = q) as Hd by (rewrite <- Hb, app_assoc; apply drop_app_length'; rewrite length_app, length_replicate, bytes_of_length; lia).
    pose proof (v4_ok mid q Hm Haq) as Ht. replace (12 - 2 * length mid)%nat with (2 * l)%nat in Ht by lia. rewrite Hb in Ht. eexists. split; [|exact Ht]. intros size.
    pose proof (quad_length q Haq) as Hlq. rewrite ntop6_run by lia. cbn [app Nat.add]. destruct Hm as [->| ->]; cbn [length] in Hlm.
    + assert (l = 6%nat) as -> by lia. cbn [app]. rewrite ntop6_v4, Hd by done. edestruct (ntop4_pton4 q) as [-> _]; [done|vm_compute; congruence|]. cbn [fmap option_fmap option_map]. rewrite app_nil_r. done.
    + assert (l = 5%nat) as -> by lia. cbn [app]. rewrite ntop6_step by (simpl; lia). rewrite ntop6_v4, Hd by (done || lia). edestruct (ntop4_pton4 q) as [-> _]; [done|vm_compute; congruence|]. cbn [fmap option_fmap option_map]. rewrite app_nil_r. done.
  - destruct (ntop6_gap pre l post a (nth 5 (pre ++ replicate l 0 ++ post) 0)) as (t & -> & Et); [lia|lia|done|]. rewrite Et. exists (gap_text pre post). split; [done|]. rewrite <- Hb. apply gap_ok; [done|done|lia|done].
Qed.

(** A string with a colon is not an address of IPv4. *)
Lemma pton4_colon src : forall tmp tp saw octets a, CH_COLON ∈ src -> pton4_loop src tmp tp saw octets <> Valid a.
Proof.
  induction src as [|ch src IH]; intros tmp tp saw octets a Hin; [by apply not_elem_of_nil in Hin|]. cbn [pton4_loop]. apply elem_of_cons in Hin as [<-|Hin]; [by destruct saw|]. repeat (case_match; try done); by apply IH.
Qed.

Lemma text_not_v4 a s b : text_ok a s -> inet_pton4 s <> Valid b.
Proof. intros Ht. unfold inet_pton4. rewrite cstr_id by (apply chars_nonul, Ht). apply pton4_colon, Ht. Qed.

(** ** inet_aton *)
Lemma aton_more s : forall rest dots x addr, 0 <= x -> Forall (fun c => CH_0 <= c <= 57) s -> num_go x s <= 255 -> aton_loop (s ++ rest) dots x addr = aton_loop rest dots (num_go x s) addr.
Proof.
  induction s as [|c s IH]; intros rest dots x addr Hx HF Hn; [done|]. apply Forall_cons in HF as [Hc HF]. rewrite num_go_digits in * by done. cbn [app aton_loop]. pose proof (num_go_ge s (x * 10 + (c - CH_0)) ltac:(lia) HF).
  assert (isdigit c = true) as -> by (unfold isdigit; by rewrite !leb_true by (unfold CH_0 in *; lia)). unfold wrapu. rewrite Z.mod_small by (unfold CH_0 in *; lia). apply IH; [unfold CH_0 in *; lia|done|done].
Qed.

Lemma aton_dec n rest dots addr : octet n -> aton_loop (dec n ++ rest) dots 0 addr = aton_loop rest dots n addr.
Proof.
  unfold octet. intros Hn. pose proof (dec_num n [] ltac:(lia)) as E. rewrite app_nil_r in E. cbn [num_go] in E. rewrite aton_more by (try apply dec_digits; lia). by rewrite E.
Qed.

Lemma aton_dot n rest dots addr : octet n -> dots < 3 -> 0 <= addr < 2 ^ 24 -> aton_loop (CH_DOT :: rest) dots n addr = aton_loop rest (dots + 1) 0 (addr * 256 + n).
Proof.
  unfold octet. intros Hn Hd Ha. cbn [aton_loop]. change (isdigit CH_DOT) with false. rewrite Z.eqb_refl, !ltb_false by lia. f_equal. unfold wrapu. rewrite Z.mod_small by (rewrite Z.shiftl_mul_pow2; lia). by rewrite lor_shiftl by (change (2 ^ 8) with 256; lia).
Qed.

Lemma htonl_quad a b c d : octet a -> octet b -> octet c -> octet d -> htonl_bytes (((a * 256 + b) * 256 + c) * 256 + d) = [a; b; c; d].
Proof.
  unfold octet, htonl_bytes. intros. change 255 with (Z.ones 8). rewrite !Z.land_ones, !Z.shiftr_div_pow2 by lia. change (2 ^ 24) with (256 * (256 * 256)). change (2 ^ 16) with (256 * 256). change (2 ^ 8) with 256.
  assert (forall x y, 0 <= y <= 255 -> (x * 256 + y) / 256 = x) as Hq by (intros x y Hy; rewrite Z.div_add_l, Z.div_small by lia; lia). assert (forall x y, 0 <= y <= 255 -> (x * 256 + y) mod 256 = y) as Hm by (intros x y Hy; rewrite Z.add_comm, Z.mod_add, Z.mod_small by lia; lia).
  rewrite <- !Z.div_div by lia. rewrite !Hq, !Hm, (Z.mod_small a) by lia. done.
Qed.

Lemma ntop4_aton q : address 4 q -> inet_aton (quad q) = Some q.
Proof.
  intros Hq. unfold inet_aton. rewrite cstr_id by (by apply quad_nonul). destruct Hq as [Hl HF]. destruct q as [|a [|b [|c [|d [|? ?]]]]]; try done. clear Hl. decompose_Forall_hyps. unfold quad. cbn [nth].
  assert (forall x, octet x -> 0 <= x <= 255) as Ho by done. pose proof (Ho a ltac:(done)). pose proof (Ho b ltac:(done)). pose proof (Ho c ltac:(done)). pose proof (Ho d ltac:(done)).
  rewrite aton_dec, aton_dot by (done || lia). rewrite aton_dec, aton_dot by (done || lia). rewrite aton_dec, aton_dot by (done || lia). rewrite <- (app_nil_r (dec d)), aton_dec by done.
  cbn [aton_loop]. rewrite ltb_false by lia. change (0 + 1 + 1 + 1 <? 3) with false. cbn iota zeta. unfold wrapu. rewrite (Z.mod_small (Z.shiftl _ 8)) by (rewrite Z.shiftl_mul_pow2; lia). rewrite lor_shiftl by (change (2 ^ 8) with 256; lia). change (2 ^ 8) with 256.
  rewrite Z.mod_small by lia. rewrite Z.mul_0_l, Z.add_0_l. f_equal. by apply htonl_quad.
Qed.

(** ** The checksum *)
Fixpoint wsum (l : bytes) : Z := match l with a :: b :: l => a + 256 * b + wsum l | [a] => a | [] => 0 end.

(** Induction by pairs. *)
Lemma pairs_ind (P : bytes -> Prop) : P [] -> (forall a, P [a]) -> (forall a b l, P l -> P (a :: b :: l)) -> forall l, P l.
Proof. intros H0 H1 H2 l. assert (P l /\ forall a, P (a :: l)) as [? _]; [|done]. induction l as [|x l [IH1 IH2]]; [auto|]. split; [done|]. intros a. by apply H2. Qed.

Lemma wsum_bound l : Forall octet l -> 0 <= wsum l /\ 2 * wsum l <= 65535 * (zlen l + 1).
Proof.
  unfold octet. induction l as [|a|a b l IH] using pairs_ind.
  - done.
  - intros HF. decompose_Forall_hyps. simpl. unfold zlen. simpl. lia.
  - intros HF. decompose_Forall_hyps. destruct IH as [H1' H2']; [done|]. cbn [wsum]. autorewrite with zlen. lia.
Qed.

Lemma sum_loop_wsum l : Forall octet l -> forall s, 0 <= s -> s + wsum l < 2 ^ 32 -> sum_loop l s = s + wsum l.
Proof.
  induction l as [|a|a b l IH] using pairs_ind.
  - intros _ s Hs Hb. simpl. lia.
  - intros HF s Hs Hb. decompose_Forall_hyps. unfold octet in *. cbn [sum_loop wsum] in *. unfold wrapu. by rewrite Z.mod_small by lia.
  - intros HF s Hs Hb. decompose_Forall_hyps. unfold octet in *. cbn [sum_loop wsum] in *. assert (0 <= wsum l) by (by apply wsum_bound). unfold wrapu. rewrite Z.mod_small by lia. rewrite IH by (done || lia). lia.
Qed.

Lemma wsum_app l r : Nat.even (length l) = true -> wsum (l ++ r) = wsum l + wsum r.
Proof. induction l as [|a|a b l IH] using pairs_ind; [done|done|]. intros He. cbn [app wsum]. rewrite IH by done. lia. Qed.

(** The two additions of the carries. *)
Lemma fold_sum_spec s : 0 <= s < 2 ^ 32 -> exists r k, wrapu 16 (fold_sum s) = r /\ 0 <= r <= 65535 /\ s = r + 65535 * k /\ 0 <= k /\ (r = 0 -> s = 0).
Proof.
  intros Hs. unfold fold_sum. change 65535 with (Z.ones 16) at 1 2. rewrite Z.land_ones, Z.shiftr_div_pow2 by lia. change (2 ^ 16) with 65536. pose proof (Z.div_mod s 65536). pose proof (Z.mod_pos_bound s 65536). assert (0 <= s / 65536 <= 65535) by (split; [apply Z.div_pos|apply Z.lt_succ_r, Z.div_lt_upper_bound]; lia).
  set (h := s / 65536) in *. set (lo := s mod 65536) in *. unfold wrapu. rewrite (Z.mod_small (h + lo)) by lia. rewrite Z.shiftr_div_pow2 by lia. change (2 ^ 16) with 65536.
  destruct (Z.lt_ge_cases (h + lo) 65536).
  - rewrite (Z.div_small (h + lo)), Z.add_0_r, (Z.mod_small (h + lo) (2 ^ 32)), Z.mod_small by lia. exists (h + lo), h. lia.
  - assert ((h + lo) / 65536 = 1) as -> by (symmetry; apply (Z.div_unique _ _ _ (h + lo - 65536)); lia). rewrite (Z.mod_small _ (2 ^ 32)) by lia. assert ((h + lo + 1) mod 65536 = h + lo - 65535) as -> by (symmetry; apply (Z.mod_unique _ _ 1); lia). exists (h + lo - 65535), (h + 1). lia.
Qed.

Lemma in_cksum_value l r : wrapu 16 (fold_sum (sum_loop l 0)) = r -> 0 <= r <= 65535 -> in_cksum l = 65535 - r.
Proof.
  intros E Hr. unfold in_cksum. rewrite <- E in *. unfold wrapu in *. set (x := fold_sum (sum_loop l 0)) in *. unfold Z.lnot. change (2 ^ 16) with 65536 in *. pose proof (Z.div_mod x 65536). symmetry. apply (Z.mod_unique _ _ (- (x / 65536) - 1)); lia.
Qed.

(** ** The properties *)

(** C33: for every family and every string, inet_pton never stores outside
    of its arrays, and an address it accepts has the 4 or 16 bytes of its
    family. *)
Theorem inet_pton_safe af src : conv_ok (if af =? FAM_INET then 4 else 16) (inet_pton af src).
Proof. unfold inet_pton. destruct (af =? FAM_INET); [apply inet_pton4_safe|]. destruct (af =? FAM_INET6); [apply inet_pton6_safe|done]. Qed.

(** C34: for every address of IPv4 or IPv6, with a buffer of 46 bytes,
    inet_ntop returns a string that fits into the array it is built in, and
    inet_pton of it gives the address back; for IPv4 the functions of
    inet_ntop_ipv4.c and inet_pton_ipv4.c, with inet_aton, give the same
    string and address. *)
Theorem inet_round_trip af a size :
  (af = FAM_INET /\ address 4 a) \/ (af = FAM_INET6 /\ address 16 a) -> TMPSZ <= size ->
  exists s, inet_ntop af a size = Some s /\ zlen s + 1 <= (if af =? FAM_INET then 16 else TMPSZ) /\ inet_pton af s = Valid a /\
    (af = FAM_INET -> inet_ntop_ipv4 af a size = Some s /\ inet_pton_ipv4 af s = Valid a).
Proof.
  unfold TMPSZ. intros [[-> Ha]|[-> Ha]] Hs; unfold inet_ntop, inet_pton; cbn [Z.eqb FAM_INET FAM_INET6 Pos.eqb].
  - destruct (ntop4_pton4 a size Ha ltac:(lia)) as [E1 E2]. pose proof (quad_length a Ha). exists (quad a). split; [done|]. split; [lia|]. split; [done|]. intros _. unfold inet_ntop_ipv4, inet_pton_ipv4. cbn [Z.eqb FAM_INET Pos.eqb].
    rewrite take_ge by (unfold zlen in *; lia). rewrite leb_false by lia. by rewrite ntop4_aton.
  - destruct (ntop6_text a Ha) as (s & E & Ht). exists s. pose proof (text_length _ _ Ht). rewrite E, ltb_false by lia. split; [done|]. split; [lia|]. split; [apply Ht|done].
Qed.

Lemma inet_round_trip_witness : inet_ntop FAM_INET6 [0; 0; 0; 0; 0; 0; 0; 0; 0; 0; 255; 255; 127; 0; 0; 1] 46 = Some (lit "::ffff:127.0.0.1") /\ inet_pton FAM_INET6 (lit "::ffff:127.0.0.1") = Valid [0; 0; 0; 0; 0; 0; 0; 0; 0; 0; 255; 255; 127; 0; 0; 1].
Proof.
  destruct (inet_round_trip FAM_INET6 [0; 0; 0; 0; 0; 0; 0; 0; 0; 0; 255; 255; 127; 0; 0; 1] 46) as (s & E & _ & Hp & _).
  - right. split; [done|]. split; [done|]. repeat constructor; done.
  - done.
  - assert (s = lit "::ffff:127.0.0.1") as Es by (vm_compute in E; injection E as <-; done). rewrite Es in E, Hp. by split.
Defined.

(** When the checksum of a packet of up to 128K bytes, computed with a
    zero in its place, is stored there, the checksum of the packet is 0. *)
Theorem in_cksum_verifies l r :
  Forall octet l -> Forall octet r -> Nat.even (length l) = true -> zlen l + zlen r + 2 < 2 ^ 17 ->
  let c := in_cksum (l ++ 0 :: 0 :: r) in 0 <= c <= 65535 /\ in_cksum (l ++ c mod 256 :: c / 256 :: r) = 0.
Proof.
  intros Hl Hr He Hlen c.
  assert (forall a b, octet a -> octet b -> sum_loop (l ++ a :: b :: r) 0 = wsum l + (a + 256 * b + wsum r) /\ 0 <= wsum l + (a + 256 * b + wsum r) < 2 ^ 32) as Hsum.
  { intros a b Ha Hb. assert (Forall octet (l ++ a :: b :: r)) as HF by (apply Forall_app; split; [done|constructor; [done|constructor; done]]). pose proof (wsum_bound _ HF) as [B1 B2]. rewrite wsum_app in B1, B2 by done. cbn [wsum] in B1, B2. rewrite zlen_app, !zlen_cons in B2.
    rewrite sum_loop_wsum; [|done|done|]; rewrite wsum_app by done; cbn [wsum]; lia. }
  destruct (Hsum 0 0 ltac:(done) ltac:(done)) as [E0 B0]. destruct (fold_sum_spec _ B0) as (x & k & Ex & Hx & Ek & Hk & _). rewrite <- E0 in Ex. pose proof (in_cksum_value _ _ Ex Hx) as Ec. fold c in Ec. split; [lia|].
  pose proof (Z.div_mod c 256). pose proof (Z.mod_pos_bound c 256). assert (0 <= c / 256 <= 255) by (split; [apply Z.div_pos|apply Z.lt_succ_r, Z.div_lt_upper_bound]; lia).
  destruct (Hsum (c mod 256) (c / 256)) as [E1 B1]; [unfold octet; lia|unfold octet; lia|]. destruct (fold_sum_spec _ B1) as (y & k' & Ey & Hy & Ek' & Hk' & Hz'). rewrite <- E1 in Ey. rewrite (in_cksum_value _ _ Ey Hy).
  destruct (Z.eq_dec y 0) as [Hy0|Hy0]; [specialize (Hz' Hy0); lia|]. lia.
Qed.

Lemma in_cksum_verifies_witness : in_cksum ([69; 0; 0; 20] ++ in_cksum ([69; 0; 0; 20] ++ 0 :: 0 :: [10; 0; 7]) mod 256 :: in_cksum ([69; 0; 0; 20] ++ 0 :: 0 :: [10; 0; 7]) / 256 :: [10; 0; 7]) = 0.
Proof. apply (in_cksum_verifies [69; 0; 0; 20] [10; 0; 7]); [repeat constructor; done|repeat constructor; done|done|done]. Defined.

(** ** What the code does not do *)

(** A full address with two colons loses the words after them. *)
Lemma full_gap_erases : inet_pton6 (lit "1:2:3:4::5:6:7:8") = Valid [0; 1; 0; 2; 0; 3; 0; 4; 0; 0; 0; 0; 0; 0; 0; 0].
Proof. by vm_compute. Qed.

(** A colon at the end of a full address is accepted. *)
Lemma trailing_colon : inet_pton6 (lit "1:2:3:4:5:6:7:8:") = inet_pton6 (lit "1:2:3:4:5:6:7:8").
Proof. by vm_compute. Qed.

(** The final null does not count: 8 bytes are written into a buffer of 7. *)
Lemma ntop4_no_null : exists s, inet_ntop4 [1; 2; 3; 4] 7 = Some s /\ zlen s + 1 = 8.
Proof. eexists. by vm_compute. Qed.

(** The empty string is an address, numbers that are too large wrap around,
    and missing parts are at the end. *)
Lemma aton_accepts : inet_aton [] = Some [0; 0; 0; 0] /\ inet_aton (lit "18446744073709551617.2.3.4") = Some [1; 2; 3; 4] /\ inet_aton (lit "127.1") = Some [127; 1; 0; 0].
Proof. by vm_compute. Qed.
