(* ===== verification/Gai.v ===== *)
(** * getaddrinfo and getnameinfo (unpv13e/libgai)

    The list of [addrinfo] structures is kept in a heap of allocated cells,
    so that errors free what they should.  The resolver, the service
    database and the conversions of addresses are parameters.  IPv4, IPv6
    and Unix domain sockets are all configured. *)
From S2P Require Import Prelude CString Posix.

Open Scope prog_scope.

(** ** Constants *)
Definition AF_UNSPEC : Z := 0.
Definition AF_LOCAL : Z := 1.
Definition AF_INET : Z := 2.
Definition AF_INET6 : Z := 10.

Definition SOCK_STREAM : Z := 1.
Definition SOCK_DGRAM : Z := 2.
Definition SOCK_RAW : Z := 3.

Definition AI_PASSIVE : Z := 1.
Definition AI_CANONNAME : Z := 2.
Definition AI_CLONE : Z := 4.

Definition NI_NOFQDN : Z := 1.
Definition NI_NUMERICHOST : Z := 2.
Definition NI_NAMEREQD : Z := 4.
Definition NI_NUMERICSERV : Z := 8.
Definition NI_DGRAM : Z := 16.

Definition EAI_ADDRFAMILY : Z := 1.
Definition EAI_AGAIN : Z := 2.
Definition EAI_BADFLAGS : Z := 3.
Definition EAI_FAIL : Z := 4.
Definition EAI_FAMILY : Z := 5.
Definition EAI_MEMORY : Z := 6.
Definition EAI_NODATA : Z := 7.
Definition EAI_NONAME : Z := 8.
Definition EAI_SERVICE : Z := 9.
Definition EAI_SOCKTYPE : Z := 10.
Definition EAI_SYSTEM : Z := 11.

(** [h_errno] *)
Definition HOST_NOT_FOUND : Z := 1.
Definition TRY_AGAIN : Z := 2.
Definition NO_RECOVERY : Z := 3.
Definition NO_DATA : Z := 4.

Definition gai_strerror (err : Z) : bytes :=
  if err =? EAI_ADDRFAMILY then lit "address family for host not supported"
  else if err =? EAI_AGAIN then lit "temporary failure in name resolution"
  else if err =? EAI_BADFLAGS then lit "invalid flags value"
  else if err =? EAI_FAIL then lit "non-recoverable failure in name resolution"
  else if err =? EAI_FAMILY then lit "address family not supported"
  else if err =? EAI_MEMORY then lit "memory allocation failure"
  else if err =? EAI_NODATA then lit "no address associated with host"
  else if err =? EAI_NONAME then lit "host nor service provided, or not known"
  else if err =? EAI_SERVICE then lit "service not supported for socket type"
  else if err =? EAI_SOCKTYPE then lit "socket type not supported"
  else if err =? EAI_SYSTEM then lit "system error"
  else lit "unknown getaddrinfo() error".

(** Two bytes in network order. *)
Definition htons (x : Z) : Z := let x := wrapu 16 x in Z.lor (Z.shiftl (Z.land x 255) 8) (Z.shiftr x 8).
Definition ntohs (x : Z) : Z := htons x.

Definition isxdigit (c : Z) : bool := isdigit c || ((65 <=? c) && (c <=? 70)) || ((97 <=? c) && (c <=? 102)).

(** ** The memory *)
Inductive sockaddr :=
| Sin (port : Z) (addr : bytes)
| Sin6 (port : Z) (addr : bytes)
| Sun (path : bytes).

Record addrinfo := mkAi { ai_flags : Z; ai_family : Z; ai_socktype : Z; ai_protocol : Z; ai_addrlen : Z; ai_canonname : Z; ai_addr : Z; ai_next : Z }.

Inductive cell := Cai (a : addrinfo) | Csa (a : sockaddr) | Cstr (s : bytes).

(** [sizeof] *)
Definition SIZE_IN : Z := 16.
Definition SIZE_IN6 : Z := 28.
Definition SIZE_UN : Z := 110.
Definition SUN_PATH : Z := 108.

(** The heap, the next address, which of the next allocations fail; the
    files that were unlinked; and the variables [aihead], [aipnext] ([None]
    points to [aihead], [Some p] to [p->ai_next]) and [canon].  A null
    pointer is 0. *)
Record gst := mkG { heap : gmap Z cell; nxt : Z; oom : list bool; unlinked : list bytes; aihead : Z; aipnext : option Z; canon : Z }.

Definition set_heap (h : gmap Z cell) (s : gst) : gst := mkG h (nxt s) (oom s) (unlinked s) (aihead s) (aipnext s) (canon s).
Definition set_aihead (p : Z) (s : gst) : gst := mkG (heap s) (nxt s) (oom s) (unlinked s) p (aipnext s) (canon s).
Definition set_aipnext (p : option Z) (s : gst) : gst := mkG (heap s) (nxt s) (oom s) (unlinked s) (aihead s) p (canon s).
Definition set_canon (p : Z) (s : gst) : gst := mkG (heap s) (nxt s) (oom s) (unlinked s) (aihead s) (aipnext s) p.
Definition add_unlinked (path : bytes) (s : gst) : gst := mkG (heap s) (nxt s) (oom s) (unlinked s ++ [path]) (aihead s) (aipnext s) (canon s).

Abbreviation gp := (Prog gst).

(** [calloc], [malloc] and [strdup]: a new cell, or a null pointer. *)
Definition alloc (c : cell) : gp Z :=
  do s <- get (fun s => s);
  match oom s with
  | true :: o => run put (fun s => mkG (heap s) (nxt s) o (unlinked s) (aihead s) (aipnext s) (canon s)); pret 0
  | o => run put (fun s => mkG (<[nxt s := c]> (heap s)) (nxt s + 1) (tail o) (unlinked s) (aihead s) (aipnext s) (canon s)); pret (nxt s)
  end.

Definition free (p : Z) : gp unit :=
  do s <- get (fun s => s);
  match heap s !! p with
  | Some _ => put (fun s => set_heap (delete p (heap s)) s)
  | None => if p =? 0 then pret tt else die "free"
  end.

Definition deref (p : Z) : gp addrinfo :=
  do h <- get heap;
  match h !! p with Some (Cai a) => pret a | _ => die "invalid pointer" end.

Definition store (p : Z) (c : cell) : gp unit := put (fun s => set_heap (<[p := c]> (heap s)) s).

Definition upd (p : Z) (f : addrinfo -> addrinfo) : gp unit := do a <- deref p; store p (Cai (f a)).

Definition set_next (q : Z) (a : addrinfo) : addrinfo := mkAi (ai_flags a) (ai_family a) (ai_socktype a) (ai_protocol a) (ai_addrlen a) (ai_canonname a) (ai_addr a) q.
Definition set_addr (p len : Z) (a : addrinfo) : addrinfo := mkAi (ai_flags a) (ai_family a) (ai_socktype a) (ai_protocol a) len (ai_canonname a) p (ai_next a).
Definition set_socktype (t : Z) (a : addrinfo) : addrinfo := mkAi (ai_flags a) (ai_family a) t (ai_protocol a) (ai_addrlen a) (ai_canonname a) (ai_addr a) (ai_next a).
Definition set_canonname (p : Z) (a : addrinfo) : addrinfo := mkAi (ai_flags a) (ai_family a) (ai_socktype a) (ai_protocol a) (ai_addrlen a) p (ai_addr a) (ai_next a).

(** [**paipnext = ai] *)
Definition store_tail (p : Z) : gp unit :=
  do t <- get aipnext;
  match t with None => put (set_aihead p) | Some q => upd q (set_next p) end.

(** [hints] *)
Record hints := mkHints { h_flags : Z; h_family : Z; h_socktype : Z; h_protocol : Z }.

Definition no_hints : hints := mkHints 0 AF_UNSPEC 0 0.

(** ** Structures *)

(** The address is copied with the size of its family. *)
Definition copy_addr (n : Z) (addr : bytes) : gp bytes := if zlen addr <? n then die "read behind address" else pret (take (Z.to_nat n) addr).

Definition ga_aistruct (h : hints) (addr : bytes) (family : Z) : gp Z :=
  do ai <- alloc (Cai (mkAi (if h_socktype h =? 0 then AI_CLONE else 0) family (h_socktype h) (h_protocol h) 0 0 0 0));
  if ai =? 0 then pret EAI_MEMORY
  else
    run store_tail ai;
    run put (set_aipnext (Some ai));
    if family =? AF_INET then
      do a <- copy_addr 4 addr;
      do sa <- alloc (Csa (Sin 0 a));
      if sa =? 0 then pret EAI_MEMORY else run upd ai (set_addr sa SIZE_IN); pret 0
    else if family =? AF_INET6 then
      do a <- copy_addr 16 addr;
      do sa <- alloc (Csa (Sin6 0 a));
      if sa =? 0 then pret EAI_MEMORY else run upd ai (set_addr sa SIZE_IN6); pret 0
    else if family =? AF_LOCAL then
      if SUN_PATH <=? strlen addr then pret EAI_SERVICE
      else
        do sa <- alloc (Csa (Sun (cstr addr)));
        if sa =? 0 then pret EAI_MEMORY
        else
          run upd ai (set_addr sa SIZE_UN);
          run (if has_flag (h_flags h) AI_PASSIVE then put (add_unlinked (cstr addr)) else pret tt);
          pret 0
    else pret 0.

(** The address is copied; one that is not allocated is not read. *)
Definition ga_clone (p : Z) : gp Z :=
  do a <- deref p;
  do new <- alloc (Cai (mkAi 0 (ai_family a) (ai_socktype a) (ai_protocol a) (ai_addrlen a) 0 0 (ai_next a)));
  if new =? 0 then pret 0
  else
    run upd p (set_next new);
    do h <- get heap;
    match h !! ai_addr a with
    | Some (Csa sa) =>
        do q <- alloc (Csa sa);
        if q =? 0 then pret 0
        else run upd new (set_addr q (ai_addrlen a)); pret new
    | _ => die "invalid address"
    end.

Definition ga_echeck (hostname servname : option bytes) (flags family socktype protocol : Z) : Z :=
  if negb (Z.land flags (Z.lnot (Z.lor AI_PASSIVE AI_CANONNAME)) =? 0) then EAI_BADFLAGS
  else if (match hostname with None | Some [] => true | _ => false end) && (match servname with None | Some [] => true | _ => false end) then EAI_NONAME
  else if family =? AF_UNSPEC then 0
  else if (family =? AF_INET) || (family =? AF_INET6) then
    if negb (socktype =? 0) && (negb (socktype =? SOCK_STREAM) && negb (socktype =? SOCK_DGRAM) && negb (socktype =? SOCK_RAW)) then EAI_SOCKTYPE else 0
  else if family =? AF_LOCAL then
    if negb (socktype =? 0) && (negb (socktype =? SOCK_STREAM) && negb (socktype =? SOCK_DGRAM)) then EAI_SOCKTYPE else 0
  else EAI_FAMILY.

(** The names and families to look up; [None]: the process exits. *)
Definition ga_nsearch (hostname : option bytes) (h : hints) : option (list (bytes * Z)) :=
  let by_family (h4 h6 : bytes) :=
    if h_family h =? AF_INET then Some [(h4, AF_INET)]
    else if h_family h =? AF_INET6 then Some [(h6, AF_INET6)]
    else if h_family h =? AF_UNSPEC then Some [(h6, AF_INET6); (h4, AF_INET)]
    else None in
  match hostname with
  | None | Some [] => if has_flag (h_flags h) AI_PASSIVE then by_family (lit "0.0.0.0") (lit "0::0") else by_family (lit "localhost") (lit "0::1")
  | Some host => by_family host host
  end.

(** The port is stored in the socket address of the structure. *)
Definition set_port (a : addrinfo) (port : Z) : gp Z :=
  do h <- get heap;
  if ai_family a =? AF_INET then
    match h !! ai_addr a with Some (Csa (Sin _ x)) => run store (ai_addr a) (Csa (Sin (wrapu 16 port) x)); pret 1 | _ => die "invalid address" end
  else if ai_family a =? AF_INET6 then
    match h !! ai_addr a with Some (Csa (Sin6 _ x)) => run store (ai_addr a) (Csa (Sin6 (wrapu 16 port) x)); pret 1 | _ => die "invalid address" end
  else pret 0.

(** The body from [ai->ai_socktype = socktype] on. *)
Definition set_entry (p port socktype : Z) : gp Z := run upd p (set_socktype socktype); do a <- deref p; set_port a port.

Fixpoint ga_port_loop (fuel : nat) (p port socktype nfound : Z) : gp Z :=
  match fuel with
  | O => die "fuel"
  | S fuel =>
      if p =? 0 then pret nfound
      else
        do a <- deref p;
        let next p n := do a <- deref p; ga_port_loop fuel (ai_next a) port socktype (nfound + n) in
        if has_flag (ai_flags a) AI_CLONE then
          if negb (ai_socktype a =? 0) then
            do p <- ga_clone p;
            if p =? 0 then pret (-1) else do n <- set_entry p port socktype; next p n
          else do n <- set_entry p port socktype; next p n
        else if negb (ai_socktype a =? socktype) then next p 0
        else do n <- set_entry p port socktype; next p n
  end.

Definition ga_port (head port socktype : Z) : gp Z :=
  do h <- get heap;
  ga_port_loop (S (size h)) head port socktype 0.

Fixpoint freeaddrinfo_loop (fuel : nat) (p : Z) : gp unit :=
  match fuel with
  | O => die "fuel"
  | S fuel =>
      if p =? 0 then pret tt
      else
        do a <- deref p;
        run (if negb (ai_addr a =? 0) then free (ai_addr a) else pret tt);
        run (if negb (ai_canonname a =? 0) then free (ai_canonname a) else pret tt);
        run free p;
        freeaddrinfo_loop fuel (ai_next a)
  end.

Definition freeaddrinfo (head : Z) : gp unit :=
  do h <- get heap;
  freeaddrinfo_loop (S (size h)) head.

(** [if ((rc = m) != 0) return rc; k] *)
Definition check (m k : gp Z) : gp Z := do rc <- m; if negb (rc =? 0) then pret rc else k.

(** ** The lookups *)
Record hostent := mkHostent { h_name : bytes; h_addrtype : Z; h_addr_list : list bytes }.

Section gai.

(** The library: [inet_pton] and [inet_ntop], the resolver, which returns a
    host or [h_errno] ([gethostbyname] depends on RES_USE_INET6), the
    services and the name of the machine. *)
Context (inet_pton : Z -> bytes -> option bytes) (inet_ntop : Z -> bytes -> Z -> option bytes).
Context (gethostbyname : bool -> bytes -> hostent + Z) (gethostbyname2 : bytes -> Z -> hostent + Z) (gethostbyaddr : bytes -> Z -> option bytes).
Context (getservbyname : bytes -> bytes -> option Z) (getservbyport : Z -> bool -> option bytes) (uname : option bytes).

(** One call of [ga_port]; a negative count is an error of memory. *)
Definition count_port (head port socktype nfound : Z) (k : Z -> gp Z) : gp Z :=
  do rc <- ga_port head port socktype;
  if rc <? 0 then pret EAI_MEMORY else k (nfound + rc).

Definition ga_serv (head : Z) (h : hints) (serv : bytes) : gp Z :=
  let finish nfound := if nfound =? 0 then pret (if h_socktype h =? 0 then EAI_NONAME else EAI_SERVICE) else pret 0 in
  if isdigit (nth 0 serv NUL) then
    let port := htons (atoi serv) in
    if negb (h_socktype h =? 0) then count_port head port (h_socktype h) 0 finish
    else count_port head port SOCK_STREAM 0 (fun n => count_port head port SOCK_DGRAM n finish)
  else
    let by_name proto socktype nfound k :=
      if (h_socktype h =? 0) || (h_socktype h =? socktype) then
        match getservbyname serv proto with Some port => count_port head port socktype nfound k | None => k nfound end
      else k nfound in
    by_name (lit "tcp") SOCK_STREAM 0 (fun n => by_name (lit "udp") SOCK_DGRAM n finish).

(** The error and the list. *)
Definition ga_unix (path : bytes) (h : hints) : gp (Z * Z) :=
  run put (set_aihead 0);
  run put (set_aipnext None);
  let entry t := ga_aistruct (mkHints (h_flags h) (h_family h) t (h_protocol h)) path AF_LOCAL in
  do rc <-
    (if negb (h_family h =? AF_UNSPEC) && negb (h_family h =? AF_LOCAL) then pret EAI_ADDRFAMILY
     else
       check (if h_socktype h =? 0 then entry SOCK_STREAM else pret 0)
      (check (entry (if h_socktype h =? 0 then SOCK_DGRAM else h_socktype h))
       (if has_flag (h_flags h) AI_CANONNAME then
          match uname with
          | None => pret EAI_SYSTEM
          | Some name =>
              do c <- alloc (Cstr name);
              do hd <- get aihead;
              run upd hd (set_canonname c);
              pret (if c =? 0 then EAI_MEMORY else 0)
          end
        else pret 0)));
  do hd <- get aihead;
  pret (rc, if rc =? 0 then hd else 0).

(** A numeric address: [None] when it is not one. *)
Definition numeric (h : hints) (host : bytes) (family af : Z) : option (gp Z) :=
  match inet_pton af host with
  | Some addr =>
      Some (if negb (h_family h =? AF_UNSPEC) && negb (h_family h =? af) then pret EAI_ADDRFAMILY
            else if negb (family =? af) then pret 0
            else ga_aistruct h addr af)
  | None => None
  end.

Definition numeric4 (h : hints) (host : bytes) (family : Z) : option (gp Z) :=
  if isdigit (nth 0 host NUL) then numeric h host family AF_INET else None.

Definition numeric6 (h : hints) (host : bytes) (family : Z) : option (gp Z) :=
  if (isxdigit (nth 0 host NUL) || (nth 0 host NUL =? CH_COLON)) && bool_decide (CH_COLON ∈ host) then numeric h host family AF_INET6 else None.

Definition herr (e : Z) : Z :=
  if e =? HOST_NOT_FOUND then EAI_NONAME else if e =? TRY_AGAIN then EAI_AGAIN else if e =? NO_RECOVERY then EAI_FAIL else if e =? NO_DATA then EAI_NODATA else EAI_NONAME.

Fixpoint add_addrs (h : hints) (addrs : list bytes) (family : Z) : gp Z :=
  match addrs with
  | [] => pret 0
  | a :: addrs => check (ga_aistruct h a family) (add_addrs h addrs family)
  end.

(** [hostname] is given and its canonical name is wanted. *)
Definition want_canon (hostname : option bytes) (h : hints) : bool :=
  match hostname with None | Some [] => false | _ => has_flag (h_flags h) AI_CANONNAME end.

(** What the resolver has found. *)
Definition found (hostname : option bytes) (h : hints) (hp : hostent) : gp Z :=
  if negb (h_family h =? AF_UNSPEC) && negb (h_family h =? h_addrtype hp) then pret EAI_ADDRFAMILY
  else
    check
      (do c <- get canon;
       if want_canon hostname h && (c =? 0) then
         do c <- alloc (Cstr (h_name hp));
         if c =? 0 then pret EAI_MEMORY else run put (set_canon c); pret 0
       else pret 0)
      (add_addrs h (h_addr_list hp) (h_addrtype hp)).

Definition lookup_host (hostname : option bytes) (h : hints) (nsearch : Z) (host : bytes) (family : Z) : gp Z :=
  match (if nsearch =? 2 then gethostbyname2 host family else gethostbyname (family =? AF_INET6) host) with
  | inr e => if nsearch =? 2 then pret 0 else pret (herr e)
  | inl hp => found hostname h hp
  end.

Definition search_one (hostname : option bytes) (h : hints) (nsearch : Z) (host : bytes) (family : Z) : gp Z :=
  match numeric4 h host family with
  | Some m => m
  | None => match numeric6 h host family with Some m => m | None => lookup_host hostname h nsearch host family end
  end.

Fixpoint search_loop (hostname : option bytes) (h : hints) (nsearch : Z) (search : list (bytes * Z)) : gp Z :=
  match search with
  | [] => pret 0
  | (host, family) :: search => check (search_one hostname h nsearch host family) (search_loop hostname h nsearch search)
  end.

(** After the loop. *)
Definition canonname (hostname : option bytes) (h : hints) (host0 : bytes) : gp Z :=
  if want_canon hostname h then
    do hd <- get aihead;
    do c <- get canon;
    if negb (c =? 0) then run upd hd (set_canonname c); pret 0
    else
      do c <- alloc (Cstr host0);
      run upd hd (set_canonname c);
      pret (if c =? 0 then EAI_MEMORY else 0)
  else pret 0.

Definition services (servname : option bytes) (h : hints) : gp Z :=
  match servname with
  | None | Some [] => pret 0
  | Some serv => do hd <- get aihead; ga_serv hd h serv
  end.

Definition is_unix (hostname servname : option bytes) : option bytes :=
  match hostname, servname with
  | Some host, Some serv => if (streq host (lit "/local") || streq host (lit "/unix")) && (nth 0 serv NUL =? 47) then Some serv else None
  | _, _ => None
  end.

(** The error and the list; with an error the list is freed. *)
Definition bad (rc : Z) : gp (Z * Z) :=
  do hd <- get aihead;
  run freeaddrinfo hd;
  pret (rc, 0).

Definition getaddrinfo (hostname servname : option bytes) (hintsp : option hints) : gp (Z * Z) :=
  run put (set_aihead 0);
  run put (set_aipnext None);
  run put (set_canon 0);
  let h := default no_hints hintsp in
  let rc := ga_echeck hostname servname (h_flags h) (h_family h) (h_socktype h) (h_protocol h) in
  if negb (rc =? 0) then bad rc
  else
    match is_unix hostname servname with
    | Some path => ga_unix path h
    | None =>
        match ga_nsearch hostname h with
        | None => die "nsearch = 0"
        | Some search =>
            do rc <-
              check (search_loop hostname h (zlen search) search)
             (do hd <- get aihead;
              if hd =? 0 then pret EAI_NONAME
              else check (canonname hostname h (default [] (fst <$> search !! 0%nat))) (services servname h));
            if negb (rc =? 0) then bad rc else do hd <- get aihead; pret (0, hd)
        end
    end.

(** ** Names *)

(** [snprintf(buf, n, "%s", s)] *)
Definition snprintf_s (n : Z) (s : bytes) : bytes := take (Z.to_nat (n - 1)) s.

(** The return value, and the two strings where they are stored. *)
Definition gn_ipv46 (hostlen servlen : Z) (addr : bytes) (family port flags : Z) : Z * option bytes * option bytes :=
  let host :=
    if 0 <? hostlen then
      if has_flag flags NI_NUMERICHOST then match inet_ntop family addr hostlen with None => inr 1 | Some s => inl (Some s) end
      else
        match gethostbyaddr addr family with
        | Some name =>
            let name := if has_flag flags NI_NOFQDN then match strchr name 46 with Some i => take (Z.to_nat i) name | None => name end else name in
            inl (Some (snprintf_s hostlen name))
        | None =>
            if has_flag flags NI_NAMEREQD then inr 1
            else match inet_ntop family addr hostlen with None => inr 1 | Some s => inl (Some s) end
        end
    else inl None in
  match host with
  | inr rc => (rc, None, None)
  | inl host =>
      let serv :=
        if 0 <? servlen then
          if has_flag flags NI_NUMERICSERV then Some (snprintf_s servlen (fmt_d (ntohs port)))
          else match getservbyport port (has_flag flags NI_DGRAM) with
               | Some name => Some (snprintf_s servlen name)
               | None => Some (snprintf_s servlen (fmt_d (ntohs port)))
               end
        else None in
      (0, host, serv)
  end.

Definition getnameinfo (sa : sockaddr) (hostlen servlen flags : Z) : Z * option bytes * option bytes :=
  match sa with
  | Sin port addr => gn_ipv46 hostlen servlen addr AF_INET port flags
  | Sin6 port addr => gn_ipv46 hostlen servlen addr AF_INET6 port flags
  | Sun path =>
      (0, if 0 <? hostlen then Some (snprintf_s hostlen (lit "/local")) else None,
          if 0 <? servlen then Some (snprintf_s servlen path) else None)
  end.

End gai.
