(* ===== verification/GaiThms.v ===== *)
(** * The list that getaddrinfo builds

    What the memory holds, and a definition of the result without memory:
    an entry for every address and every port. *)
From S2P Require Import Prelude CString Posix Gai.

Open Scope prog_scope.

(** ** Cells

    The heap as a collection of cells: what is allocated, in any order. *)
Record wf (s : gst) (G : list (Z * cell)) : Prop := mkWf {
  wf_cells : map_to_list (heap s) ≡ₚ G;
  wf_fresh : forall p, nxt s <= p -> heap s !! p = None;
  wf_null : heap s !! 0 = None;
  wf_nxt : 0 < nxt s
}.

(** The variables, and no new failures to come. *)
Record same (s s' : gst) : Prop := mkSame {
  same_head : aihead s' = aihead s;
  same_tail : aipnext s' = aipnext s;
  same_canon : canon s' = canon s;
  same_oom : forall b, b ∈ oom s' -> b ∈ oom s
}.

Lemma same_refl s : same s s.
Proof. by constructor. Qed.

Lemma same_trans s1 s2 s3 : same s1 s2 -> same s2 s3 -> same s1 s3.
Proof. intros [] []. constructor; try congruence. auto. Qed.

Lemma same_set_heap h s : same s (set_heap h s).
Proof. by constructor. Qed.

Create HintDb gai.
#[export] Hint Resolve same_refl same_trans same_set_heap : gai.

Lemma wf_perm s G G' : G ≡ₚ G' -> wf s G -> wf s G'.
Proof. intros H [H1 ? ? ?]. constructor; [by rewrite H1|done..]. Qed.

Lemma wf_lookup s p c R : wf s ((p, c) :: R) -> heap s !! p = Some c.
Proof. intros [H _ _ _]. apply elem_of_map_to_list. rewrite H. by left. Qed.

Lemma wf_nonnull s p c R : wf s ((p, c) :: R) -> p <> 0.
Proof. intros H ->. pose proof (wf_lookup _ _ _ _ H) as Hl. by rewrite (wf_null _ _ H) in Hl. Qed.

Lemma wf_update s p c c' R : wf s ((p, c) :: R) -> wf (set_heap (<[p := c']> (heap s)) s) ((p, c') :: R).
Proof.
  intros H. pose proof (wf_lookup _ _ _ _ H) as Hl. pose proof (wf_nonnull _ _ _ _ H) as H0. destruct H as [H1 H2 H3 H4]. constructor; cbn; [| |by rewrite lookup_insert_ne|done].
  - rewrite <- insert_delete_eq, map_to_list_insert by apply lookup_delete_eq. constructor.
    pose proof (map_to_list_delete (heap s) p c Hl) as Hd. rewrite <- Hd in H1. by apply Permutation_cons_inv in H1.
  - intros q Hq. rewrite lookup_insert_ne; [by apply H2|]. intros ->. rewrite H2 in Hl by done. done.
Qed.

Lemma wf_delete s p c R : wf s ((p, c) :: R) -> wf (set_heap (delete p (heap s)) s) R.
Proof.
  intros H. pose proof (wf_lookup _ _ _ _ H) as Hl. destruct H as [H1 H2 H3 H4]. constructor; cbn; [| | |done].
  - pose proof (map_to_list_delete (heap s) p c Hl) as Hd. rewrite <- Hd in H1. by apply Permutation_cons_inv in H1.
  - intros q Hq. apply lookup_delete_None. right. by apply H2.
  - apply lookup_delete_None. by right.
Qed.

(** Allocation succeeds or was to fail. *)
Lemma gai_alloc_run c s G : wf s G ->
  exists s', same s s' /\
    ((alloc c s = Ok 0 s' /\ wf s' G /\ true ∈ oom s) \/ exists p, alloc c s = Ok p s' /\ p <> 0 /\ wf s' ((p, c) :: G)).
Proof.
  intros [H1 H2 H3 H4]. unfold alloc. pstep. destruct (oom s) as [|[] o] eqn:Eo.
  - eexists. split; [|right; exists (nxt s); split; [done|split; [lia|]]]; [by constructor; cbn; rewrite ?Eo|]. constructor; cbn.
    + rewrite map_to_list_insert by (apply H2; lia). by constructor.
    + intros q Hq. rewrite lookup_insert_ne by lia. apply H2. lia.
    + rewrite lookup_insert_ne by lia. done.
    + lia.
  - eexists. split; [|left; split; [done|split; [by constructor|by left]]]. constructor; try done. cbn. rewrite Eo. intros b Hb. by right.
  - eexists. split; [|right; exists (nxt s); split; [done|split; [lia|]]]; [constructor; cbn; try done; rewrite Eo; intros b Hb; by right|]. constructor; cbn.
    + rewrite map_to_list_insert by (apply H2; lia). by constructor.
    + intros q Hq. rewrite lookup_insert_ne by lia. apply H2. lia.
    + rewrite lookup_insert_ne by lia. done.
    + lia.
Qed.

Lemma gai_deref_run p a R s : wf s ((p, Cai a) :: R) -> deref p s = Ok a s.
Proof. intros H. unfold deref. pstep. by rewrite (wf_lookup _ _ _ _ H). Qed.

Lemma gai_upd_run p a f R s : wf s ((p, Cai a) :: R) -> exists s', upd p f s = Ok tt s' /\ same s s' /\ wf s' ((p, Cai (f a)) :: R).
Proof.
  intros H. unfold upd. rewrite (pbind_ok _ _ _ _ _ (gai_deref_run _ _ _ _ H)). eexists. split; [done|]. split; [apply same_set_heap|]. by eapply wf_update.
Qed.

Lemma gai_store_run p c c' R s : wf s ((p, c) :: R) -> exists s', store p c' s = Ok tt s' /\ same s s' /\ wf s' ((p, c') :: R).
Proof. intros H. eexists. split; [done|]. split; [apply same_set_heap|]. by eapply wf_update. Qed.

Lemma free_run p c R s : wf s ((p, c) :: R) -> exists s', free p s = Ok tt s' /\ same s s' /\ wf s' R.
Proof. intros H. unfold free. pstep. rewrite (wf_lookup _ _ _ _ H). eexists. split; [done|]. split; [apply same_set_heap|]. by eapply wf_delete. Qed.

(** ** The list *)
Record node := mkNode { n_ptr : Z; n_flags : Z; n_family : Z; n_socktype : Z; n_protocol : Z; n_len : Z; n_canon : option (Z * bytes); n_sa : option (Z * sockaddr) }.

Definition ptr_of {A} (o : option (Z * A)) : Z := match o with Some (p, _) => p | None => 0 end.

Definition ai_of (n : node) (next : Z) : addrinfo := mkAi (n_flags n) (n_family n) (n_socktype n) (n_protocol n) (n_len n) (ptr_of (n_canon n)) (ptr_of (n_sa n)) next.

Definition str_cells (o : option (Z * bytes)) : list (Z * cell) := match o with Some (p, x) => [(p, Cstr x)] | None => [] end.
Definition sa_cells (o : option (Z * sockaddr)) : list (Z * cell) := match o with Some (p, x) => [(p, Csa x)] | None => [] end.

Definition node_cells (n : node) (next : Z) : list (Z * cell) := (n_ptr n, Cai (ai_of n next)) :: sa_cells (n_sa n) ++ str_cells (n_canon n).

Definition hd_ptr (l : list node) (q : Z) : Z := match l with [] => q | n :: _ => n_ptr n end.

(** The cells of a list whose last structure points to [q]. *)
Fixpoint cells (l : list node) (q : Z) : list (Z * cell) :=
  match l with [] => [] | n :: l => node_cells n (hd_ptr l q) ++ cells l q end.

Lemma hd_ptr_app l1 l2 q : hd_ptr (l1 ++ l2) q = hd_ptr l1 (hd_ptr l2 q).
Proof. by destruct l1. Qed.

Lemma cells_app l1 l2 q : cells (l1 ++ l2) q = cells l1 (hd_ptr l2 q) ++ cells l2 q.
Proof. induction l1 as [|n l1 IH]; [done|]. cbn [app cells]. by rewrite IH, hd_ptr_app, <- app_assoc. Qed.

(** The structure in the middle, first. *)
Lemma cells_mid l1 n l2 q F : cells (l1 ++ n :: l2) q ++ F ≡ₚ node_cells n (hd_ptr l2 q) ++ cells l1 (n_ptr n) ++ cells l2 q ++ F.
Proof. rewrite cells_app. cbn [cells hd_ptr]. rewrite <- !app_assoc. by rewrite Permutation_app_swap_app. Qed.

(** What a caller sees of a structure. *)
Record view := mkView { v_flags : Z; v_family : Z; v_socktype : Z; v_protocol : Z; v_len : Z; v_canon : option bytes; v_sa : option sockaddr }.

Definition view_of (n : node) : view := mkView (n_flags n) (n_family n) (n_socktype n) (n_protocol n) (n_len n) (snd <$> n_canon n) (snd <$> n_sa n).

(** ** Adding structures *)
Section search.
Context (h : hints) (hostname : option bytes).

(** The address of a family. *)
Definition addr_ok (fa : Z * bytes) : Prop := (fa.1 = AF_INET /\ zlen fa.2 = 4) \/ (fa.1 = AF_INET6 /\ zlen fa.2 = 16).

Definition sa_of (fa : Z * bytes) (port : Z) : sockaddr := if fa.1 =? AF_INET then Sin port fa.2 else Sin6 port fa.2.
Definition len_of (fa : Z * bytes) : Z := if fa.1 =? AF_INET then SIZE_IN else SIZE_IN6.

(** A structure for an address. *)
Definition host_view (fa : Z * bytes) : view :=
  mkView (if h_socktype h =? 0 then AI_CLONE else 0) fa.1 (h_socktype h) (h_protocol h) (len_of fa) None (Some (sa_of fa 0)).

(** The variables of the search: the list [l], the canonical name [c], and
    the other cells [F]. *)
Record ok (s : gst) (l : list node) (c : option (Z * bytes)) (F : list (Z * cell)) : Prop := mkOk {
  ok_wf : wf s (cells l 0 ++ str_cells c ++ F);
  ok_head : aihead s = hd_ptr l 0;
  ok_tail : aipnext s = n_ptr <$> last l;
  ok_canon : canon s = ptr_of c;
  ok_want : want_canon hostname h = false -> c = None
}.

Definition new_node (p family : Z) : node := mkNode p (if h_socktype h =? 0 then AI_CLONE else 0) family (h_socktype h) (h_protocol h) 0 None None.

(** The first part of [ga_aistruct]. *)
Lemma gai_append_run s s1 l c F p family :
  ok s l c F -> same s s1 -> p <> 0 -> wf s1 ((p, Cai (ai_of (new_node p family) 0)) :: cells l 0 ++ str_cells c ++ F) ->
  exists s2, (run store_tail p; put (set_aipnext (Some p))) s1 = Ok tt s2 /\ ok s2 (l ++ [new_node p family]) c F /\ (forall b, b ∈ oom s2 -> b ∈ oom s).
Proof.
  intros [H1 H2 H3 H4 H5] Hs Hp Hwf. unfold store_tail. pstep. rewrite (same_tail _ _ Hs), H3. destruct l as [|m l _] using rev_ind.
  - cbn [last fmap option_fmap option_map]. pstep. eexists. split; [done|]. split; [|cbn; apply (same_oom _ _ Hs)]. constructor; cbn; try done; [|by rewrite (same_canon _ _ Hs)].
    destruct Hwf as [W1 W2 W3 W4]. constructor; done.
  - rewrite last_snoc. cbn [fmap option_fmap option_map]. rewrite cells_app in Hwf. cbn [cells hd_ptr] in Hwf. rewrite app_nil_r in Hwf.
    assert (wf s1 ((n_ptr m, Cai (ai_of m 0)) :: sa_cells (n_sa m) ++ str_cells (n_canon m) ++ cells l (n_ptr m) ++ node_cells (new_node p family) 0 ++ str_cells c ++ F)) as Hwf'.
    { eapply wf_perm; [|exact Hwf]. unfold node_cells. cbn [new_node n_ptr n_sa n_canon sa_cells str_cells]. rewrite <- !app_assoc. cbn [app]. solve_Permutation. }
    destruct (gai_upd_run _ _ (set_next p) _ _ Hwf') as (s2 & E & Hs2 & Hw2). rewrite (pbind_ok _ _ _ _ _ E). eexists. split; [done|].
    split; [|cbn; intros b Hb; apply (same_oom _ _ Hs), (same_oom _ _ Hs2), Hb]. constructor; cbn.
    + destruct Hw2 as [W1 W2 W3 W4]. constructor; try done. cbn. rewrite W1. rewrite <- app_assoc, cells_app. cbn [cells hd_ptr app]. unfold node_cells. cbn [new_node n_ptr n_sa n_canon sa_cells str_cells].
      rewrite <- !app_assoc. cbn [app]. unfold set_next, ai_of. cbn. solve_Permutation.
    + rewrite (same_head _ _ Hs2), (same_head _ _ Hs), H2. by rewrite <- app_assoc, hd_ptr_app; destruct l.
    + by rewrite last_snoc.
    + by rewrite (same_canon _ _ Hs2), (same_canon _ _ Hs).
    + done.
Qed.

(** What a part of the search gives: an error of memory that was to come,
    the error [e], or the list with [vs] and the name [cs]. *)
Definition gives (s s' : gst) (F : list (Z * cell)) (rc : Z) (R : Z + list view * option bytes) : Prop :=
  (forall b, b ∈ oom s' -> b ∈ oom s) /\
  ((rc = EAI_MEMORY /\ true ∈ oom s /\ exists l c, ok s' l c F) \/
   match R with
   | inl e => rc = e /\ e <> 0 /\ exists l c, ok s' l c F
   | inr (vs, cs) => rc = 0 /\ exists l c, ok s' l c F /\ view_of <$> l = vs /\ snd <$> c = cs
   end).

Lemma gives_memory s s' F l c R : (forall b, b ∈ oom s' -> b ∈ oom s) -> true ∈ oom s -> ok s' l c F -> gives s s' F EAI_MEMORY R.
Proof. intros. split; [done|]. left. eauto. Qed.

Lemma ok_same s s' l c F : ok s l c F -> same s s' -> wf s' (cells l 0 ++ str_cells c ++ F) -> ok s' l c F.
Proof. intros [] []. constructor; [done|congruence..|done]. Qed.

(** The second part of [ga_aistruct]: the address. *)
Lemma set_addr_run s l c F p fa sa :
  ok s (l ++ [new_node p fa.1]) c F -> sa = sa_of fa 0 ->
  exists rc s', (do a <- alloc (Csa sa); if a =? 0 then pret EAI_MEMORY else run upd p (set_addr a (len_of fa)); pret 0) s = Ok rc s' /\
    gives s s' F rc (inr ((view_of <$> l) ++ [host_view fa], snd <$> c)).
Proof.
  intros Hok ->. destruct (gai_alloc_run (Csa (sa_of fa 0)) s _ (ok_wf _ _ _ _ Hok)) as (s1 & Hs1 & [(E & Hw & Ho)|(a & E & Ha & Hw)]); rewrite (pbind_ok _ _ _ _ _ E).
  - rewrite Z.eqb_refl. eexists _, _. split; [done|]. eapply gives_memory; [apply (same_oom _ _ Hs1)|done|]. by eapply ok_same.
  - rewrite eqb_false by done.
    assert (wf s1 ((p, Cai (ai_of (new_node p fa.1) 0)) :: (a, Csa (sa_of fa 0)) :: cells l p ++ str_cells c ++ F)) as Hw'.
    { eapply wf_perm; [|exact Hw]. rewrite cells_app. cbn [cells hd_ptr new_node n_ptr]. unfold node_cells. cbn [new_node n_ptr n_sa n_canon sa_cells str_cells]. rewrite <- !app_assoc. cbn [app]. solve_Permutation. }
    destruct (gai_upd_run _ _ (set_addr a (len_of fa)) _ _ Hw') as (s2 & E2 & Hs2 & Hw2). rewrite (pbind_ok _ _ _ _ _ E2).
    set (n := mkNode p (if h_socktype h =? 0 then AI_CLONE else 0) fa.1 (h_socktype h) (h_protocol h) (len_of fa) None (Some (a, sa_of fa 0))).
    pose proof (same_trans _ _ _ Hs1 Hs2) as Hs. eexists _, _. split; [done|]. split; [apply (same_oom _ _ Hs)|]. right. split; [done|]. exists (l ++ [n]), c. split; [|split; [by rewrite fmap_app|done]].
    destruct Hok as [K1 K2 K3 K4 K5]. constructor.
    + eapply wf_perm; [|exact Hw2]. rewrite cells_app. cbn [cells hd_ptr n_ptr n]. unfold node_cells. cbn [n_ptr n_sa n_canon sa_cells str_cells n]. rewrite <- !app_assoc. cbn [app]. unfold set_addr, ai_of. cbn. solve_Permutation.
    + rewrite (same_head _ _ Hs), K2. by destruct l.
    + rewrite (same_tail _ _ Hs), K3. by rewrite !last_snoc.
    + by rewrite (same_canon _ _ Hs).
    + done.
Qed.

Lemma ga_aistruct_run s l c F fa :
  ok s l c F -> addr_ok fa -> exists rc s', ga_aistruct h fa.2 fa.1 s = Ok rc s' /\ gives s s' F rc (inr ((view_of <$> l) ++ [host_view fa], snd <$> c)).
Proof.
  intros Hok Hfa. unfold ga_aistruct.
  change (mkAi _ _ _ _ 0 0 0 0) with (ai_of (new_node 0 fa.1) 0). destruct (gai_alloc_run (Cai (ai_of (new_node 0 fa.1) 0)) s _ (ok_wf _ _ _ _ Hok)) as (s1 & Hs1 & [(E & Hw & Ho)|(p & E & Hp & Hw)]); rewrite (pbind_ok _ _ _ _ _ E).
  { rewrite Z.eqb_refl. eexists _, _. split; [done|]. eapply gives_memory; [apply (same_oom _ _ Hs1)|done|]. by eapply ok_same. }
  rewrite eqb_false by done. destruct (gai_append_run s s1 l c F p fa.1 Hok Hs1 Hp Hw) as (s2 & E2 & Hok2 & Ho2). rewrite <- pbind_assoc, (pbind_ok _ _ _ _ _ E2).
  assert (forall (m : gp Z) sa, (exists rc s', (do a <- alloc (Csa sa); if a =? 0 then pret EAI_MEMORY else run upd p (set_addr a (len_of fa)); pret 0) s2 = Ok rc s' /\
    gives s2 s' F rc (inr ((view_of <$> l) ++ [host_view fa], snd <$> c))) -> m s2 = (do a <- alloc (Csa sa); if a =? 0 then pret EAI_MEMORY else run upd p (set_addr a (len_of fa)); pret 0) s2 ->
    exists rc s', m s2 = Ok rc s' /\ gives s s' F rc (inr ((view_of <$> l) ++ [host_view fa], snd <$> c))) as Hfin.
  { intros m sa (rc & s' & E' & Hg) ->. exists rc, s'. split; [done|]. destruct Hg as [G1 G2]. split; [auto|]. destruct G2 as [(-> & G2 & G3)|G2]; [left; auto|by right]. }
  assert (sa_of fa 0 = sa_of fa 0) as Hsa by done. destruct Hfa as [[Hf Hl]|[Hf Hl]].
  - eapply Hfin; [apply set_addr_run; [exact Hok2|exact Hsa]|]. rewrite Hf. cbn iota. change (AF_INET =? AF_INET) with true. cbn iota. unfold copy_addr. rewrite ltb_false by lia. pstep. unfold sa_of, len_of. rewrite Hf. change (AF_INET =? AF_INET) with true. cbn iota.
    by rewrite take_ge by (unfold zlen in Hl; lia).
  - eapply Hfin; [apply set_addr_run; [exact Hok2|exact Hsa]|]. rewrite Hf. change (AF_INET6 =? AF_INET) with false. change (AF_INET6 =? AF_INET6) with true. cbn iota. unfold copy_addr. rewrite ltb_false by lia. pstep. unfold sa_of, len_of. rewrite Hf. change (AF_INET6 =? AF_INET) with false. cbn iota.
    by rewrite take_ge by (unfold zlen in Hl; lia).
Qed.

Lemma gives_trans s s1 s' F rc R : (forall b, b ∈ oom s1 -> b ∈ oom s) -> gives s1 s' F rc R -> gives s s' F rc R.
Proof. intros H [G1 G2]. split; [auto|]. destruct G2 as [(-> & G2 & G3)|G2]; [left; auto|by right]. Qed.

Lemma check_run s F m k R R' :
  (exists rc s1, m s = Ok rc s1 /\ gives s s1 F rc R) ->
  match R with
  | inl e => R' = inl e
  | inr (vs, cs) => forall s1 l c, ok s1 l c F -> view_of <$> l = vs -> snd <$> c = cs -> exists rc s', k s1 = Ok rc s' /\ gives s1 s' F rc R'
  end ->
  exists rc s', check m k s = Ok rc s' /\ gives s s' F rc R'.
Proof.
  intros (rc & s1 & E & G1 & G2) HR. unfold check. rewrite (pbind_ok _ _ _ _ _ E). destruct G2 as [(-> & G2 & G3)|G2].
  - eexists _, _. split; [done|]. split; [done|]. by left.
  - destruct R as [e|[vs cs]].
    + destruct G2 as (-> & He & G3). rewrite eqb_false by done. eexists _, _. split; [done|]. split; [done|]. right. by rewrite HR.
    + destruct G2 as (-> & l & c & Hok & Hv & Hc). destruct (HR s1 l c Hok Hv Hc) as (rc & s' & E' & Hg). exists rc, s'. split; [done|]. by eapply gives_trans.
Qed.

Lemma add_addrs_run fam addrs : forall s l c F,
  ok s l c F -> Forall (fun a => addr_ok (fam, a)) addrs ->
  exists rc s', add_addrs h addrs fam s = Ok rc s' /\ gives s s' F rc (inr ((view_of <$> l) ++ (host_view <$> ((fam,.) <$> addrs)), snd <$> c)).
Proof.
  induction addrs as [|a addrs IH]; intros s l c F Hok HF; cbn [add_addrs].
  { eexists _, _. split; [done|]. split; [done|]. right. split; [done|]. exists l, c. by rewrite app_nil_r. }
  apply Forall_cons in HF as [Ha HF]. eapply check_run; [exact (ga_aistruct_run s l c F (fam, a) Hok Ha)|]. cbn iota. intros s1 l1 c1 Hok1 Hv Hc.
  destruct (IH s1 l1 c1 F Hok1 HF) as (rc & s' & E & Hg). exists rc, s'. split; [done|]. rewrite Hv, Hc, <- app_assoc in Hg. done.
Qed.

(** ** The search without memory *)
Context (inet_pton : Z -> bytes -> option bytes) (gethostbyname : bool -> bytes -> hostent + Z) (gethostbyname2 : bytes -> Z -> hostent + Z).

(** What the library promises of addresses. *)
Definition hostent_ok (hp : hostent) : Prop := Forall (fun a => addr_ok (h_addrtype hp, a)) (h_addr_list hp).

Record lib_ok : Prop := mkLibOk {
  lib_pton : forall af x a, (af = AF_INET \/ af = AF_INET6) -> inet_pton af x = Some a -> addr_ok (af, a);
  lib_byname : forall v6 x hp, gethostbyname v6 x = inl hp -> hostent_ok hp;
  lib_byname2 : forall x af hp, gethostbyname2 x af = inl hp -> hostent_ok hp
}.

(** An error, or addresses with their families and a name. *)
Definition sp_numeric (family af : Z) (a : bytes) : Z + list (Z * bytes) * option bytes :=
  if negb (h_family h =? AF_UNSPEC) && negb (h_family h =? af) then inl EAI_ADDRFAMILY
  else inr (if family =? af then [(af, a)] else [], None).

Definition sp_lookup (nsearch : Z) (host : bytes) (family : Z) : Z + list (Z * bytes) * option bytes :=
  match (if nsearch =? 2 then gethostbyname2 host family else gethostbyname (family =? AF_INET6) host) with
  | inr e => if nsearch =? 2 then inr ([], None) else inl (herr e)
  | inl hp =>
      if negb (h_family h =? AF_UNSPEC) && negb (h_family h =? h_addrtype hp) then inl EAI_ADDRFAMILY
      else inr ((h_addrtype hp,.) <$> h_addr_list hp, if want_canon hostname h then Some (h_name hp) else None)
  end.

Definition looks_v4 (host : bytes) : bool := isdigit (nth 0 host NUL).
Definition looks_v6 (host : bytes) : bool := (isxdigit (nth 0 host NUL) || (nth 0 host NUL =? CH_COLON)) && bool_decide (CH_COLON ∈ host).

Definition sp_one (nsearch : Z) (host : bytes) (family : Z) : Z + list (Z * bytes) * option bytes :=
  match (if looks_v4 host then inet_pton AF_INET host else None) with
  | Some a => sp_numeric family AF_INET a
  | None =>
      match (if looks_v6 host then inet_pton AF_INET6 host else None) with
      | Some a => sp_numeric family AF_INET6 a
      | None => sp_lookup nsearch host family
      end
  end.

Fixpoint sp_search (nsearch : Z) (search : list (bytes * Z)) : Z + list (Z * bytes) * option bytes :=
  match search with
  | [] => inr ([], None)
  | (host, family) :: search =>
      match sp_one nsearch host family with
      | inl e => inl e
      | inr (fas, c) =>
          match sp_search nsearch search with
          | inl e => inl e
          | inr (fas', c') => inr (fas ++ fas', match c with Some _ => c | None => c' end)
          end
      end
  end.

(** The result of a part of the search after [l] and [c]. *)
Definition after (l : list node) (c : option (Z * bytes)) (R : Z + list (Z * bytes) * option bytes) : Z + list view * option bytes :=
  match R with
  | inl e => inl e
  | inr (fas, c') => inr ((view_of <$> l) ++ (host_view <$> fas), match c with Some (_, x) => Some x | None => c' end)
  end.

Hypothesis lib : lib_ok.

Lemma herr_nonzero e : herr e <> 0.
Proof. unfold herr. by repeat case_match. Qed.

Lemma gai_fail_run s l c F e R : ok s l c F -> e <> 0 -> R = inl e -> exists rc s', pret e s = Ok rc s' /\ gives s s' F rc (after l c R).
Proof. intros Hok He ->. eexists _, _. split; [done|]. split; [done|]. right. cbn. eauto. Qed.

Lemma skip_run s l c F : ok s l c F -> exists rc s', pret 0 s = Ok rc s' /\ gives s s' F rc (after l c (inr ([], None))).
Proof. intros Hok. eexists _, _. split; [done|]. split; [done|]. right. cbn. split; [done|]. exists l, c. rewrite app_nil_r. by destruct c as [[]|]. Qed.

Lemma numeric_run s l c F family af host a :
  ok s l c F -> (af = AF_INET \/ af = AF_INET6) -> inet_pton af host = Some a ->
  exists m, numeric inet_pton h host family af = Some m /\ exists rc s', m s = Ok rc s' /\ gives s s' F rc (after l c (sp_numeric family af a)).
Proof.
  intros Hok Haf Hp. unfold numeric. rewrite Hp. eexists. split; [done|]. unfold sp_numeric. destruct (negb (h_family h =? AF_UNSPEC) && negb (h_family h =? af)); [by eapply gai_fail_run|].
  destruct (family =? af); cbn [negb]; [|by apply skip_run].
  pose proof (lib_pton lib af host a Haf Hp) as Ha. destruct (ga_aistruct_run s l c F (af, a) Hok Ha) as (rc & s' & E & Hg). exists rc, s'. split; [done|]. cbn [after]. by destruct c as [[]|].
Qed.

Lemma canon_run s l c F name :
  ok s l c F ->
  exists rc s', (do c <- get canon; if want_canon hostname h && (c =? 0) then do c <- alloc (Cstr name); if c =? 0 then pret EAI_MEMORY else run put (set_canon c); pret 0 else pret 0) s = Ok rc s' /\
    gives s s' F rc (inr (view_of <$> l, match c with Some (_, x) => Some x | None => if want_canon hostname h then Some name else None end)).
Proof.
  intros Hok. pstep. rewrite (ok_canon _ _ _ _ Hok). destruct c as [[q x]|]; cbn [ptr_of].
  - pose proof (ok_wf _ _ _ _ Hok) as Hw. assert (q <> 0) as Hq by (apply (wf_nonnull s q (Cstr x) (cells l 0 ++ F)); eapply wf_perm; [|exact Hw]; cbn [str_cells]; solve_Permutation).
    rewrite eqb_false, andb_false_r by done. eexists _, _. split; [done|]. split; [done|]. right. split; [done|]. by exists l, (Some (q, x)).
  - rewrite Z.eqb_refl, andb_true_r. destruct (want_canon hostname h) eqn:Ew; [|eexists _, _; split; [done|]; split; [done|]; right; split; [done|]; by exists l, None].
    destruct (gai_alloc_run (Cstr name) s _ (ok_wf _ _ _ _ Hok)) as (s1 & Hs1 & [(E & Hw & Ho)|(p & E & Hp & Hw)]); rewrite (pbind_ok _ _ _ _ _ E).
    + rewrite Z.eqb_refl. eexists _, _. split; [done|]. eapply gives_memory; [apply (same_oom _ _ Hs1)|done|]. by eapply ok_same.
    + rewrite eqb_false by done. eexists _, _. split; [done|]. split; [apply (same_oom _ _ Hs1)|]. right. split; [done|]. exists l, (Some (p, name)). split; [|done].
      destruct Hok as [K1 K2 K3 K4 K5]. constructor; cbn [aihead aipnext canon set_canon]; [|by rewrite (same_head _ _ Hs1)|by rewrite (same_tail _ _ Hs1)|done|by rewrite Ew].
      cbn [str_cells] in *. destruct Hw as [W1 W2 W3 W4]. constructor; cbn; try done. rewrite W1. solve_Permutation.
Qed.

Lemma lookup_run s l c F nsearch host family :
  ok s l c F -> exists rc s', lookup_host gethostbyname gethostbyname2 hostname h nsearch host family s = Ok rc s' /\ gives s s' F rc (after l c (sp_lookup nsearch host family)).
Proof.
  intros Hok. unfold lookup_host, sp_lookup.
  assert (forall hp, hostent_ok hp -> exists rc s', found hostname h hp s = Ok rc s' /\ gives s s' F rc (after l c
    (if negb (h_family h =? AF_UNSPEC) && negb (h_family h =? h_addrtype hp) then inl EAI_ADDRFAMILY else inr ((h_addrtype hp,.) <$> h_addr_list hp, if want_canon hostname h then Some (h_name hp) else None)))) as Hfound.
  { intros hp Hhp. unfold found. destruct (negb (h_family h =? AF_UNSPEC) && _); [by eapply gai_fail_run|]. eapply check_run; [exact (canon_run s l c F (h_name hp) Hok)|]. cbn iota. intros s1 l1 c1 Hok1 Hv Hc.
    destruct (add_addrs_run _ _ s1 l1 c1 F Hok1 Hhp) as (rc & s' & E & Hg). exists rc, s'. split; [done|]. rewrite Hv, Hc in Hg. done. }
  destruct (nsearch =? 2).
  - destruct (gethostbyname2 host family) as [hp|e] eqn:E; [|by apply skip_run]. apply Hfound. by eapply lib_byname2.
  - destruct (gethostbyname (family =? AF_INET6) host) as [hp|e] eqn:E; [|eapply gai_fail_run; [done|apply herr_nonzero|done]]. apply Hfound. by eapply lib_byname.
Qed.

Lemma search_one_run s l c F nsearch host family :
  ok s l c F -> exists rc s', search_one inet_pton gethostbyname gethostbyname2 hostname h nsearch host family s = Ok rc s' /\ gives s s' F rc (after l c (sp_one nsearch host family)).
Proof.
  intros Hok. unfold search_one, sp_one, numeric4, numeric6. fold (looks_v4 host) (looks_v6 host).
  assert (forall af, inet_pton af host = None -> numeric inet_pton h host family af = None) as Hnone by (intros af E; unfold numeric; by rewrite E).
  assert (exists rc s', (match (if looks_v6 host then numeric inet_pton h host family AF_INET6 else None) with Some m => m | None => lookup_host gethostbyname gethostbyname2 hostname h nsearch host family end) s = Ok rc s' /\
    gives s s' F rc (after l c (match (if looks_v6 host then inet_pton AF_INET6 host else None) with Some a => sp_numeric family AF_INET6 a | None => sp_lookup nsearch host family end))) as H6.
  { destruct (looks_v6 host); [|by apply lookup_run]. destruct (inet_pton AF_INET6 host) as [a|] eqn:E.
    - destruct (numeric_run s l c F family AF_INET6 host a Hok ltac:(by right) E) as (m & -> & Hm). exact Hm.
    - rewrite Hnone by done. by apply lookup_run. }
  destruct (looks_v4 host); [|exact H6]. destruct (inet_pton AF_INET host) as [a|] eqn:E.
  - destruct (numeric_run s l c F family AF_INET host a Hok ltac:(by left) E) as (m & -> & Hm). exact Hm.
  - by rewrite Hnone.
Qed.

Lemma gai_search_loop_run nsearch search : forall s l c F,
  ok s l c F -> exists rc s', search_loop inet_pton gethostbyname gethostbyname2 hostname h nsearch search s = Ok rc s' /\ gives s s' F rc (after l c (sp_search nsearch search)).
Proof.
  induction search as [|[host family] search IH]; intros s l c F Hok; cbn [search_loop sp_search]; [by apply skip_run|].
  eapply check_run; [by apply search_one_run|]. destruct (sp_one nsearch host family) as [e|[fas cs]]; [done|]. cbn [after]. intros s1 l1 c1 Hok1 Hv Hc.
  destruct (IH s1 l1 c1 F Hok1) as (rc & s' & E & Hg). exists rc, s'. split; [done|]. destruct (sp_search nsearch search) as [e|[fas' cs']]; [done|]. cbn [after] in *.
  rewrite Hv, <- app_assoc, <- fmap_app in Hg. replace (match c with Some (_, x) => Some x | None => match cs with Some _ => cs | None => cs' end end) with (match c1 with Some (_, x) => Some x | None => cs' end); [done|].
  destruct c as [[q x]|]; [by destruct c1 as [[q1 x1]|]; cbn in Hc; simplify_eq|]. destruct cs; by destruct c1 as [[q1 x1]|]; cbn in Hc; simplify_eq.
Qed.

(** The addresses fit their families. *)
Lemma sp_search_ok nsearch search fas cs : sp_search nsearch search = inr (fas, cs) -> Forall addr_ok fas.
Proof.
  revert fas cs. induction search as [|[host family] search IH]; intros fas cs; cbn [sp_search]; [intros [= <- <-]; constructor|].
  destruct (sp_one nsearch host family) as [e|[fas1 c1]] eqn:E1; [done|]. destruct (sp_search nsearch search) as [e|[fas2 c2]]; [done|]. intros [= <- <-]. apply Forall_app. split; [|by eapply IH].
  assert (forall af a, (af = AF_INET \/ af = AF_INET6) -> inet_pton af host = Some a -> sp_numeric family af a = inr (fas1, c1) -> Forall addr_ok fas1) as Hnum.
  { intros af a Haf Hp. unfold sp_numeric. destruct (negb _ && _); [done|]. intros [= <- <-]. destruct (family =? af); [|constructor]. constructor; [|constructor]. by eapply lib_pton. }
  assert (sp_lookup nsearch host family = inr (fas1, c1) -> Forall addr_ok fas1) as Hlk.
  { unfold sp_lookup. assert (forall hp, hostent_ok hp -> (if negb (h_family h =? AF_UNSPEC) && negb (h_family h =? h_addrtype hp) then inl EAI_ADDRFAMILY else inr ((h_addrtype hp,.) <$> h_addr_list hp, if want_canon hostname h then Some (h_name hp) else None)) = inr (fas1, c1) -> Forall addr_ok fas1) as Hf.
    { intros hp Hhp. destruct (negb _ && _); [done|]. intros [= <- <-]. by apply Forall_fmap. }
    destruct (nsearch =? 2).
    - destruct (gethostbyname2 host family) as [hp|e] eqn:E; [apply Hf; by eapply lib_byname2|]. intros [= <- <-]. constructor.
    - destruct (gethostbyname _ host) as [hp|e] eqn:E; [apply Hf; by eapply lib_byname|done]. }
  unfold sp_one in E1. destruct (looks_v4 host), (looks_v6 host); repeat match type of E1 with context [match inet_pton ?a ?b with _ => _ end] => destruct (inet_pton a b) eqn:? end; eauto.
Qed.

End search.

(** ** Ports *)
Definition with_port (sa : sockaddr) (port : Z) : sockaddr :=
  match sa with Sin _ a => Sin (wrapu 16 port) a | Sin6 _ a => Sin6 (wrapu 16 port) a | Sun p => Sun p end.

(** The address of a structure is that of its family. *)
Definition fits (family : Z) (sa : option sockaddr) : Prop :=
  match sa with Some (Sin _ _) => family = AF_INET | Some (Sin6 _ _) => family = AF_INET6 | _ => False end.

Definition good (n : node) : Prop := fits (n_family n) (snd <$> n_sa n).

Definition set_node (n : node) (t port : Z) : node :=
  mkNode (n_ptr n) (n_flags n) (n_family n) t (n_protocol n) (n_len n) (n_canon n) ((fun x => (x.1, with_port x.2 port)) <$> n_sa n).

Lemma set_entry_run s l1 n l2 F port t :
  wf s (cells (l1 ++ n :: l2) 0 ++ F) -> good n ->
  exists s', set_entry (n_ptr n) port t s = Ok 1 s' /\ same s s' /\ wf s' (cells (l1 ++ set_node n t port :: l2) 0 ++ F).
Proof.
  intros Hw Hg. unfold good in Hg. destruct (n_sa n) as [[q sa]|] eqn:Esa; [|done]. cbn in Hg.
  assert (wf s ((n_ptr n, Cai (ai_of n (hd_ptr l2 0))) :: (q, Csa sa) :: str_cells (n_canon n) ++ cells l1 (n_ptr n) ++ cells l2 0 ++ F)) as Hw1.
  { eapply wf_perm; [|exact Hw]. rewrite cells_mid. unfold node_cells. rewrite Esa. done. }
  destruct (gai_upd_run _ _ (set_socktype t) _ _ Hw1) as (s1 & E1 & Hs1 & Hw2). unfold set_entry. rewrite (pbind_ok _ _ _ _ _ E1), (pbind_ok _ _ _ _ _ (gai_deref_run _ _ _ _ Hw2)).
  assert (wf s1 ((q, Csa sa) :: (n_ptr n, Cai (set_socktype t (ai_of n (hd_ptr l2 0)))) :: str_cells (n_canon n) ++ cells l1 (n_ptr n) ++ cells l2 0 ++ F)) as Hw3 by (eapply wf_perm; [|exact Hw2]; constructor).
  destruct (gai_store_run q (Csa sa) (Csa (with_port sa port)) _ _ Hw3) as (s2 & E2 & Hs2 & Hw4). exists s2.
  split; [|split; [by eapply same_trans|]].
  - unfold set_port. pstep. cbn [ai_family ai_addr set_socktype ai_of]. rewrite Esa. cbn [ptr_of]. rewrite (wf_lookup _ _ _ _ Hw3). destruct sa as [p0 a|p0 a|]; [| |done]; cbn in Hg; rewrite Hg.
    + change (AF_INET =? AF_INET) with true. cbn iota. by rewrite (pbind_ok _ _ _ _ _ E2).
    + change (AF_INET6 =? AF_INET) with false. change (AF_INET6 =? AF_INET6) with true. cbn iota. by rewrite (pbind_ok _ _ _ _ _ E2).
  - eapply wf_perm; [|exact Hw4]. rewrite cells_mid. unfold node_cells, set_node. cbn [n_ptr n_sa n_canon]. rewrite Esa. cbn [fmap option_fmap option_map fst snd sa_cells app]. unfold ai_of, set_socktype. cbn. rewrite Esa. cbn. solve_Permutation.
Qed.

Definition clone_node (n : node) (p q : Z) (sa : sockaddr) : node := mkNode p 0 (n_family n) (n_socktype n) (n_protocol n) (n_len n) None (Some (q, sa)).

Lemma ga_clone_run s l1 n l2 F q sa :
  wf s (cells (l1 ++ n :: l2) 0 ++ F) -> n_sa n = Some (q, sa) ->
  exists p s', ga_clone (n_ptr n) s = Ok p s' /\ same s s' /\
    ((p = 0 /\ true ∈ oom s /\ exists l', wf s' (cells (l1 ++ n :: l') 0 ++ F)) \/
     (p <> 0 /\ exists q', wf s' (cells (l1 ++ n :: clone_node n p q' sa :: l2) 0 ++ F))).
Proof.
  intros Hw Esa. unfold ga_clone.
  assert (wf s ((n_ptr n, Cai (ai_of n (hd_ptr l2 0))) :: sa_cells (n_sa n) ++ str_cells (n_canon n) ++ cells l1 (n_ptr n) ++ cells l2 0 ++ F)) as Hw1.
  { eapply wf_perm; [|exact Hw]. rewrite cells_mid. unfold node_cells. lassoc. }
  rewrite (pbind_ok _ _ _ _ _ (gai_deref_run _ _ _ _ Hw1)). cbn [ai_family ai_socktype ai_protocol ai_addrlen ai_next ai_addr ai_of]. rewrite Esa. cbn [ptr_of].
  set (m p := mkNode p 0 (n_family n) (n_socktype n) (n_protocol n) (n_len n) None None).
  change (mkAi 0 _ _ _ _ 0 0 _) with (ai_of (m 0) (hd_ptr l2 0)).
  destruct (gai_alloc_run (Cai (ai_of (m 0) (hd_ptr l2 0))) s _ Hw1) as (s1 & Hs1 & [(E & Hw2 & Ho)|(p & E & Hp & Hw2)]); rewrite (pbind_ok _ _ _ _ _ E).
  { rewrite Z.eqb_refl. eexists _, _. split; [done|]. split; [done|]. left. split; [done|]. split; [done|]. exists l2. eapply wf_perm; [|exact Hw2]. rewrite cells_mid. unfold node_cells. lassoc. }
  rewrite eqb_false by done.
  assert (wf s1 ((n_ptr n, Cai (ai_of n (hd_ptr l2 0))) :: (p, Cai (ai_of (m 0) (hd_ptr l2 0))) :: (q, Csa sa) :: str_cells (n_canon n) ++ cells l1 (n_ptr n) ++ cells l2 0 ++ F)) as Hw3.
  { eapply wf_perm; [|exact Hw2]. rewrite Esa. cbn [sa_cells app]. solve_Permutation. }
  destruct (gai_upd_run _ _ (set_next p) _ _ Hw3) as (s2 & E2 & Hs2 & Hw4). rewrite (pbind_ok _ _ _ _ _ E2). pstep.
  assert (wf s2 ((q, Csa sa) :: (n_ptr n, Cai (ai_of n p)) :: (p, Cai (ai_of (m 0) (hd_ptr l2 0))) :: str_cells (n_canon n) ++ cells l1 (n_ptr n) ++ cells l2 0 ++ F)) as Hw5.
  { eapply wf_perm; [|exact Hw4]. unfold set_next, ai_of. cbn. solve_Permutation. }
  rewrite (wf_lookup _ _ _ _ Hw5). destruct (gai_alloc_run (Csa sa) s2 _ Hw5) as (s3 & Hs3 & [(E3 & Hw6 & Ho)|(q' & E3 & Hq & Hw6)]); rewrite (pbind_ok _ _ _ _ _ E3).
  - rewrite Z.eqb_refl. eexists _, _. split; [done|]. split; [eauto with gai|]. left. split; [done|]. split; [by apply (same_oom _ _ Hs1), (same_oom _ _ Hs2)|]. exists (m p :: l2).
    eapply wf_perm; [|exact Hw6]. rewrite cells_mid. cbn [cells hd_ptr m n_ptr]. unfold node_cells. cbn [m n_ptr n_sa n_canon sa_cells str_cells]. rewrite Esa. cbn [sa_cells app]. unfold ai_of at 2 4. cbn [m n_flags n_family n_socktype n_protocol n_len n_canon n_sa]. solve_Permutation.
  - rewrite eqb_false by done.
    assert (wf s3 ((p, Cai (ai_of (m 0) (hd_ptr l2 0))) :: (q', Csa sa) :: (q, Csa sa) :: (n_ptr n, Cai (ai_of n p)) :: str_cells (n_canon n) ++ cells l1 (n_ptr n) ++ cells l2 0 ++ F)) as Hw7.
    { eapply wf_perm; [|exact Hw6]. solve_Permutation. }
    destruct (gai_upd_run _ _ (set_addr q' (n_len n)) _ _ Hw7) as (s4 & E4 & Hs4 & Hw8). rewrite (pbind_ok _ _ _ _ _ E4). eexists _, _. split; [done|]. split; [eauto 6 with gai|]. right. split; [done|]. exists q'.
    eapply wf_perm; [|exact Hw8]. rewrite cells_mid. cbn [cells hd_ptr clone_node n_ptr]. unfold node_cells. cbn [clone_node n_ptr n_sa n_canon sa_cells str_cells]. rewrite Esa. cbn [sa_cells app]. unfold set_addr, ai_of, m. cbn. solve_Permutation.
Qed.

Definition set_view (v : view) (t port : Z) : view := mkView (v_flags v) (v_family v) t (v_protocol v) (v_len v) (v_canon v) ((fun sa => with_port sa port) <$> v_sa v).
Definition clone_view (v : view) (t port : Z) : view := mkView 0 (v_family v) t (v_protocol v) (v_len v) None ((fun sa => with_port sa port) <$> v_sa v).

(** What [ga_port] makes of one structure, and what it counts. *)
Definition sp_entry (port t : Z) (v : view) : list view * Z :=
  if has_flag (v_flags v) AI_CLONE then
    if negb (v_socktype v =? 0) then ([v; clone_view v t port], 1) else ([set_view v t port], 1)
  else if negb (v_socktype v =? t) then ([v], 0)
  else ([set_view v t port], 1).

Fixpoint sp_port (port t : Z) (vs : list view) : list view * Z :=
  match vs with
  | [] => ([], 0)
  | v :: vs => let '(a, n) := sp_entry port t v in let '(b, k) := sp_port port t vs in (a ++ b, n + k)
  end.

Lemma view_set n t port : view_of (set_node n t port) = set_view (view_of n) t port.
Proof. unfold view_of, set_node, set_view. cbn. f_equal. by destruct (n_sa n) as [[]|]. Qed.

Lemma good_set n t port : good n -> good (set_node n t port).
Proof. unfold good, set_node. cbn. destruct (n_sa n) as [[q []]|]; done. Qed.

Lemma ga_port_loop_run port t fuel : forall s l1 l2 F nfound,
  wf s (cells (l1 ++ l2) 0 ++ F) -> Forall good l2 -> (length l2 < fuel)%nat ->
  exists rc s', ga_port_loop fuel (hd_ptr l2 0) port t nfound s = Ok rc s' /\ same s s' /\
    exists l2', hd_ptr l2' 0 = hd_ptr l2 0 /\ wf s' (cells (l1 ++ l2') 0 ++ F) /\
      ((rc = -1 /\ true ∈ oom s) \/
       (Forall good l2' /\ view_of <$> l2' = (sp_port port t (view_of <$> l2)).1 /\ rc = nfound + (sp_port port t (view_of <$> l2)).2)).
Proof.
  induction fuel as [|fuel IH]; intros s l1 l2 F nfound Hw Hg Hf; [lia|]. cbn [ga_port_loop]. destruct l2 as [|n l2].
  { rewrite Z.eqb_refl. eexists _, _. split; [done|]. split; [apply same_refl|]. exists []. split; [done|]. split; [done|]. right. cbn. split; [done|]. split; [done|]. lia. }
  apply Forall_cons in Hg as [Hgn Hg]. cbn [length] in Hf. cbn [hd_ptr].
  assert (forall s1 l, wf s1 (cells (l1 ++ n :: l) 0 ++ F) -> wf s1 ((n_ptr n, Cai (ai_of n (hd_ptr l 0))) :: sa_cells (n_sa n) ++ str_cells (n_canon n) ++ cells l1 (n_ptr n) ++ cells l 0 ++ F)) as Hfront.
  { intros s1 l H. eapply wf_perm; [|exact H]. rewrite cells_mid. unfold node_cells. lassoc. }
  pose proof (Hfront s l2 Hw) as Hw1. rewrite eqb_false by (by eapply wf_nonnull). rewrite (pbind_ok _ _ _ _ _ (gai_deref_run _ _ _ _ Hw1)). cbn [ai_flags ai_socktype ai_of].
  (* going on behind the structures [pre ++ [m]] *)
  assert (forall s1 pre m cnt, same s s1 -> wf s1 (cells (l1 ++ pre ++ m :: l2) 0 ++ F) -> hd_ptr (pre ++ [m]) 0 = n_ptr n -> Forall good (pre ++ [m]) -> sp_entry port t (view_of n) = (view_of <$> (pre ++ [m]), cnt) ->
    exists rc s', (do a <- deref (n_ptr m); ga_port_loop fuel (ai_next a) port t (nfound + cnt)) s1 = Ok rc s' /\ same s s' /\
      exists l2', hd_ptr l2' 0 = n_ptr n /\ wf s' (cells (l1 ++ l2') 0 ++ F) /\
      ((rc = -1 /\ true ∈ oom s) \/ (Forall good l2' /\ view_of <$> l2' = (sp_port port t (view_of <$> n :: l2)).1 /\ rc = nfound + (sp_port port t (view_of <$> n :: l2)).2))) as Hnext.
  { intros s1 pre m cnt Hs1 Hwm Hhd Hgm Hsp. assert (wf s1 ((n_ptr m, Cai (ai_of m (hd_ptr l2 0))) :: sa_cells (n_sa m) ++ str_cells (n_canon m) ++ cells (l1 ++ pre) (n_ptr m) ++ cells l2 0 ++ F)) as Hwm1.
    { eapply wf_perm; [|exact Hwm]. rewrite app_assoc, cells_mid. unfold node_cells. lassoc. }
    rewrite (pbind_ok _ _ _ _ _ (gai_deref_run _ _ _ _ Hwm1)). cbn [ai_next ai_of].
    destruct (IH s1 (l1 ++ pre ++ [m]) l2 F (nfound + cnt)) as (rc & s' & E & Hs' & l2' & Hh & Hw' & Hr); [by rewrite <- !app_assoc|done|lia|].
    exists rc, s'. split; [done|]. split; [by eapply same_trans|]. exists ((pre ++ [m]) ++ l2'). split; [by rewrite hd_ptr_app; destruct pre|]. split; [by rewrite (app_assoc l1)|].
    destruct Hr as [[-> Ho]|(Hg' & Hv & ->)]; [left; split; [done|by apply (same_oom _ _ Hs1)]|]. right. rewrite fmap_cons. cbn [sp_port]. rewrite Hsp. destruct (sp_port port t (view_of <$> l2)) as [b k]. cbn in *.
    split; [by apply Forall_app|]. split; [rewrite fmap_app; by rewrite Hv|lia]. }
  assert (sp_entry port t (view_of n) = ([set_view (view_of n) t port], 1) ->
    exists rc s', (do c <- set_entry (n_ptr n) port t; do a <- deref (n_ptr n); ga_port_loop fuel (ai_next a) port t (nfound + c)) s = Ok rc s' /\ same s s' /\
      exists l2', hd_ptr l2' 0 = n_ptr n /\ wf s' (cells (l1 ++ l2') 0 ++ F) /\
      ((rc = -1 /\ true ∈ oom s) \/ (Forall good l2' /\ view_of <$> l2' = (sp_port port t (view_of <$> n :: l2)).1 /\ rc = nfound + (sp_port port t (view_of <$> n :: l2)).2))) as Hset.
  { intros Hsp. destruct (set_entry_run s l1 n l2 F port t Hw Hgn) as (s1 & E & Hs1 & Hw2). rewrite (pbind_ok _ _ _ _ _ E).
    apply (Hnext s1 [] (set_node n t port)); [done|done|done|by constructor; [apply good_set|]|]. by rewrite Hsp; cbn; rewrite view_set. }
  destruct (has_flag (n_flags n) AI_CLONE) eqn:Ef; [destruct (negb (n_socktype n =? 0)) eqn:Et|destruct (negb (n_socktype n =? t)) eqn:Et].
  - destruct (n_sa n) as [[q sa]|] eqn:Esa; [|by unfold good in Hgn; rewrite Esa in Hgn]. destruct (ga_clone_run s l1 n l2 F q sa Hw Esa) as (p & s1 & E & Hs1 & Hc). rewrite (pbind_ok _ _ _ _ _ E).
    destruct Hc as [(-> & Ho & l' & Hw')|(Hp & q' & Hw')].
    { rewrite Z.eqb_refl. eexists _, _. split; [done|]. split; [done|]. exists (n :: l'). split; [done|]. split; [done|]. by left. }
    rewrite eqb_false by done. assert (good (clone_node n p q' sa)) as Hgc by (unfold good, clone_node in *; by rewrite Esa in Hgn).
    destruct (set_entry_run s1 (l1 ++ [n]) (clone_node n p q' sa) l2 F port t) as (s2 & E2 & Hs2 & Hw2); [by rewrite <- app_assoc|done|]. cbn [clone_node n_ptr] in E2. rewrite (pbind_ok _ _ _ _ _ E2).
    apply (Hnext s2 [n] (set_node (clone_node n p q' sa) t port)); [by eapply same_trans|by rewrite <- app_assoc in Hw2|done| |].
    + constructor; [done|]. constructor; [by apply good_set|done].
    + unfold sp_entry. cbn [view_of v_flags v_socktype]. rewrite Ef, Et. cbn. f_equal. f_equal. unfold clone_view, view_of, set_node, clone_node. cbn. by rewrite Esa.
  - apply Hset. unfold sp_entry. cbn [view_of v_flags v_socktype]. by rewrite Ef, Et.
  - apply (Hnext s [] n); [apply same_refl|done|done|by constructor|]. unfold sp_entry. cbn [view_of v_flags v_socktype]. by rewrite Ef, Et.
  - apply Hset. unfold sp_entry. cbn [view_of v_flags v_socktype]. by rewrite Ef, Et.
Qed.

Lemma cells_length l q F : (length l <= length (cells l q ++ F))%nat.
Proof. rewrite length_app. induction l as [|n l IH]; [cbn; lia|]. cbn [cells length]. unfold node_cells. rewrite length_app. cbn [length]. lia. Qed.

Lemma wf_size s l F : wf s (cells l 0 ++ F) -> (length l < S (size (heap s)))%nat.
Proof. intros [H _ _ _]. pose proof (cells_length l 0 F). apply Permutation_length in H. rewrite length_map_to_list in H. lia. Qed.

Lemma sp_port_nonneg port t vs : 0 <= (sp_port port t vs).2.
Proof.
  induction vs as [|v vs IH]; cbn [sp_port]; [done|]. destruct (sp_port port t vs) as [b k]. unfold sp_entry. repeat case_match; simplify_eq; cbn in *; lia.
Qed.

Lemma ga_port_run s l F port t :
  wf s (cells l 0 ++ F) -> Forall good l ->
  exists rc s', ga_port (hd_ptr l 0) port t s = Ok rc s' /\ same s s' /\
    exists l', hd_ptr l' 0 = hd_ptr l 0 /\ wf s' (cells l' 0 ++ F) /\
      ((rc = -1 /\ true ∈ oom s) \/ (0 <= rc /\ Forall good l' /\ (view_of <$> l', rc) = sp_port port t (view_of <$> l))).
Proof.
  intros Hw Hg. unfold ga_port. pstep. destruct (ga_port_loop_run port t (S (size (heap s))) s [] l F 0 Hw Hg (wf_size _ _ _ Hw)) as (rc & s' & E & Hs & l' & Hh & Hw' & Hr).
  exists rc, s'. split; [done|]. split; [done|]. exists l'. split; [done|]. split; [done|]. destruct Hr as [?|(H1 & H2 & H3)]; [by left|]. right. pose proof (sp_port_nonneg port t (view_of <$> l)). split; [lia|]. split; [done|].
  rewrite H2. replace rc with (sp_port port t (view_of <$> l)).2 by lia. by destruct (sp_port _ _ _).
Qed.

Lemma freeaddrinfo_loop_run fuel : forall s l F, wf s (cells l 0 ++ F) -> (length l < fuel)%nat ->
  exists s', freeaddrinfo_loop fuel (hd_ptr l 0) s = Ok tt s' /\ wf s' F /\ same s s'.
Proof.
  induction fuel as [|fuel IH]; intros s l F Hw Hf; [lia|]. cbn [freeaddrinfo_loop]. destruct l as [|n l]; [rewrite Z.eqb_refl; exists s; eauto with gai|].
  cbn [hd_ptr length] in *. cbn [cells] in Hw. unfold node_cells in Hw. cbn [app] in Hw. rewrite <- !app_assoc in Hw. rewrite eqb_false by (by eapply wf_nonnull). rewrite (pbind_ok _ _ _ _ _ (gai_deref_run _ _ _ _ Hw)). cbn [ai_of ai_addr ai_canonname ai_next].
  assert (forall (c : option (Z * cell)) G s, wf s (match c with Some x => [x] | None => [] end ++ G) -> exists s', (if negb (ptr_of c =? 0) then free (ptr_of c) else pret tt) s = Ok tt s' /\ same s s' /\ wf s' G) as Hopt.
  { intros [[p c]|] G s0 H0; cbn [ptr_of].
    - rewrite eqb_false by (by eapply wf_nonnull). by apply (free_run p c).
    - rewrite Z.eqb_refl. exists s0. eauto with gai. }
  destruct (Hopt ((fun x => (x.1, Csa x.2)) <$> n_sa n) ((n_ptr n, Cai (ai_of n (hd_ptr l 0))) :: str_cells (n_canon n) ++ cells l 0 ++ F) s) as (s1 & E1 & Hs1 & Hw1).
  { eapply wf_perm; [|exact Hw]. destruct (n_sa n) as [[]|]; [apply Permutation_swap|done]. }
  replace (ptr_of ((fun x => (x.1, Csa x.2)) <$> n_sa n)) with (ptr_of (n_sa n)) in E1 by (by destruct (n_sa n) as [[]|]). rewrite (pbind_ok _ _ _ _ _ E1).
  destruct (Hopt ((fun x => (x.1, Cstr x.2)) <$> n_canon n) ((n_ptr n, Cai (ai_of n (hd_ptr l 0))) :: cells l 0 ++ F) s1) as (s2 & E2 & Hs2 & Hw2).
  { eapply wf_perm; [|exact Hw1]. destruct (n_canon n) as [[]|]; [apply Permutation_swap|done]. }
  replace (ptr_of ((fun x => (x.1, Cstr x.2)) <$> n_canon n)) with (ptr_of (n_canon n)) in E2 by (by destruct (n_canon n) as [[]|]). rewrite (pbind_ok _ _ _ _ _ E2).
  destruct (free_run _ _ _ _ Hw2) as (s3 & E3 & Hs3 & Hw3). rewrite (pbind_ok _ _ _ _ _ E3). destruct (IH s3 l F Hw3 ltac:(lia)) as (s' & E & Hw' & Hs'). exists s'. eauto 7 with gai.
Qed.

Lemma freeaddrinfo_run s l F : wf s (cells l 0 ++ F) -> exists s', freeaddrinfo (hd_ptr l 0) s = Ok tt s' /\ wf s' F /\ same s s'.
Proof. intros Hw. unfold freeaddrinfo. pstep. apply freeaddrinfo_loop_run; [done|by eapply wf_size]. Qed.

(** ** Services *)
Section services.
Context (h : hints) (getservbyname : bytes -> bytes -> option Z).

(** The ports, in network order, and the types of sockets. *)
Definition serv_ports (serv : bytes) : list (Z * Z) :=
  if isdigit (nth 0 serv NUL) then
    let port := htons (atoi serv) in if negb (h_socktype h =? 0) then [(port, h_socktype h)] else [(port, SOCK_STREAM); (port, SOCK_DGRAM)]
  else
    let by_name proto t := if (h_socktype h =? 0) || (h_socktype h =? t) then match getservbyname serv proto with Some port => [(port, t)] | None => [] end else [] in
    by_name (lit "tcp") SOCK_STREAM ++ by_name (lit "udp") SOCK_DGRAM.

Fixpoint run_ports (head : Z) (ps : list (Z * Z)) (nfound : Z) (k : Z -> gp Z) : gp Z :=
  match ps with [] => k nfound | (port, t) :: ps => count_port head port t nfound (fun n => run_ports head ps n k) end.

Fixpoint sp_ports (ps : list (Z * Z)) (vs : list view) : list view * Z :=
  match ps with
  | [] => (vs, 0)
  | (port, t) :: ps => let '(vs, n) := sp_port port t vs in let '(vs, k) := sp_ports ps vs in (vs, n + k)
  end.

Definition sp_serv (serv : bytes) (vs : list view) : Z + list view :=
  let '(vs, n) := sp_ports (serv_ports serv) vs in
  if n =? 0 then inl (if h_socktype h =? 0 then EAI_NONAME else EAI_SERVICE) else inr vs.

Lemma ga_serv_ports head serv : ga_serv getservbyname head h serv =
  run_ports head (serv_ports serv) 0 (fun n => if n =? 0 then pret (if h_socktype h =? 0 then EAI_NONAME else EAI_SERVICE) else pret 0).
Proof.
  unfold ga_serv, serv_ports. destruct (isdigit _); [by destruct (negb (h_socktype h =? 0))|].
  destruct ((h_socktype h =? 0) || (h_socktype h =? SOCK_STREAM)), ((h_socktype h =? 0) || (h_socktype h =? SOCK_DGRAM)); repeat destruct (getservbyname _ _); done.
Qed.

Lemma run_ports_run ps k : forall s l F nfound,
  wf s (cells l 0 ++ F) -> Forall good l ->
  exists s' l', same s s' /\ hd_ptr l' 0 = hd_ptr l 0 /\ wf s' (cells l' 0 ++ F) /\
    ((run_ports (hd_ptr l 0) ps nfound k s = Ok EAI_MEMORY s' /\ true ∈ oom s) \/
     (view_of <$> l' = (sp_ports ps (view_of <$> l)).1 /\ run_ports (hd_ptr l 0) ps nfound k s = k (nfound + (sp_ports ps (view_of <$> l)).2) s')).
Proof.
  induction ps as [|[port t] ps IH]; intros s l F nfound Hw Hg; cbn [run_ports sp_ports].
  { exists s, l. split; [apply same_refl|]. split; [done|]. split; [done|]. right. cbn. by rewrite Z.add_0_r. }
  unfold count_port. destruct (ga_port_run s l F port t Hw Hg) as (rc & s1 & E & Hs1 & l1 & Hh & Hw1 & Hr). rewrite (pbind_ok _ _ _ _ _ E). destruct Hr as [[-> Ho]|(H0 & Hg1 & Hv)].
  - exists s1, l1. split; [done|]. split; [done|]. split; [done|]. by left.
  - rewrite ltb_false by done. rewrite <- Hv. destruct (IH s1 l1 F (nfound + rc) Hw1 Hg1) as (s' & l' & Hs' & Hh' & Hw' & Hr). rewrite Hh in *. exists s', l'. split; [by eapply same_trans|]. split; [done|]. split; [done|].
    destruct Hr as [[E' Ho]|[Hv' E']]; [left; split; [done|by apply (same_oom _ _ Hs1)]|right]. destruct (sp_ports ps (view_of <$> l1)) as [vs k']. cbn in *. split; [done|]. rewrite E'. by rewrite Z.add_assoc.
Qed.

Lemma ga_serv_run s l F serv :
  wf s (cells l 0 ++ F) -> Forall good l ->
  exists rc s', ga_serv getservbyname (hd_ptr l 0) h serv s = Ok rc s' /\ same s s' /\
    exists l', hd_ptr l' 0 = hd_ptr l 0 /\ wf s' (cells l' 0 ++ F) /\
      ((rc = EAI_MEMORY /\ true ∈ oom s) \/ match sp_serv serv (view_of <$> l) with inl e => rc = e /\ e <> 0 | inr vs => rc = 0 /\ view_of <$> l' = vs end).
Proof.
  intros Hw Hg. rewrite ga_serv_ports. destruct (run_ports_run (serv_ports serv) (fun n => if n =? 0 then pret (if h_socktype h =? 0 then EAI_NONAME else EAI_SERVICE) else pret 0) s l F 0 Hw Hg) as (s' & l' & Hs & Hh & Hw' & Hr).
  unfold sp_serv. destruct Hr as [[E Ho]|[Hv E]].
  - exists EAI_MEMORY, s'. split; [done|]. split; [done|]. exists l'. auto.
  - destruct (sp_ports (serv_ports serv) (view_of <$> l)) as [vs n]. cbn [fst snd] in Hv, E. rewrite Z.add_0_l in E.
    rewrite E. destruct (n =? 0); (eexists _, _; split; [done|]; split; [done|]; exists l'; split; [done|]; split; [done|]; right).
    + by destruct (h_socktype h =? 0).
    + done.
Qed.

End services.

(** ** An entry for every address and every port *)
Section entries.
Context (h : hints).

(** The [i]th port of an address: the first uses the structure of the
    search, the others are copies. *)
Definition port_view (i : nat) (fa : Z * bytes) (pt : Z * Z) : view :=
  mkView (match i with O => if h_socktype h =? 0 then AI_CLONE else 0 | S _ => 0 end) fa.1 pt.2 (h_protocol h) (len_of fa) None (Some (sa_of fa (wrapu 16 pt.1))).

Definition entries (fas : list (Z * bytes)) (ps : list (Z * Z)) : list view := fas ≫= (fun fa => imap (fun i pt => port_view i fa pt) ps).

Lemma with_port_of fa p port : with_port (sa_of fa p) port = sa_of fa (wrapu 16 port).
Proof. unfold sa_of. by destruct (fa.1 =? AF_INET). Qed.

(** The types of the ports that are looked for. *)
Lemma serv_ports_types getservbyname serv :
  let ps := serv_ports h getservbyname serv in
  (h_socktype h <> 0 -> ps = [] \/ exists p, ps = [(p, h_socktype h)]) /\
  (h_socktype h = 0 -> ps = [] \/ (exists p t, ps = [(p, t)] /\ t <> 0) \/ exists p q, ps = [(p, SOCK_STREAM); (q, SOCK_DGRAM)]).
Proof.
  cbn. unfold serv_ports. destruct (isdigit _).
  - split; intros H; [rewrite eqb_false by done; cbn [negb]; eauto|]. rewrite H. cbn. eauto.
  - split; intros H.
    + rewrite (eqb_false (h_socktype h) 0) by done. cbn [orb]. destruct (Z.eqb_spec (h_socktype h) SOCK_STREAM) as [->|], (Z.eqb_spec (h_socktype h) SOCK_DGRAM) as [E|]; try done; repeat destruct (getservbyname _ _); cbn; eauto; rewrite ?E; eauto.
    + rewrite H. cbn [Z.eqb orb]. repeat destruct (getservbyname _ _); cbn; eauto 10.
Qed.

Lemma sp_ports_entries getservbyname serv fas :
  let ps := serv_ports h getservbyname serv in
  ps <> [] -> sp_ports ps (host_view h <$> fas) = (entries fas ps, zlen fas * zlen ps).
Proof.
  intros ps Hne. pose proof (serv_ports_types getservbyname serv) as [H1 H2]. fold ps in H1, H2. unfold entries.
  assert (forall p t, (h_socktype h = 0 /\ t <> 0) \/ h_socktype h = t -> sp_port p t (host_view h <$> fas) = (fas ≫= (fun fa => [port_view 0 fa (p, t)]), zlen fas)) as Hone.
  { intros p t Ht. induction fas as [|fa l IH]; [done|]. rewrite fmap_cons, bind_cons. cbn [sp_port app]. rewrite IH.
    assert (sp_entry p t (host_view h fa) = ([port_view 0 fa (p, t)], 1)) as ->; [|cbn; f_equal; zl]. unfold sp_entry, host_view, set_view, port_view. cbn [v_flags v_socktype v_family v_protocol v_len v_canon v_sa fst snd fmap option_fmap option_map]. rewrite with_port_of.
    destruct (Z.eqb_spec (h_socktype h) 0) as [E|E]; [rewrite E; done|]. cbn. destruct Ht as [[? _]|<-]; [done|]. by rewrite Z.eqb_refl. }
  destruct (Z.eq_dec (h_socktype h) 0) as [E|E].
  - destruct (H2 E) as [->|[(p & t & -> & Ht)|(p & q & ->)]]; [done| |].
    + cbn [sp_ports]. rewrite Hone by auto. cbn. f_equal. zl.
    + cbn [sp_ports]. rewrite Hone by (left; done). assert (sp_port q SOCK_DGRAM (fas ≫= (fun fa => [port_view 0 fa (p, SOCK_STREAM)])) = (fas ≫= (fun fa => [port_view 0 fa (p, SOCK_STREAM); port_view 1 fa (q, SOCK_DGRAM)]), zlen fas)) as ->; [|cbn; f_equal; zl].
      clear -E. induction fas as [|fa l IH]; [done|]. rewrite !bind_cons. cbn [app sp_port]. rewrite IH.
      assert (sp_entry q SOCK_DGRAM (port_view 0 fa (p, SOCK_STREAM)) = ([port_view 0 fa (p, SOCK_STREAM); port_view 1 fa (q, SOCK_DGRAM)], 1)) as ->; [|cbn; f_equal; zl].
      unfold sp_entry, port_view, clone_view. cbn [v_flags v_socktype v_family v_protocol v_len v_canon v_sa fst snd fmap option_fmap option_map]. rewrite with_port_of, E. done.
  - destruct (H1 E) as [->|(p & ->)]; [done|]. cbn [sp_ports]. rewrite Hone by (by right). cbn. f_equal. zl.
Qed.

End entries.
