(* ===== verification/GaiProps.v ===== *)
(** * Properties of getaddrinfo and getnameinfo *)
From S2P Require Import Prelude CString Posix Inet InetThms Gai GaiThms.

Open Scope prog_scope.

Definition canon_view (x : bytes) (v : view) : view := mkView (v_flags v) (v_family v) (v_socktype v) (v_protocol v) (v_len v) (Some x) (v_sa v).

(** The name is in the first structure. *)
Definition canon_first (name : option bytes) (vs : list view) : list view :=
  match name, vs with Some x, v :: vs => canon_view x v :: vs | _, _ => vs end.

Lemma sp_entry_canon p t x v : sp_entry p t (canon_view x v) = (canon_first (Some x) (sp_entry p t v).1, (sp_entry p t v).2).
Proof. unfold sp_entry, canon_view. cbn [v_flags v_socktype]. by repeat case_match. Qed.

Lemma sp_port_canon p t name vs : sp_port p t (canon_first name vs) = (canon_first name (sp_port p t vs).1, (sp_port p t vs).2).
Proof.
  destruct name as [x|]; [|cbn [canon_first]; by destruct (sp_port p t vs)]. destruct vs as [|v vs]; [done|]. cbn [canon_first sp_port]. rewrite sp_entry_canon.
  assert (exists w l n, sp_entry p t v = (w :: l, n)) as (w & l & n & ->) by (unfold sp_entry; repeat case_match; eauto). by destruct (sp_port p t vs).
Qed.

Lemma sp_ports_canon ps name : forall vs, sp_ports ps (canon_first name vs) = (canon_first name (sp_ports ps vs).1, (sp_ports ps vs).2).
Proof.
  induction ps as [|[p t] ps IH]; intros vs; cbn [sp_ports]; [done|]. rewrite sp_port_canon. destruct (sp_port p t vs) as [vs1 n]. cbn. rewrite IH. by destruct (sp_ports ps vs1).
Qed.

Section gai.
Context (inet_pton : Z -> bytes -> option bytes) (gethostbyname : bool -> bytes -> hostent + Z) (gethostbyname2 : bytes -> Z -> hostent + Z).
Context (getservbyname : bytes -> bytes -> option Z) (uname : option bytes).
Context (hostname servname : option bytes) (hintsp : option hints).

Abbreviation h := (default no_hints hintsp).
Abbreviation search_spec := (sp_search h hostname inet_pton gethostbyname gethostbyname2).
Abbreviation gai := (getaddrinfo inet_pton gethostbyname gethostbyname2 getservbyname uname hostname servname hintsp).

(** The structures without memory: the addresses in the order of the
    search, each with every port of the service. *)
Definition sp_found (host0 : bytes) (fas : list (Z * bytes)) (cs : option bytes) : Z + list view :=
  if decide (fas = []) then inl EAI_NONAME
  else
    let name := if want_canon hostname h then Some (default host0 cs) else None in
    match servname with
    | None | Some [] => inr (canon_first name (host_view h <$> fas))
    | Some serv =>
        let ps := serv_ports h getservbyname serv in
        if decide (ps = []) then inl (if h_socktype h =? 0 then EAI_NONAME else EAI_SERVICE)
        else inr (canon_first name (entries h fas ps))
    end.

(** [None]: the process exits. *)
Definition sp_gai : option (Z + list view) :=
  let rc := ga_echeck hostname servname (h_flags h) (h_family h) (h_socktype h) (h_protocol h) in
  if negb (rc =? 0) then Some (inl rc)
  else
    match ga_nsearch hostname h with
    | None => None
    | Some search =>
        Some (match search_spec (zlen search) search with
              | inl e => inl e
              | inr (fas, cs) => sp_found (default [] (fst <$> search !! 0%nat)) fas cs
              end)
    end.

(** The list and the cells that were there before, or with an error these
    and at most a canonical name. *)
Definition returns (s s' : gst) (G : list (Z * cell)) (rc p : Z) (R : Z + list view) : Prop :=
  ((rc = EAI_MEMORY /\ true ∈ oom s) \/ match R with inl e => rc = e /\ e <> 0 | inr _ => rc = 0 end) /\
  (if rc =? 0 then exists l vs, R = inr vs /\ p = hd_ptr l 0 /\ wf s' (cells l 0 ++ G) /\ view_of <$> l = vs
   else p = 0 /\ exists c, wf s' (str_cells c ++ G) /\ (want_canon hostname h = false -> c = None)).

Hypothesis lib : lib_ok inet_pton gethostbyname gethostbyname2.

Lemma wf_vars s G t : wf s G -> heap t = heap s -> nxt t = nxt s -> wf t G.
Proof. intros [] E1 E2. constructor; rewrite ?E1, ?E2; done. Qed.

Lemma bad_run s l c G rc : rc <> 0 -> wf s (cells l 0 ++ str_cells c ++ G) -> aihead s = hd_ptr l 0 -> exists s', bad rc s = Ok (rc, 0) s' /\ wf s' (str_cells c ++ G).
Proof.
  intros Hrc Hw Hh. unfold bad. pstep. rewrite Hh. destruct (freeaddrinfo_run s l _ Hw) as (s' & E & Hw' & _). rewrite (pbind_ok _ _ _ _ _ E). by exists s'.
Qed.

(** The canonical name is put into the first structure. *)
Lemma canonname_run s n l c F host0 :
  ok h hostname s (n :: l) c F -> n_canon n = None ->
  exists rc s' n', canonname hostname h host0 s = Ok rc s' /\ (forall b, b ∈ oom s' -> b ∈ oom s) /\ aihead s' = n_ptr n' /\ wf s' (cells (n' :: l) 0 ++ F) /\
    ((rc = EAI_MEMORY /\ true ∈ oom s) \/
     (rc = 0 /\ view_of <$> n' :: l = canon_first (if want_canon hostname h then Some (default host0 (snd <$> c)) else None) (view_of <$> n :: l))).
Proof.
  intros Hok Hc. unfold canonname. pose proof (ok_want _ _ _ _ _ _ Hok) as Hwant. pose proof (ok_wf _ _ _ _ _ _ Hok) as Hw. pose proof (ok_head _ _ _ _ _ _ Hok) as Hh. cbn [hd_ptr] in Hh.
  destruct (want_canon hostname h).
  2: { rewrite (Hwant eq_refl) in Hw. exists 0, s, n. split_and!; try done. by right. }
  pstep. rewrite Hh, (ok_canon _ _ _ _ _ _ Hok).
  set (n1 q x := mkNode (n_ptr n) (n_flags n) (n_family n) (n_socktype n) (n_protocol n) (n_len n) (Some (q, x)) (n_sa n)).
  assert (forall s1 q x, same s s1 -> wf s1 ((q, Cstr x) :: cells (n :: l) 0 ++ F) -> exists s2, upd (n_ptr n) (set_canonname q) s1 = Ok tt s2 /\ same s s2 /\ wf s2 (cells (n1 q x :: l) 0 ++ F)) as Hset.
  { intros s1 q x Hs1 Hw1. assert (wf s1 ((n_ptr n, Cai (ai_of n (hd_ptr l 0))) :: (q, Cstr x) :: sa_cells (n_sa n) ++ cells l 0 ++ F)) as Hw2.
    { eapply wf_perm; [|exact Hw1]. cbn [cells]. unfold node_cells. rewrite Hc. cbn [str_cells app]. rewrite app_nil_r, <- app_assoc. apply Permutation_swap. }
    destruct (gai_upd_run _ _ (set_canonname q) _ _ Hw2) as (s2 & E & Hs2 & Hw3). exists s2. split; [done|]. split; [by eapply same_trans|]. eapply wf_perm; [|exact Hw3].
    cbn [cells]. unfold node_cells. cbn [n1 n_ptr n_sa n_canon str_cells]. unfold set_canonname, ai_of. cbn. rewrite <- !app_assoc. cbn [app]. constructor. solve_Permutation. }
  destruct c as [[q x]|]; cbn [ptr_of].
  - assert (wf s ((q, Cstr x) :: cells (n :: l) 0 ++ F)) as Hw1 by (eapply wf_perm; [|exact Hw]; cbn [str_cells app]; solve_Permutation). rewrite eqb_false by (by eapply wf_nonnull). cbn [negb].
    destruct (Hset s q x (same_refl s) Hw1) as (s2 & E & Hs2 & Hw2). rewrite (pbind_ok _ _ _ _ _ E). exists 0, s2, (n1 q x). split; [done|]. split; [apply (same_oom _ _ Hs2)|]. split; [rewrite (same_head _ _ Hs2); exact Hh|]. split; [exact Hw2|]. by right.
  - rewrite Z.eqb_refl. cbn [negb str_cells app] in *. destruct (gai_alloc_run (Cstr host0) s _ Hw) as (s1 & Hs1 & [(E & Hw1 & Ho)|(q & E & Hq & Hw1)]); rewrite (pbind_ok _ _ _ _ _ E).
    + assert (wf s1 ((n_ptr n, Cai (ai_of n (hd_ptr l 0))) :: sa_cells (n_sa n) ++ cells l 0 ++ F)) as Hw2 by (eapply wf_perm; [|exact Hw1]; cbn [cells]; unfold node_cells; rewrite Hc; cbn [str_cells app]; by rewrite app_nil_r, <- app_assoc).
      destruct (gai_upd_run _ _ (set_canonname 0) _ _ Hw2) as (s2 & E2 & Hs2 & Hw3). rewrite (pbind_ok _ _ _ _ _ E2), Z.eqb_refl. pose proof (same_trans _ _ _ Hs1 Hs2) as Hs. eexists _, _, n. split; [done|]. split; [apply (same_oom _ _ Hs)|].
      split; [by rewrite (same_head _ _ Hs)|]. split; [|by left]. eapply wf_perm; [|exact Hw3]. cbn [cells]. unfold node_cells. rewrite Hc. cbn [str_cells]. rewrite app_nil_r. cbn [app]. rewrite <- ?app_assoc. unfold set_canonname, ai_of. cbn. by rewrite Hc.
    + destruct (Hset s1 q host0 Hs1 Hw1) as (s2 & E2 & Hs2 & Hw2). rewrite (pbind_ok _ _ _ _ _ E2), eqb_false by done. exists 0, s2, (n1 q host0). split; [done|]. split; [apply (same_oom _ _ Hs2)|]. split; [rewrite (same_head _ _ Hs2); exact Hh|]. split; [exact Hw2|]. by right.
Qed.

Lemma found_good fas : Forall addr_ok fas -> Forall (fun v => fits (v_family v) (v_sa v)) (host_view h <$> fas).
Proof.
  intros HF. apply Forall_fmap. eapply Forall_impl; [exact HF|]. intros fa [[E _]|[E _]]; unfold compose, host_view, sa_of; cbn [v_family v_sa fits]; by rewrite E.
Qed.

Lemma good_views l : Forall good l <-> Forall (fun v => fits (v_family v) (v_sa v)) (view_of <$> l).
Proof. by rewrite Forall_fmap. Qed.

Lemma sp_serv_entries serv fas name :
  fas <> [] -> sp_serv h getservbyname serv (canon_first name (host_view h <$> fas)) =
  (if decide (serv_ports h getservbyname serv = []) then inl (if h_socktype h =? 0 then EAI_NONAME else EAI_SERVICE) else inr (canon_first name (entries h fas (serv_ports h getservbyname serv)))).
Proof.
  intros Hne. unfold sp_serv. rewrite sp_ports_canon. destruct (decide (serv_ports h getservbyname serv = [])) as [E|E]; [by rewrite E|].
  rewrite sp_ports_entries by done. cbn [fst snd]. rewrite eqb_false; [done|]. destruct fas; [done|]. destruct (serv_ports h getservbyname serv); [done|]. zl || (rewrite !zlen_cons; pose proof (zlen_nonneg fas); nia).
Qed.

(** After the search. *)
Lemma found_run s l c G host0 fas cs :
  ok h hostname s l c G -> view_of <$> l = host_view h <$> fas -> snd <$> c = cs -> Forall addr_ok fas ->
  exists rc s', (do hd <- get aihead; if hd =? 0 then pret EAI_NONAME else check (canonname hostname h host0) (services getservbyname servname h)) s = Ok rc s' /\
    exists l' c', wf s' (cells l' 0 ++ str_cells c' ++ G) /\ aihead s' = hd_ptr l' 0 /\ (want_canon hostname h = false -> c' = None) /\
    ((rc = EAI_MEMORY /\ true ∈ oom s) \/ match sp_found host0 fas cs with inl e => rc = e /\ e <> 0 | inr vs => rc = 0 /\ c' = None /\ view_of <$> l' = vs end).
Proof.
  intros Hok Hv Hc HF. pstep. pose proof (ok_wf _ _ _ _ _ _ Hok) as Hw. unfold sp_found. rewrite (ok_head _ _ _ _ _ _ Hok). destruct l as [|n l].
  { assert (fas = []) as -> by (by destruct fas). rewrite Z.eqb_refl, decide_True by done. eexists _, _. split; [done|]. exists [], c. split; [exact Hw|]. split; [apply (ok_head _ _ _ _ _ _ Hok)|]. split; [apply (ok_want _ _ _ _ _ _ Hok)|]. by right. }
  assert (fas <> []) as Hne by (by destruct fas). rewrite decide_False by done. cbn [hd_ptr]. rewrite eqb_false by (cbn [cells app] in Hw; unfold node_cells in Hw; cbn [app] in Hw; by eapply wf_nonnull).
  assert (n_canon n = None) as Hn. { destruct fas as [|fa fas]; [done|]. rewrite !fmap_cons in Hv. apply (f_equal (fun l => v_canon <$> head l)) in Hv. cbn in Hv. by destruct (n_canon n). }
  destruct (canonname_run s n l c G host0 Hok Hn) as (rc & s1 & n' & E & Ho & Hh & Hw1 & Hr). unfold check. rewrite (pbind_ok _ _ _ _ _ E). destruct Hr as [[-> Ho1]|[-> Hv1]].
  { eexists _, _. split; [done|]. exists (n' :: l), None. split; [done|]. split; [done|]. split; [done|]. by left. }
  change (negb (0 =? 0)) with false. cbn iota. rewrite Hv, Hc in Hv1. unfold services. set (name := if want_canon hostname h then Some (default host0 cs) else None) in *.
  assert (exists rc s', pret 0 s1 = Ok rc s' /\ exists l' c', wf s' (cells l' 0 ++ str_cells c' ++ G) /\ aihead s' = hd_ptr l' 0 /\ (want_canon hostname h = false -> c' = None) /\
    ((rc = EAI_MEMORY /\ true ∈ oom s) \/ (rc = 0 /\ c' = None /\ view_of <$> l' = canon_first name (host_view h <$> fas)))) as Hnone.
  { eexists _, _. split; [done|]. exists (n' :: l), None. split_and!; try done. right. done. }
  destruct servname as [[|b serv]|]; [exact Hnone| |exact Hnone]. pstep. rewrite Hh. change (n_ptr n') with (hd_ptr (n' :: l) 0).
  destruct (ga_serv_run h getservbyname s1 (n' :: l) G (b :: serv) Hw1) as (rc & s' & E' & Hs' & l' & Hh' & Hw' & Hr').
  { apply good_views. rewrite Hv1. pose proof (found_good fas HF) as Hg. destruct name, (host_view h <$> fas) as [|v vs]; try done. cbn. by apply Forall_cons in Hg as [? ?]; constructor. }
  exists rc, s'. split; [done|]. exists l', None. split; [done|]. split; [by rewrite (same_head _ _ Hs'), Hh, Hh'|]. split; [done|].
  destruct Hr' as [[-> Ho']|Hr']; [left; auto|right]. rewrite Hv1, sp_serv_entries in Hr' by done. destruct (decide _); [done|]. by destruct Hr'.
Qed.

Lemma check_stop (m k : gp Z) s rc s1 : m s = Ok rc s1 -> rc <> 0 -> check m k s = Ok rc s1.
Proof. intros E H. unfold check. rewrite (pbind_ok _ _ _ _ _ E). by rewrite eqb_false. Qed.

Lemma check_go (m k : gp Z) s s1 : m s = Ok 0 s1 -> check m k s = k s1.
Proof. intros E. unfold check. by rewrite (pbind_ok _ _ _ _ _ E). Qed.

Lemma getaddrinfo_run s G :
  wf s G -> is_unix hostname servname = None ->
  match sp_gai with
  | None => exists s', gai s = Abort "nsearch = 0" s'
  | Some R => exists rc p s', gai s = Ok (rc, p) s' /\ returns s s' G rc p R
  end.
Proof.
  intros Hw Hu. unfold sp_gai, getaddrinfo. pstep. set (s0 := set_canon 0 _). set (rc0 := ga_echeck _ _ _ _ _ _).
  assert (ok h hostname s0 [] None G) as Hok by (constructor; try done; by eapply wf_vars).
  assert (forall rc s1 l c, rc <> 0 -> wf s1 (cells l 0 ++ str_cells c ++ G) -> aihead s1 = hd_ptr l 0 -> (want_canon hostname h = false -> c = None) ->
    forall R, ((rc = EAI_MEMORY /\ true ∈ oom s) \/ match R with inl e => rc = e /\ e <> 0 | inr _ => rc = 0 end) -> exists rc' p s', bad rc s1 = Ok (rc', p) s' /\ returns s s' G rc' p R) as Hbad.
  { intros rc s1 l c Hrc Hw1 Hh1 Hc R HR. destruct (bad_run s1 l c G rc Hrc Hw1 Hh1) as (s' & E & Hw'). exists rc, 0, s'. split; [done|]. split; [done|]. rewrite eqb_false by done. split; [done|]. by exists c. }
  destruct (Z.eqb_spec rc0 0) as [Erc|Erc]; cbn [negb].
  2: { apply (Hbad rc0 s0 [] None); try done; [apply Hok|]. by right. }
  rewrite Hu. destruct (ga_nsearch hostname h) as [search|]; [|by eexists]. set (host0 := default [] _).
  destruct (gai_search_loop_run h hostname inet_pton gethostbyname gethostbyname2 lib (zlen search) search s0 [] None G Hok) as (rc & s1 & E & Ho & Hg). cbn in Ho.
  assert (rc <> 0 -> (exists l c, ok h hostname s1 l c G) -> forall R, ((rc = EAI_MEMORY /\ true ∈ oom s) \/ match R with inl e => rc = e /\ e <> 0 | inr _ => rc = 0 end) ->
    exists rc' p s', (do rc <- check (search_loop inet_pton gethostbyname gethostbyname2 hostname h (zlen search) search) (do hd <- get aihead; if hd =? 0 then pret EAI_NONAME else check (canonname hostname h host0) (services getservbyname servname h));
      if negb (rc =? 0) then bad rc else do hd <- get aihead; pret (0, hd)) s0 = Ok (rc', p) s' /\ returns s s' G rc' p R) as Hstop.
  { intros Hrc (l & c & Hok1) R HR. rewrite (pbind_ok _ _ _ _ _ (check_stop _ _ _ _ _ E Hrc)), eqb_false by done. cbn [negb]. eapply (Hbad rc s1 l c); try done; apply Hok1. }
  destruct Hg as [(Em & Hoom & Hok1)|Hg]; [apply Hstop; [by rewrite Em|done|by left]|].
  destruct (search_spec (zlen search) search) as [e|[fas cs]] eqn:Es; cbn [after] in Hg.
  - destruct Hg as (-> & He & Hok1). apply Hstop; [done|done|by right].
  - destruct Hg as (-> & l & c & Hok1 & Hv & Hc). cbn [fmap list_fmap app] in Hv.
    pose proof (sp_search_ok h hostname inet_pton gethostbyname gethostbyname2 lib _ _ _ _ Es) as HF.
    destruct (found_run s1 l c G host0 fas cs Hok1 Hv Hc HF) as (rc & s2 & E2 & l2 & c2 & Hw2 & Hh2 & Hc2 & Hr2). rewrite (pbind_ok _ _ _ rc s2) by (rewrite (check_go _ _ _ _ E); exact E2).
    destruct (Z.eqb_spec rc 0) as [->|Hrc]; cbn [negb].
    + pstep. eexists _, _, _. split; [done|]. destruct Hr2 as [[Hx _]|Hr2]; [done|]. destruct (sp_found host0 fas cs) as [e|vs]; [by destruct Hr2 as [<- ?]|]. destruct Hr2 as (_ & -> & Hv2).
      split; [by right|]. cbn [Z.eqb]. exists l2, vs. done.
    + apply (Hbad rc s2 l2 c2); try done. destruct Hr2 as [[-> Hx]|Hr2]; [left; split; [done|by apply Ho]|right]. destruct (sp_found host0 fas cs); [done|by destruct Hr2].
Qed.

End gai.

(** ** The properties *)

(** C35: for a host that is not the local one, getaddrinfo returns what the
    definition without memory gives: the error, or a list that has, for
    every address in the order of the search, an entry for every port of
    the service, the first with the canonical name, and next to it only the
    cells that were there before; or EAI_MEMORY, if an allocation fails. *)
Theorem getaddrinfo_refines inet_pton gethostbyname gethostbyname2 getservbyname uname hostname servname hintsp s G :
  lib_ok inet_pton gethostbyname gethostbyname2 -> wf s G -> is_unix hostname servname = None ->
  let gai := getaddrinfo inet_pton gethostbyname gethostbyname2 getservbyname uname hostname servname hintsp in
  match sp_gai inet_pton gethostbyname gethostbyname2 getservbyname hostname servname hintsp with
  | None => exists s', gai s = Abort "nsearch = 0" s'
  | Some R =>
      exists rc p s', gai s = Ok (rc, p) s' /\
        ((rc = EAI_MEMORY /\ true ∈ oom s) \/
         match R with inl e => rc = e /\ e <> 0 | inr vs => rc = 0 /\ exists l, p = hd_ptr l 0 /\ wf s' (cells l 0 ++ G) /\ view_of <$> l = vs end)
  end.
Proof.
  intros Hlib Hw Hu gai. pose proof (getaddrinfo_run inet_pton gethostbyname gethostbyname2 getservbyname uname hostname servname hintsp Hlib s G Hw Hu) as H.
  destruct (sp_gai _ _ _ _ _ _ _) as [R|]; [|done]. destruct H as (rc & p & s' & E & [H1|H1] & H2); exists rc, p, s'; (split; [done|]); [by left|right].
  destruct R as [e|vs]; [done|]. rewrite H1 in H2. destruct H2 as (l & vs' & [= <-] & H3). split; [done|]. by exists l.
Qed.

(** C36: whatever allocations fail, getaddrinfo frees what it has allocated
    when it returns an error, except for a canonical name it was asked
    for, and [freeaddrinfo] of a list it returns gives back the heap as it
    was. *)
Theorem getaddrinfo_frees inet_pton gethostbyname gethostbyname2 getservbyname uname hostname servname hintsp s rc p s' :
  lib_ok inet_pton gethostbyname gethostbyname2 -> wf s (map_to_list (heap s)) -> is_unix hostname servname = None ->
  getaddrinfo inet_pton gethostbyname gethostbyname2 getservbyname uname hostname servname hintsp s = Ok (rc, p) s' ->
  if rc =? 0 then exists s2, freeaddrinfo p s' = Ok tt s2 /\ heap s2 = heap s
  else heap s' = heap s \/ (want_canon hostname (default no_hints hintsp) = true /\ exists q x, heap s !! q = None /\ heap s' = <[q := Cstr x]> (heap s)).
Proof.
  intros Hlib Hw Hu E. pose proof (getaddrinfo_run inet_pton gethostbyname gethostbyname2 getservbyname uname hostname servname hintsp Hlib s _ Hw Hu) as H.
  destruct (sp_gai _ _ _ _ _ _ _) as [R|]; [|destruct H as (s2 & H); congruence]. destruct H as (rc' & p' & s2 & E' & _ & H). rewrite E in E'. injection E' as <- <- <-. destruct (rc =? 0).
  - destruct H as (l & vs & _ & -> & Hwl & _). destruct (freeaddrinfo_run s' l _ Hwl) as (s2 & E2 & Hw2 & _). exists s2. split; [done|]. apply map_to_list_inj, Hw2.
  - destruct H as (_ & c & Hwc & Hc). destruct c as [[q x]|]; [right|left; apply map_to_list_inj, Hwc]. split; [by destruct (want_canon _ _); [|discriminate Hc]|]. exists q, x.
    assert (heap s !! q = None) as Hq.
    { apply eq_None_not_Some. intros [y Hy]. pose proof (NoDup_fst_map_to_list (heap s')) as Hnd. rewrite (wf_cells _ _ Hwc) in Hnd. cbn in Hnd. apply NoDup_cons in Hnd as [Hnd _]. apply Hnd. apply list_elem_of_fmap. exists (q, y). split; [done|]. by apply elem_of_map_to_list. }
    split; [done|]. apply map_to_list_inj. rewrite map_to_list_insert by done. apply Hwc.
Qed.

Lemma ntohs_htons x : 0 <= x < 65536 -> ntohs (wrapu 16 (htons x)) = x.
Proof.
  assert (forall y, 0 <= y < 65536 -> htons y = (y mod 256) * 256 + y / 256) as Hh.
  { intros y Hy. unfold htons, wrapu. rewrite (Z.mod_small y (2 ^ 16)) by lia. change 255 with (Z.ones 8). rewrite Z.land_ones, Z.shiftl_mul_pow2, Z.shiftr_div_pow2 by lia. change (2 ^ 8) with 256.
    rewrite <- Z.lxor_lor, <- Z.add_nocarry_lxor; [done|..].
    all: apply Z.bits_inj'; intros n Hn; rewrite Z.land_spec, Z.bits_0; change 256 with (2 ^ 8); rewrite <- Z.shiftl_mul_pow2 by lia; destruct (Z.ltb_spec n 8);
      [rewrite Z.shiftl_spec_low by lia; done|rewrite (Z.bits_above_log2 (y / 2 ^ 8)); [apply andb_false_r|apply Z.div_pos; lia|]];
      apply Z.le_lt_trans with 7; [|lia]; replace 7 with (Z.log2 255) by done; apply Z.log2_le_mono; assert (y / 2 ^ 8 < 256) by (apply Z.div_lt_upper_bound; lia); lia. }
  intros Hx. assert (0 <= htons x < 65536) as Hb by (rewrite Hh by done; pose proof (Z.mod_pos_bound x 256); assert (0 <= x / 256 < 256) by (split; [apply Z.div_pos|apply Z.div_lt_upper_bound]; lia); lia).
  unfold wrapu, ntohs. rewrite Z.mod_small by lia. rewrite (Hh (htons x)) by done. rewrite (Hh x) by done. assert (0 <= x / 256 < 256) by (split; [apply Z.div_pos|apply Z.div_lt_upper_bound]; lia).
  rewrite !(Z.add_comm (x mod 256 * 256)), Z.mod_add, Z.div_add by lia. rewrite Z.mod_small, (Z.div_small (x / 256)) by lia. pose proof (Z.div_mod x 256). lia.
Qed.

(** A name of digits for one family. *)
Definition numeric_name (inet_pton : Z -> bytes -> option bytes) (af : Z) (host a : bytes) : Prop :=
  inet_pton af host = Some a /\ host <> [] /\
  ((af = AF_INET /\ looks_v4 host = true) \/ (af = AF_INET6 /\ looks_v6 host = true /\ inet_pton AF_INET host = None)).

Lemma numeric_one inet_pton gethostbyname gethostbyname2 fl t proto hostname af host a :
  numeric_name inet_pton af host a -> sp_one (mkHints fl af t proto) hostname inet_pton gethostbyname gethostbyname2 1 host af = inr ([(af, a)], None).
Proof.
  intros (Hp & _ & [[-> Hl]|(-> & Hl & Hn)]); unfold sp_one; rewrite Hl.
  - rewrite Hp. unfold sp_numeric. done.
  - rewrite Hn, Hp. by destruct (looks_v4 host).
Qed.

Lemma dec_isdigit n : 0 <= n -> exists c s, dec n = c :: s /\ isdigit c = true.
Proof.
  intros Hn. pose proof (dec_nonempty n) as Hne. pose proof (dec_digits n Hn) as Hd. destruct (dec n) as [|c s]; [done|]. exists c, s. split; [done|]. apply Forall_cons in Hd as [Hc _].
  unfold isdigit. by rewrite !leb_true by (unfold CH_0 in *; lia).
Qed.

(** A numeric address and a port number give one structure, and its address
    the same two strings. *)
Lemma numeric_round_trip inet_pton inet_ntop gethostbyname gethostbyname2 gethostbyaddr getservbyname getservbyport uname af t proto host a port hostlen servlen s G :
  lib_ok inet_pton gethostbyname gethostbyname2 -> wf s G -> oom s = [] ->
  numeric_name inet_pton af host a -> inet_ntop af a hostlen = Some host -> 0 <= port < 65536 ->
  t = SOCK_STREAM \/ t = SOCK_DGRAM \/ t = SOCK_RAW -> 0 < hostlen -> 6 <= servlen ->
  exists p s' n sa, getaddrinfo inet_pton gethostbyname gethostbyname2 getservbyname uname (Some host) (Some (dec port)) (Some (mkHints 0 af t proto)) s = Ok (0, p) s' /\
    p = n_ptr n /\ wf s' (cells [n] 0 ++ G) /\ snd <$> n_sa n = Some sa /\ sa = sa_of (af, a) (wrapu 16 (htons port)) /\ n_socktype n = t /\ n_protocol n = proto /\
    getnameinfo inet_ntop gethostbyaddr getservbyport sa hostlen servlen (Z.lor NI_NUMERICHOST NI_NUMERICSERV) = (0, Some host, Some (dec port)).
Proof.
  intros Hlib Hw Hoom Hnum Hntop Hport Ht Hhl Hsl. set (hs := mkHints 0 af t proto).
  assert (af = AF_INET \/ af = AF_INET6) as Haf by (destruct Hnum as (_ & _ & [[? _]|[? _]]); auto). destruct Hnum as (Hp & Hne & Hlk). destruct (dec_isdigit port ltac:(lia)) as (c & ds & Ed & Hc).
  assert (t <> 0) as Ht0 by (destruct Ht as [->|[->| ->]]; done).
  assert (is_unix (Some host) (Some (dec port)) = None) as Hu.
  { unfold is_unix. rewrite Ed. cbn [nth]. rewrite (eqb_false c 47), andb_false_r; [done|]. unfold isdigit, CH_0 in Hc. lia. }
  pose proof (getaddrinfo_run inet_pton gethostbyname gethostbyname2 getservbyname uname (Some host) (Some (dec port)) (Some hs) Hlib s G Hw Hu) as H.
  assert (sp_gai inet_pton gethostbyname gethostbyname2 getservbyname (Some host) (Some (dec port)) (Some hs) = Some (inr [port_view hs 0 (af, a) (htons port, t)])) as Hsp.
  { unfold sp_gai. change (default no_hints (Some hs)) with hs. assert (ga_echeck (Some host) (Some (dec port)) (h_flags hs) (h_family hs) (h_socktype hs) (h_protocol hs) = 0) as ->.
    { unfold ga_echeck, hs. cbn [h_flags h_family h_socktype]. rewrite Ed. destruct host; [done|]. destruct Haf as [->| ->]; destruct Ht as [->|[->| ->]]; done. }
    assert (ga_nsearch (Some host) hs = Some [(host, af)]) as -> by (unfold ga_nsearch, hs; cbn [h_family]; destruct host; [done|]; by destruct Haf as [->| ->]).
    cbn [negb Z.eqb]. change (zlen [(host, af)]) with 1. cbn [sp_search]. unfold hs at 1. rewrite numeric_one with (a := a) by done. cbn [app]. unfold sp_found. rewrite decide_False by done.
    assert (want_canon (Some host) hs = false) as Hwc by (by destruct host). change (default no_hints (Some hs)) with hs. rewrite Hwc, Ed. rewrite <- Ed.
    assert (serv_ports hs getservbyname (dec port) = [(htons port, t)]) as ->.
    { unfold serv_ports. rewrite Ed at 1. cbn [nth]. rewrite Hc. cbn [hs h_socktype]. rewrite eqb_false by done. cbn [negb]. unfold atoi. rewrite atol_dec, wraps32_small by lia. done. }
    rewrite decide_False by done. done. }
  rewrite Hsp in H. destruct H as (rc & p & s' & E & [[_ Ho]|Hrc] & H); [rewrite Hoom in Ho; by apply not_elem_of_nil in Ho|]. rewrite Hrc in *. cbn [Z.eqb] in H. destruct H as (l & vs & [= <-] & -> & Hwl & Hv).
  destruct l as [|n [|? ?]]; try done. cbn in Hv. apply (f_equal head) in Hv. cbn in Hv. apply (inj Some) in Hv. exists (n_ptr n), s', n, (sa_of (af, a) (wrapu 16 (htons port))).
  split; [done|]. split; [done|]. split; [done|]. split; [by apply (f_equal v_sa) in Hv|]. split; [done|]. split; [by apply (f_equal v_socktype) in Hv|]. split; [by apply (f_equal v_protocol) in Hv|].
  assert (zlen (dec port) <= 5) as Hdl by (apply dec_length; lia).
  assert (forall fam, inet_ntop fam a hostlen = Some host -> gn_ipv46 inet_ntop gethostbyaddr getservbyport hostlen servlen a fam (wrapu 16 (htons port)) (Z.lor NI_NUMERICHOST NI_NUMERICSERV) = (0, Some host, Some (dec port))) as Hgn.
  { intros fam Hf. unfold gn_ipv46. rewrite (ltb_true 0 hostlen) by lia. change (has_flag (Z.lor NI_NUMERICHOST NI_NUMERICSERV) NI_NUMERICHOST) with true. cbn iota. rewrite Hf. cbn iota. rewrite (ltb_true 0 servlen) by lia.
    change (has_flag (Z.lor NI_NUMERICHOST NI_NUMERICSERV) NI_NUMERICSERV) with true. cbn iota. rewrite ntohs_htons by done. rewrite fmt_d_dec by lia. unfold snprintf_s. rewrite take_ge by (unfold zlen in Hdl; lia). done. }
  unfold sa_of. cbn [fst snd]. destruct Haf as [->| ->]; cbn [getnameinfo Z.eqb AF_INET AF_INET6 Pos.eqb]; by apply Hgn.
Qed.

(** The conversions of libfree. *)
Definition pton_of (af : Z) (x : bytes) : option bytes := match inet_pton af x with Valid a => Some a | _ => None end.

(** The library with them, for a resolver with addresses of the right
    length. *)
Lemma inet_lib_ok gethostbyname gethostbyname2 :
  (forall v6 x hp, gethostbyname v6 x = inl hp -> hostent_ok hp) -> (forall x af hp, gethostbyname2 x af = inl hp -> hostent_ok hp) -> lib_ok pton_of gethostbyname gethostbyname2.
Proof.
  intros H1 H2. constructor; [|done|done]. intros af x a Haf. unfold pton_of, inet_pton, addr_ok. cbn [fst snd].
  destruct Haf as [->| ->]; cbn [Z.eqb AF_INET AF_INET6 FAM_INET FAM_INET6 Pos.eqb]; [pose proof (inet_pton4_safe x) as Hs; destruct (inet_pton4 x)|pose proof (inet_pton6_safe x) as Hs; destruct (inet_pton6 x)]; try done; destruct Hs as [Hs _]; intros [= <-]; unfold zlen; [left|right]; (split; [done|lia]).
Qed.

Lemma char_isxdigit c : addr_char c -> c <> CH_DOT -> isxdigit c || (c =? CH_COLON) = true.
Proof. unfold addr_char, isxdigit, isdigit, CH_0, CH_COLON, CH_DOT. lia. Qed.

Lemma quad_head q : address 4 q -> isdigit (nth 0 (quad q) NUL) = true /\ quad q <> [].
Proof.
  intros [Hl HF]. destruct q as [|x q]; [done|]. apply Forall_cons in HF as [Hx _]. unfold quad. cbn [nth]. destruct (dec_isdigit x) as (c & r & -> & Hc); [unfold octet in Hx; lia|]. done.
Qed.

(** The text of an address is recognised as one of its family. *)
Lemma text_numeric af a size :
  (af = AF_INET /\ address 4 a) \/ (af = AF_INET6 /\ address 16 a) -> TMPSZ <= size -> exists host, inet_ntop af a size = Some host /\ numeric_name pton_of af host a.
Proof.
  unfold TMPSZ. intros [[-> Ha]|[-> Ha]] Hs; unfold numeric_name, pton_of, inet_ntop, inet_pton; cbn [Z.eqb AF_INET AF_INET6 FAM_INET FAM_INET6 Pos.eqb].
  - destruct (ntop4_pton4 a size Ha ltac:(lia)) as [E1 E2]. destruct (quad_head a Ha) as [H1 H2]. exists (quad a). split; [done|]. rewrite E2. split; [done|]. split; [done|]. by left.
  - destruct (ntop6_text a Ha) as (s & E & Ht). pose proof (text_length _ _ Ht). rewrite E, ltb_false by lia. exists s. split; [done|]. rewrite (text_parse _ _ Ht). split; [done|]. destruct (text_head _ _ Ht) as [Hd Hne]. split; [done|]. right. split; [done|]. split.
    + unfold looks_v6. rewrite (bool_decide_eq_true_2 _ (text_colon _ _ Ht)), andb_true_r. apply char_isxdigit; [|done]. pose proof (text_chars _ _ Ht) as Hc. destruct s; [done|]. by apply Forall_cons in Hc as [? _].
    + pose proof (text_not_v4 a s) as Hn. destruct (inet_pton4 s) as [| | |b]; try done. by destruct (Hn b).
Qed.

(** C37: the string inet_ntop makes of any address of IPv4 or IPv6, and a
    port number, given to getaddrinfo with the family and a socket type,
    give one structure with this address and port, and getnameinfo makes
    the same two strings of it. *)
Theorem address_round_trip gethostbyname gethostbyname2 gethostbyaddr getservbyname getservbyport uname af t proto a port hostlen servlen s G :
  (forall v6 x hp, gethostbyname v6 x = inl hp -> hostent_ok hp) -> (forall x af hp, gethostbyname2 x af = inl hp -> hostent_ok hp) -> wf s G -> oom s = [] ->
  (af = AF_INET /\ address 4 a) \/ (af = AF_INET6 /\ address 16 a) -> 0 <= port < 65536 ->
  t = SOCK_STREAM \/ t = SOCK_DGRAM \/ t = SOCK_RAW -> TMPSZ <= hostlen -> 6 <= servlen ->
  exists host p s' n sa, inet_ntop af a hostlen = Some host /\
    getaddrinfo pton_of gethostbyname gethostbyname2 getservbyname uname (Some host) (Some (dec port)) (Some (mkHints 0 af t proto)) s = Ok (0, p) s' /\
    p = n_ptr n /\ wf s' (cells [n] 0 ++ G) /\ snd <$> n_sa n = Some sa /\ sa = sa_of (af, a) (wrapu 16 (htons port)) /\ n_socktype n = t /\
    getnameinfo inet_ntop gethostbyaddr getservbyport sa hostlen servlen (Z.lor NI_NUMERICHOST NI_NUMERICSERV) = (0, Some host, Some (dec port)).
Proof.
  intros H1 H2 Hw Ho Ha Hp Ht Hh Hs. destruct (text_numeric af a hostlen Ha Hh) as (host & E & Hn).
  destruct (numeric_round_trip pton_of inet_ntop gethostbyname gethostbyname2 gethostbyaddr getservbyname getservbyport uname af t proto host a port hostlen servlen s G (inet_lib_ok _ _ H1 H2) Hw Ho Hn E Hp Ht) as (p & s' & n & sa & H); [unfold TMPSZ in Hh; lia|done|].
  exists host, p, s', n, sa. split; [exact E|]. destruct H as (G1 & G2 & G3 & G4 & G5 & G6 & _ & G7). auto 10.
Qed.

(** ** A small network *)
Definition demo_pton (af : Z) (x : bytes) : option bytes := if (af =? AF_INET) && bool_decide (x = lit "1.2.3.4") then Some [1; 2; 3; 4] else None.
Definition demo_byname (v6 : bool) (x : bytes) : hostent + Z := inr HOST_NOT_FOUND.
Definition demo_byname2 (x : bytes) (af : Z) : hostent + Z :=
  if (af =? AF_INET) && bool_decide (x = lit "h") then inl (mkHostent (lit "h.org") AF_INET [[1; 2; 3; 4]; [5; 6; 7; 8]]) else inr HOST_NOT_FOUND.
Definition demo_serv (serv proto : bytes) : option Z := if bool_decide (serv = lit "daytime") then Some (htons 13) else None.

Definition mem0 (o : list bool) : gst := mkG ∅ 1 o [] 0 None 0.

Lemma demo_ok : lib_ok demo_pton demo_byname demo_byname2.
Proof.
  constructor.
  - intros af x a Haf. unfold demo_pton. destruct (Z.eqb_spec af AF_INET) as [->|]; [|done]. case_bool_decide; [|done]. cbn. intros [= <-]. by left.
  - done.
  - intros x af hp. unfold demo_byname2. destruct (af =? AF_INET); [|done]. case_bool_decide; [|done]. cbn. intros [= <-]. repeat constructor; by left.
Qed.

Lemma mem0_wf o : wf (mem0 o) [].
Proof. constructor; cbn; try done. Qed.

(** The example of the comment in ga_port.c: two addresses, and a service
    with TCP and UDP. *)
Lemma getaddrinfo_refines_witness :
  exists p s' l, getaddrinfo demo_pton demo_byname demo_byname2 demo_serv None (Some (lit "h")) (Some (lit "daytime")) None (mem0 []) = Ok (0, p) s' /\ p = hd_ptr l 0 /\ wf s' (cells l 0) /\
    (fun v => (v_socktype v, v_sa v)) <$> (view_of <$> l) =
      [(SOCK_STREAM, Some (Sin (htons 13) [1; 2; 3; 4])); (SOCK_DGRAM, Some (Sin (htons 13) [1; 2; 3; 4]));
       (SOCK_STREAM, Some (Sin (htons 13) [5; 6; 7; 8])); (SOCK_DGRAM, Some (Sin (htons 13) [5; 6; 7; 8]))].
Proof.
  destruct (getaddrinfo_refines demo_pton demo_byname demo_byname2 demo_serv None (Some (lit "h")) (Some (lit "daytime")) None (mem0 []) [] demo_ok (mem0_wf []) ltac:(by vm_compute)) as (rc & p & s' & E & H).
  destruct H as [[_ H]|(Hrc & l & Hp & Hw & Hv)]; [by apply not_elem_of_nil in H|]. rewrite Hrc in E. exists p, s', l. split; [exact E|]. split; [exact Hp|]. split; [by rewrite app_nil_r in Hw|]. rewrite Hv. by vm_compute.
Defined.

(** The second structure cannot be allocated. *)
Lemma getaddrinfo_frees_witness :
  exists p s', getaddrinfo demo_pton demo_byname demo_byname2 demo_serv None (Some (lit "h")) None None (mem0 [false; false; true]) = Ok (EAI_MEMORY, p) s' /\ heap s' = ∅.
Proof.
  eexists _, _. split; [by vm_compute|]. match goal with |- heap ?s' = _ => pose proof (getaddrinfo_frees demo_pton demo_byname demo_byname2 demo_serv None (Some (lit "h")) None None (mem0 [false; false; true]) EAI_MEMORY 0 s' demo_ok) as H end.
  destruct H as [H|[H _]]; [|by vm_compute|by vm_compute|exact H|by vm_compute in H]. cbn [heap mem0]. rewrite map_to_list_empty. apply mem0_wf.
Defined.

(** The loopback address of IPv6 and port 80. *)
Lemma address_round_trip_witness :
  exists host p s' n sa, inet_ntop AF_INET6 [0; 0; 0; 0; 0; 0; 0; 0; 0; 0; 0; 0; 0; 0; 0; 1] 46 = Some host /\ host = lit "::1" /\
    getaddrinfo pton_of demo_byname demo_byname2 demo_serv None (Some host) (Some (dec 80)) (Some (mkHints 0 AF_INET6 SOCK_STREAM 0)) (mem0 []) = Ok (0, p) s' /\ snd <$> n_sa n = Some sa /\ wf s' (cells [n] 0) /\
    getnameinfo inet_ntop (fun _ _ => None) (fun _ _ => None) sa 46 6 (Z.lor NI_NUMERICHOST NI_NUMERICSERV) = (0, Some host, Some (lit "80")).
Proof.
  destruct (address_round_trip demo_byname demo_byname2 (fun _ _ => None) demo_serv (fun _ _ => None) None AF_INET6 SOCK_STREAM 0 [0; 0; 0; 0; 0; 0; 0; 0; 0; 0; 0; 0; 0; 0; 0; 1] 80 46 6 (mem0 []) []) as (host & p & s' & n & sa & E & H1 & _ & H2 & H3 & _ & _ & H4).
  - exact (lib_byname _ _ _ demo_ok).
  - exact (lib_byname2 _ _ _ demo_ok).
  - apply mem0_wf.
  - done.
  - right. split; [done|]. split; [done|]. repeat constructor; done.
  - lia.
  - by left.
  - done.
  - lia.
  - exists host, p, s', n, sa. split; [exact E|]. split; [vm_compute in E; by injection E as <-|]. split; [exact H1|]. split; [exact H3|]. split; [by rewrite app_nil_r in H2|]. exact H4.
Defined.

(** ** What the code does not do *)

(** AF_LOCAL passes the check of arguments; with a host that is not the
    local one the process exits. *)
Theorem gai_local_exits : out_val (getaddrinfo demo_pton demo_byname demo_byname2 demo_serv None (Some (lit "h")) (Some (lit "daytime")) (Some (mkHints 0 AF_LOCAL 0 0)) (mem0 [])) = inr "nsearch = 0"%string.
Proof. by vm_compute. Qed.

(** The canonical name is not freed when the list cannot be built. *)
Theorem canon_leak : exists s', getaddrinfo demo_pton demo_byname demo_byname2 demo_serv None (Some (lit "h")) None (Some (mkHints AI_CANONNAME AF_UNSPEC 0 0)) (mem0 [false; true]) = Ok (EAI_MEMORY, 0) s' /\
  map_to_list (heap s') = [(1, Cstr (lit "h.org"))].
Proof. eexists. split; by vm_compute. Qed.

(** With a path that is too long the structure is not freed. *)
Theorem unix_leak : exists s', getaddrinfo demo_pton demo_byname demo_byname2 demo_serv None (Some (lit "/local")) (Some (replicate 108 47)) (Some (mkHints 0 AF_LOCAL SOCK_STREAM 0)) (mem0 []) = Ok (EAI_SERVICE, 0) s' /\ size (heap s') = 1%nat.
Proof. eexists. split; by vm_compute. Qed.

(** The internal flag is seen by the caller, and refused when it comes
    back. *)
Theorem clone_flag_returned : exists s' a, getaddrinfo demo_pton demo_byname demo_byname2 demo_serv None (Some (lit "1.2.3.4")) None None (mem0 []) = Ok (0, 1) s' /\ heap s' !! 1 = Some (Cai a) /\
  ga_echeck (Some (lit "1.2.3.4")) None (ai_flags a) (ai_family a) (ai_socktype a) (ai_protocol a) = EAI_BADFLAGS.
Proof. eexists _, _. split; [by vm_compute|]. split; by vm_compute. Qed.

(** Numbers are cut to 16 bits, and what follows them is ignored. *)
Theorem port_cut : serv_ports no_hints demo_serv (lit "65616x") = serv_ports no_hints demo_serv (lit "80").
Proof. by vm_compute. Qed.

(** Without a family any socket type is accepted. *)
Theorem socktype_unchecked : exists s' p, getaddrinfo demo_pton demo_byname demo_byname2 demo_serv None (Some (lit "1.2.3.4")) (Some (lit "80")) (Some (mkHints 0 AF_UNSPEC 99 0)) (mem0 []) = Ok (0, p) s'.
Proof. eexists _, _. by vm_compute. Qed.
