(* ===== verification/Smi.v ===== *)
(** * Messages through shared memory (Advanced_Unix_Programming/c7: smi.h,
      smi_shm.c, smsg_server_smi_a.c, smsg_client_smi_a.c)

    The server and its clients as processes over System V semaphores and
    shared memory.  Every semaphore operation and every access to a message
    is a step of its own. *)
From S2P Require Import Prelude CString.

(** ** The kernel *)

(** [smi_msg]; the header is 24 bytes. *)
Record smi_msg := mkMsg { c_id1 : Z; c_id2 : Z; smi_data : bytes }.

Definition HEADER : Z := 24.

(** The semaphores READ and WRITE of a set; the segments; the identifiers
    that were removed; the attachments of the server. *)
Record kernel := mkK { sems : gmap Z (Z * Z); nsem : Z; shms : gmap Z smi_msg; nshm : Z; removed : gset Z; att : gmap Z Z; naddr : Z }.

Definition set_sems (m : gmap Z (Z * Z)) (k : kernel) : kernel := mkK m (nsem k) (shms k) (nshm k) (removed k) (att k) (naddr k).
Definition set_shms (m : gmap Z smi_msg) (k : kernel) : kernel := mkK (sems k) (nsem k) m (nshm k) (removed k) (att k) (naddr k).

Inductive semnum := SEMI_READ | SEMI_WRITE.

(** A call either is not possible now, fails, or returns. *)
Inductive res (A : Type) := Blocked | Failed | Did (a : A).
Arguments Blocked {A}.
Arguments Failed {A}.
Arguments Did {A} a.

(** [op_semi] with SEMI_WAIT and SEMI_POST. *)
Definition semi_wait (id : Z) (n : semnum) (k : kernel) : res kernel :=
  match sems k !! id with
  | None => Failed
  | Some (r, w) =>
      match n with
      | SEMI_READ => if r <=? 0 then Blocked else Did (set_sems (<[id := (r - 1, w)]> (sems k)) k)
      | SEMI_WRITE => if w <=? 0 then Blocked else Did (set_sems (<[id := (r, w - 1)]> (sems k)) k)
      end
  end.

Definition semi_post (id : Z) (n : semnum) (k : kernel) : res kernel :=
  match sems k !! id with
  | None => Failed
  | Some (r, w) => Did (set_sems (<[id := match n with SEMI_READ => (r + 1, w) | SEMI_WRITE => (r, w + 1) end]> (sems k)) k)
  end.

(** [semget] and [shmget] of new objects. *)
Definition new_sem (k : kernel) : Z * kernel := (nsem k, mkK (<[nsem k := (0, 0)]> (sems k)) (nsem k + 1) (shms k) (nshm k) (removed k) (att k) (naddr k)).
Definition new_shm (k : kernel) : Z * kernel := (nshm k, mkK (sems k) (nsem k) (<[nshm k := mkMsg 0 0 []]> (shms k)) (nshm k + 1) (removed k) (att k) (naddr k)).

Definition init_semi (id : Z) (k : kernel) : kernel := set_sems (<[id := (0, 1)]> (sems k)) k.

(** [shmat] and [shmdt] of the server. *)
Definition shmat (id : Z) (k : kernel) : option (Z * kernel) :=
  match shms k !! id with
  | Some _ => if bool_decide (id ∈ removed k) then None else Some (naddr k, mkK (sems k) (nsem k) (shms k) (nshm k) (removed k) (<[naddr k := id]> (att k)) (naddr k + 1))
  | None => None
  end.

Definition shmdt (a : Z) (k : kernel) : option kernel :=
  match att k !! a with
  | Some _ => Some (mkK (sems k) (nsem k) (shms k) (nshm k) (removed k) (delete a (att k)) (naddr k))
  | None => None
  end.

(** [semctl] and [shmctl] with IPC_RMID. *)
Definition sem_rmid (id : Z) (k : kernel) : option kernel := match sems k !! id with Some _ => Some (set_sems (delete id (sems k)) k) | None => None end.
Definition shm_rmid (id : Z) (k : kernel) : kernel :=
  match shms k !! id with Some _ => mkK (sems k) (nsem k) (shms k) (nshm k) ({[id]} ∪ removed k) (att k) (naddr k) | None => k end.

(** ** The attached segments of the server *)
Definition MAX_ATTACHED : Z := 20.

(** A slot of [mapped]; the identifier is -1 in a free one. *)
Record slot := mkSlot { sl_shmid : Z; sl_addr : Z; sl_time : Z }.

Definition find_slot (l : list slot) (id : Z) : option (nat * slot) := list_find (fun e => sl_shmid e = id) l.

(** The slot to give up: [oldest] is an [int], -1 at first, and the times
    are [long]. *)
Fixpoint oldest_loop (l : list slot) (i : nat) (oldest : Z) (avail : option nat) : option nat :=
  match l with
  | [] => avail
  | e :: l =>
      if (oldest =? -1) || (sl_time e <? oldest) then oldest_loop l (S i) (wraps 32 (sl_time e)) (Some i)
      else oldest_loop l (S i) oldest avail
  end.

(** [getaddr]: the slots, the clock and the kernel after it; [None]: the
    call fails. *)
Definition getaddr (id : Z) (l : list slot) (clock : Z) (k : kernel) : list slot * Z * kernel * option Z :=
  let clock := clock + 1 in
  match find_slot l id with
  | Some (i, e) => (<[i := mkSlot id (sl_addr e) clock]> l, clock, k, Some (sl_addr e))
  | None =>
      let place :=
        match find_slot l (-1) with
        | Some (i, _) => Some (i, k)
        | None =>
            match oldest_loop l 0 (-1) None with
            | Some i => match l !! i with Some e => (i,.) <$> shmdt (sl_addr e) k | None => None end
            | None => None
            end
        end in
      match place with
      | None => (l, clock, k, None)
      | Some (i, k) =>
          match shmat id k with
          | Some (a, k) => (<[i := mkSlot id a clock]> l, clock, k, Some a)
          | None => (alter (fun e => mkSlot (sl_shmid e) (-1) (sl_time e)) i l, clock, k, None)
          end
      end
  end.

(** [getaddr(-1)] detaches everything. *)
Definition getaddr_end (l : list slot) (k : kernel) : list slot * kernel :=
  ((fun e => if sl_shmid e =? -1 then e else mkSlot (-1) (sl_addr e) (sl_time e)) <$> l,
   foldl (fun k e => if sl_shmid e =? -1 then k else default k (shmdt (sl_addr e) k)) k l).

(** ** Opening and closing *)

(** [SMIQ_SHM] of a client. *)
Record smiq := mkSmiq { sq_semid_server : Z; sq_semid_client : Z; sq_shmid_server : Z; sq_shmid_client : Z }.

(** The objects of a key.  [shmctl] is given the identifier of the
    semaphores. *)
Definition smi_open_server (keysem keyshm : option Z) (k : kernel) : Z * Z * kernel :=
  let k := match keysem with Some id => shm_rmid id k | None => k end in
  let '(sem, k) := match keysem with Some id => (id, k) | None => new_sem k end in
  let k := match keyshm with Some id => shm_rmid id k | None => k end in
  let '(shm, k) := new_shm k in
  (sem, shm, init_semi sem k).

Definition smi_open_client (semS shmS : Z) (k : kernel) : smiq * kernel :=
  let '(sem, k) := new_sem k in
  let '(shm, k) := new_shm k in
  (mkSmiq semS sem shmS shm, init_semi sem k).

Definition smi_close_client (q : smiq) (k : kernel) : option kernel :=
  (fun k => shm_rmid (sq_shmid_client q) k) <$> sem_rmid (sq_semid_client q) k.

Definition smi_close_server (semS shmS : Z) (l : list slot) (k : kernel) : list slot * option kernel :=
  let '(l, k) := getaddr_end l k in (l, (fun k => shm_rmid shmS k) <$> sem_rmid semS k).

(** ** The programs *)

(** [toupper] on a string. *)
Definition toupper (c : Z) : Z := if (97 <=? c) && (c <=? 122) then c - 32 else c.

(** The places of a client: [smi_open], the two steps of
    [smi_send_getaddr], [strcpy], [smi_send_release],
    [smi_receive_getaddr], [printf], [smi_receive_release], [smi_close]. *)
Inductive cpc := COpen | CGet | CIds | CFill | CRel | CRecv | CRead | CRecvRel | CClose | CDone | CFail.

#[export] Instance cpc_eq_dec : EqDecision cpc.
Proof. solve_decision. Defined.

Record client := mkClient { c_pc : cpc; c_q : smiq; c_work : list bytes; c_got : list bytes }.

(** Of the server: [smi_receive_getaddr], the steps of [smi_send_getaddr]
    (the identifiers, the semaphore, [getaddr]), the loop with [toupper],
    [smi_receive_release], [smi_send_release]. *)
Inductive spc := SRecv | SIds | SWait | SAddr | SCopy | SRelIn | SRelOut | SFail.

#[export] Instance spc_eq_dec : EqDecision spc.
Proof. solve_decision. Defined.

(** [sq_client], [msg_out], and the static variables of [getaddr]. *)
Record server := mkServer { s_pc : spc; s_client : Z * Z; s_out : Z; mapped : list slot; clock : Z }.

Record sys := mkSys { kern : kernel; srv : server; cls : gmap nat client; semS : Z; shmS : Z }.

Section programs.

(** [msgsize] as given to [smi_open]: the size of a segment. *)
Context (msgsize : Z).

(** A string is stored in a segment; behind its end is a crash. *)
Definition store_data (id : Z) (d : bytes) (k : kernel) : option kernel :=
  match shms k !! id with
  | Some m => if msgsize <? HEADER + zlen d + 1 then None else Some (set_shms (<[id := mkMsg (c_id1 m) (c_id2 m) d]> (shms k)) k)
  | None => None
  end.

Definition cstep (c : client) (k : kernel) (semS shmS : Z) : res (client * kernel) :=
  let goto pc := mkClient pc (c_q c) (c_work c) (c_got c) in
  let q := c_q c in
  let via pc (r : res kernel) := match r with Did k => Did (goto pc, k) | Blocked => Blocked | Failed => Did (goto CFail, k) end in
  let opt pc (r : option kernel) := match r with Some k => Did (goto pc, k) | None => Did (goto CFail, k) end in
  match c_pc c with
  | COpen => let '(q, k) := smi_open_client semS shmS k in Did (mkClient (match c_work c with [] => CClose | _ => CGet end) q (c_work c) (c_got c), k)
  | CGet => via CIds (semi_wait (sq_semid_server q) SEMI_WRITE k)
  | CIds => opt CFill ((fun m => set_shms (<[sq_shmid_server q := mkMsg (sq_shmid_client q) (sq_semid_client q) (smi_data m)]> (shms k)) k) <$> shms k !! sq_shmid_server q)
  | CFill => opt CRel (store_data (sq_shmid_server q) (default [] (head (c_work c))) k)
  | CRel => via CRecv (semi_post (sq_semid_server q) SEMI_READ k)
  | CRecv => via CRead (semi_wait (sq_semid_client q) SEMI_READ k)
  | CRead =>
      match shms k !! sq_shmid_client q with
      | Some m => Did (mkClient CRecvRel q (c_work c) (c_got c ++ [smi_data m]), k)
      | None => Did (goto CFail, k)
      end
  | CRecvRel =>
      match semi_post (sq_semid_client q) SEMI_WRITE k with
      | Did k => Did (mkClient (match tail (c_work c) with [] => CClose | _ => CGet end) q (tail (c_work c)) (c_got c), k)
      | Blocked => Blocked
      | Failed => Did (goto CFail, k)
      end
  | CClose => opt CDone (smi_close_client q k)
  | CDone | CFail => Blocked
  end.

Definition sstep (v : server) (k : kernel) (semS shmS : Z) : res (server * kernel) :=
  let goto pc := mkServer pc (s_client v) (s_out v) (mapped v) (clock v) in
  let via pc (r : res kernel) := match r with Did k => Did (goto pc, k) | Blocked => Blocked | Failed => Did (goto SFail, k) end in
  let opt pc (r : option kernel) := match r with Some k => Did (goto pc, k) | None => Did (goto SFail, k) end in
  match s_pc v with
  | SRecv => via SIds (semi_wait semS SEMI_READ k)
  | SIds =>
      match shms k !! shmS with
      | Some m => Did (mkServer SWait (c_id1 m, c_id2 m) (s_out v) (mapped v) (clock v), k)
      | None => Did (goto SFail, k)
      end
  | SWait => via SAddr (semi_wait (s_client v).2 SEMI_WRITE k)
  | SAddr =>
      match shms k !! shmS with
      | Some m =>
          let '(l, t, k, a) := getaddr (c_id1 m) (mapped v) (clock v) k in
          match a with
          | Some a => Did (mkServer SCopy (s_client v) a l t, k)
          | None => Did (mkServer SFail (s_client v) (s_out v) l t, k)
          end
      | None => Did (goto SFail, k)
      end
  | SCopy =>
      match shms k !! shmS, att k !! s_out v with
      | Some m, Some id => opt SRelIn (store_data id (toupper <$> smi_data m) k)
      | _, _ => Did (goto SFail, k)
      end
  | SRelIn => via SRelOut (semi_post semS SEMI_WRITE k)
  | SRelOut => via SRecv (semi_post (s_client v).2 SEMI_READ k)
  | SFail => Blocked
  end.

(** One step of the server or of a client; [None] when it is blocked. *)
Definition smi_step (who : option nat) (s : sys) : option sys :=
  match who with
  | None => match sstep (srv s) (kern s) (semS s) (shmS s) with Did (v, k) => Some (mkSys k v (cls s) (semS s) (shmS s)) | _ => None end
  | Some i =>
      match cls s !! i with
      | Some c => match cstep c (kern s) (semS s) (shmS s) with Did (c, k) => Some (mkSys k (srv s) (<[i := c]> (cls s)) (semS s) (shmS s)) | _ => None end
      | None => None
      end
  end.

(** [n] steps in any order. *)
Inductive reach (s : sys) : nat -> sys -> Prop :=
| reach_refl : reach s 0 s
| reach_step n s1 s2 who : reach s n s1 -> smi_step who s1 = Some s2 -> reach s (S n) s2.

End programs.

Definition kernel0 : kernel := mkK ∅ 0 ∅ 0 ∅ ∅ 0.

(** The server has opened its queue; the clients have work to do. *)
Definition smi_start (works : gmap nat (list bytes)) : sys :=
  let '(sem, shm, k) := smi_open_server None None kernel0 in
  mkSys k (mkServer SRecv (0, 0) 0 (replicate (Z.to_nat MAX_ATTACHED) (mkSlot (-1) 0 0)) 0) ((fun w => mkClient COpen (mkSmiq 0 0 0 0) w []) <$> works) sem shm.
