(* ===== verification/SmiThms.v ===== *)
(** * Requests and replies through shared memory

    Who owns which message, for every interleaving of the server and any
    number of clients. *)
From S2P Require Import Prelude CString Threads Smi.

Definition upper (w : bytes) : bytes := toupper <$> w.

(** ** The attached segments *)
Record slots_ok (l : list slot) (k : kernel) : Prop := mkSlotsOk {
  so_len : l <> [];
  so_att : forall i e, l !! i = Some e -> sl_shmid e <> -1 -> att k !! sl_addr e = Some (sl_shmid e);
  so_inj : forall i j e e', l !! i = Some e -> l !! j = Some e' -> sl_shmid e <> -1 -> sl_shmid e' <> -1 -> sl_addr e = sl_addr e' -> i = j;
  so_fresh : forall a, naddr k <= a -> att k !! a = None
}.

(** What [getaddr] does not touch. *)
Definition same_k (k k' : kernel) : Prop := sems k' = sems k /\ nsem k' = nsem k /\ shms k' = shms k /\ nshm k' = nshm k /\ removed k' = removed k.

(** A slot is found, and it is one of the list. *)
Lemma oldest_some l i oldest avail :
  oldest = -1 /\ l <> [] \/ avail <> None -> (forall j, avail = Some j -> (j < i)%nat) -> exists j, oldest_loop l i oldest avail = Some j /\ (j < i + length l)%nat.
Proof.
  revert i oldest avail. induction l as [|e l IH]; intros i oldest avail H Hb; cbn [oldest_loop].
  - destruct avail as [j|]; [|by destruct H as [[_ ?]|?]]. exists j. split; [done|]. specialize (Hb j eq_refl). lia.
  - destruct ((oldest =? -1) || _) eqn:E.
    + destruct (IH (S i) (wraps 32 (sl_time e)) (Some i)) as (j & Ej & Hj); [by right|intros j [= <-]; lia|]. exists j. split; [done|]. cbn. lia.
    + apply orb_false_iff in E as [E _]. apply Z.eqb_neq in E. destruct (IH (S i) oldest avail) as (j & Ej & Hj); [right; by destruct H as [[? _]|?]|intros j Hj; specialize (Hb j Hj); lia|]. exists j. split; [done|]. cbn. lia.
Qed.

(** Attaching a segment at the place [i]. *)
Lemma attach_ok l k i id t :
  (i < length l)%nat -> (forall j e, l !! j = Some e -> j <> i -> sl_shmid e <> -1 -> att k !! sl_addr e = Some (sl_shmid e)) ->
  (forall j j' e e', l !! j = Some e -> l !! j' = Some e' -> sl_shmid e <> -1 -> sl_shmid e' <> -1 -> sl_addr e = sl_addr e' -> j = j') -> (forall a, naddr k <= a -> att k !! a = None) ->
  slots_ok (<[i := mkSlot id (naddr k) t]> l) (mkK (sems k) (nsem k) (shms k) (nshm k) (removed k) (<[naddr k := id]> (att k)) (naddr k + 1)).
Proof.
  intros Hi H2 H3 H4.
  assert (forall j e, l !! j = Some e -> j <> i -> sl_shmid e <> -1 -> sl_addr e <> naddr k) as Hne.
  { intros j e Hj Hji He Ha. specialize (H2 j e Hj Hji He). rewrite H4 in H2 by lia. done. }
  constructor; cbn [att naddr].
  - intros E. apply (f_equal length) in E. rewrite length_insert in E. cbn in E. lia.
  - intros j e Hj He. apply list_lookup_insert_Some in Hj as [(-> & <- & _)|[Hij Hj]]; [cbn; by rewrite lookup_insert_eq|]. rewrite lookup_insert_ne by (intros E; by eapply (Hne j e)). by eapply H2.
  - intros j j' e e' Hj Hj' He He' Ha. apply list_lookup_insert_Some in Hj as [(-> & <- & _)|[Hij Hj]], Hj' as [(-> & <- & _)|[Hij' Hj']]; [done| | |by eapply H3].
    + exfalso. by eapply (Hne j' e').
    + exfalso. by eapply (Hne j e).
  - intros a Ha. rewrite lookup_insert_ne by lia. apply H4. lia.
Qed.

Lemma getaddr_run l t k id :
  slots_ok l k -> is_Some (shms k !! id) -> id ∉ removed k -> id <> -1 ->
  exists l' k' a, getaddr id l t k = (l', t + 1, k', Some a) /\ slots_ok l' k' /\ att k' !! a = Some id /\ same_k k k'.
Proof.
  intros [H1 H2 H3 H4] [m Hm] Hr Hid. unfold getaddr, find_slot. destruct (list_find (fun e => sl_shmid e = id) l) as [[i e]|] eqn:Ef.
  - apply list_find_Some in Ef as (Hi & He & _). eexists _, _, _. split; [done|]. assert (att k !! sl_addr e = Some id) as Ha by (rewrite <- He; apply (H2 i); [done|by rewrite He]).
    split; [|split; [done|by repeat split]]. constructor.
    + intros E. apply (f_equal length) in E. rewrite length_insert in E. by destruct l.
    + intros j e' Hj He'. apply list_lookup_insert_Some in Hj as [(-> & <- & _)|[_ Hj]]; [done|by eapply H2].
    + intros j j' e1 e2 Hj Hj' E1 E2 E3. apply list_lookup_insert_Some in Hj as [(-> & <- & _)|[_ Hj]], Hj' as [(-> & <- & _)|[_ Hj']]; [done| | |by eapply H3].
      * apply (H3 j j' e e2); try done. by rewrite He.
      * apply (H3 j j' e1 e); try done. by rewrite He.
    + done.
  - destruct (list_find (fun e => sl_shmid e = -1) l) as [[i e]|] eqn:Ef2.
    + apply list_find_Some in Ef2 as (Hi & He & _). unfold shmat. rewrite Hm, bool_decide_eq_false_2 by done. eexists _, _, _. split; [done|]. split; [|split; [cbn; by rewrite lookup_insert_eq|by repeat split]].
      apply attach_ok; [by eapply lookup_lt_Some| |done|done]. intros j e' Hj _ He'. by apply (H2 j).
    + destruct (oldest_some l 0 (-1) None) as (i & Eo & Hi); [by left|done|]. rewrite Eo. cbn in Hi. destruct (lookup_lt_is_Some_2 l i Hi) as [e He]. rewrite He.
      assert (forall j e', l !! j = Some e' -> sl_shmid e' <> -1) as Hused.
      { intros j e' Hj E. apply list_find_None in Ef2. rewrite Forall_lookup in Ef2. by apply (Ef2 j e' Hj). }
      pose proof (H2 i e He (Hused i e He)) as Ha. unfold shmdt. rewrite Ha. cbn [fmap option_fmap option_map]. unfold shmat. cbn [shms removed]. rewrite Hm, bool_decide_eq_false_2 by done.
      eexists _, _, _. split; [done|]. cbn [sems nsem nshm att naddr shms removed]. split; [|split; [by rewrite lookup_insert_eq|by repeat split]].
      pose proof (attach_ok l (mkK (sems k) (nsem k) (shms k) (nshm k) (removed k) (delete (sl_addr e) (att k)) (naddr k)) i id (t + 1) Hi) as Hat. cbn [sems nsem shms nshm removed att naddr] in Hat. apply Hat; [|exact H3|].
      * intros j e' Hj Hne _. cbn. rewrite lookup_delete_ne; [by apply (H2 j); [|eapply Hused]|]. intros E. apply Hne. symmetry. apply (H3 i j e e'); eauto.
      * intros a Ha'. cbn in *. apply lookup_delete_None. right. by apply H4.
Qed.

(** ** Who owns a message *)

(** The message of the server: free, with a client that writes, with a
    request in it, with the server. *)
Inductive owner := OFree | OCl (i : nat) | OFull (i : nat) | OSrv (i : nat).

(** What is done for a client by others. *)
Inductive role := Idle | Writing | Posted | Early | Late | Copied.

Definition role_of (o : owner) (v : option nat) (pc : spc) (j : nat) : role :=
  if bool_decide (v = Some j) then
    match pc with SIds | SWait => Early | SAddr | SCopy => Late | SRelIn | SRelOut => Copied | _ => Idle end
  else
    match o with
    | OCl i => if bool_decide (i = j) then Writing else Idle
    | OFull i => if bool_decide (i = j) then Posted else Idle
    | _ => Idle
    end.

Definition sem_of (o : owner) : Z * Z := match o with OFree => (0, 1) | OFull _ => (1, 0) | _ => (0, 0) end.

Definition word (c : client) : bytes := default [] (head (c_work c)).

(** The reply is in the message of the client. *)
Definition replied (c : client) (k : kernel) : Prop := exists m, shms k !! sq_shmid_client (c_q c) = Some m /\ smi_data m = upper (word c).

Definition cl_ok (r : role) (c : client) (k : kernel) : Prop :=
  let sem x := sems k !! sq_semid_client (c_q c) = Some x in
  match c_pc c, r with
  | COpen, Idle => True
  | CGet, Idle => c_work c <> [] /\ sem (0, 1)
  | (CIds | CFill | CRel), Writing => c_work c <> [] /\ sem (0, 1)
  | CRecv, (Posted | Early) => c_work c <> [] /\ sem (0, 1)
  | CRecv, Late => c_work c <> [] /\ sem (0, 0)
  | CRecv, Copied => c_work c <> [] /\ sem (0, 0) /\ replied c k
  | CRecv, Idle => c_work c <> [] /\ sem (1, 0) /\ replied c k
  | CRead, Idle => c_work c <> [] /\ sem (0, 0) /\ replied c k
  | CRecvRel, Idle => c_work c <> [] /\ sem (0, 0)
  | CClose, Idle => c_work c = [] /\ sem (0, 1)
  | CDone, Idle => c_work c = []
  | _, _ => False
  end.

(** The replies so far, and what is to be done. *)
Definition hist_ok (work : list bytes) (c : client) : Prop := c_got c ++ (upper <$> match c_pc c with CRecvRel => tail (c_work c) | _ => c_work c end) = upper <$> work.

(** The objects of a client that has opened its queue. *)
Record ids_ok (s : sys) (c : client) : Prop := mkIdsOk {
  id_semS : sq_semid_server (c_q c) = semS s;
  id_shmS : sq_shmid_server (c_q c) = shmS s;
  id_sem : 0 <= sq_semid_client (c_q c) < nsem (kern s) /\ sq_semid_client (c_q c) <> semS s;
  id_shm : 0 <= sq_shmid_client (c_q c) < nshm (kern s) /\ sq_shmid_client (c_q c) <> shmS s;
  id_live : is_Some (shms (kern s) !! sq_shmid_client (c_q c));
  id_there : c_pc c <> CDone -> sq_shmid_client (c_q c) ∉ removed (kern s)
}.

(** The message that is sent by a client. *)
Definition full_msg (c : client) : smi_msg := mkMsg (sq_shmid_client (c_q c)) (sq_semid_client (c_q c)) (word c).

Definition seg_ok (o : owner) (s : sys) : Prop :=
  match o with
  | OFree => is_Some (shms (kern s) !! shmS s)
  | OCl i => exists c m, cls s !! i = Some c /\ shms (kern s) !! shmS s = Some m /\
      (c_pc c = CFill -> c_id1 m = sq_shmid_client (c_q c) /\ c_id2 m = sq_semid_client (c_q c)) /\ (c_pc c = CRel -> m = full_msg c)
  | OFull i | OSrv i => exists c, cls s !! i = Some c /\ shms (kern s) !! shmS s = Some (full_msg c)
  end.

Definition srv_ok (o : owner) (v : option nat) (s : sys) : Prop :=
  let idle := forall i, o <> OSrv i in
  let ids i := exists c, cls s !! i = Some c /\ s_client (srv s) = (sq_shmid_client (c_q c), sq_semid_client (c_q c)) in
  match s_pc (srv s) with
  | SRecv => v = None /\ idle
  | SIds => exists i, v = Some i /\ o = OSrv i
  | SWait | SAddr | SRelIn => exists i, v = Some i /\ o = OSrv i /\ ids i
  | SCopy => exists i, v = Some i /\ o = OSrv i /\ ids i /\ exists c, cls s !! i = Some c /\ att (kern s) !! s_out (srv s) = Some (sq_shmid_client (c_q c))
  | SRelOut => exists i, v = Some i /\ idle /\ ids i
  | SFail => False
  end.

Definition opened (c : client) : Prop := c_pc c <> COpen.

Record inv (works : gmap nat (list bytes)) (s : sys) (o : owner) (v : option nat) : Prop := mkInv {
  inv_sem : sems (kern s) !! semS s = Some (sem_of o);
  inv_S : 0 <= semS s < nsem (kern s) /\ 0 <= shmS s < nshm (kern s);
  inv_seg : seg_ok o s;
  inv_srv : srv_ok o v s;
  inv_slots : slots_ok (mapped (srv s)) (kern s);
  inv_new : (forall id, nsem (kern s) <= id -> sems (kern s) !! id = None) /\ (forall id, nshm (kern s) <= id -> shms (kern s) !! id = None /\ id ∉ removed (kern s));
  inv_cl : forall i c, cls s !! i = Some c -> cl_ok (role_of o v (s_pc (srv s)) i) c (kern s);
  inv_ids : forall i c, cls s !! i = Some c -> opened c -> ids_ok s c;
  inv_inj : forall i j c d, cls s !! i = Some c -> cls s !! j = Some d -> opened c -> opened d ->
    sq_semid_client (c_q c) = sq_semid_client (c_q d) \/ sq_shmid_client (c_q c) = sq_shmid_client (c_q d) -> i = j;
  inv_hist : forall i c, cls s !! i = Some c -> exists work, works !! i = Some work /\ hist_ok work c;
  inv_dom : forall i, is_Some (works !! i) -> is_Some (cls s !! i);
  inv_vo : forall i, v = Some i -> o <> OCl i /\ o <> OFull i
}.

Lemma cl_ok_frame r c k k' :
  cl_ok r c k -> sems k' !! sq_semid_client (c_q c) = sems k !! sq_semid_client (c_q c) -> shms k' !! sq_shmid_client (c_q c) = shms k !! sq_shmid_client (c_q c) -> cl_ok r c k'.
Proof. unfold cl_ok, replied. intros H E1 E2. destruct (c_pc c), r; rewrite ?E1, ?E2; done. Qed.

(** A step that concerns the client [i] and the server. *)
Lemma inv_update works s o v i c c' k' srv' o' v' :
  let s' := mkSys k' srv' (<[i := c']> (cls s)) (semS s) (shmS s) in
  inv works s o v -> cls s !! i = Some c -> opened c -> c_q c' = c_q c -> opened c' -> c_pc c' <> CDone -> c_pc c <> CDone ->
  (forall id, id <> semS s -> id <> sq_semid_client (c_q c) -> sems k' !! id = sems (kern s) !! id) ->
  (forall id, id <> shmS s -> id <> sq_shmid_client (c_q c) -> shms k' !! id = shms (kern s) !! id) ->
  (forall id, is_Some (shms (kern s) !! id) <-> is_Some (shms k' !! id)) ->
  nsem k' = nsem (kern s) -> nshm k' = nshm (kern s) -> removed k' = removed (kern s) ->
  slots_ok (mapped srv') k' -> sems k' !! semS s = Some (sem_of o') -> seg_ok o' s' -> srv_ok o' v' s' -> (forall j, v' = Some j -> o' <> OCl j /\ o' <> OFull j) ->
  (forall j, j <> i -> role_of o' v' (s_pc srv') j = role_of o v (s_pc (srv s)) j) ->
  cl_ok (role_of o' v' (s_pc srv') i) c' k' -> (forall work, hist_ok work c -> hist_ok work c') ->
  inv works s' o' v'.
Proof.
  intros s' [I1 I2 I3 I4 I5 [I6 I6'] I7 I8 I9 I10 I11 I12] Hi Hop Hq Hop' Hnd Hndc Hsem Hshm Hlive Hns Hnh Hrm Hsl Hs Hseg Hsrv Hvo Hrole Hcl Hhist.
  pose proof (I8 i c Hi Hop) as [D1 D2 D3 D4 D5 D6].
  assert (forall j d, cls s !! j = Some d -> opened d -> j <> i -> sems k' !! sq_semid_client (c_q d) = sems (kern s) !! sq_semid_client (c_q d) /\ shms k' !! sq_shmid_client (c_q d) = shms (kern s) !! sq_shmid_client (c_q d)) as Hother.
  { intros j d Hj Hd Hne. pose proof (I8 j d Hj Hd) as [E1 E2 E3 E4 E5 E6]. split.
    - apply Hsem; [apply E3|]. intros E. apply Hne. apply (I9 j i d c); auto.
    - apply Hshm; [apply E4|]. intros E. apply Hne. apply (I9 j i d c); auto. }
  constructor; cbn [kern srv cls semS shmS s']; try done.
  - by rewrite Hns, Hnh.
  - split; rewrite ?Hns, ?Hnh, ?Hrm.
    + intros id Hid. rewrite Hsem by lia. by apply I6.
    + intros id Hid. split; [|by apply I6']. apply eq_None_not_Some. intros H. apply Hlive in H. rewrite (proj1 (I6' id Hid)) in H. by destruct H.
  - intros j d Hj. destruct (decide (j = i)) as [->|Hne]; [rewrite lookup_insert_eq in Hj; by injection Hj as <-|]. rewrite lookup_insert_ne in Hj by done. rewrite Hrole by done.
    destruct (decide (c_pc d = COpen)) as [Eo|Eo]; [specialize (I7 j d Hj); unfold cl_ok in *; by rewrite Eo in *|]. destruct (Hother j d Hj Eo Hne). eapply cl_ok_frame; [by apply I7|done|done].
  - intros j d Hj Hd. destruct (decide (j = i)) as [->|Hne].
    + rewrite lookup_insert_eq in Hj. injection Hj as <-. constructor; cbn [kern semS shmS s']; rewrite ?Hq, ?Hns, ?Hnh, ?Hrm; auto. by apply Hlive.
    + rewrite lookup_insert_ne in Hj by done. pose proof (I8 j d Hj Hd) as [E1 E2 E3 E4 E5 E6]. constructor; cbn [kern semS shmS s']; rewrite ?Hns, ?Hnh, ?Hrm; auto. by apply Hlive.
  - intros j1 j2 d1 d2 Hj1 Hj2 Hd1 Hd2 E. destruct (decide (j1 = i)) as [->|N1], (decide (j2 = i)) as [->|N2]; [done|..].
    + rewrite lookup_insert_eq in Hj1. rewrite lookup_insert_ne in Hj2 by done. injection Hj1 as <-. rewrite Hq in E. by apply (I9 i j2 c d2).
    + rewrite lookup_insert_eq in Hj2. rewrite lookup_insert_ne in Hj1 by done. injection Hj2 as <-. rewrite Hq in E. by apply (I9 j1 i d1 c).
    + rewrite lookup_insert_ne in Hj1, Hj2 by done. by apply (I9 j1 j2 d1 d2).
  - intros j d Hj. destruct (decide (j = i)) as [->|Hne].
    + rewrite lookup_insert_eq in Hj. injection Hj as <-. destruct (I10 i c Hi) as (w & Hw & Hh). exists w. auto.
    + rewrite lookup_insert_ne in Hj by done. by apply I10.
  - intros j Hj. destruct (decide (j = i)) as [->|Hne]; [rewrite lookup_insert_eq; by eexists|]. rewrite lookup_insert_ne by done. by apply I11.
Qed.

(** ** What stays as it is *)
Ltac dex := repeat match goal with H : exists _, _ |- _ => destruct H | H : _ /\ _ |- _ => destruct H end.

Lemma role_idle o v s i : srv_ok o v s -> role_of o v (s_pc (srv s)) i = Idle -> v <> Some i /\ o <> OCl i /\ o <> OFull i /\ o <> OSrv i.
Proof.
  intros Hs Hr. unfold srv_ok in Hs. assert (v <> Some i) as Hv.
  { intros ->. unfold role_of in Hr. rewrite bool_decide_eq_true_2 in Hr by done. destruct (s_pc (srv s)); try done. by destruct Hs. }
  assert (o <> OSrv i) as Ho by (intros ->; destruct (s_pc (srv s)); dex; simplify_eq; naive_solver).
  split; [done|]. unfold role_of in Hr. rewrite bool_decide_eq_false_2 in Hr by done. split_and!; try done; intros ->; by rewrite bool_decide_eq_true_2 in Hr.
Qed.

Lemma role_writing o v pc i : role_of o v pc i = Writing -> o = OCl i /\ v <> Some i.
Proof. unfold role_of. case_bool_decide; [by destruct pc|]. destruct o; try done; case_bool_decide; by simplify_eq. Qed.

Lemma role_none o v pc j : v <> Some j -> o <> OCl j -> o <> OFull j -> role_of o v pc j = Idle.
Proof. intros. unfold role_of. rewrite bool_decide_eq_false_2 by done. destruct o; try done; rewrite bool_decide_eq_false_2; congruence. Qed.

Lemma role_cl v pc i : v <> Some i -> role_of (OCl i) v pc i = Writing.
Proof. intros. unfold role_of. by rewrite bool_decide_eq_false_2, bool_decide_eq_true_2. Qed.

Lemma role_full v pc i : v <> Some i -> role_of (OFull i) v pc i = Posted.
Proof. intros. unfold role_of. by rewrite bool_decide_eq_false_2, bool_decide_eq_true_2. Qed.

(** Roles of the others when the owner changes from or to [i]. *)
Definition about (i : nat) (o : owner) : Prop := match o with OFree => True | OCl j | OFull j | OSrv j => j = i end.

Lemma role_other o o' v v' pc pc' i j : j <> i -> (o' = o \/ (about i o /\ about i o')) -> (v' = v /\ pc' = pc \/ ((v = None \/ v = Some i) /\ (v' = None \/ v' = Some i))) -> role_of o' v' pc' j = role_of o v pc j.
Proof.
  intros Hj Ho Hv. unfold role_of. assert (bool_decide (v' = Some j) = bool_decide (v = Some j)) as -> by (apply bool_decide_ext; naive_solver).
  case_bool_decide as Hd; [by destruct Hv as [[-> ->]|[[?|?] _]]; simplify_eq|]. destruct Ho as [->|[H1 H2]]; [done|]. destruct o, o'; cbn in *; simplify_eq; try done; rewrite ?bool_decide_eq_false_2 by congruence; done.
Qed.

Lemma seg_frame s s' o i c c' :
  seg_ok o s -> cls s !! i = Some c -> cls s' = <[i := c']> (cls s) -> shmS s' = shmS s -> shms (kern s') !! shmS s = shms (kern s) !! shmS s ->
  c_q c' = c_q c -> o <> OCl i -> (o = OFull i \/ o = OSrv i -> c_work c' = c_work c) -> seg_ok o s'.
Proof.
  intros Hs Hi Hc Hsh Hm Hq Hne Hw. unfold seg_ok in *. rewrite Hc, Hsh, Hm. destruct o as [|j|j|j]; [done|..].
  - destruct Hs as (d & m & Hj & Hs). exists d, m. rewrite lookup_insert_ne by congruence. done.
  - destruct Hs as (d & Hj & Hs). destruct (decide (i = j)) as [->|]; [|exists d; by rewrite lookup_insert_ne]. simplify_eq. exists c'. rewrite lookup_insert_eq. split; [done|]. rewrite Hs. unfold full_msg, word. by rewrite Hq, Hw by auto.
  - destruct Hs as (d & Hj & Hs). destruct (decide (i = j)) as [->|]; [|exists d; by rewrite lookup_insert_ne]. simplify_eq. exists c'. rewrite lookup_insert_eq. split; [done|]. rewrite Hs. unfold full_msg, word. by rewrite Hq, Hw by auto.
Qed.

Lemma srv_frame s s' o o' v i c c' :
  srv_ok o v s -> cls s !! i = Some c -> cls s' = <[i := c']> (cls s) -> srv s' = srv s -> att (kern s') = att (kern s) -> c_q c' = c_q c -> (forall j, o = OSrv j <-> o' = OSrv j) -> srv_ok o' v s'.
Proof.
  intros Hs Hi Hc Hv Ha Hq Ho. unfold srv_ok in *. rewrite Hc, Hv, Ha.
  assert (forall j (P : client -> Prop), (forall d d', c_q d' = c_q d -> P d -> P d') -> (exists d, cls s !! j = Some d /\ P d) -> exists d, <[i := c']> (cls s) !! j = Some d /\ P d) as Hex.
  { intros j P HP (d & Hd & Hp). destruct (decide (i = j)) as [->|]; [|exists d; by rewrite lookup_insert_ne]. exists c'. rewrite lookup_insert_eq. split; [done|]. simplify_eq. by apply (HP c). }
  assert ((forall j, o <> OSrv j) -> forall j, o' <> OSrv j) as Hidle by (intros H j E; by apply (H j), Ho).
  destruct (s_pc (srv s)); dex; try done.
  - split; [done|]. by apply Hidle.
  - eexists. split; [done|]. by apply Ho.
  - eexists. split; [done|]. split; [by apply Ho|]. apply Hex; [|naive_solver]. intros d d' -> H'. done.
  - eexists. split; [done|]. split; [by apply Ho|]. apply Hex; [|naive_solver]. intros d d' -> H'. done.
  - eexists. split; [done|]. split; [by apply Ho|]. split; (apply Hex; [|naive_solver]); intros d d' -> H'; done.
  - eexists. split; [done|]. split; [by apply Ho|]. apply Hex; [|naive_solver]. intros d d' -> H'. done.
  - eexists. split; [done|]. split; [by apply Hidle|]. apply Hex; [|naive_solver]. intros d d' -> H'. done.
Qed.

Lemma slots_same l k k' : slots_ok l k -> att k' = att k -> naddr k' = naddr k -> slots_ok l k'.
Proof. intros [H1 H2 H3 H4] E1 E2. constructor; rewrite ?E1, ?E2; done. Qed.

(** An operation on a semaphore of the server or of the client. *)
Lemma inv_sems works s o v i c c' x y srv' o' v' :
  let k' := set_sems (<[x := y]> (sems (kern s))) (kern s) in
  let s' := mkSys k' srv' (<[i := c']> (cls s)) (semS s) (shmS s) in
  inv works s o v -> cls s !! i = Some c -> opened c -> c_q c' = c_q c -> opened c' -> c_pc c' <> CDone -> c_pc c <> CDone ->
  x = semS s \/ x = sq_semid_client (c_q c) -> mapped srv' = mapped (srv s) ->
  sems k' !! semS s = Some (sem_of o') -> seg_ok o' s' -> srv_ok o' v' s' -> (forall j, v' = Some j -> o' <> OCl j /\ o' <> OFull j) ->
  (forall j, j <> i -> role_of o' v' (s_pc srv') j = role_of o v (s_pc (srv s)) j) ->
  cl_ok (role_of o' v' (s_pc srv') i) c' k' -> (forall work, hist_ok work c -> hist_ok work c') ->
  inv works s' o' v'.
Proof.
  intros k' s' Hinv Hi Hop Hq Hop' Hn Hn' Hx Hm Hs Hseg Hsrv Hvo Hrole Hcl Hh. eapply inv_update; try done.
  - intros id H1 H2. cbn. rewrite lookup_insert_ne; [done|]. naive_solver.
  - rewrite Hm. eapply slots_same; [apply Hinv|done|done].
Qed.

(** A message of the server or of the client is written. *)
Lemma inv_shms works s o v i c c' x m srv' o' v' :
  let k' := set_shms (<[x := m]> (shms (kern s))) (kern s) in
  let s' := mkSys k' srv' (<[i := c']> (cls s)) (semS s) (shmS s) in
  inv works s o v -> cls s !! i = Some c -> opened c -> c_q c' = c_q c -> opened c' -> c_pc c' <> CDone -> c_pc c <> CDone ->
  x = shmS s \/ x = sq_shmid_client (c_q c) -> is_Some (shms (kern s) !! x) -> mapped srv' = mapped (srv s) ->
  sem_of o' = sem_of o -> seg_ok o' s' -> srv_ok o' v' s' -> (forall j, v' = Some j -> o' <> OCl j /\ o' <> OFull j) ->
  (forall j, j <> i -> role_of o' v' (s_pc srv') j = role_of o v (s_pc (srv s)) j) ->
  cl_ok (role_of o' v' (s_pc srv') i) c' k' -> (forall work, hist_ok work c -> hist_ok work c') ->
  inv works s' o' v'.
Proof.
  intros k' s' Hinv Hi Hop Hq Hop' Hn Hn' Hx Hm Hma Hs Hseg Hsrv Hvo Hrole Hcl Hh. eapply inv_update; try done.
  - intros id H1 H2. cbn. rewrite lookup_insert_ne; [done|]. naive_solver.
  - intros id. cbn. destruct (decide (id = x)) as [->|]; [rewrite lookup_insert_eq; naive_solver|by rewrite lookup_insert_ne].
  - rewrite Hma. eapply slots_same; [apply Hinv|done|done].
  - rewrite Hs. apply Hinv.
Qed.

Lemma upper_length w : zlen (upper w) = zlen w.
Proof. unfold upper, zlen. by rewrite length_fmap. Qed.

Section steps.
Context (msgsize : Z) (works : gmap nat (list bytes)).

Hypothesis fits : forall i work, works !! i = Some work -> Forall (fun w => HEADER + zlen w + 1 <= msgsize) work.

Lemma word_fits s o v i c : inv works s o v -> cls s !! i = Some c -> c_work c <> [] -> c_pc c <> CRecvRel -> HEADER + zlen (word c) + 1 <= msgsize.
Proof.
  intros Hinv Hi Hw Hp. destruct (inv_hist _ _ _ _ Hinv i c Hi) as (work & Hwork & Hh). unfold word. destruct (c_work c) as [|w l] eqn:Ew; [done|]. cbn.
  assert (upper w ∈ upper <$> work) as Hin. { unfold hist_ok in Hh. rewrite <- Hh. apply elem_of_app. right. rewrite Ew. destruct (c_pc c); try done; rewrite fmap_cons; by left. }
  apply list_elem_of_fmap in Hin as (w' & E & Hin). apply (f_equal zlen) in E. rewrite !upper_length in E. rewrite E. pose proof (fits i work Hwork) as HF. rewrite Forall_forall in HF. by apply HF.
Qed.

(** ** The steps of a client *)
Ltac setup_as Hc :=
  intros Hinv Hi Epc Hst; cbn in Hst; rewrite Hi in Hst; unfold cstep in Hst; rewrite Epc in Hst;
  lazymatch goal with Hi : cls ?s !! ?i = Some ?c |- _ =>
    pose proof (inv_cl _ _ _ _ Hinv i c Hi) as Hc; pose proof (inv_srv _ _ _ _ Hinv) as Hsrv; pose proof (inv_seg _ _ _ _ Hinv) as Hseg;
    assert (opened c) as Hop by (unfold opened; by rewrite Epc); pose proof (inv_ids _ _ _ _ Hinv i c Hi Hop) as [D1 D2 D3 D4 D5 D6]
  end;
  unfold cl_ok in Hc; rewrite Epc in Hc;
  lazymatch goal with _ : context [role_of ?o ?v ?pc ?i] |- _ => destruct (role_of o v pc i) eqn:Er; try done end.

Lemma step_get i s s' o v c : inv works s o v -> cls s !! i = Some c -> c_pc c = CGet -> smi_step msgsize (Some i) s = Some s' -> exists o', inv works s' o' v.
Proof.
  setup_as Hc. destruct Hc as [Hw Hsem]. destruct (role_idle o v s i Hsrv Er) as (Hv & O1 & O2 & O3). rewrite D1 in Hst. unfold semi_wait in Hst. rewrite (inv_sem _ _ _ _ Hinv) in Hst. destruct o as [|j|j|j]; cbn in Hst; try done. injection Hst as <-.
  exists (OCl i). eapply inv_sems; try done; rewrite ?Epc; try done; try by left.
  - cbn. by rewrite lookup_insert_eq.
  - destruct Hseg as [m Hm]. eexists _, m. cbn. rewrite lookup_insert_eq. split; [done|]. split; [done|]. by split.
  - eapply (srv_frame s); try done; naive_solver.
  - intros j ->. split; congruence.
  - intros j Hj. apply (role_other _ _ _ _ _ _ i); [done|by right|by left].
  - rewrite role_cl by done. unfold cl_ok. cbn. split; [done|]. rewrite lookup_insert_ne by (intros E; by apply D3). done.
  - intros work. unfold hist_ok. cbn. by rewrite Epc.
Qed.

Lemma step_ids i s s' o v c : inv works s o v -> cls s !! i = Some c -> c_pc c = CIds -> smi_step msgsize (Some i) s = Some s' -> exists o', inv works s' o' v.
Proof.
  setup_as Hc. destruct Hc as [Hw Hsem]. apply role_writing in Er as [-> Hv]. destruct Hseg as (d & m & Hd & Hm & _ & _). simplify_eq. rewrite D2, Hm in Hst. cbn in Hst. injection Hst as <-.
  exists (OCl i). eapply inv_shms; try done; rewrite ?Epc; try done; try (by left); try exact (inv_vo _ _ _ _ Hinv).
  - eexists _, _. cbn. rewrite !lookup_insert_eq. split; [done|]. split; [done|]. by split.
  - eapply (srv_frame s); try done; naive_solver.
  - rewrite role_cl by done. unfold cl_ok. by cbn.
  - intros work. unfold hist_ok. cbn. by rewrite Epc.
Qed.

Lemma step_fill i s s' o v c : inv works s o v -> cls s !! i = Some c -> c_pc c = CFill -> smi_step msgsize (Some i) s = Some s' -> exists o', inv works s' o' v.
Proof.
  setup_as Hc. destruct Hc as [Hw Hsem]. apply role_writing in Er as [-> Hv]. destruct Hseg as (d & m & Hd & Hm & Hids & _). simplify_eq. destruct (Hids Epc) as [I1 I2].
  unfold store_data in Hst. rewrite D2, Hm in Hst. pose proof (word_fits s _ v i c Hinv Hi Hw ltac:(by rewrite Epc)) as Hf. fold (word c) in Hst. rewrite ltb_false in Hst by done. injection Hst as <-.
  exists (OCl i). eapply inv_shms; try done; rewrite ?Epc; try done; try (by left); try exact (inv_vo _ _ _ _ Hinv).
  - eexists _, _. cbn. rewrite !lookup_insert_eq. split; [done|]. split; [done|]. split; [done|]. intros _. unfold full_msg. cbn. by rewrite I1, I2.
  - eapply (srv_frame s); try done; naive_solver.
  - rewrite role_cl by done. unfold cl_ok. by cbn.
  - intros work. unfold hist_ok. cbn. by rewrite Epc.
Qed.

Lemma step_rel i s s' o v c : inv works s o v -> cls s !! i = Some c -> c_pc c = CRel -> smi_step msgsize (Some i) s = Some s' -> exists o', inv works s' o' v.
Proof.
  setup_as Hc. destruct Hc as [Hw Hsem]. apply role_writing in Er as [-> Hv]. destruct Hseg as (d & m & Hd & Hm & _ & Hfull). simplify_eq. specialize (Hfull Epc).
  rewrite D1 in Hst. unfold semi_post in Hst. rewrite (inv_sem _ _ _ _ Hinv) in Hst. cbn in Hst. injection Hst as <-.
  exists (OFull i). eapply inv_sems; try done; rewrite ?Epc; try done; try by left.
  - cbn. by rewrite lookup_insert_eq.
  - eexists. cbn. rewrite lookup_insert_eq. split; [done|]. rewrite Hm, Hfull. done.
  - eapply (srv_frame s); try done; naive_solver.
  - intros j ->. split; congruence.
  - intros j Hj. apply (role_other _ _ _ _ _ _ i); [done|by right|by left].
  - rewrite role_full by done. unfold cl_ok. cbn. split; [done|]. rewrite lookup_insert_ne by (intros E; by apply D3). done.
  - intros work. unfold hist_ok. cbn. by rewrite Epc.
Qed.

Lemma step_recv i s s' o v c : inv works s o v -> cls s !! i = Some c -> c_pc c = CRecv -> smi_step msgsize (Some i) s = Some s' -> exists o', inv works s' o' v.
Proof.
  setup_as Hc; unfold semi_wait in Hst; destruct Hc as [Hw Hc]; [|by rewrite ?Hc in Hst|by rewrite ?Hc in Hst|by rewrite ?Hc in Hst|by rewrite (proj1 Hc) in Hst].
  destruct Hc as [Hsem Hrep]. rewrite Hsem in Hst. cbn in Hst. injection Hst as <-. destruct (role_idle o v s i Hsrv Er) as (Hv & O1 & O2 & O3).
  exists o. eapply inv_sems; try done; rewrite ?Epc; try done; try (by right); try exact (inv_vo _ _ _ _ Hinv).
  - cbn. rewrite lookup_insert_ne by (by apply not_eq_sym, D3 || (intros E; by apply D3)). apply Hinv.
  - eapply (seg_frame s); try done.
  - eapply (srv_frame s); try done.
  - unfold set_sems. cbn. rewrite Er. unfold cl_ok. cbn. rewrite lookup_insert_eq. done.
  - intros work. unfold hist_ok. cbn. by rewrite Epc.
Qed.

Lemma step_read i s s' o v c : inv works s o v -> cls s !! i = Some c -> c_pc c = CRead -> smi_step msgsize (Some i) s = Some s' -> exists o', inv works s' o' v.
Proof.
  setup_as Hc. destruct Hc as (Hw & Hsem & m & Hm & Hd). rewrite Hm in Hst. injection Hst as <-. destruct (role_idle o v s i Hsrv Er) as (Hv & O1 & O2 & O3).
  exists o. eapply inv_update; try done; rewrite ?Epc; try done; try exact (inv_slots _ _ _ _ Hinv); try exact (inv_sem _ _ _ _ Hinv); try exact (inv_vo _ _ _ _ Hinv).
  - eapply (seg_frame s); try done.
  - eapply (srv_frame s); try done.
  - rewrite Er. unfold cl_ok. by cbn.
  - intros work. unfold hist_ok. cbn. rewrite Epc, Hd. unfold word. destruct (c_work c) as [|w l]; [done|]. cbn. by rewrite <- app_assoc.
Qed.

Lemma step_recvrel i s s' o v c : inv works s o v -> cls s !! i = Some c -> c_pc c = CRecvRel -> smi_step msgsize (Some i) s = Some s' -> exists o', inv works s' o' v.
Proof.
  setup_as Hc. destruct Hc as [Hw Hsem]. unfold semi_post in Hst. rewrite Hsem in Hst. injection Hst as <-. destruct (role_idle o v s i Hsrv Er) as (Hv & O1 & O2 & O3).
  exists o. eapply inv_sems; try done; rewrite ?Epc; try done; try (by right); try exact (inv_vo _ _ _ _ Hinv).
  - unfold opened. cbn. by destruct (tail (c_work c)).
  - cbn. by destruct (tail (c_work c)).
  - cbn. rewrite lookup_insert_ne by (intros E; by apply D3). apply Hinv.
  - eapply (seg_frame s); try done. intros [->| ->]; done.
  - eapply (srv_frame s); try done.
  - rewrite Er. unfold cl_ok. cbn. rewrite lookup_insert_eq. by destruct (tail (c_work c)).
  - intros work. unfold hist_ok. cbn. rewrite Epc. by destruct (tail (c_work c)).
Qed.

(** A state with more objects, or with fewer semaphores. *)
Lemma step_close i s s' o v c : inv works s o v -> cls s !! i = Some c -> c_pc c = CClose -> smi_step msgsize (Some i) s = Some s' -> exists o', inv works s' o' v.
Proof.
  setup_as Hc. destruct Hc as [Hw Hsem]. unfold smi_close_client, sem_rmid in Hst. rewrite Hsem in Hst. cbn in Hst. unfold shm_rmid in Hst. cbn [shms set_sems] in Hst. destruct D5 as [m0 Hm0]. rewrite Hm0 in Hst. injection Hst as <-. destruct (role_idle o v s i Hsrv Er) as (Hv & O1 & O2 & O3).
  exists o. pose proof Hinv as [I1 I2 I3 I4 I5 [I6 I6'] I7 I8 I9 I10 I11 I12].
  assert (forall j d, cls s !! j = Some d -> opened d -> j <> i -> sq_semid_client (c_q d) <> sq_semid_client (c_q c) /\ sq_shmid_client (c_q d) <> sq_shmid_client (c_q c)) as Hne.
  { intros j d Hj Hd Hji. split; intros E; apply Hji, (I9 j i d c); auto. }
  constructor; cbn [kern srv cls semS shmS sems nsem shms nshm removed set_sems]; try done.
  - rewrite lookup_delete_ne by (intros E; by apply D3). done.
  - eapply (seg_frame s); try done; intros [->| ->]; done.
  - eapply (srv_frame s); try done.
  - eapply slots_same; [exact I5|done|done].
  - split; [intros id Hid; apply lookup_delete_None; right; by apply I6|]. intros id Hid. destruct (I6' id Hid) as [H1 H2]. split; [done|]. apply not_elem_of_union. split; [|done]. rewrite elem_of_singleton. lia.
  - intros j d Hj. destruct (decide (j = i)) as [->|Hji]; [rewrite lookup_insert_eq in Hj; injection Hj as <-; rewrite Er; unfold cl_ok; by cbn|]. rewrite lookup_insert_ne in Hj by done. specialize (I7 j d Hj).
    destruct (decide (c_pc d = COpen)) as [Eo|Eo]; [unfold cl_ok in *; by rewrite Eo in *|]. destruct (Hne j d Hj Eo Hji). eapply cl_ok_frame; [exact I7| |done]. cbn. by rewrite lookup_delete_ne.
  - intros j d Hj Hd. destruct (decide (j = i)) as [->|Hji].
    + rewrite lookup_insert_eq in Hj. injection Hj as <-. constructor; cbn; done || by eexists.
    + rewrite lookup_insert_ne in Hj by done. pose proof (I8 j d Hj Hd) as [E1 E2 E3 E4 E5 E6]. constructor; cbn; try done. intros Hp. apply not_elem_of_union. split; [|by apply E6]. rewrite elem_of_singleton. by destruct (Hne j d Hj Hd Hji).
  - intros j1 j2 d1 d2 Hj1 Hj2 Hd1 Hd2 E. destruct (decide (j1 = i)) as [->|N1], (decide (j2 = i)) as [->|N2]; [done|..].
    + rewrite lookup_insert_eq in Hj1. rewrite lookup_insert_ne in Hj2 by done. injection Hj1 as <-. by apply (I9 i j2 c d2).
    + rewrite lookup_insert_eq in Hj2. rewrite lookup_insert_ne in Hj1 by done. injection Hj2 as <-. by apply (I9 j1 i d1 c).
    + rewrite lookup_insert_ne in Hj1, Hj2 by done. by apply (I9 j1 j2 d1 d2).
  - intros j d Hj. destruct (decide (j = i)) as [->|Hji]; [|rewrite lookup_insert_ne in Hj by done; by apply I10]. rewrite lookup_insert_eq in Hj. injection Hj as <-. destruct (I10 i c Hi) as (w & Hw' & Hh). exists w. split; [done|]. unfold hist_ok in *. by rewrite Epc in Hh.
  - intros j Hj. destruct (decide (j = i)) as [->|Hji]; [rewrite lookup_insert_eq; by eexists|]. rewrite lookup_insert_ne by done. by apply I11.
Qed.

Lemma step_open i s s' o v c : inv works s o v -> cls s !! i = Some c -> c_pc c = COpen -> smi_step msgsize (Some i) s = Some s' -> exists o', inv works s' o' v.
Proof.
  intros Hinv Hi Epc Hst. cbn in Hst. rewrite Hi in Hst. unfold cstep in Hst. rewrite Epc in Hst. cbn in Hst. injection Hst as <-. pose proof Hinv as [I1 I2 I3 I4 I5 [I6 I6'] I7 I8 I9 I10 I11 I12].
  pose proof (I7 i c Hi) as Hc. unfold cl_ok in Hc. rewrite Epc in Hc. destruct (role_of o v (s_pc (srv s)) i) eqn:Er; try done. destruct (role_idle o v s i I4 Er) as (Hv & O1 & O2 & O3). exists o.
  set (c' := mkClient _ _ _ _).
  assert (forall j (P : client -> Prop), (exists d, cls s !! j = Some d /\ P d) -> j <> i -> exists d, <[i := c']> (cls s) !! j = Some d /\ P d) as Hex by (intros j P (d & Hd & Hp) Hji; exists d; by rewrite lookup_insert_ne).
  assert (forall j, o = OCl j \/ o = OFull j \/ o = OSrv j \/ v = Some j -> j <> i) as Hinvol by (intros j Hj ->; naive_solver).
  constructor; unfold init_semi, set_sems; cbn [kern srv cls semS shmS sems nsem shms nshm removed att naddr].
  - rewrite !lookup_insert_ne by lia. done.
  - lia.
  - unfold seg_ok in *. cbn [kern cls shmS shms]. rewrite lookup_insert_ne by lia. destruct o as [|j|j|j]; [done|..].
    + destruct I3 as (d & m & Hd & Hm). exists d, m. rewrite lookup_insert_ne by (apply not_eq_sym, Hinvol; auto). done.
    + apply Hex; [done|apply Hinvol; auto].
    + apply Hex; [done|apply Hinvol; auto].
  - unfold srv_ok in *. cbn [srv cls kern att]. destruct (s_pc (srv s)); try done.
    + destruct I4 as (j & Hj & Ho & Hids). exists j. split_and!; try done. apply Hex; [done|apply Hinvol; auto].
    + destruct I4 as (j & Hj & Ho & Hids). exists j. split_and!; try done. apply Hex; [done|apply Hinvol; auto].
    + destruct I4 as (j & Hj & Ho & Hids & Hout). exists j. split_and!; try done; (apply Hex; [done|apply Hinvol; auto]).
    + destruct I4 as (j & Hj & Ho & Hids). exists j. split_and!; try done. apply Hex; [done|apply Hinvol; auto].
    + destruct I4 as (j & Hj & Ho & Hids). exists j. split_and!; try done. apply Hex; [done|apply Hinvol; auto].
  - eapply slots_same; [exact I5|done|done].
  - split; [intros id Hid; rewrite !lookup_insert_ne by lia; apply I6; lia|]. intros id Hid. rewrite lookup_insert_ne by lia. apply I6'. lia.
  - intros j d Hj. destruct (decide (j = i)) as [->|Hji].
    + rewrite lookup_insert_eq in Hj. injection Hj as <-. rewrite Er. unfold cl_ok, c'. cbn. rewrite lookup_insert_eq. by destruct (c_work c).
    + rewrite lookup_insert_ne in Hj by done. specialize (I7 j d Hj). destruct (decide (c_pc d = COpen)) as [Eo|Eo]; [unfold cl_ok in *; by rewrite Eo in *|]. pose proof (I8 j d Hj Eo) as [E1 E2 E3 E4 E5 E6].
      eapply cl_ok_frame; [exact I7|cbn; by rewrite !lookup_insert_ne by lia|cbn; by rewrite lookup_insert_ne by lia].
  - intros j d Hj Hd. destruct (decide (j = i)) as [->|Hji].
    + rewrite lookup_insert_eq in Hj. injection Hj as <-. unfold c'. constructor; cbn; try done; try lia; [rewrite lookup_insert_eq; by eexists|]. intros _. apply I6'. lia.
    + rewrite lookup_insert_ne in Hj by done. pose proof (I8 j d Hj Hd) as [E1 E2 E3 E4 E5 E6]. constructor; cbn; try done; try lia. by rewrite lookup_insert_ne by lia.
  - assert (forall j d, cls s !! j = Some d -> opened d -> sq_semid_client (c_q d) <> nsem (kern s) /\ sq_shmid_client (c_q d) <> nshm (kern s)) as Hne by (intros j d Hj Hd; destruct (I8 j d Hj Hd); lia).
    intros j1 j2 d1 d2 Hj1 Hj2 Hd1 Hd2 E. destruct (decide (j1 = i)) as [->|N1], (decide (j2 = i)) as [->|N2]; [done|..].
    + rewrite lookup_insert_eq in Hj1. rewrite lookup_insert_ne in Hj2 by done. injection Hj1 as <-. destruct (Hne j2 d2 Hj2 Hd2), E as [E|E]; cbn in E; congruence.
    + rewrite lookup_insert_eq in Hj2. rewrite lookup_insert_ne in Hj1 by done. injection Hj2 as <-. destruct (Hne j1 d1 Hj1 Hd1), E as [E|E]; cbn in E; congruence.
    + rewrite lookup_insert_ne in Hj1, Hj2 by done. by apply (I9 j1 j2 d1 d2).
  - intros j d Hj. destruct (decide (j = i)) as [->|Hji]; [|rewrite lookup_insert_ne in Hj by done; by apply I10]. rewrite lookup_insert_eq in Hj. injection Hj as <-. destruct (I10 i c Hi) as (w & Hw' & Hh). exists w. split; [done|]. unfold hist_ok, c' in *. rewrite Epc in Hh. cbn. by destruct (c_work c).
  - intros j Hj. destruct (decide (j = i)) as [->|Hji]; [rewrite lookup_insert_eq; by eexists|]. rewrite lookup_insert_ne by done. by apply I11.
  - done.
Qed.

(** ** The steps of the server *)
Lemma role_srv o i pc : role_of o (Some i) pc i = match pc with SIds | SWait => Early | SAddr | SCopy => Late | SRelIn | SRelOut => Copied | _ => Idle end.
Proof. unfold role_of. by rewrite bool_decide_eq_true_2. Qed.

(** A client that others work for waits for its reply. *)
Lemma waits r c k : cl_ok r c k -> r = Posted \/ r = Early \/ r = Late \/ r = Copied -> c_pc c = CRecv /\ c_work c <> [].
Proof. unfold cl_ok. destruct (c_pc c), r; naive_solver. Qed.

Lemma server_step s s' o v : inv works s o v -> smi_step msgsize None s = Some s' -> exists o' v', inv works s' o' v'.
Proof.
  intros Hinv Hst. cbn in Hst. pose proof (inv_srv _ _ _ _ Hinv) as Hsrv. pose proof (inv_seg _ _ _ _ Hinv) as Hseg. unfold srv_ok in Hsrv. unfold sstep in Hst.
  assert (forall i c, cls s !! i = Some c -> role_of o v (s_pc (srv s)) i = Posted \/ role_of o v (s_pc (srv s)) i = Early \/ role_of o v (s_pc (srv s)) i = Late \/ role_of o v (s_pc (srv s)) i = Copied ->
    opened c /\ c_pc c = CRecv /\ c_pc c <> CDone /\ c_work c <> [] /\ ids_ok s c /\ <[i := c]> (cls s) = cls s) as Hcl.
  { intros i c Hi Hr. destruct (waits _ _ _ (inv_cl _ _ _ _ Hinv i c Hi) Hr) as [Hp Hw]. assert (opened c) as Hop by (unfold opened; by rewrite Hp). split_and!; try done; [by rewrite Hp|by apply (inv_ids _ _ _ _ Hinv i)|by apply insert_id]. }
  destruct (s_pc (srv s)) eqn:Epc; try done.
  - (* SRecv *)
    destruct Hsrv as [-> Hidle]. unfold semi_wait in Hst. rewrite (inv_sem _ _ _ _ Hinv) in Hst. destruct o as [|i|i|i]; cbn in Hst; try done. injection Hst as <-. destruct Hseg as (c & Hi & Hm).
    assert (role_of (OFull i) None SRecv i = Posted) as Er by (by apply role_full). destruct (Hcl i c Hi ltac:(auto)) as (Hop & Hp & Hnd & Hw & [D1 D2 D3 D4 D5 D6] & Hins). pose proof (inv_cl _ _ _ _ Hinv i c Hi) as Hc. rewrite Epc, Er in Hc. unfold cl_ok in Hc. rewrite Hp in Hc.
    exists (OSrv i), (Some i). rewrite <- Hins. eapply inv_sems; try done; rewrite ?Epc; try (by left); cbn [s_pc mapped]; try done.
    + cbn. by rewrite lookup_insert_eq.
    + exists c. cbn. by rewrite lookup_insert_eq.
    + exists i. done.
    + intros j Hj. apply (role_other _ _ _ _ _ _ i); auto. by right.
    + rewrite role_srv. unfold cl_ok. rewrite Hp. cbn. split; [done|]. rewrite lookup_insert_ne by (intros E; by apply D3). by apply Hc.
  - (* SIds *)
    destruct Hsrv as (i & -> & ->). destruct Hseg as (c & Hi & Hm). rewrite Hm in Hst. injection Hst as <-. destruct (Hcl i c Hi ltac:(rewrite role_srv; auto)) as (Hop & Hp & Hnd & Hw & Hids & Hins). pose proof (inv_cl _ _ _ _ Hinv i c Hi) as Hc. rewrite Epc, role_srv in Hc.
    exists (OSrv i), (Some i). rewrite <- Hins. eapply inv_update; try done; rewrite ?Epc; cbn [s_pc mapped]; try done; try exact (inv_slots _ _ _ _ Hinv); try exact (inv_sem _ _ _ _ Hinv); try exact (inv_vo _ _ _ _ Hinv).
    + exists c. cbn. by rewrite Hins.
    + exists i. split; [done|]. split; [done|]. exists c. cbn. by rewrite Hins.
    + by rewrite role_srv.
  - (* SWait *)
    destruct Hsrv as (i & -> & -> & c & Hi & Hsc). destruct (Hcl i c Hi ltac:(rewrite role_srv; auto)) as (Hop & Hp & Hnd & Hw & [D1 D2 D3 D4 D5 D6] & Hins). pose proof (inv_cl _ _ _ _ Hinv i c Hi) as Hc. rewrite Epc, role_srv in Hc. unfold cl_ok in Hc. rewrite Hp in Hc. destruct Hc as [_ Hsem].
    unfold semi_wait in Hst. rewrite Hsc in Hst. cbn [snd] in Hst. rewrite Hsem in Hst. cbn in Hst. injection Hst as <-. exists (OSrv i), (Some i). rewrite <- Hins. eapply inv_sems; try done; rewrite ?Epc; try (by right); cbn [s_pc mapped]; try done.
    + cbn. rewrite lookup_insert_ne by (intros E; by apply D3). apply (inv_sem _ _ _ _ Hinv).
    + eapply (seg_frame s); try done.
    + exists i. split; [done|]. split; [done|]. exists c. cbn. by rewrite Hins.
    + intros j Hj. apply (role_other _ _ _ _ _ _ i); auto.
    + rewrite role_srv. unfold cl_ok. rewrite Hp. cbn. by rewrite lookup_insert_eq.
  - (* SAddr *)
    destruct Hsrv as (i & -> & -> & c & Hi & Hsc). destruct (Hcl i c Hi ltac:(rewrite role_srv; auto)) as (Hop & Hp & Hnd & Hw & [D1 D2 D3 D4 D5 D6] & Hins). pose proof (inv_cl _ _ _ _ Hinv i c Hi) as Hc. rewrite Epc, role_srv in Hc.
    destruct Hseg as (c0 & Hi0 & Hm). simplify_eq. rewrite Hm in Hst. cbn [c_id1 full_msg] in Hst.
    destruct (getaddr_run (mapped (srv s)) (clock (srv s)) (kern s) (sq_shmid_client (c_q c)) (inv_slots _ _ _ _ Hinv) D5 (D6 Hnd) ltac:(lia)) as (l' & k' & a & Eg & Hsl & Ha & E1 & E2 & E3 & E4 & E5). rewrite Eg in Hst. injection Hst as <-.
    exists (OSrv i), (Some i). rewrite <- Hins. eapply inv_update; try done; rewrite ?Epc, ?E1, ?E2, ?E3, ?E4, ?E5; cbn [s_pc mapped]; try done.
    + apply (inv_sem _ _ _ _ Hinv).
    + exists c. cbn. by rewrite Hins, E3.
    + exists i. split; [done|]. split; [done|]. cbn. rewrite Hins. split; by exists c.
    + rewrite role_srv. eapply cl_ok_frame; [exact Hc|by rewrite E1|by rewrite E3].
  - (* SCopy *)
    destruct Hsrv as (i & -> & -> & (c & Hi & Hsc) & c0 & Hi0 & Hout). simplify_eq. destruct (Hcl i c Hi ltac:(rewrite role_srv; auto)) as (Hop & Hp & Hnd & Hw & [D1 D2 D3 D4 D5 D6] & Hins). pose proof (inv_cl _ _ _ _ Hinv i c Hi) as Hc. rewrite Epc, role_srv in Hc. unfold cl_ok in Hc. rewrite Hp in Hc. destruct Hc as [_ Hsem].
    destruct Hseg as (c0 & Hi0 & Hm). simplify_eq. rewrite Hm, Hout in Hst. destruct D5 as [m0 Hm0]. pose proof (word_fits s _ _ i c Hinv Hi Hw ltac:(by rewrite Hp)) as Hf.
    unfold store_data in Hst. rewrite Hm0 in Hst. cbn [smi_data full_msg] in Hst. fold (upper (word c)) in Hst. rewrite upper_length, ltb_false in Hst by done. injection Hst as <-.
    exists (OSrv i), (Some i). rewrite <- Hins. eapply inv_shms; try done; rewrite ?Epc; try (by right); cbn [s_pc mapped]; try done.
    + exists c. cbn. rewrite Hins, lookup_insert_ne by (intros E; by apply D4). done.
    + exists i. split; [done|]. split; [done|]. exists c. cbn. by rewrite Hins.
    + intros j Hj. apply (role_other _ _ _ _ _ _ i); auto.
    + rewrite role_srv. unfold cl_ok. rewrite Hp. cbn. split; [done|]. split; [done|]. eexists. cbn. by rewrite lookup_insert_eq.
  - (* SRelIn *)
    destruct Hsrv as (i & -> & -> & c & Hi & Hsc). destruct (Hcl i c Hi ltac:(rewrite role_srv; auto)) as (Hop & Hp & Hnd & Hw & [D1 D2 D3 D4 D5 D6] & Hins). pose proof (inv_cl _ _ _ _ Hinv i c Hi) as Hc. rewrite Epc, role_srv in Hc.
    unfold semi_post in Hst. rewrite (inv_sem _ _ _ _ Hinv) in Hst. cbn in Hst. injection Hst as <-. exists OFree, (Some i). rewrite <- Hins. eapply inv_sems; try done; rewrite ?Epc; try (by left); cbn [s_pc mapped]; try done.
    + cbn. by rewrite lookup_insert_eq.
    + destruct Hseg as (c0 & _ & Hm). cbn. by eexists.
    + exists i. split; [done|]. split; [done|]. exists c. cbn. by rewrite Hins.
    + rewrite role_srv. eapply cl_ok_frame; [exact Hc|cbn; by rewrite lookup_insert_ne by (intros E; by apply D3)|done].
  - (* SRelOut *)
    destruct Hsrv as (i & -> & Hidle & c & Hi & Hsc). destruct (Hcl i c Hi ltac:(rewrite role_srv; auto)) as (Hop & Hp & Hnd & Hw & [D1 D2 D3 D4 D5 D6] & Hins). pose proof (inv_cl _ _ _ _ Hinv i c Hi) as Hc. rewrite Epc, role_srv in Hc. unfold cl_ok in Hc. rewrite Hp in Hc. destruct Hc as (_ & Hsem & Hrep).
    destruct (inv_vo _ _ _ _ Hinv i eq_refl) as [O1 O2].
    unfold semi_post in Hst. rewrite Hsc in Hst. cbn [snd] in Hst. rewrite Hsem in Hst. cbn in Hst. injection Hst as <-. exists o, None. rewrite <- Hins. eapply inv_sems; try done; rewrite ?Epc; try (by right); cbn [s_pc mapped]; try done.
    + cbn. rewrite lookup_insert_ne by (intros E; by apply D3). apply (inv_sem _ _ _ _ Hinv).
    + eapply (seg_frame s); try done.
    + intros j Hj. apply (role_other _ _ _ _ _ _ i); auto.
    + rewrite role_none by done. unfold cl_ok. rewrite Hp. cbn. by rewrite lookup_insert_eq.
Qed.

Lemma any_step who s s' o v : inv works s o v -> smi_step msgsize who s = Some s' -> exists o' v', inv works s' o' v'.
Proof.
  intros Hinv Hst. destruct who as [i|]; [|by eapply server_step]. pose proof Hst as Hst'. cbn in Hst'. destruct (cls s !! i) as [c|] eqn:Hi; [|done]. unfold cstep in Hst'.
  assert (exists o', inv works s' o' v) as [o' H]; [|by exists o', v]. destruct (c_pc c) eqn:Epc; try done; eauto using step_open, step_get, step_ids, step_fill, step_rel, step_recv, step_read, step_recvrel, step_close.
Qed.

Lemma start_inv : inv works (smi_start works) OFree None.
Proof.
  assert (forall i c, cls (smi_start works) !! i = Some c -> exists w, works !! i = Some w /\ c = mkClient COpen (mkSmiq 0 0 0 0) w []) as Hcls.
  { intros i c Hc. cbn in Hc. apply lookup_fmap_Some in Hc as (w & <- & Hw). eauto. }
  constructor; try done.
  - exists None || idtac. cbn. by eexists.
  - constructor; try done.
    + intros i e He. cbn in He. change (replicate 20 (mkSlot (-1) 0 0) !! i = Some e) in He. apply lookup_replicate in He as [-> _]. done.
    + intros i j e e' He _ Hn. change (replicate 20 (mkSlot (-1) 0 0) !! i = Some e) in He. apply lookup_replicate in He as [-> _]. done.
  - split; intros id Hid; cbn in *; [by rewrite lookup_insert_ne, lookup_insert_ne by lia|]. rewrite lookup_insert_ne by lia. done.
  - intros i c Hc. destruct (Hcls i c Hc) as (w & Hw & ->). done.
  - intros i c Hc Hop. destruct (Hcls i c Hc) as (w & Hw & ->). done.
  - intros i j c d Hc Hd Hop. destruct (Hcls i c Hc) as (w & Hw & ->). done.
  - intros i c Hc. destruct (Hcls i c Hc) as (w & Hw & ->). exists w. done.
  - intros i [w Hw]. cbn. rewrite lookup_fmap, Hw. by eexists.
Qed.

Lemma smi_reach_inv n s : reach msgsize (smi_start works) n s -> exists o v, inv works s o v.
Proof. induction 1 as [|n s1 s2 who _ (o & v & Hinv) Hst]; [exists OFree, None; apply start_inv|]. by eapply any_step. Qed.

(** ** Some process can go on *)
Lemma server_can s o v : inv works s o v -> s_pc (srv s) <> SRecv \/ (exists i, o = OFull i) -> is_Some (smi_step msgsize None s).
Proof.
  intros Hinv Hc. pose proof (inv_srv _ _ _ _ Hinv) as Hsrv. pose proof (inv_seg _ _ _ _ Hinv) as Hseg. unfold srv_ok in Hsrv. cbn. unfold sstep. destruct (s_pc (srv s)) eqn:Epc; dex; simplify_eq.
  - unfold semi_wait. rewrite (inv_sem _ _ _ _ Hinv). destruct Hc as [?|[i ->]]; [done|]. by eexists.
  - destruct (shms (kern s) !! shmS s); by eexists.
  - match goal with H : cls s !! ?i = Some ?c |- _ => pose proof (inv_cl _ _ _ _ Hinv i c H) as Hcl end. rewrite Epc, role_srv in Hcl. destruct (waits _ _ _ Hcl ltac:(auto)) as [Hp _]. unfold cl_ok in Hcl. rewrite Hp in Hcl. destruct Hcl as [_ Hsem].
    unfold semi_wait. match goal with H : s_client (srv s) = _ |- _ => rewrite H end. cbn [snd]. rewrite Hsem. by eexists.
  - destruct (shms (kern s) !! shmS s); [|by eexists]. destruct (getaddr _ _ _ _) as [[[l t] k] [a|]]; by eexists.
  - destruct (shms (kern s) !! shmS s), (att (kern s) !! s_out (srv s)); try by eexists. destruct (store_data _ _ _ _); by eexists.
  - unfold semi_post. destruct (sems (kern s) !! semS s) as [[]|]; by eexists.
  - unfold semi_post. destruct (sems (kern s) !! (s_client (srv s)).2) as [[]|]; by eexists.
  - done.
Qed.

Lemma progress s o v i c : inv works s o v -> cls s !! i = Some c -> c_pc c <> CDone -> exists who, is_Some (smi_step msgsize who s).
Proof.
  intros Hinv Hi Hnd. destruct (decide (s_pc (srv s) = SRecv)) as [Ep|Ep]; [|exists None; apply (server_can s o v); auto]. pose proof (inv_srv _ _ _ _ Hinv) as Hsrv. unfold srv_ok in Hsrv. rewrite Ep in Hsrv. destruct Hsrv as [-> Hidle].
  assert (forall j d, cls s !! j = Some d -> match c_pc d with COpen | CIds | CFill | CRel | CRead | CRecvRel | CClose => True | _ => False end -> is_Some (smi_step msgsize (Some j) s)) as Hgo.
  { intros j d Hj Hd. cbn. rewrite Hj. unfold cstep. destruct (c_pc d); try done.
    - destruct (shms (kern s) !! _); by eexists.
    - destruct (store_data _ _ _ _); by eexists.
    - unfold semi_post. destruct (sems (kern s) !! _) as [[]|]; by eexists.
    - destruct (shms (kern s) !! _); by eexists.
    - unfold semi_post. destruct (sems (kern s) !! _) as [[]|]; by eexists.
    - destruct (smi_close_client _ _); by eexists. }
  destruct o as [|j|j|j]; [|exists (Some j)|exists None; eapply server_can; eauto|by destruct (Hidle j)].
  - exists (Some i). pose proof (inv_cl _ _ _ _ Hinv i c Hi) as Hc. rewrite role_none in Hc by done. unfold cl_ok in Hc. pose proof (Hgo i c Hi) as Hgo'. destruct (c_pc c) eqn:Epc; try done; try by apply Hgo'.
    + cbn. rewrite Hi. unfold cstep. rewrite Epc. assert (opened c) as Hop by (unfold opened; by rewrite Epc). rewrite (id_semS _ _ (inv_ids _ _ _ _ Hinv i c Hi Hop)). unfold semi_wait. rewrite (inv_sem _ _ _ _ Hinv). by eexists.
    + cbn. rewrite Hi. unfold cstep. rewrite Epc. unfold semi_wait. destruct Hc as (_ & -> & _). by eexists.
  - destruct (inv_seg _ _ _ _ Hinv) as (d & m & Hj & _). apply (Hgo j d Hj). pose proof (inv_cl _ _ _ _ Hinv j d Hj) as Hc. rewrite role_cl in Hc by done. unfold cl_ok in Hc. by destruct (c_pc d).
Qed.

(** ** The number of steps *)

(** The steps that are left, with the seven of the server for a word. *)
Definition left_of (c : client) : Z :=
  let n := 14 * zlen (c_work c) in
  match c_pc c with
  | COpen => n + 2 | CGet => n + 1 | CIds => n | CFill => n - 1 | CRel => n - 2 | CRecv => n - 10 | CRead => n - 11 | CRecvRel => n - 12 | CClose => 1 | CDone | CFail => 0
  end.

Definition left_srv (pc : spc) : Z := match pc with SRecv | SFail => 0 | SIds => 6 | SWait => 5 | SAddr => 4 | SCopy => 3 | SRelIn => 2 | SRelOut => 1 end.

Definition total (m : gmap nat client) : Z := map_fold (fun _ c acc => left_of c + acc) 0 m.

Definition requests (s : sys) : Z := match sems (kern s) !! semS s with Some (r, _) => r | None => 0 end.

Definition measure (s : sys) : Z := total (cls s) + left_srv (s_pc (srv s)) + 7 * requests s.

Lemma total_insert_new m i c : m !! i = None -> total (<[i := c]> m) = left_of c + total m.
Proof. intros H. unfold total. rewrite map_fold_insert_L; [done| |done]. intros. lia. Qed.

Lemma total_insert m i c c' : m !! i = Some c -> total (<[i := c']> m) = total m - left_of c + left_of c'.
Proof.
  intros H. rewrite <- insert_delete_eq, total_insert_new by apply lookup_delete_eq. rewrite <- (insert_delete_id m i c H) at 2. rewrite total_insert_new by apply lookup_delete_eq. lia.
Qed.

Lemma requests_sems s x y k srv' m : k = set_sems (<[x := y]> (sems (kern s))) (kern s) -> x <> semS s -> requests (mkSys k srv' m (semS s) (shmS s)) = requests s.
Proof. intros -> Hx. unfold requests. cbn. by rewrite lookup_insert_ne. Qed.

Lemma step_measure who s s' o v : inv works s o v -> smi_step msgsize who s = Some s' -> measure s' = measure s - 1.
Proof.
  intros Hinv Hst. destruct (any_step who s s' o v Hinv Hst) as (o' & v' & Hinv'). destruct who as [i|].
  - cbn in Hst. destruct (cls s !! i) as [c|] eqn:Hi; [|done].
    assert (forall c' k, Did (c', k) = cstep msgsize c (kern s) (semS s) (shmS s) -> left_of c' + 7 * requests (mkSys k (srv s) (<[i := c']> (cls s)) (semS s) (shmS s)) = left_of c + 7 * requests s - 1 -> s' = mkSys k (srv s) (<[i := c']> (cls s)) (semS s) (shmS s) -> measure s' = measure s - 1) as Hfin.
    { intros c' k _ Hl ->. unfold measure. cbn [cls srv]. rewrite (total_insert _ _ c) by done. lia. }
    destruct (cstep msgsize c (kern s) (semS s) (shmS s)) as [| |[c' k]] eqn:Ec; try done. injection Hst as <-. apply (Hfin c' k); [done| |done]. clear Hfin.
    assert (c_pc c' <> CFail) as Hnf. { pose proof (inv_cl _ _ _ _ Hinv' i c' (lookup_insert_eq _ _ _)) as Hc'. unfold cl_ok in Hc'. by destruct (c_pc c'). }
    pose proof (inv_cl _ _ _ _ Hinv i c Hi) as Hc. unfold cl_ok in Hc. unfold cstep in Ec.
    assert (c_pc c <> COpen -> sq_semid_server (c_q c) = semS s /\ sq_semid_client (c_q c) <> semS s) as Hids by (intros Hop; destruct (inv_ids _ _ _ _ Hinv i c Hi Hop) as [D1 _ [_ D3] _ _ _]; done).
    pose proof (inv_S _ _ _ _ Hinv) as [HS _].
    destruct (c_pc c) eqn:Epc; try done.
    + injection Ec as <- <-. unfold left_of. rewrite Epc. unfold requests, init_semi. cbn. rewrite !lookup_insert_ne by lia. destruct (c_work c); unfold zlen; cbn; lia.
    + destruct (Hids ltac:(done)) as [E1 E2]. rewrite E1 in Ec. unfold semi_wait in Ec. rewrite (inv_sem _ _ _ _ Hinv) in Ec. destruct o; cbn in Ec; try done. injection Ec as <- <-. unfold left_of, requests. rewrite Epc. cbn. rewrite lookup_insert_eq, (inv_sem _ _ _ _ Hinv). cbn. lia.
    + destruct (shms (kern s) !! _); cbn in Ec; [|by injection Ec as <- <-]. injection Ec as <- <-. unfold left_of, requests. rewrite Epc. cbn. lia.
    + unfold store_data in Ec. destruct (shms (kern s) !! _); [|by injection Ec as <- <-]. destruct (_ <? _); [by injection Ec as <- <-|]. injection Ec as <- <-. unfold left_of, requests. rewrite Epc. cbn. lia.
    + destruct (Hids ltac:(done)) as [E1 E2]. rewrite E1 in Ec. unfold semi_post in Ec. rewrite (inv_sem _ _ _ _ Hinv) in Ec. destruct (sem_of o) as [r w] eqn:Eo. injection Ec as <- <-. unfold left_of, requests. rewrite Epc. cbn. rewrite lookup_insert_eq, (inv_sem _ _ _ _ Hinv), Eo. lia.
    + destruct (Hids ltac:(done)) as [E1 E2]. unfold semi_wait in Ec. destruct (sems (kern s) !! sq_semid_client (c_q c)) as [[r w]|]; [|by injection Ec as <- <-]. destruct (r <=? 0); [done|]. injection Ec as <- <-. rewrite (requests_sems s (sq_semid_client (c_q c)) (r - 1, w)) by done. unfold left_of. rewrite Epc. cbn. lia.
    + destruct (shms (kern s) !! _); [|by injection Ec as <- <-]. injection Ec as <- <-. unfold left_of, requests. rewrite Epc. cbn. lia.
    + destruct (Hids ltac:(done)) as [E1 E2]. unfold semi_post in Ec. destruct (sems (kern s) !! sq_semid_client (c_q c)) as [[r w]|]; [|by injection Ec as <- <-]. injection Ec as <- <-. rewrite (requests_sems s (sq_semid_client (c_q c)) (r, w + 1)) by done. unfold left_of. rewrite Epc. cbn.
      assert (c_work c <> []) as Hw by (destruct (role_of _ _ _ _); by destruct Hc). destruct (c_work c) as [|w1 [|w2 l]]; [done|..]; unfold zlen; cbn; lia.
    + destruct (Hids ltac:(done)) as [E1 E2]. unfold smi_close_client, sem_rmid in Ec. destruct (sems (kern s) !! sq_semid_client (c_q c)); cbn in Ec; [|by injection Ec as <- <-]. unfold shm_rmid in Ec. cbn [shms set_sems] in Ec. unfold left_of, requests. rewrite Epc.
      destruct (shms (kern s) !! _); injection Ec as <- <-; cbn; rewrite lookup_delete_ne by done; lia.
  - cbn in Hst. destruct (sstep msgsize (srv s) (kern s) (semS s) (shmS s)) as [| |[v1 k]] eqn:Ec; try done. injection Hst as <-. unfold measure. cbn [cls srv].
    assert (s_pc v1 <> SFail) as Hnf. { pose proof (inv_srv _ _ _ _ Hinv') as Hs'. unfold srv_ok in Hs'. cbn in Hs'. by destruct (s_pc v1). }
    pose proof (inv_srv _ _ _ _ Hinv) as Hsrv. unfold srv_ok in Hsrv.
    assert (forall c i, cls s !! i = Some c -> role_of o v (s_pc (srv s)) i = Early \/ role_of o v (s_pc (srv s)) i = Late \/ role_of o v (s_pc (srv s)) i = Copied -> sq_semid_client (c_q c) <> semS s) as Hids.
    { intros c i Hi Hr. destruct (waits _ _ _ (inv_cl _ _ _ _ Hinv i c Hi) ltac:(tauto)) as [Hp _]. assert (opened c) as Hop by (unfold opened; by rewrite Hp). destruct (inv_ids _ _ _ _ Hinv i c Hi Hop) as [_ _ [_ D3] _ _ _]. done. }
    unfold sstep in Ec. destruct (s_pc (srv s)) eqn:Epc; try done.
    + unfold semi_wait in Ec. rewrite (inv_sem _ _ _ _ Hinv) in Ec. destruct o; cbn in Ec; try done. injection Ec as <- <-. unfold requests. cbn. rewrite lookup_insert_eq, (inv_sem _ _ _ _ Hinv). cbn. lia.
    + destruct (shms (kern s) !! shmS s); injection Ec as <- <-; [|done]. unfold requests. cbn. lia.
    + destruct Hsrv as (i & -> & -> & c & Hi & Hsc). pose proof (Hids c i Hi ltac:(rewrite role_srv; auto)) as Hne. unfold semi_wait in Ec. rewrite Hsc in Ec. cbn [snd] in Ec. destruct (sems (kern s) !! _) as [[r w]|]; [|by injection Ec as <- <-]. destruct (w <=? 0); [done|]. injection Ec as <- <-.
      rewrite (requests_sems s (sq_semid_client (c_q c)) (r, w - 1)) by done. cbn. lia.
    + destruct Hsrv as (i & -> & -> & c & Hi & Hsc). destruct (inv_seg _ _ _ _ Hinv) as (c0 & Hi0 & Hm). rewrite Hi in Hi0. injection Hi0 as <-. rewrite Hm in Ec. destruct (waits _ _ _ (inv_cl _ _ _ _ Hinv i c Hi) ltac:(rewrite Epc, role_srv; auto)) as [Hp _].
      assert (opened c) as Hop by (unfold opened; by rewrite Hp). destruct (inv_ids _ _ _ _ Hinv i c Hi Hop) as [_ _ _ D4 D5 D6].
      destruct (getaddr_run (mapped (srv s)) (clock (srv s)) (kern s) (sq_shmid_client (c_q c)) (inv_slots _ _ _ _ Hinv) D5 (D6 ltac:(by rewrite Hp)) ltac:(lia)) as (l' & k' & a & Eg & _ & _ & E1 & _). cbn [c_id1 full_msg] in Ec. rewrite Eg in Ec. injection Ec as <- <-. unfold requests. cbn. rewrite E1. lia.
    + destruct (shms (kern s) !! shmS s), (att (kern s) !! s_out (srv s)); try by injection Ec as <- <-. unfold store_data in Ec. destruct (shms (kern s) !! _); [|by injection Ec as <- <-]. destruct (_ <? _); injection Ec as <- <-; [done|]. unfold requests. cbn. lia.
    + unfold semi_post in Ec. rewrite (inv_sem _ _ _ _ Hinv) in Ec. destruct (sem_of o) as [r w] eqn:Eo. injection Ec as <- <-. unfold requests. cbn. rewrite lookup_insert_eq, (inv_sem _ _ _ _ Hinv), Eo. lia.
    + destruct Hsrv as (i & -> & Hidle & c & Hi & Hsc). pose proof (Hids c i Hi ltac:(rewrite role_srv; auto)) as Hne. unfold semi_post in Ec. rewrite Hsc in Ec. cbn [snd] in Ec. destruct (sems (kern s) !! _) as [[r w]|]; [|by injection Ec as <- <-]. injection Ec as <- <-.
      rewrite (requests_sems s (sq_semid_client (c_q c)) (r + 1, w)) by done. cbn. lia.
Qed.

End steps.

(** ** The properties *)

(** The steps of a run: two for each client and fourteen for each word. *)
Definition smi_bound (works : gmap nat (list bytes)) : Z := map_fold (fun _ w acc => (14 * zlen w + 2) + acc) 0 works.

Lemma start_measure works : measure (smi_start works) = smi_bound works.
Proof.
  assert (total ((fun w => mkClient COpen (mkSmiq 0 0 0 0) w []) <$> works) = smi_bound works) as E; [|rewrite <- E; unfold measure; change (cls (smi_start works)) with ((fun w => mkClient COpen (mkSmiq 0 0 0 0) w []) <$> works); change (requests (smi_start works)) with 0; change (left_srv (s_pc (srv (smi_start works)))) with 0; lia].
  unfold smi_bound. induction works as [|i w m Hi IH] using map_ind; [done|]. rewrite fmap_insert, total_insert_new by (by rewrite lookup_fmap, Hi).
  rewrite map_fold_insert_L; [|intros; lia|done]. rewrite <- IH. done.
Qed.

Lemma left_nonneg r c k : cl_ok r c k -> 0 <= left_of c.
Proof.
  unfold cl_ok, left_of. intros H. pose proof (zlen_nonneg (c_work c)) as H0. destruct (c_pc c), r; try done; try lia.
  all: destruct (c_work c) as [|w l]; [by destruct H|]; clear -l; unfold zlen; cbn [length]; lia.
Qed.

Lemma total_nonneg m : (forall i c, m !! i = Some c -> 0 <= left_of c) -> 0 <= total m.
Proof.
  induction m as [|i c m Hi IH] using map_ind; intros H; [done|]. rewrite total_insert_new by done. pose proof (H i c (lookup_insert_eq _ _ _)). assert (0 <= total m); [|lia].
  apply IH. intros j d Hj. apply (H j d). rewrite lookup_insert_ne; [done|]. congruence.
Qed.

Lemma measure_nonneg works s o v : inv works s o v -> 0 <= measure s.
Proof.
  intros Hinv. unfold measure, requests. rewrite (inv_sem _ _ _ _ Hinv). assert (0 <= total (cls s)) by (apply total_nonneg; intros i c Hc; eapply left_nonneg, (inv_cl _ _ _ _ Hinv i c Hc)).
  assert (0 <= left_srv (s_pc (srv s))) by (by destruct (s_pc (srv s))). destruct o; cbn; lia.
Qed.

(** A client writes into the message of the server, or the server uses it. *)
Definition writes (c : client) : bool := match c_pc c with CIds | CFill => true | _ => false end.
Definition reads (v : server) : bool := match s_pc v with SIds | SAddr | SCopy => true | _ => false end.

Lemma writes_owner works s o v i c : inv works s o v -> cls s !! i = Some c -> writes c = true -> o = OCl i /\ reads (srv s) = false.
Proof.
  intros Hinv Hi Hw. pose proof (inv_cl _ _ _ _ Hinv i c Hi) as Hc. unfold writes in Hw. unfold cl_ok in Hc.
  assert (role_of o v (s_pc (srv s)) i = Writing) as Er by (destruct (c_pc c); try done; by destruct (role_of _ _ _ _)). apply role_writing in Er as [-> _]. split; [done|].
  pose proof (inv_srv _ _ _ _ Hinv) as Hs. unfold srv_ok in Hs. unfold reads. destruct (s_pc (srv s)); dex; done.
Qed.

(** C38: the server and any number of clients of smi_shm.c, whose words fit
    into the segments: in every interleaving no call fails, two processes
    never use one message at the same time, the replies a client has
    printed are its words in capitals, in order and each once; as long as
    a client has not finished some process can go on, and when none can,
    every client has all replies; every run has 2 steps for a client and
    14 for a word. *)
Theorem smi_correct msgsize works n s :
  (forall i work, works !! i = Some work -> Forall (fun w => HEADER + zlen w + 1 <= msgsize) work) ->
  reach msgsize (smi_start works) n s ->
  (s_pc (srv s) <> SFail /\ forall i c, cls s !! i = Some c -> c_pc c <> CFail) /\
  (forall i j c d, cls s !! i = Some c -> cls s !! j = Some d -> writes c = true -> (writes d = true -> i = j) /\ reads (srv s) = false) /\
  (forall i c, cls s !! i = Some c -> c_pc c = CRead -> s_pc (srv s) = SCopy -> att (kern s) !! s_out (srv s) <> Some (sq_shmid_client (c_q c))) /\
  (forall i c, cls s !! i = Some c -> exists work, works !! i = Some work /\ c_got c `prefix_of` (upper <$> work)) /\
  Z.of_nat n <= smi_bound works /\
  ((forall who, smi_step msgsize who s = None) ->
    Z.of_nat n = smi_bound works /\ forall i work, works !! i = Some work -> exists c, cls s !! i = Some c /\ c_pc c = CDone /\ c_got c = upper <$> work).
Proof.
  intros Hfit Hr. destruct (smi_reach_inv msgsize works Hfit n s Hr) as (o & v & Hinv).
  assert (Z.of_nat n + measure s = smi_bound works) as Hn.
  { rewrite <- start_measure. clear Hinv. induction Hr as [|n s1 s2 who Hr IH Hst]; [lia|]. destruct (smi_reach_inv msgsize works Hfit n s1 Hr) as (o1 & v1 & Hinv1). rewrite (step_measure msgsize works Hfit who s1 s2 o1 v1 Hinv1 Hst). lia. }
  split; [|split; [|split; [|split; [|split]]]].
  - split; [pose proof (inv_srv _ _ _ _ Hinv) as Hs; unfold srv_ok in Hs; by destruct (s_pc (srv s))|]. intros i c Hi. pose proof (inv_cl _ _ _ _ Hinv i c Hi) as Hc. unfold cl_ok in Hc. by destruct (c_pc c).
  - intros i j c d Hi Hj Hw. destruct (writes_owner _ _ _ _ i c Hinv Hi Hw) as [E Hrd]. split; [|done]. intros Hwd. destruct (writes_owner _ _ _ _ j d Hinv Hj Hwd) as [E' _]. congruence.
  - intros i c Hi Hp Hs Ha. pose proof (inv_srv _ _ _ _ Hinv) as Hsrv. unfold srv_ok in Hsrv. rewrite Hs in Hsrv. destruct Hsrv as (j & -> & -> & _ & d & Hj & Hout).
    assert (c_pc d = CRecv) as Hd by (apply (waits _ _ _ (inv_cl _ _ _ _ Hinv j d Hj)); rewrite Hs, role_srv; auto). assert (i = j) as -> by (apply (inv_inj _ _ _ _ Hinv i j c d); unfold opened; try congruence; right; congruence). congruence.
  - intros i c Hi. destruct (inv_hist _ _ _ _ Hinv i c Hi) as (work & Hw & Hh). exists work. split; [done|]. by eexists.
  - pose proof (measure_nonneg _ _ _ _ Hinv). lia.
  - intros Hstop.
    assert (forall i c, cls s !! i = Some c -> c_pc c = CDone) as Hdone.
    { intros i c Hi. destruct (decide (c_pc c = CDone)) as [|Hnd]; [done|]. destruct (progress msgsize works s o v i c Hinv Hi Hnd) as (who & s1 & E). by rewrite Hstop in E. }
    assert (s_pc (srv s) = SRecv /\ forall i, o <> OFull i) as [Hp Hof].
    { destruct (decide (s_pc (srv s) = SRecv)) as [Ep|Ep]; [split; [done|]; intros i E|]; (destruct (server_can msgsize works s o v Hinv) as [s1 E1]; [eauto|by rewrite Hstop in E1]). }
    split.
    + assert (measure s = 0); [|lia]. unfold measure, requests. rewrite Hp, (inv_sem _ _ _ _ Hinv). assert (total (cls s) = 0) as ->.
      { assert (forall m, (forall i c, m !! i = Some c -> c_pc c = CDone) -> total m = 0) as Ht; [|by apply Ht]. intros m. induction m as [|i c m Hi IH] using map_ind; intros H; [done|]. rewrite total_insert_new by done. unfold left_of. rewrite (H i c (lookup_insert_eq _ _ _)).
        rewrite IH; [done|]. intros j d Hj. apply (H j d). rewrite lookup_insert_ne; [done|]. congruence. }
      destruct o as [|i|i|i]; try done. by destruct (Hof i).
    + intros i work Hw. destruct (inv_dom _ _ _ _ Hinv i ltac:(by eexists)) as [c Hi]. exists c. split; [done|]. pose proof (Hdone i c Hi) as Hd. split; [done|]. destruct (inv_hist _ _ _ _ Hinv i c Hi) as (work' & Hw' & Hh). rewrite Hw in Hw'. injection Hw' as <-.
      unfold hist_ok in Hh. rewrite Hd in Hh. pose proof (inv_cl _ _ _ _ Hinv i c Hi) as Hc. unfold cl_ok in Hc. rewrite Hd in Hc. assert (c_work c = []) as Ew by (by destruct (role_of _ _ _ _)). rewrite Ew in Hh. by rewrite app_nil_r in Hh.
Qed.

(** Two clients with a word each, after the first one has its reply. *)
Definition works2 : gmap nat (list bytes) := {[0%nat := [[97; 98]]; 1%nat := [[99]]]}.

Fixpoint run_list (msgsize : Z) (l : list (option nat)) (s : sys) : option sys :=
  match l with [] => Some s | who :: l => s ← smi_step msgsize who s; run_list msgsize l s end.

Lemma run_list_reach msgsize l s0 n s s' : reach msgsize s0 n s -> run_list msgsize l s = Some s' -> reach msgsize s0 (length l + n) s'.
Proof.
  revert n s. induction l as [|who l IH]; intros n s Hr; simpl; [by intros [= <-]|].
  destruct (smi_step msgsize who s) as [s1|] eqn:E; [|done]. simpl. intros H.
  replace (S (length l + n)) with (length l + S n)%nat by lia. apply (IH (S n) s1); [by econstructor|done].
Qed.

Definition sched2 : list (option nat) :=
  [Some 0; Some 1; Some 0; Some 0; Some 0; Some 0; None; None; None; None; None; None; Some 1; Some 1; None; Some 0; Some 0; Some 1; Some 0]%nat.

Definition state2 : sys := Eval vm_compute in default (smi_start works2) (run_list 200 sched2 (smi_start works2)).

(** The first client of the two has printed its word in capitals, and no
    more than the bound of steps was taken. *)
Lemma smi_correct_witness : (exists work, works2 !! 0%nat = Some work /\ [[65; 66]] `prefix_of` (upper <$> work)) /\ 19 <= smi_bound works2.
Proof.
  assert (forall i work, works2 !! i = Some work -> Forall (fun w => HEADER + zlen w + 1 <= 200) work) as Hfit.
  { unfold works2. intros i work. rewrite lookup_insert_Some, lookup_singleton_Some. intros [[_ <-]|[_ [_ <-]]]; by repeat constructor. }
  assert (reach 200 (smi_start works2) 19 state2) as Hr by (apply (run_list_reach 200 sched2 _ 0 (smi_start works2)); [constructor|by vm_compute]).
  destruct (smi_correct 200 works2 19 state2 Hfit Hr) as (_ & _ & _ & Hg & Hb & _). split; [|exact Hb].
  exact (Hg 0%nat (default (mkClient CFail (mkSmiq 0 0 0 0) [] []) (cls state2 !! 0%nat)) eq_refl).
Defined.

(** ** Where the code differs from what it means *)

(** A server that finds the semaphores of an earlier run removes the shared
    memory with the same identifier, which may belong to somebody else, and
    keeps the semaphores. *)
Lemma open_removes_other :
  let k := mkK {[5 := (0, 1)]} 6 {[5 := mkMsg 0 0 [1; 2]]} 6 ∅ ∅ 0 in
  let '(sem, _, k') := smi_open_server (Some 5) None k in
  sem = 5 /\ 5 ∈ removed k' /\ is_Some (sems k' !! 5).
Proof. vm_compute. repeat split; by eexists. Qed.

(** The segment has [msgsize] bytes for the header and the data: data of
    180 bytes with a [msgsize] of 200 go past its end. *)
Lemma data_past_end : store_data 200 0 (replicate 180 97) (mkK ∅ 0 {[0 := mkMsg 0 0 []]} 1 ∅ ∅ 0) = None.
Proof. by vm_compute. Qed.

(** After a full table and a segment that cannot be attached, the slot has
    the identifier of the segment it held and no address: the next call
    with that identifier returns the address -1. *)
Lemma getaddr_stale :
  let k := mkK ∅ 0 (list_to_map ((fun i => (Z.of_nat i, mkMsg 0 0 [])) <$> seq 0 20)) 20 ∅ ∅ 0 in
  let '(l, t, k) := foldl (fun '(l, t, k) i => let '(l, t, k, _) := getaddr (Z.of_nat i) l t k in (l, t, k)) (replicate 20 (mkSlot (-1) 0 0), 0, k) (seq 0 20) in
  let '(l, t, k, a) := getaddr 77 l t k in
  let '(_, _, _, b) := getaddr 0 l t k in
  a = None /\ b = Some (-1).
Proof. by vm_compute. Qed.
