(* ===== verification/UspList.v ===== *)
(** * A list with traversal keys (UNIX_Systems_Programming/chapter02:
      listlib.c, keeploglib.c)

    The nodes are kept in the order of their allocation, none is ever freed;
    a pointer to a node is its number.  The table of traversals grows with
    [realloc], whose new memory holds anything: it is a parameter of each
    call.  The library implements a list of items with a position for each
    key in use. *)
From S2P Require Import Prelude CString Posix.

Open Scope prog_scope.

Definition TRAV_INIT_SIZE : Z := 8.

(** [data_t]; [list_t] *)
Definition data_t : Type := Z * bytes.

Record list_t := mkNode { item : data_t; next : option nat }.

(** An entry of [travptrs]: null, [&endlist], a node, or a pointer that is
    not valid. *)
Inductive trav := TNull | TEnd | TNode (p : nat) | TWild.

#[export] Instance trav_eq_dec : EqDecision trav.
Proof. solve_decision. Defined.

(** The static variables, and which of the next allocations fail. *)
Record lib := mkLib { nodes : list list_t; headptr : option nat; tailptr : option nat; travptrs : list trav; travptrs_size : Z; fails : list bool }.

Definition lib0 (f : list bool) : lib := mkLib [] None None [] 0 f.

Definition set_trav (l : list trav) (s : lib) : lib := mkLib (nodes s) (headptr s) (tailptr s) l (travptrs_size s) (fails s).

(** [malloc], [calloc] and [realloc] return a null pointer. *)
Definition no_memory : Prog lib bool :=
  do f <- get fails;
  run put (fun s => mkLib (nodes s) (headptr s) (tailptr s) (travptrs s) (travptrs_size s) (tail f));
  pret (match f with b :: _ => b | [] => false end).

(** The result of a function, or the error of a return of -1. *)
Definition ENOMEM : Z := 12.

(** The first empty slot. *)
Definition free_slot (l : list trav) : option nat := fst <$> list_find (fun t => t = TNull) l.

Definition accessdata (junk : nat -> trav) : Prog lib (Z + Z) :=
  do h <- get headptr;
  match h with
  | None => pret (inr EINVAL)
  | Some h =>
      do size <- get travptrs_size;
      if size =? 0 then
        do bad <- no_memory;
        if bad : bool then pret (inr ENOMEM)
        else run put (fun s => mkLib (nodes s) (headptr s) (tailptr s) (<[0%nat := TNode h]> (replicate (Z.to_nat TRAV_INIT_SIZE) TNull)) TRAV_INIT_SIZE (fails s)); pret (inl 0)
      else
        do l <- get travptrs;
        match free_slot l with
        | Some i => run put (set_trav (<[i := TNode h]> l)); pret (inl (Z.of_nat i))
        | None =>
            do bad <- no_memory;
            if bad : bool then pret (inr ENOMEM)
            else
              run put (fun s => mkLib (nodes s) (headptr s) (tailptr s) (<[Z.to_nat size := TNode h]> (travptrs s ++ (junk <$> seq (Z.to_nat size) (Z.to_nat size)))) (2 * size) (fails s));
              pret (inl (2 * size / 2))
        end
  end.

Definition adddata (data : data_t) : Prog lib (Z + Z) :=
  do bad <- no_memory;
  if bad : bool then pret (inr ENOMEM)
  else
    do newnode <- get (fun s => length (nodes s));
    run put (fun s => mkLib (nodes s ++ [mkNode (data.1, cstr data.2) None]) (headptr s) (tailptr s) (travptrs s) (travptrs_size s) (fails s));
    do h <- get headptr;
    run (match h with
         | None => put (fun s => mkLib (nodes s) (Some newnode) (tailptr s) (travptrs s) (travptrs_size s) (fails s))
         | Some _ =>
             do t <- get tailptr;
             do ns <- get nodes;
             match (t ≫= fun t => ns !! t) with
             | Some n => put (fun s => mkLib (<[default 0%nat t := mkNode (item n) (Some newnode)]> (nodes s)) (headptr s) (tailptr s) (travptrs s) (travptrs_size s) (fails s))
             | None => die "invalid pointer"
             end
         end);
    run put (fun s => mkLib (nodes s) (headptr s) (Some newnode) (travptrs s) (travptrs_size s) (fails s));
    pret (inl 0).

(** The item, or [None] when the string is null at the end of the list. *)
Definition getdata (key : Z) : Prog lib (option data_t + Z) :=
  do s <- get (fun s => s);
  if (key <? 0) || (travptrs_size s <=? key) then pret (inr EINVAL)
  else
    match travptrs s !! Z.to_nat key with
    | None => die "behind the table"
    | Some TNull => pret (inr EINVAL)
    | Some TEnd => run put (set_trav (<[Z.to_nat key := TNull]> (travptrs s))); pret (inl None)
    | Some TWild => die "invalid pointer"
    | Some (TNode p) =>
        match nodes s !! p with
        | None => die "invalid pointer"
        | Some t =>
            do bad <- no_memory;
            if bad : bool then pret (inr ENOMEM)
            else
              run put (fun s => set_trav (<[Z.to_nat key := match next t with None => TEnd | Some q => TNode q end]> (travptrs s)) s);
              pret (inl (Some (item t)))
        end
    end.

Definition freekey (key : Z) : Prog lib (Z + Z) :=
  do s <- get (fun s => s);
  if (key <? 0) || (travptrs_size s <=? key) then pret (inr EINVAL)
  else if bool_decide (length (travptrs s) <= Z.to_nat key)%nat then die "behind the table"
  else run put (set_trav (<[Z.to_nat key := TNull]> (travptrs s))); pret (inl 0).

(** ** The log of commands *)

(** [runproc]: the time and the result of [system], or their errors, are
    parameters. *)
Definition runproc (time system : Z + Z) (cmd : bytes) : Prog lib (Z + Z) :=
  match time, system with
  | inr e, _ | inl _, inr e => pret (inr e)
  | inl t, inl _ => adddata (t, cmd)
  end.

(** [showhistory]: what is printed; [None] is "No history". *)
Fixpoint show_loop (fuel : nat) (key : Z) (out : list data_t) : Prog lib (list data_t) :=
  match fuel with
  | O => die "fuel"
  | S fuel =>
      do r <- getdata key;
      match r with
      | inl (Some d) => show_loop fuel key (out ++ [d])
      | _ => pret out
      end
  end.

Definition showhistory (junk : nat -> trav) : Prog lib (option (list data_t)) :=
  do r <- accessdata junk;
  match r with
  | inr _ => pret None
  | inl key =>
      do n <- get (fun s => length (nodes s));
      do out <- show_loop (n + 2) key [];
      pret (Some out)
  end.

(** ** The list without memory *)

(** The items, the size of the table, for a key in use the number of the
    next item, or [None] at the end, and the keys of enlarged parts of the
    table that were never handed out: nothing is known of their entries. *)
Record alist := mkAl { a_items : list data_t; a_size : Z; a_pos : gmap Z (option nat); a_unset : gset Z }.

Definition alist0 : alist := mkAl [] 0 ∅ ∅.

Inductive op := Add (d : data_t) | Access (junk : nat -> trav) | Get (key : Z) | Free (key : Z).

Inductive result := RInt (r : Z) | RData (d : option data_t) | RErr (e : Z).

(** A key that a new traversal need not get. *)
Definition taken (a : alist) (k : Z) : Prop := is_Some (a_pos a !! k) \/ k ∈ a_unset a.

(** Key [k] gets the position [x], and is set from then on. *)
Definition set_key (k : Z) (x : option (option nat)) (a : alist) : alist :=
  mkAl (a_items a) (a_size a) (partial_alter (fun _ => x) k (a_pos a)) (a_unset a ∖ {[k]}).

Definition out_of_table (k : Z) (a : alist) : bool := (k <? 0) || (a_size a <=? k).

(** The next position of a traversal. *)
Definition after (p : nat) (a : alist) : option nat := if bool_decide (S p < length (a_items a))%nat then Some (S p) else None.

(** What each call returns and does.  A new traversal gets a key that is
    not in use, and no smaller one is certain to be free; when all keys of
    the table are taken, it is enlarged. *)
Inductive a_op : op -> alist -> result -> alist -> Prop :=
| a_add d a : a_op (Add d) a (RInt 0) (mkAl (a_items a ++ [(d.1, cstr d.2)]) (a_size a) (a_pos a) (a_unset a))
| a_access_empty junk a : a_items a = [] -> a_op (Access junk) a (RErr EINVAL) a
| a_access_first junk a :
    a_items a <> [] -> a_size a = 0 ->
    a_op (Access junk) a (RInt 0) (set_key 0 (Some (Some 0%nat)) (mkAl (a_items a) TRAV_INIT_SIZE (a_pos a) (a_unset a)))
| a_access_slot junk k a :
    a_items a <> [] -> 0 <= k < a_size a -> a_pos a !! k = None -> (forall j, 0 <= j < k -> taken a j) ->
    a_op (Access junk) a (RInt k) (set_key k (Some (Some 0%nat)) a)
| a_access_grow junk a :
    a_items a <> [] -> a_size a <> 0 -> (forall j, 0 <= j < a_size a -> taken a j) ->
    a_op (Access junk) a (RInt (a_size a))
      (set_key (a_size a) (Some (Some 0%nat)) (mkAl (a_items a) (2 * a_size a) (a_pos a) (a_unset a ∪ list_to_set (seqZ (a_size a) (a_size a)))))
| a_get_free k a : a_pos a !! k = None -> k ∉ a_unset a -> a_op (Get k) a (RErr EINVAL) a
| a_get_end k a : a_pos a !! k = Some None -> a_op (Get k) a (RData None) (set_key k None a)
| a_get_item k p d a : a_pos a !! k = Some (Some p) -> a_items a !! p = Some d -> a_op (Get k) a (RData (Some d)) (set_key k (Some (after p a)) a)
| a_free_bad k a : out_of_table k a = true -> a_op (Free k) a (RErr EINVAL) a
| a_free k a : out_of_table k a = false -> a_op (Free k) a (RInt 0) (set_key k None a).

(** The calls that need memory. *)
Definition allocates (o : op) (a : alist) : Prop :=
  match o with
  | Add _ => True
  | Access _ => a_items a <> [] /\ forall j, 0 <= j < a_size a -> taken a j
  | Get k => exists p, a_pos a !! k = Some (Some p)
  | Free _ => False
  end.

Definition of_sum (r : Z + Z) : result := match r with inl v => RInt v | inr e => RErr e end.

Definition c_op (o : op) : Prog lib result :=
  match o with
  | Add d => do r <- adddata d; pret (of_sum r)
  | Access junk => do r <- accessdata junk; pret (of_sum r)
  | Get k => do r <- getdata k; pret (match r with inl d => RData d | inr e => RErr e end)
  | Free k => do r <- freekey k; pret (of_sum r)
  end.

(** Operations one after the other; in the list an operation that needs
    memory can fail for want of it, and then nothing changes. *)
Fixpoint c_run (ops : list op) : Prog lib (list result) :=
  match ops with
  | [] => pret []
  | o :: ops => do r <- c_op o; do rs <- c_run ops; pret (r :: rs)
  end.

Inductive a_run : list op -> alist -> list result -> alist -> Prop :=
| run_nil a : a_run [] a [] a
| run_op o ops a a1 a2 r rs : a_op o a r a1 -> a_run ops a1 rs a2 -> a_run (o :: ops) a (r :: rs) a2
| run_fail o ops a a2 rs : allocates o a -> a_run ops a rs a2 -> a_run (o :: ops) a (RErr ENOMEM :: rs) a2.

(** ** The relation *)
Definition node_at (items : list data_t) (i : nat) (d : data_t) : list_t := mkNode d (if bool_decide (S i < length items)%nat then Some (S i) else None).

Definition trav_ok (items : list data_t) (t : trav) (pos : option (option nat)) : Prop :=
  match t with
  | TNull => pos = None
  | TEnd => pos = Some None
  | TNode p => pos = Some (Some p) /\ (p < length items)%nat
  | TWild => False
  end.

Record rep (s : lib) (a : alist) : Prop := mkRep {
  rep_nodes : nodes s = imap (node_at (a_items a)) (a_items a);
  rep_head : headptr s = match a_items a with [] => None | _ => Some 0%nat end;
  rep_tail : a_items a <> [] -> tailptr s = Some (length (a_items a) - 1)%nat;
  rep_size : travptrs_size s = a_size a;
  rep_len : zlen (travptrs s) = a_size a;
  rep_trav : forall i t, travptrs s !! i = Some t -> Z.of_nat i ∉ a_unset a -> trav_ok (a_items a) t (a_pos a !! Z.of_nat i);
  rep_dom : forall k, is_Some (a_pos a !! k) -> 0 <= k < a_size a;
  rep_unset : forall k, k ∈ a_unset a -> a_pos a !! k = None
}.

Lemma rep0 f : rep (lib0 f) alist0.
Proof. constructor; try done. intros k. cbn. rewrite lookup_empty. by intros []. Qed.

(** Memory that is used up does not matter. *)
Lemma rep_fails s a f : rep s a -> rep (mkLib (nodes s) (headptr s) (tailptr s) (travptrs s) (travptrs_size s) f) a.
Proof. intros []. by constructor. Qed.

Lemma no_memory_run s : exists b f, no_memory s = Ok b (mkLib (nodes s) (headptr s) (tailptr s) (travptrs s) (travptrs_size s) f) /\ (b = true -> true ∈ fails s) /\ (forall x, x ∈ f -> x ∈ fails s).
Proof.
  unfold no_memory. pstep. eexists _, _. split; [done|]. destruct (fails s) as [|b f]; [done|]. split; [intros ->; by constructor|]. intros x Hx. by constructor.
Qed.

(** A slot gets a new value. *)
Lemma rep_slot s a i t x :
  rep s a -> (i < length (travptrs s))%nat -> trav_ok (a_items a) t x -> rep (set_trav (<[i := t]> (travptrs s)) s) (set_key (Z.of_nat i) x a).
Proof.
  intros [H1 H2 H3 H4 H5 H6 H7 H8] Hi Ht. constructor; cbn [nodes headptr tailptr travptrs travptrs_size set_trav set_key a_items a_size a_pos a_unset]; try done.
  - unfold zlen in *. by rewrite length_insert.
  - intros j u Hj Hn. apply list_lookup_insert_Some in Hj as [(<- & <- & _)|[Hne Hj]]; [by rewrite lookup_partial_alter_eq|]. rewrite lookup_partial_alter_ne by lia. apply H6; [done|].
    intros Hx. apply Hn, elem_of_difference. split; [done|]. rewrite elem_of_singleton. lia.
  - intros k. destruct (decide (k = Z.of_nat i)) as [->|Hne]; [unfold zlen in H5; lia|]. rewrite lookup_partial_alter_ne by done. apply H7.
  - intros k [Hk Hne]%elem_of_difference. rewrite elem_of_singleton in Hne. rewrite lookup_partial_alter_ne by done. by apply H8.
Qed.

(** An entry that is not null belongs to a key that is taken. *)
Lemma slot_taken s a i t : rep s a -> travptrs s !! i = Some t -> t <> TNull -> taken a (Z.of_nat i).
Proof.
  intros Hr Ht Hn. destruct (decide (Z.of_nat i ∈ a_unset a)) as [Hu|Hu]; [by right|]. left. pose proof (rep_trav _ _ Hr i t Ht Hu) as Hok.
  destruct t; cbn in Hok; [done|by eexists|destruct Hok; by eexists|done].
Qed.

(** The first free slot. *)
Lemma free_slot_key s a : rep s a ->
  match free_slot (travptrs s) with
  | Some i => (i < length (travptrs s))%nat /\ a_pos a !! Z.of_nat i = None /\ forall j, 0 <= j < Z.of_nat i -> taken a j
  | None => forall j, 0 <= j < a_size a -> taken a j
  end.
Proof.
  intros Hr. assert (length (travptrs s) = Z.to_nat (a_size a)) as Hl by (rewrite <- (rep_len _ _ Hr); by rewrite to_nat_zlen).
  assert (forall j, 0 <= j -> j < a_size a -> exists u, travptrs s !! Z.to_nat j = Some u) as Hlk by (intros j H1 H2; apply lookup_lt_is_Some_2; lia).
  unfold free_slot. destruct (list_find _ (travptrs s)) as [[i t]|] eqn:E; cbn.
  - apply list_find_Some in E as (Hi & -> & Hmin). pose proof (lookup_lt_Some _ _ _ Hi) as Hlt. split; [done|]. split.
    + destruct (decide (Z.of_nat i ∈ a_unset a)) as [Hu|Hu]; [by apply (rep_unset _ _ Hr)|exact (rep_trav _ _ Hr i TNull Hi Hu)].
    + intros j Hj. destruct (Hlk j) as [u Hu]; [lia..|]. rewrite <- (Z2Nat.id j) by lia. eapply slot_taken; [done..|]. apply (Hmin _ _ Hu). lia.
  - apply list_find_None in E. rewrite Forall_forall in E. intros j Hj. destruct (Hlk j) as [u Hu]; [lia..|]. rewrite <- (Z2Nat.id j) by lia.
    eapply slot_taken; [done..|]. apply E. by eapply list_elem_of_lookup_2.
Qed.

(** ** The operations *)
Definition refines (m : Prog lib result) (o : op) (s : lib) (a : alist) : Prop :=
  exists r s', m s = Ok r s' /\ (forall x, x ∈ fails s' -> x ∈ fails s) /\
    ((r = RErr ENOMEM /\ true ∈ fails s /\ allocates o a /\ rep s' a) \/ exists a', a_op o a r a' /\ rep s' a').

Lemma nodes_app items d : imap (node_at (items ++ [d])) (items ++ [d]) = imap (fun i x => mkNode x (Some (S i))) items ++ [mkNode d None].
Proof.
  rewrite imap_app. f_equal.
  - apply imap_ext. intros i x Hi. apply lookup_lt_Some in Hi. unfold node_at. by rewrite bool_decide_eq_true_2 by (rewrite length_app; simpl; lia).
  - cbn. unfold node_at. by rewrite bool_decide_eq_false_2 by (rewrite length_app; simpl; lia).
Qed.

Lemma rep_add items : imap (node_at items) items = match items with [] => [] | _ => imap (fun i x => mkNode x (Some (S i))) (take (length items - 1) items) ++ (default [] ((fun d => [mkNode d None]) <$> last items)) end.
Proof.
  destruct items as [|d items _] using rev_ind; [done|]. rewrite nodes_app, last_snoc. destruct (items ++ [d]) eqn:E; [by destruct items|]. rewrite <- E. rewrite length_app. simpl. replace (length items + 1 - 1)%nat with (length items) by lia. by rewrite take_app_length.
Qed.

Lemma adddata_refines d s a : rep s a -> refines (c_op (Add d)) (Add d) s a.
Proof.
  intros Hr. unfold refines, c_op, adddata. pstep. destruct (no_memory_run s) as (b & f & E & Hb & Hf). rewrite (pbind_ok _ _ _ _ _ E). pose proof (rep_fails s a f Hr) as Hr1. destruct b.
  { eexists _, _. split; [done|]. split; [done|]. left. split_and!; auto. done. }
  pstep. cbn [nodes headptr tailptr travptrs travptrs_size fails]. rewrite (rep_head _ _ Hr). set (it := (d.1, cstr d.2)).
  assert (forall ns, ns = imap (node_at (a_items a ++ [it])) (a_items a ++ [it]) -> rep (mkLib ns (Some 0%nat) (Some (length (nodes s))) (travptrs s) (travptrs_size s) f) (mkAl (a_items a ++ [it]) (a_size a) (a_pos a) (a_unset a))) as Hrep.
  { intros ns ->. constructor; cbn [nodes headptr tailptr travptrs travptrs_size a_items a_size a_pos]; [done| | | | | | |]; try apply Hr.
    - by destruct (a_items a).
    - intros _. rewrite (rep_nodes _ _ Hr), length_imap, length_app. simpl. f_equal. lia.
    - intros i t Ht Hu. pose proof (rep_trav _ _ Hr i t Ht Hu) as Hok. unfold trav_ok in *. rewrite length_app. destruct t; try done. destruct Hok. split; [done|lia]. }
  destruct (a_items a) as [|x items] eqn:Ei.
  - pstep. eexists _, _. split; [done|]. split; [done|]. right. eexists. split; [apply a_add|]. rewrite Ei. cbn [nodes headptr tailptr travptrs travptrs_size fails].
    assert (nodes s = []) as Hn by (rewrite (rep_nodes _ _ Hr), Ei; done). rewrite Hn. specialize (Hrep [mkNode it None] eq_refl). rewrite Hn in Hrep. exact Hrep.
  - pstep. cbn [nodes headptr tailptr travptrs travptrs_size fails]. rewrite (rep_tail _ _ Hr) by (by rewrite Ei). rewrite Ei. cbn [mbind option_bind].
    assert (nodes s = imap (fun i y => mkNode y (Some (S i))) (take (length (x :: items) - 1) (x :: items)) ++ default [] ((fun y => [mkNode y None]) <$> last (x :: items))) as Hn by (by rewrite (rep_nodes _ _ Hr), Ei, rep_add).
    destruct (last (x :: items)) as [y|] eqn:El; [|by apply last_None in El]. cbn [fmap option_fmap option_map default from_option id] in Hn. set (pre := imap _ _) in Hn. assert (length pre = (length (x :: items) - 1)%nat) as Hp by (unfold pre; rewrite length_imap, length_take; lia).
    rewrite Hn, <- Hp, <- app_assoc. cbn [app]. rewrite list_lookup_middle by done. pstep. eexists _, _. split; [done|]. split; [done|]. right. eexists. split; [apply a_add|]. rewrite Ei. cbn [nodes headptr tailptr travptrs travptrs_size fails item default].
    unfold id.     rewrite insert_app_r_alt by lia. rewrite Nat.sub_diag. cbn [insert list_insert]. rewrite Hn in Hrep. apply Hrep. rewrite nodes_app.
    assert (x :: items = take (length (x :: items) - 1) (x :: items) ++ [y]) as Exy by (apply last_Some in El as [l' El]; rewrite El, length_app; simpl; replace (length l' + 1 - 1)%nat with (length l') by lia; by rewrite take_app_length).
    assert (imap (fun i y => mkNode y (Some (S i))) (x :: items) = pre ++ [mkNode y (Some (S (length pre)))]) as -> by (rewrite Exy at 1; rewrite imap_app; cbn [imap]; rewrite length_take, Hp; do 4 f_equal; simpl; lia).
    rewrite <- app_assoc. cbn [app]. do 4 f_equal. rewrite length_app. simpl. lia.
Qed.

(** The table is enlarged. *)
Lemma rep_grow s a junk f :
  rep s a -> let n := Z.to_nat (a_size a) in
  rep (mkLib (nodes s) (headptr s) (tailptr s) (travptrs s ++ (junk <$> seq n n)) (2 * a_size a) f)
    (mkAl (a_items a) (2 * a_size a) (a_pos a) (a_unset a ∪ list_to_set (seqZ (a_size a) (a_size a)))).
Proof.
  intros Hr n. pose proof (rep_len _ _ Hr) as Hlen. assert (0 <= a_size a) by (rewrite <- Hlen; apply zlen_nonneg). assert (length (travptrs s) = n) as Hn by (unfold n, zlen in *; lia).
  constructor; cbn [nodes headptr tailptr travptrs travptrs_size a_items a_size a_pos a_unset]; try apply Hr; try done.
  - unfold zlen. rewrite length_app, length_fmap, length_seq. lia.
  - intros i t Ht Hu. apply lookup_app_Some in Ht as [Ht|[Hge Ht]]; [apply (rep_trav _ _ Hr); set_solver|]. exfalso. apply Hu. apply elem_of_union_r, elem_of_list_to_set, elem_of_seqZ.
    apply lookup_lt_Some in Ht. rewrite length_fmap, length_seq in Ht. lia.
  - intros k Hd. apply (rep_dom _ _ Hr) in Hd. lia.
  - intros k [Hk|Hk]%elem_of_union; [by apply (rep_unset _ _ Hr)|]. apply elem_of_list_to_set, elem_of_seqZ in Hk. apply eq_None_not_Some. intros Hd. apply (rep_dom _ _ Hr) in Hd. lia.
Qed.

(** The first table. *)
Lemma rep_first s a f :
  rep s a -> a_size a = 0 ->
  rep (mkLib (nodes s) (headptr s) (tailptr s) (replicate 8 TNull) TRAV_INIT_SIZE f) (mkAl (a_items a) TRAV_INIT_SIZE (a_pos a) (a_unset a)).
Proof.
  intros Hr E0. assert (a_pos a = ∅) as Hp by (apply map_eq; intros k; rewrite lookup_empty; apply eq_None_not_Some; intros Hk; apply (rep_dom _ _ Hr) in Hk; lia). rewrite Hp.
  constructor; cbn [nodes headptr tailptr travptrs travptrs_size a_items a_size a_pos]; try apply Hr; try done.
  - intros i t Ht _. by apply lookup_replicate in Ht as [-> _].
  - intros k. rewrite lookup_empty. by intros [].
Qed.

Lemma accessdata_refines junk s a : rep s a -> refines (c_op (Access junk)) (Access junk) s a.
Proof.
  intros Hr. unfold refines, c_op, accessdata. pstep. rewrite (rep_head _ _ Hr). destruct (decide (a_items a = [])) as [Ei|Ei].
  { rewrite Ei. eexists _, _. split; [done|]. split; [done|]. right. exists a. split; [by constructor|done]. }
  assert (match a_items a with [] => None | _ => Some 0%nat end = Some 0%nat) as -> by (by destruct (a_items a)).
  pstep. rewrite (rep_size _ _ Hr). destruct (no_memory_run s) as (b & f & E & Hb & Hf). pose proof (rep_fails s a f Hr) as Hr1. pose proof (rep_len _ _ Hr) as Hlen.
  assert (trav_ok (a_items a) (TNode 0) (Some (Some 0%nat))) as Hnode by (split; [done|]; destruct (a_items a); [done|simpl; lia]). destruct (Z.eqb_spec (a_size a) 0) as [E0|E0].
  - pstep. rewrite (pbind_ok _ _ _ _ _ E). destruct b; [eexists _, _; split; [done|]; split; [done|]; left; split; [done|]; split; [auto|]; split; [split; [done|intros; lia]|done]|].
    pstep. eexists _, _. split; [done|]. split; [done|]. right. eexists. split; [by apply a_access_first|]. cbn [nodes headptr tailptr travptrs fails].
    apply (rep_slot _ _ 0 (TNode 0) (Some (Some 0%nat)) (rep_first s a f Hr E0)); [cbn; lia|done].
  - pstep. pose proof (free_slot_key s a Hr) as Hk. destruct (free_slot (travptrs s)) as [i|].
    + destruct Hk as (Hi & Hp & Hk). pstep. eexists _, _. split; [done|]. split; [done|]. right. eexists. split; [|by apply (rep_slot s a i (TNode 0) (Some (Some 0%nat)))].
      apply a_access_slot; [done| |done|done]. unfold zlen in Hlen. lia.
    + pstep. rewrite (pbind_ok _ _ _ _ _ E). destruct b; [eexists _, _; split; [done|]; split; [done|]; left; split; [done|]; split; [auto|]; split; [by split|done]|].
      pstep. eexists _, _. split; [done|]. split; [done|]. right. eexists. cbn [of_sum]. replace (2 * a_size a / 2) with (a_size a) by (rewrite Z.mul_comm, Z.div_mul; lia). split; [by apply a_access_grow|].
      cbn [nodes headptr tailptr travptrs fails]. assert (0 <= a_size a) by (rewrite <- Hlen; apply zlen_nonneg).
      pose proof (rep_slot _ _ (Z.to_nat (a_size a)) (TNode 0) (Some (Some 0%nat)) (rep_grow s a junk f Hr)) as Hs. rewrite Z2Nat.id in Hs by done. apply Hs; [|done].
      cbn [travptrs]. rewrite length_app, length_fmap, length_seq. unfold zlen in Hlen. lia.
Qed.

Lemma getdata_refines k s a : rep s a -> k ∉ a_unset a -> refines (c_op (Get k)) (Get k) s a.
Proof.
  intros Hr Hu. unfold refines, c_op, getdata. pstep. rewrite (rep_size _ _ Hr). destruct ((k <? 0) || (a_size a <=? k)) eqn:Ek.
  { eexists _, _. split; [done|]. split; [done|]. right. exists a. split; [|done]. apply a_get_free; [|done]. destruct (a_pos a !! k) eqn:Ep; [|done]. pose proof (rep_dom _ _ Hr k ltac:(by eexists)). lia. }
  apply orb_false_iff in Ek as [Ek1 Ek2]. zbool. pose proof (rep_len _ _ Hr) as Hlen. destruct (lookup_lt_is_Some_2 (travptrs s) (Z.to_nat k)) as [t Ht]; [unfold zlen in Hlen; lia|]. rewrite Ht. pose proof (lookup_lt_Some _ _ _ Ht) as Hlt0.
  pose proof (rep_trav _ _ Hr _ _ Ht) as Hok. rewrite Z2Nat.id in Hok by lia. specialize (Hok Hu). destruct t as [| |p|]; cbn [trav_ok] in Hok; [| | |done].
  - eexists _, _. split; [done|]. split; [done|]. right. exists a. split; [by constructor|done].
  - pstep. eexists _, _. split; [done|]. split; [done|]. right. eexists. split; [by apply a_get_end|]. pose proof (rep_slot s a (Z.to_nat k) TNull None Hr Hlt0 eq_refl) as Hs. rewrite Z2Nat.id in Hs by lia. exact Hs.
  - destruct Hok as [Hp Hlt]. rewrite (rep_nodes _ _ Hr), list_lookup_imap. destruct (lookup_lt_is_Some_2 (a_items a) p Hlt) as [d Hd]. rewrite Hd. cbn [fmap option_fmap option_map]. pstep. destruct (no_memory_run s) as (b & f & E & Hb & Hf). rewrite (pbind_ok _ _ _ _ _ E). pose proof (rep_fails s a f Hr) as Hr1.
    destruct b; [eexists _, _; split; [done|]; split; [done|]; left; split; [done|]; split; [auto|]; split; [by exists p|done]|]. pstep. eexists _, _. split; [done|]. split; [done|]. right. eexists. split; [by apply (a_get_item k p d)|].
    pose proof (rep_slot _ a (Z.to_nat k) (match next (node_at (a_items a) p d) with None => TEnd | Some q => TNode q end) (Some (after p a)) Hr1 Hlt0) as Hs. rewrite Z2Nat.id in Hs by lia. apply Hs.
    unfold node_at, after. cbn [next]. case_bool_decide; [by split|done].
Qed.

Lemma freekey_refines k s a : rep s a -> refines (c_op (Free k)) (Free k) s a.
Proof.
  intros Hr. unfold refines, c_op, freekey. pstep. rewrite (rep_size _ _ Hr). destruct ((k <? 0) || (a_size a <=? k)) eqn:Ek.
  { eexists _, _. split; [done|]. split; [done|]. right. exists a. split; [by constructor|done]. }
  assert (out_of_table k a = false) as Ho by exact Ek. apply orb_false_iff in Ek as [Ek1 Ek2]. zbool. pose proof (rep_len _ _ Hr) as Hlen. unfold zlen in Hlen. rewrite bool_decide_eq_false_2 by lia. pstep. eexists _, _. split; [done|]. split; [done|]. right. eexists. split; [by apply a_free|].
  pose proof (rep_slot s a (Z.to_nat k) TNull None Hr ltac:(lia) eq_refl) as Hs. rewrite Z2Nat.id in Hs by lia. exact Hs.
Qed.

(** The call asks for the item of a key that was never set. *)
Definition gets_unset (o : op) (a : alist) : Prop := match o with Get k => k ∈ a_unset a | _ => False end.

Lemma list_op_refines o s a : rep s a -> gets_unset o a \/ refines (c_op o) o s a.
Proof.
  intros Hr. destruct o as [d|junk|k|k]; [right; by apply adddata_refines|right; by apply accessdata_refines| |right; by apply freekey_refines].
  destruct (decide (k ∈ a_unset a)) as [Hu|Hu]; [by left|right; by apply getdata_refines].
Qed.

(** No call fails for want of memory when there is enough. *)
Definition enough (f : list bool) (rs : list result) : Prop := (true ∉ f) -> RErr ENOMEM ∉ rs.

Lemma a_op_memory o a r a' : a_op o a r a' -> r <> RErr ENOMEM.
Proof. by destruct 1. Qed.

Definition runs_to (ops : list op) (s : lib) (a : alist) (a' : alist) (rs : list result) : Prop :=
  exists s', c_run ops s = Ok rs s' /\ a_run ops a rs a' /\ rep s' a' /\ enough (fails s) rs.

Lemma runs_cons o ops s a a' r rs s1 a1 :
  c_op o s = Ok r s1 -> (forall x, x ∈ fails s1 -> x ∈ fails s) ->
  (r = RErr ENOMEM /\ true ∈ fails s /\ allocates o a /\ a1 = a) \/ a_op o a r a1 ->
  runs_to ops s1 a1 a' rs -> runs_to (o :: ops) s a a' (r :: rs).
Proof.
  intros E Hf Hc (s' & E' & Ha & Hr & Hm). exists s'. cbn [c_run]. rewrite (pbind_ok _ _ _ _ _ E), (pbind_ok _ _ _ _ _ E'). split; [done|]. split.
  - destruct Hc as [(-> & _ & Hal & ->)|Ho]; [by constructor|by econstructor].
  - split; [done|]. intros Hn. apply not_elem_of_cons. split; [|apply Hm; auto]. destruct Hc as [(_ & Ht & _)|Ho]; [done|]. intros <-. by apply a_op_memory in Ho.
Qed.

Lemma list_run ops : forall s a, rep s a ->
  (exists a' rs, runs_to ops s a a' rs) \/
  (exists ops1 k ops2 a' rs, ops = ops1 ++ Get k :: ops2 /\ runs_to ops1 s a a' rs /\ k ∈ a_unset a').
Proof.
  induction ops as [|o ops IH]; intros s a Hr; [left; exists a, [], s; split; [done|]; split; [constructor|]; split; [done|intros _; apply not_elem_of_nil]|].
  destruct (list_op_refines o s a Hr) as [Hu|(r & s1 & E & Hf & Hc)].
  { right. destruct o as [| |k|]; try done. exists [], k, ops, a, []. split; [done|]. split; [|done]. exists s. split; [done|]. split; [constructor|]. split; [done|]. intros _. apply not_elem_of_nil. }
  assert (exists a1, rep s1 a1 /\ ((r = RErr ENOMEM /\ true ∈ fails s /\ allocates o a /\ a1 = a) \/ a_op o a r a1)) as (a1 & Hr1 & Hc1).
  { destruct Hc as [(Hr0 & Ht & Hal & Hr1)|(a1 & Ho & Hr1)]; [exists a; split; [done|by left]|exists a1; split; [done|by right]]. }
  destruct (IH s1 a1 Hr1) as [(a' & rs & H)|(ops1 & k & ops2 & a' & rs & -> & H & Hk)]; [left|right].
  - exists a', (r :: rs). by eapply runs_cons.
  - exists (o :: ops1), k, ops2, a', (r :: rs). split; [done|]. split; [by eapply runs_cons|done].
Qed.

(** ** Keys that were handed out *)

(** A key that is set remains so. *)
Definition is_set (k : Z) (a : alist) : Prop := k < a_size a /\ k ∉ a_unset a.

Lemma op_set o a r a' k : 0 <= a_size a -> a_op o a r a' -> 0 <= a_size a' /\ (is_set k a -> is_set k a').
Proof.
  intros Hs H. unfold is_set. destruct H; cbn [set_key a_size a_unset a_items]; (split; [unfold TRAV_INIT_SIZE; lia|]); intros [Hk1 Hk2]; (split; [unfold TRAV_INIT_SIZE; lia|]); try done; try set_solver.
  intros [[Hk|Hk]%elem_of_union _]%elem_of_difference; [done|]. apply elem_of_list_to_set, elem_of_seqZ in Hk. lia.
Qed.

Lemma run_set ops a rs a' k : a_run ops a rs a' -> 0 <= a_size a -> is_set k a -> is_set k a'.
Proof.
  induction 1 as [|o ops a a1 a2 r rs Ho Hr IH|o ops a a2 rs Hal Hr IH]; intros Hs Hk; [done| |by apply IH]. destruct (op_set o a r a1 k Hs Ho) as [Hs1 Hk1]. by apply IH, Hk1.
Qed.

Lemma access_set junk a k a' : 0 <= a_size a -> a_op (Access junk) a (RInt k) a' -> is_set k a'.
Proof.
  intros Hs H. unfold is_set. inversion H; subst; cbn [set_key a_size a_unset a_items]; (split; [unfold TRAV_INIT_SIZE; lia|]); set_solver.
Qed.

(** [k] was returned by one of the calls of [accessdata]. *)
Definition handed_out (ops : list op) (rs : list result) (k : Z) : Prop := exists i junk, ops !! i = Some (Access junk) /\ rs !! i = Some (RInt k).

Lemma handed_out_set ops a rs a' k : a_run ops a rs a' -> 0 <= a_size a -> handed_out ops rs k -> is_set k a'.
Proof.
  induction 1 as [|o ops a a1 a2 r rs Ho Hr IH|o ops a a2 rs Hal Hr IH]; intros Hs ([|i] & junk & Hi & Hj); try done; cbn in Hi, Hj.
  - simplify_eq. pose proof (access_set _ _ _ _ Hs Ho) as Hk. destruct (op_set _ _ _ _ k Hs Ho) as [Hs1 _]. by eapply run_set.
  - destruct (op_set _ _ _ _ k Hs Ho) as [Hs1 _]. apply IH; [done|]. by exists i, junk.
  - apply IH; [done|]. by exists i, junk.
Qed.

(** ** One traversal *)
Lemma pos_set s a k x : rep s a -> a_pos a !! k = Some x -> k ∉ a_unset a.
Proof. intros Hr Hp Hu. apply (rep_unset _ _ Hr) in Hu. congruence. Qed.

Lemma get_item k s a p : rep s a -> (true ∉ fails s) -> a_pos a !! k = Some (Some p) ->
  exists d s', a_items a !! p = Some d /\ getdata k s = Ok (inl (Some d)) s' /\ (true ∉ fails s') /\ rep s' (set_key k (Some (after p a)) a).
Proof.
  intros Hr Hm Hp. destruct (getdata_refines k s a Hr (pos_set _ _ _ _ Hr Hp)) as (r & s' & E & Hf & [(_ & Ht & _)|(a' & Ea & Hr')]); [done|].
  unfold c_op, pbind in E. destruct (getdata k s) as [x s1|] eqn:Eg; [|done]. injection E as E ->. inversion Ea; simplify_eq. destruct x as [[?|]|?]; simplify_eq. eexists _, _. split; [done|]. split; [done|]. auto.
Qed.

Lemma get_end k s a : rep s a -> a_pos a !! k = Some None -> (true ∉ fails s) -> exists s', getdata k s = Ok (inl None) s' /\ rep s' (set_key k None a) /\ (true ∉ fails s').
Proof.
  intros Hr Hp Hm. destruct (getdata_refines k s a Hr (pos_set _ _ _ _ Hr Hp)) as (r & s' & E & Hf & [(_ & Ht & _)|(a' & Ea & Hr')]); [done|].
  unfold c_op, pbind in E. destruct (getdata k s) as [x s1|] eqn:Eg; [|done]. injection E as E ->. inversion Ea; simplify_eq. destruct x as [[?|]|?]; simplify_eq. eexists. split; [done|]. auto.
Qed.

Lemma set_key_twice k x y a : set_key k y (set_key k x a) = set_key k y a.
Proof. unfold set_key. cbn. f_equal; [apply map_eq; intros j; destruct (decide (j = k)) as [->|]; by rewrite ?lookup_partial_alter_eq, ?lookup_partial_alter_ne by done|set_solver]. Qed.

Lemma show_run m : forall k s a p out fuel, rep s a -> (true ∉ fails s) -> a_pos a !! k = Some (Some p) -> length (a_items a) = (p + S m)%nat -> (m + 2 <= fuel)%nat ->
  exists s', show_loop fuel k out s = Ok (out ++ drop p (a_items a)) s' /\ rep s' (set_key k None a) /\ (true ∉ fails s').
Proof.
  induction m as [|m IH]; intros k s a p out fuel Hr Hm Hp Hl Hfuel; (destruct fuel as [|fuel]; [lia|]); cbn [show_loop]; destruct (get_item k s a p Hr Hm Hp) as (d & s1 & Hd & E & Hm1 & Hr1); rewrite (pbind_ok _ _ _ _ _ E), (drop_S _ _ _ Hd); unfold after in Hr1.
  - rewrite bool_decide_eq_false_2 in Hr1 by lia. destruct (get_end k s1 _ Hr1) as (s2 & E2 & Hr2 & Hm2); [cbn; apply lookup_partial_alter_eq|done|]. destruct fuel as [|fuel]; [lia|]. cbn [show_loop]. rewrite (pbind_ok _ _ _ _ _ E2). rewrite drop_ge by lia. exists s2. split; [done|]. split; [|done]. by rewrite set_key_twice in Hr2.
  - rewrite bool_decide_eq_true_2 in Hr1 by lia. destruct (IH k s1 _ (S p) (out ++ [d]) fuel Hr1 Hm1) as (s2 & E2 & Hr2 & Hm2); [cbn; apply lookup_partial_alter_eq|cbn; lia|lia|]. rewrite set_key_twice in Hr2. exists s2. split; [|done]. rewrite E2. cbn. by rewrite <- app_assoc.
Qed.

(** No traversal is under way, and the table was not enlarged. *)
Definition quiet (a : alist) : Prop := a_pos a = ∅ /\ a_unset a = ∅ /\ 0 <= a_size a <= TRAV_INIT_SIZE.

Lemma access_quiet junk a r a' : quiet a -> a_items a <> [] -> a_op (Access junk) a r a' ->
  r = RInt 0 /\ a_pos a' !! 0 = Some (Some 0%nat) /\ a_items a' = a_items a /\ quiet (set_key 0 None a').
Proof.
  intros (Hp & Hu & Hs) Hi H. assert (forall j, ~ taken a j) as Hnt by (intros j [Hj|Hj]; [rewrite Hp, lookup_empty in Hj; by destruct Hj|set_solver]).
  assert (forall b, a_pos b = ∅ -> a_unset b = ∅ -> a_items b = a_items a -> 0 <= a_size b <= TRAV_INIT_SIZE ->
    a_pos (set_key 0 (Some (Some 0%nat)) b) !! 0 = Some (Some 0%nat) /\ a_items (set_key 0 (Some (Some 0%nat)) b) = a_items a /\ quiet (set_key 0 None (set_key 0 (Some (Some 0%nat)) b))) as Hset.
  { intros b Hbp Hbu Hbi Hbs. split; [apply lookup_partial_alter_eq|]. split; [done|]. rewrite set_key_twice. unfold quiet, set_key. cbn. rewrite Hbp, Hbu. split; [|split; [set_solver|done]].
    apply map_eq. intros j. rewrite lookup_empty. destruct (decide (j = 0)) as [->|]; by rewrite ?lookup_partial_alter_eq, ?lookup_partial_alter_ne by done. }
  inversion H as [| |? ? Hne E0|? k ? Hne Hk Hpk Ht|? ? Hne E0 Ht| | | | |]; subst; [done| | |].
  - split; [done|]. by apply Hset.
  - assert (k = 0) as -> by (destruct (decide (k = 0)); [done|]; destruct (Hnt 0); apply Ht; lia). split; [done|]. by apply Hset.
  - destruct (Hnt 0). apply Ht. lia.
Qed.

(** The history, when no other traversal is under way. *)
Lemma history_run junk s a : rep s a -> (true ∉ fails s) -> a_items a <> [] -> quiet a ->
  exists s' a', showhistory junk s = Ok (Some (a_items a)) s' /\ rep s' a' /\ (true ∉ fails s') /\ a_items a' = a_items a /\ quiet a'.
Proof.
  intros Hr Hm Hne Hq. unfold showhistory. destruct (accessdata_refines junk s a Hr) as (r & s1 & E & Hf & [(_ & Ht & _)|(a1 & Ea & Hr1)]); [done|]. unfold c_op, pbind in E.
  destruct (access_quiet _ _ _ _ Hq Hne Ea) as (-> & Hp & Hi & Hq1).
  destruct (accessdata junk s) as [[v|e] s1'|] eqn:Eg; try done. injection E as -> ->. rewrite (pbind_ok _ _ _ _ _ Eg). pstep. destruct (a_items a1) as [|x items] eqn:Ei; [congruence|].
  destruct (show_run (length items) 0 s1 a1 0 [] (length (nodes s1) + 2) Hr1) as (s2 & E2 & Hr2 & Hm2); [auto|done|by rewrite Ei|rewrite (rep_nodes _ _ Hr1), Ei, length_imap; cbn; lia|].
  rewrite (pbind_ok _ _ _ _ _ E2). rewrite <- Hi, <- Ei. exists s2, (set_key 0 None a1). split; [done|]. split; [exact Hr2|]. split; [done|]. split; [cbn; congruence|done].
Qed.

(** Commands that are run, and the history shown [n] times. *)
Fixpoint run_all (cmds : list data_t) : Prog lib unit :=
  match cmds with
  | [] => pret tt
  | (t, cmd) :: cmds => run runproc (inl t) (inl 0) cmd; run_all cmds
  end.

Fixpoint shows (junk : nat -> trav) (n : nat) : Prog lib (list (option (list data_t))) :=
  match n with
  | O => pret []
  | S n => do h <- showhistory junk; do hs <- shows junk n; pret (h :: hs)
  end.

Definition entry (c : data_t) : data_t := (c.1, cstr c.2).

Lemma run_all_run cmds : forall s a, rep s a -> (true ∉ fails s) -> exists s', run_all cmds s = Ok tt s' /\ (true ∉ fails s') /\ rep s' (mkAl (a_items a ++ (entry <$> cmds)) (a_size a) (a_pos a) (a_unset a)).
Proof.
  induction cmds as [|[t cmd] cmds IH]; intros s a Hr Hm; cbn [run_all]; [exists s; split; [done|]; split; [done|]; cbn; rewrite app_nil_r; by destruct a|].
  destruct (adddata_refines (t, cmd) s a Hr) as (r & s1 & E & Hf & [(_ & Ht & _)|(a1 & Ea & Hr1)]); [done|]. cbn [runproc]. unfold c_op, pbind in E. destruct (adddata (t, cmd) s) as [v s1'|] eqn:Eg; [|done]. injection E as _ ->. rewrite (pbind_ok _ _ _ _ _ Eg). inversion Ea; subst.
  destruct (IH s1 _ Hr1) as (s2 & E2 & Hm2 & Hr2); [auto|]. exists s2. split; [done|]. split; [done|]. cbn in *. by rewrite <- app_assoc in Hr2.
Qed.

Lemma shows_run junk n : forall s a, rep s a -> (true ∉ fails s) -> a_items a <> [] -> quiet a ->
  exists s', shows junk n s = Ok (replicate n (Some (a_items a))) s' /\ travptrs_size s' <= TRAV_INIT_SIZE.
Proof.
  induction n as [|n IH]; intros s a Hr Hm Hne Hq; cbn [shows]; [exists s; split; [done|]; rewrite (rep_size _ _ Hr); apply Hq|].
  destruct (history_run junk s a Hr Hm Hne Hq) as (s1 & a1 & E & Hr1 & Hm1 & Hi & Hq1). rewrite (pbind_ok _ _ _ _ _ E). destruct (IH s1 a1 Hr1 Hm1) as (s2 & E2 & H2); [by rewrite Hi|done|]. rewrite (pbind_ok _ _ _ _ _ E2). exists s2. by rewrite Hi.
Qed.

(** ** The properties *)

(** C39: any sequence of calls of the list library, from its start, with any
    failures of malloc, calloc and realloc and with anything in the new
    memory of realloc, behaves as on a list of items with a position for
    every key: every call returns what that list gives, or, if it needs
    memory and an allocation fails, ENOMEM and changes nothing.  The only
    exception is a [getdata] with a key that [accessdata] never returned, in
    a part of the table that realloc added and that was not set since; up to
    such a call the library behaves as the list. *)
Theorem list_refines ops f :
  (exists rs s a, c_run ops (lib0 f) = Ok rs s /\ a_run ops alist0 rs a /\ rep s a /\ (true ∉ f -> RErr ENOMEM ∉ rs)) \/
  (exists ops1 k ops2 rs s a, ops = ops1 ++ Get k :: ops2 /\ c_run ops1 (lib0 f) = Ok rs s /\ a_run ops1 alist0 rs a /\ rep s a /\ (true ∉ f -> RErr ENOMEM ∉ rs) /\
     k ∈ a_unset a /\ ~ handed_out ops1 rs k).
Proof.
  destruct (list_run ops _ _ (rep0 f)) as [(a & rs & s & H)|(ops1 & k & ops2 & a & rs & -> & (s & E & Ha & Hr & Hm) & Hk)]; [left; by exists rs, s, a|right].
  exists ops1, k, ops2, rs, s, a. split_and!; try done. intros Hh. by destruct (handed_out_set _ _ _ _ _ Ha (Z.le_refl 0) Hh).
Qed.

(** A ninth traversal, with invalid pointers in the new part of the table:
    the keys that were handed out work. *)
Lemma list_example :
  out_val (c_run (Add (1, [97]) :: replicate 9 (Access (fun _ => TWild)) ++ [Add (2, [98]); Get 8; Free 9; Access (fun _ => TWild); Get 8; Get 9; Get 8; Get 8]) (lib0 [])) =
  inl ([RInt 0; RInt 0; RInt 1; RInt 2; RInt 3; RInt 4; RInt 5; RInt 6; RInt 7; RInt 8] ++
       [RInt 0; RData (Some (1, [97])); RInt 0; RInt 9; RData (Some (2, [98])); RData (Some (1, [97])); RData None; RErr EINVAL]).
Proof. by vm_compute. Qed.

(** After any commands were run, the history shows them, with their
    times, in order and each once, however often it is shown, and the table
    of traversals does not grow. *)
Theorem history_complete cmds junk n :
  cmds <> [] ->
  exists s1 s2, run_all cmds (lib0 []) = Ok tt s1 /\ shows junk n s1 = Ok (replicate n (Some (entry <$> cmds))) s2 /\ travptrs_size s2 <= TRAV_INIT_SIZE.
Proof.
  intros Hne. destruct (run_all_run cmds _ _ (rep0 [])) as (s1 & E1 & Hm & Hr); [apply not_elem_of_nil|]. cbn in Hr. destruct (shows_run junk n s1 _ Hr Hm) as (s2 & E2 & Hs); [cbn; by destruct cmds|done|]. by exists s1, s2.
Qed.

Lemma history_complete_witness : exists s1 s2, run_all [(7, lit "ls"); (9, lit "date")] (lib0 []) = Ok tt s1 /\ shows (fun _ => TWild) 20 s1 = Ok (replicate 20 (Some [(7, lit "ls"); (9, lit "date")])) s2 /\ travptrs_size s2 <= TRAV_INIT_SIZE.
Proof. exact (history_complete [(7, lit "ls"); (9, lit "date")] (fun _ => TWild) 20 ltac:(done)). Defined.

(** ** What the code does not do *)

(** With a ninth traversal the table grows; the new entries are not set, and
    the next call with one of their keys follows what happens to be there. *)
Lemma junk_followed : out_val (c_run (Add (1, [97]) :: replicate 9 (Access (fun _ => TWild)) ++ [Get 9]) (lib0 [])) = inr "invalid pointer"%string.
Proof. by vm_compute. Qed.
