(* ===== verification/UspBuf.v ===== *)
(** * Bounded buffers (UNIX_Systems_Programming/chapter16: buffer.c,
      buffercond.c, bufferconddone.c, randproducerdone.c,
      randconsumerdone.c, randpcdone.c)

    The body of a call is what happens with [bufferlock] held, up to a wait;
    producers, consumers and the main thread are interleaved between the
    bodies.  Wakeups may be spurious.  An item is a [Z]: it is only moved. *)
From S2P Require Import Prelude Posix Threads.

Definition BUFSIZE : Z := 8.

Record buf := mkBuf { buffer : list Z; bufin : Z; bufout : Z; totalitems : Z; doneflag : bool }.

Definition buf0 : buf := mkBuf (replicate (Z.to_nat BUFSIZE) 0) 0 0 0 false.

(** [pthread_cond_wait], an error, or the end with an item or without. *)
Inductive body := Waits | Returns (error : Z) | Gets (x : Z) | Puts.

Definition ECANCELED : Z := 125.

(** [*itemp = buffer[bufout]; bufout = ...; totalitems--], and the
    insertion. *)
Definition take_out (b : buf) : option (Z * buf) :=
  (fun x => (x, mkBuf (buffer b) (bufin b) ((bufout b + 1) mod BUFSIZE) (totalitems b - 1) (doneflag b))) <$> buffer b !! Z.to_nat (bufout b).

Definition put_in (x : Z) (b : buf) : option buf :=
  if bool_decide (0 <= bufin b < zlen (buffer b)) then Some (mkBuf (<[Z.to_nat (bufin b) := x]> (buffer b)) ((bufin b + 1) mod BUFSIZE) (bufout b) (totalitems b + 1) (doneflag b)) else None.

(** bufferconddone.c; [None] is an access outside of the array. *)
Definition getitem (b : buf) : option (body * buf) :=
  if (totalitems b <=? 0) && negb (doneflag b) then Some (Waits, b)
  else if doneflag b && (totalitems b <=? 0) then Some (Returns ECANCELED, b)
  else (fun '(x, b) => (Gets x, b)) <$> take_out b.

Definition putitem (x : Z) (b : buf) : option (body * buf) :=
  if (BUFSIZE <=? totalitems b) && negb (doneflag b) then Some (Waits, b)
  else if doneflag b then Some (Returns ECANCELED, b)
  else (fun b => (Puts, b)) <$> put_in x b.

Definition getdone (b : buf) : bool := doneflag b.

Definition setdone (b : buf) : buf := mkBuf (buffer b) (bufin b) (bufout b) (totalitems b) true.

(** buffercond.c, without the flag, and buffer.c, which does not wait. *)
Module Cond.

Definition getitem (b : buf) : option (body * buf) :=
  if totalitems b <=? 0 then Some (Waits, b) else (fun '(x, b) => (Gets x, b)) <$> take_out b.

Definition putitem (x : Z) (b : buf) : option (body * buf) :=
  if BUFSIZE <=? totalitems b then Some (Waits, b) else (fun b => (Puts, b)) <$> put_in x b.

End Cond.

Module Plain.

Definition getitem (b : buf) : option (body * buf) :=
  if 0 <? totalitems b then (fun '(x, b) => (Gets x, b)) <$> take_out b else Some (Returns EAGAIN, b).

Definition putitem (x : Z) (b : buf) : option (body * buf) :=
  if totalitems b <? BUFSIZE then (fun b => (Puts, b)) <$> put_in x b else Some (Returns EAGAIN, b).

End Plain.

(** ** The threads *)

(** [producer]: before [randsafe], in [putitem] and not waiting, asleep,
    before [getdone], returned. *)
Inductive producer := PRand | PPut (x : Z) | PSleep (x : Z) | PCheck | PEnd.

(** [consumer]: in [getitem] and not waiting, asleep, before [add],
    returned. *)
Inductive consumer := CGet | CSleep | CAdd (x : Z) | CEnd.

(** The items put in, taken out and added, in order; the errors given to
    [seterror]; out of bounds. *)
Record sys := mkSys { s_buf : buf; s_prod : gmap nat producer; s_cons : gmap nat consumer; s_in : list Z; s_out : list Z; s_sum : list Z; s_error : list Z; s_crash : bool }.

(** [pthread_cond_signal] wakes one of the threads that are asleep, if there
    are any. *)
Definition sleeping_c (x : consumer) : bool := match x with CSleep => true | _ => false end.
Definition sleeping_p (x : producer) : bool := match x with PSleep _ => true | _ => false end.

Definition wake_c (x : consumer) : consumer := match x with CSleep => CGet | x => x end.
Definition wake_p (x : producer) : producer := match x with PSleep v => PPut v | x => x end.

Definition signal_c (w : option nat) (m m' : gmap nat consumer) : Prop :=
  match w with
  | Some t => m !! t = Some CSleep /\ m' = <[t := CGet]> m
  | None => (forall t, m !! t <> Some CSleep) /\ m' = m
  end.

Definition signal_p (w : option nat) (m m' : gmap nat producer) : Prop :=
  match w with
  | Some t => exists v, m !! t = Some (PSleep v) /\ m' = <[t := PPut v]> m
  | None => (forall t v, m !! t <> Some (PSleep v)) /\ m' = m
  end.

Inductive step : sys -> sys -> Prop :=
| SRand b ps cs i o su e t x :
    ps !! t = Some PRand -> step (mkSys b ps cs i o su e false) (mkSys b (<[t := PPut x]> ps) cs i o su e false)
| SPutWait b ps cs i o su e t x b' :
    ps !! t = Some (PPut x) -> putitem x b = Some (Waits, b') -> step (mkSys b ps cs i o su e false) (mkSys b' (<[t := PSleep x]> ps) cs i o su e false)
| SPutError b ps cs i o su e t x er b' :
    ps !! t = Some (PPut x) -> putitem x b = Some (Returns er, b') ->
    step (mkSys b ps cs i o su e false) (mkSys b' (<[t := PEnd]> ps) cs i o su (if er =? ECANCELED then e else e ++ [er]) false)
| SPut b ps cs i o su e t x b' w cs' :
    ps !! t = Some (PPut x) -> putitem x b = Some (Puts, b') -> signal_c w cs cs' ->
    step (mkSys b ps cs i o su e false) (mkSys b' (<[t := PCheck]> ps) cs' (i ++ [x]) o su e false)
| SPutCrash b ps cs i o su e t x :
    ps !! t = Some (PPut x) -> putitem x b = None -> step (mkSys b ps cs i o su e false) (mkSys b ps cs i o su e true)
| SCheck b ps cs i o su e t :
    ps !! t = Some PCheck -> step (mkSys b ps cs i o su e false) (mkSys b (<[t := if getdone b then PEnd else PRand]> ps) cs i o su e false)
| SGetWait b ps cs i o su e t b' :
    cs !! t = Some CGet -> getitem b = Some (Waits, b') -> step (mkSys b ps cs i o su e false) (mkSys b' ps (<[t := CSleep]> cs) i o su e false)
| SGetError b ps cs i o su e t er b' :
    cs !! t = Some CGet -> getitem b = Some (Returns er, b') ->
    step (mkSys b ps cs i o su e false) (mkSys b' ps (<[t := CEnd]> cs) i o su (if er =? ECANCELED then e else e ++ [er]) false)
| SGet b ps cs i o su e t x b' w ps' :
    cs !! t = Some CGet -> getitem b = Some (Gets x, b') -> signal_p w ps ps' ->
    step (mkSys b ps cs i o su e false) (mkSys b' ps' (<[t := CAdd x]> cs) i (o ++ [x]) su e false)
| SGetCrash b ps cs i o su e t :
    cs !! t = Some CGet -> getitem b = None -> step (mkSys b ps cs i o su e false) (mkSys b ps cs i o su e true)
| SAdd b ps cs i o su e t x :
    cs !! t = Some (CAdd x) -> step (mkSys b ps cs i o su e false) (mkSys b ps (<[t := CGet]> cs) i o (su ++ [x]) e false).

(** [setdone] of the main thread, and wakeups without a signal. *)
Inductive main_step : sys -> sys -> Prop :=
| MDone b ps cs i o su e :
    main_step (mkSys b ps cs i o su e false) (mkSys (setdone b) (wake_p <$> ps) (wake_c <$> cs) i o su e false)
| MSpuriousC b ps cs i o su e t :
    cs !! t = Some CSleep -> main_step (mkSys b ps cs i o su e false) (mkSys b ps (<[t := CGet]> cs) i o su e false)
| MSpuriousP b ps cs i o su e t v :
    ps !! t = Some (PSleep v) -> main_step (mkSys b ps cs i o su e false) (mkSys b (<[t := PPut v]> ps) cs i o su e false).

Definition start (ps cs : gset nat) : sys := mkSys buf0 (gset_to_gmap PRand ps) (gset_to_gmap CGet cs) [] [] [] [] false.

(** Any steps; [n] steps of the threads. *)
Inductive reach (s : sys) : sys -> Prop :=
| reach_refl : reach s s
| reach_step s1 s2 : reach s s1 -> step s1 s2 -> reach s s2
| reach_main s1 s2 : reach s s1 -> main_step s1 s2 -> reach s s2.

Inductive steps : nat -> sys -> sys -> Prop :=
| steps_refl s : steps 0 s s
| steps_step n s s1 s2 : step s s1 -> steps n s1 s2 -> steps (S n) s s2.

(** ** The ring *)
Record ring (b : buf) (l : list Z) : Prop := mkRing {
  r_len : zlen (buffer b) = BUFSIZE;
  r_out : 0 <= bufout b < BUFSIZE;
  r_in : bufin b = (bufout b + zlen l) mod BUFSIZE;
  r_tot : totalitems b = zlen l;
  r_max : zlen l <= BUFSIZE;
  r_items : forall j x, l !! j = Some x -> buffer b !! Z.to_nat ((bufout b + Z.of_nat j) mod BUFSIZE) = Some x
}.

Ltac ringarith := unfold BUFSIZE, zlen in *; Z.to_euclidean_division_equations; lia.

Lemma ring0 : ring buf0 [].
Proof. constructor; done. Qed.

Lemma take_out_run b x l : ring b (x :: l) -> exists b', take_out b = Some (x, b') /\ ring b' l /\ doneflag b' = doneflag b.
Proof.
  intros [H1 H2 H3 H4 H5 H6]. unfold take_out. pose proof (H6 0%nat x eq_refl) as Hx. rewrite Z.add_0_r, Z.mod_small in Hx by done. rewrite Hx. cbn [fmap option_fmap option_map]. eexists. split; [done|]. split; [|done]. rewrite zlen_cons in *.
  constructor; cbn [buffer bufin bufout totalitems]; [done|ringarith| |lia|lia|].
  - rewrite H3, Zplus_mod_idemp_l. f_equal. lia.
  - intros j y Hj. rewrite Zplus_mod_idemp_l, <- Z.add_assoc. specialize (H6 (S j) y Hj). rewrite Nat2Z.inj_succ in H6. by replace (1 + Z.of_nat j) with (Z.succ (Z.of_nat j)) by lia.
Qed.

Lemma put_in_run b x l : ring b l -> zlen l < BUFSIZE -> exists b', put_in x b = Some b' /\ ring b' (l ++ [x]) /\ doneflag b' = doneflag b.
Proof.
  intros [H1 H2 H3 H4 H5 H6] Hl. unfold put_in. assert (0 <= bufin b < BUFSIZE) as Hin by (rewrite H3; ringarith). rewrite bool_decide_eq_true_2 by lia. eexists. split; [done|]. split; [|done].
  constructor; cbn [buffer bufin bufout totalitems].
  - unfold zlen in *. by rewrite length_insert.
  - done.
  - rewrite zlen_app, H3, Zplus_mod_idemp_l. f_equal. change (zlen [x]) with 1. lia.
  - rewrite zlen_app. change (zlen [x]) with 1. lia.
  - rewrite zlen_app. change (zlen [x]) with 1. lia.
  - intros j y Hj. apply lookup_app_Some in Hj as [Hj|[Hge Hj]].
    + pose proof (lookup_lt_Some _ _ _ Hj) as Hlt. rewrite list_lookup_insert_ne; [by apply H6|]. rewrite H3. ringarith.
    + destruct (j - length l)%nat as [|k] eqn:E; [|by destruct k]. injection Hj as <-. assert (j = length l) as -> by lia. change (Z.of_nat (length l)) with (zlen l). rewrite <- H3. apply list_lookup_insert_eq. unfold zlen in *. lia.
Qed.

(** What a body does. *)
Lemma getitem_run b l : ring b l ->
  match l with
  | [] => getitem b = Some (if doneflag b then Returns ECANCELED else Waits, b)
  | x :: l => exists b', getitem b = Some (Gets x, b') /\ ring b' l /\ doneflag b' = doneflag b
  end.
Proof.
  intros Hr. pose proof (r_tot _ _ Hr) as Ht. unfold getitem. rewrite Ht. destruct l as [|x l]; [by destruct (doneflag b)|]. rewrite leb_false, andb_false_r by zl. destruct (take_out_run b x l Hr) as (b' & -> & H). cbn [andb]. by exists b'.
Qed.

Lemma putitem_run x b l : ring b l ->
  if doneflag b then putitem x b = Some (Returns ECANCELED, b)
  else if BUFSIZE <=? zlen l then putitem x b = Some (Waits, b)
  else exists b', putitem x b = Some (Puts, b') /\ ring b' (l ++ [x]) /\ doneflag b' = false.
Proof.
  intros Hr. pose proof (r_tot _ _ Hr) as Ht. unfold putitem. rewrite Ht. destruct (doneflag b) eqn:Ed; [by rewrite andb_false_r|]. destruct (Z.leb_spec BUFSIZE (zlen l)); [done|]. cbn [andb]. destruct (put_in_run b x l Hr) as (b' & -> & H1 & H2); [done|]. exists b'. split; [done|]. split; [done|congruence].
Qed.

(** ** Sums over threads *)
Definition sum_of {X} (w : X -> Z) (m : gmap nat X) : Z := map_fold (fun _ x acc => w x + acc) 0 m.

Lemma sum_of_new {X} (w : X -> Z) m t x : m !! t = None -> sum_of w (<[t := x]> m) = w x + sum_of w m.
Proof. intros H. unfold sum_of. rewrite map_fold_insert_L; [done|intros; lia|done]. Qed.

Lemma sum_of_insert {X} (w : X -> Z) m t old x : m !! t = Some old -> sum_of w (<[t := x]> m) = sum_of w m - w old + w x.
Proof. intros H. rewrite <- (insert_delete_id m t old H) at 2. rewrite <- insert_delete_eq, !sum_of_new by apply lookup_delete_eq. lia. Qed.

Lemma sum_of_bound {X} (w : X -> Z) c m : (forall x, 0 <= w x <= c) -> 0 <= sum_of w m <= c * Z.of_nat (size m).
Proof. intros H. induction m as [|t x m Ht IH] using map_ind; [rewrite map_size_empty; unfold sum_of; rewrite map_fold_empty; lia|]. rewrite sum_of_new, map_size_insert_None by done. specialize (H x). lia. Qed.

(** ** The invariant *)
Definition ready_c (x : consumer) : bool := match x with CGet => true | _ => false end.
Definition ready_p (x : producer) : bool := match x with PPut _ => true | _ => false end.
Definition ended_c (x : consumer) : bool := match x with CEnd => true | _ => false end.
Definition ended_p (x : producer) : bool := match x with PEnd => true | _ => false end.
Definition held (x : consumer) : list Z := match x with CAdd x => [x] | _ => [] end.

(** While a thread sleeps, there is one on its way for every item, or for
    every slot; after [setdone] nobody sleeps. *)
Record inv (s : sys) (l : list Z) : Prop := mkInv {
  i_ring : ring (s_buf s) l;
  i_crash : s_crash s = false;
  i_error : s_error s = [];
  i_fifo : s_in s = s_out s ++ l;
  i_sum : s_out s ≡ₚ s_sum s ++ gather held (s_cons s);
  i_items : doneflag (s_buf s) = false -> 0 < count_if sleeping_c (s_cons s) -> zlen l <= count_if ready_c (s_cons s);
  i_slots : doneflag (s_buf s) = false -> 0 < count_if sleeping_p (s_prod s) -> BUFSIZE - zlen l <= count_if ready_p (s_prod s);
  i_done : doneflag (s_buf s) = true -> count_if sleeping_c (s_cons s) = 0 /\ count_if sleeping_p (s_prod s) = 0;
  i_end : doneflag (s_buf s) = false -> count_if ended_c (s_cons s) = 0 /\ count_if ended_p (s_prod s) = 0;
  i_empty : 0 < count_if ended_c (s_cons s) -> l = []
}.

Lemma signal_c_counts w m m' : signal_c w m m' ->
  (forall f, f CSleep = f CGet -> count_if f m' = count_if f m) /\ gather held m' ≡ₚ gather held m /\
  ((count_if sleeping_c m = 0 /\ m' = m) \/ (count_if sleeping_c m' = count_if sleeping_c m - 1 /\ count_if ready_c m' = count_if ready_c m + 1)).
Proof.
  destruct w as [t|]; cbn [signal_c].
  - intros [Ht ->]. split; [intros f Hf; rewrite (count_insert f m t CSleep CGet Ht), Hf; lia|]. split; [rewrite (gather_insert held m t CSleep CGet Ht), (gather_delete held m t CSleep Ht); done|].
    right. rewrite (count_insert sleeping_c m t CSleep CGet Ht), (count_insert ready_c m t CSleep CGet Ht). simpl. lia.
  - intros [Hn ->]. split; [done|]. split; [done|]. left. split; [|done]. pose proof (count_nonneg sleeping_c m). destruct (Z.eq_dec (count_if sleeping_c m) 0) as [|Hz]; [done|]. destruct (count_exists sleeping_c m) as (t & x & Hx & Hs); [lia|]. destruct x; try done. by destruct (Hn t).
Qed.

Lemma signal_p_counts w m m' : signal_p w m m' ->
  (forall f, (forall v, f (PSleep v) = f (PPut v)) -> count_if f m' = count_if f m) /\
  ((count_if sleeping_p m = 0 /\ m' = m) \/ (count_if sleeping_p m' = count_if sleeping_p m - 1 /\ count_if ready_p m' = count_if ready_p m + 1)).
Proof.
  destruct w as [t|]; cbn [signal_p].
  - intros (v & Ht & ->). split; [intros f Hf; rewrite (count_insert f m t (PSleep v) (PPut v) Ht), Hf; lia|].
    right. rewrite (count_insert sleeping_p m t (PSleep v) (PPut v) Ht), (count_insert ready_p m t (PSleep v) (PPut v) Ht). simpl. lia.
  - intros [Hn ->]. split; [done|]. left. split; [|done]. pose proof (count_nonneg sleeping_p m). destruct (Z.eq_dec (count_if sleeping_p m) 0) as [|Hz]; [done|]. destruct (count_exists sleeping_p m) as (t & x & Hx & Hs); [lia|]. destruct x; try done. by destruct (Hn t x).
Qed.

(** [cnt H] rewrites the counts of a map in which the thread of [H] has a
    new state. *)
Ltac cnt H := rewrite ?(count_insert _ _ _ _ _ H); cbn [Z.b2z sleeping_c ready_c ended_c sleeping_p ready_p ended_p].

(** A producer moves, and the rest is as it was. *)
Lemma inv_prod b ps cs i o su e l t p p' :
  inv (mkSys b ps cs i o su e false) l -> ps !! t = Some p -> sleeping_p p' = false -> (doneflag b = false -> sleeping_p p = true \/ ready_p p = true -> ready_p p' = true) -> (ended_p p' = true -> doneflag b = true) ->
  inv (mkSys b (<[t := p']> ps) cs i o su e false) l.
Proof.
  intros [] Ht Hs Hr He. cbn [s_buf s_prod s_cons s_in s_out s_sum s_error s_crash] in *. constructor; cbn [s_buf s_prod s_cons s_in s_out s_sum s_error s_crash]; try done.
  - intros Hd. rewrite (count_insert sleeping_p _ _ _ _ Ht), (count_insert ready_p _ _ _ _ Ht), Hs. specialize (i_slots0 Hd). pose proof (count_nonneg sleeping_p ps). intros H0.
    assert (0 < count_if sleeping_p ps) by (destruct (sleeping_p p) eqn:E; [by eapply count_pos|simpl in *; lia]). specialize (i_slots0 ltac:(done)). destruct (ready_p p) eqn:E; [rewrite (Hr Hd) by auto; simpl; lia|]. simpl. destruct (ready_p p'); simpl; lia.
  - intros Hd. destruct (i_done0 Hd) as [Hc Hp]. split; [done|]. rewrite (count_insert sleeping_p _ _ _ _ Ht), Hs, Hp, (count_zero _ _ _ _ Hp Ht). done.
  - intros Hd. destruct (i_end0 Hd) as [Hc Hp]. split; [done|]. rewrite (count_insert ended_p _ _ _ _ Ht), Hp, (count_zero _ _ _ _ Hp Ht). destruct (ended_p p') eqn:E; [|done]. specialize (He eq_refl). congruence.
Qed.

Ltac fields := cbn [s_buf s_prod s_cons s_in s_out s_sum s_error s_crash] in *.

Lemma put_wait_inv b ps cs i o su e l t x : inv (mkSys b ps cs i o su e false) l -> ps !! t = Some (PPut x) -> doneflag b = false -> BUFSIZE <= zlen l -> inv (mkSys b (<[t := PSleep x]> ps) cs i o su e false) l.
Proof.
  intros [] Ht Hd Hl. fields. constructor; fields; try done; [|by rewrite Hd|]; intros _.
  - intros _. pose proof (count_nonneg ready_p (<[t := PSleep x]> ps)). lia.
  - destruct (i_end0 Hd) as [Hc Hp]. split; [done|]. rewrite (count_insert ended_p _ _ _ _ Ht), Hp. done.
Qed.

Lemma put_inv b ps cs i o su e l t x b' w cs' :
  inv (mkSys b ps cs i o su e false) l -> ps !! t = Some (PPut x) -> doneflag b = false -> ring b' (l ++ [x]) -> doneflag b' = false -> signal_c w cs cs' ->
  inv (mkSys b' (<[t := PCheck]> ps) cs' (i ++ [x]) o su e false) (l ++ [x]).
Proof.
  intros [] Ht Hd Hr Hd' Hs. fields. destruct (signal_c_counts w cs cs' Hs) as (Hf & Hg & Hw). specialize (i_items0 Hd). specialize (i_slots0 Hd). destruct (i_end0 Hd) as [Hce Hpe].
  constructor; fields; try done; rewrite ?zlen_app; change (zlen [x]) with 1.
  - by rewrite i_fifo0, app_assoc.
  - by rewrite Hg.
  - intros _ H0. destruct Hw as [[Hz ->]|[H1 H2]]; [lia|]. rewrite H2. specialize (i_items0 ltac:(lia)). lia.
  - intros _. rewrite (count_insert sleeping_p _ _ _ _ Ht), (count_insert ready_p _ _ _ _ Ht). simpl. intros H0. specialize (i_slots0 ltac:(lia)). lia.
  - by rewrite Hd'.
  - intros _. rewrite (Hf ended_c eq_refl), (count_insert ended_p _ _ _ _ Ht). simpl. lia.
  - rewrite (Hf ended_c eq_refl). lia.
Qed.

Lemma get_wait_inv b ps cs i o su e t : inv (mkSys b ps cs i o su e false) [] -> cs !! t = Some CGet -> doneflag b = false -> inv (mkSys b ps (<[t := CSleep]> cs) i o su e false) [].
Proof.
  intros [] Ht Hd. fields. constructor; fields; try done.
  - rewrite (gather_insert held cs t CGet CSleep Ht). by rewrite (gather_delete held cs t CGet Ht) in i_sum0.
  - intros _ _. apply count_nonneg.
  - by rewrite Hd.
  - intros _. destruct (i_end0 Hd) as [Hc Hp]. split; [|done]. rewrite (count_insert ended_c _ _ _ _ Ht), Hc. done.
Qed.

Lemma get_error_inv b ps cs i o su e t : inv (mkSys b ps cs i o su e false) [] -> cs !! t = Some CGet -> doneflag b = true -> inv (mkSys b ps (<[t := CEnd]> cs) i o su e false) [].
Proof.
  intros [] Ht Hd. fields. constructor; fields; try done; rewrite ?Hd; try done.
  - rewrite (gather_insert held cs t CGet CEnd Ht). by rewrite (gather_delete held cs t CGet Ht) in i_sum0.
  - intros _. destruct (i_done0 Hd) as [Hc Hp]. split; [|done]. rewrite (count_insert sleeping_c _ _ _ _ Ht), Hc. done.
Qed.

Lemma get_inv b ps cs i o su e l t x b' w ps' :
  inv (mkSys b ps cs i o su e false) (x :: l) -> cs !! t = Some CGet -> ring b' l -> doneflag b' = doneflag b -> signal_p w ps ps' ->
  inv (mkSys b' ps' (<[t := CAdd x]> cs) i (o ++ [x]) su e false) l.
Proof.
  intros [] Ht Hr Hd Hs. fields. destruct (signal_p_counts w ps ps' Hs) as (Hf & Hw). rewrite zlen_cons in *.
  constructor; fields; try done; rewrite ?Hd, ?(count_insert sleeping_c _ _ _ _ Ht), ?(count_insert ready_c _ _ _ _ Ht), ?(count_insert ended_c _ _ _ _ Ht); cbn [sleeping_c ready_c ended_c Z.b2z].
  - by rewrite i_fifo0, <- app_assoc.
  - rewrite (gather_insert held cs t CGet (CAdd x) Ht). rewrite (gather_delete held cs t CGet Ht) in i_sum0. rewrite i_sum0. cbn [held app]. solve_Permutation.
  - intros H1 H2. specialize (i_items0 H1 ltac:(lia)). lia.
  - intros H1 H2. destruct Hw as [[Hz ->]|[H3 H4]]; [lia|]. specialize (i_slots0 H1 ltac:(lia)). lia.
  - intros H1. destruct (i_done0 H1) as [Hc Hp]. split; [lia|]. destruct Hw as [[Hz ->]|[H3 H4]]; [done|]. pose proof (count_nonneg sleeping_p ps'). lia.
  - intros H1. destruct (i_end0 H1) as [Hc Hp]. rewrite (Hf ended_p) by done. lia.
  - intros H1. by specialize (i_empty0 ltac:(lia)).
Qed.

Lemma add_inv b ps cs i o su e l t x : inv (mkSys b ps cs i o su e false) l -> cs !! t = Some (CAdd x) -> inv (mkSys b ps (<[t := CGet]> cs) i o (su ++ [x]) e false) l.
Proof.
  intros [] Ht. fields. constructor; fields; try done; rewrite ?(count_insert sleeping_c _ _ _ _ Ht), ?(count_insert ready_c _ _ _ _ Ht), ?(count_insert ended_c _ _ _ _ Ht); cbn [sleeping_c ready_c ended_c Z.b2z].
  - rewrite (gather_insert held cs t _ CGet Ht). rewrite (gather_delete held cs t _ Ht) in i_sum0. rewrite i_sum0. cbn [held app]. by rewrite <- app_assoc.
  - intros H1 H2. specialize (i_items0 H1 ltac:(lia)). lia.
  - intros H1. destruct (i_done0 H1). lia.
  - intros H1. destruct (i_end0 H1). lia.
  - intros H1. apply i_empty0. lia.
Qed.

Lemma buf_step_inv s s' l : inv s l -> step s s' -> exists l', inv s' l'.
Proof.
  intros Hinv Hst. destruct Hst as [b ps cs i o su e t x Ht|b ps cs i o su e t x b' Ht E|b ps cs i o su e t x er b' Ht E|b ps cs i o su e t x b' w cs' Ht E Hs|b ps cs i o su e t x Ht E|b ps cs i o su e t Ht
    |b ps cs i o su e t b' Ht E|b ps cs i o su e t er b' Ht E|b ps cs i o su e t x b' w ps' Ht E Hs|b ps cs i o su e t Ht E|b ps cs i o su e t x Ht]; pose proof (i_ring _ _ Hinv) as Hr; fields.
  1: { exists l. eapply inv_prod; done. }
  1-4: pose proof (putitem_run x b l Hr) as Hp; destruct (doneflag b) eqn:Ed; [|destruct (Z.leb_spec BUFSIZE (zlen l)); [|destruct Hp as (b1 & Hp & Hr1 & Hd1)]]; rewrite Hp in E; simplify_eq.
  - exists l. by apply put_wait_inv.
  - exists l. eapply inv_prod; try done. congruence.
  - exists (l ++ [x]). by eapply put_inv.
  - exists l. unfold getdone. eapply inv_prod; [done|done|by destruct (doneflag b)|by intros _ []|by destruct (doneflag b)].
  - pose proof (getitem_run b l Hr) as Hg. destruct l as [|y l]; [|destruct Hg as (b1 & Hg & _); congruence]. rewrite Hg in E. destruct (doneflag b) eqn:Ed; [done|]. injection E as <-. exists []. by apply get_wait_inv.
  - pose proof (getitem_run b l Hr) as Hg. destruct l as [|y l]; [|destruct Hg as (b1 & Hg & _); congruence]. rewrite Hg in E. destruct (doneflag b) eqn:Ed; [|done]. injection E as <- <-. exists []. by apply get_error_inv.
  - pose proof (getitem_run b l Hr) as Hg. destruct l as [|y l]; [rewrite Hg in E; by destruct (doneflag b)|]. destruct Hg as (b1 & Hg & Hr1 & Hd1). rewrite Hg in E. injection E as -> ->. exists l. by eapply get_inv.
  - pose proof (getitem_run b l Hr) as Hg. destruct l as [|y l]; [congruence|]. destruct Hg as (b1 & Hg & _). congruence.
  - exists l. by apply add_inv.
Qed.

Lemma wake_all_counts {X} (f : X -> bool) (g : X -> X) m : (forall x, f (g x) = false) -> count_if f (g <$> m) = 0.
Proof. intros H. rewrite (count_fmap f (fun _ => false) g m H). apply count_false. Qed.

Lemma gather_wake m : gather held (wake_c <$> m) ≡ₚ gather held m.
Proof.
  induction m as [|t x m Ht IH] using map_ind; [by rewrite fmap_empty|]. rewrite fmap_insert. assert (forall (y : consumer) (n : gmap nat consumer), n !! t = None -> gather held (<[t := y]> n) ≡ₚ held y ++ gather held n) as Hg.
  { intros y n Hn. rewrite (gather_delete held _ t y) by apply lookup_insert_eq. by rewrite delete_insert_id. }
  rewrite !Hg by (rewrite ?lookup_fmap, ?Ht; done). rewrite IH. by destruct x.
Qed.

Lemma main_inv s s' l : inv s l -> main_step s s' -> exists l', inv s' l'.
Proof.
  intros Hinv Hst. destruct Hst as [b ps cs i o su e|b ps cs i o su e t Ht|b ps cs i o su e t v Ht].
  - exists l. destruct Hinv. fields. constructor; fields; cbn [doneflag setdone]; try done.
    + destruct i_ring0. by constructor.
    + by rewrite gather_wake.
    + intros _. split; apply wake_all_counts; by intros [].
    + rewrite (count_fmap ended_c ended_c wake_c cs) by (by intros []). done.
  - exists l. destruct Hinv. fields. constructor; fields; try done; rewrite ?(count_insert sleeping_c _ _ _ _ Ht), ?(count_insert ready_c _ _ _ _ Ht), ?(count_insert ended_c _ _ _ _ Ht); cbn [sleeping_c ready_c ended_c Z.b2z].
    + rewrite (gather_insert held cs t CSleep CGet Ht). by rewrite (gather_delete held cs t CSleep Ht) in i_sum0.
    + intros H1 H2. specialize (i_items0 H1 ltac:(lia)). lia.
    + intros H1. destruct (i_done0 H1) as [Hc _]. pose proof (count_zero _ _ _ _ Hc Ht). done.
    + intros H1. destruct (i_end0 H1). lia.
    + intros H1. apply i_empty0. lia.
  - exists l. eapply inv_prod; try done.
Qed.

Lemma count_gset {X} (f : X -> bool) (x : X) (S : gset nat) : f x = false -> count_if f (gset_to_gmap x S) = 0.
Proof.
  intros H. pose proof (count_nonneg f (gset_to_gmap x S)). destruct (Z.eq_dec (count_if f (gset_to_gmap x S)) 0) as [|Hn]; [done|]. destruct (count_exists f (gset_to_gmap x S)) as (t & y & Hy & Hf); [lia|]. apply lookup_gset_to_gmap_Some in Hy as [_ <-]. congruence.
Qed.

Lemma buf_start_inv ps cs : inv (start ps cs) [].
Proof.
  constructor; fields; cbn; try done; rewrite ?count_gset by done; try done; try apply ring0.
  assert (gather held (gset_to_gmap CGet cs) = []) as ->; [|done]. destruct (gather held (gset_to_gmap CGet cs)) as [|y g] eqn:E; [done|]. assert (y ∈ gather held (gset_to_gmap CGet cs)) as Hy by (rewrite E; by constructor). apply gather_elem in Hy as (t & c & Hc & Hy). apply lookup_gset_to_gmap_Some in Hc as [_ <-]. by apply not_elem_of_nil in Hy.
Qed.

Lemma buf_reach_inv ps cs s : reach (start ps cs) s -> exists l, inv s l.
Proof. induction 1 as [|s1 s2 _ [l IH] Hst|s1 s2 _ [l IH] Hst]; [exists []; apply buf_start_inv|by eapply buf_step_inv|by eapply main_inv]. Qed.

(** ** Progress *)
Lemma signal_c_ex m : exists w m', signal_c w m m'.
Proof.
  destruct (decide (0 < count_if sleeping_c m)) as [H|H].
  - destruct (count_exists _ _ H) as (t & x & Hx & Hs). destruct x; try done. by exists (Some t), (<[t := CGet]> m).
  - exists None, m. split; [|done]. intros t Ht. apply H. by eapply count_pos.
Qed.

Lemma signal_p_ex m : exists w m', signal_p w m m'.
Proof.
  destruct (decide (0 < count_if sleeping_p m)) as [H|H].
  - destruct (count_exists _ _ H) as (t & x & Hx & Hs). destruct x as [|v|v| |]; try done. exists (Some t), (<[t := PPut v]> m), v. done.
  - exists None, m. split; [|done]. intros t v Ht. apply H. by eapply count_pos.
Qed.

Lemma cons_can s l t c : inv s l -> s_cons s !! t = Some c -> c <> CSleep -> c <> CEnd -> exists s', step s s'.
Proof.
  intros Hinv Ht H1 H2. pose proof (i_ring _ _ Hinv) as Hr. pose proof (i_crash _ _ Hinv) as Hcr. destruct s as [b ps cs i o su e cr]. fields. subst cr. destruct c as [| |x|]; try done; [|eexists; by eapply SAdd].
  pose proof (getitem_run b l Hr) as Hg. destruct l as [|y l]; [destruct (doneflag b); eexists; [by eapply SGetError|by eapply SGetWait]|]. destruct Hg as (b' & Hg & _). destruct (signal_p_ex ps) as (w & ps' & Hs). eexists. by eapply SGet.
Qed.

Lemma prod_can s l t p : inv s l -> s_prod s !! t = Some p -> sleeping_p p = false -> p <> PEnd -> exists s', step s s'.
Proof.
  intros Hinv Ht H1 H2. pose proof (i_ring _ _ Hinv) as Hr. pose proof (i_crash _ _ Hinv) as Hcr. destruct s as [b ps cs i o su e cr]. fields. subst cr. destruct p as [|x|x| |]; try done; [eexists; by eapply (SRand _ _ _ _ _ _ _ _ 0)| |eexists; by eapply SCheck].
  pose proof (putitem_run x b l Hr) as Hp. destruct (doneflag b); [eexists; by eapply SPutError|]. destruct (BUFSIZE <=? zlen l); [eexists; by eapply SPutWait|]. destruct Hp as (b' & Hp & _). destruct (signal_c_ex cs) as (w & cs' & Hs). eexists. by eapply SPut.
Qed.

Lemma all_sleep {X} (f g : X -> bool) m : (forall t x, m !! t = Some x -> f x = true) -> (forall x, f x = true -> g x = false) -> m <> ∅ -> 0 < count_if f m /\ count_if g m = 0.
Proof.
  intros H Hfg Hne. apply map_choose in Hne as (t & x & Hx). split; [eapply count_pos; [done|by apply (H t x)]|]. pose proof (count_nonneg g m). destruct (Z.eq_dec (count_if g m) 0) as [|Hn]; [done|]. destruct (count_exists g m) as (t' & y & Hy & Hg); [lia|]. rewrite (Hfg y) in Hg; [done|by apply (H t' y)].
Qed.

(** Before [setdone], with a producer and a consumer, somebody can go on. *)
Lemma buf_progress s l : inv s l -> doneflag (s_buf s) = false -> s_prod s <> ∅ -> s_cons s <> ∅ -> exists s', step s s'.
Proof.
  intros Hinv Hd Hp Hc. destruct (i_end _ _ Hinv Hd) as [Hce Hpe].
  destruct (decide (map_Exists (fun _ c => sleeping_c c = false) (s_cons s))) as [(t & c & Ht & Hne)|Hc'].
  { apply (cons_can s l t c); try done; intros ->; [done|]. pose proof (count_zero _ _ _ _ Hce Ht). done. }
  destruct (decide (map_Exists (fun _ p => sleeping_p p = false) (s_prod s))) as [(t & p & Ht & Hne)|Hp'].
  { apply (prod_can s l t p); try done. intros ->. pose proof (count_zero _ _ _ _ Hpe Ht). done. }
  destruct (all_sleep sleeping_c ready_c (s_cons s)) as [H1 H2]; [|by intros []|done|].
  { intros t c Ht. destruct (sleeping_c c) eqn:E; [done|]. destruct Hc'. by exists t, c. }
  destruct (all_sleep sleeping_p ready_p (s_prod s)) as [H3 H4]; [|by intros []|done|].
  { intros t p Ht. destruct (sleeping_p p) eqn:E; [done|]. destruct Hp'. by exists t, p. }
  pose proof (i_items _ _ Hinv Hd H1). pose proof (i_slots _ _ Hinv Hd H3). unfold BUFSIZE in *. lia.
Qed.

(** ** The end *)
Definition left_p (p : producer) : Z := match p with PRand => 2 | PEnd => 0 | _ => 1 end.
Definition left_c (c : consumer) : Z := match c with CAdd _ => 2 | CEnd => 0 | _ => 1 end.

Definition measure (s : sys) : Z := sum_of left_p (s_prod s) + sum_of left_c (s_cons s) + 2 * totalitems (s_buf s).

Lemma signal_p_left w m m' : signal_p w m m' -> sum_of left_p m' = sum_of left_p m /\ dom m' = dom m.
Proof.
  destruct w as [t|]; cbn [signal_p]; [|by intros [_ ->]]. intros (v & Ht & ->). rewrite (sum_of_insert left_p m t (PSleep v) (PPut v) Ht). split; [simpl; lia|]. apply dom_insert_lookup_L. by eexists.
Qed.

Lemma signal_c_dom w m m' : signal_c w m m' -> dom m' = dom m.
Proof. destruct w as [t|]; cbn [signal_c]; [|by intros [_ ->]]. intros [Ht ->]. apply dom_insert_lookup_L. by eexists. Qed.

Lemma step_dom s s' : step s s' -> dom (s_prod s') = dom (s_prod s) /\ dom (s_cons s') = dom (s_cons s).
Proof.
  intros Hst. destruct Hst; fields; try done; repeat match goal with
    | H : signal_c _ _ _ |- _ => apply signal_c_dom in H
    | H : signal_p _ _ _ |- _ => apply signal_p_left in H as [_ H]
    end; split; try done; apply dom_insert_lookup_L; by eexists.
Qed.

Lemma main_dom s s' : main_step s s' -> dom (s_prod s') = dom (s_prod s) /\ dom (s_cons s') = dom (s_cons s).
Proof. intros Hst. destruct Hst; fields; rewrite ?dom_fmap_L; split; try done; apply dom_insert_lookup_L; by eexists. Qed.

Lemma reach_dom ps cs s : reach (start ps cs) s -> dom (s_prod s) = ps /\ dom (s_cons s) = cs.
Proof.
  induction 1 as [|s1 s2 _ [IH1 IH2] Hst|s1 s2 _ [IH1 IH2] Hst]; [split; apply dom_gset_to_gmap|apply step_dom in Hst as [-> ->]|apply main_dom in Hst as [-> ->]]; done.
Qed.

Lemma done_step s s' l : inv s l -> doneflag (s_buf s) = true -> step s s' -> doneflag (s_buf s') = true /\ s_in s' = s_in s /\ measure s' = measure s - 1.
Proof.
  intros Hinv Hd Hst. pose proof (i_ring _ _ Hinv) as Hr. unfold measure. destruct Hst as [b ps cs i o su e t x Ht|b ps cs i o su e t x b' Ht E|b ps cs i o su e t x er b' Ht E|b ps cs i o su e t x b' w cs' Ht E Hs|b ps cs i o su e t x Ht E|b ps cs i o su e t Ht
    |b ps cs i o su e t b' Ht E|b ps cs i o su e t er b' Ht E|b ps cs i o su e t x b' w ps' Ht E Hs|b ps cs i o su e t Ht E|b ps cs i o su e t x Ht]; fields; rewrite ?(sum_of_insert _ _ _ _ _ Ht); cbn [left_p left_c].
  1: { split; [done|]. split; [done|]. lia. }
  1-4: pose proof (putitem_run x b l Hr) as Hp; rewrite Hd in Hp; rewrite Hp in E; simplify_eq; (split; [done|]; split; [done|]; lia).
  - unfold getdone. rewrite Hd. cbn [left_p]. split; [done|]. split; [done|]. lia.
  - pose proof (getitem_run b l Hr) as Hg. destruct l as [|y l]; [rewrite Hd in Hg; congruence|destruct Hg as (b1 & Hg & _); congruence].
  - pose proof (getitem_run b l Hr) as Hg. destruct l as [|y l]; [|destruct Hg as (b1 & Hg & _); congruence]. rewrite Hg in E. injection E as _ <-. split; [done|]. split; [done|]. lia.
  - pose proof (getitem_run b l Hr) as Hg. destruct l as [|y l]; [rewrite Hg, Hd in E; done|]. destruct Hg as (b1 & Hg & Hr1 & Hd1). rewrite Hg in E. injection E as -> ->. split; [congruence|]. split; [done|]. destruct (signal_p_left _ _ _ Hs) as [-> _]. rewrite (r_tot _ _ Hr), (r_tot _ _ Hr1), zlen_cons. lia.
  - pose proof (getitem_run b l Hr) as Hg. destruct l as [|y l]; [congruence|]. destruct Hg as (b1 & Hg & _). congruence.
  - split; [done|]. split; [done|]. lia.
Qed.

Lemma done_steps n s s' : steps n s s' -> forall l, inv s l -> doneflag (s_buf s) = true ->
  (exists l', inv s' l') /\ doneflag (s_buf s') = true /\ s_in s' = s_in s /\ measure s' = measure s - Z.of_nat n /\ dom (s_cons s') = dom (s_cons s) /\ dom (s_prod s') = dom (s_prod s).
Proof.
  induction 1 as [s|n s s1 s2 Hst _ IH]; intros l Hinv Hd.
  - split; [by exists l|]. split; [done|]. split; [done|]. split; [lia|]. done.
  - destruct (buf_step_inv s s1 l Hinv Hst) as [l1 Hinv1]. destruct (done_step s s1 l Hinv Hd Hst) as (Hd1 & Hi & Hm). destruct (step_dom s s1 Hst) as [D1 D2]. destruct (IH l1 Hinv1 Hd1) as (H1 & H2 & H3 & H4 & H5 & H6).
    split; [done|]. split; [done|]. split; [congruence|]. split; [lia|]. split; congruence.
Qed.

Lemma measure_bound s l ps cs : inv s l -> dom (s_prod s) = ps -> dom (s_cons s) = cs -> 0 <= measure s <= 2 * Z.of_nat (size ps) + 2 * Z.of_nat (size cs) + 16.
Proof.
  intros Hinv <- <-. rewrite !size_dom. unfold measure. pose proof (i_ring _ _ Hinv) as Hr. rewrite (r_tot _ _ Hr). pose proof (r_max _ _ Hr). pose proof (zlen_nonneg l).
  assert (forall x, 0 <= left_p x <= 2) as Hp by (intros []; simpl; lia). assert (forall x, 0 <= left_c x <= 2) as Hc by (intros []; simpl; lia).
  pose proof (sum_of_bound left_p 2 (s_prod s) Hp). pose proof (sum_of_bound left_c 2 (s_cons s) Hc). unfold BUFSIZE in *. lia.
Qed.

(** When nobody can go on after [setdone], all threads have returned, and
    what was put in has been added. *)
Lemma done_stuck s l : inv s l -> doneflag (s_buf s) = true -> (forall s', ~ step s s') ->
  (forall t p, s_prod s !! t = Some p -> p = PEnd) /\ (forall t c, s_cons s !! t = Some c -> c = CEnd) /\ (s_cons s <> ∅ -> s_sum s ≡ₚ s_in s).
Proof.
  intros Hinv Hd Hst. destruct (i_done _ _ Hinv Hd) as [Hzc Hzp].
  assert (forall t c, s_cons s !! t = Some c -> c = CEnd) as Hc.
  { intros t c Ht. destruct (ended_c c) eqn:E; [by destruct c|]. destruct (cons_can s l t c Hinv Ht) as [s' Hs]; [intros ->; by pose proof (count_zero _ _ _ _ Hzc Ht)|by intros ->|]. by destruct (Hst s'). }
  split; [|split; [done|]].
  - intros t p Ht. destruct (ended_p p) eqn:E; [by destruct p|]. destruct (prod_can s l t p Hinv Ht) as [s' Hs]; [by apply (count_zero _ _ _ _ Hzp Ht)|by intros ->|]. by destruct (Hst s').
  - intros Hne. apply map_choose in Hne as (t & c & Ht). rewrite (Hc t c Ht) in Ht. assert (l = []) as -> by (apply (i_empty _ _ Hinv); by eapply count_pos).
    rewrite (i_fifo _ _ Hinv), app_nil_r, (i_sum _ _ Hinv). assert (gather held (s_cons s) = []) as ->; [|by rewrite app_nil_r].
    destruct (gather held (s_cons s)) as [|y g] eqn:E; [done|]. assert (y ∈ gather held (s_cons s)) as Hy by (rewrite E; by constructor). apply gather_elem in Hy as (t' & c' & Hc' & Hy). rewrite (Hc t' c' Hc') in Hy. by apply not_elem_of_nil in Hy.
Qed.

(** ** The properties *)

(** C40: for any numbers of producers and consumers, in every interleaving
    and with spurious wakeups: the array is not left and there is no error;
    at most BUFSIZE items are in the buffer, and they are taken out in the
    order they were put in, and each is added once; before setdone, with a
    producer and a consumer, some thread can go on; after it the threads
    stop after at most two steps for each of them and 16 more, and then
    they have all returned and, if there is a consumer, every item that was
    put in has been added. *)
Theorem buffer_correct ps cs s :
  reach (start ps cs) s ->
  s_crash s = false /\ s_error s = [] /\
  (exists l, totalitems (s_buf s) = zlen l /\ zlen l <= BUFSIZE /\ s_in s = s_out s ++ l) /\
  s_out s ≡ₚ s_sum s ++ gather held (s_cons s) /\
  (doneflag (s_buf s) = false -> ps <> ∅ -> cs <> ∅ -> exists s', step s s') /\
  (doneflag (s_buf s) = true -> forall n s', steps n s s' ->
    Z.of_nat n <= 2 * Z.of_nat (size ps) + 2 * Z.of_nat (size cs) + 16 /\
    ((forall s2, ~ step s' s2) -> (forall t p, s_prod s' !! t = Some p -> p = PEnd) /\ (forall t c, s_cons s' !! t = Some c -> c = CEnd) /\ (cs <> ∅ -> s_sum s' ≡ₚ s_in s))).
Proof.
  intros Hreach. destruct (buf_reach_inv ps cs s Hreach) as [l Hinv]. destruct (reach_dom ps cs s Hreach) as [Dp Dc]. pose proof (i_ring _ _ Hinv) as Hr.
  split; [apply Hinv|]. split; [apply Hinv|]. split; [exists l; split; [apply Hr|]; split; [apply Hr|apply Hinv]|]. split; [apply Hinv|]. split.
  - intros Hd Hp Hc. apply (buf_progress s l Hinv Hd); intros E; [apply Hp; rewrite <- Dp|apply Hc; rewrite <- Dc]; rewrite E; apply dom_empty_L.
  - intros Hd n s' Hst. destruct (done_steps n s s' Hst l Hinv Hd) as ((l' & Hinv') & Hd' & Hi & Hm & Hc & Hp). pose proof (measure_bound s l ps cs Hinv Dp Dc). pose proof (measure_bound s' l' ps cs Hinv' ltac:(congruence) ltac:(congruence)). split; [lia|].
    intros Hstuck. destruct (done_stuck s' l' Hinv' Hd' Hstuck) as (H1 & H2 & H3). split; [done|]. split; [done|]. intros Hne. rewrite <- Hi. apply H3. intros E. apply Hne. rewrite <- Dc, <- Hc, E. apply dom_empty_L.
Qed.

(** One producer and one consumer: an item is put in and taken out, then
    main calls setdone. *)
Lemma buffer_correct_witness :
  exists s, reach (start {[0%nat]} {[0%nat]}) s /\ doneflag (s_buf s) = true /\ s_in s = [5] /\ forall n s', steps n s s' -> Z.of_nat n <= 20.
Proof.
  set (ps0 := gset_to_gmap PRand {[0%nat]} : gmap nat producer). set (cs0 := gset_to_gmap CGet {[0%nat]} : gmap nat consumer). set (ps2 := <[0%nat := PCheck]> (<[0%nat := PPut 5]> ps0)). eexists.
  assert (reach (start {[0%nat]} {[0%nat]}) (mkSys (setdone (mkBuf (5 :: replicate 7 0) 1 1 0 false)) (wake_p <$> ps2) (wake_c <$> <[0%nat := CAdd 5]> cs0) [5] [5] [] [] false)) as Hr.
  { eapply reach_main; [|apply MDone]. eapply reach_step; [|eapply (SGet (mkBuf (5 :: replicate 7 0) 1 0 1 false) ps2 cs0 [5] [] [] [] 0%nat 5 _ None); [done|done|split; [|done]; intros t v; unfold ps2, ps0; rewrite !lookup_insert_Some, lookup_gset_to_gmap_Some; naive_solver]].
    eapply reach_step; [|eapply (SPut buf0 (<[0%nat := PPut 5]> ps0) cs0 [] [] [] [] 0%nat 5 _ None); [done|done|split; [|done]; intros t; unfold cs0; rewrite lookup_gset_to_gmap_Some; by intros [_ ?]]].
    eapply reach_step; [|eapply (SRand buf0 ps0 cs0 [] [] [] [] 0%nat 5); done]. apply reach_refl. }
  split; [exact Hr|]. destruct (buffer_correct {[0%nat]} {[0%nat]} _ Hr) as (_ & _ & _ & _ & _ & Hd). split; [done|]. split; [done|]. intros n s' Hst. exact (proj1 (Hd eq_refl n s' Hst)).
Defined.

(** The version without the flag is this one as long as the flag is not
    set, and the one that does not wait returns EAGAIN where this one
    waits. *)
Lemma versions_agree x b :
  doneflag b = false -> Cond.getitem b = getitem b /\ Cond.putitem x b = putitem x b /\
  Plain.getitem b = (if totalitems b <=? 0 then Some (Returns EAGAIN, b) else getitem b) /\ Plain.putitem x b = (if BUFSIZE <=? totalitems b then Some (Returns EAGAIN, b) else putitem x b).
Proof.
  intros Hd. unfold Cond.getitem, Cond.putitem, Plain.getitem, Plain.putitem, getitem, putitem. rewrite Hd. cbn [negb andb]. rewrite !andb_true_r, !Z.ltb_antisym. by destruct (totalitems b <=? 0), (BUFSIZE <=? totalitems b).
Qed.
